(* ===== verification/_CoqProject ===== *)
-Q . S2P
Prelude.v
Json.v
Truncate.v
Tree.v
Access.v
Namespace.v
Reparent.v
ReparentSafety.v
Ledger.v
DelegationReplies.v
Sweeper.v
A2AQueue.v
QueueSafety.v
QueueDrain.v
DrainSafety.v
Restart.v
RestartSteps.v
RestartGuards.v
TunnelPool.v
RateLimit.v
Requests.v
RequestsSafety.v
RequestsApi.v
Wake.v
WakeSafety.v
WakeRedrive.v
PgArray.v
Nudge.v
Stall.v
Approvals.v
ApprovalsSafety.v
StartGuard.v
StartGuardSafety.v
CpProvision.v
ProvisionSweep.v
Tokens.v
TokensSafety.v
VolumeMigrate.v
ContainerNames.v
OrphanSweep.v
RuntimeOverrides.v
Budget.v
McpSurface.v
WorkspaceRow.v
Heartbeat.v
HeartbeatSafety.v
AgentCard.v
Ssrf.v
Register.v
RegisterSafety.v
Lifecycle.v
LifecycleSafety.v
OrgTokens.v
Auth.v
AuthSafety.v
A2APayload.v
ActivityLog.v
Proxy.v
ProxySafety.v
InboundSecret.v
A2AAuth.v
A2AAuthSafety.v
UserTasks.v
PendingUploads.v
InstanceReconcile.v
Providers.v
Base64.v
SecretStore.v
ModelChoice.v
LlmEnv.v
BootToken.v
SecretsApi.v
SecretsSafety.v
ProvisionEnv.v
JsonText.v
AuditLedger.v
DesktopSidecar.v
Desktop.v
Delegation.v
