(* ===== verification/Prelude.v ===== *)
(** * Verification of the EnterOS workspace server

    This library models parts of the Go workspace server
    (src/workspace-server/internal/, written [internal/] below) and proves what
    makes them correct.  The server keeps a tree of agent workspaces in
    Postgres, starts their containers on a Docker daemon or through a control
    plane, follows them by their heartbeats, relays A2A messages between them,
    queues what cannot be delivered, records delegations from one agent to
    another, keeps the requests agents and users put to each other, wakes idle
    agents, puts them to sleep and restarts the ones that died.  What is modelled
    is the core of that: who a request comes from and what it may reach, how the
    tree changes, how a message, a delegation or a request ends, what a status may
    become, and when a container is started, stopped or swept away.

    ** How the code is modelled

    A table is a finite map from ids to rows, and a statement a function on it,
    with its WHERE clause, its constraints and its row count.  A statement that
    can fail takes a flag, a fault pattern or an environment record that says
    whether it does; an UPDATE that returns an error did not land, and an UPDATE
    whose [RowsAffected] fails did.  A mutex-guarded section is a function on the
    guarded state.  Handlers compose these in the order of the code, early
    returns included; those of registry.go and workspace_restart.go, which run a
    dozen statements on one row, do so in the state monad of WorkspaceRow, where
    each statement is preceded by what other writers do to the row.

    Where several goroutines, processes or transactions interleave, the
    interleaving is explicit, in one of four ways: a step relation between single
    statements or sections (Ledger, QueueSafety, RequestsSafety, WakeSafety,
    ApprovalsSafety, RestartSteps, StartGuard, TunnelPool, RateLimit); a
    sequence of events (TokensSafety, AuthSafety, Stall, WakeRedrive,
    HeartbeatSafety); other writers acting between two statements of a call, as an
    argument of it (SetStatus, DrainQueueForWorkspace, the [race] of the handlers
    and sweeps, [e_others] of a row, [m_others] of a mint); or a snapshot that was read before the locks
    (applyReparent).  Times are nanoseconds on one clock ([time]); the clock a
    statement reads is an argument.

    ** The files

    Foundations:
    - Prelude: time, database results, strings, reachability, tactics.  Json:
      the values encoding/json decodes and the field accesses on them.

    Who may reach whom:
    - Truncate: internal/textutil/truncate.go on bytes.
    - Tree: the workspaces table, its [parent_id] walks, and
      internal/handlers/org_scope.go (orgRootID, sameOrg).
    - Access: internal/registry/access.go (CanCommunicate).
    - Namespace: internal/memory/namespace/resolver.go.
    - Reparent, ReparentSafety: internal/handlers/workspace_reparent.go, one
      definition per step of applyReparent, and what a move preserves; also
      validateCreateParentID.
    - Tokens, TokensSafety: internal/wsauth/tokens.go and
      internal/handlers/tokens.go.  OrgTokens: internal/orgtoken, org_tokens.go and
      the credential of the concierge in platform_agent.go.  Auth, AuthSafety:
      internal/middleware/wsauth_middleware.go, session_auth.go and
      tenant_guard.go, over both kinds of tokens and the cached sessions.
      BootToken: internal/boottoken.
    - Ssrf: internal/handlers/ssrf.go, validateAgentURL of registry.go and the dial
      guard, on the addresses a name resolves to.
    - InboundSecret: internal/wsauth/platform_inbound.go for all workspaces of a
      process (Heartbeat has it for the one row of a beat).  A2AAuth,
      A2AAuthSafety: authenticateA2AHTTPCaller, the front of ProxyA2A,
      ReceiveA2AInbound and a2a_queue_status.go.

    Messages, delegations and requests:
    - Ledger: internal/handlers/delegation_ledger.go; SetStatus is split at its
      two statements.  DelegationReplies: delegation_ledger_writes.go and the
      reply functions of delegation.go.  Sweeper: delegation_sweeper.go.
      Delegation: the endpoints of delegation.go, the idempotency of Delegate and the
      job executeDelegation, whole and as interleaved steps.
    - A2AQueue, QueueSafety: the statements of internal/handlers/a2a_queue.go and
      the table they keep.  QueueDrain, DrainSafety: DrainQueueForWorkspace and
      what one drain leaves behind; the outcome of each dispatch is a parameter
      ([turn_env]).
    - A2APayload: the body of a message in a2a_proxy.go and a2a_proxy_helpers.go,
      normalized, stamped and read.  ActivityLog: logActivityExec of activity.go
      and the rows the proxy writes.  Proxy, ProxySafety: proxyA2ARequest with
      mock_runtime.go and workspace_routing.go, from the access check to the reply
      or the queue, and where a turn is afterwards.
    - Requests, RequestsSafety, RequestsApi: request_store.go as statements, the
      machine of their interleavings with its specification, and the handlers of
      requests.go with their authorization.
    - Approvals, ApprovalsSafety: internal/approvals/policy.go, approvals.go and
      approval_gate.go.  UserTasks: user_task_store.go and user_tasks.go.
    - PendingUploads: internal/pendinguploads and its routes in
      pending_uploads.go.
    - Wake, WakeSafety, WakeRedrive: wake_lifecycle.go, wake_redrive.go and
      wake_redrive_sweeper.go.  PgArray, Nudge: request_nudge_sweeper.go.
    - RateLimit: internal/middleware/ratelimit.go and mcp_ratelimit.go.
      TunnelPool: internal/handlers/eic_tunnel_pool.go.

    Containers:
    - Restart, RestartSteps, RestartGuards: the decisions of
      workspace_restart.go, auto_restart_breaker.go, restart_queue_hold.go and the
      dead-container verdict of a2a_proxy_helpers.go.  Stall:
      stall_watchdog.go.
    - StartGuard, StartGuardSafety: start_delete_guard.go, Start, Stop and
      RemoveVolume of internal/provisioner/provisioner.go, and CascadeDelete of
      workspace_crud.go.  VolumeMigrate: migrateVolumeIfNeeded.
    - CpProvision, ProvisionSweep: cp_ensure_image.go, cp_provision_budget.go,
      provisionWorkspaceCP and markProvisionFailed, the provisioning-timeout
      sweep and the control-plane orphan sweep.  InstanceReconcile:
      cp_instance_reconciler.go of internal/registry.
    - ContainerNames, OrphanSweep: brand_seam.go, the list methods of
      provisioner.go and internal/registry/orphan_sweeper.go.

    Secrets and models:
    - Base64: encoding/base64 of the Go library.  SecretStore: internal/crypto, the
      tables of secrets and loadWorkspaceSecrets of workspace_provision.go with
      provider_defaults.go.  SecretsApi, SecretsSafety: the handlers of secrets.go,
      and what they may change.
    - Providers: internal/providers, the registry of the providers and the provider of
      a model.  ModelChoice: model_registry_validation.go, provider_derive_helpers.go,
      offered_models.go, templates_registry.go and the key gate of secrets.go, which
      ask it.  LlmEnv: applyPlatformManagedLLMEnv of workspace_provision.go, who pays
      for a model and with which credentials.
    - ProvisionEnv: prepareProvisionContext of workspace_provision_shared.go with
      workspace_provision_forbidden_env.go, agent_git_identity.go,
      workspace_preflight.go, the hook of platform_agent.go and the chain of
      pkg/provisionhook/mutator.go, and buildContainerEnv of provisioner.go.

    Desktops and the audit ledger:
    - DesktopSidecar: local_sidecar_provisioner.go, desktop_naming.go and
      desktop_token.go, as programs of Docker calls.  Desktop: the lock of a display,
      its tokens and its session (workspace_display_control.go,
      workspace_display_session.go), desktop_route.go, internal/desktopgateway, the
      lifecycle store and the idle sweep.
    - JsonText: what json.Marshal, hex and Time.Format print.  AuditLedger:
      audit_write.go and audit.go, the chained rows and their verification.

    What a workspace reports:
    - RuntimeOverrides: runtime_overrides.go.  Budget: budget_periods.go,
      budget.go and checkWorkspaceBudget of a2a_proxy.go.  McpSurface: the checks
      of the advertised tools in registry.go.
    - WorkspaceRow, Heartbeat, HeartbeatSafety: the row a beat works on with the
      monad of its statements, Heartbeat and evaluateStatus of registry.go, and
      what they may do to a status.
    - AgentCard, Register, RegisterSafety: agent_card_reconcile.go, Register and
      UpdateCard of registry.go, and how a registration ends.
    - Lifecycle, LifecycleSafety: Hibernate, WakeWorkspace, Pause, Resume and
      Restart of workspace_restart.go with their cascades, and the health, liveness
      and hibernation sweeps of internal/registry.

    ** How they meet

    As in the code: Access, Namespace and Reparent read the tree of Tree;
    DelegationReplies and Sweeper call Ledger; Delegation calls Ledger and
    DelegationReplies, passes the gate of Approvals and reads answers as QueueDrain does;
    QueueDrain calls A2AQueue, the
    delegation ledger and its replies; Nudge and Stall enqueue into A2AQueue;
    RestartGuards reads the state of Restart, whose queue hold is what
    [DrainQueueForWorkspace] takes as [held]; OrphanSweep stops containers with
    StartGuard, revokes with Tokens and reads the names of ContainerNames;
    ProvisionSweep works on the rows of CpProvision; Heartbeat checks its bearer
    with Tokens, records spend with Budget, classifies with McpSurface and
    refreshes RuntimeOverrides; Register and Lifecycle work on the same row as
    Heartbeat, Register checks urls with Ssrf; Auth validates with Tokens and
    OrgTokens, binds with Tree, and sets the [caller] the handlers of OrgTokens
    look at; Proxy asks Access and Tree who may talk, Budget who can pay, A2APayload
    for the body, Ssrf for the address and RestartGuards for the container, writes
    ActivityLog and enqueues into A2AQueue; A2AAuth proves the caller with Auth,
    Tokens and OrgTokens and hands it to Proxy; ModelChoice, LlmEnv and SecretsApi
    derive providers with Providers from what SecretStore keeps; SecretsApi passes
    its writes through the gate of Approvals and reads its callers with Tokens;
    ProvisionEnv runs SecretStore, LlmEnv and ModelChoice one after the other on
    the environment it builds; Desktop takes what DesktopSidecar answers to a start and a
    stop, and checks the address it is given with the names of DesktopSidecar;
    AuditLedger names its actors by the [caller] of OrgTokens.

    What one component promises another is stated once.  The tree offers its
    clients the relations [Up], [RootAt] and [Root], and they are proved against
    those; what Postgres does with a text cast to uuid is the class [UuidCast],
    whose laws the theorems use and [plain_cast] satisfies; what the nudge and
    the watchdog rely on in a wake ledger is the class [WakeLaws], whose instance
    is the ledger of Wake; the request store has a specification of its own,
    which its interleavings implement (requests_refine_spec); the image check
    RestartGuards takes as a parameter is the one CpProvision defines
    ([ensure_answer]); the cache of RuntimeOverrides refines a map without empty
    entries (overrides_refine_view); evaluateStatus computes a function of row
    and beat (evaluateStatus_is_next_status).

    ** What is proved

    - Isolation.  A move changes the org of nothing but an adopted root, whose
      anchors move with it (applyReparent_keeps_orgs,
      adoption_rehomes_only_the_adoptee, applyReparent_accepts_iff); workspaces
      that may talk share an org (CanCommunicate_same_org, CanCommunicate_iff); no
      memory namespace is readable from two orgs
      (namespaces_disjoint_across_orgs); the guards agree on the root
      (reparentOrgRoot_is_orgRootID, sameOrg_decides); a bearer opens the
      workspace it was issued for and nothing after its revocation
      (accepted_token_was_issued); a workspace answers only its own inbox
      (token_answers_own_inbox).
    - Turns.  A call changes nothing before its caller is let in, by a credential or,
      where there is no control plane, as a page of the same origin, and every check
      passed (http_call_is_authorised, proxied_call_is_admitted, a2a_credential_of);
      it dispatches at most once, to a checked address with that address's
      credential, and moves its row only to offline, or from hibernated to provisioning
      (dispatch_is_earned, resolved_address_was_seen_safe); a turn that
      is accepted is answered, queued or logged, the last only if the INSERT the code
      does not check works, and no other turn gets a row
      (accepted_turn_is_kept); what a failed dispatch becomes, for every error and every
      verdict of the probe (failed_dispatch_settles).  Normalizing settles at once and leaves a complete
      message (normalizing_settles, sent_message_is_complete, refused_bodies), a
      canvas turn has a session (canvas_turn_has_a_session), a message one row
      whose reply survives a later failure (message_has_one_row, reply_survives).
      A secret shown was true five minutes ago (secret_is_recent); the status of a
      row goes to its two ends and to humans (queue_status_is_entitled).
    - Credentials.  What opens a route of a workspace or of the admin
      (workspace_auth_admits, admin_auth_admits), what a cached session rests on
      and how large the cache grows (session_was_confirmed, session_cache_bounded),
      when an org token counts as foreign (cross_org_exactly), who gets one minted,
      how many, and that a revoked one stays dead (org_token_is_minted,
      mint_within_ceiling, revoked_org_token_is_dead); what a boot token opens
      (boot_token_opens).
    - Secrets.  What is stored comes back whatever becomes of the key
      (secret_survives); a row changes only past every check of the call that names
      it (changed_secret_was_admitted); a workspace gets its own values over those of
      the organisation, locally as remotely (loaded_env_is_merged,
      remote_bundle_is_local_env), and a fan-out that can read its list restarts whom a
      changed value is for (rotation_reaches_whom_it_changes, restarts_spare_caller_and_root).
    - Models.  What is on the menu can be created, and under the provider it shows
      (menu_is_enforced); who pays is a rule, and the credentials of the platform and
      of the workspace do not meet in one environment (who_pays,
      credentials_do_not_mix).
    - Boxes.  What is started has a model, a credential for it and what its config asks
      for, and nothing of an admin's but the ADMIN_TOKEN of a concierge
      (prepared_box_is_sound); a provision writes no secret but the model and the provider
      of a concierge, and leaves a model that is not the platform's
      (provision_keeps_choices).
    - Files and tasks.  A file waits as long as promised and no longer
      (uploads_are_swept_in_time); a call stays in its workspace
      (calls_stay_in_their_workspace); an instance is taken for dead on two looks
      (offline_is_confirmed).
    - Desktops.  A desktop stays on its own network and keeps its profile until a wipe,
      whatever Docker answers (desktop_is_contained); who has taken control keeps it,
      against the agent and other people but not against the admin (taken_control_is_kept); a session shows a
      token of the lock in force or for viewing (session_shows_a_token); the sweep
      stops exactly the unused (Sweep_pointwise_desktops, used_desktops_stay_up).
    - Audit.  What is recorded verifies, on a clock of whole microseconds
      (recorded_events_verify), and what was verified
      once cannot be rewritten without a collision of HMAC (verified_history_is_fixed).
    - Addresses.  No dispatch is connected to an inside address
      (connections_stay_outside), and where the two checks of a url differ
      (validators_disagree_exactly).
    - One answer per delegation.  single_reply and forward_only for the ledger
      under any interleaving, sweeps_reply_once and Sweep_pointwise for the
      sweeper.  A key has one live delegation, whatever interleaves
      (one_live_delegation_per_key, and delegate_runs, by which each request is such an
      interleaving), and a job ends its delegation one way, as the calls it made
      deserve, and gives the grant back where it failed (job_settles_once).
    - The queue.  queue_wellformed as an invariant of every statement,
      idempotent enqueueing, the order of dequeueing, the retry budget; a drain
      leaves a claim of its own unsettled only in two named ways, and settling ends at its
      ceiling.
    - Requests and approvals.  A request is decided once and its row is
      well-typed (request_decided_once, requests_well_typed, Respond_errors); an
      approval covers one operation of its kind (approval_spent_once,
      admin_needs_approval).
    - Wakes.  A wake fires once and is in the ledger (wake_fires_once); a stuck
      one is re-emitted at most five times and, by passes that work, in the end dropped
      (redrive_budget, redrive_finishes); an agent is nudged once an hour
      (nudged_once_an_hour) and restarted by the watchdog on evidence and seldom
      (stall_restarts_apart).
    - Restarts.  A request is served by one later cycle of the entry that took it,
      which has one runner; a delete takes the entry from the map, and its runner goes on
      (requests_are_coalesced, delete_lets_cycles_overlap, captured_entry_outlives_delete);
      the crash-loop budget holds (auto_restart_budget), the hold ends after its grace
      (hold_ends_after_grace), and containers are declared dead and stopped on
      evidence (declared_dead_is_evidence, no_stop_without_an_image).
    - Containers.  A removed workspace keeps none (no_container_outlives_delete,
      removed_workspace_is_reaped), a live one loses neither container nor tokens
      to a sweep (sweep_spares_live_workspaces, contained_workspace_keeps_tokens),
      names lead back to their workspace (names_find_their_workspace), and the
      sweeps of provisioning end (sweep_fails_the_overdue, orphans_drain).
    - Status.  Whatever fails and whoever else writes, a beat moves a status only
      along the allowed edges, and fails no workspace but a concierge (evaluated_moves,
      heartbeat_moves), and a concierge
      that never gets ready is degraded (stuck_concierge_degrades); so does a
      registration, which makes no agent a platform agent (register_moves,
      register_never_promotes, register_outcome).
    - Sleep.  Parked rows rest until an operation that may take them does, the stale
      sweep being one for the hibernated (parked_rows_rest); a
      container is stopped or provisioned only behind the claim of the row
      (hibernation_claims_first, provision_follows_claim); a cascade reaches every
      descendant (cascade_pause_is_complete), and what sleeps comes back as it was
      (sleep_round_trip).
    - Spend.  The ledger sums what the beats reported, prunes nothing a window
      still covers, and the limits accepted are the ones enforced
      (spend_is_counted_once, spend_is_what_was_recorded,
      patched_limits_are_enforced); a tool surface is called corroborated on a
      recorded dispatch only (corroboration_has_a_dispatch).
    - Resources.  Tunnels are closed once, unused, and all of them in the end;
      no caller exceeds its rate; truncation is exact.
    - Faults of the code, as theorems about it.  Restarts, drains, moves:
      second_save_is_dropped, restart_request_lost, completion_lost_to_stuck_mark,
      delivered_turn_is_redispatched, non_json_reply_strands_the_item,
      move_can_strand_descendants, resolver_misses_deep_root.  Delegations:
      retried_answer_is_dropped, untracked_key_runs_twice, second_run_is_not_in_the_ledger,
      self_in_capitals.  Spend:
      budget_bypassed_by_spelling, lost_read_counts_twice,
      lost_update_counts_twice.  Turns: status_crosses_orgs, null_body_panics,
      a_caller_limit_is_lost, dropped_is_queued, busy_turn_has_two_rows,
      broken_reply_erases, retry_hides_the_error, file_without_uri_is_kept,
      poll_turn_is_lost.  Beats: removed_concierge_comes_back,
      unfounded_announcement, stale_stamp_skips_the_grace, secret_of_nobody,
      empty_inventory_forgets, adjacent_hyphens_disagree.  Credentials:
      lookup_error_admits, purged_anchor_opens_all, mint_loses_anchor,
      ceiling_is_raced, concierge_gets_admin_token, outage_is_401.  Secrets and
      models: raw_hex_key_is_refused, lost_override_uses_global,
      model_change_restarts_its_caller, secret_route_skips_model_check,
      platform_model_hosts_vendor_key, approval_is_for_any_value,
      failed_write_spends_the_approval, create_refuses_what_would_run,
      unlisted_key_does_not_count, gate_reads_another_model,
      empty_token_blocks_projection, spaced_id_is_not_offered.  Boxes:
      platform_pick_is_replaced, provider_pin_lasts_one_provision, self_host_concierge_is_not_seeded,
      organisation_pat_reaches_every_box, own_gitea_token_is_stripped.  Desktops and
      audit: failed_write_hides_the_desktop, failed_start_hides_the_desktop,
      late_mirror_pins_the_desktop, restart_pins_the_desktop,
      view_token_opens_the_same_session, admitted_input_lands_after_takeover,
      failed_wipe_keeps_the_profile, last_instant_reads_as_tampered,
      one_microsecond_breaks_the_chain, moved_ledger_verifies,
      shortened_ledger_verifies.  Others:
      stale_row_is_never_checked, acked_file_is_served, reopened_task_stays_resolved.

    ** Bounds and fuel

    The walks carry the bounds of the code, in hops: 33 for CanCommunicate
    (maxAncestorWalk plus the first edge), 50 for the memory resolver, 64 for
    the org guards; the theorems say what happens beyond them.  The only fuel
    that is not the code's is that of isParentPaused, which the code does not
    bound: isParentPaused_nearest gives the answer for every fuel above the
    depth of the workspace.  drain_loop recurses on the capacity of the call, the
    retry loops on their attempts, TrimSpace on the length of its input.  The
    other limits are the code's: 20 intents and 5 attempts ten minutes apart in a
    re-drive, hence six passes per intent; 100 rows per orphan pass; 20, 15 and 5
    minutes for provisioning, pulling and creating; 5 minutes of grace and 50
    tokens per workspace; 180 and 300 seconds for a concierge without its tools;
    five looks at the name of a container; as many looks at a started desktop as are given; 30 minutes for a dispatch; 5 minutes for
    a cached secret; 35 days of ledger, longer than the longest window; 200 traces.

    ** What is assumed

    Postgres keeps an instant exactly (for AuditLedger: to the microsecond), one statement is
    atomic, an append to the audit ledger is one step under its advisory lock, and all readers
    of a clock read the same one.  There is one watchdog and one sweeper process,
    as deployed.  A purged id is not drawn again.  A Docker call that was cut off
    has taken effect by the time it returns, or never does; the daemon's state
    "removal in progress" counts as removed.  The brand tokens and the id of the
    required tool come from packages outside the repository and are arguments, as
    are url.Parse and the name server for Ssrf, uuid.Parse and uuid.NewSHA1, and
    what the control plane answers about a session, and, for the proxy, what the
    transport answers, the text json.Marshal gives and the rounding of a JSON number
    to a float64, of which the theorems that need it assume that it is idempotent.
    AES-GCM, HMAC-SHA256, the random bytes, the YAML of the registry and of a config, the
    files of a concierge, and regular expressions are arguments; the theorems that need it assume that AES-GCM opens what
    it sealed.  The recursive query of a
    cascade and that of an org root run on a tree without cycles.
    The other writers of a beat change its row; its ledger is written by the
    beats alone.  A JSON integer literal has the denominator 1.  Each is an
    argument or a hypothesis of the theorems that need it, never an axiom.

    ** What is not modelled

    The HTTP transport, the text of error bodies, the read side of the activity log,
    last_activity_at, plugins, channels, memory storage, files and terminals,
    migrations and the canvas: input and output around the decisions above, or parts
    left for later extensions of this library.  Ticker loops are not modelled: their
    passes are.
    Log lines are left out except where they are the result.  Within a
    modelled part: context cancellation is one of the failures of a statement,
    uuid parsing and SHA-256 are parameters, and a Go map iteration whose order
    could matter is an arbitrary fixed order. *)

From stdpp Require Export base gmap strings list relations.
From Stdlib Require Export ZArith Lia Sorted.

#[global] Open Scope Z_scope.

(** ** Time

    Instants and durations are nanoseconds, as in Go's [time.Duration]; an
    instant is a point on one monotone clock.  [None] is the zero [time.Time]
    or an SQL NULL, whichever the column or field has. *)
Definition time := Z.
Definition Nanosecond : Z := 1.
Definition Second : Z := 1000000000.
Definition Minute : Z := 60 * Second.
Definition Hour : Z := 60 * Minute.

(** The result of 64-bit signed arithmetic in Go. *)
Definition wrap64 (z : Z) : Z := (z + 2 ^ 63) mod 2 ^ 64 - 2 ^ 63.

Lemma wrap64_id z : - 2 ^ 63 <= z < 2 ^ 63 -> wrap64 z = z.
Proof. intros Hz. unfold wrap64. rewrite Z.mod_small; lia. Qed.

(** [time.Duration(secs) * time.Second]. *)
Definition seconds (secs : Z) : Z := wrap64 (secs * Second).

Lemma seconds_id secs : 0 <= secs <= 9223372036 -> seconds secs = secs * Second.
Proof. intros Hs. unfold seconds, Second. apply wrap64_id. lia. Qed.

(** ** Database results

    What a [QueryRow(...).Scan] or an [Exec] gives back: a value,
    [sql.ErrNoRows], or any other error. *)
Inductive dbres (A : Type) : Type :=
| DbOk (a : A)
| DbNoRows
| DbErr.
Arguments DbOk {A} a.
Arguments DbNoRows {A}.
Arguments DbErr {A}.

(** How an Exec goes: it works, it errors (and did not land), or it lands and
    [RowsAffected] errors. *)
Inductive exec_fault := ExecOk | ExecErr | RowsAffectedErr.

(** ** SQL scalar functions the statements use *)

(** [NULLIF($n, '')] on a text parameter. *)
Definition nullif_empty (s : string) : option string :=
  if decide (s = "") then None else Some s.

(** [COALESCE(a, b)] on two nullable columns. *)
Definition coalesce {A} (a b : option A) : option A :=
  match a with Some _ => a | None => b end.

(** [sql.NullTime.Valid && t.After(u)] and the like: a nullable instant
    compared with a bound. *)
Definition null_or {A} (o : option A) (p : A -> bool) : bool :=
  match o with None => true | Some a => p a end.
Definition some_and {A} (o : option A) (p : A -> bool) : bool :=
  match o with None => false | Some a => p a end.

(** ** JSON values

    What [encoding/json] yields for a document: object members in document
    order, numbers as exact fractions. *)
Inductive json : Type :=
| JNull
| JBool (b : bool)
| JNum (num : Z) (den : positive)
| JStr (s : string)
| JArr (l : list json)
| JObj (l : list (string * json)).

(** ** Strings *)

(** [strings.HasPrefix]. *)
Fixpoint has_prefix (s p : string) : bool :=
  match p, s with
  | EmptyString, _ => true
  | String a p', String b s' => if decide (a = b) then has_prefix s' p' else false
  | String _ _, EmptyString => false
  end.

(** [s[:n]] on the bytes of [s]. *)
Fixpoint str_take (n : nat) (s : string) : string :=
  match n, s with
  | O, _ => EmptyString
  | S n', String a s' => String a (str_take n' s')
  | S _, EmptyString => EmptyString
  end.

(** [s[n:]]. *)
Fixpoint str_drop (n : nat) (s : string) : string :=
  match n, s with
  | O, _ => s
  | S n', String _ s' => str_drop n' s'
  | S _, EmptyString => EmptyString
  end.

(** [strings.Contains]. *)
Fixpoint str_contains (s sub : string) : bool :=
  has_prefix s sub || match s with "" => false | String _ s' => str_contains s' sub end.

(** [strings.Cut] at one byte. *)
Fixpoint str_cut (sep : Ascii.ascii) (s : string) : option (string * string) :=
  match s with
  | "" => None
  | String a s' =>
      if decide (a = sep) then Some ("", s')
      else match str_cut sep s' with Some (b, rest) => Some (String a b, rest) | None => None end
  end.

(** ASCII lower case, byte by byte. *)
Definition ascii_lower (b : Ascii.ascii) : Ascii.ascii :=
  let n := Ascii.nat_of_ascii b in
  if decide (65 <= n <= 90)%nat then Ascii.ascii_of_nat (n + 32) else b.

Fixpoint str_lower (s : string) : string :=
  match s with "" => "" | String a s' => String (ascii_lower a) (str_lower s') end.

Lemma str_app_cons a (s t : string) : (String a s +:+ t) = String a (s +:+ t).
Proof. reflexivity. Qed.
Lemma str_app_nil (t : string) : ("" +:+ t) = t.
Proof. reflexivity. Qed.

Lemma str_cut_Some sep s b a : str_cut sep s = Some (b, a) -> s = (b +:+ String sep a) /\ str_cut sep b = None.
Proof.
  revert b a. induction s as [|x s IH]; intros b a; cbn; [done|]. case_decide as Hx; [intros [= <- <-]; by subst|].
  destruct (str_cut sep s) as [[b' a']|]; [|done]. intros [= <- <-]. destruct (IH _ _ eq_refl) as [-> Hb].
  split; [by rewrite str_app_cons|]. cbn. by rewrite decide_False, Hb.
Qed.

Lemma str_cut_app sep b a : str_cut sep b = None -> str_cut sep (b +:+ String sep a) = Some (b, a).
Proof.
  induction b as [|x b IH]; [intros _; rewrite str_app_nil; cbn; by rewrite decide_True|]. rewrite str_app_cons. cbn. case_decide; [done|].
  destruct (str_cut sep b) as [[]|]; [done|]. intros _. by rewrite IH.
Qed.

Lemma str_take_length n s : (n <= String.length s)%nat -> String.length (str_take n s) = n.
Proof. revert s. induction n; intros [|a s]; simpl; intros; try lia. rewrite IHn; lia. Qed.

Lemma str_take_drop n s : (str_take n s +:+ str_drop n s) = s.
Proof. revert s. induction n; intros [|a s]; simpl; auto. by rewrite str_app_cons, IHn. Qed.

Lemma str_take_app_le n r s :
  (n <= String.length r)%nat -> str_take n (r +:+ s) = str_take n r.
Proof. revert r. induction n; intros [|a r]; simpl; intros; auto; try lia.
  rewrite ?str_app_cons. simpl. rewrite IHn; auto; lia. Qed.

Lemma str_take_app_ge n r s :
  (String.length r <= n)%nat ->
  str_take n (r +:+ s) = (r +:+ str_take (n - String.length r) s).
Proof.
  revert n. induction r as [|a r IH]; intros n; simpl.
  - by rewrite Nat.sub_0_r.
  - intros H. destruct n; [lia|]. rewrite ?str_app_cons. simpl. rewrite IH; auto; lia.
Qed.

Lemma str_drop_app_ge n r s :
  (String.length r <= n)%nat -> str_drop n (r +:+ s) = str_drop (n - String.length r) s.
Proof.
  revert n. induction r as [|a r IH]; intros n; simpl.
  - by rewrite Nat.sub_0_r.
  - intros H. destruct n; [lia|]. rewrite ?str_app_cons. simpl. apply IH; lia.
Qed.

Lemma get_drop k s : String.get 0 (str_drop k s) = String.get k s.
Proof. revert s. induction k; intros [|a s]; simpl; auto. Qed.

Lemma str_take_all s : str_take (String.length s) s = s.
Proof. induction s; simpl; auto. by f_equal. Qed.

Lemma str_app_nil_r s : (s +:+ "") = s.
Proof. induction s; rewrite ?str_app_nil, ?str_app_cons; auto. by f_equal. Qed.

Lemma str_length_app r s : String.length (r +:+ s) = (String.length r + String.length s)%nat.
Proof. induction r; rewrite ?str_app_cons; simpl; auto. Qed.

Lemma str_app_assoc (a b c : string) : (a +:+ (b +:+ c)) = ((a +:+ b) +:+ c).
Proof. induction a; rewrite ?str_app_nil, ?str_app_cons; auto. by f_equal. Qed.

Lemma str_app_inj_l (p a b : string) : (p +:+ a) = (p +:+ b) -> a = b.
Proof. induction p; rewrite ?str_app_nil, ?str_app_cons; auto. intros [= H]. auto. Qed.

Lemma get_app_lt n r s :
  (n < String.length r)%nat -> String.get n (r +:+ s) = String.get n r.
Proof. revert n. induction r; intros [|n]; rewrite ?str_app_cons; simpl; intros; auto; try lia.
  apply IHr; lia. Qed.

Lemma get_app_ge n r s :
  (String.length r <= n)%nat ->
  String.get n (r +:+ s) = String.get (n - String.length r) s.
Proof.
  revert n. induction r as [|a r IH]; intros n; simpl.
  - by rewrite Nat.sub_0_r.
  - intros H. destruct n; [lia|]. rewrite ?str_app_cons. simpl. apply IH; lia.
Qed.

Lemma has_prefix_split s p : has_prefix s p = true -> s = p +:+ str_drop (String.length p) s.
Proof.
  revert s. induction p as [|a p IH]; intros [|b s]; simpl; try done. case_decide; [|done]. subst. intros Hp.
  rewrite str_app_cons. f_equal. auto.
Qed.

Lemma has_prefix_app p s : has_prefix (p +:+ s) p = true.
Proof. induction p as [|a p IH]; [by destruct s|]. rewrite str_app_cons. simpl. by rewrite decide_True. Qed.

Lemma str_drop_app p s : str_drop (String.length p) (p +:+ s) = s.
Proof. induction p as [|a p IH]; [done|]. by rewrite str_app_cons. Qed.

(** [strings.Split] at one byte. *)
Fixpoint str_split (sep : Ascii.ascii) (s : string) : list string :=
  match s with
  | "" => [""]
  | String a s' =>
      if decide (a = sep) then "" :: str_split sep s'
      else match str_split sep s' with h :: t => String a h :: t | [] => [String a ""] end
  end.

Lemma str_split_whole sep s : str_cut sep s = None -> str_split sep s = [s].
Proof.
  induction s as [|a s IH]; cbn; [done|]. case_decide; [done|]. destruct (str_cut sep s) as [[]|]; [done|]. intros _. by rewrite IH.
Qed.
Lemma str_split_app sep a b : str_cut sep a = None -> str_split sep (a +:+ String sep b) = a :: str_split sep b.
Proof.
  induction a as [|x a IH]; [intros _; rewrite str_app_nil; cbn; by rewrite decide_True|]. rewrite str_app_cons. cbn. case_decide; [done|].
  destruct (str_cut sep a) as [[]|]; [done|]. intros _. by rewrite IH.
Qed.
Lemma str_split_nonempty sep s : str_split sep s <> [].
Proof. destruct s as [|a s]; cbn; [done|]. case_decide; [done|]. by destruct (str_split sep s). Qed.
Lemma str_split_one sep s a : str_split sep s = [a] -> s = a.
Proof.
  revert a. induction s as [|x s IH]; intros a; cbn; [congruence|]. destruct (str_split sep s) as [|h t] eqn:Es; [by apply str_split_nonempty in Es|].
  case_decide; [done|]. intros [= <- ->]. f_equal. by apply IH.
Qed.
Lemma str_split_two sep s a b : str_split sep s = [a; b] -> s = (a +:+ String sep b).
Proof.
  revert a. induction s as [|x s IH]; intros a; cbn; [done|]. case_decide as Hx.
  - intros [= <- E]. subst x. rewrite str_app_nil. f_equal. by apply str_split_one in E.
  - destruct (str_split sep s) as [|h t] eqn:Es; [by apply str_split_nonempty in Es|]. intros [= <- ->]. rewrite str_app_cons. f_equal. by apply IH.
Qed.

Definition newline : string := String (Ascii.ascii_of_nat 10) "".

(** ** Sorting

    [ORDER BY key ASC]; rows with equal keys stay in the order they come. *)
Section SortBy.
Context {A : Type} (key : A -> Z).
Fixpoint insert_by (x : A) (l : list A) : list A :=
  match l with
  | [] => [x]
  | y :: l' => if key y <? key x then y :: insert_by x l' else x :: l
  end.
Definition sort_by (l : list A) : list A := foldr insert_by [] l.

Lemma insert_by_perm x l : insert_by x l ≡ₚ x :: l.
Proof. induction l as [|y l IH]; simpl; [done|]. case_match; [|done]. rewrite IH. constructor. Qed.
Lemma sort_by_perm l : sort_by l ≡ₚ l.
Proof. induction l; simpl; [done|]. by rewrite insert_by_perm, IHl. Qed.

Lemma insert_by_sorted x l :
  Sorted (fun a b => key a <= key b) l -> Sorted (fun a b => key a <= key b) (insert_by x l).
Proof.
  induction 1 as [|y l Hs IH Hh]; simpl; [repeat constructor|].
  destruct (key y <? key x) eqn:E.
  - constructor; [done|]. apply Z.ltb_lt in E. destruct l as [|z l]; simpl; [constructor; lia|].
    inversion Hh; subst. case_match; constructor; lia.
  - apply Z.ltb_ge in E. constructor; [by constructor|]. constructor. lia.
Qed.
Lemma sort_by_sorted l : Sorted (fun a b => key a <= key b) (sort_by l).
Proof. induction l; simpl; [constructor|]. by apply insert_by_sorted. Qed.
End SortBy.

Lemma sublist_omap {A B} (f : A -> option B) l1 l2 : l1 `sublist_of` l2 -> omap f l1 `sublist_of` omap f l2.
Proof. induction 1; simpl; [constructor| |]; destruct (f x); by repeat constructor. Qed.

Lemma filter_is_sublist {A} (P : A -> Prop) `{!forall x, Decision (P x)} l : filter P l `sublist_of` l.
Proof. induction l as [|x l IH]; [constructor|]. rewrite filter_cons. case_decide; by constructor. Qed.

Lemma filter_none {A} (P : A -> Prop) `{!forall x, Decision (P x)} (l : list A) : (forall x, ~ P x) -> filter P l = [].
Proof. intros Hp. induction l as [|x l IH]; [done|]. by rewrite filter_cons, decide_False by done. Qed.

Lemma snoc_split {A} (l l1 l2 : list A) x y :
  l ++ [x] = l1 ++ y :: l2 -> (l2 = [] /\ l = l1 /\ x = y) \/ exists l2', l2 = l2' ++ [x] /\ l = l1 ++ y :: l2'.
Proof.
  destruct l2 as [|z l2' _] using rev_ind; intros E.
  - left. by apply app_inj_tail in E as [-> ->].
  - right. rewrite app_comm_cons, app_assoc in E. apply app_inj_tail in E as [-> ->]. eauto.
Qed.

(** ** Step relations *)

(** An invariant of the initial states that every step keeps holds in every
    reachable state. *)
Lemma rtc_invariant {S} (step : relation S) (I : S -> Prop) :
  (forall s s', I s -> step s s' -> I s') ->
  forall s s', I s -> rtc step s s' -> I s'.
Proof. intros Hstep s s' Hs Hr. induction Hr; eauto. Qed.

(** ** Tactics and hints *)

Create Rewrite HintDb enteros.
#[export] Hint Rewrite @lookup_insert_eq @lookup_delete_eq @lookup_empty : enteros.
#[export] Hint Rewrite str_length_app : enteros.

(** Turns boolean tests of the code into propositions. *)
Ltac b2p :=
  repeat match goal with
  | H : _ && _ = true |- _ => apply andb_true_iff in H; destruct H
  | H : _ || _ = false |- _ => apply orb_false_iff in H; destruct H
  | H : negb _ = true |- _ => apply negb_true_iff in H
  | H : negb _ = false |- _ => apply negb_false_iff in H
  | H : bool_decide _ = true |- _ => apply bool_decide_eq_true in H
  | H : bool_decide _ = false |- _ => apply bool_decide_eq_false in H
  | H : (_ <=? _) = true |- _ => apply Z.leb_le in H
  | H : (_ <=? _) = false |- _ => apply Z.leb_gt in H
  | H : (_ <? _) = true |- _ => apply Z.ltb_lt in H
  | H : (_ <? _) = false |- _ => apply Z.ltb_ge in H
  | H : (_ =? _) = true |- _ => apply Z.eqb_eq in H
  | H : (_ =? _) = false |- _ => apply Z.eqb_neq in H
  end.

(** Case analysis on the next test or scrutinee of the code in the goal. *)
Ltac step_case :=
  match goal with
  | |- context [match ?x with _ => _ end] => destruct x eqn:?
  end.
Ltac step_case_in H :=
  match type of H with
  | context [match ?x with _ => _ end] => destruct x eqn:?
  end.

(** Opens every existential and conjunction in the context. *)
Ltac open_hyps :=
  repeat match goal with
  | H : exists _, _ |- _ => destruct H
  | H : _ /\ _ |- _ => destruct H
  end.
