(* ===== verification/Json.v ===== *)
(** * Decoding JSON into Go structs

    The part of [encoding/json] the modelled code relies on: unmarshalling a
    document into nested structs.  A member sets the field its key names, later
    members override earlier ones, [null] leaves a struct alone, and a value of
    the wrong type makes the whole call return an error - the model keeps the
    decoded value and that flag.  A byte slice the code both decodes and uses
    as text is a [payload]. *)

From S2P Require Import Prelude.

(** [None]: not a JSON document. *)
Record payload := Payload { raw : string; parsed : option json }.

(** Keys name fields up to ASCII case. *)
Definition names_field (key field : string) : bool := bool_decide (str_lower key = str_lower field).

(** Decode the field at [path] with [leaf]; the flag records a type error. *)
Fixpoint walk {A} (leaf : json -> A * bool -> A * bool) (path : list string) (j : json) (cur : A * bool)
    : A * bool :=
  match path with
  | [] => leaf j cur
  | field :: rest =>
      match j with
      | JObj l => fold_left (fun c kv => if names_field kv.1 field then walk leaf rest kv.2 c else c) l cur
      | JNull => cur
      | _ => (cur.1, true)
      end
  end.

Definition leaf_string (j : json) (cur : string * bool) : string * bool :=
  match j with JStr s => (s, cur.2) | JNull => cur | _ => (cur.1, true) end.

(** A [*bool] field. *)
Definition leaf_bool_ptr (j : json) (cur : option bool * bool) : option bool * bool :=
  match j with JBool b => (Some b, cur.2) | JNull => (None, cur.2) | _ => (cur.1, true) end.

(** A [*float64] field. *)
Definition leaf_num_ptr (j : json) (cur : option (Z * positive) * bool) : option (Z * positive) * bool :=
  match j with JNum n d => (Some (n, d), cur.2) | JNull => (None, cur.2) | _ => (cur.1, true) end.

(** An [interface{}] field. *)
Definition leaf_any (j : json) (cur : option json * bool) : option json * bool := (Some j, cur.2).

(** A [map[string]any] field. *)
Definition leaf_map (j : json) (cur : list (string * json) * bool) : list (string * json) * bool :=
  match j with JObj l => (cur.1 ++ l, cur.2) | JNull => ([], cur.2) | _ => (cur.1, true) end.

(** [m[k]] of a decoded map: the last member wins. *)
Definition map_get (k : string) (m : list (string * json)) : option json :=
  fold_left (fun acc kv => if decide (kv.1 = k) then Some kv.2 else acc) m None.

Definition get_string (path : list string) (j : json) : string * bool := walk leaf_string path j ("", false).

(** [int(v)] of a float64. *)
Definition trunc_num (n : Z) (d : positive) : Z := Z.quot n (Zpos d).

(** The document [{k1: {k2: ... v}}]. *)
Fixpoint nest (path : list string) (v : json) : json :=
  match path with [] => v | k :: rest => JObj [(k, nest rest v)] end.

Lemma names_field_refl k : names_field k k = true.
Proof. by apply bool_decide_eq_true. Qed.

Lemma walk_nest {A} leaf path v (cur : A * bool) : walk leaf path (nest path v) cur = leaf v cur.
Proof.
  revert cur. induction path as [|k path IH]; intros cur; [done|]. simpl.
  by rewrite names_field_refl.
Qed.

Lemma get_string_nest path s : get_string path (nest path (JStr s)) = (s, false).
Proof. unfold get_string. by rewrite walk_nest. Qed.
