(* ===== verification/Truncate.v ===== *)
(** * Rune-safe truncation (internal/textutil/truncate.go)

    Strings are Go strings: sequences of bytes ([ascii]).  [Utf8] is
    [utf8.ValidString]: a concatenation of well-formed encodings, with the
    overlong, surrogate and out-of-range forms excluded as the [unicode/utf8]
    tables do. *)

From S2P Require Import Prelude.

Definition byte_val (b : Ascii.ascii) : Z := Z.of_N (Ascii.N_of_ascii b).

(** [utf8.RuneStart]: not a continuation byte. *)
Definition RuneStart (b : Ascii.ascii) : bool := negb (Z.land (byte_val b) 0xC0 =? 0x80).

Definition in_range (lo hi : Z) (b : Ascii.ascii) : bool :=
  (lo <=? byte_val b) && (byte_val b <=? hi).

(** The well-formed encodings of one rune, by their lead byte. *)
Definition is_rune (r : string) : bool :=
  match r with
  | String b0 EmptyString => in_range 0x00 0x7F b0
  | String b0 (String b1 EmptyString) => in_range 0xC2 0xDF b0 && in_range 0x80 0xBF b1
  | String b0 (String b1 (String b2 EmptyString)) =>
      ((in_range 0xE0 0xE0 b0 && in_range 0xA0 0xBF b1)
       || (in_range 0xE1 0xEC b0 && in_range 0x80 0xBF b1)
       || (in_range 0xED 0xED b0 && in_range 0x80 0x9F b1)
       || (in_range 0xEE 0xEF b0 && in_range 0x80 0xBF b1))
      && in_range 0x80 0xBF b2
  | String b0 (String b1 (String b2 (String b3 EmptyString))) =>
      ((in_range 0xF0 0xF0 b0 && in_range 0x90 0xBF b1)
       || (in_range 0xF1 0xF3 b0 && in_range 0x80 0xBF b1)
       || (in_range 0xF4 0xF4 b0 && in_range 0x80 0x8F b1))
      && in_range 0x80 0xBF b2 && in_range 0x80 0xBF b3
  | _ => false
  end.

(** [Runes n s]: [s] is a concatenation of [n] well-formed encodings. *)
Inductive Runes : nat -> string -> Prop :=
| Runes_nil : Runes 0 ""
| Runes_cons n r s : is_rune r = true -> Runes n s -> Runes (S n) (r +:+ s).

Definition Utf8 (s : string) : Prop := exists n, Runes n s.

(** How many bytes [for i := range s] advances at the head of [s]: the width
    of a well-formed rune, 1 for a byte that starts none. *)
Definition rune_width (s : string) : nat :=
  if is_rune (str_take 1 s) then 1%nat
  else if is_rune (str_take 2 s) then 2%nat
  else if is_rune (str_take 3 s) then 3%nat
  else if is_rune (str_take 4 s) then 4%nat
  else 1%nat.

Definition ellipsis : string :=
  String (Ascii.ascii_of_nat 226) (String (Ascii.ascii_of_nat 128)
    (String (Ascii.ascii_of_nat 166) EmptyString)).

Definition len (s : string) : Z := Z.of_nat (String.length s).

(** [for cut > 0 && !utf8.RuneStart(s[cut]) { cut-- }].  Every caller enters
    with [cut < len(s)], so [s[cut]] is in range at each iteration
    ([walk_back_in_range]) and the [None] arm is not reached. *)
Fixpoint walk_back (s : string) (cut : nat) : nat :=
  match cut with
  | O => O
  | S c => match String.get cut s with
           | Some b => if RuneStart b then cut else walk_back s c
           | None => walk_back s c
           end
  end.

Definition TruncateBytes (s : string) (maxBytes : Z) : string :=
  if len s <=? maxBytes then s
  else if maxBytes <? len ellipsis then ""
  else str_take (walk_back s (Z.to_nat (maxBytes - len ellipsis))) s +:+ ellipsis.

Definition TruncateBytesNoMarker (s : string) (maxBytes : Z) : string :=
  if len s <=? maxBytes then s
  else if maxBytes <=? 0 then ""
  else str_take (walk_back s (Z.to_nat maxBytes)) s.

(** The [range] loop of [TruncateRunes]: [i] is the byte index, [rest] is
    [s[i:]]; [fuel] is the byte length, since every iteration consumes one
    byte or more. *)
Fixpoint truncate_runes_loop (fuel : nat) (s rest : string) (i : nat) (count maxRunes : Z) : string :=
  match rest, fuel with
  | EmptyString, _ => s
  | _, O => s
  | _, S fuel' =>
      if count =? maxRunes then str_take i s +:+ ellipsis
      else let w := rune_width rest in
           truncate_runes_loop fuel' s (str_drop w rest) (i + w) (count + 1) maxRunes
  end.

Definition TruncateRunes (s : string) (maxRunes : Z) : string :=
  if maxRunes <=? 0 then ""
  else if len s <=? maxRunes then s
  else truncate_runes_loop (String.length s) s s 0 0 maxRunes.

(** ** Encodings *)

Lemma cont_not_start b : in_range 0x80 0xBF b = negb (RuneStart b).
Proof. destruct b as [[][][][][][][][]]; reflexivity. Qed.

Lemma start_of_low lo hi b : in_range lo hi b = true -> hi < 0x80 \/ 0xBF < lo -> RuneStart b = true.
Proof.
  intros H Hb. destruct (RuneStart b) eqn:E; auto.
  pose proof (cont_not_start b) as C. rewrite E in C. simpl in C.
  unfold in_range in *. b2p. lia.
Qed.

(** The width a lead byte announces. *)
Definition lead_len (b : Ascii.ascii) : nat :=
  if in_range 0x00 0x7F b then 1
  else if in_range 0xC2 0xDF b then 2
  else if in_range 0xE0 0xEF b then 3
  else 4.

Ltac ranges :=
  unfold lead_len, in_range in *; b2p;
  repeat match goal with
  | H : _ || _ = true |- _ => apply orb_true_iff in H; destruct H; b2p
  end.

(** The shape of a well-formed encoding: a start byte that announces its
    length, then continuation bytes only. *)
Lemma is_rune_shape r :
  is_rune r = true ->
  exists b t, r = String b t /\ RuneStart b = true /\ String.length r = lead_len b /\
    forall k c, String.get k t = Some c -> RuneStart c = false.
Proof.
  assert (Hc : forall c, in_range 0x80 0xBF c = true -> RuneStart c = false).
  { intros c H. rewrite cont_not_start in H. by apply negb_true_iff in H. }
  assert (Hsub : forall lo hi c, 0x80 <= lo -> hi <= 0xBF -> in_range lo hi c = true ->
                   RuneStart c = false).
  { intros lo hi c ?? H. apply Hc. unfold in_range in *. b2p.
    apply andb_true_iff. split; apply Z.leb_le; lia. }
  destruct r as [|b0 [|b1 [|b2 [|b3 [|]]]]]; simpl; try discriminate; intros H;
    eexists _, _; (split; [reflexivity|]);
    repeat match goal with
    | H : _ && _ = true |- _ => apply andb_true_iff in H; destruct H
    | H : _ || _ = true |- _ => apply orb_true_iff in H; destruct H
    end;
    (split; [eapply start_of_low; [eassumption|lia]|]);
    (split; [unfold lead_len, in_range in *; b2p;
             repeat (case_match; b2p; try lia);
             repeat match goal with
             | H : _ && _ = false |- _ => apply andb_false_iff in H; destruct H; b2p; try lia
             end|]);
    intros [|[|[|k]]] c; simpl; try discriminate; intros [= <-]; eauto;
    match goal with
    | H : in_range ?lo ?hi ?c = true |- RuneStart ?c = false =>
        apply (Hsub lo hi c); [lia|lia|exact H]
    end.
Qed.

Lemma Runes_app n m a b : Runes n a -> Runes m b -> Runes (n + m) (a +:+ b).
Proof.
  induction 1 as [|n r s Hr Hs IH]; intros Hb; simpl; [done|].
  rewrite <- str_app_assoc. constructor; auto.
Qed.

Lemma Runes_ellipsis : Runes 1 ellipsis.
Proof. change ellipsis with (ellipsis +:+ ""). repeat constructor. Qed.

Lemma Utf8_app a b : Utf8 a -> Utf8 b -> Utf8 (a +:+ b).
Proof. intros [n Ha] [m Hb]. exists (n + m)%nat. by apply Runes_app. Qed.

(** Inside a well-formed encoding every byte but the first continues it. *)
Lemma rune_inner r k c :
  is_rune r = true -> (0 < k)%nat -> String.get k r = Some c -> RuneStart c = false.
Proof.
  intros Hr Hk Hg. destruct (is_rune_shape _ Hr) as (b & t & -> & _ & _ & Ht).
  destruct k as [|k]; [lia|]. simpl in Hg. eauto.
Qed.

Lemma rune_nonempty r : is_rune r = true -> (0 < String.length r)%nat.
Proof. destruct r; simpl; [discriminate|lia]. Qed.

(** Cutting a valid string where a rune starts leaves two valid halves. *)
Lemma Runes_cut n s k :
  Runes n s ->
  (k = O \/ exists b, String.get k s = Some b /\ RuneStart b = true) ->
  exists m, (m <= n)%nat /\ Runes m (str_take k s) /\ Runes (n - m) (str_drop k s).
Proof.
  intros Hs. revert k. induction Hs as [|n r s Hr Hs IH]; intros k Hk.
  - exists O. destruct k; simpl; repeat split; auto; constructor.
  - destruct (decide (k = O)) as [->|Hk0].
    { exists O. simpl. split; [lia|]. split; [constructor|]. by constructor. }
    destruct Hk as [?|(b & Hg & Hb)]; [done|].
    destruct (decide (k < String.length r)%nat) as [Hlt|Hge].
    { rewrite get_app_lt in Hg by lia. rewrite (rune_inner r k b) in Hb; auto; [done|lia]. }
    rewrite get_app_ge in Hg by lia.
    destruct (IH (k - String.length r)%nat) as (m & Hm & Ht & Hd); [eauto|].
    exists (S m). split; [lia|]. rewrite str_take_app_ge, str_drop_app_ge by lia.
    split; [by constructor|done].
Qed.

(** Two well-formed encodings at the head of the same bytes are the same. *)
Lemma rune_prefix_free r r' s s' :
  is_rune r = true -> is_rune r' = true -> (r +:+ s) = (r' +:+ s') -> r = r' /\ s = s'.
Proof.
  intros Hr Hr' E.
  destruct (is_rune_shape _ Hr) as (b & t & -> & _ & Hl & _).
  destruct (is_rune_shape _ Hr') as (b' & t' & -> & _ & Hl' & _).
  rewrite !str_app_cons in E. injection E as <- E.
  rewrite <- Hl' in Hl. simpl in Hl. injection Hl as Hl.
  enough (t = t') as -> by (split; [done|]; by apply str_app_inj_l in E).
  clear -E Hl. revert t' Hl E. induction t as [|a t IH]; intros [|a' t']; simpl; try lia; auto.
  rewrite !str_app_cons. intros Hl [= -> E]. f_equal. apply IH; auto.
Qed.

(** A valid prefix of a valid string ends where a rune starts. *)
Lemma Runes_prefix_boundary m t n rest b :
  Runes m t -> Runes n (t +:+ rest) -> String.get 0 rest = Some b -> RuneStart b = true.
Proof.
  intros Ht. revert n. induction Ht as [|m r t Hr Ht IH]; intros n Hs Hb.
  - rewrite str_app_nil in Hs. destruct Hs as [|n' r s Hr Hs']; [discriminate|].
    destruct (is_rune_shape _ Hr) as (b' & t & -> & Hstart & _).
    rewrite str_app_cons in Hb. simpl in Hb. congruence.
  - rewrite <- str_app_assoc in Hs. remember (r +:+ (t +:+ rest)) as u eqn:E.
    destruct Hs as [|n' r' s' Hr' Hs'].
    + destruct r; discriminate.
    + destruct (rune_prefix_free _ _ _ _ Hr' Hr E) as [-> ->]. eauto.
Qed.

(** ** The backwards walk *)

Lemma walk_back_le s cut : (walk_back s cut <= cut)%nat.
Proof. induction cut; simpl; auto. repeat case_match; lia. Qed.

Lemma walk_back_stop s cut :
  walk_back s cut = O \/ exists b, String.get (walk_back s cut) s = Some b /\ RuneStart b = true.
Proof. induction cut; simpl; auto. repeat case_match; eauto. Qed.

(** The walk skips no rune start. *)
Lemma walk_back_skips s cut k b :
  (walk_back s cut < k <= cut)%nat -> String.get k s = Some b -> RuneStart b = false.
Proof.
  induction cut as [|c IH]; simpl; [lia|]. intros Hk Hg.
  destruct (decide (k = S c)) as [->|Hne].
  - rewrite Hg in Hk. case_match; [lia|done].
  - apply IH; auto. repeat case_match; lia.
Qed.

Lemma walk_back_in_range s cut :
  (cut < String.length s)%nat -> forall k, (k <= cut)%nat -> exists b, String.get k s = Some b.
Proof.
  revert cut. induction s as [|a s IH]; intros cut; simpl; [lia|].
  intros Hc [|k] Hk; simpl; [eauto|]. apply (IH (cut - 1)%nat); lia.
Qed.

(** What the two byte caps share: cutting at [walk_back s cut] gives the
    longest valid prefix of at most [cut] bytes. *)
Lemma walk_back_longest s cut :
  Utf8 s -> (cut < String.length s)%nat ->
  let c := walk_back s cut in
  Utf8 (str_take c s) /\ (c <= cut)%nat /\
  forall k, (k <= cut)%nat -> Utf8 (str_take k s) -> (k <= c)%nat.
Proof.
  intros [n Hs] Hc c. split; [|split].
  - destruct (Runes_cut n s c Hs (walk_back_stop s cut)) as (m & _ & Hm & _). by exists m.
  - apply walk_back_le.
  - intros k Hk [m Hm]. destruct (decide (k <= c)%nat) as [|Hgt]; auto. exfalso.
    destruct (walk_back_in_range s cut Hc k Hk) as [b Hb].
    pose proof (walk_back_skips s cut k b ltac:(unfold c in *; lia) Hb) as Hns.
    assert (Hstart : RuneStart b = true); [|congruence].
    eapply (Runes_prefix_boundary m (str_take k s) n (str_drop k s)); eauto.
    + by rewrite str_take_drop.
    + by rewrite get_drop.
Qed.

(** ** The three truncations *)

Lemma len_app a b : len (a +:+ b) = len a + len b.
Proof. unfold len. rewrite str_length_app. lia. Qed.

Lemma len_take k s : (k <= String.length s)%nat -> len (str_take k s) = Z.of_nat k.
Proof. intros. unfold len. by rewrite str_take_length. Qed.

(** [TruncateBytesNoMarker] returns [s] itself when it fits, "" when no byte is allowed, and
    otherwise the longest prefix of [s] of at most [maxBytes] bytes that is valid UTF-8: no rune is
    ever split, and no shorter prefix is returned than needed. *)
Theorem TruncateBytesNoMarker_longest s maxBytes (Hv : Utf8 s) :
  let out := TruncateBytesNoMarker s maxBytes in
  Utf8 out /\
  (exists rest, s = out +:+ rest) /\
  (len s <= maxBytes -> out = s) /\
  (maxBytes < len s -> len out <= Z.max 0 maxBytes /\
     forall p rest, s = p +:+ rest -> Utf8 p -> len p <= maxBytes -> len p <= len out).
Proof.
  unfold TruncateBytesNoMarker. destruct (Z.leb_spec (len s) maxBytes) as [Hle|Hgt]; simpl.
  { split_and!; auto; try lia. exists "". by rewrite str_app_nil_r. }
  destruct (Z.leb_spec maxBytes 0) as [Hz|Hpos]; simpl.
  { split_and!; try lia; [exists O; constructor|by exists s|]. intros _. split; [unfold len; simpl; lia|]. intros. unfold len in *. simpl. lia. }
  assert (Hc : (Z.to_nat maxBytes < String.length s)%nat) by (unfold len in *; lia).
  destruct (walk_back_longest s (Z.to_nat maxBytes) Hv Hc) as (Hu & Hle & Hmax).
  split_and!; auto; try lia.
  - exists (str_drop (walk_back s (Z.to_nat maxBytes)) s). by rewrite str_take_drop.
  - intros _. rewrite len_take by lia. split; [lia|]. intros p rest E Hp Hlen.
    enough (String.length p <= walk_back s (Z.to_nat maxBytes))%nat by (unfold len; lia).
    apply Hmax; [unfold len in *; lia|]. subst s.
    rewrite str_take_app_le, str_take_all by lia. done.
Qed.

Lemma TruncateBytesNoMarker_longest_witness :
  let s := ("a" +:+ (ellipsis +:+ ellipsis)) in
  Utf8 s /\ TruncateBytesNoMarker s 6 = ("a" +:+ ellipsis) /\
  Utf8 (TruncateBytesNoMarker s 6).
Proof.
  set (s := ("a" +:+ (ellipsis +:+ ellipsis))).
  assert (H : Utf8 s).
  { exists 3%nat. apply (Runes_cons 2 "a"); [reflexivity|].
    apply (Runes_cons 1 ellipsis ellipsis); [reflexivity|]. apply Runes_ellipsis. }
  split; [exact H|]. split; [reflexivity|].
  destruct (TruncateBytesNoMarker_longest s 6 H) as [Hu _]. exact Hu.
Defined.

(** [TruncateBytes] returns [s] itself when it fits; otherwise the result never exceeds
    [maxBytes] bytes, stays valid UTF-8, and is "" when the marker does not fit or else a valid
    prefix of [s] - the longest that leaves room for the marker - followed by the marker. *)
Theorem TruncateBytes_marked s maxBytes (Hv : Utf8 s) (H0 : 0 <= maxBytes) :
  let out := TruncateBytes s maxBytes in
  Utf8 out /\ len out <= maxBytes /\
  (len s <= maxBytes -> out = s) /\
  (maxBytes < len s -> maxBytes < 3 -> out = "") /\
  (maxBytes < len s -> 3 <= maxBytes ->
     exists p rest, out = p +:+ ellipsis /\ s = p +:+ rest /\ Utf8 p /\
       forall q rest', s = q +:+ rest' -> Utf8 q -> len q <= maxBytes - 3 -> len q <= len p).
Proof.
  unfold TruncateBytes. change (len ellipsis) with 3.
  destruct (Z.leb_spec (len s) maxBytes) as [Hle|Hgt]; simpl.
  { split_and!; auto; lia. }
  destruct (Z.ltb_spec maxBytes 3) as [Hz|Hpos]; simpl.
  { split_and!; auto; try lia. exists O. constructor. }
  set (cut := Z.to_nat (maxBytes - 3)).
  assert (Hc : (cut < String.length s)%nat) by (unfold len in *; lia).
  destruct (walk_back_longest s cut Hv Hc) as (Hu & Hle & Hmax).
  assert (Hlen : len (str_take (walk_back s cut) s) = Z.of_nat (walk_back s cut)) by (apply len_take; lia).
  split_and!; auto; try lia.
  - apply Utf8_app; [done|]. exists 1%nat. apply Runes_ellipsis.
  - rewrite len_app, Hlen. change (len ellipsis) with 3. lia.
  - intros _ _. exists (str_take (walk_back s cut) s), (str_drop (walk_back s cut) s).
    split_and!; auto; [by rewrite str_take_drop|]. intros q rest' E Hq Hl.
    rewrite Hlen. enough (String.length q <= walk_back s cut)%nat by (unfold len; lia).
    apply Hmax; [unfold len in *; lia|]. subst s.
    rewrite str_take_app_le, str_take_all by lia. done.
Qed.

Lemma TruncateBytes_marked_witness :
  Utf8 "hello world" /\ TruncateBytes "hello world" 8 = ("hello" +:+ ellipsis) /\
  len (TruncateBytes "hello world" 8) <= 8.
Proof.
  assert (H : Utf8 "hello world").
  { exists 11%nat. do 11 (apply (Runes_cons _ (String _ "")); [reflexivity|]). constructor. }
  split; [exact H|]. split; [reflexivity|].
  destruct (TruncateBytes_marked "hello world" 8 H ltac:(lia)) as (_ & Hl & _). exact Hl.
Defined.

(** A well-formed encoding has its own width wherever it stands. *)
Lemma rune_width_rune r s : is_rune r = true -> rune_width (r +:+ s) = String.length r.
Proof.
  intros Hr.
  assert (Hk : forall k, (k <= 4)%nat -> is_rune (str_take k (r +:+ s)) = true ->
                 (k <= String.length (r +:+ s))%nat -> k = String.length r).
  { intros k Hk4 Hk Hle.
    destruct (rune_prefix_free (str_take k (r +:+ s)) r (str_drop k (r +:+ s)) s Hk Hr) as [E _].
    - apply str_take_drop.
    - rewrite <- E, str_take_length; auto. }
  assert (Hfull : is_rune (str_take (String.length r) (r +:+ s)) = true).
  { rewrite str_take_app_le, str_take_all by lia. done. }
  assert (Hlen : (1 <= String.length r <= 4)%nat).
  { pose proof (rune_nonempty r Hr). split; [lia|].
    destruct r as [|? [|? [|? [|? [|]]]]]; simpl in *; try discriminate; lia. }
  rewrite str_length_app in Hk.
  unfold rune_width.
  destruct (is_rune (str_take 1 _)) eqn:E1; [apply Hk; auto; lia|].
  destruct (is_rune (str_take 2 _)) eqn:E2.
  { destruct (decide (String.length r = 1%nat)) as [E|]; [|apply Hk; auto; lia].
    rewrite E in Hfull. congruence. }
  destruct (is_rune (str_take 3 _)) eqn:E3.
  { destruct (decide (String.length r <= 2)%nat) as [E|]; [|apply Hk; auto; lia].
    assert (String.length r = 1 \/ String.length r = 2)%nat as [E'|E'] by lia;
      rewrite E' in Hfull; congruence. }
  destruct (is_rune (str_take 4 _)) eqn:E4.
  { destruct (decide (String.length r <= 3)%nat) as [E|]; [|apply Hk; auto; lia].
    assert (String.length r = 1 \/ String.length r = 2 \/ String.length r = 3)%nat as [E'|[E'|E']]
      by lia; rewrite E' in Hfull; congruence. }
  assert (String.length r = 1 \/ String.length r = 2 \/ String.length r = 3 \/ String.length r = 4)%nat
    as [E'|[E'|[E'|E']]] by lia; rewrite E' in Hfull; congruence.
Qed.

Lemma Runes_length n s : Runes n s -> (n <= String.length s)%nat.
Proof.
  induction 1; simpl; [lia|]. rewrite str_length_app.
  pose proof (rune_nonempty _ H). lia.
Qed.

(** The loop, from a rune boundary of [s] after [m] runes. *)
Lemma truncate_runes_loop_spec fuel s pre rest m n maxRunes :
  s = pre +:+ rest -> Runes m pre -> Runes n rest -> (String.length rest <= fuel)%nat ->
  Z.of_nat m <= maxRunes ->
  let out := truncate_runes_loop fuel s rest (String.length pre) (Z.of_nat m) maxRunes in
  (Z.of_nat (m + n) <= maxRunes -> out = s) /\
  (maxRunes < Z.of_nat (m + n) ->
     exists p q, s = p +:+ q /\ Runes (Z.to_nat maxRunes) p /\ out = p +:+ ellipsis).
Proof.
  intros E Hpre Hrest. revert fuel pre m E Hpre.
  induction Hrest as [|n r rest Hr Hrest IH]; intros fuel pre m E Hpre Hfuel Hm.
  { destruct fuel; simpl; split; auto; lia. }
  pose proof (rune_nonempty r Hr) as Hne. rewrite str_length_app in Hfuel.
  destruct fuel as [|fuel]; [lia|].
  destruct (r +:+ rest) as [|a u] eqn:Eu; [destruct r; discriminate|].
  simpl. destruct (Z.eqb_spec (Z.of_nat m) maxRunes) as [Hz|Hnz].
  - split; [lia|]. intros _. exists pre, (r +:+ rest). rewrite Eu. split_and!; auto.
    + by rewrite <- Hz, Nat2Z.id.
    + rewrite E, str_take_app_le, str_take_all by lia. done.
  - rewrite <- Eu, rune_width_rune by done.
    rewrite str_drop_app_ge, Nat.sub_diag by lia.
    replace (str_drop 0 rest) with rest by (by destruct rest).
    replace (Z.of_nat m + 1) with (Z.of_nat (m + 1)) by lia.
    rewrite <- str_length_app.
    replace (m + S n)%nat with (m + 1 + n)%nat by lia.
    apply IH; [|by apply Runes_app; [done|]; rewrite <- (str_app_nil_r r); constructor; [done|constructor]|lia|lia].
    by rewrite E, <- Eu, str_app_assoc.
Qed.

(** for a valid string of [n] runes, [TruncateRunes] with a positive cap returns it unchanged
    when [n <= maxRunes], and otherwise exactly its first [maxRunes] runes followed by the marker;
    a non-positive cap gives "". *)
Theorem TruncateRunes_counts s n maxRunes (Hs : Runes n s) :
  let out := TruncateRunes s maxRunes in
  (maxRunes <= 0 -> out = "") /\
  (0 < maxRunes -> Z.of_nat n <= maxRunes -> out = s) /\
  (0 < maxRunes -> maxRunes < Z.of_nat n ->
     exists p rest, s = p +:+ rest /\ Runes (Z.to_nat maxRunes) p /\ out = p +:+ ellipsis).
Proof.
  unfold TruncateRunes. destruct (Z.leb_spec maxRunes 0); [split_and!; auto; lia|].
  pose proof (Runes_length n s Hs) as Hl.
  destruct (Z.leb_spec (len s) maxRunes) as [Hle|Hgt].
  { unfold len in *. split_and!; auto; lia. }
  pose proof (truncate_runes_loop_spec (String.length s) s "" s 0 n maxRunes
                (eq_sym (str_app_nil s)) Runes_nil Hs (le_n _) ltac:(lia)) as [H1 H2].
  simpl in H1, H2. split_and!; auto; lia.
Qed.

Lemma TruncateRunes_counts_witness :
  Runes 3 (ellipsis +:+ "ab") /\ TruncateRunes (ellipsis +:+ "ab") 2 = (ellipsis +:+ ("a" +:+ ellipsis)) /\
  TruncateRunes (ellipsis +:+ "ab") 3 = (ellipsis +:+ "ab").
Proof.
  assert (H : Runes 3 (ellipsis +:+ "ab")).
  { apply (Runes_cons 2 ellipsis); [reflexivity|]. apply (Runes_cons 1 "a"); [reflexivity|].
    apply (Runes_cons 0 "b" ""); [reflexivity|constructor]. }
  split; [exact H|]. split; [reflexivity|].
  destruct (TruncateRunes_counts _ 3 3 H) as (_ & Hfit & _). apply Hfit; lia.
Defined.
