(* ===== verification/Tree.v ===== *)
(** * The workspace tree

    The columns of the [workspaces] table the modelled code reads, the
    [parent_id] walks, and the org-root resolution of
    internal/handlers/org_scope.go.  An org is the set of workspaces whose
    [parent_id] chain ends at the same parentless row. *)

From S2P Require Import Prelude.

(** ** The table *)

Record wsrow := WsRow {
  ws_name : string;
  ws_parent : option string;          (* parent_id *)
  ws_status : string;
  ws_last_heartbeat : option time;    (* last_heartbeat_at *)
  ws_max_tasks : option Z             (* max_concurrent_tasks *)
}.

#[export] Instance wsrow_eq_dec : EqDecision wsrow.
Proof. solve_decision. Defined.

Definition set_parent (p : option string) (r : wsrow) : wsrow :=
  WsRow (ws_name r) p (ws_status r) (ws_last_heartbeat r) (ws_max_tasks r).
Definition set_status (s : string) (r : wsrow) : wsrow :=
  WsRow (ws_name r) (ws_parent r) s (ws_last_heartbeat r) (ws_max_tasks r).

Abbreviation wstable := (gmap string wsrow).

(** What Postgres does with a text parameter compared to a [uuid] column: the
    cast either fails or yields the canonical text, which casts to itself. *)
Class UuidCast := {
  canon : string -> option string;
  canon_idem : forall s c, canon s = Some c -> canon c = Some c;
  canon_nonempty : forall c, canon c <> Some ""
}.

(** A cast that takes every non-empty text for canonical, for the witnesses. *)
Program Definition plain_cast : UuidCast :=
  {| canon := fun s => if decide (s = "") then None else Some s |}.
Next Obligation. intros s c. simpl. repeat case_decide; intros; simplify_eq; auto. Qed.
Next Obligation. intros c. simpl. case_decide; congruence. Qed.

(** Keys are canonical uuids and [parent_id] references an existing row. *)
Definition wf_table `{UuidCast} (t : wstable) : Prop :=
  forall k r, t !! k = Some r ->
    canon k = Some k /\ forall p, ws_parent r = Some p -> is_Some (t !! p).

(** A readable database: the table, and the ids whose SELECT fails (a lost
    connection, a cancelled statement). *)
Record wsdb := WsDb { rows : wstable; unreadable : string -> bool }.

(** ** Walking up *)

(** [Up t n w a]: [a] is reached from [w] by exactly [n] parent hops. *)
Inductive Up (t : wstable) : nat -> string -> string -> Prop :=
| Up_0 w : Up t 0 w w
| Up_S n w row p a :
    t !! w = Some row -> ws_parent row = Some p -> Up t n p a -> Up t (S n) w a.

Definition is_root (t : wstable) (r : string) : Prop :=
  exists row, t !! r = Some row /\ ws_parent row = None.

Definition RootAt (t : wstable) (n : nat) (w r : string) : Prop := Up t n w r /\ is_root t r.

(** The org root of [w], with no bound on the walk. *)
Definition Root (t : wstable) (w r : string) : Prop := exists n, RootAt t n w r.


Lemma Up_app t n m a b c : Up t n a b -> Up t m b c -> Up t (n + m) a c.
Proof. induction 1; simpl; eauto using Up. Qed.

Lemma Up_fun t n w a b : Up t n w a -> Up t n w b -> a = b.
Proof.
  intros H. revert b. induction H; intros b Hb; inversion Hb; subst; auto.
  simplify_eq. auto.
Qed.

Lemma Up_root_0 t n r a : is_root t r -> Up t n r a -> n = O /\ a = r.
Proof. intros (row & Hr & Hn) H. inversion H; subst; auto. simplify_eq. Qed.

Lemma RootAt_fun t n m w a b : RootAt t n w a -> RootAt t m w b -> n = m /\ a = b.
Proof.
  intros [Ha Hra] [Hb Hrb]. revert m b Hb Hrb. induction Ha; intros m b Hb Hrb.
  - destruct (Up_root_0 _ _ _ _ Hra Hb). auto.
  - inversion Hb; subst.
    + destruct Hrb as (? & ? & ?). simplify_eq.
    + simplify_eq. destruct (IHHa Hra n0 b); auto.
Qed.

Lemma Root_fun t w a b : Root t w a -> Root t w b -> a = b.
Proof. intros [n Ha] [m Hb]. by destruct (RootAt_fun _ _ _ _ _ _ Ha Hb). Qed.

(** An ancestor has the same root. *)
Lemma RootAt_up t n w a k r : Up t k w a -> RootAt t n w r -> (k <= n)%nat /\ RootAt t (n - k) a r.
Proof.
  intros H. revert n. induction H; intros n' [Hu Hr].
  - split; [lia|]. rewrite Nat.sub_0_r. by split.
  - inversion Hu; subst.
    + destruct Hr as (? & ? & ?). simplify_eq.
    + simplify_eq. destruct (IHUp n0) as [? ?]; [by split|]. split; [lia|]. by simpl.
Qed.

Lemma Root_up t k w a r : Up t k w a -> Root t w r <-> Root t a r.
Proof.
  intros H. split.
  - intros [n Hr]. destruct (RootAt_up _ _ _ _ _ _ H Hr). by eexists.
  - intros [n [Hu Hr]]. exists (k + n)%nat. split; eauto using Up_app.
Qed.

(** ** The recursive chain query

    [WITH RECURSIVE chain AS (... WHERE c.depth < hops)]: the row of [id] and
    of its ancestors up to depth [hops], by increasing depth. *)
Fixpoint chain_rows (t : wstable) (hops : nat) (id : string) : list (string * wsrow) :=
  match t !! id with
  | None => []
  | Some r => (id, r) :: match hops with
                         | O => []
                         | S h => match ws_parent r with
                                  | None => []
                                  | Some p => chain_rows t h p
                                  end
                         end
  end.

(** The first row of the chain whose parent_id is NULL. *)
Fixpoint first_parentless (l : list (string * wsrow)) : option string :=
  match l with
  | [] => None
  | (id, r) :: l' => match ws_parent r with None => Some id | Some _ => first_parentless l' end
  end.

(** The chain query finds the root exactly when the walk needs at most [hops]
    hops. *)
Lemma first_parentless_spec t h w r :
  first_parentless (chain_rows t h w) = Some r <-> exists n, (n <= h)%nat /\ RootAt t n w r.
Proof.
  revert w. induction h as [|h IH]; intros w; simpl; destruct (t !! w) as [row|] eqn:E; simpl;
    try destruct (ws_parent row) as [p|] eqn:Ep; simpl.
  - split; [done|]. intros (n & Hn & Hu & row' & Hr & Hp).
    assert (n = O) as -> by lia. inversion Hu; subst. simplify_eq.
  - split; [intros [= <-]; exists O; split; [lia|]; split; [constructor|by eexists]|].
    intros (n & Hn & Hu & Hr). assert (n = O) as -> by lia. by inversion Hu.
  - split; [done|]. intros (n & Hn & Hu & row & Hr & _).
    assert (n = O) as -> by lia. inversion Hu; subst. simplify_eq.
  - rewrite IH. split.
    + intros (n & Hn & Hu & Hr). exists (S n). split; [lia|]. split; eauto using Up.
    + intros (n & Hn & Hu & Hr). inversion Hu; subst.
      * destruct Hr as (? & ? & ?). simplify_eq.
      * simplify_eq. exists n0. split; [lia|]. by split.
  - split; [intros [= <-]; exists O; split; [lia|]; split; [constructor|by eexists]|].
    intros (n & Hn & Hu & Hr). inversion Hu; subst; auto. simplify_eq.
  - split; [done|]. intros (n & Hn & Hu & row & Hr & _). inversion Hu; subst; simplify_eq.
Qed.

(** A parentless row ends the chain. *)
Lemma first_parentless_last t h w r :
  first_parentless (chain_rows t h w) = Some r <->
  exists row, last (chain_rows t h w) = Some (r, row) /\ ws_parent row = None.
Proof.
  assert (Hnil : forall (w r : string), None = Some r <-> exists row : wsrow, None = Some (r, row) /\ ws_parent row = None)
    by (intros; split; [done|intros (? & ? & _); done]).
  assert (Htop : forall w row, ws_parent row = None ->
            Some w = Some r <-> exists row', Some (w, row) = Some (r, row') /\ ws_parent row' = None).
  { intros. split; [intros [= <-]; eauto|]. by intros (? & [= <- <-] & _). }
  assert (Hmid : forall w row p, ws_parent row = Some p ->
            None = Some r <-> exists row', Some (w : string, row) = Some (r, row') /\ ws_parent row' = None).
  { intros. split; [done|]. intros (? & [= -> ->] & ?). congruence. }
  revert w. induction h as [|h IH]; intros w; simpl; destruct (t !! w) as [row|] eqn:E; simpl; auto;
    destruct (ws_parent row) as [p|] eqn:Ep; simpl; eauto.
  rewrite IH. destruct (chain_rows t h p) as [|x l] eqn:El; simpl; [|done].
  rewrite <- (Hnil w r). eauto.
Qed.

(** ** org_scope.go *)

Definition orgRootMaxChainDepth : nat := 64.

Section OrgScope.
Context `{UuidCast}.

(** A failed cast or an unreadable row is a driver error; no parentless row
    within the bound is [errNoOrgRoot]. *)
Definition orgRootID (db : wsdb) (workspaceID : string) : dbres string :=
  match canon workspaceID with
  | None => DbErr
  | Some c =>
      if unreadable db c then DbErr
      else match first_parentless (chain_rows (rows db) orgRootMaxChainDepth c) with
           | Some root => if decide (root = "") then DbNoRows else DbOk root
           | None => DbNoRows
           end
  end.

(** [(bool, error)]: [DbNoRows] stands for [errNoOrgRoot], [DbErr] for any
    other error; both come with [false]. *)
Definition sameOrg (db : wsdb) (a b : string) : dbres bool :=
  if decide (a = b) then DbOk true
  else match orgRootID db a with
       | DbNoRows => DbNoRows
       | DbErr => DbErr
       | DbOk rootA => match orgRootID db b with
                       | DbNoRows => DbNoRows
                       | DbErr => DbErr
                       | DbOk rootB => DbOk (bool_decide (rootA = rootB))
                       end
       end.

Lemma orgRootID_ok db w c r :
  canon w = Some c -> orgRootID db w = DbOk r ->
  exists n, (n <= 64)%nat /\ RootAt (rows db) n c r.
Proof.
  unfold orgRootID. intros -> Hr. repeat step_case_in Hr; try discriminate.
  injection Hr as <-. by apply first_parentless_spec.
Qed.

Lemma wf_root_nonempty t r : wf_table t -> is_root t r -> r <> "".
Proof.
  intros Hwf (row & Hr & _) ->. destruct (Hwf _ _ Hr) as [Hc _]. by apply canon_nonempty in Hc.
Qed.

(** [sameOrg] on two distinct readable workspaces answers from the org roots: true when both
    chains end, within 64 hops, at the same parentless row, false when they end at different
    ones, and [errNoOrgRoot] - never true - when either chain has no root within the bound. *)
Theorem sameOrg_decides db a b (Ha : canon a = Some a) (Hb : canon b = Some b)
    (Hne : a <> b) (Hok : forall w, unreadable db w = false) (Hwf : wf_table (rows db)) :
  (sameOrg db a b = DbOk true <->
     exists r n m, (n <= 64)%nat /\ (m <= 64)%nat /\ RootAt (rows db) n a r /\ RootAt (rows db) m b r) /\
  (sameOrg db a b = DbOk false <->
     exists r s n m, r <> s /\ (n <= 64)%nat /\ (m <= 64)%nat /\
       RootAt (rows db) n a r /\ RootAt (rows db) m b s) /\
  (sameOrg db a b = DbNoRows <->
     (forall n r, (n <= 64)%nat -> ~ RootAt (rows db) n a r) \/
     (forall n r, (n <= 64)%nat -> ~ RootAt (rows db) n b r)).
Proof.
  assert (Hroot : forall w, canon w = Some w ->
    (exists n r, (n <= 64)%nat /\ RootAt (rows db) n w r /\ orgRootID db w = DbOk r) \/
    ((forall n r, (n <= 64)%nat -> ~ RootAt (rows db) n w r) /\ orgRootID db w = DbNoRows)).
  { intros w Hw. unfold orgRootID. rewrite Hw, Hok.
    destruct (first_parentless _) as [r|] eqn:E.
    - apply first_parentless_spec in E as (n & Hn & Hr). left. exists n, r. split_and!; auto.
      rewrite decide_False; [done|]. eapply wf_root_nonempty; [done|apply Hr].
    - right. split; [|done]. intros n r Hn Hr.
      enough (first_parentless (chain_rows (rows db) orgRootMaxChainDepth w) = Some r) by congruence.
      apply first_parentless_spec. eauto. }
  unfold sameOrg. rewrite decide_False by done.
  destruct (Hroot a Ha) as [(n & r & Hn & Hr & ->)|[Hno ->]].
  2:{ split_and!; split; try done; intros; open_hyps; eauto; exfalso; (eapply Hno; [|eauto]; lia). }
  destruct (Hroot b Hb) as [(m & s & Hm & Hs & ->)|[Hno ->]].
  2:{ split_and!; split; try done; intros; open_hyps; eauto; exfalso; (eapply Hno; [|eauto]; lia). }
  split; [|split].
  - split.
    + intros [= ->%bool_decide_eq_true]. exists s, n, m. auto.
    + intros (x & n' & m' & ? & ? & Hx & Hy).
      destruct (RootAt_fun _ _ _ _ _ _ Hr Hx), (RootAt_fun _ _ _ _ _ _ Hs Hy). subst.
      by rewrite bool_decide_true.
  - split.
    + intros [= ?%bool_decide_eq_false]. exists r, s, n, m. auto.
    + intros (x & y & n' & m' & ? & ? & ? & Hx & Hy).
      destruct (RootAt_fun _ _ _ _ _ _ Hr Hx), (RootAt_fun _ _ _ _ _ _ Hs Hy). subst.
      by rewrite bool_decide_false.
  - split; [done|]. intros [Hno|Hno]; exfalso; [by apply (Hno n r)|by apply (Hno m s)].
Qed.
End OrgScope.

(** ** A small organisation, for the witnesses

    [pm] leads [lead], who leads [eng] and [sec]; [other] is a second org. *)
Definition demo_row (name : string) (parent : option string) : wsrow :=
  WsRow name parent "online" None None.

Definition demo_table : wstable :=
  <["pm" := demo_row "PM" None]> (<["lead" := demo_row "Lead" (Some "pm")]>
  (<["eng" := demo_row "Eng" (Some "lead")]> (<["sec" := demo_row "Sec" (Some "lead")]>
  (<["other" := demo_row "Other" None]> ∅)))).

Definition demo_db : wsdb := WsDb demo_table (fun _ => false).

(** [wf_table] of a table given by insertions into the empty one. *)
Ltac prove_wf_table t :=
  let k := fresh in let r := fresh in let Hk := fresh in
  intros k r Hk; unfold t in Hk;
  repeat (apply lookup_insert_Some in Hk as [[<- <-]|[_ Hk]];
          [split; [reflexivity|]; intros ? [= <-]; eexists; vm_compute; reflexivity|]);
  by rewrite lookup_empty in Hk.

(** The same by computation, for larger tables. *)
Definition wf_tableb (t : wstable) : bool :=
  forallb (fun kr => negb (bool_decide (kr.1 = "")) &&
                     match ws_parent kr.2 with None => true | Some p => bool_decide (is_Some (t !! p)) end)
          (map_to_list t).

Lemma wf_tableb_sound t : wf_tableb t = true -> @wf_table plain_cast t.
Proof.
  unfold wf_tableb. rewrite forallb_forall. intros Hall k r Hk.
  specialize (Hall (k, r)). simpl in Hall. rewrite <- list_elem_of_In, elem_of_map_to_list in Hall.
  specialize (Hall Hk). b2p. split; [simpl; by rewrite decide_False|].
  intros p Hp. rewrite Hp in *. by b2p.
Qed.

Ltac climb := repeat (first [apply Up_0 | eapply Up_S; [vm_compute; reflexivity|reflexivity|]]).
Ltac rooted := split; [climb|eexists; split; vm_compute; reflexivity].

Lemma demo_table_wf : @wf_table plain_cast demo_table.
Proof. prove_wf_table demo_table. Qed.

Lemma demo_root_sec : RootAt demo_table 2 "sec" "pm".
Proof. rooted. Qed.
Lemma demo_root_eng : RootAt demo_table 2 "eng" "pm".
Proof. rooted. Qed.
Lemma demo_root_pm : RootAt demo_table 0 "pm" "pm".
Proof. rooted. Qed.
Lemma demo_root_other : RootAt demo_table 0 "other" "other".
Proof. rooted. Qed.

Lemma sameOrg_decides_witness :
  @sameOrg plain_cast demo_db "sec" "eng" = DbOk true /\
  @sameOrg plain_cast demo_db "sec" "other" = DbOk false.
Proof.
  split.
  - destruct (@sameOrg_decides plain_cast demo_db "sec" "eng"
                eq_refl eq_refl ltac:(done) (fun _ => eq_refl) demo_table_wf) as [[_ H] _].
    apply H. exists "pm", 2%nat, 2%nat.
    split_and!; [lia|lia|apply demo_root_sec|apply demo_root_eng].
  - destruct (@sameOrg_decides plain_cast demo_db "sec" "other"
                eq_refl eq_refl ltac:(done) (fun _ => eq_refl) demo_table_wf) as (_ & [_ H] & _).
    apply H. exists "pm", "other", 2%nat, 0%nat.
    split_and!; [done|lia|lia|apply demo_root_sec|apply demo_root_other].
Defined.
