(* ===== verification/Access.v ===== *)
(** * Who may talk to whom (internal/registry/access.go)

    [CanCommunicate] and the bounded ancestor walk behind it.  The websocket
    hub filters with it and the A2A proxy and the discovery handlers call it. *)

From S2P Require Import Prelude Tree.

Definition maxAncestorWalk : nat := 32.

Record workspaceRef := WorkspaceRef { ID : string; ParentID : option string }.

Section Access.
Context `{UuidCast}.

Definition getWorkspaceRef (db : wsdb) (id : string) : dbres workspaceRef :=
  match canon id with
  | None => DbErr
  | Some c => if unreadable db c then DbErr
              else match rows db !! c with
                   | Some r => DbOk (WorkspaceRef c (ws_parent r))
                   | None => DbNoRows
                   end
  end.

(** The [for i := 0; i < maxAncestorWalk; i++] loop, [left] iterations
    before the bound. *)
Fixpoint isAncestorOf_loop (db : wsdb) (left : nat) (ancestorID current : string) : bool :=
  match left with
  | O => false
  | S left' =>
      match getWorkspaceRef db current with
      | DbOk ref => match ParentID ref with
                    | None => false
                    | Some p => if decide (p = ancestorID) then true
                                else isAncestorOf_loop db left' ancestorID p
                    end
      | _ => false
      end
  end.

Definition isAncestorOf (db : wsdb) (ancestorID childID : string) : bool :=
  isAncestorOf_loop db maxAncestorWalk ancestorID childID.

(** The parent pointer is non-nil and [f] holds of it. *)
Definition when_parent (ref : workspaceRef) (f : string -> bool) : bool :=
  match ParentID ref with Some p => f p | None => false end.

Definition CanCommunicate (db : wsdb) (callerID targetID : string) : bool :=
  if decide (callerID = targetID) then true
  else match getWorkspaceRef db callerID with
  | DbOk caller =>
      match getWorkspaceRef db targetID with
      | DbOk target =>
          if when_parent caller (fun p => when_parent target (fun q => bool_decide (p = q)))
          then true
          else if when_parent target (fun q => bool_decide (ID caller = q)) then true
          else if when_parent caller (fun p => bool_decide (ID target = p)) then true
          else if when_parent target (fun q => isAncestorOf db callerID q) then true
          else if when_parent caller (fun p => isAncestorOf db targetID p) then true
          else false
      | _ => false
      end
  | _ => false
  end.

(** ** The walk *)

Lemma getWorkspaceRef_ok db id ref :
  canon id = Some id ->
  getWorkspaceRef db id = DbOk ref <->
  unreadable db id = false /\ exists r, rows db !! id = Some r /\ ref = WorkspaceRef id (ws_parent r).
Proof.
  unfold getWorkspaceRef. intros ->. destruct (unreadable db id).
  { split; [done|]. by intros [? _]. }
  destruct (rows db !! id) as [r|].
  - split; [intros [= <-]; eauto|]. intros (_ & r' & [= <-] & ->). done.
  - split; [done|]. by intros (_ & ? & ? & _).
Qed.

Lemma isAncestorOf_loop_sound db left a c :
  wf_table (rows db) -> canon c = Some c ->
  isAncestorOf_loop db left a c = true -> exists n, (1 <= n <= left)%nat /\ Up (rows db) n c a.
Proof.
  intros Hwf. revert c. induction left as [|left IH]; intros c Hc; simpl; [done|].
  destruct (getWorkspaceRef db c) as [ref| |] eqn:E; try done.
  apply getWorkspaceRef_ok in E as (_ & r & Hr & ->); auto. simpl.
  destruct (ws_parent r) as [p|] eqn:Ep; [|done].
  case_decide as Hd; subst.
  - exists 1%nat. split; [lia|]. eauto using Up.
  - destruct (Hwf _ _ Hr) as [_ Hfk]. destruct (Hfk _ Ep) as [rp Hp].
    destruct (Hwf _ _ Hp) as [Hcp _]. intros Hl.
    destruct (IH p Hcp Hl) as (n & Hn & Hu). exists (S n). split; [lia|]. eauto using Up.
Qed.

Lemma isAncestorOf_loop_complete db left a c n :
  wf_table (rows db) -> canon c = Some c -> (forall w, unreadable db w = false) ->
  (1 <= n <= left)%nat -> Up (rows db) n c a -> isAncestorOf_loop db left a c = true.
Proof.
  intros Hwf Hc Hok. revert n c Hc. induction left as [|left IH]; intros n c Hc Hn Hu; [lia|].
  inversion Hu as [|n' ? row p ? Hr Ep Hu']; subst; [lia|]. simpl.
  assert (getWorkspaceRef db c = DbOk (WorkspaceRef c (Some p))) as ->
    by (apply getWorkspaceRef_ok; auto; split; auto; exists row; by rewrite Ep).
  simpl. case_decide; [done|]. destruct (Hwf _ _ Hr) as [_ Hfk]. destruct (Hfk _ Ep) as [rp Hp].
  destruct (Hwf _ _ Hp) as [Hcp _]. apply (IH n'); auto.
  destruct n'; [inversion Hu'; subst; done|lia].
Qed.

(** ** The rules *)

(** Related in the hierarchy as the comment on [CanCommunicate] lists it,
    with the bound the code puts on "any ancestor". *)
Definition related (t : wstable) (a b : string) : Prop :=
  (exists ra rb p, t !! a = Some ra /\ t !! b = Some rb /\ ws_parent ra = Some p /\ ws_parent rb = Some p) \/
  (exists n, (1 <= n <= S maxAncestorWalk)%nat /\ Up t n b a) \/
  (exists n, (1 <= n <= S maxAncestorWalk)%nat /\ Up t n a b).

Lemma Up_parent_iff t n a b (r : wsrow) p :
  t !! a = Some r -> ws_parent r = Some p -> Up t (S n) a b <-> Up t n p b.
Proof.
  intros Hr Hp. split; [|eauto using Up]. intros H'. inversion H'; subst. by simplify_eq.
Qed.

Lemma distant db (a b : string) (rb : wsrow) :
  wf_table (rows db) -> rows db !! b = Some rb ->
  when_parent (WorkspaceRef b (ws_parent rb)) (fun q => isAncestorOf db a q) = true ->
  exists n, (1 <= n <= S maxAncestorWalk)%nat /\ Up (rows db) n b a.
Proof.
  unfold when_parent; simpl. intros Hwf Hb. destruct (ws_parent rb) as [q|] eqn:Eq; [|done].
  destruct (Hwf _ _ Hb) as [_ Hfk]. destruct (Hfk _ Eq) as [rq Hq]. intros Hl.
  apply isAncestorOf_loop_sound in Hl as (n & Hn & Hu); [|done|by eapply Hwf].
  exists (S n). split; [lia|]. eauto using Up.
Qed.

Lemma distant_complete db a b rb n :
  wf_table (rows db) -> (forall w, unreadable db w = false) -> rows db !! b = Some rb ->
  (2 <= n <= S maxAncestorWalk)%nat -> Up (rows db) n b a ->
  when_parent (WorkspaceRef b (ws_parent rb)) (fun q => isAncestorOf db a q) = true.
Proof.
  unfold when_parent; simpl. intros Hwf Hok Hb Hn Hu.
  inversion Hu as [|n' ? row p ? Hr Ep Hu']; subst; [lia|]. simplify_eq. rewrite Ep.
  destruct (Hwf _ _ Hb) as [_ Hfk]. destruct (Hfk _ Ep) as [rq Hq].
  eapply (isAncestorOf_loop_complete _ _ _ _ n'); eauto; [by eapply Hwf|lia].
Qed.

(** What a positive answer means, whatever reads fail. *)
Lemma CanCommunicate_related db a b :
  wf_table (rows db) -> canon a = Some a -> canon b = Some b ->
  CanCommunicate db a b = true -> a = b \/ related (rows db) a b.
Proof.
  intros Hwf Ha Hb. unfold CanCommunicate. case_decide; [auto|].
  destruct (getWorkspaceRef db a) as [ca| |] eqn:Ea; try done.
  destruct (getWorkspaceRef db b) as [cb| |] eqn:Eb; try done.
  apply getWorkspaceRef_ok in Ea as (_ & ra & Hra & ->); auto.
  apply getWorkspaceRef_ok in Eb as (_ & rb & Hrb & ->); auto. simpl. intros Hc. right.
  repeat match type of Hc with
  | (if ?x then _ else _) = true => destruct x eqn:?; [clear Hc|]
  end; try done.
  - left. unfold when_parent in *. simpl in *. repeat case_match; try done. b2p. subst. eauto 10.
  - right; left. unfold when_parent in *. simpl in *. case_match; try done. b2p. subst.
    exists 1%nat. split; [lia|]. eauto using Up.
  - right; right. unfold when_parent in *. simpl in *. case_match; try done. b2p. subst.
    exists 1%nat. split; [lia|]. eauto using Up.
  - right; left. eauto using distant.
  - right; right. eauto using distant.
Qed.

(** on a readable, well-formed table [CanCommunicate] is exactly the rule of its comment: a
    workspace may talk to itself, and two distinct workspaces may talk iff both exist and they
    share a parent or one is the other's ancestor by at most 33 hops (the direct-parent check
    plus a 32-step walk from the parent). *)
Theorem CanCommunicate_iff db a b (Hwf : wf_table (rows db))
    (Ha : canon a = Some a) (Hb : canon b = Some b) (Hok : forall w, unreadable db w = false) :
  CanCommunicate db a b = true <->
  a = b \/ (is_Some (rows db !! a) /\ is_Some (rows db !! b) /\ related (rows db) a b).
Proof.
  split.
  - intros Hc. destruct (CanCommunicate_related db a b Hwf Ha Hb Hc) as [|Hr]; [auto|].
    unfold CanCommunicate in Hc. case_decide; [auto|]. right.
    destruct (getWorkspaceRef db a) as [ca| |] eqn:Ea; try done.
    destruct (getWorkspaceRef db b) as [cb| |] eqn:Eb; try done.
    apply getWorkspaceRef_ok in Ea as (_ & ra & Hra & _); auto.
    apply getWorkspaceRef_ok in Eb as (_ & rb & Hrb & _); [eauto|done].
  - unfold CanCommunicate. intros [->|([ra Hra] & [rb Hrb] & Hrel)]; [by rewrite decide_True|].
    case_decide as Hd; [done|].
    assert (getWorkspaceRef db a = DbOk (WorkspaceRef a (ws_parent ra))) as ->
      by (apply getWorkspaceRef_ok; eauto).
    assert (getWorkspaceRef db b = DbOk (WorkspaceRef b (ws_parent rb))) as ->
      by (apply getWorkspaceRef_ok; eauto).
    destruct Hrel as [(ra' & rb' & p & ? & ? & Hpa & Hpb)|[(n & Hn & Hu)|(n & Hn & Hu)]].
    + simplify_eq. unfold when_parent at 1 2; simpl. rewrite Hpa, Hpb, bool_decide_true; done.
    + repeat case_match; auto. destruct (decide (n = 1%nat)) as [->|].
      * inversion Hu as [|? ? row q ? Hr Eq Hu']; subst. inversion Hu'; subst. simplify_eq.
        unfold when_parent in *; simpl in *. rewrite Eq in *. b2p. done.
      * pose proof (distant_complete db a b rb n Hwf Hok Hrb ltac:(lia) Hu). congruence.
    + repeat case_match; auto. destruct (decide (n = 1%nat)) as [->|].
      * inversion Hu as [|? ? row q ? Hr Eq Hu']; subst. inversion Hu'; subst. simplify_eq.
        unfold when_parent in *; simpl in *. rewrite Eq in *. b2p. done.
      * pose proof (distant_complete db b a ra n Hwf Hok Hra ltac:(lia) Hu). congruence.
Qed.

(** the answer does not depend on which side asks, on any database, readable or not. *)
Theorem CanCommunicate_symmetric db a b : CanCommunicate db a b = CanCommunicate db b a.
Proof.
  unfold CanCommunicate. destruct (decide (a = b)) as [->|Hne]; [by rewrite decide_True|].
  rewrite (decide_False (P := b = a)) by congruence.
  destruct (getWorkspaceRef db a) as [ca| |], (getWorkspaceRef db b) as [cb| |]; auto.
  assert (when_parent ca (fun p => when_parent cb (fun q => bool_decide (p = q))) =
          when_parent cb (fun p => when_parent ca (fun q => bool_decide (p = q)))) as ->.
  { unfold when_parent. destruct (ParentID ca), (ParentID cb); auto.
    apply bool_decide_ext. split; congruence. }
  repeat case_match; auto.
Qed.

(** tenant isolation. Whatever reads fail, two workspaces that may communicate are in the
    same org: an org root of one is the org root of the other. *)
Theorem CanCommunicate_same_org db a b r (Hwf : wf_table (rows db))
    (Ha : canon a = Some a) (Hb : canon b = Some b)
    (Hc : CanCommunicate db a b = true) (Hr : Root (rows db) a r) :
  Root (rows db) b r.
Proof.
  destruct (CanCommunicate_related db a b Hwf Ha Hb Hc)
    as [->|[(ra & rb & p & Hra & Hrb & Hpa & Hpb)|[(n & _ & Hu)|(n & _ & Hu)]]]; [done| | |].
  - apply (Root_up _ 1 a p r) in Hr; [|eauto using Up].
    apply (Root_up _ 1 b p r); eauto using Up.
  - by apply (Root_up _ n b a r).
  - by apply (Root_up _ n a b r) in Hu as [Hu _]; auto.
Qed.
End Access.

Lemma CanCommunicate_iff_witness :
  @CanCommunicate plain_cast demo_db "sec" "pm" = true /\
  @CanCommunicate plain_cast demo_db "sec" "other" = false.
Proof.
  split; [|reflexivity].
  apply (@CanCommunicate_iff plain_cast demo_db "sec" "pm" demo_table_wf eq_refl eq_refl (fun _ => eq_refl)).
  right. split; [eexists; vm_compute; reflexivity|]. split; [eexists; vm_compute; reflexivity|].
  right; right. exists 2%nat. split; [unfold maxAncestorWalk; lia|]. climb.
Defined.

Lemma CanCommunicate_same_org_witness :
  Root demo_table "pm" "pm" /\ Root demo_table "sec" "pm".
Proof.
  assert (Hr : Root demo_table "pm" "pm") by (exists O; apply demo_root_pm).
  split; [exact Hr|].
  apply (@CanCommunicate_same_org plain_cast demo_db "pm" "sec" "pm" demo_table_wf eq_refl eq_refl);
    [reflexivity|exact Hr].
Defined.
