(* ===== verification/Namespace.v ===== *)
(** * Memory namespaces (internal/memory/namespace/resolver.go)

    The namespaces a workspace may read and write, derived from its
    [parent_id] chain, and the two checks the MCP handlers make with them. *)

From S2P Require Import Prelude Tree.

Definition maxChainDepth : nat := 50.

Inductive NamespaceKind := KindWorkspace | KindTeam | KindOrg | KindCustom.

Record Namespace := MkNamespace {
  Name : string;
  Kind : NamespaceKind;
  Description : string;
  Writable : bool;
  DisplayName : string
}.

Record chainNode := ChainNode {
  cn_id : string;
  cn_name : string;
  cn_parentID : option string;
  cn_depth : nat
}.

Definition scan_node (depth : nat) (x : string * wsrow) : chainNode :=
  ChainNode x.1 (ws_name x.2)
    (match ws_parent x.2 with Some p => nullif_empty p | None => None end) depth.

Section Resolver.
Context `{UuidCast}.

(** The scanned chain, self first; [DbNoRows] is [ErrWorkspaceNotFound]. The
    slice is non-empty on success, so it is returned as head and tail. *)
Definition walkChain (db : wsdb) (workspaceID : string) : dbres (chainNode * list chainNode) :=
  match canon workspaceID with
  | None => DbErr
  | Some c =>
      if unreadable db c then DbErr
      else match imap scan_node (chain_rows (rows db) maxChainDepth c) with
           | [] => DbNoRows
           | self :: up => DbOk (self, up)
           end
  end.

(** [chain[len(chain)-1]] *)
Definition top (chain : chainNode * list chainNode) : chainNode :=
  default chain.1 (last chain.2).

Definition derive (chain : chainNode * list chainNode) : string * string * string :=
  let self := chain.1 in
  (cn_id self,
   match cn_parentID self with Some p => p | None => cn_id self end,
   cn_id (top chain)).

Definition deriveNames (chain : chainNode * list chainNode) : string * string * string :=
  let self := chain.1 in
  (cn_name self,
   match cn_parentID self, chain.2 with
   | Some _, parent :: _ => cn_name parent
   | _, _ => cn_name self
   end,
   cn_name (top chain)).

Definition ReadableNamespaces (db : wsdb) (workspaceID : string) : dbres (list Namespace) :=
  match walkChain db workspaceID with
  | DbErr => DbErr
  | DbNoRows => DbNoRows
  | DbOk chain =>
      let '(wsID, teamID, orgID) := derive chain in
      let '(wsName, teamName, orgName) := deriveNames chain in
      let isRoot := bool_decide (cn_parentID chain.1 = None) in
      DbOk [MkNamespace ("workspace:" +:+ wsID) KindWorkspace
              "This workspace's private memories" true wsName;
            MkNamespace ("team:" +:+ teamID) KindTeam
              "Memories shared across team members (parent + siblings)" true teamName;
            MkNamespace ("org:" +:+ orgID) KindOrg
              "Org-wide memories visible to every workspace under this root" isRoot orgName]
  end.

Definition WritableNamespaces (db : wsdb) (workspaceID : string) : dbres (list Namespace) :=
  match ReadableNamespaces db workspaceID with
  | DbErr => DbErr
  | DbNoRows => DbNoRows
  | DbOk all => DbOk (filter (fun ns => Writable ns = true) all)
  end.

Definition CanWrite (db : wsdb) (workspaceID namespace : string) : dbres bool :=
  match WritableNamespaces db workspaceID with
  | DbErr => DbErr
  | DbNoRows => DbNoRows
  | DbOk writable => DbOk (existsb (fun ns => bool_decide (Name ns = namespace)) writable)
  end.

Definition IntersectReadable (db : wsdb) (workspaceID : string) (requested : list string)
    : dbres (list string) :=
  match ReadableNamespaces db workspaceID with
  | DbErr => DbErr
  | DbNoRows => DbNoRows
  | DbOk readable =>
      match requested with
      | [] => DbOk (map Name readable)
      | _ => DbOk (filter (fun want => want ∈ map Name readable) requested)
      end
  end.

(** ** The chain *)

Lemma walkChain_ok db w (Hw : canon w = Some w) (Hok : unreadable db w = false) row :
  rows db !! w = Some row ->
  walkChain db w =
    match imap scan_node (chain_rows (rows db) maxChainDepth w) with
    | [] => DbNoRows
    | self :: up => DbOk (self, up)
    end.
Proof. intros. unfold walkChain. by rewrite Hw, Hok. Qed.

(** The last node scanned: the ancestor [min n 50] hops up, when the root is
    [n] hops up. *)
Lemma chain_last t h n w r :
  RootAt t n w r ->
  exists x row, last (chain_rows t h w) = Some (x, row) /\ Up t (Nat.min n h) w x /\
                t !! x = Some row.
Proof.
  revert n w. induction h as [|h IH]; intros n w [Hu Hr]; simpl.
  - rewrite Nat.min_0_r. destruct Hu as [w|n w row p a Hrow].
    + destruct Hr as (row & Hrow & _). rewrite Hrow. simpl. eauto using Up.
    + rewrite Hrow. simpl. eauto using Up.
  - destruct Hu as [w|n w row p a Hrow Hp Hu].
    + destruct Hr as (row & Hrow & Hp). rewrite Hrow, Hp. simpl. eauto using Up.
    + rewrite Hrow, Hp. simpl. destruct (IH n p ltac:(by split)) as (x & rx & Hl & Hux & Hrx).
      destruct (chain_rows t h p); [done|]. exists x, rx. eauto using Up.
Qed.

Lemma imap_last {A B} (f : nat -> A -> B) (l : list A) :
  last (imap f l) = (fun x => f (Nat.pred (length l)) x) <$> last l.
Proof.
  rewrite !last_lookup, length_imap, list_lookup_imap. done.
Qed.

Lemma top_node self up : last (self :: up) = Some (top (self, up)).
Proof. unfold top. simpl. by destruct up as [|y u]; simpl; [|destruct (last (y :: u)) eqn:E; [|by apply last_None in E]]. Qed.

(** Everything [ReadableNamespaces] returns, in terms of the tree: the root
    is [n] hops up and the last node the query reaches is [x]. *)
Lemma ReadableNamespaces_names db w row n r :
  wf_table (rows db) -> canon w = Some w -> unreadable db w = false ->
  rows db !! w = Some row -> RootAt (rows db) n w r ->
  exists x l, Up (rows db) (Nat.min n maxChainDepth) w x /\ ReadableNamespaces db w = DbOk l /\
    map (fun ns => (Name ns, Writable ns)) l =
      [("workspace:" +:+ w, true);
       ("team:" +:+ default w (ws_parent row), true);
       ("org:" +:+ x, bool_decide (ws_parent row = None))].
Proof.
  intros Hwf Hw Hok Hrow Hroot.
  destruct (chain_last (rows db) maxChainDepth n w r Hroot) as (x & rx & Hl & Hu & Hrx).
  exists x. unfold ReadableNamespaces. rewrite (walkChain_ok db w Hw Hok row Hrow).
  assert (Hpar : match ws_parent row with Some p => nullif_empty p | None => None end = ws_parent row).
  { destruct (ws_parent row) as [p|] eqn:Ep; [|done]. unfold nullif_empty.
    destruct (Hwf _ _ Hrow) as [_ Hfk]. destruct (Hfk _ Ep) as [rp Hp].
    destruct (Hwf _ _ Hp) as [Hc _]. rewrite decide_False; [done|]. intros ->.
    by apply canon_nonempty in Hc. }
  destruct (chain_rows (rows db) maxChainDepth w) as [|[i ri] l] eqn:Ec.
  { done. }
  assert ((i, ri) = (w, row)) as [= -> ->].
  { unfold maxChainDepth in Ec. simpl in Ec. rewrite Hrow in Ec. congruence. }
  assert (Hlast : last (imap scan_node ((w, row) :: l)) = Some (scan_node (length l) (x, rx)))
    by (by rewrite imap_last, Hl).
  destruct (imap scan_node ((w, row) :: l)) as [|self up] eqn:Ei; [done|].
  assert (self = scan_node 0 (w, row)) as -> by (simpl in Ei; congruence).
  rewrite top_node in Hlast. injection Hlast as Htop.
  eexists. split; [done|]. unfold derive. rewrite Htop. simpl. rewrite Hpar.
  split; [reflexivity|]. by destruct (ws_parent row).
Qed.

(** for a workspace whose org root is at most 50 hops up, the readable namespaces are, in
    order, its own (writable), its parent's team - its own team at a root - (writable), and its
    org root's org, writable only at the root itself. *)
Theorem ReadableNamespaces_canonical db w row n r
    (Hwf : wf_table (rows db)) (Hw : canon w = Some w) (Hok : unreadable db w = false)
    (Hrow : rows db !! w = Some row) (Hroot : RootAt (rows db) n w r)
    (Hn : (n <= maxChainDepth)%nat) :
  exists l, ReadableNamespaces db w = DbOk l /\
    map (fun ns => (Name ns, Writable ns)) l =
      [("workspace:" +:+ w, true);
       ("team:" +:+ default w (ws_parent row), true);
       ("org:" +:+ r, bool_decide (w = r))].
Proof.
  destruct (ReadableNamespaces_names db w row n r Hwf Hw Hok Hrow Hroot) as (x & l & Hu & Hl & Hm).
  rewrite Nat.min_l in Hu by done. destruct Hroot as [Hr Hroot].
  assert (x = r) as -> by eauto using Up_fun.
  exists l. split; [done|]. rewrite Hm. do 4 f_equal. apply bool_decide_ext.
  destruct Hroot as (rr & Hrr & Hnone). split; intros E.
  - inversion Hr; subst; [done|]. by simplify_eq.
  - subst. by simplify_eq.
Qed.

Lemma root_no_parent t n w r (row : wsrow) :
  t !! w = Some row -> ws_parent row = None -> RootAt t n w r -> n = O /\ w = r.
Proof.
  intros Hrow Hp [Hu _]. inversion Hu as [|? ? row' q ? Hrow' Hq]; subst; [done|].
  rewrite Hrow in Hrow'. injection Hrow' as <-. congruence.
Qed.

(** the write check. [CanWrite] admits exactly the workspace's own namespace, its team's, and
    - only for an org root - its own org's: no workspace below a root can write to any org
    namespace, however deep the tree is. *)
Theorem CanWrite_iff db w row n r ns
    (Hwf : wf_table (rows db)) (Hw : canon w = Some w) (Hok : unreadable db w = false)
    (Hrow : rows db !! w = Some row) (Hroot : RootAt (rows db) n w r) :
  CanWrite db w ns = DbOk true <->
  ns = ("workspace:" +:+ w) \/ ns = ("team:" +:+ default w (ws_parent row)) \/
  (ws_parent row = None /\ ns = ("org:" +:+ w)).
Proof.
  destruct (ReadableNamespaces_names db w row n r Hwf Hw Hok Hrow Hroot) as (x & l & Hu & Hl & Hm).
  unfold CanWrite, WritableNamespaces. rewrite Hl.
  destruct l as [|a [|b [|c [|]]]]; try discriminate. simpl in Hm. injection Hm as Ha Ha' Hb Hb' Hc Hc'.
  rewrite !filter_cons, filter_nil, Ha', Hb', Hc', !decide_True by done.
  assert (Hx : ws_parent row = None -> x = w).
  { intros Hp. destruct (root_no_parent _ _ _ _ _ Hrow Hp Hroot) as [-> <-]. by inversion Hu. }
  case_decide as Hp; b2p; simpl; rewrite Ha, Hb, ?Hc.
  - rewrite (Hx Hp). split.
    + intros [= E]. rewrite !orb_true_iff, !bool_decide_eq_true in E. naive_solver.
    + intros E. f_equal. rewrite !orb_true_iff, !bool_decide_eq_true. naive_solver.
  - apply not_true_iff_false in Hp. b2p. split.
    + intros [= E]. rewrite !orb_true_iff, !bool_decide_eq_true in E. naive_solver.
    + intros E. f_equal. rewrite !orb_true_iff, !bool_decide_eq_true. naive_solver.
Qed.

Lemma IntersectReadable_names db w requested l :
  ReadableNamespaces db w = DbOk l ->
  IntersectReadable db w requested =
    DbOk (match requested with [] => map Name l | _ => filter (fun x => x ∈ map Name l) requested end).
Proof. intros Hl. unfold IntersectReadable. rewrite Hl. by destruct requested. Qed.

(** the read filter never widens. With a request, [IntersectReadable] returns the requested
    names that are readable, in request order and with multiplicity; with an empty request it
    returns the whole readable set; in both cases every returned name is readable, and the only
    failures are those of resolving the workspace. *)
Theorem IntersectReadable_filters db w requested :
  match ReadableNamespaces db w with
  | DbOk l => exists out, IntersectReadable db w requested = DbOk out /\
      (forall x, x ∈ out -> x ∈ map Name l) /\
      (requested = [] -> out = map Name l) /\
      (requested <> [] -> out = filter (fun x => x ∈ map Name l) requested /\
         forall x, x ∈ out <-> x ∈ requested /\ x ∈ map Name l)
  | DbNoRows => IntersectReadable db w requested = DbNoRows
  | DbErr => IntersectReadable db w requested = DbErr
  end.
Proof.
  destruct (ReadableNamespaces db w) as [l| |] eqn:E.
  - eexists. split; [by apply IntersectReadable_names|].
    destruct requested as [|q qs]; split_and!; try done.
    + intros x Hx. by apply list_elem_of_filter in Hx as [? _].
    + intros _. split; [done|]. intros x. rewrite list_elem_of_filter. naive_solver.
  - unfold IntersectReadable. by rewrite E.
  - unfold IntersectReadable. by rewrite E.
Qed.

(** Every readable namespace names a workspace of the reader's own org. *)
Lemma readable_in_org db w row n r l :
  wf_table (rows db) -> canon w = Some w -> rows db !! w = Some row -> RootAt (rows db) n w r ->
  ReadableNamespaces db w = DbOk l ->
  exists team org, map Name l = ["workspace:" +:+ w; "team:" +:+ team; "org:" +:+ org] /\
    Root (rows db) team r /\ Root (rows db) org r.
Proof.
  intros Hwf Hw Hrow Hroot Hl.
  assert (Hok : unreadable db w = false).
  { unfold ReadableNamespaces, walkChain in Hl. rewrite Hw in Hl. by destruct (unreadable db w). }
  destruct (ReadableNamespaces_names db w row n r Hwf Hw Hok Hrow Hroot) as (x & l' & Hu & Hl' & E).
  rewrite Hl in Hl'. injection Hl' as <-. apply (f_equal (map fst)) in E. rewrite map_map in E.
  exists (default w (ws_parent row)), x. split; [exact E|]. split.
  - destruct (ws_parent row) as [p|] eqn:Ep; simpl; [|by exists n].
    apply (Root_up _ 1 w p r); [eauto using Up|by exists n].
  - apply (Root_up _ _ w x r Hu). by exists n.
Qed.

(** C2: isolation of memories between orgs. Two workspaces whose org roots differ have no readable
    namespace in common, so nothing either writes is readable by the other.  The trees may be of
    any depth: past 50 hops the resolver takes the 50th ancestor for the root
    (resolver_misses_deep_root), which still lies in the workspace's own org. *)
Theorem namespaces_disjoint_across_orgs db a b ra rb n m r s la lb
    (Hwf : wf_table (rows db)) (Hca : canon a = Some a) (Hcb : canon b = Some b)
    (Hra : rows db !! a = Some ra) (Hrb : rows db !! b = Some rb)
    (Hroota : RootAt (rows db) n a r) (Hrootb : RootAt (rows db) m b s) (Hrs : r <> s)
    (Hla : ReadableNamespaces db a = DbOk la) (Hlb : ReadableNamespaces db b = DbOk lb) :
  forall x, ~ (x ∈ map Name la /\ x ∈ map Name lb).
Proof.
  destruct (readable_in_org db a ra n r la Hwf Hca Hra Hroota Hla) as (ta & oa & -> & Hta & Hoa).
  destruct (readable_in_org db b rb m s lb Hwf Hcb Hrb Hrootb Hlb) as (tb & ob & -> & Htb & Hob).
  assert (Ha : Root (rows db) a r) by (by exists n). assert (Hb : Root (rows db) b s) by (by exists m).
  assert (Hsame : forall p c d, (p +:+ c) = (p +:+ d) -> Root (rows db) c r -> Root (rows db) d s -> False).
  { intros p c d E%str_app_inj_l Hc Hd. subst. apply Hrs. eauto using Root_fun. }
  intros x. rewrite !elem_of_cons, elem_of_nil. intros [Hx Hy].
  destruct Hx as [->|[->|[->|[]]]], Hy as [E|[E|[E|[]]]]; first [discriminate | eauto].
Qed.

(** the two depth bounds disagree. For a workspace whose org root is 51 to 64 hops up, the
    org-scoping lookup still resolves the true root [r] while the resolver's readable org is the
    50th ancestor, which is not the root. *)
Theorem resolver_misses_deep_root db w row n r
    (Hwf : wf_table (rows db)) (Hw : canon w = Some w) (Hok : unreadable db w = false)
    (Hrow : rows db !! w = Some row) (Hroot : RootAt (rows db) n w r)
    (Hn : (maxChainDepth < n <= orgRootMaxChainDepth)%nat) :
  orgRootID db w = DbOk r /\
  exists x l, Up (rows db) maxChainDepth w x /\ x <> r /\ ReadableNamespaces db w = DbOk l /\
    ("org:" +:+ x) ∈ map Name l /\ ("org:" +:+ r) ∉ map Name l.
Proof.
  split.
  { unfold orgRootID. rewrite Hw, Hok.
    assert (first_parentless (chain_rows (rows db) orgRootMaxChainDepth w) = Some r) as ->
      by (apply first_parentless_spec; exists n; split; [lia|done]).
    rewrite decide_False; [done|]. eapply wf_root_nonempty; [done|apply Hroot]. }
  destruct (ReadableNamespaces_names db w row n r Hwf Hw Hok Hrow Hroot) as (x & l & Hu & Hl & Hm).
  rewrite Nat.min_r in Hu by lia.
  assert (x <> r).
  { intros ->. destruct (RootAt_up _ _ _ _ _ _ Hu Hroot) as [_ Hr].
    destruct (RootAt_fun _ _ 0%nat _ _ r Hr) as [? _]; [|lia].
    split; [constructor|apply Hroot]. }
  exists x, l. split_and!; auto; apply (f_equal (map fst)) in Hm; rewrite map_map in Hm;
    change (map Name l = ["workspace:" +:+ w; "team:" +:+ default w (ws_parent row); "org:" +:+ x]) in Hm;
    rewrite Hm.
  - set_solver.
  - rewrite !elem_of_cons, elem_of_nil. intros [E|[E|[E|[]]]]; try discriminate.
    apply str_app_inj_l in E. auto.
Qed.
End Resolver.

Lemma ReadableNamespaces_canonical_witness :
  exists l, @ReadableNamespaces plain_cast demo_db "sec" = DbOk l /\
    map (fun ns => (Name ns, Writable ns)) l =
      [("workspace:sec", true); ("team:lead", true); ("org:pm", false)].
Proof.
  exact (@ReadableNamespaces_canonical plain_cast demo_db "sec" (demo_row "Sec" (Some "lead")) 2 "pm"
           demo_table_wf eq_refl eq_refl eq_refl demo_root_sec ltac:(unfold maxChainDepth; lia)).
Defined.

Lemma CanWrite_iff_witness :
  @CanWrite plain_cast demo_db "pm" "org:pm" = DbOk true /\
  @CanWrite plain_cast demo_db "sec" "org:pm" <> DbOk true.
Proof.
  split.
  - apply (@CanWrite_iff plain_cast demo_db "pm" (demo_row "PM" None) 0 "pm" "org:pm"
             demo_table_wf eq_refl eq_refl eq_refl demo_root_pm). right; right. split; reflexivity.
  - intros H.
    apply (@CanWrite_iff plain_cast demo_db "sec" (demo_row "Sec" (Some "lead")) 2 "pm" "org:pm"
             demo_table_wf eq_refl eq_refl eq_refl demo_root_sec) in H.
    destruct H as [H|[H|[H _]]]; discriminate.
Defined.

Lemma namespaces_disjoint_across_orgs_witness :
  exists la lb, @ReadableNamespaces plain_cast demo_db "sec" = DbOk la /\
    @ReadableNamespaces plain_cast demo_db "other" = DbOk lb /\
    forall x, ~ (x ∈ map Name la /\ x ∈ map Name lb).
Proof.
  eexists _, _. split; [reflexivity|]. split; [reflexivity|].
  apply (@namespaces_disjoint_across_orgs plain_cast demo_db "sec" "other"
           (demo_row "Sec" (Some "lead")) (demo_row "Other" None) 2 0 "pm" "other" _ _
           demo_table_wf eq_refl eq_refl eq_refl eq_refl
           demo_root_sec demo_root_other ltac:(done) eq_refl eq_refl).
Defined.

(** A chain of [k + 1] workspaces, the root named "x". *)
Fixpoint deep_id (k : nat) : string :=
  match k with O => "x" | S k' => String (Ascii.ascii_of_nat 120) (deep_id k') end.
Fixpoint deep_table (k : nat) : wstable :=
  match k with
  | O => {["x" := demo_row "root" None]}
  | S k' => <[deep_id k := demo_row "n" (Some (deep_id k'))]> (deep_table k')
  end.

Definition deep_row (k : nat) : wsrow :=
  match k with O => demo_row "root" None | S k' => demo_row "n" (Some (deep_id k')) end.

Lemma deep_id_length k : String.length (deep_id k) = S k.
Proof. induction k; simpl; auto. Qed.

Lemma deep_id_inj j k : deep_id j = deep_id k -> j = k.
Proof. intros E%(f_equal String.length). rewrite !deep_id_length in E. lia. Qed.

Lemma deep_lookup k j : (j <= k)%nat -> deep_table k !! deep_id j = Some (deep_row j).
Proof.
  induction k as [|k IH]; intros Hj.
  - assert (j = O) as -> by lia. apply lookup_singleton_eq.
  - destruct (decide (j = S k)) as [->|Hne].
    + apply lookup_insert_eq.
    + change (deep_table (S k)) with (<[deep_id (S k) := deep_row (S k)]> (deep_table k)).
      rewrite lookup_insert_ne by (intros E%deep_id_inj; lia). apply IH. lia.
Qed.

Lemma deep_table_keys k i r : deep_table k !! i = Some r -> exists j, (j <= k)%nat /\ i = deep_id j /\ r = deep_row j.
Proof.
  induction k as [|k IH].
  - change (deep_table 0) with ({[deep_id 0 := deep_row 0]} : wstable).
    intros [<- <-]%lookup_singleton_Some. by exists O.
  - change (deep_table (S k)) with (<[deep_id (S k) := deep_row (S k)]> (deep_table k)).
    intros [[<- <-]|[_ Hl]]%lookup_insert_Some; [by exists (S k)|].
    destruct (IH Hl) as (j & Hj & ?). exists j. split; [lia|done].
Qed.

Lemma deep_table_wf k : @wf_table plain_cast (deep_table k).
Proof.
  intros i r Hl. destruct (deep_table_keys k i r Hl) as ([|j] & Hj & -> & ->).
  - split; [reflexivity|done].
  - split; [reflexivity|]. intros p [= <-]. exists (deep_row j). apply deep_lookup. lia.
Qed.

Lemma deep_root k j : (j <= k)%nat -> RootAt (deep_table k) j (deep_id j) "x".
Proof.
  intros Hj. split; [|exists (deep_row 0); split; [apply (deep_lookup k 0); lia|done]].
  induction j as [|j IH]; [constructor|].
  eapply Up_S; [by apply deep_lookup|reflexivity|apply IH; lia].
Qed.

Lemma resolver_misses_deep_root_witness :
  let db := WsDb (deep_table 60) (fun _ => false) in
  @orgRootID plain_cast db (deep_id 60) = DbOk "x" /\
  exists l, @ReadableNamespaces plain_cast db (deep_id 60) = DbOk l /\ "org:x" ∉ map Name l.
Proof.
  intros db.
  destruct (@resolver_misses_deep_root plain_cast db (deep_id 60) (demo_row "n" (Some (deep_id 59)))
              60 "x" (deep_table_wf 60) eq_refl eq_refl (deep_lookup 60 60 (le_n _)) (deep_root 60 60 (le_n _))
              ltac:(unfold maxChainDepth, orgRootMaxChainDepth; lia))
    as [H (x & l & _ & _ & Hl & _ & Hn)].
  split; [exact H|]. exists l. split; [exact Hl|exact Hn].
Defined.
