(* ===== verification/Reparent.v ===== *)
(** * Moving a workspace (internal/handlers/workspace_reparent.go)

    [applyReparent] is one transaction: it locates the two org roots without a
    lock, locks the endpoints and the roots, re-derives the source root,
    validates, writes, verifies the written tree and commits.  The model takes
    two snapshots: [pre], which the unlocked reads of step 0 see, and [cur],
    which every later statement sees (the rows that matter are then locked).
    [fault] says which statements fail with a driver error. *)

From S2P Require Import Prelude Tree.

Definition reparentMaxDepth : nat := 64.

Definition reparentCodeInvalid : string := "WORKSPACE_REPARENT_INVALID_PARENT_ID".
Definition reparentCodeSelf : string := "WORKSPACE_REPARENT_SELF".
Definition reparentCodeNotFound : string := "WORKSPACE_REPARENT_PARENT_NOT_FOUND".
Definition reparentCodeCycle : string := "WORKSPACE_REPARENT_CYCLE".
Definition reparentCodeCrossOrg : string := "WORKSPACE_REPARENT_CROSS_ORG".
Definition reparentCodeRootPromotion : string := "WORKSPACE_REPARENT_ROOT_PROMOTION_FORBIDDEN".
Definition reparentCodeNameConflict : string := "WORKSPACE_REPARENT_NAME_CONFLICT".
Definition reparentCodeAmbiguous : string := "WORKSPACE_REPARENT_AMBIGUOUS_WITH_RENAME".
Definition reparentCodeUnresolvable : string := "WORKSPACE_REPARENT_ORG_UNRESOLVABLE".
Definition reparentCodeConcurrent : string := "WORKSPACE_REPARENT_CONCURRENT_MODIFICATION".

(** A rejection: HTTP status and stable code (the human-readable message and
    the details map are not modelled). *)
Record reparentError := reparentReject { Status : Z; Code : string }.

Record reparentOutcome := ReparentOutcome {
  Changed : bool;
  Adopted : bool;
  OldParent : string;
  NewParent : string;
  OrgRoot : string;
  Lost : list string;
  Gained : list string
}.

(** The raw JSON value of [body["parent_id"]]. *)
Inductive rawvalue := RawNull | RawString (s : string) | RawOther.

(** The database statements, for fault injection. *)
Inductive stmt :=
| SBegin | SPreSource | SPreTarget | SLock | SRecheck | SNoopRoot | SDescendant
| SSourceRoot | STargetRoot | SCountChildren | SUpdate | SMigrateTokens
| SMigratePlugins | SClearPlugins | SPostVerify | SCommit.

(** What a step gives: a value, a rejection, or a driver error. *)
Inductive res (A : Type) :=
| Val (a : A)
| Rej (e : reparentError)
| Failed (s : stmt).
Arguments Val {A} a.
Arguments Rej {A} e.
Arguments Failed {A} s.

Definition bind {A B} (m : res A) (k : A -> res B) : res B :=
  match m with Val a => k a | Rej e => Rej e | Failed s => Failed s end.

Declare Scope reparent_scope.
Notation "x <- m ;; k" := (bind m (fun x => k))
  (at level 100, m at next level, right associativity) : reparent_scope.
Notation "'reject' e 'when' b ;; k" := (if b : bool then Rej e else k)
  (at level 100, e at level 0, b at next level, right associativity) : reparent_scope.
#[local] Open Scope reparent_scope.

(** The tables a move touches. *)
Record orgdb := OrgDb {
  workspaces : wstable;
  org_api_tokens : gmap string (option string);                   (* token id -> org_id *)
  org_plugin_allowlist : gmap (string * string) (string * time)   (* (org_id, plugin) -> enabled_by/at *)
}.

Section Reparent.
Context `{UuidCast}.
(** [uuid.Parse] of github.com/google/uuid accepts the text. *)
Context (uuid_Parse : string -> bool).

Definition parseReparentTarget (raw : rawvalue) : res (string * bool) :=
  match raw with
  | RawNull => Val ("", true)
  | RawOther => Rej (reparentReject 400 reparentCodeInvalid)
  | RawString s =>
      reject (reparentReject 400 reparentCodeInvalid) when bool_decide (s = "") ;;
      reject (reparentReject 400 reparentCodeInvalid) when negb (uuid_Parse s) ;;
      Val (s, false)
  end.

(** [(root, ok, err)]: [None] is the driver error of a failed cast. *)
Definition reparentOrgRoot (t : wstable) (workspaceID : string) : option (string * bool) :=
  match canon workspaceID with
  | None => None
  | Some c => match last (chain_rows t reparentMaxDepth c) with
              | None => Some ("", false)
              | Some (id, row) => if decide (ws_parent row = None) then Some (id, true)
                                  else Some ("", false)
              end
  end.

(** The live rows whose parent_id is [id]. *)
Definition children (t : wstable) (id : string) : list string :=
  map fst (filter (fun kr => ws_parent kr.2 = Some id /\ ws_status kr.2 <> "removed") (map_to_list t)).

(** The recursive member: one more generation per hop. *)
Fixpoint descendants (t : wstable) (hops : nat) (frontier : list string) : list string :=
  frontier ++ match hops with
              | O => []
              | S h => descendants t h (flat_map (children t) frontier)
              end.

Definition reparentIsDescendant (t : wstable) (workspaceID candidate : string) : option bool :=
  if decide (workspaceID = candidate) then Some true
  else match canon workspaceID, canon candidate with
       | Some w, Some c => Some (bool_decide (c ∈ descendants t reparentMaxDepth (children t w)))
       | _, _ => None
       end.

Section Move.
Context (fault : stmt -> bool).

(** Run a statement: its result, or a driver error. *)
Definition exec {A} (s : stmt) (v : option A) : res A :=
  if fault s then Failed s else match v with Some a => Val a | None => Failed s end.

(** Step 0: the unlocked root reads. *)
Definition locate_roots (pre : wstable) (workspaceID target : string) (wantRoot : bool)
    : res ((string * bool) * string) :=
  self <- exec SPreSource (reparentOrgRoot pre workspaceID) ;;
  if negb wantRoot && negb (bool_decide (target = workspaceID)) then
    tr <- exec SPreTarget (reparentOrgRoot pre target) ;;
    Val (self, tr.1)
  else Val (self, "").

Definition addLock (ids : list string) (id : string) : list string :=
  if decide (id = "") then ids
  else if decide (id ∈ ids) then ids
  else ids ++ [id].

Definition lock_ids (workspaceID target : string) (wantRoot : bool) (rootSelf rootTarget : string)
    : list string :=
  let l0 := [workspaceID] in
  let l1 := if negb wantRoot && negb (bool_decide (target = workspaceID)) then addLock l0 target else l0 in
  addLock (addLock l1 rootSelf) rootTarget.

(** [SELECT ... WHERE id = ANY($1::uuid[]) FOR UPDATE]: the locked rows,
    keyed by canonical text. *)
Definition lock_rows (t : wstable) (ids : list string) : option wstable :=
  match mapM canon ids with
  | None => None
  | Some cs => Some (filter (fun kr => kr.1 ∈ cs) t)
  end.

(** Steps 1, 1a and 1b: lock, re-derive the source root, refuse a removed
    workspace.  Returns the locked rows and the workspace's row. *)
Definition lock_and_recheck (cur : wstable) (workspaceID target : string) (wantRoot : bool)
    (selfRoot : string * bool) (rootTarget : string) : res (wstable * wsrow) :=
  locked <- exec SLock (lock_rows cur (lock_ids workspaceID target wantRoot selfRoot.1 rootTarget)) ;;
  match locked !! workspaceID with
  | None => Rej (reparentReject 404 reparentCodeNotFound)
  | Some self =>
      again <- exec SRecheck (reparentOrgRoot cur workspaceID) ;;
      reject (reparentReject 409 reparentCodeConcurrent)
        when (negb (Bool.eqb again.2 selfRoot.2) || negb (bool_decide (again.1 = selfRoot.1))) ;;
      reject (reparentReject 404 reparentCodeNotFound) when bool_decide (ws_status self = "removed") ;;
      Val (locked, self)
  end.

(** What validation concludes: nothing to do, or a write that must leave
    the workspace at [expectedRootAfter]. *)
Inductive verdict :=
| NoChange (o : reparentOutcome)
| Proceed (adoption : bool) (targetRoot expectedRootAfter : string).

(** Steps 2 to 7. *)
Definition validate_move (cur locked : wstable) (self : wsrow) (workspaceID target : string)
    (wantRoot : bool) : res verdict :=
  let oldParent := default "" (ws_parent self) in
  if wantRoot then
    if decide (oldParent = "") then
      Val (NoChange (ReparentOutcome false false "" "" workspaceID [] []))
    else Rej (reparentReject 422 reparentCodeRootPromotion)
  else
  reject (reparentReject 422 reparentCodeSelf) when bool_decide (target = workspaceID) ;;
  if decide (oldParent = target) then
    r <- exec SNoopRoot (reparentOrgRoot cur workspaceID) ;;
    reject (reparentReject 409 reparentCodeUnresolvable) when negb r.2 ;;
    Val (NoChange (ReparentOutcome false false oldParent target r.1 [] []))
  else
  match locked !! target with
  | None => Rej (reparentReject 422 reparentCodeNotFound)
  | Some newParent =>
      reject (reparentReject 422 reparentCodeNotFound)
        when bool_decide (ws_status newParent = "removed") ;;
      isDesc <- exec SDescendant (reparentIsDescendant cur workspaceID target) ;;
      reject (reparentReject 422 reparentCodeCycle) when isDesc ;;
      oldRoot <- exec SSourceRoot (reparentOrgRoot cur workspaceID) ;;
      reject (reparentReject 409 reparentCodeUnresolvable) when negb oldRoot.2 ;;
      targetRoot <- exec STargetRoot (reparentOrgRoot cur target) ;;
      reject (reparentReject 409 reparentCodeUnresolvable) when negb targetRoot.2 ;;
      if decide (oldRoot.1 = targetRoot.1) then Val (Proceed false targetRoot.1 oldRoot.1)
      else if decide (oldParent = "") then
        kids <- exec SCountChildren (length <$> (children cur <$> canon workspaceID)) ;;
        reject (reparentReject 422 reparentCodeCrossOrg) when (0 <? Z.of_nat kids) ;;
        Val (Proceed true targetRoot.1 targetRoot.1)
      else Rej (reparentReject 422 reparentCodeCrossOrg)
  end.

(** [workspaces_parent_name_uniq]: a live row under [target] other than the
    workspace carries its name. *)
Definition name_conflict (t : wstable) (workspaceID target name : string) : bool :=
  existsb (fun kr => bool_decide (kr.1 <> workspaceID /\ ws_parent kr.2 = Some target /\
                                  ws_name kr.2 = name /\ ws_status kr.2 <> "removed"))
          (map_to_list t).

(** Step 8b: the org anchors follow an adopted root. *)
Definition migrate_tokens (targetRoot workspaceID : string) (m : gmap string (option string)) :=
  (fun o => if decide (o = Some workspaceID) then Some targetRoot else o) <$> m.

(** [INSERT ... SELECT ... ON CONFLICT DO NOTHING]: existing rows win. *)
Definition copy_plugins (targetRoot workspaceID : string) (m : gmap (string * string) (string * time)) :=
  m ∪ list_to_map (map (fun kv => ((targetRoot, kv.1.2), kv.2))
                       (filter (fun kv => kv.1.1 = workspaceID) (map_to_list m))).

Definition clear_plugins (workspaceID : string) (m : gmap (string * string) (string * time)) :=
  filter (fun kv => kv.1.1 <> workspaceID) m.

(** Steps 8, 8b and 9: write, migrate, verify what was written. *)
Definition write_move (cur : orgdb) (self : wsrow) (workspaceID target : string)
    (adoption : bool) (targetRoot expectedRootAfter : string) : res orgdb :=
  reject (reparentReject 409 reparentCodeNameConflict)
    when (negb (fault SUpdate) && name_conflict (workspaces cur) workspaceID target (ws_name self)) ;;
  t' <- exec SUpdate (Some (<[workspaceID := set_parent (Some target) self]> (workspaces cur))) ;;
  anchors <- (if adoption then
                toks <- exec SMigrateTokens (Some (migrate_tokens targetRoot workspaceID (org_api_tokens cur))) ;;
                copied <- exec SMigratePlugins (Some (copy_plugins targetRoot workspaceID (org_plugin_allowlist cur))) ;;
                plugins <- exec SClearPlugins (Some (clear_plugins workspaceID copied)) ;;
                Val (toks, plugins)
              else Val (org_api_tokens cur, org_plugin_allowlist cur)) ;;
  post <- exec SPostVerify (reparentOrgRoot t' workspaceID) ;;
  reject (reparentReject 409 reparentCodeCycle) when negb post.2 ;;
  reject (reparentReject 422 reparentCodeCrossOrg) when negb (bool_decide (post.1 = expectedRootAfter)) ;;
  _ <- exec SCommit (Some tt) ;;
  Val (OrgDb t' anchors.1 anchors.2).

(** The outcome of an applied move. *)
Definition move_outcome (self : wsrow) (workspaceID target : string) (adoption : bool)
    (targetRoot expectedRootAfter : string) : reparentOutcome :=
  let oldParent := default "" (ws_parent self) in
  if adoption then
    ReparentOutcome true true oldParent target expectedRootAfter
      ["team:" +:+ workspaceID; ("org:" +:+ workspaceID) +:+ " (writable)"]
      ["team:" +:+ target; ("org:" +:+ targetRoot) +:+ " (read-only)"]
  else
    ReparentOutcome true false oldParent target expectedRootAfter
      ["team:" +:+ oldParent] ["team:" +:+ target].

Definition reparent_tx (pre : wstable) (cur : orgdb) (workspaceID : string) (raw : rawvalue)
    : res (reparentOutcome * orgdb) :=
  tw <- parseReparentTarget raw ;;
  let '(target, wantRoot) := tw in
  _ <- exec SBegin (Some tt) ;;
  roots <- locate_roots pre workspaceID target wantRoot ;;
  lk <- lock_and_recheck (workspaces cur) workspaceID target wantRoot roots.1 roots.2 ;;
  v <- validate_move (workspaces cur) lk.1 lk.2 workspaceID target wantRoot ;;
  match v with
  | NoChange o => Val (o, cur)
  | Proceed adoption targetRoot expected =>
      db' <- write_move cur lk.2 workspaceID target adoption targetRoot expected ;;
      Val (move_outcome lk.2 workspaceID target adoption targetRoot expected, db')
  end.

(** The answer and the database afterwards: anything but a completed
    transaction rolls back. *)
Definition applyReparent (pre : wstable) (cur : orgdb) (workspaceID : string) (raw : rawvalue)
    : res reparentOutcome * orgdb :=
  match reparent_tx pre cur workspaceID raw with
  | Val (o, db') => (Val o, db')
  | Rej e => (Rej e, cur)
  | Failed s => (Failed s, cur)
  end.
End Move.

(** ** validateCreateParentID (POST /workspaces) *)

(** [DeterministicPlatformAgentID]: the version-5 uuid github.com/google/uuid
    derives from the org id. *)
Context (DeterministicPlatformAgentID : string -> string).

Definition orgAnchorMatchesRoot (orgAnchor root : string) : bool :=
  if decide (orgAnchor = "" \/ root = "") then false
  else bool_decide (orgAnchor = root) || bool_decide (DeterministicPlatformAgentID orgAnchor = root).

(** [None] is a driver error; [anchor] is "" when the request carries none. *)
Definition validateCreateParentID (db : wsdb) (anchor raw : string) : option (res unit) :=
  if decide (raw = "") then Some (Val tt)
  else if negb (uuid_Parse raw) then Some (Rej (reparentReject 400 reparentCodeInvalid))
  else match canon raw with
  | None => None
  | Some c =>
      if unreadable db c then None
      else match rows db !! c with
      | None => Some (Rej (reparentReject 422 reparentCodeNotFound))
      | Some row =>
          if decide (ws_status row = "removed") then Some (Rej (reparentReject 422 reparentCodeNotFound))
          else if decide (anchor = "") then Some (Val tt)
          else match orgRootID db raw with
               | DbErr => None
               | DbNoRows => Some (Rej (reparentReject 422 reparentCodeUnresolvable))
               | DbOk parentRoot =>
                   if orgAnchorMatchesRoot anchor parentRoot then Some (Val tt)
                   else Some (Rej (reparentReject 403 reparentCodeCrossOrg))
               end
      end
  end.
End Reparent.
