(* ===== verification/ReparentSafety.v ===== *)
(** * What a move of a workspace may and may not change

    The theorems about [Reparent.applyReparent] and [validateCreateParentID]:
    which moves are accepted, that an accepted move keeps every other
    workspace in its org, that the org anchors follow an adopted root, and
    that anything but a commit leaves the database as it was. *)

From S2P Require Import Prelude Tree Access Namespace Reparent.

(** ** Paths in a table and in the table with one row changed *)

Definition agree_off (w : string) (t t' : wstable) : Prop := forall x, x <> w -> t !! x = t' !! x.

Lemma agree_off_sym w t t' : agree_off w t t' -> agree_off w t' t.
Proof. intros H x Hx. symmetry. auto. Qed.

Lemma agree_off_insert w r t : agree_off w t (<[w := r]> t).
Proof. intros x Hx. by rewrite lookup_insert_ne. Qed.

(** A walk either passes through [w], and does in both tables, or is a walk of
    the other table as well. *)
Lemma Up_agree w t t' n a b :
  agree_off w t t' -> Up t n a b ->
  (exists k, (k < n)%nat /\ Up t k a w /\ Up t' k a w) \/ Up t' n a b.
Proof.
  intros Hag Hu. induction Hu as [a|n a row p b Hrow Hp Hu IH]; [right; constructor|].
  destruct (decide (a = w)) as [->|Hne].
  { left. exists O. split; [lia|]. split; constructor. }
  assert (Hrow' : t' !! a = Some row) by (by rewrite <- Hag).
  destruct IH as [(k & Hk & H1 & H2)|H'].
  - left. exists (S k). split; [lia|]. split; eauto using Up.
  - right. eauto using Up.
Qed.

Lemma RootAt_agree w t t' n a r :
  agree_off w t t' -> RootAt t n a r ->
  (exists k, (k <= n)%nat /\ Up t k a w /\ Up t' k a w) \/ RootAt t' n a r.
Proof.
  intros Hag [Hu Hr]. destruct (Up_agree w t t' n a r Hag Hu) as [(k & ? & ? & ?)|Hu'].
  { left. exists k. split; [lia|done]. }
  destruct (decide (r = w)) as [->|Hne]; [left; exists n; auto|].
  right. split; [done|]. destruct Hr as (row & Hrow & Hp). exists row. by rewrite <- Hag.
Qed.

(** A workspace whose walk avoids [w] keeps its root. *)
Lemma Root_avoiding w t t' a r :
  agree_off w t t' -> (forall k, ~ Up t k a w) -> Root t a r -> Root t' a r.
Proof.
  intros Hag Hno [n Hn]. destruct (RootAt_agree _ _ _ _ _ _ Hag Hn) as [(k & _ & Hu & _)|]; [|by exists n].
  by destruct (Hno k).
Qed.

Lemma Up_avoiding w t t' k a :
  agree_off w t t' -> (forall j, ~ Up t j a w) -> ~ Up t' k a w.
Proof.
  intros Hag Hno Hu.
  assert (forall k, Up t' k a w -> False) as Hk; [|eauto].
  clear k Hu. intros k. induction k as [k IH] using lt_wf_ind. intros Hu.
  destruct (Up_agree w t' t k a w (agree_off_sym _ _ _ Hag) Hu) as [(j & Hj & Hu' & _)|Hu'];
    [by apply (IH j)|by apply (Hno k)].
Qed.

(** Re-pointing [w] when [w] has the root [r] before and [s] after: everything
    at or below [w] goes from [r] to [s], everything else keeps its root. *)
Lemma Root_surgery w t t' s :
  agree_off w t t' -> Root t' w s ->
  forall a, (forall k, Up t k a w -> Root t' a s) /\
            ((forall k, ~ Up t k a w) -> forall q, Root t a q <-> Root t' a q).
Proof.
  intros Hag Hs a. split.
  - intros k Hu. assert (exists j, Up t' j a w) as [j Hj]; [|by apply (Root_up _ _ _ _ _ Hj)].
    destruct (Up_agree w t t' k a w Hag Hu) as [(j & _ & _ & Hj)|Hj]; eauto.
  - intros Hno q. split; [by apply (Root_avoiding w)|].
    apply (Root_avoiding w t' t); [exact (agree_off_sym _ _ _ Hag)|]. intros k. by apply (Up_avoiding w t t').
Qed.

Lemma Root_surgery_same w t t' r :
  agree_off w t t' -> Root t w r -> Root t' w r ->
  forall a q, Root t a q <-> Root t' a q.
Proof.
  assert (Hone : forall t t' : wstable, agree_off w t t' -> Root t w r -> Root t' w r ->
            forall a q, Root t a q -> Root t' a q).
  { intros t1 t2 Hag H1 H2 a q Hq. pose proof Hq as [n Hn].
    destruct (RootAt_agree _ _ _ _ _ _ Hag Hn) as [(k & _ & Hu & Hu')|]; [|by exists n].
    apply (Root_up _ _ _ _ _ Hu) in Hq. rewrite (Root_fun _ _ _ _ Hq H1).
    by apply (Root_up _ _ _ _ _ Hu'). }
  intros Hag H1 H2 a q. split; [by apply Hone|]. apply Hone; [by apply agree_off_sym|done|done].
Qed.

(** ** What the statements of the transaction find *)

Section Facts.
Context `{UuidCast}.
Context (uuid_Parse : string -> bool).

Lemma reparentOrgRoot_true t w r :
  canon w = Some w -> reparentOrgRoot t w = Some (r, true) <->
  exists n, (n <= 64)%nat /\ RootAt t n w r.
Proof.
  intros Hw. unfold reparentOrgRoot. rewrite Hw.
  change 64%nat with reparentMaxDepth. rewrite <- first_parentless_spec, first_parentless_last.
  destruct (last _) as [[i row]|]; [|split; [done|by intros (? & ? & _)]].
  case_decide as Hp; split.
  - intros [= ->]. eauto.
  - intros (? & [= -> ->] & _). done.
  - done.
  - by intros (? & [= -> ->] & ?).
Qed.

Lemma reparentOrgRoot_Root t w r :
  canon w = Some w -> reparentOrgRoot t w = Some (r, true) -> Root t w r.
Proof. intros Hw Hr. apply reparentOrgRoot_true in Hr as (n & _ & Hn); [by exists n|done]. Qed.

Lemma orgRootID_reparent_ok t w :
  wf_table t ->
  orgRootID (WsDb t (fun _ => false)) w =
  match reparentOrgRoot t w with
  | None => DbErr
  | Some (r, true) => DbOk r
  | Some (_, false) => DbNoRows
  end.
Proof.
  intros Hwf. unfold orgRootID, reparentOrgRoot. destruct (canon w) as [c|] eqn:Hw; [|done]. cbn [unreadable rows].
  change orgRootMaxChainDepth with reparentMaxDepth.
  destruct (first_parentless _) as [r|] eqn:E.
  - assert (exists n, (n <= reparentMaxDepth)%nat /\ RootAt t n c r) as (n & _ & _ & Hr)
      by (apply first_parentless_spec; exact E).
    apply first_parentless_last in E as (row & -> & Hp).
    rewrite decide_False by (by eapply wf_root_nonempty). by rewrite decide_True.
  - destruct (last _) as [[i row]|] eqn:El; [|done]. case_decide; [|done]. exfalso.
    enough (first_parentless (chain_rows t reparentMaxDepth c) = Some i) by congruence.
    apply first_parentless_last. eauto.
Qed.

Lemma lock_rows_lookup t ids l w row :
  lock_rows t ids = Some l -> l !! w = Some row -> t !! w = Some row.
Proof.
  unfold lock_rows. destruct (mapM canon ids) as [cs|]; [|done]. intros [= <-] Hl.
  by apply map_lookup_filter_Some in Hl as [? _].
Qed.

(** ** Inverting a successful transaction *)

Lemma bind_val {A B} (m : res A) (k : A -> res B) b :
  bind m k = Val b -> exists a, m = Val a /\ k a = Val b.
Proof. destruct m; simpl; intros; try done; eauto. Qed.

Lemma exec_val {A} fault s (v : option A) a : exec fault s v = Val a -> v = Some a.
Proof. unfold exec. destruct (fault s), v; congruence. Qed.
End Facts.

Ltac val_case :=
  match goal with
  | H : bind _ _ = Val _ |- _ => apply bind_val in H as (? & ? & H)
  | H : exec _ _ _ = Val _ |- _ => apply exec_val in H
  | H : (if _ then Rej _ else _) = Val _ |- _ =>
      match type of H with (if ?b then _ else _) = _ => destruct b eqn:?; [discriminate H|] end
  | H : (if ?b then _ else _) = Val _ |- _ => destruct b eqn:?
  | H : match ?o with Some _ => _ | None => _ end = Val _ |- _ => destruct o eqn:?; try discriminate H
  | H : Val _ = Val _ |- _ => injection H as H
  | H : Rej _ = Val _ |- _ => discriminate H
  end.

Section Moves.
Context `{UuidCast}.
Context (uuid_Parse : string -> bool).

(** What holds of a transaction that wrote and committed. *)
Record applied (cur : orgdb) (w target : string) (o : reparentOutcome) (db' : orgdb) (self np : wsrow)
    (adoption : bool) (oldRoot targetRoot : string) : Prop := Applied {
  ap_self : workspaces cur !! w = Some self;
  ap_target : workspaces cur !! target = Some np;
  ap_live : ws_status self <> "removed" /\ ws_status np <> "removed";
  ap_moved : default "" (ws_parent self) <> target /\ target <> w;
  ap_cycle : reparentIsDescendant (workspaces cur) w target = Some false;
  ap_root : reparentOrgRoot (workspaces cur) w = Some (oldRoot, true);
  ap_troot : reparentOrgRoot (workspaces cur) target = Some (targetRoot, true);
  ap_rows : workspaces db' = <[w := set_parent (Some target) self]> (workspaces cur);
  ap_post : reparentOrgRoot (workspaces db') w =
            Some (if adoption then targetRoot else oldRoot, true);
  ap_org : if adoption
           then oldRoot <> targetRoot /\ default "" (ws_parent self) = "" /\
                children (workspaces cur) w = []
           else targetRoot = oldRoot;
  ap_anchors : if adoption
           then org_api_tokens db' = migrate_tokens targetRoot w (org_api_tokens cur) /\
                org_plugin_allowlist db' =
                  clear_plugins w (copy_plugins targetRoot w (org_plugin_allowlist cur))
           else org_api_tokens db' = org_api_tokens cur /\
                org_plugin_allowlist db' = org_plugin_allowlist cur;
  ap_name : name_conflict (workspaces cur) w target (ws_name self) = false;
  ap_outcome : o = move_outcome self w target adoption targetRoot
                     (if adoption then targetRoot else oldRoot)
}.

Lemma lock_and_recheck_val fault cur w target wantRoot sr rt locked self :
  lock_and_recheck fault cur w target wantRoot sr rt = Val (locked, self) ->
  cur !! w = Some self /\ (forall k row, locked !! k = Some row -> cur !! k = Some row) /\
  ws_status self <> "removed".
Proof.
  unfold lock_and_recheck. intros Hl. repeat val_case. simplify_eq. b2p.
  eauto using lock_rows_lookup.
Qed.

Lemma validate_move_proceed fault cur locked self w target wantRoot adoption tr exp :
  (forall k row, locked !! k = Some row -> cur !! k = Some row) -> canon w = Some w ->
  validate_move fault cur locked self w target wantRoot = Val (Proceed adoption tr exp) ->
  wantRoot = false /\ target <> w /\ default "" (ws_parent self) <> target /\
  exists np oldRoot, cur !! target = Some np /\ ws_status np <> "removed" /\
    reparentIsDescendant cur w target = Some false /\
    reparentOrgRoot cur w = Some (oldRoot, true) /\ reparentOrgRoot cur target = Some (tr, true) /\
    exp = (if adoption then tr else oldRoot) /\
    if adoption then oldRoot <> tr /\ default "" (ws_parent self) = "" /\ children cur w = []
    else tr = oldRoot.
Proof.
  intros Hlk Hw Hv. unfold validate_move in Hv. destruct wantRoot.
  { repeat val_case; discriminate. }
  repeat val_case; try discriminate; b2p; split_and!; auto; simplify_eq;
    repeat match goal with
    | x : string * bool |- _ => destruct x; simpl in *; subst
    end; do 2 eexists; split_and!; eauto; try done.
  rewrite Hw in *. simplify_option_eq. apply length_zero_iff_nil. lia.
Qed.

Lemma write_move_val fault cur self w target adoption tr exp db' :
  write_move fault cur self w target adoption tr exp = Val db' ->
  workspaces db' = <[w := set_parent (Some target) self]> (workspaces cur) /\
  reparentOrgRoot (workspaces db') w = Some (exp, true) /\
  name_conflict (workspaces cur) w target (ws_name self) = false /\
  if adoption
  then org_api_tokens db' = migrate_tokens tr w (org_api_tokens cur) /\
       org_plugin_allowlist db' = clear_plugins w (copy_plugins tr w (org_plugin_allowlist cur))
  else org_api_tokens db' = org_api_tokens cur /\ org_plugin_allowlist db' = org_plugin_allowlist cur.
Proof.
  unfold write_move. intros Hw. val_case.
  apply bind_val in Hw as (t' & Ht' & Hw). assert (fault SUpdate = false) as Hf.
  { unfold exec in Ht'. by destruct (fault SUpdate). }
  rewrite Hf in *. apply exec_val in Ht'. simplify_eq.
  apply bind_val in Hw as (anchors & Ha & Hw). destruct adoption;
    repeat val_case; simplify_eq; simpl in *; b2p;
    match goal with x : string * bool |- _ => destruct x; simpl in *; subst end; auto 10.
Qed.

Lemma reparent_tx_applied fault pre cur w raw o db' :
  wf_table (workspaces cur) ->
  reparent_tx uuid_Parse fault pre cur w raw = Val (o, db') -> Changed o = true ->
  exists target self np adoption oldRoot targetRoot,
    raw = RawString target /\ applied cur w target o db' self np adoption oldRoot targetRoot.
Proof.
  intros Hwf Htx Hch. unfold reparent_tx in Htx.
  apply bind_val in Htx as ([target wantRoot] & Hp & Htx). val_case.
  apply bind_val in Htx as (roots & Hroots & Htx).
  apply bind_val in Htx as ([locked self] & Hlk & Htx).
  apply bind_val in Htx as (v & Hv & Htx).
  apply lock_and_recheck_val in Hlk as (Hself & Hlk & Hlive). simpl in *.
  destruct (Hwf _ _ Hself) as [Hw _].
  destruct v as [o'|adoption tr exp].
  { exfalso. injection Htx as <- <-. unfold validate_move in Hv. repeat val_case; simplify_eq. }
  apply validate_move_proceed in Hv as (-> & Hne & Hmv & np & oldRoot & Hv); auto. open_hyps.
  apply bind_val in Htx as (db'' & Hwr & Htx). injection Htx as <- <-.
  apply write_move_val in Hwr as (Hrows & Hpost & Hname & Hanch).
  exists target, self, np, adoption, oldRoot, tr. split.
  - unfold parseReparentTarget in Hp. destruct raw; try discriminate. repeat val_case. by simplify_eq.
  - subst. by split; auto.
Qed.

(** ** Facts the validation needs *)

Lemma children_spec t w k :
  k ∈ children t w <-> exists row, t !! k = Some row /\ ws_parent row = Some w /\ ws_status row <> "removed".
Proof.
  unfold children. rewrite list_elem_of_fmap. split.
  - intros ([k' row] & -> & (Hp & Hk)%list_elem_of_filter). apply elem_of_map_to_list in Hk.
    exists row. simpl in *. tauto.
  - intros (row & Hk & Hp). exists (k, row). split; [done|].
    apply list_elem_of_filter. split; [done|]. by apply elem_of_map_to_list.
Qed.

Lemma children_nil t w :
  children t w = [] <->
  forall k row, t !! k = Some row -> ws_parent row = Some w -> ws_status row = "removed".
Proof.
  split.
  - intros Hc k row Hk Hp. destruct (decide (ws_status row = "removed")) as [|Hs]; [done|].
    assert (k ∈ children t w) as Hin by (apply children_spec; eauto).
    rewrite Hc in Hin. by apply not_elem_of_nil in Hin.
  - intros Hall. apply elem_of_nil_inv. intros k (row & Hk & Hp & Hs)%children_spec. eauto.
Qed.

Lemma descendants_sound t h w front c :
  (forall k, k ∈ front -> exists n, Up t n k w) -> c ∈ descendants t h front -> exists n, Up t n c w.
Proof.
  revert front. induction h as [|h IH]; intros front Hf; simpl; rewrite elem_of_app.
  - intros [Hc|Hc]; [auto|by apply not_elem_of_nil in Hc].
  - intros [Hc|Hc]; [auto|]. apply IH in Hc; [done|].
    intros k Hk. apply list_elem_of_In, in_flat_map in Hk as (y & Hy & Hk).
    apply list_elem_of_In in Hy, Hk. apply children_spec in Hk as (row & Hk & Hp & _).
    destruct (Hf _ Hy) as [n Hn]. exists (S n). eauto using Up.
Qed.

Lemma not_descendant t w c :
  canon w = Some w -> canon c = Some c -> (forall k, ~ Up t k c w) ->
  reparentIsDescendant t w c = Some false.
Proof.
  intros Hw Hc Hno. unfold reparentIsDescendant. rewrite decide_False.
  2:{ intros ->. apply (Hno O). constructor. }
  rewrite Hw, Hc. f_equal. apply bool_decide_eq_false. intros Hin.
  apply descendants_sound with (w := w) in Hin as [n Hn]; [by apply (Hno n)|].
  intros k (row & Hk & Hp & _)%children_spec. exists 1%nat. eauto using Up.
Qed.

Lemma name_conflict_spec t w target name :
  name_conflict t w target name = false <->
  forall k row, t !! k = Some row -> k <> w -> ws_parent row = Some target ->
                ws_status row <> "removed" -> ws_name row <> name.
Proof.
  unfold name_conflict. rewrite <- not_true_iff_false, existsb_exists. split.
  - intros Hno k row Hk Hne Hp Hs Hn. apply Hno. exists (k, row).
    split; [by apply list_elem_of_In, elem_of_map_to_list|]. by apply bool_decide_eq_true.
  - intros Hall ([k row] & Hk & Hb%bool_decide_eq_true). simpl in *. open_hyps.
    apply list_elem_of_In, elem_of_map_to_list in Hk. by eapply Hall.
Qed.

Lemma wf_parent_nonempty t k row :
  wf_table t -> t !! k = Some row -> default "" (ws_parent row) = "" -> ws_parent row = None.
Proof.
  intros Hwf Hk Hd. destruct (ws_parent row) as [p|] eqn:Ep; [|done]. simpl in Hd. subst.
  destruct (Hwf _ _ Hk) as [_ Hfk]. destruct (Hfk _ Ep) as [rp Hp].
  destruct (Hwf _ _ Hp) as [Hc _]. by apply canon_nonempty in Hc.
Qed.

Lemma wf_key t k row : wf_table t -> t !! k = Some row -> canon k = Some k.
Proof. intros Hwf Hk. apply (Hwf _ _ Hk). Qed.

Lemma wf_table_move t w target self np :
  wf_table t -> t !! w = Some self -> t !! target = Some np ->
  wf_table (<[w := set_parent (Some target) self]> t).
Proof.
  intros Hwf Hw Ht k row Hk. apply lookup_insert_Some in Hk as [[<- <-]|[Hne Hk]].
  - split; [by eapply wf_key|]. intros p [= <-]. apply lookup_insert_is_Some'. eauto.
  - destruct (Hwf _ _ Hk) as [Hc Hfk]. split; [done|]. intros p Hp.
    apply lookup_insert_is_Some'. eauto.
Qed.

(** The answer of [applyReparent] against its transaction. *)
Lemma applyReparent_tx fault pre cur w raw answer db' :
  applyReparent uuid_Parse fault pre cur w raw = (answer, db') ->
  (exists o, answer = Val o /\ reparent_tx uuid_Parse fault pre cur w raw = Val (o, db')) \/
  (db' = cur /\ forall o, answer <> Val o).
Proof.
  unfold applyReparent. destruct (reparent_tx _ _ _ _ _ _) as [[o db'']|e|s]; intros [= <- <-]; eauto.
Qed.

(** An outcome that reports no change leaves the tables alone. *)
Lemma reparent_tx_unchanged fault pre cur w raw o db' :
  reparent_tx uuid_Parse fault pre cur w raw = Val (o, db') -> Changed o = false ->
  db' = cur /\ Adopted o = false.
Proof.
  unfold reparent_tx. intros Htx Hch.
  apply bind_val in Htx as ([target wantRoot] & _ & Htx). val_case.
  apply bind_val in Htx as (roots & _ & Htx). apply bind_val in Htx as (lk & _ & Htx).
  apply bind_val in Htx as ([o'|adoption tr exp] & Hv & Htx).
  { injection Htx as <- <-. split; [done|]. unfold validate_move in Hv. repeat val_case; by simplify_eq. }
  apply bind_val in Htx as (db'' & _ & Htx). injection Htx as <- <-.
  unfold move_outcome in Hch. by destruct adoption.
Qed.

(** C1: whatever the request, whatever statements fail and whatever an earlier unlocked snapshot
    showed, a move that is not reported as an adoption leaves the org root of every workspace of
    the tree as it was - the moved one, its descendants and everybody else - and the table
    well-formed. *)
Theorem applyReparent_keeps_orgs fault pre cur w raw answer db'
    (Hwf : wf_table (workspaces cur))
    (Hrun : applyReparent uuid_Parse fault pre cur w raw = (answer, db'))
    (Hadopt : forall o, answer = Val o -> Adopted o = false) :
  wf_table (workspaces db') /\
  org_api_tokens db' = org_api_tokens cur /\ org_plugin_allowlist db' = org_plugin_allowlist cur /\
  forall a r, Root (workspaces cur) a r <-> Root (workspaces db') a r.
Proof.
  apply applyReparent_tx in Hrun as [(o & -> & Htx)|[-> _]]; [|done].
  destruct (Changed o) eqn:Hch; [|by apply reparent_tx_unchanged in Htx as [-> _]].
  apply reparent_tx_applied in Htx as (target & self & np & ad & oldR & tr & -> & Hap); auto.
  specialize (Hadopt o eq_refl). destruct Hap. subst o. destruct ad; [done|].
  split; [rewrite ap_rows0; by eapply wf_table_move|]. destruct ap_anchors0 as [-> ->].
  split_and!; auto.
  assert (canon w = Some w) by (by eapply wf_key).
  eapply (Root_surgery_same w).
  - rewrite ap_rows0. apply agree_off_insert.
  - by apply reparentOrgRoot_Root.
  - by apply reparentOrgRoot_Root.
Qed.

(** The rows the INSERT ... SELECT adds, before the conflict rule. *)
Lemma moved_plugins_lookup (m : gmap (string * string) (string * time)) tr w org plugin :
  (list_to_map (map (fun kv => ((tr, kv.1.2), kv.2)) (filter (fun kv => kv.1.1 = w) (map_to_list m)))
     : gmap (string * string) (string * time)) !! (org, plugin) =
  if decide (org = tr) then m !! (w, plugin) else None.
Proof.
  set (l := map _ _).
  assert (Hin : forall k v, (k, v) ∈ l <-> k.1 = tr /\ m !! (w, k.2) = Some v).
  { intros [o p] v. unfold l. rewrite list_elem_of_fmap. split.
    - intros ([[o' p'] v'] & [= -> -> ->] & (Ho & Hm)%list_elem_of_filter). simpl in *. subst.
      by apply elem_of_map_to_list in Hm.
    - intros [Ho Hm]. simpl in *. subst. exists ((w, p), v). split; [done|].
      apply list_elem_of_filter. split; [done|]. by apply elem_of_map_to_list. }
  assert (Hnd : NoDup l.*1).
  { apply NoDup_fmap_fst.
    - intros k v1 v2 [_ H1]%Hin [_ H2]%Hin. congruence.
    - unfold l. apply (NoDup_fmap_2_strong).
      + intros [[o1 p1] v1] [[o2 p2] v2] [? _]%list_elem_of_filter [? _]%list_elem_of_filter.
        simpl in *. intros [= -> ->]. congruence.
      + apply NoDup_filter, NoDup_map_to_list. }
  apply option_eq. intros v. rewrite <- elem_of_list_to_map by done. rewrite Hin. simpl.
  case_decide; split; intros; open_hyps; try done; by split.
Qed.

Lemma migrated_plugins_lookup (m : gmap (string * string) (string * time)) tr w org plugin :
  tr <> w ->
  clear_plugins w (copy_plugins tr w m) !! (org, plugin) =
  if decide (org = w) then None
  else if decide (org = tr) then coalesce (m !! (org, plugin)) (m !! (w, plugin))
       else m !! (org, plugin).
Proof.
  intros Hne. unfold clear_plugins, copy_plugins. rewrite map_lookup_filter, lookup_union, moved_plugins_lookup.
  unfold coalesce.
  assert (Hg : forall o : option (string * time),
            o ≫= (fun x => guard ((org, plugin, x).1.1 <> w);; Some x) =
            if decide (org = w) then None else o).
  { intros [x|]; simpl; case_decide; simpl; auto;
      [by rewrite option_guard_False by auto|by rewrite option_guard_True by auto]. }
  rewrite Hg. repeat case_decide; auto;
    destruct (m !! (org, plugin)); auto; by destruct (m !! (w, plugin)).
Qed.

(** an adoption re-homes one workspace only. The adopted workspace was an org root without
    live children, and ends in the org of its new parent; every workspace whose chain does not
    pass through it keeps its root; no token and no plugin grant stays anchored to it: the tokens
    move to the new org, the plugin grants move too but never replace one the new org had. *)
Theorem adoption_rehomes_only_the_adoptee fault pre cur w raw o db'
    (Hwf : wf_table (workspaces cur))
    (Hrun : applyReparent uuid_Parse fault pre cur w raw = (Val o, db')) (Hadopt : Adopted o = true) :
  is_root (workspaces cur) w /\ children (workspaces cur) w = [] /\
  OrgRoot o <> w /\ Root (workspaces db') w (OrgRoot o) /\
  (forall a r, (forall k, ~ Up (workspaces cur) k a w) ->
     Root (workspaces cur) a r <-> Root (workspaces db') a r) /\
  (forall tok, org_api_tokens db' !! tok =
     (fun org => if decide (org = Some w) then Some (OrgRoot o) else org) <$> org_api_tokens cur !! tok) /\
  (forall org plugin, org_plugin_allowlist db' !! (org, plugin) =
     if decide (org = w) then None
     else if decide (org = OrgRoot o)
          then coalesce (org_plugin_allowlist cur !! (org, plugin)) (org_plugin_allowlist cur !! (w, plugin))
          else org_plugin_allowlist cur !! (org, plugin)).
Proof.
  apply applyReparent_tx in Hrun as [(o' & [= <-] & Htx)|[_ Hno]]; [|by destruct (Hno o)].
  destruct (Changed o) eqn:Hch.
  2:{ apply reparent_tx_unchanged in Htx as [_ ?]; congruence. }
  apply reparent_tx_applied in Htx as (target & self & np & ad & oldR & tr & -> & Hap); auto.
  destruct Hap. subst o. destruct ad; [|done]. simpl in *. open_hyps.
  assert (Hcw : canon w = Some w) by (by eapply wf_key).
  assert (Hnone : ws_parent self = None) by (by eapply wf_parent_nonempty).
  assert (Hroot : is_root (workspaces cur) w) by (by exists self).
  assert (oldR = w) as ->.
  { eapply Root_fun; [by apply reparentOrgRoot_Root|]. exists O. split; [constructor|done]. }
  assert (Hpost : Root (workspaces db') w tr) by (by apply reparentOrgRoot_Root).
  split_and!; auto.
  - intros a r Hno. eapply (Root_surgery w); [|done|done]. rewrite ap_rows0. apply agree_off_insert.
  - intros tok. rewrite H0. unfold migrate_tokens. by rewrite lookup_fmap.
  - intros org plugin. rewrite H1. by apply migrated_plugins_lookup.
Qed.

(** ** Which moves are accepted *)

(** The rules of the endpoint, on the tree: both rows live, not the current
    parent, the target not at or below the workspace, both org roots within
    the bound and the target's own walk one hop shorter (so that the moved
    row still resolves), the same org or an adoption, no live sibling name. *)
Definition movable (t : wstable) (w target : string) : Prop :=
  exists self np n rw m rt,
    t !! w = Some self /\ ws_status self <> "removed" /\
    t !! target = Some np /\ ws_status np <> "removed" /\
    ws_parent self <> Some target /\
    (forall k, ~ Up t k target w) /\
    (n <= 64)%nat /\ RootAt t n w rw /\ (m < 64)%nat /\ RootAt t m target rt /\
    (rw = rt \/ (ws_parent self = None /\
      forall k row, t !! k = Some row -> ws_parent row = Some w -> ws_status row = "removed")) /\
    (forall k row, t !! k = Some row -> k <> w -> ws_parent row = Some target ->
       ws_status row <> "removed" -> ws_name row <> ws_name self).

(** The walk of the moved row, after the write. *)
Lemma moved_root t w target self n s :
  t !! w = Some self ->
  let t' := <[w := set_parent (Some target) self]> t in
  RootAt t' n w s <->
  exists m, n = S m /\ RootAt t m target s /\ forall k, ~ Up t k target w.
Proof.
  intros Hw t'. assert (Hag : agree_off w t t') by apply agree_off_insert.
  assert (Hw' : t' !! w = Some (set_parent (Some target) self)) by apply lookup_insert_eq.
  split.
  - intros Hr. destruct Hr as [Hu Hroot]. inversion Hu as [|m ? row p ? Hrow Hp Hu']; subst.
    { destruct Hroot as (? & ? & ?). by simplify_eq. }
    simplify_eq. simpl in Hp. injection Hp as <-. exists m. split; [done|].
    assert (Hno' : forall k, ~ Up t' k target w).
    { intros k Hk. assert (Hsw : RootAt t' (S m) w s) by (split; eauto using Up).
      destruct (RootAt_up _ _ _ _ _ _ Hk (conj Hu' Hroot)) as [_ Hr2].
      destruct (RootAt_fun _ _ _ _ _ _ Hsw Hr2). lia. }
    split.
    + destruct (RootAt_agree w t' t m target s (agree_off_sym _ _ _ Hag) (conj Hu' Hroot))
        as [(k & _ & Hk & _)|]; [by destruct (Hno' k)|done].
    + intros k Hk. by apply (Up_avoiding w t' t k target (agree_off_sym _ _ _ Hag)) in Hno'.
  - intros (m & -> & Hr & Hno). destruct (RootAt_agree w t t' m target s Hag Hr) as [(k & _ & Hk & _)|[Hu Hroot]].
    { by destruct (Hno k). }
    split; [|done]. eapply Up_S; [exact Hw'|reflexivity|exact Hu].
Qed.

Lemma applied_movable cur w target o db' self np ad oldR tr :
  wf_table (workspaces cur) ->
  applied cur w target o db' self np ad oldR tr -> movable (workspaces cur) w target.
Proof.
  intros Hwf []. open_hyps. assert (Hcw : canon w = Some w) by (by eapply wf_key).
  apply reparentOrgRoot_true in ap_root0 as (n & Hn & Hrw); [|done].
  apply reparentOrgRoot_true in ap_post0 as (n' & Hn' & Hpost); [|done].
  rewrite ap_rows0 in Hpost. apply moved_root in Hpost as (m & -> & Hrt & Hno); [|done].
  exists self, np, n, oldR, m, (if ad then tr else oldR).
  split_and!; auto; try lia; try (by apply name_conflict_spec).
  - intros Hp. by rewrite Hp in *.
  - destruct ad; [|auto]. right. destruct ap_org0 as (_ & Hd & Hc).
    split; [by eapply wf_parent_nonempty|by apply children_nil].
Qed.

Lemma is_root_canon t r : wf_table t -> is_root t r -> canon r = Some r.
Proof. intros Hwf (row & Hr & _). by eapply wf_key. Qed.

Lemma mapM_canon ids : (forall i, i ∈ ids -> canon i = Some i) -> mapM canon ids = Some ids.
Proof.
  intros Hc. apply mapM_Some_2. induction ids as [|i ids IH]; constructor.
  - apply Hc. left.
  - apply IH. intros j Hj. apply Hc. by right.
Qed.

Lemma addLock_elem ids id k : k ∈ addLock ids id <-> k ∈ ids \/ (id <> "" /\ k = id).
Proof.
  unfold addLock. repeat case_decide; subst.
  - naive_solver.
  - split; [auto|]. by intros [?|[_ ->]].
  - rewrite elem_of_app, list_elem_of_singleton. naive_solver.
Qed.

(** The lock set: both endpoints and both located roots. *)
Lemma lock_ids_elem w target rw rt k :
  target <> w -> target <> "" ->
  k ∈ lock_ids w target false rw rt <->
  k = w \/ k = target \/ (rw <> "" /\ k = rw) \/ (rt <> "" /\ k = rt).
Proof.
  intros Hne Hnz. unfold lock_ids. rewrite bool_decide_false by done. simpl.
  rewrite !addLock_elem, list_elem_of_singleton. tauto.
Qed.

Lemma lock_and_recheck_ok t w target self np rw rt :
  wf_table t -> t !! w = Some self -> ws_status self <> "removed" -> t !! target = Some np ->
  target <> w -> canon rw = Some rw -> canon rt = Some rt -> reparentOrgRoot t w = Some (rw, true) ->
  exists locked, lock_and_recheck (fun _ => false) t w target false (rw, true) rt = Val (locked, self) /\
                 locked !! target = Some np.
Proof.
  intros Hwf Hself Hlive Hnp Hne Hcr Hct HR.
  assert (Hcw : canon w = Some w) by (by eapply wf_key).
  assert (Hctg : canon target = Some target) by (by eapply wf_key).
  assert (target <> "") by (intros ->; by apply canon_nonempty in Hctg).
  unfold lock_and_recheck, exec, lock_rows. simpl.
  rewrite mapM_canon.
  2:{ intros i Hi. apply lock_ids_elem in Hi; [|done|done]. naive_solver. }
  simpl. set (locked := filter _ t).
  assert (Hl : forall k row, k = w \/ k = target -> t !! k = Some row -> locked !! k = Some row).
  { intros k row Hk Hr. unfold locked. apply map_lookup_filter_Some. split; [done|]. simpl.
    apply lock_ids_elem; [done|done|]. tauto. }
  rewrite (Hl w self) by auto. simpl. rewrite HR. simpl.
  rewrite !bool_decide_true, bool_decide_false by done. simpl. eauto.
Qed.

Lemma write_move_ok cur self w target ad tr m rt :
  canon w = Some w -> workspaces cur !! w = Some self ->
  name_conflict (workspaces cur) w target (ws_name self) = false ->
  (m < 64)%nat -> RootAt (workspaces cur) m target rt -> (forall k, ~ Up (workspaces cur) k target w) ->
  exists db', write_move (fun _ => false) cur self w target ad tr rt = Val db'.
Proof.
  intros Hcw Hself Hname Hm Hrt Hno.
  assert (Hpost : reparentOrgRoot (<[w := set_parent (Some target) self]> (workspaces cur)) w = Some (rt, true)).
  { apply reparentOrgRoot_true; [done|]. exists (S m). split; [lia|]. apply moved_root; eauto. }
  unfold write_move. rewrite Hname. unfold exec. simpl. rewrite Hpost.
  destruct ad; simpl; rewrite bool_decide_true by done; simpl; eauto.
Qed.

Lemma movable_proceeds cur w target :
  wf_table (workspaces cur) -> uuid_Parse target = true -> movable (workspaces cur) w target ->
  exists o db', reparent_tx uuid_Parse (fun _ => false) (workspaces cur) cur w (RawString target) = Val (o, db') /\
                Changed o = true.
Proof.
  intros Hwf Hparse (self & np & n & rw & m & rt & Hself & Hlive & Hnp & Hnlive & Hmv & Hno & Hn & Hrw & Hm & Hrt & Horg & Hname).
  set (t := workspaces cur) in *.
  assert (Hcw : canon w = Some w) by (by eapply wf_key).
  assert (Hct : canon target = Some target) by (by eapply wf_key).
  assert (target <> "") by (intros ->; by apply canon_nonempty in Hct).
  assert (target <> w) by (intros ->; apply (Hno O); constructor).
  assert (HRw : reparentOrgRoot t w = Some (rw, true)) by (apply reparentOrgRoot_true; eauto).
  assert (HRt : reparentOrgRoot t target = Some (rt, true))
    by (apply reparentOrgRoot_true; [done|]; exists m; split; [lia|done]).
  unfold reparent_tx, parseReparentTarget.
  rewrite bool_decide_false, Hparse by done. simpl. unfold locate_roots, exec at 1 2. rewrite HRw. simpl.
  rewrite bool_decide_false, HRt by done. simpl.
  fold t. destruct (lock_and_recheck_ok t w target self np rw rt) as (locked & -> & Hlk); auto.
  { eapply is_root_canon; [done|apply Hrw]. }
  { eapply is_root_canon; [done|apply Hrt]. }
  simpl.
  rewrite decide_False.
  2:{ intros Hd. destruct (ws_parent self) as [p|]; simpl in Hd; congruence. }
  rewrite Hlk, bool_decide_false by done. unfold exec. rewrite not_descendant by done. simpl.
  fold t. rewrite HRw, HRt. simpl.
  apply name_conflict_spec in Hname.
  destruct (decide (rw = rt)) as [->|Hdiff]; simpl.
  - destruct (write_move_ok cur self w target false rt m rt) as [db' ->]; auto. simpl. eauto.
  - destruct Horg as [?|[Hnone Hkids]]; [done|]. apply children_nil in Hkids.
    rewrite decide_True by (by rewrite Hnone). rewrite Hcw. simpl. rewrite Hkids. simpl.
    destruct (write_move_ok cur self w target true rt m rt) as [db' ->]; auto. simpl. eauto.
Qed.

(** with no statement failing and no concurrent change, a request is carried out exactly when
    [target] is a uuid and the move is [movable]: both rows live, a real change of parent, no
    cycle, both org roots resolvable, the same org or a childless root joining one, and no live
    namesake under the new parent. In particular a target that is below the workspace only
    through a removed row, which the descendant query does not see, is refused as well. *)
Theorem applyReparent_accepts_iff cur w target (Hwf : wf_table (workspaces cur)) :
  (exists o db', applyReparent uuid_Parse (fun _ => false) (workspaces cur) cur w (RawString target) = (Val o, db') /\
                 Changed o = true) <->
  uuid_Parse target = true /\ movable (workspaces cur) w target.
Proof.
  split.
  - intros (o & db' & Hrun & Hch).
    apply applyReparent_tx in Hrun as [(o' & [= <-] & Htx)|[_ Hno]]; [|by destruct (Hno o)].
    split.
    + unfold reparent_tx in Htx. apply bind_val in Htx as (? & Hp & _).
      unfold parseReparentTarget in Hp. repeat val_case. by b2p.
    + apply reparent_tx_applied in Htx as (tg & self & np & ad & oldR & tr & [= <-] & Hap); auto.
      by eapply applied_movable.
  - intros [Hparse Hm]. destruct (movable_proceeds cur w target Hwf Hparse Hm) as (o & db' & Htx & Hch).
    exists o, db'. unfold applyReparent. by rewrite Htx.
Qed.

(** the reported privilege change is the real one. When a move inside an org is carried out
    and the workspace was and stays at most 50 hops below the root, what the memory resolver
    lets it read changes exactly by [Lost] and [Gained]: its own namespace and the org's stay,
    the old team goes, the new team comes. *)
Theorem reported_namespaces_match fault pre cur w raw o db' n m
    (Hwf : wf_table (workspaces cur))
    (Hrun : applyReparent uuid_Parse fault pre cur w raw = (Val o, db'))
    (Hch : Changed o = true) (Hadopt : Adopted o = false)
    (Hn : (n <= 50)%nat) (Hroot : RootAt (workspaces cur) n w (OrgRoot o))
    (Hm : (m <= 50)%nat) (Hroot' : RootAt (workspaces db') m w (OrgRoot o)) :
  exists before after kept,
    ReadableNamespaces (WsDb (workspaces cur) (fun _ => false)) w = DbOk before /\
    ReadableNamespaces (WsDb (workspaces db') (fun _ => false)) w = DbOk after /\
    map Name before ≡ₚ kept ++ Lost o /\ map Name after ≡ₚ kept ++ Gained o.
Proof.
  apply applyReparent_tx in Hrun as [(o' & [= <-] & Htx)|[_ Hno]]; [|by destruct (Hno o)].
  apply reparent_tx_applied in Htx as (target & self & np & ad & oldR & tr & -> & []); auto.
  destruct ad; [by subst o|]. subst o. simpl in *.
  assert (Hcw : canon w = Some w) by (by eapply wf_key).
  assert (Hwf' : wf_table (workspaces db')) by (rewrite ap_rows0; by eapply wf_table_move).
  destruct (ReadableNamespaces_names (WsDb (workspaces cur) (fun _ => false)) w self n oldR)
    as (x & before & Hux & Hb & Hnb); auto.
  destruct (ReadableNamespaces_names (WsDb (workspaces db') (fun _ => false)) w (set_parent (Some target) self) m oldR)
    as (y & after & Huy & Ha & Hna); auto.
  { simpl. by rewrite ap_rows0, lookup_insert_eq. }
  unfold maxChainDepth in *. rewrite Nat.min_l in Hux, Huy by done. simpl in *.
  assert (x = oldR) as -> by (eapply Up_fun; [exact Hux|apply Hroot]).
  assert (y = oldR) as -> by (eapply Up_fun; [exact Huy|apply Hroot']).
  apply (f_equal (map fst)) in Hnb, Hna. rewrite !map_map in Hnb, Hna. simpl in Hnb, Hna.
  assert (Hpar : default w (ws_parent self) = default "" (ws_parent self)).
  { destruct (ws_parent self) as [p|] eqn:Ep; [done|]. exfalso.
    assert (RootAt (workspaces cur) 0 w w) as Hr by (split; [constructor|by exists self]).
    destruct (RootAt_fun _ _ _ _ _ _ Hroot Hr) as [_ ->].
    destruct Hroot' as [_ (row & Hrow & Hp)]. rewrite ap_rows0, lookup_insert_eq in Hrow. by simplify_eq. }
  exists before, after, ["workspace:" +:+ w; "org:" +:+ oldR]. split_and!; auto.
  - change (map Name before) with (map (fun x => Name x) before). rewrite Hnb, Hpar. simpl. apply perm_skip, perm_swap.
  - change (map Name after) with (map (fun x => Name x) after). rewrite Hna. simpl. apply perm_skip, perm_swap.
Qed.

(** the write guard and the delegation guard agree on what an org is: on every well-formed
    readable table, [reparentOrgRoot] (the deepest row of the bounded chain, if parentless) and
    [orgRootID] (the parentless row of the bounded chain) give the same root, the same "cannot be
    resolved" and the same driver error. *)
Theorem reparentOrgRoot_is_orgRootID t w (Hwf : wf_table t) :
  orgRootID (WsDb t (fun _ => false)) w =
  match reparentOrgRoot t w with
  | None => DbErr
  | Some (r, true) => DbOk r
  | Some (_, false) => DbNoRows
  end.
Proof. by apply orgRootID_reparent_ok. Qed.

(** ** Creating under a parent *)

Context (DeterministicPlatformAgentID : string -> string).

(** an org token cannot plant a workspace in another org. With an anchor, a create under
    [raw] passes only if [raw] is a live workspace whose chain ends, within 64 hops, at the
    anchor itself or at the agent id derived from it - whatever reads fail; without an anchor it
    needs a live parent only. *)
Theorem validateCreateParentID_scoped db anchor raw (Hnz : raw <> "")
    (Hok : validateCreateParentID uuid_Parse DeterministicPlatformAgentID db anchor raw = Some (Val tt)) :
  uuid_Parse raw = true /\
  exists c row, canon raw = Some c /\ rows db !! c = Some row /\ ws_status row <> "removed" /\
    (anchor <> "" -> exists n r, (n <= 64)%nat /\ RootAt (rows db) n c r /\
                      (r = anchor \/ r = DeterministicPlatformAgentID anchor)).
Proof.
  unfold validateCreateParentID in Hok. rewrite decide_False in Hok by done.
  destruct (uuid_Parse raw); [|done]. simpl in Hok. split; [done|].
  destruct (canon raw) as [c|] eqn:Hc; [|done]. destruct (unreadable db c); [done|].
  destruct (rows db !! c) as [row|] eqn:Hr; [|done].
  case_decide as Hs; [done|]. exists c, row. split_and!; auto. intros Ha.
  rewrite decide_False in Hok by done.
  destruct (orgRootID db raw) as [r| |] eqn:Hroot; try done.
  destruct (orgAnchorMatchesRoot _ anchor r) eqn:Hm; [|done].
  destruct (orgRootID_ok _ _ _ _ Hc Hroot) as (n & Hn & Hra).
  exists n, r. split_and!; auto.
  unfold orgAnchorMatchesRoot in Hm. case_decide; [done|].
  apply orb_true_iff in Hm as [Hm|Hm]; b2p; auto.
Qed.
End Moves.

(** ** Concrete moves

    [sec] moves from [lead] to [pm]; [other] is adopted under [lead]. *)
Definition any_uuid (s : string) : bool := true.
Definition no_fault (s : stmt) : bool := false.
Definition demo_org : orgdb :=
  OrgDb demo_table {["tok" := Some "other"]}
        {[("other", "shell") := ("ann", 5); ("pm", "shell") := ("bob", 3); ("other", "git") := ("ann", 6)]}.

Definition demo_move : res reparentOutcome * orgdb :=
  @applyReparent plain_cast any_uuid no_fault demo_table demo_org "sec" (RawString "pm").
Definition demo_adoption : res reparentOutcome * orgdb :=
  @applyReparent plain_cast any_uuid no_fault demo_table demo_org "other" (RawString "lead").

Definition demo_moved_outcome : reparentOutcome :=
  ReparentOutcome true false "lead" "pm" "pm" ["team:lead"] ["team:pm"].
Definition demo_adopted_outcome : reparentOutcome :=
  ReparentOutcome true true "" "lead" "pm" ["team:other"; "org:other (writable)"]
                  ["team:lead"; "org:pm (read-only)"].

Lemma demo_move_result : demo_move = (Val demo_moved_outcome, demo_move.2).
Proof. vm_compute. reflexivity. Qed.
Lemma demo_adoption_result : demo_adoption = (Val demo_adopted_outcome, demo_adoption.2).
Proof. vm_compute. reflexivity. Qed.

Lemma applyReparent_keeps_orgs_witness :
  Root demo_table "sec" "pm" /\ Root (workspaces demo_move.2) "sec" "pm".
Proof.
  assert (Hr : Root demo_table "sec" "pm") by (exists 2%nat; apply demo_root_sec). split; [exact Hr|].
  eapply (@applyReparent_keeps_orgs plain_cast any_uuid no_fault demo_table demo_org "sec" (RawString "pm")
           _ _ demo_table_wf demo_move_result); [|exact Hr].
  intros o [= <-]. reflexivity.
Defined.

Lemma adoption_rehomes_only_the_adoptee_witness :
  Root (workspaces demo_adoption.2) "other" "pm" /\
  org_api_tokens demo_adoption.2 !! "tok" = Some (Some "pm") /\
  org_plugin_allowlist demo_adoption.2 !! ("pm", "shell") = Some ("bob", 3) /\
  org_plugin_allowlist demo_adoption.2 !! ("pm", "git") = Some ("ann", 6).
Proof.
  destruct (@adoption_rehomes_only_the_adoptee plain_cast any_uuid no_fault demo_table demo_org "other"
              (RawString "lead") _ _ demo_table_wf demo_adoption_result eq_refl)
    as (_ & _ & _ & Hr & _ & Ht & Hp).
  split; [exact Hr|]. rewrite Ht, !Hp. vm_compute. auto.
Defined.

Lemma applyReparent_accepts_iff_witness : movable demo_table "sec" "pm".
Proof.
  apply (@applyReparent_accepts_iff plain_cast any_uuid demo_org "sec" "pm" demo_table_wf).
  exists demo_moved_outcome, demo_move.2. split; [exact demo_move_result|reflexivity].
Defined.

Lemma reported_namespaces_match_witness :
  exists before after kept,
    @ReadableNamespaces plain_cast demo_db "sec" = DbOk before /\
    @ReadableNamespaces plain_cast (WsDb (workspaces demo_move.2) (fun _ => false)) "sec" = DbOk after /\
    map Name before ≡ₚ kept ++ ["team:lead"] /\ map Name after ≡ₚ kept ++ ["team:pm"].
Proof.
  apply (@reported_namespaces_match plain_cast any_uuid no_fault demo_table demo_org "sec" (RawString "pm")
           demo_moved_outcome demo_move.2 2 1 demo_table_wf demo_move_result eq_refl eq_refl).
  - lia.
  - apply demo_root_sec.
  - lia.
  - rooted.
Defined.

Lemma reparentOrgRoot_is_orgRootID_witness :
  @orgRootID plain_cast demo_db "sec" = DbOk "pm".
Proof.
  unfold demo_db. rewrite (@reparentOrgRoot_is_orgRootID plain_cast demo_table "sec" demo_table_wf). vm_compute. reflexivity.
Defined.

Lemma validateCreateParentID_scoped_witness :
  exists n r, (n <= 64)%nat /\ RootAt demo_table n "lead" r /\ (r = "cp-org" \/ r = "pm").
Proof.
  destruct (@validateCreateParentID_scoped plain_cast any_uuid (fun _ => "pm") demo_db "cp-org" "lead"
              ltac:(done) eq_refl) as (_ & c & row & Hc & _ & _ & Hr).
  injection Hc as <-. apply Hr. done.
Defined.

(** A chain of 60 below the root [x], and a side chain of 10 below the same
    root: moving the top of the long one under the end of the short one. *)
Fixpoint side_id (k : nat) : string :=
  match k with O => "x" | S k' => side_id k' +:+ "a" end.
Fixpoint side_table (k : nat) : wstable :=
  match k with
  | O => deep_table 60
  | S k' => <[side_id k := demo_row "side" (Some (side_id k'))]> (side_table k')
  end.
Definition strand_run : res reparentOutcome * orgdb :=
  @applyReparent plain_cast any_uuid no_fault (side_table 10) (OrgDb (side_table 10) ∅ ∅)
    (deep_id 1) (RawString (side_id 10)).

(** the promise that a move leaves every org root as it was does not reach the bounded
    resolution the guards use: a legal move inside an org is carried out although it pushes a live
    descendant past 64 hops, after which [orgRootID] no longer resolves that descendant's org and
    every org check on it fails. *)
Theorem move_can_strand_descendants :
  exists t w target leaf o db',
    @wf_table plain_cast t /\
    @applyReparent plain_cast any_uuid no_fault t (OrgDb t ∅ ∅) w (RawString target) = (Val o, db') /\
    Changed o = true /\
    @orgRootID plain_cast (WsDb t (fun _ => false)) leaf = DbOk (OrgRoot o) /\
    @orgRootID plain_cast (WsDb (workspaces db') (fun _ => false)) leaf = DbNoRows.
Proof.
  exists (side_table 10), (deep_id 1), (side_id 10), (deep_id 60),
    (ReparentOutcome true false "x" (side_id 10) "x" ["team:x"] ["team:" +:+ side_id 10]), strand_run.2.
  split; [apply wf_tableb_sound; vm_compute; reflexivity|].
  split; [vm_compute; reflexivity|]. split; [reflexivity|].
  split; vm_compute; reflexivity.
Qed.
