(* ===== verification/Ledger.v ===== *)
(** * The delegation ledger (internal/handlers/delegation_ledger.go)

    One row per delegation, a status that only moves forward, and
    [SetStatus], which decides who owes the caller the reply.  [SetStatus] is
    a SELECT followed by at most one UPDATE, so it is modelled as two steps;
    [lstep] interleaves the steps of any number of calls with inserts and
    heartbeats.  These are the only statements of the program that write the
    table, and no row is ever deleted. *)

From S2P Require Import Prelude Truncate Tree.

(** ** Rows *)

Record delegation := Delegation {
  caller_id : string;
  callee_id : string;
  task_preview : string;
  status : string;
  last_heartbeat : option time;
  deadline : time;
  result_preview : option string;
  error_detail : option string;
  created_at : time;
  updated_at : time;
  idempotency_key : option string
}.

(** Keyed by delegation_id, the primary key. *)
Abbreviation ledger := (gmap string delegation).

Definition previewCap : Z := 4096.

Record InsertOpts := MkInsertOpts {
  DelegationID : string;
  CallerID : string;
  CalleeID : string;
  TaskPreview : string;
  IdempotencyKey : string;
  Deadline : option time          (* None: the zero time *)
}.

(** ** The status vocabulary *)

Definition DelegationTerminalStates : list string := ["completed"; "failed"].
Definition DelegationInFlightStates : list string := ["queued"; "dispatched"; "in_progress"; "stuck"].
Definition DelegationAllStates : list string := DelegationInFlightStates ++ DelegationTerminalStates.

Definition IsValidDelegationStatus (s : string) : bool :=
  existsb (fun v => bool_decide (v = s)) DelegationAllStates.
Definition IsTerminalDelegationStatus (s : string) : bool :=
  existsb (fun v => bool_decide (v = s)) DelegationTerminalStates.

Definition allowedTransitions : gmap string (gset string) :=
  <["queued" := {["dispatched"; "in_progress"; "completed"; "failed"; "stuck"]}]>
  (<["stuck" := {["completed"; "failed"]}]>
  (<["dispatched" := {["in_progress"; "completed"; "failed"; "stuck"]}]>
  (<["in_progress" := {["completed"; "failed"; "stuck"]}]> ∅))).

(** [next, ok := allowedTransitions[current]; ok && next[status]] *)
Definition allowed (current status : string) : bool :=
  match allowedTransitions !! current with
  | None => false
  | Some next => bool_decide (status ∈ next)
  end.

(** ** Who replies *)

Inductive ReplyAuthority := ReplyNotMine | ReplyMine | ReplyUnarbitrated | ReplyDeferred.

#[export] Instance ReplyAuthority_eq_dec : EqDecision ReplyAuthority.
Proof. solve_decision. Defined.

Definition mayReply (a : ReplyAuthority) : bool :=
  bool_decide (a = ReplyMine) || bool_decide (a = ReplyUnarbitrated).

Inductive set_err := NoError | ErrMissingField | ErrInvalidTransition | ErrDriver.

(** ** Insert *)

(** A unique violation on (caller_id, idempotency_key), which the ON CONFLICT
    clause does not name. *)
Definition idem_taken (led : ledger) (caller : string) (key : option string) : bool :=
  match key with
  | None => false
  | Some k => existsb (fun r => bool_decide (caller_id r.2 = caller /\ idempotency_key r.2 = Some k))
                      (map_to_list led)
  end.

Section Insert.
Context `{UuidCast}.

(** Best effort: every error is logged and the table is left as it was.
    [fails]: the Exec errors for a reason outside the table. *)
Definition Insert (led : ledger) (now : time) (fails : bool) (opts : InsertOpts) : ledger :=
  if decide (DelegationID opts = "" \/ CallerID opts = "" \/ CalleeID opts = "") then led
  else
    let dl := match Deadline opts with None => now + 6 * Hour | Some d => d end in
    let idemArg := nullif_empty (IdempotencyKey opts) in
    if fails then led
    else match canon (CallerID opts), canon (CalleeID opts) with
         | Some caller, Some callee =>
             match led !! DelegationID opts with
             | Some _ => led
             | None =>
                 if idem_taken led caller idemArg then led
                 else <[DelegationID opts :=
                         Delegation caller callee (TruncateBytesNoMarker (TaskPreview opts) previewCap)
                           "queued" None dl None None now now idemArg]> led
             end
         | _, _ => led
         end.
End Insert.

(** ** SetStatus *)

(** What is left to do after the SELECT. *)
Inductive pending :=
| Return (a : ReplyAuthority) (e : set_err)
| BackfillDetail
| CompareAndSwap (current : string).

Definition SetStatus_read (sel : dbres string) (status errorDetail resultPreview : string) : pending :=
  match sel with
  | DbNoRows => Return ReplyUnarbitrated NoError
  | DbErr => Return ReplyDeferred ErrDriver
  | DbOk current =>
      if decide (current = status) then
        if decide (errorDetail = "" /\ resultPreview = "") then Return ReplyNotMine NoError
        else BackfillDetail
      else if negb (allowed current status) then Return ReplyNotMine ErrInvalidTransition
      else CompareAndSwap current
  end.

Definition select_status (led : ledger) (fails : bool) (delegationID : string) : dbres string :=
  if fails then DbErr
  else match led !! delegationID with Some r => DbOk (status r) | None => DbNoRows end.

(** The COALESCE update of a same-status replay. *)
Definition backfill (now : time) (errorDetail resultPreview : string) (r : delegation) : delegation :=
  let ed := nullif_empty errorDetail in
  let rp := nullif_empty resultPreview in
  let fresh := (bool_decide (error_detail r = None) && bool_decide (ed <> None)) ||
               (bool_decide (result_preview r = None) && bool_decide (rp <> None)) in
  Delegation (caller_id r) (callee_id r) (task_preview r) (status r) (last_heartbeat r) (deadline r)
    (coalesce (result_preview r) rp) (coalesce (error_detail r) ed) (created_at r)
    (if fresh then now else updated_at r) (idempotency_key r).

(** The transition itself. *)
Definition move_to (now : time) (st errorDetail resultPreview : string) (r : delegation) : delegation :=
  Delegation (caller_id r) (callee_id r) (task_preview r) st (last_heartbeat r) (deadline r)
    (nullif_empty resultPreview) (nullif_empty errorDetail) (created_at r) now (idempotency_key r).

(** [UPDATE ... WHERE delegation_id = $1 AND status = $5]: the table and the
    number of rows. *)
Definition cas (led : ledger) (now : time) (id st errorDetail resultPreview current : string) : ledger * Z :=
  match led !! id with
  | Some r => if decide (status r = current)
              then (<[id := move_to now st errorDetail resultPreview r]> led, 1)
              else (led, 0)
  | None => (led, 0)
  end.

Definition SetStatus_write (led : ledger) (now : time) (f : exec_fault)
    (id st errorDetail resultPreview : string) (p : pending) : ledger * ReplyAuthority * set_err :=
  match p with
  | Return a e => (led, a, e)
  | BackfillDetail =>
      match f with
      | ExecErr => (led, ReplyNotMine, ErrDriver)
      | _ => (alter (backfill now errorDetail (TruncateBytesNoMarker resultPreview previewCap)) id led,
              ReplyNotMine, NoError)
      end
  | CompareAndSwap current =>
      match f with
      | ExecErr => (led, ReplyDeferred, ErrDriver)
      | RowsAffectedErr =>
          ((cas led now id st errorDetail (TruncateBytesNoMarker resultPreview previewCap) current).1,
           ReplyUnarbitrated, ErrDriver)
      | ExecOk =>
          let '(led', rows) := cas led now id st errorDetail (TruncateBytesNoMarker resultPreview previewCap) current in
          if rows =? 1 then (led', ReplyMine, NoError) else (led', ReplyNotMine, NoError)
      end
  end.

(** How one call goes: whether its SELECT fails, what other writers do to the
    table before its UPDATE, and how that UPDATE goes. *)
Record call_env := CallEnv {
  select_fails : bool;
  race : ledger -> ledger;
  write_fault : exec_fault
}.
Definition quiet : call_env := CallEnv false id ExecOk.

Definition SetStatus (env : call_env) (led : ledger) (now : time)
    (delegationID st errorDetail resultPreview : string) : ledger * ReplyAuthority * set_err :=
  if decide (delegationID = "" \/ st = "") then (led, ReplyNotMine, ErrMissingField)
  else SetStatus_write (race env led) now (write_fault env) delegationID st errorDetail resultPreview
         (SetStatus_read (select_status led (select_fails env) delegationID) st errorDetail resultPreview).

(** ** Heartbeat *)

Definition beat (now : time) (r : delegation) : delegation :=
  if IsTerminalDelegationStatus (status r) then r
  else Delegation (caller_id r) (callee_id r) (task_preview r) (status r) (Some now) (deadline r)
         (result_preview r) (error_detail r) (created_at r) now (idempotency_key r).

Definition Heartbeat (led : ledger) (now : time) (fails : bool) (delegationID : string) : ledger :=
  if decide (delegationID = "") then led
  else if fails then led
  else alter (beat now) delegationID led.

(** ** Any number of calls, interleaved *)

Record call := Call { call_id : string; call_status : string; call_detail : string; call_preview : string }.

#[export] Instance call_eq_dec : EqDecision call.
Proof. solve_decision. Defined.

(** The table, the calls between their SELECT and their UPDATE, the answers given so
    far, and the calls whose SELECT found no row. *)
Record lstate := LState {
  table : ledger;
  inflight : list (call * pending);
  answers : list (call * ReplyAuthority);
  unseen : list call
}.

Definition linit : lstate := LState ∅ [] [] [].
Definition note_unseen (fails : bool) (s : lstate) (c : call) : list call :=
  match select_status (table s) fails (call_id c) with DbNoRows => c :: unseen s | _ => unseen s end.

Section Steps.
Context `{UuidCast}.

(** [faulty]: whether a [RowsAffected] may error. *)
Inductive lstep (faulty : bool) : lstate -> lstate -> Prop :=
| LInsert s now fails opts :
    lstep faulty s (LState (Insert (table s) now fails opts) (inflight s) (answers s) (unseen s))
| LHeartbeat s now fails id :
    lstep faulty s (LState (Heartbeat (table s) now fails id) (inflight s) (answers s) (unseen s))
| LRead s c fails :
    call_id c <> "" -> call_status c <> "" ->
    lstep faulty s
      (LState (table s)
         ((c, SetStatus_read (select_status (table s) fails (call_id c))
                (call_status c) (call_detail c) (call_preview c)) :: inflight s)
         (answers s) (note_unseen fails s c))
| LWrite s now f l1 c p l2 led' a e :
    inflight s = l1 ++ (c, p) :: l2 -> (f = RowsAffectedErr -> faulty = true) ->
    SetStatus_write (table s) now f (call_id c) (call_status c) (call_detail c) (call_preview c) p = (led', a, e) ->
    lstep faulty s (LState led' (l1 ++ l2) ((c, a) :: answers s) (unseen s)).

(** The answers to terminal calls for [id] that say [a]. *)
Definition terminal_answers (id : string) (a : ReplyAuthority) (l : list (call * ReplyAuthority))
    : list (call * ReplyAuthority) :=
  filter (fun x => call_id x.1 = id /\ IsTerminalDelegationStatus (call_status x.1) = true /\ x.2 = a) l.

Definition terminal_at (led : ledger) (id : string) : Prop :=
  exists r, led !! id = Some r /\ IsTerminalDelegationStatus (status r) = true.

#[local] Arguments IsTerminalDelegationStatus : simpl never.
#[local] Arguments IsValidDelegationStatus : simpl never.

(** ** The transition matrix *)

Lemma allowed_from_live current st : allowed current st = true -> IsTerminalDelegationStatus current = false.
Proof.
  intros Ha. destruct (IsTerminalDelegationStatus current) eqn:Ht; [|done]. exfalso.
  unfold IsTerminalDelegationStatus in Ht. simpl in Ht. rewrite !orb_true_iff in Ht.
  destruct Ht as [Ht|[Ht|Ht]]; [| |done]; apply bool_decide_eq_true in Ht; subst; by vm_compute in Ha.
Qed.

Lemma allowed_valid current st : allowed current st = true -> IsValidDelegationStatus st = true.
Proof.
  unfold allowed, allowedTransitions. intros Ha.
  destruct (_ !! current) as [next|] eqn:E; [|done]. apply bool_decide_eq_true in Ha.
  repeat (apply lookup_insert_Some in E as [[<- <-]|[_ E]]; [set_unfold in Ha; naive_solver|]).
  by rewrite lookup_empty in E.
Qed.

(** ** One step, seen from one row *)

Lemma Insert_status led now fails opts id r :
  led !! id = Some r -> Insert led now fails opts !! id = Some r.
Proof.
  intros Hr. unfold Insert. repeat case_match; auto; rewrite lookup_insert_ne; congruence.
Qed.

Lemma Insert_new led now fails opts id r :
  Insert led now fails opts !! id = Some r -> led !! id = Some r \/ status r = "queued".
Proof.
  unfold Insert. repeat case_match; auto; intros [[<- <-]|[_ ?]]%lookup_insert_Some; auto.
Qed.

Lemma beat_status now r : status (beat now r) = status r.
Proof. unfold beat. by case_match. Qed.

Lemma Heartbeat_row led now fails id k :
  exists f : delegation -> delegation, (forall r, status (f r) = status r) /\
    Heartbeat led now fails id !! k = f <$> led !! k.
Proof.
  unfold Heartbeat.
  destruct (decide (id = "")); [exists (fun r => r); split; [done|by destruct (led !! k)]|].
  destruct fails; [exists (fun r => r); split; [done|by destruct (led !! k)]|].
  destruct (decide (k = id)) as [->|Hne].
  - exists (beat now). split; [apply beat_status|]. apply lookup_alter_eq.
  - exists (fun r => r). split; [done|]. rewrite lookup_alter_ne by done. by destruct (led !! k).
Qed.

(** What the UPDATE of a call does: nothing, or a rewrite that keeps every
    status, answered by something other than [ReplyMine]; or the transition of
    the call's own row, found at the status the SELECT saw. *)
Definition keeps_statuses (led led' : ledger) : Prop :=
  forall k, exists g : delegation -> delegation, (forall r, status (g r) = status r) /\
    led' !! k = g <$> led !! k.

Lemma keeps_statuses_refl led : keeps_statuses led led.
Proof. intros k. exists (fun r => r). split; [done|]. by destruct (led !! k). Qed.

Lemma keeps_statuses_alter led f id :
  (forall r, status (f r) = status r) -> keeps_statuses led (alter f id led).
Proof.
  intros Hf k. destruct (decide (k = id)) as [->|Hne].
  - exists f. split; [done|apply lookup_alter_eq].
  - destruct (keeps_statuses_refl led k) as (g & Hg & Hk). exists g. split; [done|].
    by rewrite lookup_alter_ne.
Qed.

Lemma SetStatus_write_cases led now f id st ed rp p led' a e :
  SetStatus_write led now f id st ed rp p = (led', a, e) ->
  (forall a e', p = Return a e' -> a <> ReplyMine) ->
  (a <> ReplyMine /\ keeps_statuses led led') \/
  (exists current r r', p = CompareAndSwap current /\ led !! id = Some r /\ status r = current /\
     led' = <[id := r']> led /\ status r' = st /\
     (a = ReplyMine \/ (a = ReplyUnarbitrated /\ f = RowsAffectedErr))).
Proof.
  intros Hw Hret. destruct p as [a0 e0| |current]; simpl in Hw.
  - simplify_eq. left. eauto using keeps_statuses_refl.
  - left. destruct f; simplify_eq; split; try done; try apply keeps_statuses_refl;
      by apply keeps_statuses_alter.
  - unfold cas in Hw. destruct (led !! id) as [r|] eqn:Hr;
      [destruct (decide (status r = current))|]; destruct f; simpl in Hw; simplify_eq;
      try (left; split; [done|apply keeps_statuses_refl]); right; eauto 15.
Qed.

Lemma SetStatus_write_unarbitrated led now f id st ed rp p led' e :
  SetStatus_write led now f id st ed rp p = (led', ReplyUnarbitrated, e) ->
  (exists e', p = Return ReplyUnarbitrated e') \/ f = RowsAffectedErr.
Proof. unfold SetStatus_write. intros. repeat case_match; simplify_eq; eauto. Qed.

(** ** The invariant *)

Record linv (faulty : bool) (s : lstate) : Prop := LInv {
  li_cas : forall c current, (c, CompareAndSwap current) ∈ inflight s -> allowed current (call_status c) = true;
  li_return : forall c a e, (c, Return a e) ∈ inflight s -> a <> ReplyMine;
  li_valid : forall id r, table s !! id = Some r -> IsValidDelegationStatus (status r) = true;
  li_mine : forall c, (c, ReplyMine) ∈ answers s -> IsTerminalDelegationStatus (call_status c) = true ->
              exists r, table s !! call_id c = Some r /\ status r = call_status c;
  li_unread : forall c e, (c, Return ReplyUnarbitrated e) ∈ inflight s -> c ∈ unseen s;
  li_unarbitrated : forall c, (c, ReplyUnarbitrated) ∈ answers s -> faulty = true \/ c ∈ unseen s;
  li_once : forall id, (length (terminal_answers id ReplyMine (answers s)) <= 1)%nat;
  li_spoken : forall id r, table s !! id = Some r -> IsTerminalDelegationStatus (status r) = true ->
                exists c a, (c, a) ∈ answers s /\ call_id c = id /\ call_status c = status r /\
                            mayReply a = true /\ (faulty = false -> a = ReplyMine)
}.

Lemma linv_init faulty : linv faulty linit.
Proof.
  unfold linit. split; simpl.
  - by intros c current ?%not_elem_of_nil.
  - by intros c a e ?%not_elem_of_nil.
  - intros id r. by rewrite lookup_empty.
  - by intros c ?%not_elem_of_nil.
  - by intros c e ?%not_elem_of_nil.
  - by intros c ?%not_elem_of_nil.
  - intros id. simpl. lia.
  - intros id r. by rewrite lookup_empty.
Qed.

(** Anything that keeps the statuses of the present rows, and adds rows at most
    as [queued], keeps the invariant. *)
Lemma linv_same_statuses faulty s led' :
  linv faulty s ->
  (forall id r, table s !! id = Some r -> exists r', led' !! id = Some r' /\ status r' = status r) ->
  (forall id r', led' !! id = Some r' -> status r' = "queued" \/
      exists r, table s !! id = Some r /\ status r' = status r) ->
  linv faulty (LState led' (inflight s) (answers s) (unseen s)).
Proof.
  intros [] Hkeep Hnew. split; simpl; auto.
  - intros id r' Hr'. destruct (Hnew _ _ Hr') as [->|(r & Hr & ->)]; [done|eauto].
  - intros c Hc Ht. destruct (li_mine0 c Hc Ht) as (r & Hr & Hs).
    destruct (Hkeep _ _ Hr) as (r' & Hr' & Hs'). exists r'. split; congruence.
  - intros id r' Hr' Ht. destruct (Hnew _ _ Hr') as [Hq|(r & Hr & Hs)]; [by rewrite Hq in Ht|].
    destruct (li_spoken0 id r Hr) as (c & a & Hin & Hid & Hst & Hrest); [congruence|].
    exists c, a. split; [done|]. split; [done|]. split; [congruence|done].
Qed.

Lemma linv_read faulty s c fails :
  linv faulty s ->
  linv faulty (LState (table s)
    ((c, SetStatus_read (select_status (table s) fails (call_id c))
           (call_status c) (call_detail c) (call_preview c)) :: inflight s) (answers s) (note_unseen fails s c)).
Proof.
  assert (Hmore : forall c', c' ∈ unseen s -> c' ∈ note_unseen fails s c).
  { intros c' Hc'. unfold note_unseen. case_match; [done|by right|done]. }
  intros []. split; simpl; auto.
  - intros c' current [[= -> Hp]|Hin]%elem_of_cons; [|eauto].
    unfold SetStatus_read in Hp. repeat case_match; simplify_eq. b2p. done.
  - intros c' a e [[= -> Hp]|Hin]%elem_of_cons; [|eauto].
    unfold SetStatus_read in Hp. by repeat case_match; simplify_eq.
  - intros c' e [[= -> Hp]|Hin]%elem_of_cons; [|eauto].
    unfold note_unseen. unfold SetStatus_read in Hp. destruct (select_status _ _ _); [|by left|done].
    repeat case_match; simplify_eq.
  - intros c' Hc'. destruct (li_unarbitrated0 c' Hc'); auto.
Qed.

Lemma terminal_answers_cons id a c b l :
  terminal_answers id a ((c, b) :: l) =
  if decide (call_id c = id /\ IsTerminalDelegationStatus (call_status c) = true /\ b = a)
  then (c, b) :: terminal_answers id a l else terminal_answers id a l.
Proof. unfold terminal_answers. rewrite filter_cons. by repeat case_decide. Qed.

(** Nobody has won for a row that is not terminal. *)
Lemma no_winner_yet faulty s id r :
  linv faulty s -> table s !! id = Some r -> IsTerminalDelegationStatus (status r) = false ->
  terminal_answers id ReplyMine (answers s) = [].
Proof.
  intros [] Hr Ht. apply elem_of_nil_inv. intros [c a] ((<- & Hc & Ha) & Hin)%list_elem_of_filter.
  simpl in *. subst. destruct (li_mine0 _ Hin Hc) as (r' & Hr' & Hs). congruence.
Qed.

Lemma linv_write faulty s now f l1 c p l2 led' a e :
  linv faulty s -> inflight s = l1 ++ (c, p) :: l2 -> (f = RowsAffectedErr -> faulty = true) ->
  SetStatus_write (table s) now f (call_id c) (call_status c) (call_detail c) (call_preview c) p = (led', a, e) ->
  linv faulty (LState led' (l1 ++ l2) ((c, a) :: answers s) (unseen s)).
Proof.
  intros Hinv Hfl Hf Hw. pose proof Hinv as Hinv'. destruct Hinv' as [].
  assert (Hsub : forall x, x ∈ l1 ++ l2 -> x ∈ inflight s)
    by (intros x; rewrite Hfl, !elem_of_app, elem_of_cons; tauto).
  assert (Hin : (c, p) ∈ inflight s) by (rewrite Hfl, elem_of_app, elem_of_cons; auto).
  assert (Hun : forall c', (c', ReplyUnarbitrated) ∈ (c, a) :: answers s -> faulty = true \/ c' ∈ unseen s).
  { intros c' [[= -> <-]|Hc']%elem_of_cons; [|auto].
    destruct (SetStatus_write_unarbitrated _ _ _ _ _ _ _ _ _ _ Hw) as [(e' & ->)| ->]; eauto. }
  destruct (SetStatus_write_cases _ _ _ _ _ _ _ _ _ _ _ Hw) as [[Ha Hk]|(current & r & r' & -> & Hr & Hs & -> & Hs' & Ha)].
  { intros a' e' ->. eauto. }
  - apply (linv_same_statuses faulty (LState (table s) (l1 ++ l2) ((c, a) :: answers s) (unseen s)) led').
    + split; simpl; eauto.
      * intros c' [[= -> <-]|Hc']%elem_of_cons Ht; [done|eauto].
      * intros id. rewrite terminal_answers_cons, decide_False; [auto|naive_solver].
      * intros id r Hr Ht. destruct (li_spoken0 id r Hr Ht) as (c' & a' & Hc' & Hrest).
        exists c', a'. split; [by right|done].
    + intros id r Hr. destruct (Hk id) as (g & Hg & Hl). simpl in *. rewrite Hr in Hl.
      exists (g r). split; [exact Hl|apply Hg].
    + intros id r' Hr'. destruct (Hk id) as (g & Hg & Hl). simpl in *. rewrite Hr' in Hl.
      destruct (table s !! id) as [r|]; [|done]. injection Hl as ->.
      right. exists r. split; [done|apply Hg].
  - assert (Hal : allowed (status r) (call_status c) = true) by (subst; eauto).
    assert (Hlive : IsTerminalDelegationStatus (status r) = false) by (by eapply allowed_from_live).
    pose proof (no_winner_yet _ _ _ _ Hinv Hr Hlive) as Hnone.
    split; simpl; eauto.
    + intros id rr [[<- <-]|[_ ?]]%lookup_insert_Some; [|eauto]. rewrite Hs'. by eapply allowed_valid.
    + intros c' [[= -> <-]|Hc']%elem_of_cons Ht; [exists r'; by rewrite lookup_insert_eq|].
      destruct (li_mine0 _ Hc' Ht) as (rr & Hrr & Hss). exists rr. split; [|done].
      rewrite lookup_insert_ne; [done|]. intros Heq. rewrite Heq in Hr. congruence.
    + intros id. rewrite terminal_answers_cons. case_decide as Hd; [|auto].
      destruct Hd as (<- & _ & _). rewrite Hnone. simpl. lia.
    + intros id rr [[<- <-]|[Hne Hrr]]%lookup_insert_Some Ht.
      * exists c, a. split; [by left|]. rewrite Hs'. split_and!; auto.
        -- destruct Ha as [->|[-> _]]; done.
        -- intros ->. destruct Ha as [->|[_ ->]]; [done|]. by specialize (Hf eq_refl).
      * destruct (li_spoken0 id rr Hrr Ht) as (c' & a' & Hc' & Hrest). exists c', a'. split; [by right|done].
Qed.

Lemma linv_step faulty s s' : linv faulty s -> lstep faulty s s' -> linv faulty s'.
Proof.
  intros Hinv Hstep. destruct Hstep.
  - apply linv_same_statuses; [done| |].
    + intros id r Hr. exists r. split; [by apply Insert_status|done].
    + intros id r [|]%Insert_new; eauto.
  - apply linv_same_statuses; [done| |]; intros k r Hr;
      destruct (Heartbeat_row (table s) now fails id k) as (g & Hg & Hl); rewrite Hl in *.
    + rewrite Hr. exists (g r). split; [done|apply Hg].
    + apply fmap_Some in Hr as (r0 & Hr0 & ->). eauto.
  - by apply linv_read.
  - by eapply linv_write.
Qed.

Lemma linv_reachable faulty s : rtc (lstep faulty) linit s -> linv faulty s.
Proof.
  intros Hr. apply (rtc_invariant (lstep faulty) (linv faulty) (fun s s' => linv_step faulty s s') _ _ (linv_init faulty) Hr).
Qed.




(** the life cycle. Along every such execution each row holds one of the six states, no row
    disappears, and one step moves a row only along the transition matrix - so a completed or
    failed delegation keeps that status for ever. *)
Theorem forward_only faulty s s' id r (Hreach : rtc (lstep faulty) linit s) (Hstep : lstep faulty s s')
    (Hr : table s !! id = Some r) :
  IsValidDelegationStatus (status r) = true /\
  exists r', table s' !! id = Some r' /\
    (status r' = status r \/ allowed (status r) (status r') = true) /\
    (IsTerminalDelegationStatus (status r) = true -> status r' = status r).
Proof.
  apply linv_reachable in Hreach as Hinv. split; [by eapply li_valid|].
  enough (exists r', table s' !! id = Some r' /\ (status r' = status r \/ allowed (status r) (status r') = true))
    as (r' & Hr' & Hs).
  { exists r'. split_and!; auto. intros Ht. destruct Hs as [|Ha]; [done|]. apply allowed_from_live in Ha. congruence. }
  destruct Hstep as [s now fails opts|s now fails id'|s c fails Hc Hst|s now f l1 c p l2 led' a e Hfl Hf Hw]; simpl.
  - exists r. split; [by apply Insert_status|auto].
  - destruct (Heartbeat_row (table s) now fails id' id) as (g & Hg & Hl). rewrite Hr in Hl.
    exists (g r). split; [exact Hl|auto].
  - eauto.
  - assert (Hin : (c, p) ∈ inflight s) by (rewrite Hfl, elem_of_app, elem_of_cons; auto).
    destruct (SetStatus_write_cases _ _ _ _ _ _ _ _ _ _ _ Hw) as [[_ Hk]|(current & r0 & r' & -> & Hr0 & Hs & -> & Hs' & _)].
    { intros a' e' ->. by eapply li_return. }
    + destruct (Hk id) as (g & Hg & Hl). rewrite Hr in Hl. exists (g r). split; [exact Hl|auto].
    + destruct (decide (id = call_id c)) as [->|Hne].
      * exists r'. rewrite lookup_insert_eq. split; [done|]. right. simplify_eq.
        rewrite Hs'. by eapply li_cas.
      * exists r. rewrite lookup_insert_ne by done. auto.
Qed.
End Steps.

(** ** Runs *)

Definition demo_opts : InsertOpts := MkInsertOpts "d1" "pm" "eng" "write the report" "" None.
Definition done_call : call := Call "d1" "completed" "" "the report".
Definition fail_call : call := Call "d1" "failed" "deadline exceeded by sweeper" "".
Definition stuck_call : call := Call "d1" "stuck" "no heartbeat for 11m0s" "".

Definition born : lstate := LState (@Insert plain_cast ∅ 0 false demo_opts) [] [] [].

Lemma born_reachable : rtc (@lstep plain_cast false) linit born.
Proof. apply rtc_once. exact (@LInsert plain_cast false linit 0 false demo_opts). Qed.

(** Two calls SELECT the queued row; the first to UPDATE wins. *)
Definition both_read (c1 c2 : call) : lstate :=
  LState (table born) [(c2, CompareAndSwap "queued"); (c1, CompareAndSwap "queued")] [] [].
Definition both_written (c1 c2 : call) : lstate :=
  let '(t1, a1, _) := SetStatus_write (table born) 1 ExecOk (call_id c1) (call_status c1) (call_detail c1)
                        (call_preview c1) (CompareAndSwap "queued") in
  let '(t2, a2, _) := SetStatus_write t1 2 ExecOk (call_id c2) (call_status c2) (call_detail c2)
                        (call_preview c2) (CompareAndSwap "queued") in
  LState t2 [] [(c2, a2); (c1, a1)] [].

Lemma race_reachable c1 c2 :
  c1 ∈ [done_call; fail_call; stuck_call] -> c2 ∈ [done_call; fail_call; stuck_call] ->
  rtc (@lstep plain_cast false) linit (both_written c1 c2).
Proof.
  intros H1 H2. eapply (rtc_trans (R := @lstep plain_cast false)); [apply born_reachable|].
  assert (Hread : forall c, c ∈ [done_call; fail_call; stuck_call] ->
            call_id c <> "" /\ call_status c <> "" /\
            SetStatus_read (select_status (table born) false (call_id c)) (call_status c) (call_detail c)
              (call_preview c) = CompareAndSwap "queued").
  { intros c Hc. set_unfold in Hc. destruct Hc as [-> | [-> | [-> | []]]]; vm_compute; repeat split; congruence. }
  assert (Hnote : forall c s, c ∈ [done_call; fail_call; stuck_call] -> table s = table born -> note_unseen false s c = unseen s).
  { intros c s Hc Hs. unfold note_unseen. rewrite Hs. set_unfold in Hc.
    destruct Hc as [-> | [-> | [-> | []]]]; vm_compute select_status; done. }
  destruct (Hread c1 H1) as (Hi1 & Hs1 & Hr1), (Hread c2 H2) as (Hi2 & Hs2 & Hr2).
  pose proof (@LRead plain_cast false born c1 false Hi1 Hs1) as S1. rewrite Hr1, (Hnote c1 born H1 eq_refl) in S1.
  pose proof (@LRead plain_cast false (LState (table born) [(c1, CompareAndSwap "queued")] [] []) c2 false Hi2 Hs2) as S2.
  cbn [table] in S2. rewrite Hr2 in S2.
  rewrite (Hnote c2 (LState (table born) [(c1, CompareAndSwap "queued")] [] []) H2 eq_refl) in S2.
  eapply rtc_l; [exact S1|]. eapply rtc_l; [exact S2|].
  unfold both_written.
  destruct (SetStatus_write (table born) 1 _ _ _ _ _ _) as [[t1 a1] e1] eqn:E1.
  destruct (SetStatus_write t1 2 _ _ _ _ _ _) as [[t2 a2] e2] eqn:E2.
  pose proof (@LWrite plain_cast false
    (LState (table born) [(c2, CompareAndSwap "queued"); (c1, CompareAndSwap "queued")] [] [])
    1 ExecOk [(c2, CompareAndSwap "queued")] c1 _ [] t1 a1 e1 eq_refl ltac:(done) E1) as S3.
  pose proof (@LWrite plain_cast false (LState t1 [(c2, CompareAndSwap "queued")] [(c1, a1)] [])
    2 ExecOk [] c2 _ [] t2 a2 e2 eq_refl ltac:(done) E2) as S4.
  eapply rtc_l; [exact S3|]. apply rtc_once. exact S4.
Qed.


Definition done_row : delegation :=
  Delegation "pm" "eng" "write the report" "completed" None (6 * Hour) (Some "the report") None 0 1 None.

Lemma forward_only_witness :
  exists r', Insert (H := plain_cast) (table (both_written done_call fail_call)) 3 false demo_opts !! "d1" = Some r' /\
             status r' = "completed".
Proof.
  destruct (@forward_only plain_cast false (both_written done_call fail_call) _ "d1" done_row
              (race_reachable done_call fail_call ltac:(set_solver) ltac:(set_solver))
              (@LInsert plain_cast false _ 3 false demo_opts) ltac:(vm_compute; reflexivity))
    as (_ & r' & Hr' & _ & Hs).
  exists r'. split; [exact Hr'|]. apply Hs. reflexivity.
Defined.

(** the compare-and-swap is lost to non-terminal writers too. There is an execution without
    any database error in which the target's answer arrives while the sweeper marks the row stuck:
    the completion is told [ReplyNotMine] ("somebody else owns the reply"), but the winner was not
    terminal - the row stays [stuck], the result is nowhere in it, and no call was ever given the
    reply. *)
Theorem completion_lost_to_stuck_mark :
  exists s r, rtc (@lstep plain_cast false) linit s /\
    (done_call, ReplyNotMine) ∈ answers s /\ inflight s = [] /\
    table s !! call_id done_call = Some r /\ status r = "stuck" /\ result_preview r = None /\
    (forall c a, (c, a) ∈ answers s -> mayReply a = true -> IsTerminalDelegationStatus (call_status c) = false).
Proof.
  exists (both_written stuck_call done_call). eexists.
  split; [apply race_reachable; set_solver|].
  split; [vm_compute; left|]. split; [reflexivity|]. split; [vm_compute; reflexivity|].
  split; [reflexivity|]. split; [reflexivity|].
  intros c a Hin Hmay.
  change (answers (both_written stuck_call done_call)) with [(done_call, ReplyNotMine); (stuck_call, ReplyMine)] in Hin.
  set_unfold in Hin. destruct Hin as [[= -> ->]|[[= -> ->]|[]]]; [done|reflexivity].
Qed.
