(* ===== verification/DelegationReplies.v ===== *)
(** * Telling the caller (internal/handlers/delegation.go, delegation_ledger_writes.go)

    The two rollout flags, the gated wrappers around the ledger and the rows a
    terminal transition owes the caller.  [activity_logs] is a list, newest
    last; the jsonb columns are values, not text. *)

From S2P Require Import Prelude Truncate Tree Ledger.

(** ** activity_logs *)

Record activity := Activity {
  workspace_id : string;
  activity_type : string;
  method : string;
  source_id : string;
  target_id : option string;
  summary : string;
  act_status : string;
  act_error : option string;
  request_body : option json;
  response_body : option json
}.

(** ** Flags *)

Definition environment := string -> string.       (* os.Getenv *)

Definition ledgerWritesEnabled (env : environment) : bool :=
  bool_decide (env "DELEGATION_LEDGER_WRITE" = "1").
Definition delegationResultInboxPushEnabled (env : environment) : bool :=
  bool_decide (env "DELEGATION_RESULT_INBOX_PUSH" = "1").

Definition asyncMCPCompletionWired : bool := true.

(** Whether startup is refused (the message itself is not modelled). *)
Definition delegationRolloutFatalReason (ledgerWrites completionWired : bool) : bool :=
  ledgerWrites && negb completionWired.

Inductive rollout_warning := InboxPushWithoutLedger | LedgerWithoutInboxPush.

(** The warnings logged, and whether the process then exits ([log.Fatalf]). *)
Definition WarnOnPartialDelegationRollout (env : environment) : list rollout_warning * bool :=
  ((if negb (ledgerWritesEnabled env) && delegationResultInboxPushEnabled env
    then [InboxPushWithoutLedger] else []) ++
   (if ledgerWritesEnabled env && negb (delegationResultInboxPushEnabled env)
    then [LedgerWithoutInboxPush] else []),
   delegationRolloutFatalReason (ledgerWritesEnabled env) asyncMCPCompletionWired).

(** ** The gated ledger *)

Section Replies.
Context `{UuidCast}.
Context (env : environment).

Definition recordLedgerInsert (led : ledger) (now : time) (fails : bool)
    (callerID calleeID delegationID taskPreview idemKey : string) : ledger :=
  if negb (ledgerWritesEnabled env) then led
  else Insert led now fails (MkInsertOpts delegationID callerID calleeID taskPreview idemKey None).

Definition recordLedgerStatus (ce : call_env) (led : ledger) (now : time)
    (delegationID status errorDetail resultPreview : string) : ledger * ReplyAuthority :=
  if negb (ledgerWritesEnabled env) then (led, ReplyUnarbitrated)
  else let '(led', authority, _) := SetStatus ce led now delegationID status errorDetail resultPreview in
       (led', authority).

(** ** The reply rows *)

Definition delegationCorrelationJSON (delegationID : string) : json :=
  JObj [("delegation_id", JStr delegationID)].

(** [NULLIF($3, '')::uuid]: the value, or a failed cast. *)
Definition target_cast (targetID : string) : option (option string) :=
  match nullif_empty targetID with
  | None => Some None
  | Some t => match canon t with Some c => Some (Some c) | None => None end
  end.

(** An INSERT of one row: the log, and whether it failed. *)
Definition log_insert (fails : bool) (logs : list activity) (row : option activity) : list activity * bool :=
  if fails then (logs, true)
  else match row with Some r => (logs ++ [r], false) | None => (logs, true) end.

Definition inbox_row (sourceID targetID delegationID status responsePreview errorDetail : string)
    : option activity :=
  match canon sourceID, target_cast targetID with
  | Some src, Some tgt =>
      Some (Activity src "a2a_receive" "delegate_result" src tgt
              (if decide (status = "failed") then "Delegation failed" else "Delegation result delivered")
              (if decide (status = "failed") then "error" else "ok")
              (nullif_empty errorDetail)
              (Some (JObj [("delegation_id", JStr delegationID)]))
              (Some (JObj [("text", JStr responsePreview); ("delegation_id", JStr delegationID)])))
  | _, _ => None
  end.

Definition pushDelegationResultToInbox (logs : list activity) (fails : bool)
    (sourceID targetID delegationID status responsePreview errorDetail : string) : list activity * bool :=
  if negb (delegationResultInboxPushEnabled env) then (logs, false)
  else log_insert fails logs (inbox_row sourceID targetID delegationID status responsePreview errorDetail).

Definition ledger_row (callerID calleeID delegationID status errorDetail : string) : option activity :=
  match canon callerID, target_cast calleeID with
  | Some src, Some tgt =>
      Some (Activity src "delegation" "delegate_result" src tgt
              (if decide (status = "completed") then "Delegation completed" else "Delegation failed")
              status (nullif_empty errorDetail) None (Some (delegationCorrelationJSON delegationID)))
  | _, _ => None
  end.

Definition emitTerminalDelegationReplyWithResult (logs : list activity) (ledgerFails pushFails : bool)
    (callerID calleeID delegationID status errorDetail resultPreview : string) : list activity * bool :=
  if negb (ledgerWritesEnabled env) then (logs, false)
  else
    let '(logs1, failed1) := log_insert ledgerFails logs
                               (ledger_row callerID calleeID delegationID status errorDetail) in
    let '(logs2, failed2) := pushDelegationResultToInbox logs1 pushFails callerID calleeID delegationID
                               status resultPreview errorDetail in
    (logs2, failed1 || failed2).

Definition emitTerminalDelegationReply (logs : list activity) (ledgerFails pushFails : bool)
    (callerID calleeID delegationID status errorDetail : string) : list activity * bool :=
  emitTerminalDelegationReplyWithResult logs ledgerFails pushFails callerID calleeID delegationID
    status errorDetail "".

(** ** Reading the rows back *)

(** The row is a reply in the agent's inbox about [delegationID]. *)
Definition is_inbox_reply (delegationID : string) (a : activity) : bool :=
  bool_decide (activity_type a = "a2a_receive") && bool_decide (method a = "delegate_result") &&
  match response_body a with
  | Some (JObj l) => existsb (fun kv => bool_decide (kv.1 = "delegation_id") &&
                                        match kv.2 with JStr s => bool_decide (s = delegationID) | _ => false end) l
  | _ => false
  end.

Definition inbox_replies (delegationID : string) (logs : list activity) : nat :=
  length (filter (fun a => is_inbox_reply delegationID a = true) logs).

Lemma inbox_replies_app id l1 l2 :
  inbox_replies id (l1 ++ l2) = (inbox_replies id l1 + inbox_replies id l2)%nat.
Proof. unfold inbox_replies. by rewrite filter_app, length_app. Qed.

Lemma ledger_row_not_inbox id caller callee did st ed r :
  ledger_row caller callee did st ed = Some r -> is_inbox_reply id r = false.
Proof. unfold ledger_row. repeat case_match; intros; by simplify_eq. Qed.

Lemma inbox_row_reply id src tgt did st rp ed r :
  inbox_row src tgt did st rp ed = Some r -> is_inbox_reply id r = bool_decide (did = id).
Proof.
  unfold inbox_row. destruct (canon src), (target_cast tgt); intros; simplify_eq.
  unfold is_inbox_reply. simpl. by rewrite orb_false_r.
Qed.

Lemma log_insert_app fails logs row :
  exists l, (log_insert fails logs row).1 = logs ++ l /\ (l = [] \/ exists r, row = Some r /\ l = [r]).
Proof.
  unfold log_insert. destruct fails; [exists []|destruct row as [r|]; [exists [r]|exists []]];
    rewrite ?app_nil_r; eauto.
Qed.

(** An emission only appends, at most one inbox reply for its delegation and
    none for another. *)
Lemma emit_replies logs lf pf caller callee did st ed rp :
  exists l, (emitTerminalDelegationReplyWithResult logs lf pf caller callee did st ed rp).1 = logs ++ l /\
    (inbox_replies did l <= 1)%nat /\ forall id, id <> did -> inbox_replies id l = O.
Proof.
  unfold emitTerminalDelegationReplyWithResult, pushDelegationResultToInbox.
  destruct (negb (ledgerWritesEnabled env)); [exists []; rewrite app_nil_r; split_and!; [done|unfold inbox_replies; simpl; lia|done]|].
  destruct (log_insert_app lf logs (ledger_row caller callee did st ed)) as (l1 & H1 & Hl1).
  destruct (log_insert lf logs _) as [logs1 f1]. simpl in H1. subst logs1.
  assert (Hz : forall id, inbox_replies id l1 = O).
  { intros id. destruct Hl1 as [->|(r & Hr & ->)]; [done|]. unfold inbox_replies. rewrite filter_cons.
    by rewrite (ledger_row_not_inbox id _ _ _ _ _ _ Hr), decide_False. }
  destruct (negb (delegationResultInboxPushEnabled env)).
  { exists l1. split_and!; [done|rewrite Hz; lia|auto]. }
  destruct (log_insert_app pf (logs ++ l1) (inbox_row caller callee did st rp ed)) as (l2 & H2 & Hl2).
  destruct (log_insert pf _ _) as [logs2 f2]. simpl in *. subst logs2.
  exists (l1 ++ l2). split; [by rewrite app_assoc|].
  assert (Hc : forall id, inbox_replies id l2 = O \/ (id = did /\ inbox_replies id l2 = 1%nat)).
  { intros id. destruct Hl2 as [->|(r & Hr & ->)]; [auto|]. unfold inbox_replies. rewrite filter_cons.
    rewrite (inbox_row_reply id _ _ _ _ _ _ _ Hr). case_bool_decide; subst; simpl; auto. }
  split.
  - rewrite inbox_replies_app, Hz. destruct (Hc did) as [->|[_ ->]]; lia.
  - intros id Hne. rewrite inbox_replies_app, Hz. by destruct (Hc id) as [->|[-> _]].
Qed.

(** With both flags on and no insert failing, both rows are written. *)
Lemma emit_writes_both logs caller callee did st ed rp r1 r2 :
  ledgerWritesEnabled env = true -> delegationResultInboxPushEnabled env = true ->
  ledger_row caller callee did st ed = Some r1 -> inbox_row caller callee did st rp ed = Some r2 ->
  emitTerminalDelegationReplyWithResult logs false false caller callee did st ed rp =
    (logs ++ [r1; r2], false).
Proof.
  intros Hl Hp H1 H2. unfold emitTerminalDelegationReplyWithResult, pushDelegationResultToInbox, log_insert.
  rewrite Hl, Hp, H1, H2. simpl. by rewrite <- app_assoc.
Qed.
End Replies.
