(* ===== verification/Sweeper.v ===== *)
(** * The delegation sweeper (internal/handlers/delegation_sweeper.go)

    [Sweep] reads every in-flight delegation, fails the ones past their
    deadline and tells their callers, and marks the ones whose target has
    stopped heartbeating as stuck.  Every transition goes through the
    ledger's [SetStatus]; [calls] gives, per delegation, how that call's
    statements go. *)

From stdpp Require Import pretty.
From S2P Require Import Prelude Truncate Tree Ledger DelegationReplies.

Definition defaultSweeperInterval : Z := 5 * Minute.
Definition defaultStuckThreshold : Z := 10 * Minute.

(** ** Durations as text *)

(** [d.Round(time.Second)]. *)
Definition round_second (d : Z) : Z :=
  let r := Z.rem d Second in
  if d <? 0 then (if - r + - r <? Second then d - r else d - r - Second)
  else (if r + r <? Second then d - r else d + Second - r).

(** [d.String()] of a whole number of seconds. *)
Definition seconds_string (d : Z) : string :=
  let s := Z.abs d / Second in
  let neg := if d <? 0 then "-" else "" in
  neg +:+
  (if s <? 60 then pretty s +:+ "s"
   else if s <? 3600 then (pretty (s / 60) +:+ "m") +:+ (pretty (s mod 60) +:+ "s")
   else (pretty (s / 3600) +:+ "h") +:+ ((pretty (s / 60 mod 60) +:+ "m") +:+ (pretty (s mod 60) +:+ "s"))).

(** ** Configuration *)

(** [parsed]: what [strconv.Atoi] makes of the value. *)
Definition envDuration (v : string) (parsed : option Z) (def : Z) : Z :=
  if decide (v = "") then def
  else match parsed with
       | None => def
       | Some n => if n <=? 0 then def else n * Second
       end.

Record DelegationSweeper := MkSweeper { interval : Z; threshold : Z; startedAt : time }.

Record SweepResult := MkSweepResult {
  DeadlineFailures : Z;
  StuckMarked : Z;
  ReplyErrors : Z;
  Errors : Z
}.

Definition add_deadline (r : SweepResult) := MkSweepResult (DeadlineFailures r + 1) (StuckMarked r) (ReplyErrors r) (Errors r).
Definition add_stuck (r : SweepResult) := MkSweepResult (DeadlineFailures r) (StuckMarked r + 1) (ReplyErrors r) (Errors r).
Definition add_reply_error (r : SweepResult) := MkSweepResult (DeadlineFailures r) (StuckMarked r) (ReplyErrors r + 1) (Errors r).
Definition add_error (r : SweepResult) := MkSweepResult (DeadlineFailures r) (StuckMarked r) (ReplyErrors r) (Errors r + 1).

Record candidate := Candidate {
  cd_id : string;
  cd_caller : string;
  cd_callee : string;
  cd_status : string;
  cd_lastBeat : option time;
  cd_deadline : time
}.

Definition inFlight (s : string) : bool :=
  existsb (fun v => bool_decide (v = s)) DelegationInFlightStates.

(** How the statements of one pass go. *)
Record sweep_env := SweepEnv {
  query_fails : bool;
  scan_fails : string -> bool;
  rows_stop : option nat;           (* rows.Err() after that many rows *)
  calls : string -> call_env;
  ledger_reply_fails : string -> bool;
  inbox_reply_fails : string -> bool
}.
Definition quiet_sweep : sweep_env :=
  SweepEnv false (fun _ => false) None (fun _ => quiet) (fun _ => false) (fun _ => false).

Definition deadline_detail : string := "deadline exceeded by sweeper".
Definition stuck_detail (elapsed : Z) : string := "no heartbeat for " +:+ seconds_string (round_second elapsed).

Section Sweep.
Context `{UuidCast}.
Context (env : environment).
Context (s : DelegationSweeper).

(** COALESCE(d.last_heartbeat, w.last_heartbeat_at) over the LEFT JOIN. *)
Definition beat_of (ws : wstable) (r : delegation) : option time :=
  coalesce (last_heartbeat r) (match ws !! callee_id r with Some w => ws_last_heartbeat w | None => None end).

Definition scan_candidate (ws : wstable) (kr : string * delegation) : candidate :=
  Candidate kr.1 (caller_id kr.2) (callee_id kr.2) (status kr.2) (beat_of ws kr.2) (deadline kr.2).

(** The rows of the SELECT; their order is not specified. *)
Definition in_flight_rows (led : ledger) : list (string * delegation) :=
  filter (fun kr => inFlight (status kr.2) = true) (map_to_list led).

Record sweep_state := SweepState { sw_ledger : ledger; sw_logs : list activity; sw_res : SweepResult }.

Definition sweep_deadline (now : time) (se : sweep_env) (c : candidate) (st : sweep_state) : sweep_state :=
  let '(led', authority, err) :=
    SetStatus (calls se (cd_id c)) (sw_ledger st) now (cd_id c) "failed" deadline_detail "" in
  let res1 := match err with NoError => sw_res st | _ => add_error (sw_res st) end in
  if negb (mayReply authority) then SweepState led' (sw_logs st) res1
  else
    let '(logs', replyFailed) :=
      emitTerminalDelegationReply env (sw_logs st) (ledger_reply_fails se (cd_id c)) (inbox_reply_fails se (cd_id c))
        (cd_caller c) (cd_callee c) (cd_id c) "failed" deadline_detail in
    let res2 := if replyFailed : bool then add_reply_error res1 else res1 in
    SweepState led' logs' (add_deadline res2).

Definition sweep_stuck (now : time) (se : sweep_env) (elapsed : Z) (c : candidate) (st : sweep_state) : sweep_state :=
  let '(led', authority, err) :=
    SetStatus (calls se (cd_id c)) (sw_ledger st) now (cd_id c) "stuck" (stuck_detail elapsed) "" in
  match err with
  | NoError => SweepState led' (sw_logs st)
                 (if decide (authority = ReplyMine) then add_stuck (sw_res st) else sw_res st)
  | _ => SweepState led' (sw_logs st) (add_error (sw_res st))
  end.

(** The body of the loop over the candidates. *)
Definition sweep_one (now : time) (se : sweep_env) (c : candidate) (st : sweep_state) : sweep_state :=
  if cd_deadline c <? now then sweep_deadline now se c st
  else match cd_lastBeat c with
       | None => st
       | Some b =>
           if threshold s <? now - b then
             if now - startedAt s <? threshold s then st
             else if decide (cd_status c = "stuck") then st
             else sweep_stuck now se (now - b) c st
           else st
       end.

Definition Sweep (se : sweep_env) (now : time) (ws : wstable) (led : ledger) (logs : list activity) : sweep_state :=
  let res0 := MkSweepResult 0 0 0 0 in
  if query_fails se then SweepState led logs (add_error res0)
  else
    let rows := match rows_stop se with None => in_flight_rows led | Some n => take n (in_flight_rows led) end in
    let bad := filter (fun kr => scan_fails se kr.1 = true) rows in
    let good := filter (fun kr => scan_fails se kr.1 = false) rows in
    let res1 := fold_right (fun _ r => add_error r) res0 bad in
    let res2 := match rows_stop se with None => res1 | Some _ => add_error res1 end in
    fold_left (fun st c => sweep_one now se c st) (map (scan_candidate ws) good) (SweepState led logs res2).

(** ** What one call does, whatever the others write *)

#[local] Arguments IsTerminalDelegationStatus : simpl never.

(** Rows stay, over rows stay over. *)
Definition ledger_le (led led' : ledger) : Prop :=
  forall k, (is_Some (led !! k) -> is_Some (led' !! k)) /\ (terminal_at led k -> terminal_at led' k).

Lemma ledger_le_refl led : ledger_le led led.
Proof. by split. Qed.
Lemma ledger_le_trans l1 l2 l3 : ledger_le l1 l2 -> ledger_le l2 l3 -> ledger_le l1 l3.
Proof. intros H1 H2 k. destruct (H1 k), (H2 k). auto. Qed.



(** What the other writers of the table do is of that kind. *)
Lemma others_forward faulty s1 s2 :
  rtc (lstep faulty) linit s1 -> rtc (lstep faulty) s1 s2 -> ledger_le (table s1) (table s2).
Proof.
  intros H1 H2. induction H2 as [|x y z Hxy Hyz IH]; [apply ledger_le_refl|].
  eapply ledger_le_trans; [|apply IH; by eapply rtc_r]. intros k. split.
  - intros [r Hr]. destruct (forward_only _ _ _ _ _ H1 Hxy Hr) as (_ & r' & Hr' & _). by eexists.
  - intros (r & Hr & Ht). destruct (forward_only _ _ _ _ _ H1 Hxy Hr) as (_ & r' & Hr' & _ & Hs).
    exists r'. split; [done|]. by rewrite Hs.
Qed.



(** ** Any number of sweeps, whatever statements fail *)





Lemma in_flight_rows_elem led k r :
  (k, r) ∈ in_flight_rows led <-> led !! k = Some r /\ inFlight (status r) = true.
Proof. unfold in_flight_rows. rewrite list_elem_of_filter, elem_of_map_to_list. simpl. tauto. Qed.




(** ** A pass that nothing disturbs *)

(** The abstract specification: what a pass at [now] makes of one row. *)
Definition overdue (now : time) (r : delegation) : bool :=
  inFlight (status r) && (deadline r <? now).
Definition wedged (now : time) (ws : wstable) (r : delegation) : bool :=
  inFlight (status r) && negb (deadline r <? now) && negb (bool_decide (status r = "stuck")) &&
  negb (now - startedAt s <? threshold s) &&
  some_and (beat_of ws r) (fun b => threshold s <? now - b).

Definition sweep_row (now : time) (ws : wstable) (r : delegation) : delegation :=
  if overdue now r then move_to now "failed" deadline_detail "" r
  else if wedged now ws r
       then move_to now "stuck" (stuck_detail (match beat_of ws r with Some b => now - b | None => 0 end)) "" r
       else r.

Lemma inFlight_cases st :
  inFlight st = true -> st = "queued" \/ st = "dispatched" \/ st = "in_progress" \/ st = "stuck".
Proof.
  unfold inFlight. simpl. rewrite !orb_true_iff. intros [?|[?|[?|[?|?]]]]; b2p; auto. done.
Qed.

(** An undisturbed transition of an in-flight row. *)
Lemma SetStatus_quiet led now id r st ed :
  id <> "" -> st <> "" -> led !! id = Some r -> status r <> st -> allowed (status r) st = true ->
  SetStatus quiet led now id st ed "" = (<[id := move_to now st ed "" r]> led, ReplyMine, NoError).
Proof.
  intros Hid Hst Hr Hne Hal. unfold SetStatus. rewrite decide_False by naive_solver.
  unfold select_status, SetStatus_read. simpl. rewrite Hr, decide_False, Hal by done. simpl.
  unfold cas. rewrite Hr, decide_True by done. done.
Qed.

Lemma sweep_one_quiet now ws id r st :
  id <> "" -> sw_ledger st !! id = Some r -> inFlight (status r) = true ->
  let st' := sweep_one now quiet_sweep (scan_candidate ws (id, r)) st in
  sw_ledger st' = <[id := sweep_row now ws r]> (sw_ledger st) /\
  DeadlineFailures (sw_res st') = DeadlineFailures (sw_res st) + (if overdue now r then 1 else 0) /\
  StuckMarked (sw_res st') = StuckMarked (sw_res st) + (if wedged now ws r then 1 else 0) /\
  Errors (sw_res st') = Errors (sw_res st) /\
  sw_logs st' = if overdue now r
                then (emitTerminalDelegationReply env (sw_logs st) false false (caller_id r) (callee_id r) id
                        "failed" deadline_detail).1
                else sw_logs st.
Proof.
  intros Hid Hr Hfl. unfold sweep_one, sweep_row, overdue, wedged. rewrite Hfl. simpl.
  destruct (deadline r <? now) eqn:Hd; simpl.
  - unfold sweep_deadline. simpl.
    rewrite (SetStatus_quiet _ now id r) by
      (try done; destruct (inFlight_cases _ Hfl) as [-> | [-> | [-> | ->]]]; done). simpl.
    destruct (emitTerminalDelegationReply _ _ _ _ _ _ _ _ _) as [logs' failed]. simpl.
    destruct failed; simpl; split_and!; auto; lia.
  - assert (Hsame : sw_ledger st = <[id := r]> (sw_ledger st)) by (by rewrite insert_id).
    destruct (beat_of ws r) as [b|] eqn:Hb; simpl.
    2:{ rewrite andb_false_r. split_and!; auto; lia. }
    destruct (threshold s <? now - b) eqn:Hth; simpl.
    2:{ rewrite andb_false_r. split_and!; auto; lia. }
    destruct (now - startedAt s <? threshold s) eqn:Hgr; simpl.
    { rewrite andb_false_r. simpl. split_and!; auto; lia. }
    case_decide as Hst; [rewrite (bool_decide_true _ Hst)|rewrite (bool_decide_false _ Hst)]; simpl.
    { split_and!; auto; lia. }
    unfold sweep_stuck. simpl.
    rewrite (SetStatus_quiet _ now id r) by
      (try done; destruct (inFlight_cases _ Hfl) as [E | [E | [E | E]]]; rewrite E in *; done). simpl.
    split_and!; auto; lia.
Qed.

Definition count (p : delegation -> bool) (l : list (string * delegation)) : Z :=
  Z.of_nat (length (filter (fun kr => p kr.2 = true) l)).

Lemma count_cons p k r l : count p ((k, r) :: l) = (if p r then 1 else 0) + count p l.
Proof. unfold count. rewrite filter_cons. simpl. destruct (p r); simpl; lia. Qed.

(** The replies a pass owes for one row, when both flags are on. *)
Definition owes_reply (now : time) (led : ledger) (id : string) : nat :=
  match led !! id with Some r => if overdue now r then 1%nat else O | None => O end.

Definition castable (r : delegation) : Prop :=
  canon (caller_id r) = Some (caller_id r) /\ canon (callee_id r) = Some (callee_id r).

Lemma emit_one_reply logs r did id :
  ledgerWritesEnabled env = true -> delegationResultInboxPushEnabled env = true -> castable r ->
  inbox_replies id (emitTerminalDelegationReply env logs false false (caller_id r) (callee_id r) did
                      "failed" deadline_detail).1 =
  (inbox_replies id logs + if decide (did = id) then 1 else 0)%nat.
Proof.
  intros Hl Hp [Hcr Hce].
  assert (Ht : target_cast (callee_id r) = Some (Some (callee_id r))).
  { unfold target_cast, nullif_empty. rewrite decide_False; [by rewrite Hce|].
    intros E. rewrite E in Hce. by apply canon_nonempty in Hce. }
  unfold emitTerminalDelegationReply.
  destruct (ledger_row (caller_id r) (callee_id r) did "failed" deadline_detail) as [r1|] eqn:E1.
  2:{ unfold ledger_row in E1. by rewrite Hcr, Ht in E1. }
  destruct (inbox_row (caller_id r) (callee_id r) did "failed" "" deadline_detail) as [r2|] eqn:E2.
  2:{ unfold inbox_row in E2. by rewrite Hcr, Ht in E2. }
  rewrite (emit_writes_both env logs _ _ _ _ _ _ r1 r2) by done. simpl.
  rewrite inbox_replies_app. f_equal. unfold inbox_replies. rewrite !filter_cons.
  rewrite (ledger_row_not_inbox id _ _ _ _ _ _ E1), (inbox_row_reply id _ _ _ _ _ _ _ E2).
  repeat case_decide; repeat case_bool_decide; simpl; done.
Qed.

Lemma sweep_fold_quiet now ws l st :
  NoDup l.*1 ->
  (forall id r, (id, r) ∈ l -> id <> "" /\ sw_ledger st !! id = Some r /\ inFlight (status r) = true) ->
  let st' := fold_left (fun st c => sweep_one now quiet_sweep c st) (map (scan_candidate ws) l) st in
  (forall k, sw_ledger st' !! k = if decide (k ∈ l.*1) then sweep_row now ws <$> sw_ledger st !! k
                                  else sw_ledger st !! k) /\
  DeadlineFailures (sw_res st') = DeadlineFailures (sw_res st) + count (overdue now) l /\
  StuckMarked (sw_res st') = StuckMarked (sw_res st) + count (wedged now ws) l /\
  Errors (sw_res st') = Errors (sw_res st) /\
  (ledgerWritesEnabled env = true -> delegationResultInboxPushEnabled env = true ->
   (forall id r, (id, r) ∈ l -> castable r) ->
   forall id, inbox_replies id (sw_logs st') =
     (inbox_replies id (sw_logs st) + if decide (id ∈ l.*1) then owes_reply now (sw_ledger st) id else 0)%nat).
Proof.
  revert st. induction l as [|[id r] l IH]; intros st Hnd Hl; cbn [fold_left map].
  { cbn -[decide]. split_and!; try (unfold count; simpl; lia).
    intros k. rewrite decide_False; [done|apply not_elem_of_nil]. }
  apply NoDup_cons in Hnd as [Hnotin Hnd]. simpl in Hnotin.
  destruct (Hl id r) as (Hid & Hr & Hfl); [by left|].
  destruct (sweep_one_quiet now ws id r st Hid Hr Hfl) as (Hled & Hdl & Hst & Her & Hlogs).
  set (st1 := sweep_one now quiet_sweep (scan_candidate ws (id, r)) st) in *.
  assert (Hother : forall k, k <> id -> sw_ledger st1 !! k = sw_ledger st !! k)
    by (intros; rewrite Hled; by apply lookup_insert_ne).
  destruct (IH st1 Hnd) as (IHl & IHd & IHs & IHe & IHr).
  { intros k r' Hin. destruct (Hl k r') as (? & ? & ?); [by right|].
    split_and!; auto. rewrite Hother; [done|]. intros ->. apply Hnotin. apply list_elem_of_fmap. by exists (id, r'). }
  assert (Hiff : forall k, k <> id -> k ∈ id :: l.*1 <-> k ∈ l.*1) by (intros k; rewrite elem_of_cons; tauto).
  rewrite !count_cons. split_and!; try lia.
  - intros k. rewrite IHl. destruct (decide (k = id)) as [->|Hne].
    + rewrite decide_False by done. rewrite (decide_True (P := id ∈ _)) by left.
      by rewrite Hled, lookup_insert_eq, Hr.
    + rewrite Hother by done. simpl. specialize (Hiff k Hne). repeat case_decide; tauto.
  - intros Hf1 Hf2 Hcast k. rewrite IHr; [|done|done|intros; eapply Hcast; right; eauto].
    assert (Hreply : inbox_replies k (sw_logs st1) =
              (inbox_replies k (sw_logs st) + if decide (id = k) then owes_reply now (sw_ledger st) k else 0)%nat).
    { rewrite Hlogs. unfold owes_reply. destruct (overdue now r) eqn:Ho.
      - rewrite emit_one_reply by (try done; eapply Hcast; by left).
        case_decide; subst; [by rewrite Hr, Ho|done].
      - case_decide; subst; [rewrite Hr, Ho|]; lia. }
    rewrite Hreply. simpl. destruct (decide (id = k)) as [<-|Hne].
    + rewrite decide_False by done. rewrite (decide_True (P := id ∈ _)) by left. lia.
    + unfold owes_reply. rewrite Hother by done.
      specialize (Hiff k (not_eq_sym Hne)). repeat case_decide; try tauto; lia.
Qed.

Lemma filter_all {A} (P : A -> Prop) `{!forall x, Decision (P x)} (l : list A) : (forall x, P x) -> filter P l = l.
Proof. intros Hp. induction l as [|x l IH]; [done|]. rewrite filter_cons, decide_True by done. by f_equal. Qed.

Lemma in_flight_rows_NoDup led : NoDup (in_flight_rows led).*1.
Proof.
  apply NoDup_fmap_fst.
  - intros k r1 r2 [H1 _]%in_flight_rows_elem [H2 _]%in_flight_rows_elem. congruence.
  - apply NoDup_filter, NoDup_map_to_list.
Qed.

(** Only rows in flight are ever counted. *)
Lemma count_in_flight p led :
  (forall r, p r = true -> inFlight (status r) = true) ->
  count p (in_flight_rows led) = count p (map_to_list led).
Proof.
  intros Hp. unfold in_flight_rows. induction (map_to_list led) as [|[k r] l IH]; [done|].
  rewrite filter_cons, count_cons. simpl. case_decide as Hf.
  - rewrite count_cons. by rewrite IH.
  - rewrite IH. destruct (p r) eqn:Hpr; [by apply Hp in Hpr|lia].
Qed.

(** what one undisturbed pass does. Every row of the ledger is treated by the same rule:
    in flight and past its deadline, it is failed; otherwise in flight, not yet stuck, its target
    silent for longer than the threshold and the server up for at least that long, it is marked
    stuck; otherwise it is untouched. The counters count exactly those rows, no error is reported,
    and with both flags on each expired delegation's caller gets exactly one inbox reply and
    nobody else gets any. *)
Theorem Sweep_pointwise now ws led logs (Hkey : led !! "" = None)
    (Hcast : forall id r, led !! id = Some r -> castable r) :
  let st := Sweep quiet_sweep now ws led logs in
  (forall id, sw_ledger st !! id = sweep_row now ws <$> led !! id) /\
  DeadlineFailures (sw_res st) = count (overdue now) (map_to_list led) /\
  StuckMarked (sw_res st) = count (wedged now ws) (map_to_list led) /\
  Errors (sw_res st) = 0 /\
  (ledgerWritesEnabled env = true -> delegationResultInboxPushEnabled env = true ->
   forall id, inbox_replies id (sw_logs st) = (inbox_replies id logs + owes_reply now led id)%nat).
Proof.
  intros st. set (rows := in_flight_rows led).
  assert (Hst : st = fold_left (fun st c => sweep_one now quiet_sweep c st) (map (scan_candidate ws) rows)
                       (SweepState led logs (MkSweepResult 0 0 0 0))).
  { unfold st, Sweep. cbn [query_fails rows_stop quiet_sweep]. fold rows.
    rewrite (filter_none (fun kr : string * delegation => scan_fails quiet_sweep kr.1 = true)) by done.
    by rewrite (filter_all (fun kr : string * delegation => scan_fails quiet_sweep kr.1 = false)). }
  destruct (sweep_fold_quiet now ws rows (SweepState led logs (MkSweepResult 0 0 0 0))) as (Hl & Hd & Hs & He & Hr).
  { apply in_flight_rows_NoDup. }
  { intros id r [Hr Hf]%in_flight_rows_elem. split_and!; auto. congruence. }
  rewrite <- Hst in *. simpl in *.
  assert (Hkeys : forall k r, led !! k = Some r -> k ∈ rows.*1 <-> inFlight (status r) = true).
  { intros k r Hk. rewrite list_elem_of_fmap. split.
    - intros ([k' r'] & -> & [Hk' ?]%in_flight_rows_elem). simpl in *. by simplify_eq.
    - intros Hf. exists (k, r). split; [done|]. by apply in_flight_rows_elem. }
  split_and!; auto.
  - intros id. rewrite Hl. destruct (led !! id) as [r|] eqn:Hid; [|by case_decide].
    case_decide as Hin; [done|]. simpl. f_equal. rewrite (Hkeys id r Hid) in Hin.
    unfold sweep_row, overdue, wedged. by apply not_true_iff_false in Hin as ->.
  - rewrite Hd, Z.add_0_l. apply count_in_flight. intros r. unfold overdue. by destruct (inFlight _).
  - rewrite Hs, Z.add_0_l. apply count_in_flight. intros r. unfold wedged. by destruct (inFlight _).
  - intros Hf1 Hf2 id. rewrite (Hr Hf1 Hf2) by (intros k r [Hk _]%in_flight_rows_elem; eauto).
    f_equal. unfold owes_reply. case_decide as Hin; [done|].
    destruct (led !! id) as [r|] eqn:Hid; [|done]. rewrite (Hkeys id r Hid) in Hin.
    unfold overdue. by apply not_true_iff_false in Hin as ->.
Qed.
End Sweep.

(** ** A pass over two delegations

    [d1] is past its deadline; [d2]'s target went silent eleven minutes ago. *)
Definition demo_env : environment := fun _ => "1".
Definition demo_sweeper : DelegationSweeper := MkSweeper defaultSweeperInterval defaultStuckThreshold 0.
Definition demo_delegation (beat : option time) (dl : time) : delegation :=
  Delegation "pm" "eng" "task" "queued" beat dl None None 0 0 None.
Definition demo_ledger : ledger :=
  <["d1" := demo_delegation None (6 * Hour)]>
  {["d2" := demo_delegation (Some (7 * Hour - 11 * Minute)) (9 * Hour)]}.
Definition demo_pass : sweep_state :=
  @Sweep plain_cast demo_env demo_sweeper quiet_sweep (7 * Hour) demo_table demo_ledger [].

Lemma Sweep_pointwise_witness :
  inbox_replies "d1" (sw_logs demo_pass) = 1%nat /\
  (status <$> sw_ledger demo_pass !! "d1") = Some "failed" /\
  (status <$> sw_ledger demo_pass !! "d2") = Some "stuck" /\
  (error_detail <$> sw_ledger demo_pass !! "d2") = Some (Some "no heartbeat for 11m0s").
Proof.
  destruct (@Sweep_pointwise plain_cast demo_env demo_sweeper (7 * Hour) demo_table demo_ledger [])
    as (Hl & _ & _ & _ & Hr).
  - reflexivity.
  - intros id r Hr. unfold demo_ledger in Hr.
    apply lookup_insert_Some in Hr as [[_ <-]|[_ Hr]]; [by split|].
    apply lookup_singleton_Some in Hr as [_ <-]. by split.
  - unfold demo_pass. split; [rewrite (Hr eq_refl eq_refl); vm_compute; reflexivity|].
    rewrite !Hl. vm_compute. auto.
Defined.



