(* ===== verification/A2AQueue.v ===== *)
(** * The durable A2A queue (internal/handlers/a2a_queue.go)

    A turn whose target is busy is parked in [a2a_queue] and dispatched when
    the target has capacity.  The table is a map from row id to row; every
    UPDATE that would break the partial unique index on the active rows fails
    and leaves the table as it was, and [fails] injects any other error of a
    statement. *)

From S2P Require Import Prelude Json Tree.

Definition PriorityCritical : Z := 100.
Definition PriorityTask : Z := 50.
Definition PriorityInfo : Z := 10.

Definition a2aQueueSweeperInterval : Z := 10 * Second.
Definition a2aQueueSweeperBatchCap : Z := 8.
Definition transientRetryBackoffSecs : Z := 5.
Definition maxAttempts : Z := 5.
Definition a2aSettlingRetryCeiling : Z := 180 * Second.

(** ** Reading an A2A body *)

Definition extractIdempotencyKey (body : payload) : string :=
  match parsed body with
  | None => ""
  | Some j => let '(s, err) := get_string ["params"; "message"; "messageId"] j in
              if err : bool then "" else s
  end.

Definition extractExpiresInSeconds (body : payload) : Z :=
  match parsed body with
  | None => 0
  | Some j =>
      match walk leaf_any ["params"; "expires_in_seconds"] j (None, false) with
      | (Some (JNum n d), false) => let seconds := trunc_num n d in if seconds <? 0 then 0 else seconds
      | _ => 0
      end
  end.

Definition QueuedA2AResponse (resp : payload) : bool * string :=
  match parsed resp with
  | None => (false, "")
  | Some j =>
      let '(status, e1) := get_string ["status"] j in
      let '(queued, e2) := walk leaf_bool_ptr ["queued"] j (None, false) in
      let '(queueID, e3) := get_string ["queue_id"] j in
      if (e1 || e2 || e3)%bool then (false, "")
      else if negb (bool_decide (status = "queued")) && negb (bool_decide (queued = Some true)) then (false, "")
      else (true, queueID)
  end.

Definition extractDelegationIDFromBody (body : payload) : string :=
  match parsed body with
  | None => ""
  | Some j => let '(s, err) := get_string ["params"; "message"; "metadata"; "delegation_id"] j in
              if err : bool then "" else s
  end.

(** messagestore.RequestSourceType *)
Definition RequestSourceType (body : payload) : string :=
  match parsed body with
  | None => ""
  | Some j =>
      let '(m1, e1) := walk leaf_map ["params"; "metadata"] j ([], false) in
      let '(m2, e2) := walk leaf_map ["params"; "message"; "metadata"] j ([], false) in
      if (e1 || e2)%bool then ""
      else match map_get "source_type" m1 with
           | Some (JStr st) => if decide (st <> "") then st else
               match map_get "source_type" m2 with Some (JStr st2) => st2 | _ => "" end
           | _ => match map_get "source_type" m2 with Some (JStr st2) => st2 | _ => "" end
           end
  end.

(** ** Callers and proxy errors *)

Definition systemCallerPrefixes : list string := ["webhook:"; "system:"; "test:"; "channel:"].
Definition isSystemCaller (callerID : string) : bool :=
  existsb (fun p => has_prefix callerID p) systemCallerPrefixes.

Record proxyA2AError := ProxyA2AError {
  pe_status : Z;
  pe_error : option string;        (* Response["error"] when it is a string *)
  pe_classification : string
}.

Definition isUpstreamDeadStatus (status : Z) : bool :=
  existsb (Z.eqb status) [502; 503; 504; 521; 522; 523; 524].

Definition isGatewayOriginFailure (e : option proxyA2AError) : bool :=
  match e with
  | None => false
  | Some e => if decide (pe_classification e = "upstream_dead") then false
              else isUpstreamDeadStatus (pe_status e)
  end.

Definition classificationOrUnknown (c : string) : string := if decide (c = "") then "unknown" else c.

Definition classificationFromDeliveryConfirmed (status : Z) (bodyNonEmpty : bool) : string :=
  if (200 <=? status) && (status <? 300) && bodyNonEmpty then "delivered" else "".

Definition recentHeartbeatWindow : Z := 15 * Second.

(** [None] in the row is an SQL NULL; a missing row or a failed read counts as
    no heartbeat. *)
Definition hasRecentHeartbeat (ws : wstable) (read_fails : bool) (now : time) (workspaceID : string) : bool :=
  if read_fails then false
  else match ws !! workspaceID with
       | None => false
       | Some w => some_and (ws_last_heartbeat w) (fun hb => now - hb <=? recentHeartbeatWindow)
       end.

(** ** The table *)

Record qrow := QRow {
  q_workspace : string;
  q_caller : option string;
  q_priority : Z;
  q_body : payload;
  q_method : option string;
  q_key : option string;
  q_enqueued : time;
  q_dispatched : option time;
  q_completed : option time;
  q_expires : option time;
  q_attempts : Z;
  q_status : string;
  q_last_error : option string;
  q_response : option payload;
  q_next_attempt : option time;
  q_settling : option time
}.

Abbreviation queue := (gmap string qrow).

(** The rows of the partial unique index. *)
Definition active (r : qrow) : bool :=
  bool_decide (q_status r = "queued") || bool_decide (q_status r = "dispatched").

Definition same_key (ws : string) (key : option string) (r : qrow) : bool :=
  bool_decide (q_workspace r = ws) && bool_decide (q_key r = key) && bool_decide (key <> None) && active r.

Definition holder (q : queue) (ws : string) (key : option string) : option string :=
  fst <$> head (filter (fun kr => same_key ws key kr.2 = true) (map_to_list q)).

(** A unique violation: another active row has the key of the new row. *)
Definition violates (q : queue) (id : string) (r : qrow) : bool :=
  active r && existsb (fun kr => negb (bool_decide (kr.1 = id)) && same_key (q_workspace r) (q_key r) kr.2)
                      (map_to_list q).

(** [UPDATE a2a_queue SET ... WHERE id = $1]: the table, and whether it failed. *)
Definition sql_update (q : queue) (fails : bool) (id : string) (f : qrow -> qrow) : queue * bool :=
  if fails then (q, true)
  else match q !! id with
       | None => (q, false)
       | Some r => if violates q id (f r) then (q, true) else (<[id := f r]> q, false)
       end.

(** ** Enqueue *)

Definition expired (now : time) (r : qrow) : bool := some_and (q_expires r) (fun e => e <=? now).

Definition superseded_error : string := "superseded: expired before drain; replaced by a fresh enqueue".
Definition drop_row (err : option string) (r : qrow) : qrow :=
  QRow (q_workspace r) (q_caller r) (q_priority r) (q_body r) (q_method r) (q_key r) (q_enqueued r)
    (q_dispatched r) (q_completed r) (q_expires r) (q_attempts r) "dropped" err (q_response r)
    (q_next_attempt r) (q_settling r).

Definition supersede (now : time) (ws : string) (key : string) (q : queue) : queue :=
  (fun r => if bool_decide (q_workspace r = ws) && bool_decide (q_key r = Some key) &&
               bool_decide (q_status r = "queued") && expired now r
            then drop_row (Some superseded_error) r else r) <$> q.

Definition depth_of (q : queue) (ws : string) : Z :=
  Z.of_nat (length (filter (fun kr => q_workspace kr.2 = ws /\ q_status kr.2 = "queued") (map_to_list q))).

(** Which statements of one enqueue fail. *)
Record enqueue_faults := EnqueueFaults { f_supersede : bool; f_insert : bool; f_lookup : bool; f_depth : bool }.
Definition no_enqueue_fault : enqueue_faults := EnqueueFaults false false false false.

Section Enqueue.
Context `{UuidCast}.

Definition new_row (now : time) (ws : string) (caller : option string) (priority : Z) (body : payload)
    (method idempotencyKey : string) (expiresAt : option time) : qrow :=
  QRow ws caller priority body (nullif_empty method) (nullif_empty idempotencyKey) now None None expiresAt
    0 "queued" None None None None.

(** [gen]: the id gen_random_uuid() yields; [known]: the workspaces table, for
    the foreign key.  The answer is the row id and the depth, or an error. *)
Definition EnqueueA2A (f : enqueue_faults) (gen : string) (known : wstable) (q : queue) (now : time)
    (workspaceID callerID : string) (priority : Z) (body : payload) (method idempotencyKey : string)
    (expiresAt : option time) : queue * option (string * Z) :=
  let callerArg := if decide (callerID = "") then None
                   else if isSystemCaller callerID then None else Some callerID in
  match canon workspaceID with
  | None => (q, None)
  | Some ws =>
  let q1 := if decide (idempotencyKey = "") then q
            else if f_supersede f then q else supersede now ws idempotencyKey q in
  let caller := match callerArg with None => Some None
                | Some c => match canon c with Some c' => Some (Some c') | None => None end end in
  let depth q' := if f_depth f then 0 else depth_of q' ws in
  match f_insert f, known !! ws, caller, parsed body with
  | false, Some _, Some c, Some _ =>
      match holder q1 ws (nullif_empty idempotencyKey) with
      | None =>
          let q2 := <[gen := new_row now ws c priority body method idempotencyKey expiresAt]> q1 in
          (q2, Some (gen, depth q2))
      | Some id => if f_lookup f then (q1, None) else (q1, Some (id, depth q1))
      end
  | _, _, _, _ => (q1, None)
  end
  end.
End Enqueue.

(** ** Dequeue *)

Record QueuedItem := MkQueuedItem {
  ID : string;
  WorkspaceID : string;
  CallerID : option string;
  Priority : Z;
  Body : payload;
  Method : option string;
  Attempts : Z;
  EnqueuedAt : time;
  SettlingSince : option time
}.

Definition item_of (kr : string * qrow) : QueuedItem :=
  let r := kr.2 in
  MkQueuedItem kr.1 (q_workspace r) (q_caller r) (q_priority r) (q_body r) (q_method r) (q_attempts r)
    (q_enqueued r) (q_settling r).

(** The WHERE clause, and SKIP LOCKED. *)
Definition eligible (now : time) (locked : string -> bool) (ws : string) (kr : string * qrow) : bool :=
  let r := kr.2 in
  bool_decide (q_workspace r = ws) && bool_decide (q_status r = "queued") &&
  null_or (q_expires r) (fun e => now <? e) && null_or (q_next_attempt r) (fun n => n <=? now) &&
  negb (locked kr.1).

(** ORDER BY priority DESC, enqueued_at ASC. *)
Definition before (a b : string * qrow) : bool :=
  (q_priority b.2 <? q_priority a.2) ||
  ((q_priority a.2 =? q_priority b.2) && (q_enqueued a.2 <? q_enqueued b.2)).

Definition pick (l : list (string * qrow)) : option (string * qrow) :=
  fold_left (fun best x => match best with
                           | None => Some x
                           | Some b => if before x b then Some x else Some b
                           end) l None.

Definition claim (now : time) (r : qrow) : qrow :=
  QRow (q_workspace r) (q_caller r) (q_priority r) (q_body r) (q_method r) (q_key r) (q_enqueued r)
    (Some now) (q_completed r) (q_expires r) (q_attempts r + 1) "dispatched" (q_last_error r)
    (q_response r) (q_next_attempt r) (q_settling r).

(** One transaction; [DbNoRows] is the [(nil, nil)] answer. *)
Definition DequeueNext (q : queue) (now : time) (locked : string -> bool) (fails : bool) (workspaceID : string)
    : queue * dbres QueuedItem :=
  if fails then (q, DbErr)
  else match pick (filter (fun kr => eligible now locked workspaceID kr = true) (map_to_list q)) with
       | None => (q, DbNoRows)
       | Some (id, r) => (<[id := claim now r]> q, DbOk (item_of (id, r)))
       end.

(** ** Settling a claimed row *)

Definition MarkQueueItemCompleted (q : queue) (now : time) (fails : bool) (id : string) (resp : option payload) : queue :=
  let bad := match resp with Some p => bool_decide (raw p <> "") && bool_decide (parsed p = None) | None => false end in
  let value := match resp with Some p => if decide (raw p = "") then None else Some p | None => None end in
  (sql_update q (fails || bad) id (fun r =>
     QRow (q_workspace r) (q_caller r) (q_priority r) (q_body r) (q_method r) (q_key r) (q_enqueued r)
       (q_dispatched r) (Some now) (q_expires r) (q_attempts r) "completed" (q_last_error r) value
       (q_next_attempt r) (q_settling r))).1.

Definition fail_row (errMsg : string) (r : qrow) : qrow :=
  QRow (q_workspace r) (q_caller r) (q_priority r) (q_body r) (q_method r) (q_key r) (q_enqueued r)
    None (q_completed r) (q_expires r) (q_attempts r)
    (if maxAttempts <=? q_attempts r then "failed" else "queued") (Some errMsg) (q_response r)
    (q_next_attempt r) (q_settling r).

(** The table and whether the row is now terminally failed. *)
Definition MarkQueueItemFailed (q : queue) (fails : bool) (id errMsg : string) : queue * bool :=
  let '(q', failed) := sql_update q fails id (fail_row errMsg) in
  if failed : bool then (q', false)
  else match q' !! id with
       | Some r => (q', bool_decide (q_status r = "failed"))
       | None => (q', false)
       end.

Definition retry_row (now : time) (errMsg : string) (r : qrow) : qrow :=
  QRow (q_workspace r) (q_caller r) (q_priority r) (q_body r) (q_method r) (q_key r) (q_enqueued r)
    None (q_completed r) (q_expires r) (Z.max (q_attempts r - 1) 0) "queued" (Some errMsg) (q_response r)
    (Some (now + transientRetryBackoffSecs * Second)) (coalesce (q_settling r) (Some now)).

Definition MarkQueueItemTransientRetry (q : queue) (now : time) (fails : bool) (id errMsg : string) : queue :=
  (sql_update q fails id (retry_row now errMsg)).1.

Definition DropQueueItemTerminal (q : queue) (now : time) (fails : bool) (id reason : string) : queue :=
  (sql_update q fails id (fun r =>
     if decide (q_status r = "dispatched") then
       QRow (q_workspace r) (q_caller r) (q_priority r) (q_body r) (q_method r) (q_key r) (q_enqueued r)
         None (Some now) (q_expires r) (q_attempts r) "dropped" (Some reason) (q_response r)
         (q_next_attempt r) (q_settling r)
     else r)).1.

(** ** Snapshots of a restart (restart_context.go) *)

(** [body #>> path]: the text at the path of a jsonb document, when it is a string. *)
Fixpoint jsonb_text (path : list string) (j : json) : option string :=
  match path, j with
  | [], JStr s => Some s
  | k :: rest, JObj m => match map_get k m with Some v => jsonb_text rest v | None => None end
  | _, _ => None
  end.

Definition restartContextSourceType : string := "self-restart-context".
Definition is_restart_context (ws st : string) (r : qrow) : bool :=
  bool_decide (q_workspace r = ws) && bool_decide (q_status r = st) &&
  bool_decide ((parsed (q_body r) ≫= jsonb_text ["params"; "message"; "metadata"; "source_type"]) = Some restartContextSourceType).

Definition replaced_error : string := "superseded: a newer restart-context snapshot replaced it".

Section Snapshots.
Context `{UuidCast}.

(** The table, and whether the UPDATE failed. *)
Definition dropQueuedRestartContext (fails : bool) (workspaceID : string) (q : queue) : queue * bool :=
  match fails, canon workspaceID with
  | false, Some ws => ((fun r => if is_restart_context ws "queued" r then drop_row (Some replaced_error) r else r) <$> q, false)
  | _, _ => (q, true)
  end.

Definition restartContextBeingDelivered (fails : bool) (workspaceID : string) (q : queue) : option bool :=
  match fails, canon workspaceID with
  | false, Some ws => Some (existsb (fun kr => is_restart_context ws "dispatched" kr.2) (map_to_list q))
  | _, _ => None
  end.
End Snapshots.

(** ** Age-based cleanup *)

Section Stale.
Context `{UuidCast}.
(** [now()::text] *)
Context (time_text : time -> string).

Definition stale_note (now : time) : string :=
  String (Ascii.ascii_of_nat 10)
    ("[DropStaleQueueItems] auto-dropped: queue item age exceeded the post-incident TTL. Dropped at " +:+ time_text now).

Definition is_stale (now : time) (maxAgeMinutes : Z) (locked : string -> bool) (ws : option string)
    (kr : string * qrow) : bool :=
  match ws with None => true | Some w => bool_decide (q_workspace kr.2 = w) end &&
  bool_decide (q_status kr.2 = "queued") && (q_enqueued kr.2 <? now - Minute * maxAgeMinutes) &&
  negb (locked kr.1).

(** [last_error || note] is NULL when last_error is. *)
Definition drop_stale (now : time) (r : qrow) : qrow :=
  drop_row ((fun e => e +:+ stale_note now) <$> q_last_error r) r.

(** The table and the count, or an error; an empty workspaceID sweeps all. *)
Definition DropStaleQueueItems (q : queue) (now : time) (locked : string -> bool) (fails : bool)
    (workspaceID : string) (maxAgeMinutes : Z) : queue * option Z :=
  let target := if decide (workspaceID = "") then Some None
                else match canon workspaceID with Some w => Some (Some w) | None => None end in
  match target, fails with
  | Some ws, false =>
      (map_imap (fun k r => Some (if is_stale now maxAgeMinutes locked ws (k, r) then drop_stale now r else r)) q,
       Some (Z.of_nat (length (filter (fun kr => is_stale now maxAgeMinutes locked ws kr = true) (map_to_list q)))))
  | _, _ => (q, None)
  end.
End Stale.

(** ** The sweeper's work list *)

Definition pending_for (now : time) (ws : string) (q : queue) : bool :=
  existsb (fun kr => bool_decide (q_workspace kr.2 = ws) && bool_decide (q_status kr.2 = "queued") &&
                     null_or (q_expires kr.2) (fun e => now <? e)) (map_to_list q).

Definition drainable (w : wsrow) : bool :=
  bool_decide (ws_status w = "online") || bool_decide (ws_status w = "degraded").

(** The (workspace, capacity) pairs [sweepA2AQueue] hands to the drain. *)
Definition sweep_targets (now : time) (workspaces : wstable) (q : queue) : list (string * Z) :=
  filter (fun wc => 0 < wc.2)
    (map (fun kw => (kw.1, Z.min (default 1 (ws_max_tasks kw.2)) a2aQueueSweeperBatchCap))
       (filter (fun kw => (pending_for now kw.1 q && drainable kw.2)%bool = true) (map_to_list workspaces))).

Definition CountStrandedQueueItems (now : time) (workspaces : wstable) (q : queue) : Z :=
  Z.of_nat (length (filter (fun kr =>
    bool_decide (q_status kr.2 = "queued") && null_or (q_expires kr.2) (fun e => now <? e) &&
    match workspaces !! q_workspace kr.2 with Some w => negb (drainable w) | None => false end = true)
    (map_to_list q))).
