(* ===== verification/QueueSafety.v ===== *)
(** * Invariants of the A2A queue

    [qstep] is any statement of [A2AQueue] run against the table, with any
    arguments, failures and locks; a table reachable from the empty one by
    such steps is well-formed: one active row per idempotency key, attempts
    within the cap, statuses of the CHECK constraint. *)

From S2P Require Import Prelude Json Tree A2AQueue.

(** ** The invariant *)

Definition row_ok (r : qrow) : Prop :=
  0 <= q_attempts r <= maxAttempts /\
  q_status r ∈ ["queued"; "dispatched"; "completed"; "dropped"; "failed"] /\
  (q_status r = "queued" -> q_attempts r < maxAttempts) /\
  (q_status r = "dispatched" -> 1 <= q_attempts r) /\
  (q_status r = "failed" -> q_attempts r = maxAttempts).

Definition unique_active (q : queue) : Prop :=
  forall i j ri rj, q !! i = Some ri -> q !! j = Some rj -> active ri = true -> active rj = true ->
    q_workspace ri = q_workspace rj -> q_key ri = q_key rj -> q_key ri <> None -> i = j.

Definition queue_ok (q : queue) : Prop := (forall i r, q !! i = Some r -> row_ok r) /\ unique_active q.

(** Rows that keep workspace and key and only leave the active set keep the
    index satisfied. *)
Lemma unique_active_shrink q q' :
  (forall i r', q' !! i = Some r' -> exists r, q !! i = Some r /\ q_workspace r' = q_workspace r /\
     q_key r' = q_key r /\ (active r' = true -> active r = true)) ->
  unique_active q -> unique_active q'.
Proof.
  intros Hsh Hu i j ri rj Hi Hj Hai Haj Hws Hk Hkn.
  destruct (Hsh _ _ Hi) as (ri0 & Hi0 & Hwi & Hki & Hacti).
  destruct (Hsh _ _ Hj) as (rj0 & Hj0 & Hwj & Hkj & Hactj).
  apply (Hu i j ri0 rj0); auto; congruence.
Qed.

Lemma violates_false q id r j rj :
  violates q id r = false -> active r = true -> q !! j = Some rj -> active rj = true ->
  q_workspace r = q_workspace rj -> q_key r = q_key rj -> q_key r <> None -> j = id.
Proof.
  intros Hv Ha Hj Haj Hws Hk Hkn. unfold violates in Hv. rewrite Ha in Hv. simpl in Hv.
  destruct (decide (j = id)) as [|Hne]; [done|]. exfalso.
  apply not_true_iff_false in Hv. apply Hv. apply existsb_exists. exists (j, rj).
  split; [by apply list_elem_of_In, elem_of_map_to_list|]. simpl.
  rewrite bool_decide_false by done. unfold same_key.
  rewrite !bool_decide_true by (try done; congruence). by rewrite Haj.
Qed.

Lemma unique_active_insert q id r :
  unique_active q -> violates q id r = false -> unique_active (<[id := r]> q).
Proof.
  intros Hu Hv i j ri rj Hi Hj Hai Haj Hws Hk Hkn.
  apply lookup_insert_Some in Hi as [[<- <-]|[Hi Hi']]; apply lookup_insert_Some in Hj as [[<- <-]|[Hj Hj']]; auto.
  - symmetry. by eapply violates_false.
  - eapply violates_false; eauto; congruence.
  - by eapply Hu.
Qed.

Lemma sql_update_ok q fails id f :
  (forall r, row_ok r -> row_ok (f r)) -> queue_ok q -> queue_ok (sql_update q fails id f).1.
Proof.
  intros Hf [Hrows Hu]. unfold sql_update. destruct fails; [done|].
  destruct (q !! id) as [r|] eqn:Hr; [|done]. destruct (violates q id (f r)) eqn:Hv; [done|].
  split; simpl; [|by apply unique_active_insert].
  intros i r' [[<- <-]|[_ ?]]%lookup_insert_Some; eauto.
Qed.

(** ** Every operation keeps it *)

Lemma row_ok_settled (st : string) r r' :
  row_ok r -> q_attempts r' = q_attempts r -> q_status r' = st -> st = "completed" \/ st = "dropped" -> row_ok r'.
Proof.
  intros (Ha & _) Hat Hst Hd. split_and!; rewrite ?Hat, ?Hst; try lia; destruct Hd as [-> | ->]; try done; set_solver.
Qed.

Lemma drop_row_ok e r : row_ok r -> row_ok (drop_row e r).
Proof. intros Hr. eapply (row_ok_settled "dropped"); eauto. Qed.

Lemma fail_row_ok m r : row_ok r -> row_ok (fail_row m r).
Proof.
  intros (Ha & _). unfold row_ok, fail_row. simpl.
  destruct (maxAttempts <=? q_attempts r) eqn:E; b2p; split_and!; try lia; try done; set_solver.
Qed.

Lemma retry_row_ok now m r : row_ok r -> row_ok (retry_row now m r).
Proof.
  intros (Ha & _). unfold maxAttempts in *. unfold row_ok, retry_row, maxAttempts. simpl.
  split_and!; try lia; try done; set_solver.
Qed.

Lemma claim_ok now r : row_ok r -> q_status r = "queued" -> row_ok (claim now r).
Proof.
  intros (Ha & _ & Hq & _) Hs. specialize (Hq Hs). unfold row_ok, claim. simpl.
  split_and!; try lia; try done; set_solver.
Qed.

Lemma holder_none q ws key :
  holder q ws key = None <-> forall i r, q !! i = Some r -> same_key ws key r = false.
Proof.
  unfold holder. split.
  - intros Hh i r Hr. destruct (same_key ws key r) eqn:E; [|done].
    assert (Hin : (i, r) ∈ filter (fun kr => same_key ws key kr.2 = true) (map_to_list q))
      by (apply list_elem_of_filter; split; [done|by apply elem_of_map_to_list]).
    destruct (filter _ _); [by apply not_elem_of_nil in Hin|done].
  - intros Hall. destruct (filter _ _) as [|[i r] l] eqn:E; [done|]. exfalso.
    assert (Hin : (i, r) ∈ filter (fun kr => same_key ws key kr.2 = true) (map_to_list q)) by (rewrite E; left).
    apply list_elem_of_filter in Hin as [Hs Hin]. apply elem_of_map_to_list in Hin. simpl in Hs.
    by rewrite (Hall _ _ Hin) in Hs.
Qed.

Lemma holder_some q ws key i :
  holder q ws key = Some i -> exists r, q !! i = Some r /\ same_key ws key r = true.
Proof.
  unfold holder. intros Hh. destruct (filter _ _) as [|[j r] l] eqn:E; [done|]. simpl in Hh. simplify_eq.
  assert (Hin : (i, r) ∈ filter (fun kr => same_key ws key kr.2 = true) (map_to_list q)) by (rewrite E; left).
  apply list_elem_of_filter in Hin as [Hs Hin]. apply elem_of_map_to_list in Hin. eauto.
Qed.

Lemma supersede_lookup now ws key q i :
  supersede now ws key q !! i =
  (fun r => if bool_decide (q_workspace r = ws) && bool_decide (q_key r = Some key) &&
               bool_decide (q_status r = "queued") && expired now r
            then drop_row (Some superseded_error) r else r) <$> q !! i.
Proof. unfold supersede. by rewrite lookup_fmap. Qed.

Lemma supersede_ok now ws key q : queue_ok q -> queue_ok (supersede now ws key q).
Proof.
  intros [Hrows Hu]. split.
  - intros i r. rewrite supersede_lookup. intros (r0 & Hr0 & ->)%fmap_Some.
    case_match; [apply drop_row_ok|]; eauto.
  - eapply unique_active_shrink; [|exact Hu]. intros i r'. rewrite supersede_lookup.
    intros (r0 & Hr0 & ->)%fmap_Some. exists r0. case_match; split_and!; done.
Qed.

Section Steps.
Context `{UuidCast}.

Lemma new_row_ok now ws c p b m k e : row_ok (new_row now ws c p b m k e).
Proof. unfold row_ok, new_row, maxAttempts. simpl. split_and!; try lia; try done; set_solver. Qed.

Lemma violates_new q gen now ws c p b m k e :
  holder q ws (nullif_empty k) = None -> violates q gen (new_row now ws c p b m k e) = false.
Proof.
  intros Hh. unfold violates. simpl. apply not_true_iff_false. intros Hex.
  apply existsb_exists in Hex as ([j rj] & Hin & Hb). apply list_elem_of_In, elem_of_map_to_list in Hin.
  simpl in Hb. apply andb_true_iff in Hb as [_ Hb]. rewrite holder_none in Hh. by rewrite (Hh _ _ Hin) in Hb.
Qed.

Lemma EnqueueA2A_ok f gen known q now w caller p b m k e :
  queue_ok q -> queue_ok (EnqueueA2A f gen known q now w caller p b m k e).1.
Proof.
  intros Hq. unfold EnqueueA2A. destruct (canon w) as [ws|]; [|done].
  set (q1 := if decide (k = "") then q else if f_supersede f then q else supersede now ws k q).
  assert (Hq1 : queue_ok q1) by (unfold q1; repeat case_match; auto using supersede_ok).
  destruct Hq1 as [Hrows Hu].
  assert (Hnew : forall c, holder q1 ws (nullif_empty k) = None ->
            queue_ok (<[gen := new_row now ws c p b m k e]> q1)).
  { intros c Hh. split; [|apply unique_active_insert; [done|]; by apply violates_new].
    intros i r [[<- <-]|[_ ?]]%lookup_insert_Some; eauto using new_row_ok. }
  repeat case_match; simpl; auto; by split.
Qed.

Lemma pick_from l acc x :
  fold_left (fun best x => match best with None => Some x | Some b => if before x b then Some x else Some b end) l acc
    = Some x -> x ∈ l \/ acc = Some x.
Proof.
  revert acc. induction l as [|y l IH]; intros acc; simpl; [auto|].
  intros Hx. apply IH in Hx as [Hx|Hx]; [left; by right|].
  destruct acc as [b|]; [destruct (before y b)|]; simplify_eq; auto; left; left.
Qed.

Lemma DequeueNext_cases q now locked fails ws q' o :
  DequeueNext q now locked fails ws = (q', o) ->
  (q' = q /\ forall item, o <> DbOk item) \/
  exists id r, q !! id = Some r /\ eligible now locked ws (id, r) = true /\
    pick (filter (fun kr => eligible now locked ws kr = true) (map_to_list q)) = Some (id, r) /\
    q' = <[id := claim now r]> q /\ o = DbOk (item_of (id, r)).
Proof.
  unfold DequeueNext. destruct fails; [intros [= <- <-]; auto|].
  destruct (pick _) as [[id r]|] eqn:Hp; intros [= <- <-]; [|auto]. right. exists id, r.
  pose proof Hp as Hin. apply pick_from in Hin as [Hin|]; [|done].
  apply list_elem_of_filter in Hin as [He Hin]. apply elem_of_map_to_list in Hin. auto.
Qed.

Lemma eligible_queued now locked ws id r : eligible now locked ws (id, r) = true -> q_status r = "queued".
Proof. unfold eligible. simpl. intros He. by b2p. Qed.

Lemma DequeueNext_ok q now locked fails ws : queue_ok q -> queue_ok (DequeueNext q now locked fails ws).1.
Proof.
  intros [Hrows Hu]. destruct (DequeueNext q now locked fails ws) as [q' o] eqn:E.
  apply DequeueNext_cases in E as [[-> _]|(id & r & Hr & He & _ & -> & _)]; [done|]. simpl.
  apply eligible_queued in He. split.
  - intros i r' [[<- <-]|[_ ?]]%lookup_insert_Some; eauto using claim_ok.
  - eapply unique_active_shrink; [|exact Hu]. intros i r' [[<- <-]|[_ ?]]%lookup_insert_Some; [|eauto].
    exists r. split_and!; auto. intros _. unfold active. by rewrite He.
Qed.

Context (time_text : time -> string).

Lemma DropStale_ok q now locked fails w age : queue_ok q -> queue_ok (DropStaleQueueItems time_text q now locked fails w age).1.
Proof.
  intros [Hrows Hu]. unfold DropStaleQueueItems. repeat case_match; simpl; try done.
  all: split; [intros i r'; rewrite map_lookup_imap; intros (r & Hr & Hs)%bind_Some; simplify_eq;
               case_match; [apply drop_row_ok|]; eauto
              |eapply unique_active_shrink; [|exact Hu]; intros i r'; rewrite map_lookup_imap;
               intros (r & Hr & Hs)%bind_Some; simplify_eq; exists r; case_match; split_and!; done].
Qed.

Lemma dropQueuedRestartContext_ok fails w q : queue_ok q -> queue_ok (dropQueuedRestartContext fails w q).1.
Proof.
  intros [Hrows Hu]. unfold dropQueuedRestartContext. destruct fails; [done|]. destruct (canon w) as [ws|]; [|done]. cbn.
  split.
  - intros i r'. rewrite lookup_fmap. intros (r & Hr & ->)%fmap_Some. case_match; [apply drop_row_ok|]; eauto.
  - eapply unique_active_shrink; [|exact Hu]. intros i r'. rewrite lookup_fmap. intros (r & Hr & ->)%fmap_Some.
    exists r. case_match; split_and!; done.
Qed.

Lemma cascade_ok w q : queue_ok q -> queue_ok (filter (fun kr => q_workspace kr.2 <> w) q).
Proof.
  intros [Hrows Hu]. split.
  - intros i r [Hr _]%map_lookup_filter_Some. eauto.
  - eapply unique_active_shrink; [|exact Hu]. intros i r' [Hr _]%map_lookup_filter_Some. eauto.
Qed.

(** ** Any statement *)

Inductive qstep : queue -> queue -> Prop :=
| QEnqueue q f gen known now w caller p b m k e :
    qstep q (EnqueueA2A f gen known q now w caller p b m k e).1
| QDequeue q now locked fails ws : qstep q (DequeueNext q now locked fails ws).1
| QCompleted q now fails id resp : qstep q (MarkQueueItemCompleted q now fails id resp)
| QFailed q fails id m : qstep q (MarkQueueItemFailed q fails id m).1
| QRetry q now fails id m : qstep q (MarkQueueItemTransientRetry q now fails id m)
| QDrop q now fails id m : qstep q (DropQueueItemTerminal q now fails id m)
| QStale q now locked fails w age : qstep q (DropStaleQueueItems time_text q now locked fails w age).1
| QSnapshot q fails w : qstep q (dropQueuedRestartContext fails w q).1
| QCascade q w : qstep q (filter (fun kr => q_workspace kr.2 <> w) q).   (* ON DELETE CASCADE *)

Lemma qstep_ok q q' : queue_ok q -> qstep q q' -> queue_ok q'.
Proof.
  intros Hq Hs. destruct Hs.
  - by apply EnqueueA2A_ok.
  - by apply DequeueNext_ok.
  - apply sql_update_ok; [|done]. intros r Hr. eapply (row_ok_settled "completed"); eauto.
  - unfold MarkQueueItemFailed. pose proof (sql_update_ok q fails id (fail_row m) (fail_row_ok m) Hq) as Hok.
    destruct (sql_update _ _ _ _) as [q' failed]. simpl in *. by repeat case_match.
  - apply sql_update_ok; [|done]. intros r. apply retry_row_ok.
  - apply sql_update_ok; [|done]. intros r Hr. case_decide; [|done].
    eapply (row_ok_settled "dropped"); eauto.
  - by apply DropStale_ok.
  - by apply dropQueuedRestartContext_ok.
  - by apply cascade_ok.
Qed.

Lemma queue_ok_empty : queue_ok ∅.
Proof. split; [intros i r|intros i j ri rj]; by rewrite lookup_empty. Qed.

(** C5: the queue stays well-formed. In every table reached from the empty one by any sequence of
    enqueues, dequeues, settlements, drops, age sweeps, replacements of restart snapshots and
    deletes of workspaces - every statement the code has on the table - whatever fails, whatever rows are
    locked, in whatever order drains interleave - no two active rows of a workspace share an
    idempotency key, no row has been attempted more than five times, a row still queued has an
    attempt left, and a row is [failed] only after all five. *)
Theorem queue_wellformed q (Hreach : rtc qstep ∅ q) :
  (forall i r, q !! i = Some r -> row_ok r) /\ unique_active q.
Proof. apply (rtc_invariant qstep queue_ok (fun s s' => qstep_ok s s') _ _ queue_ok_empty Hreach). Qed.

End Steps.

(** ** Enqueueing twice *)

Section Keys.
Context `{UuidCast}.

Lemma same_key_spec ws key r :
  same_key ws (Some key) r = true <-> q_workspace r = ws /\ q_key r = Some key /\ active r = true.
Proof.
  unfold same_key. rewrite !andb_true_iff, !bool_decide_eq_true. split.
  - by intros [[[? ?] _] ?].
  - by intros (? & ? & ?).
Qed.

(** The only row a key's cleanup could touch is the one holding the key. *)
Lemma supersede_id now ws key q id r :
  unique_active q -> q !! id = Some r -> same_key ws (Some key) r = true ->
  (q_status r = "queued" -> expired now r = false) -> supersede now ws key q = q.
Proof.
  intros Hu Hr Hs Hexp. apply map_eq. intros i. rewrite supersede_lookup.
  destruct (q !! i) as [ri|] eqn:Hi; [|done]. simpl. f_equal. case_match eqn:Hm; [|done]. exfalso. b2p.
  apply same_key_spec in Hs as (Hws & Hk & Ha).
  assert (Hai : active ri = true) by (unfold active; by rewrite bool_decide_true).
  assert (i = id) as -> by (eapply Hu; eauto; congruence). simplify_eq.
  rewrite Hexp in *; done.
Qed.

Lemma holder_unique q ws key id r :
  unique_active q -> q !! id = Some r -> same_key ws (Some key) r = true -> holder q ws (Some key) = Some id.
Proof.
  intros Hu Hr Hs. destruct (holder q ws (Some key)) as [j|] eqn:Hh.
  - apply holder_some in Hh as (rj & Hj & Hsj). apply same_key_spec in Hs as (? & ? & ?), Hsj as (? & ? & ?).
    f_equal. eapply Hu; eauto; congruence.
  - rewrite holder_none in Hh. by rewrite (Hh _ _ Hr) in Hs.
Qed.

Lemma nullif_key key : key <> "" -> nullif_empty key = Some key.
Proof. intros. unfold nullif_empty. by rewrite decide_False. Qed.

(** a keyed enqueue is idempotent. When an enqueue with key [key] succeeds, the id it returns
    is that of the one active row with the key, which is not an expired leftover; and until that
    row is dispatched to its end or expires, every further enqueue with the key - whatever its
    body, priority or caller - returns the same id and leaves the table as it is. *)
Theorem EnqueueA2A_idempotent gen known q now w ws caller p b m key e q1 id d
    (Hq : queue_ok q) (Hw : canon w = Some ws) (Hkey : key <> "")
    (Hexp : forall t, e = Some t -> now < t)
    (Hrun : EnqueueA2A no_enqueue_fault gen known q now w caller p b m key e = (q1, Some (id, d))) :
  d = depth_of q1 ws /\
  exists r, q1 !! id = Some r /\ same_key ws (Some key) r = true /\
    (q_status r = "queued" -> expired now r = false) /\
    (forall i ri, q1 !! i = Some ri -> same_key ws (Some key) ri = true -> i = id) /\
    (forall gen' now' caller' p' b' m' e' res, (q_status r = "queued" -> expired now' r = false) ->
       (EnqueueA2A no_enqueue_fault gen' known q1 now' w caller' p' b' m' key e').2 = Some res ->
       EnqueueA2A no_enqueue_fault gen' known q1 now' w caller' p' b' m' key e' = (q1, Some (id, d))).
Proof.
  assert (Hok1 : queue_ok q1).
  { pose proof (EnqueueA2A_ok no_enqueue_fault gen known q now w caller p b m key e Hq) as Ho. by rewrite Hrun in Ho. }
  unfold EnqueueA2A in Hrun. rewrite Hw, decide_False in Hrun by done.
  rewrite (nullif_key _ Hkey) in Hrun. cbn [no_enqueue_fault f_supersede f_insert f_lookup f_depth] in Hrun.
  destruct (known !! ws) as [kw|] eqn:Hkn; [|done].
  destruct (match (if decide (caller = "") then None else _) with None => _ | Some _ => _ end) as [c|]; [|done].
  destruct (parsed b) as [pb|]; [|done].
  assert (Hr : exists r, q1 !! id = Some r /\ same_key ws (Some key) r = true /\
            (q_status r = "queued" -> expired now r = false) /\ d = depth_of q1 ws).
  { destruct (holder (supersede now ws key q) ws (Some key)) as [j|] eqn:Hh; simplify_eq.
    - apply holder_some in Hh as (r & Hr & Hs). exists r. split_and!; auto. intros Hst.
      destruct (expired now r) eqn:He; [exfalso|done].
      rewrite supersede_lookup in Hr. destruct (q !! id) as [r0|]; [|done]. simpl in Hr. injection Hr as Hr.
      apply same_key_spec in Hs as (Hws & Hk & _). revert Hr. case_match eqn:Hm; intros <-; [done|].
      rewrite !bool_decide_true, He in Hm by done. done.
    - exists (new_row now ws c p b m key e). rewrite lookup_insert_eq. split_and!; auto.
      + apply same_key_spec. split_and!; [done| |done]. simpl. by apply nullif_key.
      + intros _. unfold expired, new_row. simpl. destruct e as [t|]; simpl; [|done].
        apply Z.leb_gt. by apply Hexp. }
  destruct Hr as (r & Hr & Hs & Hexpr & Hd). split; [done|]. exists r. destruct Hok1 as [_ Hu]. split_and!; auto.
  - intros i ri Hi Hsi. apply same_key_spec in Hs as (? & ? & ?), Hsi as (? & ? & ?).
    eapply Hu; eauto; congruence.
  - intros gen' now' caller' p' b' m' e' res Hexp' Hres. revert Hres. unfold EnqueueA2A.
    rewrite Hw, decide_False, (nullif_key _ Hkey), Hkn by done.
    cbn [no_enqueue_fault f_supersede f_insert f_lookup f_depth].
    rewrite (supersede_id now' ws key q1 id r) by done. rewrite (holder_unique q1 ws key id r) by done.
    rewrite <- Hd.
    destruct (match (if decide (caller' = "") then None else _) with None => _ | Some _ => _ end); [|done].
    by destruct (parsed b').
Qed.

(** ** What a dequeue takes *)

Lemma pick_best l acc x :
  fold_left (fun best x => match best with None => Some x | Some b => if before x b then Some x else Some b end) l acc
    = Some x ->
  (forall y, y ∈ l -> before y x = false) /\ (forall b, acc = Some b -> before b x = false).
Proof.
  assert (Htr : forall a b c, before a b = false -> before b c = false -> before a c = false).
  { intros a b c. unfold before. rewrite !orb_false_iff, !andb_false_iff, !Z.ltb_ge, !Z.eqb_neq. lia. }
  assert (Hasym : forall a b, before a b = true -> before b a = false).
  { intros a b. unfold before.
    rewrite orb_true_iff, andb_true_iff, orb_false_iff, andb_false_iff, !Z.ltb_lt, !Z.ltb_ge, Z.eqb_eq, Z.eqb_neq. lia. }
  revert acc. induction l as [|y l IH]; intros acc; simpl.
  { intros ->. split; [intros y ?%not_elem_of_nil; done|]. intros b [= ->]. unfold before. by rewrite !Z.ltb_irrefl, andb_false_r. }
  intros Hx. apply IH in Hx as [Hl Hacc]. destruct acc as [b|].
  - destruct (before y b) eqn:E; specialize (Hacc _ eq_refl); split.
    + intros z [->|Hz]%elem_of_cons; auto.
    + intros b' [= <-]. eauto.
    + intros z [->|Hz]%elem_of_cons; eauto.
    + by intros b' [= <-].
  - split; [|done]. intros z [->|Hz]%elem_of_cons; auto.
Qed.

(** what a drain may take. [DequeueNext] hands out a row only if it is queued for that
    workspace, not expired, past its back-off and not locked by another drain; no other such row has
    a higher priority, or the same priority and an older enqueue time; the row is left
    [dispatched] with one more attempt and every other row is left alone; and it answers "empty"
    exactly when there is no such row. *)
Theorem DequeueNext_best q now locked ws q' o (Hrun : DequeueNext q now locked false ws = (q', o)) :
  (forall item, o = DbOk item -> exists r, q !! ID item = Some r /\ item = item_of (ID item, r) /\
     eligible now locked ws (ID item, r) = true /\
     (forall j rj, q !! j = Some rj -> eligible now locked ws (j, rj) = true ->
        q_priority rj < q_priority r \/ (q_priority rj = q_priority r /\ q_enqueued r <= q_enqueued rj)) /\
     q' = <[ID item := claim now r]> q) /\
  (o = DbNoRows <-> forall j rj, q !! j = Some rj -> eligible now locked ws (j, rj) = false) /\
  o <> DbErr.
Proof.
  set (l := filter (fun kr => eligible now locked ws kr = true) (map_to_list q)).
  assert (Hl : forall j rj, (j, rj) ∈ l <-> q !! j = Some rj /\ eligible now locked ws (j, rj) = true)
    by (intros; unfold l; rewrite list_elem_of_filter, elem_of_map_to_list; tauto).
  unfold DequeueNext in Hrun. fold l in Hrun. destruct (pick l) as [[id r]|] eqn:Hp; simplify_eq.
  - pose proof Hp as Hin. apply pick_from in Hin as [Hin|]; [|done]. apply Hl in Hin as [Hr He].
    destruct (pick_best _ _ _ Hp) as [Hbest _]. split_and!; try done.
    + intros item [= <-]. exists r. simpl. split_and!; auto.
      intros j rj Hj Hej. assert (Hb : before (j, rj) (id, r) = false) by (apply Hbest, Hl; auto).
      unfold before in Hb. rewrite orb_false_iff, andb_false_iff, !Z.ltb_ge, Z.eqb_neq in Hb. simpl in Hb. lia.
    + split; [done|]. intros Hall. by rewrite (Hall _ _ Hr) in He.
  - split_and!; try done. split; [|done]. intros _ j rj Hj.
    destruct (eligible now locked ws (j, rj)) eqn:He; [|done]. exfalso.
    assert (Hin : (j, rj) ∈ l) by (by apply Hl). clear Hl.
    unfold pick in Hp. destruct l as [|x l']; [by apply not_elem_of_nil in Hin|]. simpl in Hp.
    clear -Hp. revert x Hp. induction l' as [|y l' IH]; intros x; simpl; [done|]. destruct (before y x); apply IH.
Qed.

(** ** The retry budget *)

(** One failed dispatch of the row [id]: claimed, then settled by
    [MarkQueueItemFailed]. *)
Definition fail_once (now : time) (m : string) (q : queue) (id : string) : queue :=
  match q !! id with
  | Some r => (MarkQueueItemFailed (<[id := claim now r]> q) false id m).1
  | None => q
  end.

Definition retry_once (now : time) (m : string) (q : queue) (id : string) : queue :=
  match q !! id with
  | Some r => MarkQueueItemTransientRetry (<[id := claim now r]> q) now false id m
  | None => q
  end.

(** Settling the row a drain claimed cannot trip the unique index. *)
Lemma violates_own q id r f :
  unique_active q -> q !! id = Some r -> active r = true -> q_workspace (f r) = q_workspace r ->
  q_key (f r) = q_key r -> violates q id (f r) = false.
Proof.
  intros Hu Hr Ha Hws Hk. unfold violates. destruct (active (f r)); [|done]. simpl.
  apply not_true_iff_false. intros ([j rj] & Hin & Hb)%existsb_exists.
  apply list_elem_of_In, elem_of_map_to_list in Hin. simpl in Hb. b2p.
  unfold same_key in *. b2p. rewrite Hws, Hk in *. match goal with Hn : j <> id |- _ => apply Hn end.
  eapply Hu; eauto; congruence.
Qed.

Lemma settle_claimed q now id r f :
  unique_active q -> q !! id = Some r -> q_status r = "queued" ->
  (forall x, q_workspace (f x) = q_workspace x) -> (forall x, q_key (f x) = q_key x) ->
  sql_update (<[id := claim now r]> q) false id f = (<[id := f (claim now r)]> q, false).
Proof.
  intros Hu Hr Hs Hws Hk. unfold sql_update. rewrite lookup_insert_eq.
  assert (Hu' : unique_active (<[id := claim now r]> q)).
  { eapply unique_active_shrink; [|exact Hu]. intros i r' [[<- <-]|[_ ?]]%lookup_insert_Some; [|eauto].
    exists r. split_and!; auto. intros _. unfold active. by rewrite Hs. }
  rewrite (violates_own _ id (claim now r) f); auto; [by rewrite insert_insert_eq|apply lookup_insert_eq].
Qed.

(** the two kinds of retry. A dispatch that fails for good costs an attempt: the row goes back
    to the queue with one attempt more, unless that was the fifth, in which case it ends [failed].
    A transient failure costs none: the row goes back with the attempts it had, cannot be taken
    again for five seconds, and keeps the first time it was seen settling. *)
Theorem retry_budget q id r now m (Hq : queue_ok q) (Hr : q !! id = Some r) (Hs : q_status r = "queued") :
  (exists r', fail_once now m q id !! id = Some r' /\ q_attempts r' = q_attempts r + 1 /\
     q_status r' = (if q_attempts r =? 4 then "failed" else "queued") /\ q_settling r' = q_settling r) /\
  (exists r', retry_once now m q id !! id = Some r' /\ q_status r' = "queued" /\
     q_attempts r' = q_attempts r /\ q_settling r' = coalesce (q_settling r) (Some now) /\
     (forall now' locked ws, now' < now + 5 * Second -> eligible now' locked ws (id, r') = false)).
Proof.
  destruct Hq as [Hrows Hu]. destruct (Hrows _ _ Hr) as (Hat & _ & Hlt & _). specialize (Hlt Hs).
  unfold maxAttempts in *. split.
  - unfold fail_once, MarkQueueItemFailed. rewrite Hr.
    rewrite (settle_claimed q now id r (fail_row m)) by done. cbn [fst snd]. rewrite lookup_insert_eq. cbn [fst].
    exists (fail_row m (claim now r)). rewrite lookup_insert_eq. split_and!; try done. simpl. unfold maxAttempts.
    destruct (q_attempts r =? 4) eqn:E; b2p; case_match; b2p; try done; lia.
  - unfold retry_once, MarkQueueItemTransientRetry. rewrite Hr.
    rewrite (settle_claimed q now id r (retry_row now m)) by done. simpl.
    exists (retry_row now m (claim now r)). rewrite lookup_insert_eq. split_and!; try done; simpl; [lia|].
    intros now' locked ws Hlt'. unfold eligible. simpl. unfold transientRetryBackoffSecs.
    destruct (now + 5 * Second <=? now') eqn:E; b2p; [lia|]. by rewrite andb_false_r.
Qed.
End Keys.

(** ** A queue with one row *)

Definition json_payload (j : json) : payload := Payload "{...}" (Some j).
Definition demo_body : payload := json_payload (nest ["params"; "message"; "messageId"] (JStr "m1")).
Definition demo_qrow : qrow :=
  QRow "eng" None PriorityTask demo_body None (Some "m1") 0 None None None 0 "queued" None None None None.
Definition demo_queue : queue := {["q1" := demo_qrow]}.
Lemma demo_queue_ok : queue_ok demo_queue.
Proof.
  unfold demo_queue. split.
  - intros i r [_ <-]%lookup_singleton_Some. unfold row_ok, maxAttempts. simpl. split_and!; try lia; try done. set_solver.
  - intros i j ri rj [<- _]%lookup_singleton_Some [<- _]%lookup_singleton_Some. done.
Qed.

Definition known_ws : wstable := {["eng" := WsRow "Eng" None "online" None None]}.

(** The row of an enqueue of [demo_body] at time 0. *)
Lemma demo_enqueue q' :
  q' = demo_queue ->
  @EnqueueA2A plain_cast no_enqueue_fault "q1" known_ws ∅ 0 "eng" "" PriorityTask demo_body "" "m1" None
    = (q', Some ("q1", 1)).
Proof. intros ->. vm_compute. reflexivity. Qed.

Lemma demo_queue_reachable : rtc (@qstep plain_cast (fun _ => "")) ∅ demo_queue.
Proof.
  apply rtc_once.
  pose proof (@QEnqueue plain_cast (fun _ => "") ∅ no_enqueue_fault "q1" known_ws 0 "eng" "" PriorityTask demo_body "" "m1" None) as Hs.
  by rewrite (demo_enqueue demo_queue eq_refl) in Hs.
Qed.

Lemma queue_wellformed_witness : rtc (@qstep plain_cast (fun _ => "")) ∅ demo_queue /\ unique_active demo_queue.
Proof.
  split; [exact demo_queue_reachable|].
  apply (@queue_wellformed plain_cast (fun _ => "") demo_queue demo_queue_reachable).
Defined.

Definition other_body : payload := json_payload (JObj []).

Lemma EnqueueA2A_idempotent_witness :
  @EnqueueA2A plain_cast no_enqueue_fault "q2" known_ws demo_queue 5 "eng" "system:x" PriorityInfo other_body "" "m1" (Some 9)
    = (demo_queue, Some ("q1", 1)).
Proof.
  destruct (@EnqueueA2A_idempotent plain_cast "q1" known_ws ∅ 0 "eng" "eng" "" PriorityTask demo_body "" "m1" None
              demo_queue "q1" 1 queue_ok_empty eq_refl ltac:(discriminate) ltac:(discriminate)
              (demo_enqueue demo_queue eq_refl)) as (_ & r & Hr & _ & _ & _ & Hagain).
  apply (Hagain "q2" 5 "system:x" PriorityInfo other_body "" (Some 9) ("q1", 1)).
  - intros _. vm_compute in Hr. injection Hr as <-. reflexivity.
  - vm_compute. reflexivity.
Defined.

Lemma DequeueNext_best_witness :
  DequeueNext demo_queue 10 (fun _ => false) false "eng" =
    (<["q1" := claim 10 demo_qrow]> demo_queue, DbOk (item_of ("q1", demo_qrow))) /\
  eligible 10 (fun _ => false) "eng" ("q1", demo_qrow) = true.
Proof.
  assert (Hrun : DequeueNext demo_queue 10 (fun _ => false) false "eng" =
            (<["q1" := claim 10 demo_qrow]> demo_queue, DbOk (item_of ("q1", demo_qrow)))) by (vm_compute; reflexivity).
  split; [exact Hrun|].
  destruct (@DequeueNext_best demo_queue 10 (fun _ => false) "eng" _ _ Hrun) as (Hitem & _ & _).
  destruct (Hitem (item_of ("q1", demo_qrow)) eq_refl) as (r & Hr & _ & He & _ & _).
  vm_compute in Hr. injection Hr as <-. exact He.
Defined.

Lemma retry_budget_witness :
  exists r', fail_once 10 "boom" demo_queue "q1" !! "q1" = Some r' /\ q_attempts r' = 1 /\ q_status r' = "queued".
Proof.
  destruct (@retry_budget demo_queue "q1" demo_qrow 10 "boom" demo_queue_ok eq_refl eq_refl) as [(r' & Hr & Ha & Hs & _) _].
  exists r'. split; [exact Hr|]. split; [exact Ha|exact Hs].
Defined.
