(* ===== verification/QueueDrain.v ===== *)
(** * Draining the A2A queue (internal/handlers/a2a_queue.go)

    [DrainQueueForWorkspace] claims up to [capacity] rows, dispatches each
    through the A2A proxy and settles it by the proxy's answer; an item that
    was a delegation also settles the delegation's placeholder row, its ledger
    entry and its caller's inbox.  The proxy and the URL resolution are network
    I/O: what they answer in one turn of the loop is part of [turn_env], with
    the clock, the locks and the failures of that turn. *)

From stdpp Require Import pretty.
From S2P Require Import Prelude Json Truncate Tree Ledger DelegationReplies Sweeper A2AQueue.

(** [http.StatusText]. *)
Definition status_texts : list (Z * string) :=
  [(100, "Continue"); (101, "Switching Protocols"); (102, "Processing");
   (103, "Early Hints"); (200, "OK"); (201, "Created");
   (202, "Accepted"); (203, "Non-Authoritative Information"); (204, "No Content");
   (205, "Reset Content"); (206, "Partial Content"); (207, "Multi-Status");
   (208, "Already Reported"); (226, "IM Used"); (300, "Multiple Choices");
   (301, "Moved Permanently"); (302, "Found"); (303, "See Other");
   (304, "Not Modified"); (305, "Use Proxy"); (307, "Temporary Redirect");
   (308, "Permanent Redirect"); (400, "Bad Request"); (401, "Unauthorized");
   (402, "Payment Required"); (403, "Forbidden"); (404, "Not Found");
   (405, "Method Not Allowed"); (406, "Not Acceptable"); (407, "Proxy Authentication Required");
   (408, "Request Timeout"); (409, "Conflict"); (410, "Gone");
   (411, "Length Required"); (412, "Precondition Failed"); (413, "Request Entity Too Large");
   (414, "Request URI Too Long"); (415, "Unsupported Media Type"); (416, "Requested Range Not Satisfiable");
   (417, "Expectation Failed"); (418, "I'm a teapot"); (421, "Misdirected Request");
   (422, "Unprocessable Entity"); (423, "Locked"); (424, "Failed Dependency");
   (425, "Too Early"); (426, "Upgrade Required"); (428, "Precondition Required");
   (429, "Too Many Requests"); (431, "Request Header Fields Too Large"); (451, "Unavailable For Legal Reasons");
   (500, "Internal Server Error"); (501, "Not Implemented"); (502, "Bad Gateway");
   (503, "Service Unavailable"); (504, "Gateway Timeout"); (505, "HTTP Version Not Supported");
   (506, "Variant Also Negotiates"); (507, "Insufficient Storage"); (508, "Loop Detected");
   (510, "Not Extended"); (511, "Network Authentication Required")].
Definition StatusText (code : Z) : string :=
  match find (fun e => e.1 =? code) status_texts with Some e => e.2 | None => "" end.

Definition classWorkspaceSettling : string := "workspace_settling".

(** ** The text of a reply (delegation.go) *)

Fixpoint first_text (parts : list json) : option string :=
  match parts with
  | [] => None
  | JObj m :: rest =>
      match map_get "kind" m, map_get "text" m with
      | Some (JStr kind), Some (JStr text) => if decide (kind = "text") then Some text else first_text rest
      | _, _ => first_text rest
      end
  | _ :: rest => first_text rest
  end.

Fixpoint first_artifact_text (artifacts : list json) : option string :=
  match artifacts with
  | [] => None
  | JObj m :: rest =>
      match map_get "parts" m with
      | Some (JArr parts) => match first_text parts with Some t => Some t | None => first_artifact_text rest end
      | _ => first_artifact_text rest
      end
  | _ :: rest => first_artifact_text rest
  end.

Definition extractResponseText (body : payload) : string :=
  match parsed body with
  | Some (JObj resp) =>
      match map_get "result" resp with
      | Some (JObj result) =>
          match match map_get "parts" result with Some (JArr parts) => first_text parts | _ => None end with
          | Some t => t
          | None =>
              match match map_get "artifacts" result with Some (JArr arts) => first_artifact_text arts | _ => None end with
              | Some t => t
              | None => raw body
              end
          end
      | _ => raw body
      end
  | _ => raw body
  end.

(** Not promoted by the drain; the delegate handler uses it. *)
Definition isDeliveryConfirmedSuccess (proxyErr : option proxyA2AError) (status : Z) (respBody : payload) : bool :=
  match proxyErr with
  | None => false
  | Some _ => negb (bool_decide (raw respBody = "")) && (200 <=? status) && (status <? 300)
  end.

(** ** State *)

(** What the drain starts and does not wait for. *)
Inductive effect :=
| EvictURL (ws : string)
| Dispatched (ws id : string)
| GreetingFallback (ws : string) (body : payload)
| GreetingReply (ws : string) (body resp : payload)
| AttachReply (ws messageID : string) (body resp : payload)
| DelegationComplete (source target delegation text : string)
| DelegationFailed (source target delegation reason : string).

Record drain_state := DrainState {
  d_queue : queue;
  d_ledger : ledger;
  d_logs : list activity;
  d_effects : list effect
}.

Definition with_queue (q : queue) (st : drain_state) := DrainState q (d_ledger st) (d_logs st) (d_effects st).
Definition emit (e : effect) (st : drain_state) := DrainState (d_queue st) (d_ledger st) (d_logs st) (d_effects st ++ [e]).

(** How one turn of the loop goes. *)
Record turn_env := TurnEnv {
  t_now : time;
  t_locked : string -> bool;
  t_dequeue_fails : bool;
  t_resolve : option proxyA2AError;           (* resolveAgentURL's error *)
  t_status : Z;                               (* proxyA2ARequest *)
  t_resp : payload;
  t_err : option proxyA2AError;
  t_meanwhile : queue -> queue;               (* the table, across the dispatch *)
  t_workspaces : wstable;
  t_heartbeat_fails : bool;
  t_settle_fails : bool;                      (* the settling UPDATE *)
  t_stitch_fails : bool;
  t_stitch_rows_fail : bool;
  t_call : call_env;
  t_inbox_fails : bool
}.

Section Drain.
Context `{UuidCast}.
Context (env : environment).
(** molecontracts.IsSelfSourceType, of the contracts package. *)
Context (IsSelfSourceType : string -> bool).

Definition firstBootGreetSourceType : string := "self-first-boot-greet".

(** ** First-boot greetings and queued turns *)

Definition deliverFirstBootFallbackOnTerminalDrop (ws : string) (body : payload) (st : drain_state) : drain_state :=
  if negb (bool_decide (RequestSourceType body = firstBootGreetSourceType)) then st
  else emit (GreetingFallback ws body) st.

Definition attachQueuedTurnCompletion (ws : string) (hasCaller : bool) (reqBody respBody : payload)
    (st : drain_state) : drain_state :=
  if bool_decide (raw respBody = "") then st
  else if hasCaller then st
  else
    let source := RequestSourceType reqBody in
    if negb (bool_decide (source = "")) && IsSelfSourceType source then
      if bool_decide (source = firstBootGreetSourceType) then emit (GreetingReply ws reqBody respBody) st else st
    else
      let messageID := extractIdempotencyKey reqBody in
      if bool_decide (messageID = "") then st else emit (AttachReply ws messageID reqBody respBody) st.

(** ** Stitching the delegation *)

Definition placeholder (source target delegationID : string) (a : activity) : bool :=
  bool_decide (workspace_id a = source) && bool_decide (activity_type a = "delegation") &&
  bool_decide (method a = "delegate_result") && bool_decide (target_id a = Some target) &&
  bool_decide (act_status a = "queued") &&
  match response_body a with
  | Some (JObj m) => match map_get "delegation_id" m with
                     | Some (JStr d) => bool_decide (d = delegationID)
                     | _ => false
                     end
  | _ => false
  end.

Definition settle_placeholder (status summary : string) (errorDetail : option string) (text delegationID : string)
    (a : activity) : activity :=
  Activity (workspace_id a) (activity_type a) (method a) (source_id a) (target_id a) summary status
    (match errorDetail with Some _ => errorDetail | None => act_error a end) (request_body a)
    (Some (JObj [("text", JStr text); ("delegation_id", JStr delegationID)])).

(** The UPDATE of the placeholder rows and what it reports. *)
Definition stitch_update (t : turn_env) (source target delegationID : string) (f : activity -> activity)
    (logs : list activity) : list activity * option Z :=
  if t_stitch_fails t then (logs, None)
  else (map (fun a => if placeholder source target delegationID a then f a else a) logs,
        if t_stitch_rows_fail t then None
        else Some (Z.of_nat (length (filter (fun a => placeholder source target delegationID a = true) logs)))).

Definition stitchDrainResponseToDelegation (t : turn_env) (source target delegationID : string) (resp : payload)
    (st : drain_state) : drain_state :=
  if decide (source = "" \/ delegationID = "") then st
  else
    let text := extractResponseText resp in
    let summary := ("Delegation completed (" +:+ TruncateBytes text 80) +:+ ")" in
    match stitch_update t source target delegationID (settle_placeholder "completed" summary None text delegationID) (d_logs st) with
    | (logs, None) => DrainState (d_queue st) (d_ledger st) logs (d_effects st)
    | (logs, Some rows) =>
        if rows =? 0 then st
        else
          let '(led', authority) := recordLedgerStatus env (t_call t) (d_ledger st) (t_now t) delegationID "completed" "" text in
          let logs' := if mayReply authority
                       then (pushDelegationResultToInbox env logs (t_inbox_fails t) source target delegationID "completed" text "").1
                       else logs in
          emit (DelegationComplete source target delegationID text) (DrainState (d_queue st) led' logs' (d_effects st))
    end.

Definition stitchDroppedDelegationFailure (t : turn_env) (source target delegationID reason : string)
    (st : drain_state) : drain_state :=
  if decide (source = "" \/ delegationID = "") then st
  else
    let summary := ("Delegation failed (" +:+ TruncateBytes reason 80) +:+ ")" in
    match stitch_update t source target delegationID (settle_placeholder "failed" summary (Some reason) reason delegationID) (d_logs st) with
    | (logs, None) => DrainState (d_queue st) (d_ledger st) logs (d_effects st)
    | (logs, Some rows) =>
        if rows =? 0 then st
        else
          let '(led', authority) := recordLedgerStatus env (t_call t) (d_ledger st) (t_now t) delegationID "failed" reason "" in
          let logs' := if mayReply authority
                       then (pushDelegationResultToInbox env logs (t_inbox_fails t) source target delegationID "failed" "" reason).1
                       else logs in
          emit (DelegationFailed source target delegationID reason) (DrainState (d_queue st) led' logs' (d_effects st))
    end.

(** ** Settling items *)

Definition past_ceiling (now : time) (item : QueuedItem) : bool :=
  some_and (SettlingSince item) (fun s => a2aSettlingRetryCeiling <=? now - s).

Definition caller_of (item : QueuedItem) : string := default "" (CallerID item).

(** Drop the item for good, and fail its delegation. *)
Definition drop_item (t : turn_env) (ws : string) (item : QueuedItem) (evict : bool) (dropMsg : string)
    (st : drain_state) : drain_state :=
  let st1 := with_queue (DropQueueItemTerminal (d_queue st) (t_now t) (t_settle_fails t) (ID item) dropMsg) st in
  let st2 := deliverFirstBootFallbackOnTerminalDrop ws (Body item) st1 in
  let st3 := if evict then emit (EvictURL ws) st2 else st2 in
  let delegationID := extractDelegationIDFromBody (Body item) in
  if decide (delegationID = "") then st3
  else stitchDroppedDelegationFailure t (caller_of item) (WorkspaceID item) delegationID dropMsg st3.

Definition url_less_drop_msg (status : Z) : string :=
  ("target workspace never reached online within " +:+ seconds_string a2aSettlingRetryCeiling) +:+
  (" of the first settling observation (still URL-less/provisioning, last resolve status=" +:+ pretty status) +:+
  "); dropped to stop a zombie re-queue that starves the workspace (core#124/#4531)".

Definition settleQueuedItemBounded (t : turn_env) (ws : string) (item : QueuedItem) (resolveErr : option proxyA2AError)
    (st : drain_state) : drain_state :=
  let status := match resolveErr with Some e => pe_status e | None => 0 end in
  if past_ceiling (t_now t) item then drop_item t ws item false (url_less_drop_msg status) st
  else with_queue (MarkQueueItemTransientRetry (d_queue st) (t_now t) (t_settle_fails t) (ID item)
         (("workspace settling (URL-less/provisioning, resolve status=" +:+ pretty status) +:+
          "): awaiting online for drain")) st.

Definition error_message (e : proxyA2AError) : string :=
  let m := default "" (pe_error e) in
  if decide (m <> "") then m
  else let s := StatusText (pe_status e) in
       if decide (s <> "") then s else "unknown drain dispatch error".

Definition ceiling_drop_msg (e : proxyA2AError) : string :=
  ("target failed to settle within " +:+ seconds_string a2aSettlingRetryCeiling) +:+
  (" of the first gateway-origin failure (persistent, last status=" +:+ pretty (pe_status e)) +:+
  (" classification=" +:+ classificationOrUnknown (pe_classification e)) +:+
  (": " +:+ error_message e) +:+
  "); dropped to stop a zombie re-queue that starves the workspace (core#124)".

Definition transient_msg (e : proxyA2AError) : string :=
  ("transient gateway origin (" +:+ classificationOrUnknown (pe_classification e)) +:+
  (", status=" +:+ pretty (pe_status e)) +:+ ("): " +:+ error_message e).

(** What a dispatch that came back does with its item. *)
Definition settle_dispatch (t : turn_env) (ws : string) (item : QueuedItem) (st : drain_state) : drain_state :=
  if t_status t =? 202 then
    with_queue (MarkQueueItemCompleted (d_queue st) (t_now t) (t_settle_fails t) (ID item) None) st
  else match t_err t with
  | Some e =>
      if isGatewayOriginFailure (t_err t) && hasRecentHeartbeat (t_workspaces t) (t_heartbeat_fails t) (t_now t) ws then
        if past_ceiling (t_now t) item then drop_item t ws item true (ceiling_drop_msg e) st
        else with_queue (MarkQueueItemTransientRetry (d_queue st) (t_now t) (t_settle_fails t) (ID item) (transient_msg e))
               (emit (EvictURL ws) st)
      else
        let '(q', terminal) := MarkQueueItemFailed (d_queue st) (t_settle_fails t) (ID item) (error_message e) in
        if terminal : bool then deliverFirstBootFallbackOnTerminalDrop ws (Body item) (with_queue q' st)
        else with_queue q' st
  | None =>
      let st1 := with_queue (MarkQueueItemCompleted (d_queue st) (t_now t) (t_settle_fails t) (ID item) (Some (t_resp t))) st in
      let st2 := attachQueuedTurnCompletion ws (bool_decide (CallerID item <> None)) (Body item) (t_resp t) st1 in
      let delegationID := extractDelegationIDFromBody (Body item) in
      if decide (delegationID = "") then st2
      else stitchDrainResponseToDelegation t (caller_of item) (WorkspaceID item) delegationID (t_resp t) st2
  end.

(** ** The loop

    [resolved]: the one answer of resolveAgentURL, once there is one. *)

Definition is_settling (e : option proxyA2AError) : bool :=
  match e with Some e => bool_decide (pe_classification e = classWorkspaceSettling) | None => false end.

(** One claimed item. *)
Definition drain_item (t : turn_env) (ws : string) (resolved : option (option proxyA2AError)) (item : QueuedItem)
    (st : drain_state) : option (option proxyA2AError) * drain_state :=
  let '(resolveErr, st1) :=
    match resolved with
    | Some r => (r, st)
    | None => (t_resolve t, emit (EvictURL ws) st)
    end in
  (Some resolveErr,
   if is_settling resolveErr then settleQueuedItemBounded t ws item resolveErr st1
   else settle_dispatch t ws item (emit (Dispatched ws (ID item)) (with_queue (t_meanwhile t (d_queue st1)) st1))).

Fixpoint drain_loop (turns : nat -> turn_env) (i left : nat) (ws : string) (resolved : option (option proxyA2AError))
    (st : drain_state) : drain_state :=
  match left with
  | O => st
  | S left' =>
      let t := turns i in
      match DequeueNext (d_queue st) (t_now t) (t_locked t) (t_dequeue_fails t) ws with
      | (q, DbErr) => with_queue q st
      | (q, DbNoRows) => with_queue q st
      | (q, DbOk item) =>
          let '(resolved', st') := drain_item t ws resolved item (with_queue q st) in
          drain_loop turns (S i) left' ws resolved' st'
      end
  end.

(** [inFlight], [held]: restartContextInFlight and holdQueueAfterRestart. *)
Definition DrainQueueForWorkspace (turns : nat -> turn_env) (inFlight held : bool) (ws : string) (capacity : Z)
    (st : drain_state) : drain_state :=
  if capacity <=? 0 then st
  else if inFlight then st
  else if held then st
  else drain_loop turns 0 (Z.to_nat capacity) ws None st.
End Drain.
