(* ===== verification/DrainSafety.v ===== *)
(** * What a drain guarantees

    The theorems about [QueueDrain.DrainQueueForWorkspace]: every item it
    claims is settled, a target that does not come up ends its items within
    the ceiling, and two ways in which the settlement goes wrong. *)

From S2P Require Import Prelude Json Truncate Tree Ledger DelegationReplies Sweeper A2AQueue QueueSafety QueueDrain.

Create Rewrite HintDb drain.

Lemma active_dispatched r : q_status r = "dispatched" -> active r = true.
Proof. intros Hs. unfold active. rewrite Hs. done. Qed.

(** Settling an active row with an update that keeps its workspace and key
    cannot fail. *)
Lemma sql_update_active q id r f :
  unique_active q -> q !! id = Some r -> active r = true ->
  q_workspace (f r) = q_workspace r -> q_key (f r) = q_key r ->
  sql_update q false id f = (<[id := f r]> q, false).
Proof. intros Hu Hr Ha Hws Hk. unfold sql_update. rewrite Hr, (violates_own q id r f); auto. Qed.



Section Safety.
Context `{UuidCast}.
Context (env : environment).
Context (IsSelfSourceType : string -> bool).

(** ** Only the settling statement touches the table *)

Lemma fallback_queue ws b st : d_queue (deliverFirstBootFallbackOnTerminalDrop ws b st) = d_queue st.
Proof. unfold deliverFirstBootFallbackOnTerminalDrop. by case_match. Qed.
Lemma attach_queue ws c b p st : d_queue (attachQueuedTurnCompletion IsSelfSourceType ws c b p st) = d_queue st.
Proof. unfold attachQueuedTurnCompletion. by repeat case_match. Qed.
Lemma stitch_ok_queue t s g d p st : d_queue (stitchDrainResponseToDelegation env t s g d p st) = d_queue st.
Proof. unfold stitchDrainResponseToDelegation. by repeat case_match. Qed.
Lemma stitch_drop_queue t s g d m st : d_queue (stitchDroppedDelegationFailure env t s g d m st) = d_queue st.
Proof. unfold stitchDroppedDelegationFailure. by repeat case_match. Qed.
Lemma drop_item_queue t ws item e m st :
  d_queue (drop_item env t ws item e m st) =
  DropQueueItemTerminal (d_queue st) (t_now t) (t_settle_fails t) (ID item) m.
Proof.
  unfold drop_item. case_decide; [|rewrite stitch_drop_queue]; destruct e; simpl; by rewrite fallback_queue.
Qed.
#[local] Hint Rewrite fallback_queue attach_queue stitch_ok_queue stitch_drop_queue drop_item_queue : drain.

(** ** One item *)

(** The turn's settling UPDATE works, the reply - if any - is JSON, and what
    others do to the table meanwhile keeps it well-formed and leaves claimed
    rows alone. *)
Definition sound_turn (t : turn_env) : Prop :=
  t_settle_fails t = false /\
  (raw (t_resp t) = "" \/ parsed (t_resp t) <> None) /\
  (forall q, queue_ok q -> queue_ok (t_meanwhile t q)) /\
  (forall q i r, q_status r = "dispatched" -> t_meanwhile t q !! i = Some r <-> q !! i = Some r).





Lemma retry_settles q now id r m :
  queue_ok q -> q !! id = Some r -> q_status r = "dispatched" ->
  MarkQueueItemTransientRetry q now false id m = <[id := retry_row now m r]> q.
Proof.
  intros [_ Hu] Hr Hs. unfold MarkQueueItemTransientRetry.
  by rewrite (sql_update_active q id r (retry_row now m)) by (try done; by apply active_dispatched).
Qed.









(** ** The settling ceiling *)

(** The target is not up yet, or is alive behind a failing gateway. *)
Definition transient_outcome (t : turn_env) (ws : string) (resolveErr : option proxyA2AError) : Prop :=
  is_settling resolveErr = true \/
  (t_status t <> 202 /\ isGatewayOriginFailure (t_err t) = true /\
   hasRecentHeartbeat (t_workspaces t) (t_heartbeat_fails t) (t_now t) ws = true).

(** a target that does not come up cannot hold a turn for ever. When a claimed item meets a
    transient outcome, then unless it has been settling for the ceiling (180 s) already it goes
    back to the queue with the attempts it had and the settling time of its first such outcome;
    once it has, it is dropped for good, with a reason, and cannot be claimed again. *)
Theorem settling_is_bounded t ws resolveErr id r claimed st
    (Ht : sound_turn t) (Hq : queue_ok (d_queue st))
    (Hr : d_queue st !! id = Some (claim claimed r)) (Hst : q_status r = "queued")
    (Hok : row_ok r) (Hout : transient_outcome t ws resolveErr) :
  exists r', d_queue (drain_item env IsSelfSourceType t ws (Some resolveErr) (item_of (id, r)) st).2 !! id = Some r' /\
    q_last_error r' <> None /\
    if some_and (q_settling r) (fun s => a2aSettlingRetryCeiling <=? t_now t - s)
    then q_status r' = "dropped" /\ forall now locked ws', eligible now locked ws' (id, r') = false
    else q_status r' = "queued" /\ q_attempts r' = q_attempts r /\
         q_settling r' = coalesce (q_settling r) (Some (t_now t)).
Proof.
  destruct Ht as (Hf & _ & Hmok & Hmk). set (item := item_of (id, r)).
  assert (Hdrop : forall q now m, queue_ok q -> q !! id = Some (claim claimed r) ->
            exists r', DropQueueItemTerminal q now false id m !! id = Some r' /\ q_last_error r' <> None /\
              q_status r' = "dropped" /\ forall now' locked ws', eligible now' locked ws' (id, r') = false).
  { intros q now m [_ Hu] Hrq. unfold DropQueueItemTerminal.
    rewrite (sql_update_active q id (claim claimed r)) by (try done; by case_decide).
    simpl. rewrite lookup_insert_eq. eexists. split; [done|]. split_and!; try done.
    intros now' locked ws'. unfold eligible. simpl. by rewrite andb_false_r. }
  assert (Hretry : forall q now m, queue_ok q -> q !! id = Some (claim claimed r) ->
            exists r', MarkQueueItemTransientRetry q now false id m !! id = Some r' /\ q_last_error r' <> None /\
              q_status r' = "queued" /\ q_attempts r' = q_attempts r /\ q_settling r' = coalesce (q_settling r) (Some now)).
  { intros q now m Hqq Hrq. rewrite (retry_settles q now id (claim claimed r)) by done. rewrite lookup_insert_eq.
    eexists. split; [done|]. split_and!; try done. simpl. destruct Hok as (? & _). lia. }
  assert (Hm : queue_ok (t_meanwhile t (d_queue st))) by auto.
  assert (Hrm : t_meanwhile t (d_queue st) !! id = Some (claim claimed r)) by (by apply Hmk).
  unfold drain_item. simpl. change (ID item) with id.
  assert (Hpast : past_ceiling (t_now t) item = some_and (q_settling r) (fun s => a2aSettlingRetryCeiling <=? t_now t - s)) by done.
  rewrite <- Hpast. destruct (is_settling resolveErr) eqn:Hset.
  - unfold settleQueuedItemBounded. destruct (past_ceiling (t_now t) item).
    + rewrite drop_item_queue, Hf. by apply Hdrop.
    + simpl. rewrite Hf. by apply Hretry.
  - destruct Hout as [?|(Hs & Hg & Hhb)]; [congruence|]. unfold settle_dispatch.
    apply Z.eqb_neq in Hs as ->. destruct (t_err t) as [e|]; [|done]. rewrite Hg, Hhb. simpl.
    destruct (past_ceiling (t_now t) item).
    + rewrite drop_item_queue. simpl. rewrite Hf. by apply Hdrop.
    + simpl. rewrite Hf. by apply Hretry.
Qed.
End Safety.

(** ** Concrete drains *)

Definition demo_state : drain_state := DrainState demo_queue ∅ [] [].
Definition beating : wstable := {["eng" := WsRow "Eng" None "online" (Some (200 * Second)) None]}.

(** A turn at 200 s that resolves the URL and gets [status], [resp], [err]. *)
Definition demo_turn (now : time) (status : Z) (resp : payload) (err : option proxyA2AError) : turn_env :=
  TurnEnv now (fun _ => false) false None status resp err id beating false false false false quiet false.
Definition dark : environment := fun _ => "".
Definition no_self (s : string) : bool := false.

Definition drain_once (t : turn_env) (capacity : Z) (st : drain_state) : drain_state :=
  @DrainQueueForWorkspace plain_cast dark no_self (fun _ => t) false false "eng" capacity st.

Lemma demo_turn_sound now status resp err :
  raw resp = "" \/ parsed resp <> None -> sound_turn (demo_turn now status resp err).
Proof. intros Hr. split_and!; try done. Qed.

Definition ok_reply : payload := json_payload (nest ["result"] (JObj [])).


Definition settling_err : proxyA2AError := ProxyA2AError 503 (Some "workspace has no URL") classWorkspaceSettling.
Definition settling_row : qrow :=
  QRow "eng" None PriorityTask demo_body None (Some "m1") 0 None None None 0 "queued" None None None (Some (10 * Second)).
Definition settling_state : drain_state :=
  DrainState {["q1" := claim (200 * Second) settling_row]} ∅ [] [].

Lemma settling_is_bounded_witness :
  exists r', d_queue (@drain_item plain_cast dark no_self (demo_turn (200 * Second) 0 ok_reply None) "eng"
                        (Some (Some settling_err)) (item_of ("q1", settling_row)) settling_state).2 !! "q1" = Some r' /\
             q_status r' = "dropped".
Proof.
  assert (Hok : row_ok settling_row).
  { unfold row_ok, maxAttempts, settling_row. simpl. split_and!; try lia; try done. set_solver. }
  destruct (@settling_is_bounded plain_cast dark no_self (demo_turn (200 * Second) 0 ok_reply None) "eng"
              (Some settling_err) "q1" settling_row (200 * Second) settling_state) as (r' & Hr' & _ & Hd).
  - apply demo_turn_sound. right. discriminate.
  - unfold settling_state. simpl. split.
    + intros i r [_ <-]%lookup_singleton_Some. by apply claim_ok.
    + intros i j ri rj [<- _]%lookup_singleton_Some [<- _]%lookup_singleton_Some. done.
  - reflexivity.
  - reflexivity.
  - exact Hok.
  - left. reflexivity.
  - exists r'. split; [exact Hr'|].
    assert (Hc : some_and (q_settling settling_row) (fun s => a2aSettlingRetryCeiling <=? 200 * Second - s) = true)
      by (vm_compute; reflexivity).
    cbn [t_now demo_turn] in Hd. rewrite Hc in Hd. exact (proj1 Hd).
Defined.

(** a turn the target has answered is sent again. The proxy reports a 2xx reply whose body it
    could not read to the end as an error of status 502 classified [delivered] - the work is done.
    The drain does not look at that classification: to it this is a gateway blip, so with a live
    target the item goes back to the queue with its attempt refunded, and a later drain dispatches
    the same turn a second time. *)
Theorem delivered_turn_is_redispatched :
  exists e st1 st2,
    e = ProxyA2AError 502 (Some "failed to read agent response") (classificationFromDeliveryConfirmed 200 true) /\
    isDeliveryConfirmedSuccess (Some e) 200 ok_reply = true /\
    st1 = drain_once (demo_turn (200 * Second) 200 ok_reply (Some e)) 1 demo_state /\
    (q_status <$> d_queue st1 !! "q1") = Some "queued" /\ (q_attempts <$> d_queue st1 !! "q1") = Some 0 /\
    st2 = drain_once (demo_turn (206 * Second) 200 ok_reply None) 1 st1 /\
    filter (fun x => x = "q1") (omap (fun x => match x with Dispatched _ i => Some i | _ => None end) (d_effects st2)) = ["q1"; "q1"].
Proof.
  eexists _, _, _. split; [reflexivity|]. split; [reflexivity|]. split; [reflexivity|].
  split; [vm_compute; reflexivity|]. split; [vm_compute; reflexivity|]. split; [reflexivity|].
  vm_compute. reflexivity.
Qed.

Definition stranded_row : qrow := claim (200 * Second) demo_qrow.

Lemma stranded_queue :
  d_queue (drain_once (demo_turn (200 * Second) 200 (Payload "plain text" None) None) 1 demo_state) =
  {["q1" := stranded_row]}.
Proof. vm_compute. reflexivity. Qed.

(** a reply that is not JSON strands its item. The settling UPDATE then fails on the jsonb
    column and is only logged: the row stays [dispatched] after a successful dispatch, so no drain
    ever claims it again, the target's answer is not stored, and every later enqueue with its key
    is answered with the stranded row and never delivered. *)
Theorem non_json_reply_strands_the_item :
  exists st1, st1 = drain_once (demo_turn (200 * Second) 200 (Payload "plain text" None) None) 1 demo_state /\
    (q_status <$> d_queue st1 !! "q1") = Some "dispatched" /\ (q_response <$> d_queue st1 !! "q1") = Some None /\
    (forall now locked, (DequeueNext (d_queue st1) now locked false "eng").2 = DbNoRows) /\
    (forall gen now body, parsed body <> None ->
       @EnqueueA2A plain_cast no_enqueue_fault gen beating (d_queue st1) now "eng" "" PriorityTask body "" "m1" None
         = (d_queue st1, Some ("q1", 0))).
Proof.
  eexists. split; [reflexivity|]. rewrite stranded_queue. rewrite lookup_singleton_eq.
  split; [reflexivity|]. split; [reflexivity|]. split.
  - intros now locked. unfold DequeueNext. rewrite map_to_list_singleton. reflexivity.
  - intros gen now body Hb. unfold EnqueueA2A. cbn [canon plain_cast].
    rewrite !decide_False by done.
    assert (Hs : supersede now "eng" "m1" {["q1" := stranded_row]} = {["q1" := stranded_row]}).
    { unfold supersede. rewrite map_fmap_singleton. reflexivity. }
    cbn [no_enqueue_fault f_supersede f_insert f_lookup f_depth]. rewrite Hs.
    destruct (parsed body) as [j|]; [|done]. vm_compute. reflexivity.
Qed.
