(* ===== verification/Restart.v ===== *)
(** * Restarting a workspace

    The pieces of internal/handlers/workspace_restart.go,
    auto_restart_breaker.go and restart_queue_hold.go that decide whether and
    when a container is restarted: the per-workspace [restartState] with one
    definition per section the code runs under its mutex, the crash-loop
    breaker, the hold on the queue after an automatic restart, the ancestor
    check, the filters of a restart cycle, and the two retry loops around the
    control plane.  How these sections interleave is in RestartSteps. *)

From S2P Require Import Prelude Tree.

(** ** restartState

    One entry of [restartStates]; a workspace without an entry behaves as one
    whose entry is [zero_state]: every reader answers [false] on both, and
    every writer that matters creates the entry first. *)
Record restartState := RestartState {
  running : bool;
  pending : bool;
  restartStartedAt : option time;
  autoRestarts : list time;                 (* oldest first *)
  autoRestartsHalted : bool;
  queueHeldSince : option time;
  queueReadyHeartbeat : option time
}.

Definition zero_state : restartState := RestartState false false None [] false None None.

Definition RestartDebounceWindow : Z := 60 * Second.
Definition restartSettleWindow : Z := 30 * Second.
Definition autoRestartLimit : nat := 3.
Definition autoRestartWindow : Z := 30 * Minute.
Definition restartQueueHoldGrace : Z := 90 * Second.

Definition isRestarting (s : restartState) : bool := running s.

Definition inRestartSettleWindow (now : time) (s : restartState) : bool :=
  some_and (restartStartedAt s) (fun t => now - t <? restartSettleWindow).

Definition lastRestartStartedAt (s : restartState) : option time := restartStartedAt s.

Definition shouldDebounceRestart (now : time) (s : restartState) : bool :=
  some_and (restartStartedAt s) (fun t => now - t <? RestartDebounceWindow).

(** *** The critical sections of coalesceRestart *)

(** The request is recorded; [true] when the caller becomes the runner. *)
Definition coalesce_enter (now : time) (s : restartState) : restartState * bool :=
  if running s
  then (RestartState true true (restartStartedAt s) (autoRestarts s) (autoRestartsHalted s)
                     (queueHeldSince s) (queueReadyHeartbeat s), false)
  else (RestartState true true (Some now) (autoRestarts s) (autoRestartsHalted s)
                     (queueHeldSince s) (queueReadyHeartbeat s), true).

(** The top of the drain loop; [None] when nothing is pending. *)
Definition drain_top (now : time) (iteration : nat) (s : restartState) : option restartState :=
  if pending s
  then Some (RestartState (running s) false
               (if decide (0 < iteration)%nat then Some now else restartStartedAt s)
               (autoRestarts s) (autoRestartsHalted s) (queueHeldSince s) (queueReadyHeartbeat s))
  else None.

(** The deferred function: the runner is gone, whether it returned or panicked. *)
Definition clear_running (s : restartState) : restartState :=
  RestartState false (pending s) (restartStartedAt s) (autoRestarts s) (autoRestartsHalted s)
               (queueHeldSince s) (queueReadyHeartbeat s).

(** *** The crash-loop breaker *)

Definition recent (now at_ : time) : bool := now - at_ <? autoRestartWindow.

Definition autoRestartHalted (now : time) (s : restartState) : restartState * bool :=
  let recents := filter (fun at_ => recent now at_ = true) (autoRestarts s) in
  let halted := if decide (autoRestartLimit <= length recents)%nat then true else autoRestartsHalted s in
  (RestartState (running s) (pending s) (restartStartedAt s) recents halted
                (queueHeldSince s) (queueReadyHeartbeat s), halted).

Definition recordAutoRestart (now : time) (s : restartState) : restartState :=
  RestartState (running s) (pending s) (restartStartedAt s) (autoRestarts s ++ [now]) (autoRestartsHalted s)
               (queueHeldSince s) (queueReadyHeartbeat s).

Definition resetAutoRestarts (s : restartState) : restartState :=
  RestartState (running s) (pending s) (restartStartedAt s) [] false None None.

(** Which trigger a cycle is run with: the caller's on its first cycle, none on
    the ones it drains for others. *)
Definition autoRestartCycle (trigger : string) (iteration : nat) : string :=
  match iteration with O => trigger | S _ => "" end.

(** The UPDATE of haltAutoRestarts, and whether the canvas is told. *)
Definition haltAutoRestarts (fails : bool) (row : option wsrow) : option wsrow * bool :=
  if fails then (row, false) else
  match row with
  | None => (None, false)
  | Some r =>
      if bool_decide (ws_status r ∈ ["removed"; "provisioning"; "paused"; "hibernated"; "failed"])
      then (Some r, false)
      else (Some (set_status "failed" r), true)
  end.

(** *** The queue hold *)

Definition armRestartQueueHold (now : time) (s : restartState) : restartState :=
  RestartState (running s) (pending s) (restartStartedAt s) (autoRestarts s) (autoRestartsHalted s)
               (Some now) None.

Definition restartQueueHeld (s : restartState) : bool := bool_decide (queueHeldSince s <> None).

Definition with_ready (h : option time) (s : restartState) : restartState :=
  RestartState (running s) (pending s) (restartStartedAt s) (autoRestarts s) (autoRestartsHalted s)
               (queueHeldSince s) h.
Definition release_hold (s : restartState) : restartState :=
  RestartState (running s) (pending s) (restartStartedAt s) (autoRestarts s) (autoRestartsHalted s)
               None None.

(** The status and heartbeat one SELECT returned, and whether they mean ready
    for a container that came up after [since]. *)
Definition ws_read : Type := string * option time.
Definition hold_ready (since : time) (r : ws_read) : bool :=
  bool_decide (r.1 = "online" \/ r.1 = "degraded") && some_and r.2 (fun h => since <? h).

(** The second critical section of holdQueueAfterRestart: [since] is the
    snapshot the first one took, [r] the row read in between.  [true]: keep
    holding. *)
Definition hold_settle (since : time) (r : ws_read) (s : restartState) : restartState * bool :=
  match queueHeldSince s with
  | None => (s, false)
  | Some t =>
      if decide (t <> since) then (s, true)
      else match hold_ready since r, r.2 with
           | true, Some h =>
               match queueReadyHeartbeat s with
               | None => (with_ready (Some h) s, true)
               | Some h0 => if h - h0 <? restartQueueHoldGrace then (s, true)
                            else (release_hold s, false)
               end
           | _, _ => (with_ready None s, true)
           end
  end.

(** One call with nothing in between; [None] is a failed read. *)
Definition holdQueueAfterRestart (r : option ws_read) (s : restartState) : restartState * bool :=
  match queueHeldSince s, r with
  | None, _ => (s, false)
  | Some _, None => (s, false)
  | Some since, Some r => hold_settle since r s
  end.

(** * The queue hold after an automatic restart

    What the reads of holdQueueAfterRestart amount to: the hold ends at the
    first heartbeat that comes a full grace after the start of an unbroken run
    of ready reads. *)

(** The state after a sequence of calls, [None] being one whose SELECT failed. *)
Definition after_reads (s : restartState) (l : list (option ws_read)) : restartState :=
  foldl (fun s r => (holdQueueAfterRestart r s).1) s l.

(** [run_from since l h]: the reads [l] end with an unbroken run of ready ones
    whose first carries heartbeat [h]. *)
Definition run_from (since : time) (l : list ws_read) (h : time) : Prop :=
  exists before first more, l = before ++ first :: more /\ first.2 = Some h /\
    Forall (fun r => hold_ready since r = true) (first :: more) /\
    (forall r, last before = Some r -> hold_ready since r = false).

(** The heartbeat [run_from] speaks of, computed. *)
Definition run_start (since : time) (l : list ws_read) : option time :=
  foldl (fun o r => if hold_ready since r then coalesce o r.2 else None) None l.

Lemma run_start_snoc since l r :
  run_start since (l ++ [r]) = if hold_ready since r then coalesce (run_start since l) r.2 else None.
Proof. unfold run_start. by rewrite foldl_app. Qed.

Lemma ready_heartbeat since r : hold_ready since r = true -> exists h, r.2 = Some h /\ since < h.
Proof. unfold hold_ready. intros H. b2p. destruct r.2 as [h|]; [|done]. simpl in *. b2p. eauto. Qed.

Lemma run_start_none since l :
  run_start since l = None <-> (forall r, last l = Some r -> hold_ready since r = false).
Proof.
  destruct l as [|r l _] using rev_ind; [done|]. rewrite run_start_snoc, last_snoc. split.
  - intros H r' [= <-]. destruct (hold_ready since r) eqn:Hr; [|done]. destruct (ready_heartbeat _ _ Hr) as (h & Hh & _).
    rewrite Hh in H. by destruct (run_start since l).
  - intros H. by rewrite (H r eq_refl).
Qed.

Lemma run_start_spec since l h : run_start since l = Some h <-> run_from since l h.
Proof.
  revert h. induction l as [|r l IH] using rev_ind; intros h.
  { split; [done|]. intros (b & f & m & Hl & _). by destruct b. }
  rewrite run_start_snoc. split.
  - destruct (hold_ready since r) eqn:Hr; [|done]. destruct (run_start since l) as [h0|] eqn:Hl; simpl.
    + intros [= <-]. destruct (proj1 (IH h0) eq_refl) as (b & f & m & -> & Hf & Hall & Hb).
      exists b, f, (m ++ [r]). rewrite <-app_assoc. split_and!; auto.
      inversion Hall; subst. constructor; [done|]. apply Forall_app. auto.
    + intros Hh. exists l, r, []. split_and!; auto. by apply run_start_none.
  - intros (b & f & m & Heq & Hf & Hall & Hb). destruct m as [|r' m _] using rev_ind.
    + apply app_inj_tail in Heq as [-> ->]. inversion Hall; subst.
      match goal with H : hold_ready since f = true |- _ => rewrite H end.
      by rewrite (proj2 (run_start_none since b) Hb).
    + rewrite app_comm_cons, app_assoc in Heq. apply app_inj_tail in Heq as [-> <-].
      inversion Hall as [|? ? Hf1 Hall1]; subst. apply Forall_app in Hall1 as [Hm Hr]. inversion Hr; subst.
      match goal with H : hold_ready since r = true |- _ => rewrite H end.
      assert (Hs : run_start since (b ++ f :: m) = Some h) by (apply IH; exists b, f, m; split_and!; auto).
      by rewrite Hs.
Qed.

(** [releases since l]: some read carries a heartbeat a full grace after the
    start of the ready run it ends. *)
Definition releases (since : time) (l : list ws_read) : Prop :=
  exists l1 r l2 h0 h, l = l1 ++ r :: l2 /\ run_from since l1 h0 /\ hold_ready since r = true /\
    r.2 = Some h /\ restartQueueHoldGrace <= h - h0.

Lemma releases_snoc since l r :
  releases since (l ++ [r]) <-> releases since l \/
    exists h0 h, run_from since l h0 /\ hold_ready since r = true /\ r.2 = Some h /\ restartQueueHoldGrace <= h - h0.
Proof.
  split.
  - intros (l1 & r1 & l2 & h0 & h & Heq & Hrun & Hr & Hh & Hg). destruct l2 as [|r2 l2 _] using rev_ind.
    + apply app_inj_tail in Heq as [-> ->]. right. eauto 6.
    + rewrite app_comm_cons, app_assoc in Heq. apply app_inj_tail in Heq as [-> <-]. left.
      exists l1, r1, l2, h0, h. auto.
  - intros [(l1 & r1 & l2 & h0 & h & -> & H)|(h0 & h & H)].
    + exists l1, r1, (l2 ++ [r]), h0, h. by rewrite <-app_assoc.
    + exists l, r, [], h0, h. auto.
Qed.

(** The state while the hold lasts, and after it ended. *)
Lemma after_reads_spec since s l (reads := omap id l) :
  let s' := after_reads (armRestartQueueHold since s) l in
  (releases since reads /\ queueHeldSince s' = None) \/
  (~ releases since reads /\ queueHeldSince s' = Some since /\ queueReadyHeartbeat s' = run_start since reads).
Proof.
  subst reads. induction l as [|r l IH] using rev_ind.
  - right. split_and!; [|done|done]. intros (l1 & ? & ? & ? & ? & Hl & _). by destruct l1.
  - simpl in *. unfold after_reads in *. rewrite foldl_app. simpl.
    set (s' := foldl _ _ l) in *. clearbody s'. rewrite omap_app. destruct r as [r|]; simpl.
    + change (omap id [Some r]) with [r]. rewrite releases_snoc, run_start_snoc.
      destruct IH as [[Hrel Hs]|(Hrel & Hs & Hq)]; unfold holdQueueAfterRestart, hold_settle; rewrite Hs; [by left; auto|].
      rewrite decide_False by auto.
      destruct (hold_ready since r) eqn:Hr.
      * destruct (ready_heartbeat _ _ Hr) as (h & Hh & _). rewrite Hh, Hq.
        destruct (run_start since (omap id l)) as [h0|] eqn:Hrun; simpl.
        -- case_match eqn:Hg; b2p; simpl.
           ++ right. split_and!; [|done|congruence]. intros [?|(h0' & h' & Hrun' & _ & ? & ?)]; [done|].
              apply run_start_spec in Hrun'. simplify_eq. lia.
           ++ left. split; [|done]. right. exists h0, h. split_and!; auto. by apply run_start_spec.
        -- right. split_and!; [|done|done]. intros [?|(h0' & h' & Hrun' & _)]; [done|].
           apply run_start_spec in Hrun'. congruence.
      * right. split_and!; [|done|done].
        intros [?|(h0 & h & _ & Hr' & _)]; congruence.
    + change (omap id [@None ws_read]) with (@nil ws_read). rewrite app_nil_r.
      destruct IH as [[Hrel Hs]|(Hrel & Hs & Hq)]; unfold holdQueueAfterRestart; rewrite Hs; [left|right]; auto.
Qed.

(** the hold. After an automatic restart at [since], the queue stays held through any sequence of
    reads until one is ready and carries a heartbeat at least ninety seconds after the first
    heartbeat of the unbroken run of ready reads it ends; then it is released, for good. Reads that
    fail count for nothing and never hold the queue, and while it is held every other read answers
    "hold". *)
Theorem hold_ends_after_grace since s l :
  let s' := after_reads (armRestartQueueHold since s) l in
  (restartQueueHeld s' = false <-> releases since (omap id l)) /\
  (holdQueueAfterRestart None s').2 = false /\
  (forall r, (holdQueueAfterRestart (Some r) s').2 = restartQueueHeld (holdQueueAfterRestart (Some r) s').1).
Proof.
  intros s'. destruct (after_reads_spec since s l) as [[Hrel Hs]|(Hrel & Hs & _)]; fold s' in Hs.
  - unfold restartQueueHeld, holdQueueAfterRestart. rewrite Hs. split; [by split|]. split; [done|].
    intros r. simpl. by rewrite Hs.
  - split; [|split].
    + unfold restartQueueHeld. rewrite Hs. by split.
    + unfold holdQueueAfterRestart. by rewrite Hs.
    + intros r. unfold holdQueueAfterRestart, hold_settle, restartQueueHeld. rewrite Hs, decide_False by auto.
      repeat case_match; simpl; rewrite ?Hs; done.
Qed.

(** Ready at 10s, gone at 40s, ready again from 70s: the clock restarts, and
    only the beat at 160s ends the hold. *)
Example hold_restarts :
  map (fun n => restartQueueHeld (after_reads (armRestartQueueHold 0 zero_state)
                  (take n [Some ("online", Some (10 * Second)); Some ("offline", Some (40 * Second));
                           Some ("online", Some (70 * Second)); Some ("degraded", Some (130 * Second)); None;
                           Some ("online", Some (160 * Second))])))
      [1; 2; 3; 4; 5; 6]%nat = [true; true; true; true; true; false].
Proof. reflexivity. Qed.
