(* ===== verification/RestartSteps.v ===== *)
(** * Concurrent restarts of one workspace

    The goroutines that call RestartByID, RestartByIDAfterMutation,
    AutoRestartByID, resetAutoRestarts and the queue drain for one workspace, as
    threads over its entries of [restartStates]: the one the map holds now, and
    the ones a delete of the workspace took out of it, which a running
    coalesceRestart still works on.  A thread's position is the code it has not
    run yet; a step is one section the code runs under a mutex, so every
    interleaving of the code is a sequence of steps.  Theorems: every request an
    entry accepted is served by exactly one later cycle of that entry's runner or
    still pending, the cycles of an entry never overlap, the crash-loop breaker's
    budget while the workspace is not deleted, the requests the last runner can
    leave behind, and the two runners a delete lets in. *)

From S2P Require Import Prelude Tree Restart.

(** ** Threads *)

(** [trigger] is "" unless AutoRestartByID made the call. *)
Inductive position :=
| PAutoDebounce (trigger : string)       (* AutoRestartByID: shouldDebounceRestart *)
| PAutoHalted (trigger : string)         (* AutoRestartByID: autoRestartHalted *)
| PDebounce (trigger : string)           (* restartByIDWithCycle: shouldDebounceRestart *)
| PEnter (trigger : string)              (* coalesceRestart, first section *)
| PTop (trigger : string) (iteration : nat)     (* the top of the drain loop *)
| PCycle (trigger : string) (iteration : nat)   (* runRestartCycle, before the breaker *)
| PStop (trigger : string) (iteration : nat)    (* past the breaker, before recordAutoRestart *)
| PArm (trigger : string) (iteration : nat)     (* recorded, hold not armed *)
| PProvision (trigger : string) (iteration : nat)
| PExit.                                 (* the deferred function *)

(** The trigger of the cycle a thread is in. *)
Definition cycle_trigger (trigger : string) (iteration : nat) : string := autoRestartCycle trigger (pred iteration).

Definition in_cycle (p : position) : bool :=
  match p with PCycle _ _ | PStop _ _ | PArm _ _ | PProvision _ _ => true | _ => false end.
Definition is_runner (p : position) : bool :=
  match p with PTop _ _ | PExit => true | _ => in_cycle p end.

(** A goroutine: its position, the entry coalesceRestart took hold of - it works
    on that pointer to its end - and the entry the map held when it came to its
    position.  The other functions load the entry themselves, before they wait
    for its mutex, so they work on that one or on a later one. *)
Record thread := Thread { at_ : position; captured : nat; arrived : nat }.

(** One restartState and its history: the requests coalesceRestart took in, in
    order; those each cycle served; the ones that wait. *)
Record object := Object {
  entry : restartState;
  requests : list nat;
  served : list (list nat);
  waiting : list nat
}.
Definition new_object : object := Object zero_state [] [] [].
Definition with_entry (s : restartState) (o : object) : object := Object s (requests o) (served o) (waiting o).

(** The machine: the clock; the entries of the workspace, oldest first, the last
    being the one a load finds (absent and all-zero entries behave alike, so the
    map is never empty here); the threads; and the automatic stops since the last
    reset. *)
Record machine := Machine {
  clock : time;
  objects : list object;
  threads : gmap nat thread;
  stops : list time
}.

Definition start (now : time) : machine := Machine now [new_object] ∅ [].

Definition newest (m : machine) : nat := pred (length (objects m)).
Definition object_at (m : machine) (g : nat) : object := default new_object (objects m !! g).
Definition entry_at (m : machine) (g : nat) : restartState := entry (object_at m g).

(** Thread [t] goes to [p], having left entry [g] as [o]. *)
Definition leave (m : machine) (g : nat) (o : object) (t held : nat) (p : option position) (st : list time) : machine :=
  Machine (clock m) (<[g := o]> (objects m))
          (partial_alter (fun _ => (fun p => Thread p held (newest m)) <$> p) t (threads m)) st.

Definition goto (m : machine) (g : nat) (s : restartState) (t held : nat) (p : option position) : machine :=
  leave m g (with_entry s (object_at m g)) t held p (stops m).

(** What happens next: the clock moves, a call arrives, an operator resets the
    breaker, a drain that saw the queue held since [since] and read [r] settles
    the hold, CascadeDelete takes the entry out of the map, or thread [t] runs its
    next section.  [g] is the entry that was loaded.  A section has the outcome it
    does not decide itself: a cycle that a filter ends, that panics, or that goes
    on; a stop that is declined. *)
Inductive outcome := Goes | Ends | Panics.
Inductive label :=
| LTick (now : time)
| LCall (t : nat) (p : position)
| LReset (g : nat)
| LHold (g : nat) (since : time) (r : ws_read)
| LDelete
| LRun (t g : nat) (o : outcome).

(** Where a call starts: AutoRestartByID, RestartByID, RestartByIDAfterMutation. *)
Definition call_starts (p : position) : bool :=
  match p with
  | PAutoDebounce tr => bool_decide (tr <> "")
  | PDebounce tr | PEnter tr => bool_decide (tr = "")
  | _ => false
  end.

Definition auto_halted (m : machine) (t h g : nat) (tr : string) : machine :=
  let (s, halted) := autoRestartHalted (clock m) (entry_at m g) in
  goto m g s t h (if halted then None else Some (PDebounce tr)).

(** coalesceRestart takes hold of entry [g]. *)
Definition enter (m : machine) (t g : nat) (tr : string) : machine :=
  let (s, runs) := coalesce_enter (clock m) (entry_at m g) in
  let o := object_at m g in
  leave m g (Object s (requests o ++ [t]) (served o) (waiting o ++ [t])) t g
        (if runs then Some (PTop tr 0) else None) (stops m).

Definition top (m : machine) (t h : nat) (tr : string) (i : nat) : machine :=
  let o := object_at m h in
  match drain_top (clock m) i (entry o) with
  | None => goto m h (entry o) t h (Some PExit)
  | Some s => leave m h (Object s (requests o) (served o ++ [waiting o]) []) t h (Some (PCycle tr (S i))) (stops m)
  end.

Definition breaker (m : machine) (t h g : nat) (tr : string) (i : nat) : machine :=
  if decide (cycle_trigger tr i = "") then goto m g (entry_at m g) t h (Some (PStop tr i))
  else let (s, halted) := autoRestartHalted (clock m) (entry_at m g) in
       goto m g s t h (Some (if halted then PTop tr i else PStop tr i)).

Definition stopped (m : machine) (t h g : nat) (tr : string) (i : nat) : machine :=
  if decide (cycle_trigger tr i = "") then goto m g (entry_at m g) t h (Some (PProvision tr i))
  else leave m g (with_entry (recordAutoRestart (clock m) (entry_at m g)) (object_at m g)) t h (Some (PArm tr i))
             (stops m ++ [clock m]).

(** One section of thread [t], which holds entry [h] if it is a runner and has
    loaded entry [g]. *)
Definition run_section (m : machine) (t h g : nat) (p : position) (o : outcome) : machine :=
  let stay := entry_at m g in
  match p, o with
  | PAutoDebounce tr, _ =>
      goto m g stay t h (Some (if shouldDebounceRestart (clock m) stay then PDebounce tr else PAutoHalted tr))
  | PAutoHalted tr, _ => auto_halted m t h g tr
  | PDebounce tr, _ =>
      goto m g stay t h (if shouldDebounceRestart (clock m) stay then None else Some (PEnter tr))
  | PEnter tr, _ => enter m t g tr
  | PTop tr i, _ => top m t h tr i
  | PExit, _ => goto m h (clear_running (entry_at m h)) t h None
  | PCycle tr i, Goes => breaker m t h g tr i
  | PStop tr i, Goes => stopped m t h g tr i
  | PArm tr i, (Goes | Ends) => goto m g (armRestartQueueHold (clock m) stay) t h (Some (PProvision tr i))
  | PCycle tr i, Ends | PStop tr i, Ends => goto m g stay t h (Some (PTop tr i))
  | PProvision tr i, (Goes | Ends) => goto m g stay t h (Some (PTop tr i))
  | (PCycle _ _ | PStop _ _ | PArm _ _ | PProvision _ _), Panics => goto m g stay t h (Some PExit)
  end.

(** An entry changed by a call that is not one of the threads. *)
Definition touch (m : machine) (g : nat) (s : restartState) (st : list time) : machine :=
  Machine (clock m) (<[g := with_entry s (object_at m g)]> (objects m)) (threads m) st.

(** restartStates.Delete at the end of CascadeDelete: the next load creates a
    new entry; whoever holds the old one keeps it. *)
Definition delete_entry (m : machine) : machine :=
  Machine (clock m) (objects m ++ [new_object]) (threads m) (stops m).

Definition exec (m : machine) (l : label) : option machine :=
  match l with
  | LTick now => if clock m <=? now then Some (Machine now (objects m) (threads m) (stops m)) else None
  | LCall t p => if bool_decide (threads m !! t = None) && call_starts p
                 then Some (goto m (newest m) (entry_at m (newest m)) t (newest m) (Some p)) else None
  | LReset g => if decide (g <= newest m)%nat then Some (touch m g (resetAutoRestarts (entry_at m g)) []) else None
  | LHold g since r => if decide (g <= newest m)%nat
                       then Some (touch m g (hold_settle since r (entry_at m g)).1 (stops m)) else None
  | LDelete => Some (delete_entry m)
  | LRun t g o => match threads m !! t with
                  | Some th => if decide (arrived th <= g <= newest m)%nat
                               then Some (run_section m t (captured th) g (at_ th) o) else None
                  | None => None
                  end
  end.

Definition mstep (m m' : machine) : Prop := exists l, exec m l = Some m'.

Fixpoint execs (m : machine) (ls : list label) : option machine :=
  match ls with [] => Some m | l :: ls' => match exec m l with Some m' => execs m' ls' | None => None end end.

Lemma execs_rtc ls m m' : execs m ls = Some m' -> rtc mstep m m'.
Proof.
  revert m. induction ls as [|l ls IH]; simpl; intros m H; [simplify_eq; apply rtc_refl|].
  destruct (exec m l) as [m1|] eqn:Hl; [|done]. eapply rtc_l; [by exists l|eauto].
Qed.

(** ** One runner per entry *)

(** Whether a thread is a runner of entry [g]. *)
Definition runs_on (g : nat) (x : option thread) : bool :=
  match x with Some th => is_runner (at_ th) && bool_decide (captured th = g) | None => false end.

Definition excl (r : bool) (g : nat) (ths : gmap nat thread) : Prop :=
  if r then exists t, forall t', runs_on g (ths !! t') = true <-> t' = t
  else forall t', runs_on g (ths !! t') = false.

Lemma runs_on_alter g (ths : gmap nat thread) t (x : option thread) t' :
  runs_on g (partial_alter (fun _ => x) t ths !! t') = if decide (t' = t) then runs_on g x else runs_on g (ths !! t').
Proof. case_decide; subst; [by rewrite lookup_partial_alter_eq|by rewrite lookup_partial_alter_ne]. Qed.

Lemma excl_same r g ths t x :
  runs_on g x = runs_on g (ths !! t) -> excl r g ths -> excl r g (partial_alter (fun _ => x) t ths).
Proof.
  intros Hp. assert (Hx : forall t', runs_on g (partial_alter (fun _ => x) t ths !! t') = runs_on g (ths !! t')).
  { intros t'. rewrite runs_on_alter. case_decide; subst; auto. }
  destruct r; simpl; [intros [t0 H]; exists t0|intros H]; intros t'; by rewrite Hx.
Qed.

Lemma excl_enter g ths t x : runs_on g x = true -> excl false g ths -> excl true g (partial_alter (fun _ => x) t ths).
Proof.
  intros Hp H. exists t. intros t'. rewrite runs_on_alter. case_decide; simpl; [by rewrite Hp|]. by rewrite H.
Qed.

Lemma excl_exit r g ths t : runs_on g (ths !! t) = true -> excl r g ths -> excl false g (partial_alter (fun _ => None) t ths).
Proof.
  intros Ht H t'. rewrite runs_on_alter. case_decide as Hd; [done|]. destruct r; simpl in H.
  - destruct H as [t0 H]. apply not_true_iff_false. intros Ht'%H. apply H in Ht. congruence.
  - by rewrite H in Ht.
Qed.

Lemma excl_unique r g ths t1 t2 : excl r g ths -> runs_on g (ths !! t1) = true -> runs_on g (ths !! t2) = true -> t1 = t2.
Proof.
  destruct r; simpl; [intros [t H] H1%H H2%H; congruence|]. intros H H1. by rewrite H in H1.
Qed.

(** ** Requests and cycles *)

Record object_inv (ths : gmap nat thread) (g : nat) (o : object) : Prop := ObjectInv {
  oi_excl : excl (running (entry o)) g ths;
  oi_pending : pending (entry o) = true <-> waiting o <> [];
  oi_requests : requests o = concat (served o) ++ waiting o;
  oi_batches : Forall (fun b => b <> []) (served o)
}.

Record served_inv (m : machine) : Prop := ServedInv {
  si_objects : forall g o, objects m !! g = Some o -> object_inv (threads m) g o;
  si_threads : forall t th, threads m !! t = Some th -> (captured th <= newest m)%nat /\ (arrived th <= newest m)%nat;
  si_some : objects m <> []
}.

Lemma newest_lt m : served_inv m -> (newest m < length (objects m))%nat.
Proof. intros [_ _ H]. unfold newest. destruct (objects m); [done|simpl; lia]. Qed.

Lemma object_at_lookup m g : served_inv m -> (g <= newest m)%nat -> objects m !! g = Some (object_at m g).
Proof.
  intros Hi Hg. pose proof (newest_lt m Hi). destruct (lookup_lt_is_Some_2 (objects m) g) as [o Ho]; [lia|].
  unfold object_at. by rewrite Ho.
Qed.

Lemma served_inv_leave m g o t h p st :
  served_inv m -> (g <= newest m)%nat -> (h <= newest m)%nat ->
  object_inv (threads (leave m g o t h p st)) g o ->
  (forall g', g' <> g -> runs_on g' ((fun p => Thread p h (newest m)) <$> p) = runs_on g' (threads m !! t)) ->
  served_inv (leave m g o t h p st).
Proof.
  intros Hi Hg Hh Ho Hr. pose proof (newest_lt m Hi). constructor.
  - intros g' o' Hg'. cbn [objects leave] in Hg'. destruct (decide (g' = g)) as [->|Hne].
    + rewrite list_lookup_insert_eq in Hg' by lia. by simplify_eq.
    + rewrite list_lookup_insert_ne in Hg' by done. destruct (si_objects _ Hi _ _ Hg') as [He ? ? ?].
      constructor; auto. apply excl_same; auto.
  - intros t' th. unfold newest, leave. simpl. rewrite length_insert. fold (newest m).
    destruct (decide (t' = t)) as [->|Hne].
    + rewrite lookup_partial_alter_eq. destruct p; [|done]. by intros [= <-].
    + rewrite lookup_partial_alter_ne by done. apply Hi.
  - simpl. intros He. apply (f_equal length) in He. rewrite length_insert in He. simpl in He. lia.
Qed.

(** A section that leaves running, pending and the requests of its entry alone,
    and the thread the runner, or not the runner, it was. *)
Lemma served_inv_goto m g s t h p st :
  served_inv m -> (g <= newest m)%nat -> (h <= newest m)%nat ->
  running s = running (entry_at m g) -> pending s = pending (entry_at m g) ->
  (forall g', runs_on g' ((fun p => Thread p h (newest m)) <$> p) = runs_on g' (threads m !! t)) ->
  served_inv (leave m g (with_entry s (object_at m g)) t h p st).
Proof.
  intros Hi Hg Hh Hrun Hpend Hp. apply served_inv_leave; auto.
  destruct (si_objects _ Hi _ _ (object_at_lookup _ _ Hi Hg)) as [He Hw Hr Hb]. unfold entry_at in *.
  constructor; simpl; auto; [rewrite Hrun; by apply excl_same|by rewrite Hpend].
Qed.

Lemma served_inv_enter m t g a tr h :
  served_inv m -> (g <= newest m)%nat -> threads m !! t = Some (Thread (PEnter tr) h a) -> served_inv (enter m t g tr).
Proof.
  intros Hi Hg Ht. destruct (si_objects _ Hi _ _ (object_at_lookup _ _ Hi Hg)) as [He Hw Hr Hb].
  unfold enter, coalesce_enter, entry_at. destruct (running (entry (object_at m g))) eqn:Hrun.
  - apply served_inv_leave; auto; [|by rewrite Ht].
    constructor; simpl; auto; [apply (excl_same true); [by rewrite Ht|done]|split; [by destruct (waiting _)|done]|].
    by rewrite Hr, app_assoc.
  - apply served_inv_leave; auto.
    + constructor; simpl; auto; [|split; [by destruct (waiting _)|done]|by rewrite Hr, app_assoc].
      apply (excl_enter g (threads m)); [|done]. simpl. by rewrite bool_decide_eq_true_2.
    + intros g' Hne. rewrite Ht. simpl. by rewrite bool_decide_eq_false_2.
Qed.

Lemma served_inv_top m t h a tr i :
  served_inv m -> threads m !! t = Some (Thread (PTop tr i) h a) -> served_inv (top m t h tr i).
Proof.
  intros Hi Ht. destruct (si_threads _ Hi _ _ Ht) as [Hh _]. simpl in Hh.
  destruct (si_objects _ Hi _ _ (object_at_lookup _ _ Hi Hh)) as [He Hw Hr Hb].
  unfold top, drain_top. destruct (pending (entry (object_at m h))) eqn:Hpend.
  - apply served_inv_leave; auto; [|by rewrite Ht]. constructor; simpl.
    + apply excl_same; [by rewrite Ht|done].
    + done.
    + rewrite Hr, concat_app. simpl. by rewrite !app_nil_r.
    + apply Forall_app. split; [done|]. constructor; [by apply Hw|done].
  - apply served_inv_goto; auto. by rewrite Ht.
Qed.

Lemma served_inv_exit m t h a :
  served_inv m -> threads m !! t = Some (Thread PExit h a) -> served_inv (goto m h (clear_running (entry_at m h)) t h None).
Proof.
  intros Hi Ht. destruct (si_threads _ Hi _ _ Ht) as [Hh _]. simpl in Hh.
  destruct (si_objects _ Hi _ _ (object_at_lookup _ _ Hi Hh)) as [He Hw Hr Hb]. apply served_inv_leave; auto.
  - constructor; simpl; auto. eapply excl_exit; [rewrite Ht; simpl; by rewrite bool_decide_eq_true_2|exact He].
  - intros g' Hne. rewrite Ht. simpl. by rewrite bool_decide_eq_false_2.
Qed.

Lemma served_inv_section m t th g o :
  served_inv m -> threads m !! t = Some th -> (g <= newest m)%nat ->
  served_inv (run_section m t (captured th) g (at_ th) o).
Proof.
  intros Hi Ht Hg. destruct (si_threads _ Hi _ _ Ht) as [Hh _]. destruct th as [p h a]. simpl in *.
  destruct p; simpl; try (by eapply served_inv_enter); try (by eapply served_inv_top); try (by eapply served_inv_exit).
  all: try (destruct o; simpl).
  all: unfold auto_halted, breaker, stopped, autoRestartHalted; repeat case_match;
    apply served_inv_goto; auto; intros g'; rewrite Ht; by repeat case_match.
Qed.

Lemma hold_settle_keeps since r s : let s' := (hold_settle since r s).1 in
  running s' = running s /\ pending s' = pending s /\
  autoRestarts s' = autoRestarts s /\ autoRestartsHalted s' = autoRestartsHalted s.
Proof. unfold hold_settle. simpl. by repeat case_match. Qed.

Lemma served_inv_touch m g s st :
  served_inv m -> (g <= newest m)%nat -> running s = running (entry_at m g) -> pending s = pending (entry_at m g) ->
  served_inv (touch m g s st).
Proof.
  intros Hi Hg Hrun Hpend. pose proof (newest_lt m Hi). constructor.
  - intros g' o Hg'. simpl in *. destruct (decide (g' = g)) as [->|Hne].
    + rewrite list_lookup_insert_eq in Hg' by lia. simplify_eq.
      destruct (si_objects _ Hi _ _ (object_at_lookup _ _ Hi Hg)) as [He Hw Hr Hb]. unfold entry_at in *.
      constructor; simpl; rewrite ?Hrun, ?Hpend; auto.
    + rewrite list_lookup_insert_ne in Hg' by done. by apply Hi.
  - intros t th. unfold newest, touch. simpl. rewrite length_insert. apply Hi.
  - simpl. intros He. apply (f_equal length) in He. rewrite length_insert in He. simpl in He. lia.
Qed.

Lemma served_inv_delete m : served_inv m -> served_inv (delete_entry m).
Proof.
  intros Hi. pose proof (newest_lt m Hi) as Hn. constructor; simpl.
  - intros g o [Hg|[Hg Hl]]%lookup_app_Some; [by apply Hi|]. apply list_lookup_singleton_Some in Hl as [Hl <-].
    constructor; simpl; [|by split|done|constructor].
    intros t. destruct (threads m !! t) as [th|] eqn:Ht; [|done]. simpl.
    rewrite (bool_decide_eq_false_2 (captured th = g)); [apply andb_false_r|].
    pose proof (si_threads _ Hi _ _ Ht). lia.
  - intros t th Ht. pose proof (si_threads _ Hi _ _ Ht). unfold newest in *. simpl. rewrite length_app. simpl. lia.
  - by destruct (objects m).
Qed.

Lemma served_inv_exec m l m' : served_inv m -> exec m l = Some m' -> served_inv m'.
Proof.
  intros Hi. destruct l as [now|t p|g|g since r| |t g o]; simpl; intros Hl.
  - case_match; simplify_eq. by destruct Hi.
  - case_match; simplify_eq. b2p. apply served_inv_goto; auto.
    match goal with H : threads m !! t = None |- _ => rewrite H end. by destruct p.
  - case_decide; simplify_eq. by apply served_inv_touch.
  - case_decide; simplify_eq. by apply served_inv_touch; try apply hold_settle_keeps.
  - simplify_eq. by apply served_inv_delete.
  - destruct (threads m !! t) as [th|] eqn:Ht; [|done]. case_decide; simplify_eq. apply served_inv_section; auto. lia.
Qed.

Lemma served_inv_start now : served_inv (start now).
Proof.
  constructor; simpl; [|intros t th; by rewrite lookup_empty|done].
  intros [|g] o Ho; simplify_eq/=. by constructor.
Qed.

Lemma reachable_served now m : rtc mstep (start now) m -> served_inv m.
Proof. intros H. eapply rtc_invariant; [|apply served_inv_start|exact H]. intros s s' Hs [l Hl]. by eapply served_inv_exec. Qed.

(** C12: coalescing. However the callers of one workspace interleave, deletes of the workspace
    included, for each restartState the map has held: the requests coalesceRestart took on it are, in
    order, the ones its cycles have served followed by the ones still waiting, so each is served at
    most once and by a cycle that began after it; no cycle is run for nobody, so N requests cost at
    most N cycles; a request waits exactly while the pending flag is set; it never has a second
    runner, so its cycles never overlap, and while it has one it says so. Two runners at once
    therefore hold different entries: a delete took the first one's out of the map. At the top of the
    drain loop the runner's next section takes everything that waits. *)
Theorem requests_are_coalesced now m (Hreach : rtc mstep (start now) m) :
  (forall g o, objects m !! g = Some o ->
     requests o = concat (served o) ++ waiting o /\ (length (served o) <= length (requests o))%nat /\
     (pending (entry o) = true <-> waiting o <> [])) /\
  (forall t1 t2 th1 th2, threads m !! t1 = Some th1 -> threads m !! t2 = Some th2 ->
     is_runner (at_ th1) = true -> is_runner (at_ th2) = true ->
     t1 = t2 \/ (captured th1 <> captured th2 /\ (1 < length (objects m))%nat)) /\
  (forall t th, threads m !! t = Some th -> is_runner (at_ th) = true ->
     exists o, objects m !! captured th = Some o /\ isRestarting (entry o) = true) /\
  (forall t h a tr i out o, threads m !! t = Some (Thread (PTop tr i) h a) ->
     objects m !! h = Some o -> waiting o <> [] ->
     exists m' o', exec m (LRun t a out) = Some m' /\ objects m' !! h = Some o' /\
       served o' = served o ++ [waiting o] /\ waiting o' = []).
Proof.
  pose proof (reachable_served _ _ Hreach) as Hi. pose proof (newest_lt m Hi) as Hn.
  assert (Hrun : forall t th, threads m !! t = Some th -> is_runner (at_ th) = true -> runs_on (captured th) (threads m !! t) = true).
  { intros t th Ht Hr. rewrite Ht. simpl. by rewrite Hr, bool_decide_eq_true_2. }
  split_and!.
  - intros g o Ho. destruct (si_objects _ Hi _ _ Ho) as [He Hp Hr Hb]. split; [done|]. split; [|done].
    rewrite Hr, length_app. clear -Hb. induction Hb as [|b l Hb0 Hb IH]; simpl in *; [lia|].
    rewrite length_app. destruct b; [done|simpl; lia].
  - intros t1 t2 th1 th2 H1 H2 R1 R2. destruct (decide (captured th1 = captured th2)) as [Heq|Hne].
    + left. pose proof (object_at_lookup _ _ Hi (proj1 (si_threads _ Hi _ _ H1))) as Ho.
      eapply excl_unique; [exact (oi_excl _ _ _ (si_objects _ Hi _ _ Ho))|by apply Hrun|]. rewrite Heq. by apply Hrun.
    + right. split; [done|]. pose proof (si_threads _ Hi _ _ H1). pose proof (si_threads _ Hi _ _ H2). unfold newest in *. lia.
  - intros t th Ht R. pose proof (object_at_lookup _ _ Hi (proj1 (si_threads _ Hi _ _ Ht))) as Ho. eexists. split; [exact Ho|].
    unfold isRestarting. pose proof (oi_excl _ _ _ (si_objects _ Hi _ _ Ho)) as He.
    destruct (running _); [done|]. specialize (He t). rewrite (Hrun _ _ Ht R) in He. done.
  - intros t h a tr i out o Ht Ho Hw. destruct (si_threads _ Hi _ _ Ht) as [_ Ha]. simpl in Ha. exists (top m t h tr i). unfold exec. rewrite Ht. simpl.
    rewrite decide_True by lia. unfold top, drain_top, object_at. rewrite Ho. simpl.
    rewrite (proj2 (oi_pending _ _ _ (si_objects _ Hi _ _ Ho)) Hw).
    eexists. split_and!; [done|simpl; apply list_lookup_insert_eq; by eapply lookup_lt_Some|done|done].
Qed.

(** ** The crash-loop breaker, while the workspace is not deleted *)

Definition kept_step (m m' : machine) : Prop := exists l, l <> LDelete /\ exec m l = Some m'.

(** The automatic stops within the window that ends at [t]. *)
Definition in_window (t a : time) : bool := recent t a && (a <=? t).
Definition stops_in (t : time) (l : list time) : list time := filter (fun a => in_window t a = true) l.
Definition recents (t : time) (l : list time) : list time := filter (fun a => recent t a = true) l.

(** There is one entry; [s] is what it holds. *)
Record breaker_inv (s : restartState) (m : machine) : Prop := BreakerInv {
  bi_one : newest m = 0%nat /\ s = entry_at m 0;
  bi_past : Forall (fun a => a <= clock m) (stops m);
  bi_agree : forall t, clock m <= t -> recents t (stops m) = recents t (autoRestarts s);
  bi_passed : forall t th tr i, threads m !! t = Some th -> at_ th = PStop tr i -> cycle_trigger tr i <> "" ->
    (length (autoRestarts s) < autoRestartLimit)%nat /\ autoRestartsHalted s = false;
  bi_window : forall t, (length (stops_in t (stops m)) <= autoRestartLimit)%nat
}.

Lemma recents_recents t u l : u <= t -> recents t (recents u l) = recents t l.
Proof.
  intros Hle. unfold recents. induction l as [|a l IH]; [done|]. rewrite !filter_cons.
  destruct (decide (recent u a = true)) as [Hu|Hu]; [rewrite filter_cons; by rewrite IH|].
  rewrite IH, decide_False; [done|]. unfold recent in *. intros H. apply Hu. b2p. apply Z.ltb_lt. lia.
Qed.

Lemma stops_in_recents t l : Forall (fun a => a <= t) l -> stops_in t l = recents t l.
Proof.
  induction 1 as [|a l Ha Hl IH]; [done|]. unfold stops_in, recents in *. rewrite !filter_cons, IH. unfold in_window.
  assert ((a <=? t) = true) as -> by lia. by rewrite andb_true_r.
Qed.

Lemma leave_one m g o t h p st :
  served_inv m -> newest m = 0%nat -> g = 0%nat ->
  newest (leave m g o t h p st) = 0%nat /\ entry o = entry_at (leave m g o t h p st) 0.
Proof.
  intros Hi Hn ->. pose proof (newest_lt m Hi). unfold newest, entry_at, object_at, leave in *. simpl.
  rewrite length_insert, list_lookup_insert_eq by lia. done.
Qed.

Lemma breaker_inv_leave m s o t h p :
  served_inv m -> breaker_inv s m ->
  (forall u, clock m <= u -> recents u (autoRestarts (entry o)) = recents u (autoRestarts s)) ->
  (length (autoRestarts (entry o)) <= length (autoRestarts s))%nat ->
  (autoRestartsHalted (entry o) = autoRestartsHalted s \/
     (forall t th tr i, threads m !! t = Some th -> at_ th = PStop tr i -> cycle_trigger tr i <> "" ->
        autoRestartsHalted (entry o) = false)) ->
  (forall tr i, p = Some (PStop tr i) -> cycle_trigger tr i <> "" ->
     (length (autoRestarts (entry o)) < autoRestartLimit)%nat /\ autoRestartsHalted (entry o) = false) ->
  breaker_inv (entry o) (leave m 0 o t h p (stops m)).
Proof.
  intros Hs [[Hone ->] Hpast Hag Hpass Hwin] Hrec Hlen Hhalt Hp. constructor; simpl; auto.
  - by apply leave_one.
  - intros u Hu. rewrite Hrec, Hag; auto.
  - intros t' th tr i Ht' Hat Htr. destruct (decide (t' = t)) as [->|Hne].
    + rewrite lookup_partial_alter_eq in Ht'. destruct p; [|done]. simplify_eq/=. eauto.
    + rewrite lookup_partial_alter_ne in Ht' by done. destruct (Hpass _ _ _ _ Ht' Hat Htr) as [? Hh]. split; [lia|].
      destruct Hhalt as [->|Hhalt]; eauto.
Qed.

(** A section that leaves the breaker's fields alone. *)
Lemma breaker_inv_goto m s s' t h p :
  served_inv m -> breaker_inv s m -> autoRestarts s' = autoRestarts s -> autoRestartsHalted s' = autoRestartsHalted s ->
  (forall tr i, p = Some (PStop tr i) -> cycle_trigger tr i <> "" -> False) ->
  exists s1, breaker_inv s1 (goto m 0 s' t h p).
Proof.
  intros Hs Hi Ha Hh Hp. exists s'. apply (breaker_inv_leave m s (with_entry s' (object_at m 0)) t h p); simpl; auto.
  - by rewrite Ha.
  - by rewrite Ha.
  - intros tr i E1 E2. by destruct (Hp tr i).
Qed.

Lemma breaker_inv_enter m s t tr : served_inv m -> breaker_inv s m -> exists s1, breaker_inv s1 (enter m t 0 tr).
Proof.
  intros Hs Hi. unfold enter. destruct (coalesce_enter _ _) as [s' runs] eqn:Hc. exists s'.
  destruct (bi_one _ _ Hi) as [_ E]. rewrite <-E in Hc. unfold coalesce_enter in Hc.
  case_match; injection Hc as <- <-; apply (breaker_inv_leave m s (Object _ _ _ _)); simpl; auto; by intros ? ? [=].
Qed.

Lemma breaker_inv_top m s t tr i : served_inv m -> breaker_inv s m -> exists s1, breaker_inv s1 (top m t 0 tr i).
Proof.
  intros Hs Hi. destruct (bi_one _ _ Hi) as [_ E]. unfold top. fold (entry_at m 0). rewrite <-E.
  destruct (drain_top _ _ _) as [s'|] eqn:Hd.
  - unfold drain_top in Hd. case_match; simplify_eq. eexists.
    apply (breaker_inv_leave m (entry_at m 0) (Object _ _ _ _)); simpl; auto; by intros ? ? [=].
  - eapply breaker_inv_goto; eauto. by intros ? ? [=].
Qed.

(** The breaker's check, wherever it is made. *)
Lemma breaker_inv_check m s t h p :
  served_inv m -> breaker_inv s m ->
  (forall tr i, p (autoRestartHalted (clock m) s).2 = Some (PStop tr i) -> (autoRestartHalted (clock m) s).2 = false) ->
  exists s1, breaker_inv s1 (goto m 0 (autoRestartHalted (clock m) s).1 t h (p (autoRestartHalted (clock m) s).2)).
Proof.
  intros Hs Hi Hp. exists (autoRestartHalted (clock m) s).1. unfold autoRestartHalted in *. cbn [fst snd] in *.
  fold (recents (clock m) (autoRestarts s)) in *.
  apply (breaker_inv_leave m s (with_entry _ (object_at m 0))); simpl; auto.
  - intros u Hu. by apply recents_recents.
  - apply length_filter.
  - right. intros t' th tr i Ht' Hat Htr. destruct (bi_passed _ _ Hi _ _ _ _ Ht' Hat Htr) as [Hlen Hh].
    rewrite decide_False; [done|]. pose proof (length_filter (fun a => recent (clock m) a = true) (autoRestarts s)).
    unfold recents. lia.
  - intros tr i Heq _. specialize (Hp _ _ Heq). case_decide; [done|]. split; [lia|done].
Qed.

Lemma breaker_inv_record m s t th tr i :
  served_inv m -> breaker_inv s m -> threads m !! t = Some th -> at_ th = PStop tr i ->
  exists s1, breaker_inv s1 (stopped m t (captured th) 0 tr i).
Proof.
  intros Hs Hi Ht Hat. destruct (bi_one _ _ Hi) as [Hone E]. unfold stopped. rewrite <-E.
  case_decide as Htr; [by eapply breaker_inv_goto|].
  destruct (bi_passed _ _ Hi _ _ _ _ Ht Hat Htr) as [Hlen Hh]. destruct Hi as [_ Hpast Hag Hpass Hwin].
  exists (recordAutoRestart (clock m) s). constructor; simpl.
  - by apply leave_one.
  - apply Forall_app. split; [done|]. constructor; [lia|done].
  - intros u Hu. unfold recents in *. by rewrite !filter_app, Hag.
  - intros t' th' tr' i' Ht' Hat' Htr'. exfalso. destruct (decide (t' = t)) as [->|Hne].
    { rewrite lookup_partial_alter_eq in Ht'. by simplify_eq/=. }
    rewrite lookup_partial_alter_ne in Ht' by done. apply Hne.
    destruct (si_threads _ Hs _ _ Ht) as [Hc _], (si_threads _ Hs _ _ Ht') as [Hc' _]. rewrite Hone in Hc, Hc'.
    eapply (excl_unique _ 0); [exact (oi_excl _ _ _ (si_objects _ Hs _ _ (object_at_lookup m 0 Hs ltac:(lia))))| |].
    + rewrite Ht'. simpl. rewrite Hat', bool_decide_eq_true_2 by lia. done.
    + rewrite Ht. simpl. rewrite Hat, bool_decide_eq_true_2 by lia. done.
  - intros u. unfold stops_in. rewrite filter_app, length_app. fold (stops_in u (stops m)).
    destruct (decide (clock m <= u)) as [Hu|Hu].
    + rewrite stops_in_recents by (eapply Forall_impl; [exact Hpast|simpl; lia]). rewrite Hag by done.
      pose proof (length_filter (fun a => recent u a = true) (autoRestarts s)).
      pose proof (length_filter (fun a => in_window u a = true) [clock m]). simpl in *. unfold recents. lia.
    + rewrite filter_cons, decide_False; [simpl; specialize (Hwin u); lia|].
      unfold in_window. intros H. b2p. lia.
Qed.

Lemma touch_one m s st : served_inv m -> newest m = 0%nat -> newest (touch m 0 s st) = 0%nat /\ s = entry_at (touch m 0 s st) 0.
Proof.
  intros Hi Hn. pose proof (newest_lt m Hi). unfold newest, entry_at, object_at, touch in *. simpl.
  rewrite length_insert, list_lookup_insert_eq by lia. done.
Qed.

Lemma breaker_inv_run m s t th g o :
  served_inv m -> breaker_inv s m -> threads m !! t = Some th -> (g <= newest m)%nat ->
  exists s1, breaker_inv s1 (run_section m t (captured th) g (at_ th) o).
Proof.
  intros Hs Hi Ht Hg. destruct (bi_one _ _ Hi) as [Hone E]. assert (g = 0%nat) as -> by lia.
  destruct (si_threads _ Hs _ _ Ht) as [Hc _]. pose proof (breaker_inv_record m s t th) as Hrecord.
  rewrite Hone in Hc. assert (captured th = 0%nat) as Hh by lia. rewrite Hh in *.
  destruct (at_ th) eqn:Hat; simpl; rewrite <-?E.
  all: try (unfold auto_halted; rewrite <-E;
    apply (breaker_inv_check m s t 0 (fun b : bool => if b then None else Some (PDebounce trigger))); [done..|by case_match]).
  all: try (by apply (breaker_inv_enter m s)).
  all: try (by apply (breaker_inv_top m s)).
  all: try destruct o; try (by eapply Hrecord).
  all: try (unfold breaker; rewrite <-E; case_decide as Htr; [|
    apply (breaker_inv_check m s t 0 (fun b : bool => Some (if b then PTop trigger iteration else PStop trigger iteration)));
      [done..|by intros tr i'; case_match]]).
  all: eapply breaker_inv_goto; eauto; intros ? ? Heq; revert Heq; repeat case_match; by intros [= <- <-].
Qed.

Lemma breaker_inv_exec m l m' s :
  served_inv m -> breaker_inv s m -> l <> LDelete -> exec m l = Some m' -> exists s', breaker_inv s' m'.
Proof.
  intros Hs Hi Hl He. destruct (bi_one _ _ Hi) as [Hone E].
  destruct l as [now|t p|g|g since r| |t g o]; simpl in He; try done.
  - case_match; simplify_eq. b2p. exists (entry_at m 0). destruct Hi as [_ Hpast Hag Hpass Hwin]. constructor; simpl; auto.
    + eapply Forall_impl; [exact Hpast|simpl; lia].
    + intros u Hu. apply Hag. lia.
  - case_match; simplify_eq. b2p. rewrite Hone. eapply breaker_inv_goto; eauto. intros tr i [= ->] _. by simpl in *.
  - case_decide; simplify_eq. assert (g = 0%nat) as -> by lia. exists (resetAutoRestarts (entry_at m 0)). constructor; simpl; auto.
    + by apply touch_one.
    + intros. split; [unfold autoRestartLimit; lia|done].
    + intros u. unfold stops_in, autoRestartLimit. simpl. lia.
  - case_decide; simplify_eq. assert (g = 0%nat) as -> by lia.
    exists (hold_settle since r (entry_at m 0)).1. destruct (hold_settle_keeps since r (entry_at m 0)) as (_ & _ & Ha & Hh).
    destruct Hi as [_ Hpast Hag Hpass Hwin]. constructor; simpl; rewrite ?Ha, ?Hh; auto. by apply touch_one.
  - destruct (threads m !! t) as [th|] eqn:Ht; [|done]. case_decide; simplify_eq. eapply breaker_inv_run; eauto. lia.
Qed.

Lemma breaker_inv_start now : breaker_inv zero_state (start now).
Proof.
  constructor; simpl; [done|constructor|done|intros t th tr i; by rewrite lookup_empty|].
  intros u. unfold stops_in, autoRestartLimit. simpl. lia.
Qed.

Lemma kept_inv now m : rtc kept_step (start now) m -> served_inv m /\ exists s, breaker_inv s m.
Proof.
  apply (rtc_invariant kept_step (fun m => served_inv m /\ exists s, breaker_inv s m)).
  - intros m1 m2 [Hs [s Hb]] (l & Hl & He). split; [by eapply served_inv_exec|by eapply breaker_inv_exec].
  - split; [apply served_inv_start|exists zero_state; apply breaker_inv_start].
Qed.

(** A tripped breaker through one section. *)
Lemma halted_run m s t th o :
  served_inv m -> breaker_inv s m -> autoRestartsHalted s = true -> threads m !! t = Some th ->
  let m' := run_section m t (captured th) 0 (at_ th) o in
  autoRestartsHalted (entry_at m' 0) = true /\ stops m' = stops m.
Proof.
  intros Hs Hi Hh Ht. destruct (bi_one _ _ Hi) as [Hone E].
  assert (captured th = 0%nat) as Hc by (destruct (si_threads _ Hs _ _ Ht); lia).
  assert (Hl : forall o h p, autoRestartsHalted (entry o) = true ->
    autoRestartsHalted (entry_at (leave m 0 o t h p (stops m)) 0) = true /\ stops (leave m 0 o t h p (stops m)) = stops m).
  { intros o' h p Ho. rewrite <-(proj2 (leave_one m 0 o' t h p (stops m) Hs Hone eq_refl)). done. }
  destruct (at_ th) eqn:Hat; rewrite Hc; destruct o; simpl.
  all: unfold auto_halted, enter, coalesce_enter, top, drain_top, breaker, autoRestartHalted;
    fold (entry_at m 0); rewrite <-?E; repeat case_match; simplify_eq/=; try (apply Hl; simpl; rewrite <-?E; try done; by case_decide).
  all: unfold stopped; rewrite <-?E; case_decide as Htr; [apply Hl; simpl; by rewrite <-?E|];
    destruct (bi_passed _ _ Hi _ _ _ _ Ht Hat Htr); congruence.
Qed.

(** The crash-loop budget. Whatever the automatic recovery paths, user and mutation restarts,
    declines, panics and drains do between two operator resets, the automatic restarts that stopped
    a container never number more than three in any half hour, as long as the workspace is not
    deleted; and once the breaker has tripped it stays tripped, and no automatic restart stops a
    container, until the next reset. *)
Theorem auto_restart_budget now m (Hreach : rtc kept_step (start now) m) :
  (forall t, (length (stops_in t (stops m)) <= 3)%nat) /\
  (forall l m', autoRestartsHalted (entry_at m 0) = true -> l <> LDelete -> exec m l = Some m' ->
     (exists g, l = LReset g) \/ (autoRestartsHalted (entry_at m' 0) = true /\ stops m' = stops m)).
Proof.
  destruct (kept_inv _ _ Hreach) as [Hs [s Hb]]. split; [apply Hb|]. intros l m' Hh Hl He.
  destruct (bi_one _ _ Hb) as [Hone E]. rewrite <-E in Hh.
  assert (Hgo : forall s' t h p, autoRestartsHalted s' = true ->
    autoRestartsHalted (entry_at (goto m 0 s' t h p) 0) = true /\ stops (goto m 0 s' t h p) = stops m).
  { intros s' t h p Hs'. unfold goto. rewrite <-(proj2 (leave_one m 0 _ t h p (stops m) Hs Hone eq_refl)). done. }
  destruct l as [now'|t p|g|g since r| |t g o]; simpl in He; try done; [| |left; eauto| |].
  - right. case_match; simplify_eq. done.
  - right. case_match; simplify_eq. rewrite Hone. by apply Hgo.
  - right. case_decide; simplify_eq. assert (g = 0%nat) as -> by lia.
    rewrite <-(proj2 (touch_one m _ (stops m) Hs Hone)). split; [|done].
    destruct (hold_settle_keeps since r (entry_at m 0)) as (_ & _ & _ & ->). done.
  - right. destruct (threads m !! t) as [th|] eqn:Ht; [|done]. case_decide; simplify_eq. assert (g = 0%nat) as -> by lia.
    by apply (halted_run m (entry_at m 0) t th o Hs Hb).
Qed.

(** ** Requests that are never served *)

(** The runner has seen an empty flag and not yet cleared [running] when
    request 2 arrives. *)
Definition lost_trace : list label :=
  [LCall 1 (PEnter ""); LRun 1 0 Goes; LRun 1 0 Goes; LRun 1 0 Ends; LRun 1 0 Goes;
   LCall 2 (PEnter ""); LRun 2 0 Goes; LRun 1 0 Goes].

Definition lost_object : object := Object (RestartState false true (Some 0) [] false None None) [1%nat; 2%nat] [[1%nat]] [2%nat].
Definition lost_machine : machine := Machine 0 [lost_object] ∅ [].

(** A lost wake-up. A mutation restart that arrives after the runner found nothing pending, but
    before its deferred function cleared the running flag, is taken as coalesced and then forgotten:
    the runner is gone, the request still waits with the pending flag set, and nothing but a new
    call ever moves the workspace on. *)
Theorem restart_request_lost :
  exists m, rtc mstep (start 0) m /\ threads m = ∅ /\ objects m = [lost_object] /\
    forall l m', exec m l = Some m' ->
      (exists t p, l = LCall t p) \/
      (threads m' = ∅ /\ exists o, objects m' !! 0%nat = Some o /\ waiting o = [2%nat] /\ pending (entry o) = true).
Proof.
  exists lost_machine. split; [by apply (execs_rtc lost_trace); vm_compute|]. split_and!; try done.
  intros [n|t p|g|g since r| |t g o] m' Hl; simpl in Hl; eauto; right.
  - case_match; simplify_eq. split; [done|]. by exists lost_object.
  - case_decide; simplify_eq. assert (g = 0%nat) as -> by (unfold newest in *; simpl in *; lia). split; [done|]. by eexists.
  - case_decide; simplify_eq. assert (g = 0%nat) as -> by (unfold newest in *; simpl in *; lia). split; [done|].
    eexists. split_and!; [done|done|]. exact (proj1 (proj2 (hold_settle_keeps since r (entry lost_object)))).
  - simplify_eq. split; [done|]. by exists lost_object.
  - by rewrite lookup_empty in Hl.
Qed.

(** A secret is saved five seconds into the cycle another save started, when
    the cycle is already provisioning. *)
Definition save_trace : list label :=
  [LCall 1 (PDebounce ""); LRun 1 0 Goes; LRun 1 0 Goes; LRun 1 0 Goes; LRun 1 0 Goes; LRun 1 0 Goes;
   LTick (5 * Second); LCall 2 (PDebounce "")].
Definition saved_machine : machine :=
  Machine (5 * Second) [Object (RestartState true false (Some 0) [] false None None) [1%nat] [[1%nat]] []]
          {[1%nat := Thread (PProvision "" 1) 0 0; 2%nat := Thread (PDebounce "") 0 0]} [].

(** A save that never lands. RestartByID - what the secrets handlers call - drops a call made
    within a minute of the last cycle's start instead of coalescing it: of two saves five seconds
    apart the second's request is never taken, and the workspace comes to rest with nothing pending
    on the container the first one provisioned. *)
Theorem second_save_is_dropped :
  exists m2, rtc mstep (start 0) saved_machine /\ rtc mstep saved_machine m2 /\ threads m2 = ∅ /\
    objects m2 = [Object (RestartState false false (Some 0) [] false None None) [1%nat] [[1%nat]] []].
Proof.
  exists (Machine (5 * Second) [Object (RestartState false false (Some 0) [] false None None) [1%nat] [[1%nat]] []] ∅ []).
  split; [by apply (execs_rtc save_trace); vm_compute|].
  split; [by apply (execs_rtc [LRun 2 0 Goes; LRun 1 0 Goes; LRun 1 0 Goes; LRun 1 0 Goes]); vm_compute|done].
Qed.

(** ** Two runners after a delete

    A restart is provisioning when CascadeDelete takes its entry out of the map;
    a second request finds a new entry and starts a cycle of its own, past the
    debounce, while the first one still runs.  It goes no further than the filters
    of runRestartCycle when the row still says removed, which CascadeDelete wrote
    before; the machine leaves the filters' answers open. *)
Definition overlap_trace : list label :=
  [LCall 1 (PEnter ""); LRun 1 0 Goes; LRun 1 0 Goes; LRun 1 0 Goes; LRun 1 0 Goes; LDelete;
   LCall 2 (PDebounce ""); LRun 2 1 Goes; LRun 2 1 Goes; LRun 2 1 Goes].

Example delete_lets_cycles_overlap :
  threads <$> execs (start 0) overlap_trace =
  Some {[1%nat := Thread (PProvision "" 1) 0 0; 2%nat := Thread (PCycle "" 1) 1 1]}.
Proof. by vm_compute. Qed.

(** The first runner still serves what its own entry took, the request of the
    second included when that one loaded the entry before the delete. *)
Example captured_entry_outlives_delete :
  (fun m => (fun o => (served o, waiting o, running (entry o))) <$> objects m) <$>
    execs (start 0) [LCall 1 (PEnter ""); LRun 1 0 Goes; LRun 1 0 Goes; LCall 2 (PEnter ""); LDelete; LRun 2 0 Goes;
                     LRun 1 1 Ends; LRun 1 1 Goes; LRun 1 1 Ends; LRun 1 1 Goes; LRun 1 1 Goes] =
  Some [([[1%nat]; [2%nat]], [], false); ([], [], false)].
Proof. by vm_compute. Qed.

(** ** Witnesses *)

(** Three automatic restarts a minute or more apart, then a fourth probe. *)
Definition crash (t : nat) (now : time) : list label :=
  [LTick now; LCall t (PAutoDebounce "sweep")] ++ replicate 11 (LRun t 0 Goes).
Definition crash_trace : list label :=
  crash 1 0 ++ crash 2 (2 * Minute) ++ crash 3 (4 * Minute) ++
  [LTick (6 * Minute); LCall 4 (PAutoDebounce "sweep"); LRun 4 0 Goes; LRun 4 0 Goes].
Definition crashed_object : object :=
  Object (RestartState false false (Some (4 * Minute)) [0; 2 * Minute; 4 * Minute] true (Some (4 * Minute)) None)
         [1%nat; 2%nat; 3%nat] [[1%nat]; [2%nat]; [3%nat]] [].
Definition crashed : machine := Machine (6 * Minute) [crashed_object] ∅ [0; 2 * Minute; 4 * Minute].

Definition kept_label (l : label) : bool := match l with LDelete => false | _ => true end.
Lemma execs_kept ls m m' : forallb kept_label ls = true -> execs m ls = Some m' -> rtc kept_step m m'.
Proof.
  revert m. induction ls as [|l ls IH]; simpl; intros m Hk H; [simplify_eq; apply rtc_refl|]. b2p.
  destruct (exec m l) as [m1|] eqn:Hl; [|done]. eapply rtc_l; [exists l; split; [by destruct l|done]|eauto].
Qed.

Lemma crashed_reachable : rtc kept_step (start 0) crashed.
Proof. by apply (execs_kept crash_trace); vm_compute. Qed.

Lemma auto_restart_budget_witness :
  length (stops_in (6 * Minute) (stops crashed)) = 3%nat /\ (length (stops_in (6 * Minute)%Z (stops crashed)) <= 3)%nat.
Proof.
  split; [vm_compute; reflexivity|].
  exact (proj1 (auto_restart_budget 0 crashed crashed_reachable) (6 * Minute)).
Defined.

(** The machine of [overlap_trace]. *)
Definition overlapping : machine :=
  Machine 0 [Object (RestartState true false (Some 0) [] false None None) [1%nat] [[1%nat]] [];
             Object (RestartState true false (Some 0) [] false None None) [2%nat] [[2%nat]] []]
          {[1%nat := Thread (PProvision "" 1) 0 0; 2%nat := Thread (PCycle "" 1) 1 1]} [].
Lemma overlapping_reachable : rtc mstep (start 0) overlapping.
Proof. by apply (execs_rtc overlap_trace); vm_compute. Qed.

Lemma requests_are_coalesced_witness :
  (forall g o, objects overlapping !! g = Some o ->
     requests o = concat (served o) ++ waiting o /\ (length (served o) <= length (requests o))%nat /\
     (pending (entry o) = true <-> waiting o <> [])) /\
  threads overlapping !! 1%nat = Some (Thread (PProvision "" 1) 0 0).
Proof.
  split; [|reflexivity]. exact (proj1 (requests_are_coalesced 0 overlapping overlapping_reachable)).
Defined.
