(* ===== verification/RestartGuards.v ===== *)
(** * What stands before a restart

    The checks of internal/handlers/workspace_restart.go and
    a2a_proxy_helpers.go between "this container looks dead" and "the container
    is stopped": the dead-container verdict with its debounce, the ancestor
    check, the filters of a restart cycle, the pinned-image check with its
    retries, and the retries of the stop itself. *)

From S2P Require Import Prelude Tree A2AQueue Restart.

(** ** isParentPaused

    Two SELECTs per hop; [fuel] counts hops, and [None] is an exhausted fuel.
    A row that is missing or cannot be read ends the walk with "not paused". *)
Definition select_row (d : wsdb) (id : string) : option wsrow :=
  if unreadable d id then None else rows d !! id.

Fixpoint isParentPaused (fuel : nat) (d : wsdb) (workspaceID : string) : option (bool * string) :=
  match fuel with
  | O => None
  | S fuel' =>
      match select_row d workspaceID ≫= ws_parent with
      | None => Some (false, "")
      | Some parentID =>
          match select_row d parentID with
          | None => Some (false, "")
          | Some p => if decide (ws_status p = "paused") then Some (true, ws_name p)
                      else isParentPaused fuel' d parentID
          end
      end
  end.

(** ** The filters of runRestartCycle *)

Definition externalLikeRuntimes : list string := ["external"; "kimi"; "kimi-cli"].
Definition isExternalLikeRuntime (runtime : string) : bool := bool_decide (runtime ∈ externalLikeRuntimes).

Definition isLiveWarmingPlatformConcierge (kind status : string) (is_running : bool) (probe_err : bool) : bool :=
  negb probe_err && is_running && bool_decide (kind = "platform") && bool_decide (status = "provisioning").

(** What the cycle's SELECT returned (status, runtime, kind), or nothing. *)
Record cycle_row := CycleRow { c_status : string; c_runtime : string; c_kind : string }.

(** The cycle goes on to the breaker: the row was found and is not dormant, the
    runtime has a container, no ancestor is paused, and no live concierge is
    booting in it.  [row] is the row before the SELECT's own status filter. *)
Definition cycle_proceeds (row : option cycle_row) (parent_paused has_provisioner is_running probe_err : bool) : bool :=
  match row with
  | None => false
  | Some r =>
      if bool_decide (c_status r ∈ ["removed"; "paused"; "hibernated"]) then false
      else if isExternalLikeRuntime (c_runtime r) || bool_decide (c_runtime r = "mock") then false
      else if parent_paused then false
      else negb (bool_decide (c_status r = "provisioning") && bool_decide (c_kind r = "platform") && has_provisioner
                 && isLiveWarmingPlatformConcierge (c_kind r) (c_status r) is_running probe_err)
  end.

(** ** The control-plane retries *)

Definition cpStopRetryAttempts : nat := 3.
Definition cpStopRetryBaseDelay : Z := 1 * Second.
Definition restartPrewarmBudget : Z := 15 * Minute.

(** EnsureImage's answer: ready, [ErrEnsureImageUnsupported],
    [ErrEnsureImagePermanent], or any other error. *)
Inductive ensure_answer := EnsureReady | EnsureUnsupported | EnsurePermanent | EnsureOther.

(** [answers] and [expires] by attempt, from 1: what the control plane says, and
    whether the budget ends during the wait that follows. *)
Fixpoint ensure_loop (left attempt : nat) (answers : nat -> ensure_answer) (expires : nat -> bool) : bool :=
  match left with
  | O => false
  | S left' =>
      match answers attempt with
      | EnsureReady | EnsureUnsupported => true
      | EnsurePermanent => false
      | EnsureOther =>
          if decide (attempt = cpStopRetryAttempts) then false
          else if expires attempt then false
          else ensure_loop left' (S attempt) answers expires
      end
  end.

Definition ensurePinnedImageBeforeStop (has_cp : bool) (answers : nat -> ensure_answer) (expires : nat -> bool) : bool :=
  if negb has_cp then true else ensure_loop cpStopRetryAttempts 1 answers expires.

(** The stop: [fails] by attempt, [cancelled] when the context ends during the
    wait that follows it.  Gives back the number of calls made and whether the
    caller gets an error. *)
Fixpoint stop_loop (left attempt : nat) (fails cancelled : nat -> bool) : nat * bool :=
  match left with
  | O => (pred attempt, true)
  | S left' =>
      if negb (fails attempt) then (attempt, false)
      else if decide (attempt = cpStopRetryAttempts) then (attempt, true)
      else if cancelled attempt then (attempt, true)
      else stop_loop left' (S attempt) fails cancelled
  end.

Definition cpStopWithRetryErr (has_cp : bool) (fails cancelled : nat -> bool) : nat * bool :=
  if negb has_cp then (O, false) else stop_loop cpStopRetryAttempts 1 fails cancelled.

(** stopForRestart: [None] when the restart is declined and the container left
    alone, else the number of Stop calls the wired backend got; the workspace's
    routing is cleared in exactly the second case. *)
Definition stopForRestart (has_docker has_cp : bool) (answers : nat -> ensure_answer)
    (expires fails cancelled : nat -> bool) : option nat :=
  if ensurePinnedImageBeforeStop has_cp answers expires
  then Some (if has_docker then 1%nat else (cpStopWithRetryErr has_cp fails cancelled).1)
  else None.

(** ** The dead-container verdict *)

Definition containerDeadDebounceThreshold : Z := 2.
Definition containerDeadDebounceWindow : Z := 30 * Second.

Record deadProbeRecord := DeadProbe { dp_count : Z; dp_first : time; dp_last : time }.

Definition incrementDeadProbe (now : time) (rec : option deadProbeRecord) : deadProbeRecord * bool :=
  let rec' := match rec with
              | Some r => if containerDeadDebounceWindow <? now - dp_first r
                          then DeadProbe 1 now now
                          else DeadProbe (dp_count r + 1) (dp_first r) now
              | None => DeadProbe 1 now now
              end in
  (rec', containerDeadDebounceThreshold <=? dp_count rec').

Inductive verdict := AssumedAlive | Enqueued | Debounced | DeclaredDead.

(** Everything one call reads: the runtime, the wiring, the restart state, the
    heartbeat checks, and the two probes ([inl]: running or not; [inr]: error). *)
Record dead_env := DeadEnv {
  de_runtime : string;
  de_has_provisioner : bool;
  de_state : nat -> restartState;     (* at its three looks *)
  de_now : time;                      (* of the settle-window check *)
  de_recent : bool;                   (* hasRecentHeartbeat *)
  de_fresh : time -> bool;            (* waitForFreshHeartbeat *)
  de_probe1 : bool + unit;
  de_probe2 : bool + unit;
  de_now2 : time                      (* of the dead-probe count *)
}.

Definition maybeMarkContainerDead (e : dead_env) (rec : option deadProbeRecord) : verdict * option deadProbeRecord :=
  if isExternalLikeRuntime (de_runtime e) then (AssumedAlive, rec)
  else if negb (de_has_provisioner e) then (AssumedAlive, rec)
  else if isRestarting (de_state e 0%nat) then (AssumedAlive, rec)
  else
    let settling := inRestartSettleWindow (de_now e) (de_state e 1%nat) in
    let fresh := settling && some_and (lastRestartStartedAt (de_state e 2%nat)) (de_fresh e) in
    match de_probe1 e with
    | inr _ => (AssumedAlive, rec)
    | inl true => (AssumedAlive, None)
    | inl false =>
        let believed :=
          if negb (de_recent e || fresh || settling) then None
          else match de_probe2 e with
               | inr _ => Some (AssumedAlive, rec)
               | inl true => Some (AssumedAlive, None)
               | inl false => None
               end in
        match believed with
        | Some out => out
        | None =>
            if de_recent e || fresh then (Enqueued, rec)
            else if negb settling then (DeclaredDead, None)
            else let (rec', dead) := incrementDeadProbe (de_now2 e) rec in
                 if dead then (DeclaredDead, None) else (Debounced, Some rec')
        end
    end.

(** ** The ancestor check, in terms of the tree *)

(** [w]'s nearest paused proper ancestor, [n] hops up. *)
Definition paused_at (t : wstable) (w : string) (n : nat) (name : string) : Prop :=
  exists a r, Up t (S n) w a /\ t !! a = Some r /\ ws_status r = "paused" /\ ws_name r = name /\
    forall m b rb, (m < n)%nat -> Up t (S m) w b -> t !! b = Some rb -> ws_status rb <> "paused".

Lemma paused_at_parent t w r p n name rp :
  t !! w = Some r -> ws_parent r = Some p -> t !! p = Some rp -> ws_status rp <> "paused" ->
  paused_at t w (S n) name <-> paused_at t p n name.
Proof.
  intros Hw Hp Hrp Hst. unfold paused_at. split.
  - intros (a & ra & Hup & Ha & Hs & Hn & Hnear). inversion Hup; simplify_eq. exists a, ra. split_and!; auto.
    intros m b rb Hm Hb. apply (Hnear (S m)); [lia|]. eauto using Up.
  - intros (a & ra & Hup & Ha & Hs & Hn & Hnear). exists a, ra. split_and!; eauto using Up.
    intros m b rb Hm Hb Hrb. inversion Hb; simplify_eq. destruct m.
    + match goal with H : Up _ 0 _ _ |- _ => inversion H end. by simplify_eq.
    + apply (Hnear m b); auto; lia.
Qed.

Lemma isParentPaused_walk fuel t w n root :
  RootAt t n w root -> (n < fuel)%nat ->
  exists b name, isParentPaused fuel (WsDb t (fun _ => false)) w = Some (b, name) /\
    (b = true -> exists k, paused_at t w k name) /\
    (b = false -> name = "" /\ forall k a r, Up t (S k) w a -> t !! a = Some r -> ws_status r <> "paused").
Proof.
  revert n w. induction fuel as [|fuel IH]; intros n w [Hup Hroot] Hlt; [lia|].
  destruct Hup as [w|n w row p root Hw Hp Hup].
  - destruct Hroot as (row & Hw & Hp). exists false, "". simpl. unfold select_row. simpl. rewrite Hw. simpl. rewrite Hp.
    split_and!; [done|done|]. intros _. split; [done|]. intros k a r Hk. inversion Hk; by simplify_eq.
  - simpl. unfold select_row. simpl. rewrite Hw. simpl. rewrite Hp.
    assert (Hr : is_Some (t !! p)) by (destruct Hup; [destruct Hroot as (? & -> & _)|]; eauto).
    destruct Hr as [rp Hrp]. rewrite Hrp. case_decide as Hst.
    + exists true, (ws_name rp). split_and!; [done| |done]. intros _. exists O, p, rp. split_and!; eauto using Up.
      intros m b rb Hm. lia.
    + destruct (IH n p) as (b & name & Heq & Ht & Hf); [by split|lia|]. exists b, name. split_and!; [done| |].
      * intros Hb. destruct (Ht Hb) as [k Hk]. exists (S k). by eapply paused_at_parent.
      * intros Hb. destruct (Hf Hb) as [-> Hall]. split; [done|]. intros k a r Hk Hr.
        inversion Hk; simplify_eq. destruct k.
        -- match goal with H : Up _ 0 _ _ |- _ => inversion H end. by simplify_eq.
        -- eauto.
Qed.

(** the ancestor check. For a workspace in a tree that ends at a root, at whatever depth, the
    recursion ends, and it answers "paused" exactly when some proper ancestor is paused, naming the
    nearest one. *)
Theorem isParentPaused_nearest t w n root fuel (Hroot : RootAt t n w root) (Hfuel : (n < fuel)%nat) :
  exists b name, isParentPaused fuel (WsDb t (fun _ => false)) w = Some (b, name) /\
    (b = true <-> exists k a r, Up t (S k) w a /\ t !! a = Some r /\ ws_status r = "paused") /\
    (b = true -> exists k, paused_at t w k name) /\ (b = false -> name = "").
Proof.
  destruct (isParentPaused_walk fuel t w n root Hroot Hfuel) as (b & name & Heq & Ht & Hf).
  exists b, name. split_and!; [done| |done|].
  - split.
    + intros Hb. destruct (Ht Hb) as (k & a & r & ? & ? & ? & _). eauto 8.
    + intros (k & a & r & Hk & Hr & Hs). destruct b; [done|]. destruct (Hf eq_refl) as [_ Hall]. by destruct (Hall k a r).
  - intros Hb. by destruct (Hf Hb).
Qed.

(** ** Retries *)

Lemma ensure_loop_spec left attempt answers expires :
  (attempt + left = S cpStopRetryAttempts)%nat ->
  ensure_loop left attempt answers expires = true <->
  exists k, (attempt <= k <= cpStopRetryAttempts)%nat /\ (answers k = EnsureReady \/ answers k = EnsureUnsupported) /\
    forall j, (attempt <= j < k)%nat -> answers j = EnsureOther /\ expires j = false.
Proof.
  revert attempt. induction left as [|left IH]; intros attempt Hl; simpl.
  - split; [done|]. intros (k & Hk & _). lia.
  - destruct (answers attempt) eqn:Ha.
    1-2: split; [|done]; intros _; exists attempt; split; [lia|split; [auto|intros; lia]].
    + split; [done|]. intros (k & Hk & Hans & Hbefore). destruct (decide (attempt = k)) as [->|].
      * rewrite Ha in Hans. by destruct Hans.
      * destruct (Hbefore attempt); [lia|congruence].
    + case_decide as Hlast.
      * split; [done|]. intros (k & Hk & Hans & _). assert (k = attempt) as -> by lia. rewrite Ha in Hans. by destruct Hans.
      * destruct (expires attempt) eqn:He.
        -- split; [done|]. intros (k & Hk & Hans & Hbefore). destruct (decide (attempt = k)) as [->|].
           ++ rewrite Ha in Hans. by destruct Hans.
           ++ destruct (Hbefore attempt); [lia|congruence].
        -- rewrite IH by lia. split; intros (k & Hk & Hans & Hbefore); exists k.
           ++ split_and!; [lia|lia|done|]. intros j Hj. destruct (decide (j = attempt)) as [->|]; [done|]. apply Hbefore. lia.
           ++ assert (k <> attempt) by (intros ->; rewrite Ha in Hans; by destruct Hans).
              split_and!; [lia|lia|done|]. intros j Hj. apply Hbefore. lia.
Qed.

Lemma stop_loop_spec left attempt fails cancelled :
  (attempt + left = S cpStopRetryAttempts)%nat -> (0 < left)%nat ->
  (attempt <= (stop_loop left attempt fails cancelled).1 <= cpStopRetryAttempts)%nat /\
  ((stop_loop left attempt fails cancelled).2 = false <-> fails (stop_loop left attempt fails cancelled).1 = false).
Proof.
  revert attempt. induction left as [|left IH]; intros attempt Hl Hpos; [lia|]. simpl.
  destruct (fails attempt) eqn:Hf; simpl; [|split; [lia|by rewrite Hf]].
  case_decide as Hlast; [simpl; split; [lia|by rewrite Hf]|].
  destruct (cancelled attempt); [simpl; split; [lia|by rewrite Hf]|].
  destruct (IH (S attempt)) as [? ?]; [lia|lia|]. split; [lia|done].
Qed.

(** pull before stop. With a control plane wired, a restart destroys the container only if one
    of at most three EnsureImage calls said the image is ready - or that the endpoint does not
    exist - every earlier one having failed for a reason worth a retry within the budget; in every
    other case not one Stop call is made. Once stopping is allowed, the backend gets between one
    and three Stop calls. *)
Theorem no_stop_without_an_image has_docker answers expires fails cancelled :
  (stopForRestart has_docker true answers expires fails cancelled <> None <->
     exists k, (1 <= k <= 3)%nat /\ (answers k = EnsureReady \/ answers k = EnsureUnsupported) /\
       forall j, (1 <= j < k)%nat -> answers j = EnsureOther /\ expires j = false) /\
  (forall n, stopForRestart has_docker true answers expires fails cancelled = Some n -> (1 <= n <= 3)%nat).
Proof.
  unfold stopForRestart, ensurePinnedImageBeforeStop. simpl negb.
  pose proof (ensure_loop_spec cpStopRetryAttempts 1 answers expires eq_refl) as Hs.
  pose proof (stop_loop_spec cpStopRetryAttempts 1 fails cancelled eq_refl ltac:(unfold cpStopRetryAttempts; lia)) as [Hn _].
  unfold cpStopWithRetryErr. simpl negb. cbv iota in *.
  destruct (ensure_loop _ _ _ _); split.
  - split; [intros _; by apply Hs|done].
  - intros n [= <-]. destruct has_docker; [lia|]. unfold cpStopRetryAttempts in *. exact Hn.
  - split; [done|]. intros H. by apply Hs in H.
  - done.
Qed.

(** ** The verdict *)

(** nothing is declared dead lightly. Whenever a call declares a container dead, the workspace
    has a container and no restart of it is running, the first probe answered "not running" without
    an error, and no heartbeat is recent; and if the last restart is younger than thirty seconds, a
    second probe answered the same, no heartbeat is newer than that restart, and this was at least
    the second such observation, the first of them no more than thirty seconds old. *)
Theorem declared_dead_is_evidence e rec rec' (Hdead : maybeMarkContainerDead e rec = (DeclaredDead, rec')) :
  isExternalLikeRuntime (de_runtime e) = false /\ de_has_provisioner e = true /\ running (de_state e 0%nat) = false /\
  de_probe1 e = inl false /\ de_recent e = false /\ rec' = None /\
  (inRestartSettleWindow (de_now e) (de_state e 1%nat) = true ->
     de_probe2 e = inl false /\
     (forall t, restartStartedAt (de_state e 2%nat) = Some t -> de_fresh e t = false) /\
     exists r, rec = Some r /\ 1 <= dp_count r /\ de_now2 e - dp_first r <= 30 * Second).
Proof.
  unfold maybeMarkContainerDead, isRestarting, lastRestartStartedAt in Hdead.
  destruct (isExternalLikeRuntime _); [done|]. destruct (de_has_provisioner e); [|done]. simpl in Hdead.
  destruct (running _); [done|]. destruct (de_probe1 e) as [[]|]; try done.
  destruct (inRestartSettleWindow _ _); simpl in Hdead.
  - rewrite orb_true_r in Hdead. simpl in Hdead. destruct (de_probe2 e) as [[]|]; try done.
    destruct (de_recent e); [done|]. simpl in Hdead.
    destruct (some_and _ _) eqn:Hfresh; [done|]. simpl in Hdead.
    unfold incrementDeadProbe, containerDeadDebounceThreshold, containerDeadDebounceWindow in Hdead.
    split_and!; try done; [by repeat case_match; simplify_eq|]. intros _. split_and!; [done| |].
    + intros t Ht. rewrite Ht in Hfresh. exact Hfresh.
    + destruct rec as [r|]; [|done]. exists r. split; [done|].
      destruct (_ <? _) eqn:Hw; [done|]. simpl in Hdead. destruct (2 <=? dp_count r + 1) eqn:Hc; [|done]. b2p. lia.
  - destruct (de_recent e); simpl in Hdead.
    + destruct (de_probe2 e) as [[]|]; done.
    + simplify_eq. split_and!; done.
Qed.

(** ** Concrete inputs *)

Definition paused_tree : wstable :=
  {["root" := WsRow "Root" None "online" None None;
    "mid" := WsRow "Mid" (Some "root") "paused" None None;
    "leaf" := WsRow "Leaf" (Some "mid") "online" None None]}.

Lemma isParentPaused_nearest_witness :
  isParentPaused 3 (WsDb paused_tree (fun _ => false)) "leaf" = Some (true, "Mid") /\
  exists b name, isParentPaused 3 (WsDb paused_tree (fun _ => false)) "leaf" = Some (b, name) /\
    (b = true <-> exists k a r, Up paused_tree (S k) "leaf" a /\ paused_tree !! a = Some r /\ ws_status r = "paused").
Proof.
  split; [reflexivity|].
  destruct (isParentPaused_nearest paused_tree "leaf" 2 "root" 3) as (b & name & Heq & Hiff & _).
  - split; [|exists (WsRow "Root" None "online" None None); split; reflexivity].
    eapply Up_S; [reflexivity..|]. eapply Up_S; [reflexivity..|]. apply Up_0.
  - lia.
  - exists b, name. split; [exact Heq|exact Hiff].
Defined.

Definition settling_dead : dead_env :=
  DeadEnv "claude-code" true (fun _ => RestartState false false (Some 0) [] false None None) (20 * Second) false
          (fun _ => false) (inl false) (inl false) (25 * Second).

Lemma declared_dead_is_evidence_witness :
  maybeMarkContainerDead settling_dead (Some (DeadProbe 1 (10 * Second) (10 * Second))) = (DeclaredDead, None) /\
  exists r, Some (DeadProbe 1 (10 * Second) (10 * Second)) = Some r /\ 1 <= dp_count r /\ 25 * Second - dp_first r <= 30 * Second.
Proof.
  assert (H : maybeMarkContainerDead settling_dead (Some (DeadProbe 1 (10 * Second) (10 * Second))) = (DeclaredDead, None))
    by reflexivity.
  split; [exact H|].
  destruct (declared_dead_is_evidence _ _ _ H) as (_ & _ & _ & _ & _ & _ & Hs).
  destruct (Hs eq_refl) as (_ & _ & Hr). exact Hr.
Defined.
