(* ===== verification/TunnelPool.v ===== *)
(** * The pool of SSH tunnels

    internal/handlers/eic_tunnel_pool.go: tunnels to workspace hosts are kept
    for [poolTTL] and shared by concurrent operations.  A [*pooledTunnel] is an
    address in a heap, so that a releaser keeps pointing at the tunnel it was
    made for after the pool's entry has been replaced.  Each definition is one
    section the code runs under the pool's mutex; the calls of [cleanup], which
    the code starts as goroutines, are logged. *)

From S2P Require Import Prelude.

Definition poolTTL : Z := 50 * Second.
Definition poolJanitorInterval : Z := 10 * Second.
Definition poolMaxEntries : nat := 32.

Record pooledTunnel := PooledTunnel {
  instance : string;                (* the instanceID its releasers captured *)
  expiresAt : time;
  lastUsed : time;
  refcount : Z;
  poisoned : bool
}.

Definition addr := nat.

(** The pool, the heap, and the cleanups started so far, oldest first. *)
Record eicTunnelPool := EicTunnelPool {
  entries : gmap string addr;
  pendingSetups : gset string;
  heap : gmap addr pooledTunnel;
  cleanups : list addr
}.

Definition newEICTunnelPool : eicTunnelPool := EicTunnelPool ∅ ∅ ∅ [].

Definition usable (now : time) (pt : pooledTunnel) : bool := negb (poisoned pt) && (now <? expiresAt pt).

(** [pt.refcount++; pt.lastUsed = time.Now()]. *)
Definition reuse (now : time) (pt : pooledTunnel) : pooledTunnel :=
  PooledTunnel (instance pt) (expiresAt pt) now (refcount pt + 1) (poisoned pt).

Definition set_heap (a : addr) (pt : pooledTunnel) (p : eicTunnelPool) : eicTunnelPool :=
  EicTunnelPool (entries p) (pendingSetups p) (<[a := pt]> (heap p)) (cleanups p).

(** Removes the entry of [id] and starts the cleanup of [a]. *)
Definition drop_entry (id : string) (a : addr) (p : eicTunnelPool) : eicTunnelPool :=
  EicTunnelPool (delete id (entries p)) (pendingSetups p) (heap p) (cleanups p ++ [a]).

(** ** acquire *)

(** The first section: a shared tunnel, a setup in flight to wait for, or the
    setup slot.  The branch for a non-positive poolTTL, a test mode, is not
    modelled. *)
Inductive acquired := Shared (a : addr) | WaitForSetup | SetupReserved.

Definition acquire_lookup (now : time) (id : string) (p : eicTunnelPool) : eicTunnelPool * acquired :=
  let entry := entries p !! id ≫= fun a => pair a <$> heap p !! a in
  match entry with
  | Some (a, pt) =>
      if usable now pt then (set_heap a (reuse now pt) p, Shared a)
      else if bool_decide (id ∈ pendingSetups p) then (p, WaitForSetup)
      else let p' := if refcount pt =? 0 then drop_entry id a p else p in
           (EicTunnelPool (entries p') ({[id]} ∪ pendingSetups p') (heap p') (cleanups p'), SetupReserved)
  | None =>
      if bool_decide (id ∈ pendingSetups p) then (p, WaitForSetup)
      else (EicTunnelPool (entries p) ({[id]} ∪ pendingSetups p) (heap p) (cleanups p), SetupReserved)
  end.

(** The idle entries other than [skip], and the least recently used of a list;
    between entries used at the same instant the code's map iteration decides. *)
Definition idle_entries (skip : string) (p : eicTunnelPool) : list (string * (addr * pooledTunnel)) :=
  filter (fun e => e.1 <> skip /\ refcount e.2.2 <= 0)
         (omap (fun ka => (fun pt => (ka.1, (ka.2, pt))) <$> heap p !! ka.2) (map_to_list (entries p))).

Definition oldest (l : list (string * (addr * pooledTunnel))) : option (string * (addr * pooledTunnel)) :=
  foldl (fun o e => match o with
                    | None => Some e
                    | Some e' => if lastUsed e.2.2 <? lastUsed e'.2.2 then Some e else Some e'
                    end) None l.

Definition evictLRUIfFullLocked (skip : string) (p : eicTunnelPool) : eicTunnelPool :=
  if decide (size (entries p) < poolMaxEntries)%nat then p
  else match oldest (idle_entries skip p) with
       | None => p
       | Some (k, (a, _)) => drop_entry k a p
       end.

(** The second section, after a setup that failed or made the tunnel at the
    fresh address [a]. *)
Definition acquire_failed (id : string) (p : eicTunnelPool) : eicTunnelPool :=
  EicTunnelPool (entries p) (pendingSetups p ∖ {[id]}) (heap p) (cleanups p).

Definition acquire_insert (now : time) (id : string) (a : addr) (p : eicTunnelPool) : eicTunnelPool :=
  let p' := evictLRUIfFullLocked id (acquire_failed id p) in
  EicTunnelPool (<[id := a]> (entries p')) (pendingSetups p')
                (<[a := PooledTunnel id (now + poolTTL) now 1 false]> (heap p')) (cleanups p').

(** ** releaser

    [released] is the closure's own variable. *)
Definition releaser (now : time) (a : addr) (released bad : bool) (p : eicTunnelPool) : eicTunnelPool * bool :=
  if released then (p, true) else
  match heap p !! a with
  | None => (p, true)
  | Some pt =>
      let pt' := PooledTunnel (instance pt) (expiresAt pt) (lastUsed pt) (refcount pt - 1) (bad || poisoned pt) in
      let p' := set_heap a pt' p in
      if (refcount pt' =? 0) && (poisoned pt' || (expiresAt pt' <? now))
      then (if bool_decide (entries p' !! instance pt' = Some a)
            then drop_entry (instance pt') a p'
            else EicTunnelPool (entries p') (pendingSetups p') (heap p') (cleanups p' ++ [a]), true)
      else (p', true)
  end.

(** ** The janitor *)

Definition drop_where (dead : pooledTunnel -> bool) (p : eicTunnelPool) : eicTunnelPool :=
  foldl (fun q ka => match heap q !! ka.2 with
                     | Some pt => if (refcount pt =? 0) && dead pt then drop_entry ka.1 ka.2 q else q
                     | None => q
                     end) p (map_to_list (entries p)).

Definition sweep (now : time) (p : eicTunnelPool) : eicTunnelPool := drop_where (fun pt => expiresAt pt <? now) p.
Definition stop (p : eicTunnelPool) : eicTunnelPool := drop_where (fun _ => true) p.

(** ** Which errors poison a tunnel *)

(** [b + 32] on an upper-case ASCII byte. *)
Definition low (b : Ascii.ascii) : Ascii.ascii := ascii_lower b.

Fixpoint low_prefix (s sub : string) : bool :=
  match sub, s with
  | "", _ => true
  | String b sub', String a s' => bool_decide (low a = low b) && low_prefix s' sub'
  | _, "" => false
  end.

Fixpoint containsCaseInsensitive (s sub : string) : bool :=
  low_prefix s sub || match s with "" => false | String _ s' => containsCaseInsensitive s' sub end.

Definition fault_markers : list string :=
  ["connection refused"; "connection closed"; "broken pipe"; "Connection reset by peer";
   "kex_exchange_identification"; "port forwarding failed"; "Permission denied"; "Authentication failed"].

(** [None] is a nil error. *)
Definition fnErrIndicatesTunnelFault (err : option string) : bool :=
  match err with None => false | Some msg => existsb (containsCaseInsensitive msg) fault_markers end.

(** What [pooledWithEICTunnel] hands its deferred release: a panic of [fn]
    poisons, like an error of the tunnel's. *)
Inductive fn_result := FnReturned (err : option string) | FnPanicked.
Definition pooledWithEICTunnel_poisoned (r : fn_result) : bool :=
  match r with FnPanicked => true | FnReturned err => fnErrIndicatesTunnelFault err end.

(** * Tunnels are closed once, unused, and in the end

    The pool of TunnelPool under any interleaving of operations that acquire
    and release tunnels, setups that finish or fail, and janitor passes.  Each
    section runs at a later instant than the one before it. *)

(** A releaser: its tunnel and its [released] variable. *)
Record handle := Handle { h_addr : addr; h_released : bool }.

Record world := World { now : time; pool : eicTunnelPool; handles : list handle }.

Definition empty_world : world := World 0 newEICTunnelPool [].

Inductive wstep : world -> world -> Prop :=
| WAcquire w t id p' r : now w < t -> acquire_lookup t id (pool w) = (p', r) ->
    wstep w (World t p' (handles w ++ match r with Shared a => [Handle a false] | _ => [] end))
| WSetup w t id a : now w < t -> id ∈ pendingSetups (pool w) -> heap (pool w) !! a = None ->
    wstep w (World t (acquire_insert t id a (pool w)) (handles w ++ [Handle a false]))
| WSetupFails w t id : now w < t -> id ∈ pendingSetups (pool w) ->
    wstep w (World t (acquire_failed id (pool w)) (handles w))
| WRelease w t i h bad p' r : now w < t -> handles w !! i = Some h ->
    releaser t (h_addr h) (h_released h) bad (pool w) = (p', r) ->
    wstep w (World t p' (<[i := Handle (h_addr h) r]> (handles w)))
| WSweep w t : now w < t -> wstep w (World t (sweep t (pool w)) (handles w))
| WStop w t : now w < t -> wstep w (World t (stop (pool w)) (handles w)).

(** The operations that hold tunnel [a]. *)
Definition holds (a : addr) (h : handle) : bool := bool_decide (h_addr h = a) && negb (h_released h).
Definition users (a : addr) (l : list handle) : Z := Z.of_nat (length (filter (fun h => holds a h = true) l)).

(** ** Counting *)

Lemma users_snoc a l h : users a (l ++ [h]) = (users a l + (if holds a h then 1 else 0)).
Proof.
  unfold users. rewrite filter_app, length_app, filter_cons. destruct (holds a h) eqn:E; [rewrite decide_True by done|rewrite decide_False by done]; simpl; lia.
Qed.

Lemma users_insert a l i h h' :
  l !! i = Some h ->
  users a (<[i := h']> l) = ((users a l - (if holds a h then 1 else 0)) + (if holds a h' then 1 else 0)).
Proof.
  intros Hi. rewrite (insert_take_drop l i h') by (by eapply lookup_lt_Some).
  pose proof (take_drop_middle l i h Hi) as Hl. unfold users. rewrite <-Hl at 3.
  rewrite !filter_app, !length_app, !filter_cons.
  destruct (holds a h), (holds a h'); rewrite ?decide_True, ?decide_False by done; simpl; lia.
Qed.

Lemma users_pos a l i h : l !! i = Some h -> holds a h = true -> 0 < users a l.
Proof.
  intros Hi Hh. unfold users. assert (Hin : h ∈ filter (fun h => holds a h = true) l).
  { apply list_elem_of_filter. split; [done|]. by eapply list_elem_of_lookup_2. }
  destruct (filter _ _); [by apply not_elem_of_nil in Hin|simpl; lia].
Qed.

(** ** The invariant *)

Record pool_ok (t : time) (p : eicTunnelPool) (l : list handle) : Prop := PoolOk {
  po_entry : forall id a, entries p !! id = Some a ->
    exists pt, heap p !! a = Some pt /\ instance pt = id /\ (a ∉ cleanups p) /\ (refcount pt = 0 -> poisoned pt = false);
  po_count : forall a pt, heap p !! a = Some pt -> refcount pt = users a l;
  po_fresh : forall a, heap p !! a = None -> users a l = 0 /\ (a ∉ cleanups p);
  po_once : NoDup (cleanups p);
  po_closed : forall a, a ∈ cleanups p -> users a l = 0;
  po_live : forall a pt, heap p !! a = Some pt -> a ∉ cleanups p ->
    entries p !! instance pt = Some a \/ (0 < refcount pt /\ usable t pt = false);
  po_pending : forall id a pt, id ∈ pendingSetups p -> entries p !! id = Some a -> heap p !! a = Some pt ->
    0 < refcount pt /\ usable t pt = false;
  po_ttl : forall a pt, heap p !! a = Some pt -> expiresAt pt <= t + poolTTL
}.

Lemma users_nonneg a l : 0 <= users a l.
Proof. unfold users. lia. Qed.

Lemma usable_later t t' pt : t <= t' -> usable t pt = false -> usable t' pt = false.
Proof. unfold usable. intros Ht. rewrite !andb_false_iff, !negb_false_iff, !Z.ltb_ge. intros []; [auto|right; lia]. Qed.

Lemma pool_ok_later t t' p l : t <= t' -> pool_ok t p l -> pool_ok t' p l.
Proof.
  intros Ht [He Hc Hf Ho Hcl Hlv Hpd Httl]. constructor; auto.
  - intros a pt Ha Hn. destruct (Hlv a pt Ha Hn) as [?|[? ?]]; eauto using usable_later.
  - intros id a pt Hid Hen Ha. destruct (Hpd id a pt Hid Hen Ha); eauto using usable_later.
  - intros a pt Ha. specialize (Httl a pt Ha). lia.
Qed.

(** Closing an idle entry. *)
Lemma drop_entry_ok t p l id a pt :
  pool_ok t p l -> entries p !! id = Some a -> heap p !! a = Some pt -> refcount pt <= 0 ->
  pool_ok t (drop_entry id a p) l.
Proof.
  intros [He Hc Hf Ho Hcl Hlv Hpd Httl] Hid Ha Hr.
  assert (Hu : users a l = 0) by (pose proof (users_nonneg a l); rewrite (Hc _ _ Ha) in Hr; lia).
  destruct (He _ _ Hid) as (pt' & Ha' & Hinst & Hn & _). simplify_eq.
  constructor; simpl; auto.
  - intros id' a' Hid'. apply lookup_delete_Some in Hid' as [Hne Hid'].
    destruct (He _ _ Hid') as (pt'' & Ha'' & Hi'' & Hn'' & Hp''). exists pt''. split_and!; auto.
    rewrite elem_of_app, list_elem_of_singleton. intros [?| ->]; [done|]. simplify_eq. 
  - intros a' Ha'. destruct (Hf _ Ha') as [? ?]. split; [done|]. rewrite elem_of_app, list_elem_of_singleton.
    intros [?| ->]; [done|congruence].
  - apply NoDup_app. split; [done|]. split; [|apply NoDup_singleton]. intros x Hx. rewrite list_elem_of_singleton. by intros ->.
  - intros a'. rewrite elem_of_app, list_elem_of_singleton. intros [?| ->]; auto.
  - intros a' pt' Ha' Hn'. rewrite elem_of_app, list_elem_of_singleton in Hn'.
    destruct (Hlv a' pt' Ha') as [Hen|?]; [tauto|left|by right].
    rewrite lookup_delete_ne; [done|]. intros Heq. rewrite <-Heq in Hen. apply Hn'. right. congruence.
  - intros id' a' pt' Hp' Hen. apply lookup_delete_Some in Hen as [? ?]. eauto.
Qed.

(** A janitor pass. *)
Lemma drop_where_fold dead t p l ks :
  pool_ok t p l -> NoDup ks.*1 -> (forall k a, (k, a) ∈ ks -> entries p !! k = Some a) ->
  let q := foldl (fun q ka => match heap q !! ka.2 with
                     | Some pt => if (refcount pt =? 0) && dead pt then drop_entry ka.1 ka.2 q else q
                     | None => q
                     end) p ks in
  pool_ok t q l /\ heap q = heap p /\
  (forall k a pt, (k, a) ∈ ks -> heap p !! a = Some pt -> refcount pt = 0 -> dead pt = true -> a ∈ cleanups q) /\
  (forall a, a ∈ cleanups p -> a ∈ cleanups q).
Proof.
  revert p. induction ks as [|[k a] ks IH]; intros p Hok Hnd Hin; simpl; [split_and!; auto; by intros ??? ?%not_elem_of_nil|].
  apply NoDup_cons in Hnd as [Hk Hnd]. simpl in *.
  assert (Hka : entries p !! k = Some a) by (apply Hin; left).
  destruct (po_entry _ _ _ Hok _ _ Hka) as (pt & Ha & _). rewrite Ha.
  destruct ((refcount pt =? 0) && dead pt) eqn:Hdead; b2p.
  - destruct (IH (drop_entry k a p)) as (Hq & Hh & Hcl & Hmono); [|done| |].
    + eapply drop_entry_ok; eauto. lia.
    + intros k' a' Hin'. simpl. rewrite lookup_delete_ne; [apply Hin; by right|]. intros ->.
      apply Hk, list_elem_of_fmap. by exists (k', a').
    + split_and!; [exact Hq|exact Hh| |].
      * intros k' a' pt' [[= -> ->]|Hin']%elem_of_cons Ha' Hr Hd; [|eauto].
        apply Hmono. simpl. apply elem_of_app. right. by apply list_elem_of_singleton.
      * intros a' Ha'. apply Hmono. simpl. apply elem_of_app. by left.
  - destruct (IH p Hok Hnd) as (Hq & Hh & Hcl & Hmono); [intros; apply Hin; by right|]. split_and!; auto.
    intros k' a' pt' [[= -> ->]|Hin']%elem_of_cons Ha' Hr Hd; [|eauto]. simplify_eq.
    rewrite Hd, andb_true_r in Hdead. b2p. lia.
Qed.

Lemma drop_where_ok dead t p l :
  pool_ok t p l -> pool_ok t (drop_where dead p) l /\ heap (drop_where dead p) = heap p /\
  (forall k a pt, entries p !! k = Some a -> heap p !! a = Some pt -> refcount pt = 0 -> dead pt = true ->
     a ∈ cleanups (drop_where dead p)) /\
  (forall a, a ∈ cleanups p -> a ∈ cleanups (drop_where dead p)).
Proof.
  intros Hok. destruct (drop_where_fold dead t p l (map_to_list (entries p)) Hok) as (Hq & Hh & Hcl & Hm).
  - apply NoDup_fst_map_to_list.
  - intros k a. by rewrite elem_of_map_to_list.
  - split_and!; auto. intros k a pt Hk. apply (Hcl k). by apply elem_of_map_to_list.
Qed.

(** Eviction. *)
Lemma oldest_in l e : oldest l = Some e -> e ∈ l.
Proof.
  unfold oldest. assert (H : forall o, foldl (fun o e => match o with
      | None => Some e
      | Some e' => if lastUsed e.2.2 <? lastUsed e'.2.2 then Some e else Some e' end) o l = Some e ->
      e ∈ l \/ o = Some e).
  { induction l as [|x l IH]; simpl; intros o H; [by right|]. destruct (IH _ H) as [?|Heq]; [left; by right|].
    destruct o as [e'|]; [case_match|]; simplify_eq; auto; left; left. }
  intros [?|?]%H; done.
Qed.

Lemma idle_entries_spec skip p k a pt :
  (k, (a, pt)) ∈ idle_entries skip p -> entries p !! k = Some a /\ heap p !! a = Some pt /\ k <> skip /\ refcount pt <= 0.
Proof.
  unfold idle_entries. rewrite list_elem_of_filter, list_elem_of_omap. simpl.
  intros [[Hk Hr] ([k' a'] & Hin & Heq)]. simpl in *. apply elem_of_map_to_list in Hin.
  apply fmap_Some in Heq as (pt' & Ha & Heq). simplify_eq. auto.
Qed.

Lemma evict_ok t p l skip :
  pool_ok t p l -> pool_ok t (evictLRUIfFullLocked skip p) l /\ heap (evictLRUIfFullLocked skip p) = heap p /\
    entries (evictLRUIfFullLocked skip p) !! skip = entries p !! skip /\
    pendingSetups (evictLRUIfFullLocked skip p) = pendingSetups p.
Proof.
  intros Hok. unfold evictLRUIfFullLocked. case_decide; [done|]. destruct (oldest _) as [[k [a pt]]|] eqn:Ho; [|done].
  apply oldest_in, idle_entries_spec in Ho as (Hk & Ha & Hne & Hr). split; [by eapply drop_entry_ok|].
  split_and!; simpl; [done|by rewrite lookup_delete_ne|done].
Qed.

(** ** Each section *)

Lemma holds_new a b : holds a (Handle b false) = bool_decide (b = a).
Proof. unfold holds. simpl. by rewrite andb_true_r. Qed.

Lemma reuse_ok t p l id a pt :
  pool_ok t p l -> entries p !! id = Some a -> heap p !! a = Some pt -> usable t pt = true ->
  pool_ok t (set_heap a (reuse t pt) p) (l ++ [Handle a false]).
Proof.
  intros [He Hc Hf Ho Hcl Hlv Hpd Httl] Hid Ha Hus.
  assert (Hp : poisoned pt = false) by (unfold usable in Hus; b2p; done).
  assert (Hu : forall b, users b (l ++ [Handle a false]) = (users b l + (if decide (a = b) then 1 else 0))).
  { intros b. rewrite users_snoc, holds_new. by repeat case_decide || case_bool_decide. }
  destruct (He _ _ Hid) as (pt' & Ha' & Hinst & Hn & _). simplify_eq.
  constructor; simpl; auto.
  - intros id' a' Hid'. destruct (He _ _ Hid') as (pt'' & Ha'' & Hi'' & Hn'' & Hp'').
    destruct (decide (a' = a)) as [->|Hne]; simplify_eq.
    + exists (reuse t pt). rewrite lookup_insert_eq. split_and!; auto.
    + exists pt''. rewrite lookup_insert_ne by done. auto.
  - intros a' pt'. rewrite Hu. intros [[<- <-]|[Hne Ha']]%lookup_insert_Some; simpl.
    + rewrite decide_True by done. by rewrite (Hc _ _ Ha).
    + rewrite decide_False by done. rewrite (Hc _ _ Ha'). lia.
  - intros a' Ha'. rewrite Hu. apply lookup_insert_None in Ha' as [Ha' Hne]. rewrite decide_False by done.
    destruct (Hf _ Ha'). split; [lia|done].
  - intros a' Ha'. rewrite Hu, decide_False by (intros ->; done). rewrite (Hcl _ Ha'). lia.
  - intros a' pt' [[<- <-]|[Hne Ha']]%lookup_insert_Some Hn'; [by left|]. eauto.
  - intros id' a' pt' Hp' Hen. intros [[<- <-]|[Hne Ha']]%lookup_insert_Some; [|eauto].
    exfalso. destruct (Hpd _ _ _ Hp' Hen Ha). congruence.
  - intros a' pt' [[<- <-]|[Hne Ha']]%lookup_insert_Some; simpl; eauto.
Qed.

Lemma pending_ok t p l P :
  pool_ok t p l ->
  (forall id a pt, id ∈ P -> id ∉ pendingSetups p -> entries p !! id = Some a -> heap p !! a = Some pt ->
     0 < refcount pt /\ usable t pt = false) ->
  pool_ok t (EicTunnelPool (entries p) P (heap p) (cleanups p)) l.
Proof.
  intros [He Hc Hf Ho Hcl Hlv Hpd Httl] HP. constructor; simpl; auto.
  intros id a pt Hid. destruct (decide (id ∈ pendingSetups p)); eauto.
Qed.

Lemma acquire_lookup_ok t p l id p' r :
  pool_ok t p l -> acquire_lookup t id p = (p', r) ->
  pool_ok t p' (l ++ match r with Shared a => [Handle a false] | _ => [] end).
Proof.
  intros Hok. unfold acquire_lookup. destruct (entries p !! id ≫= _) as [[a pt]|] eqn:He.
  - apply bind_Some in He as (a' & Hid & Hh). apply fmap_Some in Hh as (pt' & Ha & [= <- <-]).
    case_match eqn:Hus; [intros; simplify_eq; by eapply reuse_ok|].
    case_bool_decide; intros; simplify_eq; rewrite app_nil_r; [done|].
    pose proof (po_count _ _ _ Hok _ _ Ha) as Hr. pose proof (users_nonneg a l).
    destruct (refcount pt =? 0) eqn:Hz; b2p.
    + apply (pending_ok t (drop_entry id a p)); [eapply drop_entry_ok; eauto; lia|].
      simpl. intros id' a' pt' Hid' Hnot Hen'. assert (id' = id) as -> by set_solver. by rewrite lookup_delete_eq in Hen'.
    + apply pending_ok; [done|]. intros id' a' pt' Hid' Hnot Hen' Ha'. assert (id' = id) as -> by set_solver.
      simplify_eq. split; [lia|done].
  - intros Heq. assert (Hn : entries p !! id = None).
    { destruct (entries p !! id) as [a|] eqn:Hid; [|done]. destruct (po_entry _ _ _ Hok _ _ Hid) as (pt & Ha & _).
      simpl in He. by rewrite Ha in He. }
    case_bool_decide; simplify_eq; rewrite app_nil_r; [done|]. apply pending_ok; [done|].
    intros id' a' pt' Hid' Hnot Hen'. assert (id' = id) as -> by set_solver. congruence.
Qed.

Lemma acquire_failed_ok t p l id : pool_ok t p l -> pool_ok t (acquire_failed id p) l.
Proof. intros Hok. apply pending_ok; [done|]. set_solver. Qed.

Lemma acquire_insert_ok t p l id a :
  pool_ok t p l -> id ∈ pendingSetups p -> heap p !! a = None ->
  pool_ok t (acquire_insert t id a p) (l ++ [Handle a false]).
Proof.
  intros Hok Hpend Ha. unfold acquire_insert.
  destruct (evict_ok t (acquire_failed id p) l id) as ([He Hc Hf Ho Hcl Hlv Hpd Httl] & Hh & Hen & Hps);
    [by apply acquire_failed_ok|].
  pose proof (po_pending _ _ _ Hok id) as Hold. set (q := evictLRUIfFullLocked id (acquire_failed id p)) in *.
  simpl in Hh, Hen, Hps. clearbody q. rewrite <-Hh in Ha, Hold. rewrite <-Hen in Hold.
  assert (Hu : forall b, users b (l ++ [Handle a false]) = (users b l + (if decide (a = b) then 1 else 0))).
  { intros b. rewrite users_snoc, holds_new. by repeat case_decide || case_bool_decide. }
  destruct (Hf _ Ha) as [Hu0 Hn0].
  constructor; simpl; auto.
  - intros id' a' [[<- <-]|[Hne Hid']]%lookup_insert_Some.
    + eexists. rewrite lookup_insert_eq. split_and!; [done|done|done|]. simpl. lia.
    + destruct (He _ _ Hid') as (pt & Ha' & ? & ? & ?). exists pt. rewrite lookup_insert_ne by (intros ->; congruence). auto.
  - intros a' pt'. rewrite Hu. intros [[<- <-]|[Hne Ha']]%lookup_insert_Some; simpl.
    + rewrite decide_True by done. lia.
    + rewrite decide_False by done. rewrite (Hc _ _ Ha'). lia.
  - intros a' Ha'. rewrite Hu. apply lookup_insert_None in Ha' as [Ha' Hne]. rewrite decide_False by done.
    destruct (Hf _ Ha'). split; [lia|done].
  - intros a' Ha'. rewrite Hu, decide_False by (intros ->; done). rewrite (Hcl _ Ha'). lia.
  - intros a' pt' [[<- <-]|[Hne Ha']]%lookup_insert_Some Hn'; simpl; [left; by rewrite lookup_insert_eq|].
    destruct (Hlv _ _ Ha' Hn') as [Hen'|?]; [|by right].
    destruct (decide (id = instance pt')) as [->|Hi]; [right|left; by rewrite lookup_insert_ne]. eapply Hold; eauto.
  - intros id' a' pt' Hp' Hen'. rewrite Hps in Hp'. rewrite lookup_insert_ne in Hen' by set_solver.
    rewrite lookup_insert_ne; [rewrite <-Hps in Hp'; eauto|]. intros ->.
    destruct (He _ _ Hen') as (? & ? & _). congruence.
  - intros a' pt' [[<- <-]|[Hne Ha']]%lookup_insert_Some; simpl; [lia|eauto].
Qed.

Lemma users_release l i h b :
  l !! i = Some h -> h_released h = false ->
  users b (<[i := Handle (h_addr h) true]> l) = (users b l - (if decide (h_addr h = b) then 1 else 0)).
Proof.
  intros Hi Hr. rewrite (users_insert _ _ _ _ _ Hi). unfold holds. simpl. rewrite Hr, andb_false_r, andb_true_r.
  case_bool_decide; case_decide; try done; lia.
Qed.

(** The last release of a tunnel that must not be reused. *)
Lemma retire_ok t p l l' a pt pt' (es : gmap string addr) :
  pool_ok t p l -> heap p !! a = Some pt -> a ∉ cleanups p -> instance pt' = instance pt -> expiresAt pt' = expiresAt pt ->
  refcount pt' = 0 -> (forall b, users b l' = if decide (a = b) then 0 else users b l) ->
  (forall id b, es !! id = Some b <-> entries p !! id = Some b /\ b <> a) ->
  pool_ok t (EicTunnelPool es (pendingSetups p) (<[a := pt']> (heap p)) (cleanups p ++ [a])) l'.
Proof.
  intros [He Hc Hf Ho Hcl Hlv Hpd Httl] Ha Hn Hinst Hexp Hr Hu Hes. constructor; simpl.
  - intros id b [Hid Hne]%Hes. destruct (He _ _ Hid) as (ptb & Hb & ? & ? & ?). exists ptb.
    rewrite lookup_insert_ne by done. split_and!; auto. rewrite elem_of_app, list_elem_of_singleton. tauto.
  - intros b ptb [[<- <-]|[Hne Hb]]%lookup_insert_Some; rewrite Hu; [by rewrite decide_True|].
    rewrite decide_False by done. eauto.
  - intros b [Hb Hne]%lookup_insert_None. rewrite Hu, decide_False by done. destruct (Hf _ Hb). split; [done|].
    rewrite elem_of_app, list_elem_of_singleton. intros [?| ->]; done.
  - apply NoDup_app. split; [done|]. split; [|apply NoDup_singleton]. intros x Hx. rewrite list_elem_of_singleton. by intros ->.
  - intros b. rewrite elem_of_app, list_elem_of_singleton, Hu. intros Hb. case_decide; [done|]. destruct Hb as [?| ->]; auto; done.
  - intros b ptb [[<- <-]|[Hne Hb]]%lookup_insert_Some; rewrite elem_of_app, list_elem_of_singleton; intros Hnot; [tauto|].
    destruct (Hlv _ _ Hb) as [Hen|?]; [tauto|left|by right]. apply Hes. split; [done|]. by intros ->.
  - intros id b ptb Hid [Hen Hne]%Hes. rewrite lookup_insert_ne by done. eauto.
  - intros b ptb [[<- <-]|[Hne Hb]]%lookup_insert_Some; [rewrite Hexp|]; eauto.
Qed.

Lemma releaser_ok t0 t p l i h bad p' r :
  pool_ok t0 p l -> t0 < t -> l !! i = Some h -> releaser t (h_addr h) (h_released h) bad p = (p', r) ->
  pool_ok t p' (<[i := Handle (h_addr h) r]> l).
Proof.
  intros Hok0 Hlt Hi. assert (Hok : pool_ok t p l) by (eapply pool_ok_later; [|exact Hok0]; lia).
  unfold releaser. destruct (h_released h) eqn:Hrel.
  { intros [= <- <-]. destruct h as [a ?]. simpl in *. subst. by rewrite list_insert_id. }
  set (a := h_addr h). assert (Hpos : 0 < users a l).
  { eapply users_pos; [exact Hi|]. unfold holds. by rewrite Hrel, bool_decide_true. }
  assert (Hn : a ∉ cleanups p) by (intros Hin%(po_closed _ _ _ Hok); lia).
  destruct (heap p !! a) as [pt|] eqn:Ha; [|destruct (po_fresh _ _ _ Hok _ Ha); lia].
  pose proof (po_count _ _ _ Hok _ _ Ha) as Hrc.
  assert (Hu : forall b, users b (<[i := Handle a true]> l) = (users b l - (if decide (a = b) then 1 else 0)))
    by (intros b; by apply users_release).
  cbn [refcount poisoned expiresAt instance]. destruct (_ && _) eqn:Hdrop.
  - b2p. assert (Hone : users a l = 1) by lia. intros Heq. simplify_eq. 
    assert (Hu0 : forall b, users b (<[i := Handle a true]> l) = if decide (a = b) then 0 else users b l).
    { intros b. rewrite Hu. case_decide; subst; lia. }
    assert (Hptr : forall id, entries p !! id = Some a -> id = instance pt).
    { intros id Hid. destruct (po_entry _ _ _ Hok _ _ Hid) as (pt2 & Ha2 & Hi2 & _). congruence. }
    case_bool_decide as Hen; simpl in Hen;
      (eapply (retire_ok t p l _ a pt); [exact Hok|exact Ha|exact Hn|done|done|simpl; lia|exact Hu0|]); intros id b; simpl.
    + rewrite lookup_delete_Some. split.
      * intros [Hne Hid]. split; [done|]. intros ->. by apply Hne, eq_sym, Hptr.
      * intros [Hid Hne]. split; [|done]. intros <-. congruence.
    + split; [|by intros []]. intros Hid. split; [done|]. intros ->. apply Hen. by rewrite <-(Hptr _ Hid).
  - intros [= <- <-]. set (pt' := PooledTunnel _ _ _ _ _).
    assert (Hkeep : 0 < refcount pt' \/ usable t0 pt = true).
    { rewrite andb_false_iff, orb_false_iff in Hdrop. subst pt'. simpl. unfold usable.
      destruct Hdrop as [Hz|[Hb He]]; [left; apply Z.eqb_neq in Hz; lia|right].
      apply orb_false_iff in Hb as [_ ->]. apply Z.ltb_ge in He. simpl. apply Z.ltb_lt. lia. }
    assert (Huse : usable t pt = false -> usable t pt' = false).
    { unfold usable. subst pt'. simpl. rewrite !andb_false_iff, !negb_false_iff. intros [->|?]; [left; apply orb_true_r|by right]. }
    destruct Hok0 as [_ _ _ _ _ Hlv0 Hpd0 _]. destruct Hok as [He Hc Hf Ho Hcl Hlv Hpd Httl].
    assert (Hbusy : usable t0 pt = false -> 0 < refcount pt' /\ usable t pt' = false).
    { intros Hx. destruct Hkeep as [?|Hy]; [|congruence]. split; [done|]. apply Huse. eapply usable_later; [|exact Hx]. lia. }
    constructor; simpl; auto.
    + intros id b Hid. destruct (He _ _ Hid) as (ptb & Hb & Hinst & Hnb & Hpb). destruct (decide (b = a)) as [->|Hne].
      * simplify_eq. exists pt'. rewrite lookup_insert_eq. split_and!; auto. intros Hz.
        destruct Hkeep as [?|Hy]; [lia|]. unfold usable in Hy. b2p. rewrite andb_false_iff, orb_false_iff in Hdrop.
        subst pt'. simpl in *. destruct Hdrop as [?|[? _]]; [b2p; lia|done].
      * exists ptb. rewrite lookup_insert_ne by done. auto.
    + intros b ptb. rewrite Hu. intros [[<- <-]|[Hne Hb]]%lookup_insert_Some; simpl.
      * rewrite decide_True by done. lia.
      * rewrite decide_False by done. rewrite (Hc _ _ Hb). lia.
    + intros b [Hb Hne]%lookup_insert_None. rewrite Hu, decide_False by done. destruct (Hf _ Hb). split; [lia|done].
    + intros b Hb. rewrite Hu, decide_False by (intros <-; done). rewrite (Hcl _ Hb). lia.
    + intros b ptb [[<- <-]|[Hne Hb]]%lookup_insert_Some Hnb; [|eauto]. simpl.
      destruct (Hlv0 _ _ Ha Hn) as [?|[_ Hx]]; [by left|right; auto].
    + intros id b ptb Hid Hen [[<- <-]|[Hne Hb]]%lookup_insert_Some; [|eauto].
      destruct (Hpd0 _ _ _ Hid Hen Ha) as [_ Hx]. auto.
    + intros b ptb [[<- <-]|[Hne Hb]]%lookup_insert_Some; simpl; eauto.
Qed.

Lemma wstep_ok w w' : pool_ok (now w) (pool w) (handles w) -> wstep w w' -> pool_ok (now w') (pool w') (handles w').
Proof.
  intros Hok Hs. destruct Hs; simpl; try (assert (Hok' : pool_ok t (pool w) (handles w)) by (eapply pool_ok_later; [|exact Hok]; lia)).
  - by eapply acquire_lookup_ok.
  - by apply acquire_insert_ok.
  - by apply acquire_failed_ok.
  - eapply releaser_ok; [exact Hok|done..].
  - by apply drop_where_ok.
  - by apply drop_where_ok.
Qed.

Lemma reachable_ok w : rtc wstep empty_world w -> pool_ok (now w) (pool w) (handles w).
Proof.
  apply (rtc_invariant wstep (fun w => pool_ok (now w) (pool w) (handles w))).
  - intros; by eapply wstep_ok.
  - constructor; simpl.
    + intros id a. by rewrite lookup_empty.
    + intros a pt. by rewrite lookup_empty.
    + intros a _. split; [done|apply not_elem_of_nil].
    + constructor.
    + by intros a ?%not_elem_of_nil.
    + intros a pt. by rewrite lookup_empty.
    + intros id a pt ?%not_elem_of_empty. done.
    + intros a pt. by rewrite lookup_empty.
Qed.

(** tunnels are closed once and never in use. Whatever operations share, set up, poison, outlive
    and release tunnels, and whatever the janitor and the LRU bound evict in between: every tunnel
    is closed at most once; a tunnel that was closed has no operation running on it, is not in the
    pool and is never handed out again; a tunnel that is handed out is neither poisoned nor past
    its lifetime; and a tunnel that was never closed is in the pool under its own instance or still
    in use. *)
Theorem tunnels_closed_once w (Hreach : rtc wstep empty_world w) :
  NoDup (cleanups (pool w)) /\
  (forall a, a ∈ cleanups (pool w) -> users a (handles w) = 0 /\ forall id, entries (pool w) !! id <> Some a) /\
  (forall t id p' a, now w < t -> acquire_lookup t id (pool w) = (p', Shared a) ->
     (a ∉ cleanups (pool w)) /\ exists pt, heap (pool w) !! a = Some pt /\ instance pt = id /\ poisoned pt = false /\ t < expiresAt pt) /\
  (forall a pt, heap (pool w) !! a = Some pt -> a ∉ cleanups (pool w) ->
     entries (pool w) !! instance pt = Some a \/ 0 < users a (handles w)).
Proof.
  pose proof (reachable_ok _ Hreach) as [He Hc Hf Ho Hcl Hlv Hpd Httl]. split_and!; auto.
  - intros a Ha. split; [by apply Hcl|]. intros id Hid. destruct (He _ _ Hid) as (? & _ & _ & Hn & _). done.
  - intros t id p' a Ht. unfold acquire_lookup. destruct (entries (pool w) !! id ≫= _) as [[b pt]|] eqn:Hent; [|by case_bool_decide].
    apply bind_Some in Hent as (b' & Hid & Hh). apply fmap_Some in Hh as (pt' & Hb & [= <- <-]).
    case_match eqn:Hus; [|by case_bool_decide]. intros [= _ <-].
    destruct (He _ _ Hid) as (pt2 & Hb2 & Hi2 & Hn & _). simplify_eq. split; [done|]. exists pt.
    unfold usable in Hus. b2p. auto.
  - intros a pt Ha Hn. destruct (Hlv _ _ Ha Hn) as [?|[? _]]; [by left|right]. by rewrite <-(Hc _ _ Ha).
Qed.

(** nothing leaks. Once every operation has released its tunnel, the janitor's first pass more
    than fifty seconds later leaves the pool empty, with every tunnel ever made closed. *)
Theorem no_tunnel_leaks w t (Hreach : rtc wstep empty_world w) (Hidle : forall h, h ∈ handles w -> h_released h = true)
    (Hlate : now w + 50 * Second < t) :
  entries (sweep t (pool w)) = ∅ /\ forall a pt, heap (pool w) !! a = Some pt -> a ∈ cleanups (sweep t (pool w)).
Proof.
  pose proof (reachable_ok _ Hreach) as Hok. 
  assert (Hu : forall a, users a (handles w) = 0).
  { intros a. unfold users. destruct (filter _ (handles w)) as [|h l] eqn:Hfl; [done|].
    assert (Hin : h ∈ filter (fun h => holds a h = true) (handles w)) by (rewrite Hfl; left).
    apply list_elem_of_filter in Hin as [Hh Hin]. apply Hidle in Hin. unfold holds in Hh. rewrite Hin in Hh. b2p. done. }
  assert (Hok' : pool_ok t (pool w) (handles w)) by (eapply pool_ok_later; [|exact Hok]; unfold Second in *; lia).
  destruct (drop_where_ok (fun pt => expiresAt pt <? t) t (pool w) (handles w) Hok') as (Hsw & Hh & Hclosed & Hmono).
  assert (Hdead : forall a pt, heap (pool w) !! a = Some pt -> refcount pt = 0 /\ (expiresAt pt <? t) = true).
  { intros a pt Ha. split; [by rewrite (po_count _ _ _ Hok _ _ Ha)|]. apply Z.ltb_lt.
    pose proof (po_ttl _ _ _ Hok _ _ Ha). unfold poolTTL in *. lia. }
  assert (Hall : forall a pt, heap (pool w) !! a = Some pt -> a ∈ cleanups (sweep t (pool w))).
  { intros a pt Ha. destruct (decide (a ∈ cleanups (pool w))) as [Hin|Hn]; [by apply Hmono|].
    destruct (Hdead _ _ Ha) as [Hr Hd]. destruct (po_live _ _ _ Hok _ _ Ha Hn) as [Hen|[? _]]; [|lia].
    by eapply Hclosed. }
  split; [|exact Hall]. apply map_eq. intros id. rewrite lookup_empty. apply eq_None_not_Some. intros [a Hid].
  destruct (po_entry _ _ _ Hsw _ _ Hid) as (pt & Ha & _ & Hn & _). rewrite Hh in Ha. by apply Hn, (Hall _ _ Ha).
Qed.

(** ** Concrete runs *)

(** Two operations share the tunnel of one host; the second finds it broken. *)
Definition shared_world : world :=
  World 5 (EicTunnelPool ∅ ∅ {[0%nat := PooledTunnel "i-1" (2 + poolTTL) 3 0 true]} [0%nat])
        [Handle 0%nat true; Handle 0%nat true].

Lemma shared_world_reachable : rtc wstep empty_world shared_world.
Proof.
  eapply rtc_l; [eapply (WAcquire empty_world 1 "i-1"); [simpl; lia|vm_compute; reflexivity]|]. simpl.
  eapply rtc_l; [apply (WSetup _ 2 "i-1" 0%nat); [simpl; lia|simpl; set_solver|reflexivity]|].
  eapply rtc_l; [eapply (WAcquire _ 3 "i-1" _ _); [simpl; lia|vm_compute; reflexivity]|].
  eapply rtc_l; [eapply (WRelease _ 4 0%nat _ false _ _); [simpl; lia|vm_compute; reflexivity|vm_compute; reflexivity]|].
  eapply rtc_l; [eapply (WRelease _ 5 1%nat _ true _ _); [simpl; lia|vm_compute; reflexivity|vm_compute; reflexivity]|].
  vm_compute. apply rtc_refl.
Qed.

Lemma tunnels_closed_once_witness : cleanups (pool shared_world) = [0%nat] /\ users 0%nat (handles shared_world) = 0.
Proof.
  split; [reflexivity|].
  destruct (tunnels_closed_once shared_world shared_world_reachable) as (_ & Hcl & _).
  apply (Hcl 0%nat). simpl. left.
Defined.

(** The same host's next operation set up a tunnel that is now idle. *)
Definition idle_world : world :=
  World 8 (EicTunnelPool {["i-1" := 1%nat]} ∅
             {[0%nat := PooledTunnel "i-1" (2 + poolTTL) 3 0 true; 1%nat := PooledTunnel "i-1" (7 + poolTTL) 7 0 false]} [0%nat])
        [Handle 0%nat true; Handle 0%nat true; Handle 1%nat true].

Lemma idle_world_reachable : rtc wstep empty_world idle_world.
Proof.
  transitivity shared_world; [exact shared_world_reachable|].
  eapply rtc_l; [eapply (WAcquire shared_world 6 "i-1"); [simpl; lia|vm_compute; reflexivity]|]. simpl.
  eapply rtc_l; [apply (WSetup _ 7 "i-1" 1%nat); [simpl; lia|simpl; set_solver|reflexivity]|].
  eapply rtc_l; [eapply (WRelease _ 8 2%nat _ false _ _); [simpl; lia|vm_compute; reflexivity|vm_compute; reflexivity]|].
  vm_compute. apply rtc_refl.
Qed.

Lemma no_tunnel_leaks_witness :
  cleanups (sweep (51 * Second) (pool idle_world)) = [0%nat; 1%nat] /\ entries (sweep (51 * Second) (pool idle_world)) = ∅.
Proof.
  split; [vm_compute; reflexivity|].
  apply (no_tunnel_leaks idle_world (51 * Second) idle_world_reachable).
  - intros h Hh. simpl in Hh. apply elem_of_cons in Hh as [->|Hh]; [reflexivity|].
    apply elem_of_cons in Hh as [->|Hh]; [reflexivity|]. apply elem_of_cons in Hh as [->|Hh]; [reflexivity|].
    by apply not_elem_of_nil in Hh.
  - vm_compute. reflexivity.
Defined.

(** The two expiry tests leave one instant between them: an operation that ends
    at exactly the expiry, after another has replaced the entry at that same
    instant, leaves its tunnel open and unreachable. *)
Example expiry_instant_is_lost :
  let p0 := acquire_insert 0 "i-1" 0%nat (acquire_lookup 0 "i-1" newEICTunnelPool).1 in
  let p1 := acquire_insert poolTTL "i-1" 1%nat (acquire_lookup poolTTL "i-1" p0).1 in
  let p2 := (releaser poolTTL 0%nat false false p1).1 in
  cleanups p2 = [] /\ entries p2 = {["i-1" := 1%nat]}.
Proof. vm_compute. split; reflexivity. Qed.
