(* ===== verification/RateLimit.v ===== *)
(** * The request rate limiters

    internal/middleware/ratelimit.go and mcp_ratelimit.go: a bucket of tokens
    per caller, refilled when its interval has passed, and a janitor that
    forgets old buckets.  The theorem bounds what any caller gets through in any
    interval and says when a caller is refused. *)

From S2P Require Import Prelude.

(** ** Buckets *)

Record bucket := Bucket { tokens : Z; lastReset : time }.
Record RateLimiter := MkRateLimiter { buckets : gmap string bucket; rate : Z; interval : Z }.

Definition NewRateLimiter (rate interval : Z) : RateLimiter := MkRateLimiter ∅ rate interval.

Definition bucketTTL : Z := 10 * Minute.

(** One pass of the cleanup goroutine. *)
Definition cleanup (now : time) (rl : RateLimiter) : RateLimiter :=
  MkRateLimiter (filter (fun kb => ~ lastReset kb.2 < now - bucketTTL) (buckets rl)) (rate rl) (interval rl).

(** What a response says of the bucket, and whether the request goes on. *)
Record limit_reply := LimitReply {
  l_limit : Z; l_remaining : Z; l_reset : Z;
  l_allowed : bool                     (* else 429, with Retry-After [l_reset] *)
}.

(** The locked section of both middlewares; all its clock readings are [now]. *)
Definition take_token (now : time) (key : string) (rl : RateLimiter) : RateLimiter * limit_reply :=
  let b := default (Bucket (rate rl) now) (buckets rl !! key) in
  let b := if interval rl <=? now - lastReset b then Bucket (rate rl) now else b in
  let remaining := Z.max 0 (tokens b - 1) in
  let reset := Z.max 0 ((lastReset b + interval rl - now) `quot` Second) in
  if tokens b <=? 0
  then (MkRateLimiter (<[key := b]> (buckets rl)) (rate rl) (interval rl), LimitReply (rate rl) remaining reset false)
  else (MkRateLimiter (<[key := Bucket (tokens b - 1) (lastReset b)]> (buckets rl)) (rate rl) (interval rl),
        LimitReply (rate rl) remaining reset true).

(** ** Keys *)

(** The encodings of the code points strings.TrimSpace cuts. *)
Definition spaces : list string :=
  map (fun l => foldr (fun n s => String (Ascii.ascii_of_nat n) s) EmptyString l)
    ([[9]; [10]; [11]; [12]; [13]; [32]; [194; 133]; [194; 160]; [225; 154; 128]; [226; 128; 168]; [226; 128; 169];
      [226; 128; 175]; [226; 129; 159]; [227; 128; 128]] ++ map (fun n => [226; 128; 128 + n]) (seq 0 11))%nat.

Definition cut_space (s : string) : option string :=
  foldr (fun sp r => if has_prefix s sp then Some (str_drop (String.length sp) s) else r) None spaces.
Fixpoint trim_left (fuel : nat) (s : string) : string :=
  match fuel with
  | O => s
  | S f => match cut_space s with Some s' => trim_left f s' | None => s end
  end.
Definition cut_last_space (s : string) : option string :=
  foldr (fun sp r => let n := (String.length s - String.length sp)%nat in
                     if decide (String.length sp <= String.length s /\ str_drop n s = sp)%nat
                     then Some (str_take n s) else r) None spaces.
Fixpoint trim_right (fuel : nat) (s : string) : string :=
  match fuel with
  | O => s
  | S f => match cut_last_space s with Some s' => trim_right f s' | None => s end
  end.
Definition TrimSpace (s : string) : string :=
  let s := trim_left (String.length s) s in trim_right (String.length s) s.

Definition bearerFromHeader (authHeader : string) : string :=
  if bool_decide (7 < String.length authHeader)%nat && bool_decide (str_lower (str_take 7 authHeader) = "bearer ")
  then str_drop 7 authHeader else "".

Section Middleware.
(** [tokenKey]: the hex SHA-256 of a token. *)
Context (tokenKey : string -> string).

Definition keyFor (orgHeader authHeader clientIP : string) : string :=
  let orgID := TrimSpace orgHeader in
  if decide (orgID <> "") then "org:" +:+ orgID
  else let tok := bearerFromHeader authHeader in
       if decide (tok <> "") then "tok:" +:+ tokenKey tok else "ip:" +:+ clientIP.

(** RateLimiter.Middleware; [None] is the unlimited answer of a local
    development server. *)
Definition Middleware (localDev : bool) (now : time) (orgHeader authHeader clientIP : string) (rl : RateLimiter)
  : RateLimiter * option limit_reply :=
  if localDev then (rl, None)
  else let (rl', r) := take_token now (keyFor orgHeader authHeader clientIP) rl in (rl', Some r).

(** MCPRateLimiter.Middleware; [None] is the 401 for a missing token. *)
Definition MCPMiddleware (now : time) (authHeader : string) (rl : RateLimiter) : RateLimiter * option limit_reply :=
  let tok := bearerFromHeader authHeader in
  if decide (tok = "") then (rl, None)
  else let (rl', r) := take_token now (tokenKey tok) rl in (rl', Some r).
End Middleware.

(** ** Any history of requests and cleanups *)

Record rl_state := RlState {
  r_now : time;
  r_limiter : RateLimiter;
  r_admitted : list (string * time);       (* admitted requests: caller and instant *)
  r_refused : list (string * time)
}.

Definition rl_init (t0 : time) (rate interval : Z) : rl_state := RlState t0 (NewRateLimiter rate interval) [] [].

Definition request (t : time) (key : string) (s : rl_state) : rl_state :=
  let (rl, r) := take_token t key (r_limiter s) in
  if l_allowed r then RlState t rl ((key, t) :: r_admitted s) (r_refused s)
  else RlState t rl (r_admitted s) ((key, t) :: r_refused s).

Inductive rl_step : rl_state -> rl_state -> Prop :=
| RRequest s t key : r_now s <= t -> rl_step s (request t key s)
| RCleanup s t : r_now s <= t ->
    rl_step s (RlState t (cleanup t (r_limiter s)) (r_admitted s) (r_refused s)).

(** The requests of [key] admitted in [from, to). *)
Definition between (from to : time) (key : string) (e : string * time) : bool :=
  bool_decide (e.1 = key) && (from <=? e.2) && (e.2 <? to).
Definition admitted_in (from to : time) (key : string) (l : list (string * time)) : Z :=
  Z.of_nat (length (filter (fun e => between from to key e = true) l)).

Lemma admitted_in_cons from to key e l :
  admitted_in from to key (e :: l) = ((if between from to key e then 1 else 0) + admitted_in from to key l).
Proof.
  unfold admitted_in. rewrite filter_cons. case_decide as E; [rewrite E; simpl; lia|].
  apply not_true_iff_false in E. by rewrite E.
Qed.

Lemma admitted_in_nonneg from to key l : 0 <= admitted_in from to key l.
Proof. unfold admitted_in. lia. Qed.

Lemma between_spec from to key e : between from to key e = true <-> e.1 = key /\ from <= e.2 /\ e.2 < to.
Proof. unfold between. rewrite !andb_true_iff, bool_decide_eq_true, Z.leb_le, Z.ltb_lt. tauto. Qed.

(** The counts only depend on which elements fall in the interval. *)
Lemma admitted_in_le key l f1 t1 f2 t2 :
  (forall e, e ∈ l -> between f1 t1 key e = true -> between f2 t2 key e = true) ->
  admitted_in f1 t1 key l <= admitted_in f2 t2 key l.
Proof.
  induction l as [|e l IH]; intros H; [done|]. rewrite !admitted_in_cons.
  assert (He : between f1 t1 key e = true -> between f2 t2 key e = true) by (apply H; left).
  specialize (IH (fun e' He' => H e' (list_elem_of_further e' e l He'))).
  destruct (between f1 t1 key e), (between f2 t2 key e); try lia; by specialize (He eq_refl).
Qed.

Lemma admitted_in_split key l f m t :
  admitted_in f t key l <= admitted_in f m key l + admitted_in m t key l.
Proof.
  induction l as [|e l IH]; [done|]. rewrite !admitted_in_cons.
  assert (between f t key e = true -> between f m key e = true \/ between m t key e = true).
  { rewrite !between_spec. intros (? & ? & ?). destruct (decide (e.2 < m)); [left|right]; split_and!; auto; lia. }
  destruct (between f t key e), (between f m key e), (between m t key e); try lia; by destruct H.
Qed.

(** ** The invariant of one caller's bucket

    [reset] is when the current allowance began and [left_] what is left of it. *)
Record caller_ok (t rate interval : Z) (key : string) (admitted refused : list (string * time)) (reset left_ : Z) : Prop := CallerOk {
  co_left : 0 <= left_ /\ admitted_in reset (reset + interval) key admitted = rate - left_;
  co_past : forall a, (key, a) ∈ admitted -> a <= t /\ a < reset + interval;
  co_before : admitted_in (reset - interval) reset key admitted <= rate;
  co_window : forall from, admitted_in from (from + interval) key admitted <= 2 * rate;
  co_refused : forall a, (key, a) ∈ refused -> rate <= admitted_in (a - interval + 1) (a + 1) key admitted
}.

Lemma caller_ok_later t t' r i k la lr reset left_ :
  t <= t' -> caller_ok t r i k la lr reset left_ -> caller_ok t' r i k la lr reset left_.
Proof.
  intros Ht [Hl Hp Hb Hw Hr]. constructor; auto. intros a Ha. destruct (Hp a Ha). lia.
Qed.

Lemma caller_ok_other t r i k la lr reset left_ e :
  e.1 <> k -> caller_ok t r i k la lr reset left_ ->
  caller_ok t r i k (e :: la) lr reset left_ /\ caller_ok t r i k la (e :: lr) reset left_.
Proof.
  intros Hne [Hl Hp Hb Hw Hr].
  assert (Hc : forall f u, admitted_in f u k (e :: la) = admitted_in f u k la).
  { intros f u. rewrite admitted_in_cons. destruct (between f u k e) eqn:E; [|lia]. apply between_spec in E as [? _]. done. }
  split; constructor; intros *; rewrite ?Hc; auto.
  - intros [<-|?]%elem_of_cons; [done|auto].
  - intros [<-|?]%elem_of_cons; [done|auto].
Qed.

(** Counting in a longer interval that has no later request. *)
Lemma admitted_in_upto key la f u f' u' :
  (forall a, (key, a) ∈ la -> a < u') -> f' <= f -> admitted_in f u key la <= admitted_in f' u' key la.
Proof.
  intros Hp Hf. apply admitted_in_le. intros [k a] Hin. rewrite !between_spec. simpl. intros (-> & ? & ?).
  specialize (Hp _ Hin). split_and!; auto; lia.
Qed.

(** The allowance starts afresh. *)
Lemma caller_ok_refresh t r i k la lr reset left_ :
  0 < i -> 0 <= r -> reset + i <= t -> caller_ok t r i k la lr reset left_ -> caller_ok t r i k la lr t r.
Proof.
  intros Hi Hr0 Ht [[Hl0 Hl] Hp Hb Hw Hr]. constructor; auto.
  - split; [done|]. assert (admitted_in t (t + i) k la <= admitted_in (reset + i) (reset + i) k la) as Hle.
    { apply admitted_in_upto; [intros a Ha; by apply Hp|lia]. }
    assert (Hz : admitted_in (reset + i) (reset + i) k la = 0).
    { unfold admitted_in. destruct (filter _ la) as [|e l] eqn:Hf; [done|].
      assert (Hin : e ∈ filter (fun e => between (reset + i) (reset + i) k e = true) la) by (rewrite Hf; left).
      apply list_elem_of_filter in Hin as [Hin _]. apply between_spec in Hin. lia. }
    pose proof (admitted_in_nonneg t (t + i) k la). lia.
  - intros a Ha. destruct (Hp a Ha). lia.
  - assert (admitted_in (t - i) t k la <= admitted_in reset (reset + i) k la); [|lia].
    apply admitted_in_upto; [intros a Ha; by apply Hp|lia].
Qed.

Lemma caller_ok_admit t r i k la lr reset left_ :
  reset <= t < reset + i -> 0 < left_ -> caller_ok t r i k la lr reset left_ ->
  caller_ok t r i k ((k, t) :: la) lr reset (left_ - 1).
Proof.
  intros Ht Hpos [[Hl0 Hl] Hp Hb Hw Hr].
  assert (Hp' : forall a, (k, a) ∈ (k, t) :: la -> a <= t /\ a < reset + i).
  { intros a [[= ->]|Ha]%elem_of_cons; [lia|auto]. }
  assert (Hl' : admitted_in reset (reset + i) k ((k, t) :: la) = r - (left_ - 1)).
  { rewrite admitted_in_cons, (proj2 (between_spec _ _ _ _)) by (simpl; split_and!; [done|lia|lia]). lia. }
  assert (Hb' : admitted_in (reset - i) reset k ((k, t) :: la) <= r).
  { rewrite admitted_in_cons. destruct (between _ _ _ _) eqn:E; [apply between_spec in E; simpl in E; lia|lia]. }
  constructor; auto; [split; [lia|done]| |].
  - intros from. destruct (decide (from <= t < from + i)) as [Hin|Hout].
    + pose proof (admitted_in_split k ((k, t) :: la) from reset (from + i)).
      assert (admitted_in from reset k ((k, t) :: la) <= admitted_in (reset - i) reset k ((k, t) :: la)).
      { apply admitted_in_le. intros e _. rewrite !between_spec. intros (? & ? & ?). split_and!; auto; lia. }
      assert (admitted_in reset (from + i) k ((k, t) :: la) <= admitted_in reset (reset + i) k ((k, t) :: la)).
      { apply admitted_in_upto; [intros a Ha; by apply Hp'|lia]. }
      lia.
    + rewrite admitted_in_cons. destruct (between _ _ _ _) eqn:E; [apply between_spec in E; simpl in E; lia|].
      specialize (Hw from). lia.
  - intros a Ha. specialize (Hr a Ha). rewrite admitted_in_cons. case_match; lia.
Qed.

Lemma caller_ok_refuse t r i k la lr reset :
  reset <= t < reset + i -> caller_ok t r i k la lr reset 0 -> caller_ok t r i k la ((k, t) :: lr) reset 0.
Proof.
  intros Ht [[Hl0 Hl] Hp Hb Hw Hr]. constructor; auto. intros a [[= ->]|Ha]%elem_of_cons; [|auto].
  assert (admitted_in reset (reset + i) k la <= admitted_in (t - i + 1) (t + 1) k la); [|lia].
  apply admitted_in_upto; [|lia]. intros a Ha. destruct (Hp a Ha). lia.
Qed.

(** ** The invariant of the limiter *)

Definition rl_ok (r i : Z) (s : rl_state) : Prop :=
  rate (r_limiter s) = r /\ interval (r_limiter s) = i /\
  forall key, exists reset left_, caller_ok (r_now s) r i key (r_admitted s) (r_refused s) reset left_ /\ reset <= r_now s /\
    match buckets (r_limiter s) !! key with Some b => b = Bucket left_ reset | None => reset + i <= r_now s end.

Lemma rl_init_ok t0 r i : 0 <= r -> 0 < i -> rl_ok r i (rl_init t0 r i).
Proof.
  intros Hr Hi. split_and!; auto. intros key. exists (t0 - i), r. simpl. rewrite lookup_empty.
  split_and!; try lia. constructor; unfold admitted_in; simpl; try lia; by intros a ?%not_elem_of_nil.
Qed.

(** The bucket a request finds, refilled when due. *)
Lemma caller_ok_due t t' r i key la lr reset left_ (ob : option bucket) :
  0 <= r -> 0 < i -> t <= t' -> caller_ok t r i key la lr reset left_ -> reset <= t ->
  match ob with Some b => b = Bucket left_ reset | None => reset + i <= t end ->
  let b := default (Bucket r t') ob in
  let b := if i <=? t' - lastReset b then Bucket r t' else b in
  caller_ok t' r i key la lr (lastReset b) (tokens b) /\ lastReset b <= t' < lastReset b + i.
Proof.
  intros Hr Hi Ht Hok Hreset Hob. apply (caller_ok_later t t') in Hok; [|done]. destruct ob as [b|]; simpl.
  - subst b. simpl. destruct (i <=? t' - reset) eqn:E; b2p; simpl; (split; [|lia]); [|done].
    apply (caller_ok_refresh t' r i key la lr reset left_); auto. lia.
  - rewrite Z.sub_diag, (proj2 (Z.leb_gt i 0)) by lia. simpl. split; [|lia].
    apply (caller_ok_refresh t' r i key la lr reset left_); auto. lia.
Qed.

Lemma rl_step_ok r i s s' : 0 <= r -> 0 < i <= bucketTTL -> rl_ok r i s -> rl_step s s' -> rl_ok r i s'.
Proof.
  intros Hr Hi (Hrate & Hint & Hkeys) Hs. destruct Hs as [s t key Ht|s t Ht].
  - unfold request, take_token. rewrite Hrate, Hint.
    destruct (Hkeys key) as (reset & left_ & Hok & Hle & Hob).
    destruct (caller_ok_due _ t r i key _ _ reset left_ _ Hr (proj1 Hi) Ht Hok Hle Hob) as [Hok' Hnow].
    set (b := if i <=? _ then _ else _) in *. clearbody b.
    destruct (tokens b <=? 0) eqn:E; b2p; cbn [l_allowed]; (split_and!; [done|done|]); intros key'; simpl;
      (destruct (decide (key' = key)) as [->|Hne]; [rewrite lookup_insert_eq|rewrite lookup_insert_ne by done]).
    + assert (Hz : tokens b = 0) by (destruct Hok' as [[? _] _ _ _ _]; lia). rewrite Hz in Hok'.
      exists (lastReset b), 0. split_and!; [by apply caller_ok_refuse|lia|]. by destruct b; simpl in *; subst.
    + destruct (Hkeys key') as (reset' & left' & Hk & Hle' & Hob'). exists reset', left'.
      split_and!; [|lia|by case_match; [|lia]]. apply (caller_ok_later _ t) in Hk; [|done].
      by apply (caller_ok_other t r i key' _ _ reset' left' (key, t)).
    + exists (lastReset b), (tokens b - 1). split_and!; [by apply caller_ok_admit|lia|done].
    + destruct (Hkeys key') as (reset' & left' & Hk & Hle' & Hob'). exists reset', left'.
      split_and!; [|lia|by case_match; [|lia]]. apply (caller_ok_later _ t) in Hk; [|done].
      by apply (caller_ok_other t r i key' _ _ reset' left' (key, t)).
  - split_and!; [done|done|]. intros key. destruct (Hkeys key) as (reset & left_ & Hok & Hle & Hob). exists reset, left_. simpl.
    split_and!; [by eapply caller_ok_later|lia|].
    destruct (filter _ (buckets (r_limiter s)) !! key) as [b|] eqn:Hf.
    + apply map_lookup_filter_Some in Hf as [Hb _]. by rewrite Hb in Hob.
    + apply map_lookup_filter_None in Hf as [Hn|Hold]; [rewrite Hn in Hob; lia|].
      destruct (buckets (r_limiter s) !! key) as [b|] eqn:Hb; [|lia]. subst b. specialize (Hold _ eq_refl). simpl in Hold.
      unfold bucketTTL in *.
      destruct (decide (lastReset (Bucket left_ reset) < t - 10 * Minute)) as [Hd|Hd]; simpl in *; [lia|]. by destruct Hold.
Qed.

(** the limit. For a positive interval of at most ten minutes, over any history of requests by
    any callers interleaved with any cleanups: in no period of one interval is a caller let through
    more than twice the rate, wherever the period starts; and a caller is refused only when at least
    [rate] of its own requests were let through in the interval up to the refusal - what others
    send never costs it anything. *)
Theorem rate_is_limited r i t0 s (Hr : 0 <= r) (Hi : 0 < i <= bucketTTL) (Hreach : rtc rl_step (rl_init t0 r i) s) :
  (forall key from, admitted_in from (from + i) key (r_admitted s) <= 2 * r) /\
  (forall key a, (key, a) ∈ r_refused s -> r <= admitted_in (a - i + 1) (a + 1) key (r_admitted s)).
Proof.
  assert (Hok : rl_ok r i s).
  { eapply (rtc_invariant rl_step (rl_ok r i)); [|apply rl_init_ok; [done|apply Hi]|exact Hreach]. intros; by eapply rl_step_ok. }
  destruct Hok as (_ & _ & Hkeys). split; intros key; destruct (Hkeys key) as (reset & left_ & [_ _ _ Hw Hrf] & _); auto.
Qed.

(** Two requests a second: the third is refused, and the bound is reached
    across a refill. *)
Definition burst : rl_state :=
  request (1 * Second) "ip:a" (request (1 * Second) "ip:a"
    (request (999 * 1000000) "ip:a" (request (999 * 1000000) "ip:a" (request 0 "ip:b"
      (request 0 "ip:a" (rl_init 0 3 (1 * Second))))))).

Lemma burst_reachable : rtc rl_step (rl_init 0 3 (1 * Second)) burst.
Proof.
  unfold burst. do 6 (eapply rtc_r; [|apply RRequest; vm_compute; discriminate]). apply rtc_refl.
Qed.

Lemma rate_is_limited_witness :
  admitted_in (500 * 1000000) (500 * 1000000 + 1 * Second) "ip:a" (r_admitted burst) = 4 /\
  admitted_in (500 * 1000000) (500 * 1000000 + 1 * Second) "ip:a" (r_admitted burst) <= 2 * 3.
Proof.
  split; [vm_compute; reflexivity|].
  assert (Hi : 0 < 1 * Second <= bucketTTL) by (unfold bucketTTL, Minute, Second; lia).
  exact (proj1 (rate_is_limited 3 (1 * Second) 0 burst ltac:(lia) Hi burst_reachable) "ip:a" (500 * 1000000)).
Defined.
