(* ===== verification/Requests.v ===== *)
(** * Requests: tasks and approvals

    internal/handlers/request_store.go: one table of requests that an agent or
    a user raises and another answers.  The mutations are written as the
    statements they run, Respond split at its two, so that concurrent answers
    interleave; the theorem is that a request is decided once. *)

From S2P Require Import Prelude Json Tree A2AQueue.

(** ** Rows *)

Record CreateRequestInput := MkCreateRequestInput {
  in_kind : string; in_requester_type : string; in_requester_id : string; in_org : string;
  in_recipient_type : string; in_recipient_id : string; in_title : string; in_detail : string;
  in_priority : option Z
}.

(** A row of [requests], in the order of requestColumns after the id. *)
Record RequestRow := MkRequestRow {
  Kind : string;
  RequesterType : string;
  RequesterID : string;
  OrgID : option string;
  RecipientType : string;
  RecipientID : string;
  Title : string;
  Detail : option string;
  Status : string;
  ResponderType : option string;
  ResponderID : option string;
  Priority : option Z;
  CreatedAt : time;
  UpdatedAt : time;
  RespondedAt : option time
}.

Record RequestMessageRow := MkRequestMessageRow {
  m_request : string; m_author_type : string; m_author_id : string; m_body : string; m_created : time
}.

(** What the store broadcasts: the event, the workspace it is anchored on, and
    the request. *)
Inductive request_event :=
| EventRequestCreated (target id kind recipientType recipientID title : string)
| EventRequestResponded (target id status responderType responderID title kind : string)
| EventRequestMessage (target id message authorType authorID : string).

(** A turn for a requester agent: workspace, idempotency key, text. *)
Record notification := Notification { n_workspace : string; n_key : string; n_text : string }.

Record store := Store {
  requests : gmap string RequestRow;
  messages : gmap string RequestMessageRow;
  r_events : list request_event;
  notifications : list notification
}.

Inductive request_err :=
| ErrRequestNotFound | ErrInvalidRequestAction | ErrInvalidRequestKind | ErrInvalidRequestParty | ErrSelfResponse
| ErrDatabase.

Definition validParty (t : string) : bool := bool_decide (t = "user" \/ t = "agent").

Definition broadcastTarget (requesterType requesterID recipientType recipientID : string) : string :=
  if decide (requesterType = "agent" /\ requesterID <> "") then requesterID
  else if decide (recipientType = "agent" /\ recipientID <> "") then recipientID
  else "".

Definition emit_event (target : string) (e : request_event) (st : store) : store :=
  if decide (target = "") then st
  else Store (requests st) (messages st) (r_events st ++ [e]) (notifications st).

Definition open_status (s : string) : bool := bool_decide (s ∈ ["pending"; "info_requested"]).

Definition actionToStatus (kind action : string) : option string :=
  if decide (kind = "approval") then
    if bool_decide (action = "approved" \/ action = "rejected") then Some action else None
  else if decide (kind = "task") then
    if bool_decide (action = "done" \/ action = "rejected") then Some action else None
  else None.

Section Store.
Context `{UuidCast}.
(** [fmt]'s [%q], and the JSON text [json.Marshal] gives a value. *)
Context (quote : string -> string) (marshal : json -> string).

(** ** Notifications *)

Definition notification_body (n : notification) (fresh_uuid : string) : json :=
  JObj [("method", JStr "message/send");
        ("params", JObj [("message", JObj [("role", JStr "user");
                                           ("messageId", JStr (n_key n +:+ ("-" +:+ fresh_uuid)));
                                           ("parts", JArr [JObj [("kind", JStr "text"); ("text", JStr (n_text n))]])])])].

(** notifyRequesterAgent, up to its call of the queue, whose error is only
    logged. *)
Definition notifyRequesterAgent (f : enqueue_faults) (gen fresh_uuid : string) (known : wstable) (now : time)
    (n : notification) (q : queue) : queue :=
  let body := notification_body n fresh_uuid in
  (EnqueueA2A f gen known q now (n_workspace n) "" PriorityInfo (Payload (marshal body) (Some body)) "message/send"
     (n_key n) None).1.

Definition notify (n : notification) (st : store) : store :=
  Store (requests st) (messages st) (r_events st) (notifications st ++ [n]).

(** ** Create *)

Definition new_request (now : time) (org : option string) (i : CreateRequestInput) : RequestRow :=
  MkRequestRow (in_kind i) (in_requester_type i) (in_requester_id i) org (in_recipient_type i) (in_recipient_id i)
    (in_title i) (nullif_empty (in_detail i)) "pending" None None (in_priority i) now now None.

(** The org id must cast to uuid and the priority fit a SMALLINT. *)
Definition org_arg (org : string) : option (option string) :=
  match nullif_empty org with None => Some None | Some o => Some <$> canon o end.
Definition fits_smallint (p : option Z) : bool := null_or p (fun p => (-32768 <=? p) && (p <=? 32767)).

(** [gen]: the id gen_random_uuid() yields. *)
Definition Create (fails : bool) (gen : string) (now : time) (i : CreateRequestInput) (st : store)
    : store * (string + request_err) :=
  if negb (bool_decide (in_kind i = "task" \/ in_kind i = "approval")) then (st, inr ErrInvalidRequestKind)
  else if negb (validParty (in_requester_type i) && validParty (in_recipient_type i)) then (st, inr ErrInvalidRequestParty)
  else
    match fails, org_arg (in_org i), fits_smallint (in_priority i), requests st !! gen with
    | false, Some o, true, None =>
        let st1 := Store (<[gen := new_request now o i]> (requests st)) (messages st) (r_events st) (notifications st) in
        let target := broadcastTarget (in_recipient_type i) (in_recipient_id i) (in_requester_type i) (in_requester_id i) in
        (emit_event target (EventRequestCreated target gen (in_kind i) (in_recipient_type i) (in_recipient_id i) (in_title i)) st1,
         inl gen)
    | _, _, _, _ => (st, inr ErrDatabase)
    end.

(** ** Get *)

Definition Get (fails : bool) (id : string) (st : store) : RequestRow + request_err :=
  match canon id with
  | None => inr ErrDatabase
  | Some c => if fails then inr ErrDatabase
              else match requests st !! c with Some r => inl r | None => inr ErrRequestNotFound end
  end.

(** ** Updates of a row that is still open

    [UPDATE requests SET ... WHERE id = $ AND status IN ('pending',
    'info_requested')]: the table and the number of rows. *)
Definition update_open (id : string) (f : RequestRow -> RequestRow) (t : gmap string RequestRow) : gmap string RequestRow * Z :=
  match t !! id with
  | Some r => if open_status (Status r) then (<[id := f r]> t, 1) else (t, 0)
  | None => (t, 0)
  end.

Definition with_status (now : time) (s : string) (r : RequestRow) : RequestRow :=
  MkRequestRow (Kind r) (RequesterType r) (RequesterID r) (OrgID r) (RecipientType r) (RecipientID r) (Title r) (Detail r) s
    (ResponderType r) (ResponderID r) (Priority r) (CreatedAt r) now (RespondedAt r).

Definition with_decision (now : time) (s responderType responderID : string) (r : RequestRow) : RequestRow :=
  MkRequestRow (Kind r) (RequesterType r) (RequesterID r) (OrgID r) (RecipientType r) (RecipientID r) (Title r) (Detail r) s
    (Some responderType) (Some responderID) (Priority r) (CreatedAt r) now (Some now).

(** The statement and what its Exec and RowsAffected answer. *)
Definition exec_update (f : exec_fault) (id : string) (u : RequestRow -> RequestRow) (st : store)
    : store * option request_err :=
  match canon id with
  | None => (st, Some ErrDatabase)
  | Some c =>
      match f with
      | ExecErr => (st, Some ErrDatabase)
      | _ => let '(t, n) := update_open c u (requests st) in
             (Store t (messages st) (r_events st) (notifications st),
              match f with
              | RowsAffectedErr => Some ErrDatabase
              | _ => if n =? 0 then Some ErrRequestNotFound else None
              end)
      end
  end.

Definition RequestInfo (f : exec_fault) (now : time) (id : string) (st : store) : store * option request_err :=
  exec_update f id (with_status now "info_requested") st.

Definition Cancel (f : exec_fault) (now : time) (id : string) (st : store) : store * option request_err :=
  exec_update f id (with_status now "cancelled") st.

(** ** Respond *)

(** An answer that passed the checks: the request as read, and what to write. *)
Record answer := Answer {
  a_id : string; a_row : RequestRow; a_status : string; a_responder_type : string; a_responder_id : string
}.

(** The checks and the SELECT. *)
Definition Respond_read (fails : bool) (id action responderType responderID : string) (st : store) : answer + request_err :=
  let responderType := if decide (responderType = "") then "user" else responderType in
  if negb (validParty responderType) then inr ErrInvalidRequestParty
  else
    let responderID := if decide (responderID = "") then "human" else responderID in
    match Get fails id st with
    | inr e => inr e
    | inl req =>
        if decide (responderType = RequesterType req /\ responderID = RequesterID req) then inr ErrSelfResponse
        else match actionToStatus (Kind req) action with
             | None => inr ErrInvalidRequestAction
             | Some status => inl (Answer id req status responderType responderID)
             end
    end.

Definition responded_text (id : string) (a : answer) : string :=
  let req := a_row a in
  let by_ := if decide (a_responder_type a = "agent") then "agent " +:+ a_responder_id a else "the user" in
  ("Your " +:+ Kind req) +:+ (" request " +:+ quote (Title req)) +:+ (" (id " +:+ id) +:+ (") was " +:+ a_status a) +:+
  (" by " +:+ by_) +:+
  (". Use get_request for the thread or check_requests for all your outcomes. " +:+
   "If this outcome changes what you owe the user, acknowledge it briefly with send_message_to_user — this notification is a background turn and does NOT appear in their chat.").

(** The UPDATE, the event and the turn for the requester.  The row's own id is
    the canonical one the SELECT returned. *)
Definition Respond_write (f : exec_fault) (now : time) (a : answer) (st : store) : store * (RequestRow + request_err) :=
  let req := a_row a in
  match exec_update f (a_id a) (with_decision now (a_status a) (a_responder_type a) (a_responder_id a)) st with
  | (st1, Some e) => (st1, inr e)
  | (st1, None) =>
      let target := broadcastTarget (RequesterType req) (RequesterID req) (RecipientType req) (RecipientID req) in
      let st2 := emit_event target (EventRequestResponded target (a_id a) (a_status a) (a_responder_type a) (a_responder_id a)
                                      (Title req) (Kind req)) st1 in
      let rid := default (a_id a) (canon (a_id a)) in
      let st3 := if decide (RequesterType req = "agent" /\ RequesterID req <> "" /\
                            (a_responder_type a <> "agent" \/ a_responder_id a <> RequesterID req))
                 then notify (Notification (RequesterID req) ("request-responded:" +:+ rid) (responded_text rid a)) st2
                 else st2 in
      (st3, inl (MkRequestRow (Kind req) (RequesterType req) (RequesterID req) (OrgID req) (RecipientType req) (RecipientID req)
                   (Title req) (Detail req) (a_status a) (Some (a_responder_type a)) (Some (a_responder_id a)) (Priority req)
                   (CreatedAt req) (UpdatedAt req) (RespondedAt req)))
  end.

(** [race]: what others do between the two statements. *)
Definition Respond (read_fails : bool) (race : store -> store) (f : exec_fault) (now : time)
    (id action responderType responderID : string) (st : store) : store * (RequestRow + request_err) :=
  match Respond_read read_fails id action responderType responderID st with
  | inr e => (race st, inr e)
  | inl a => Respond_write f now a (race st)
  end.

(** ** AddMessage *)

Definition AddMessage_read (fails : bool) (id authorType : string) (st : store) : RequestRow + request_err :=
  if negb (validParty authorType) then inr ErrInvalidRequestParty else Get fails id st.

(** The INSERT; [gen] is the id of the new message.  The request it belongs to
    must exist. *)
Definition AddMessage_insert (fails : bool) (gen : string) (now : time) (id authorType authorID body : string) (st : store)
    : store * bool :=
  let rid := default id (canon id) in
  match fails, requests st !! rid, messages st !! gen with
  | false, Some _, None =>
      (Store (requests st) (<[gen := MkRequestMessageRow rid authorType authorID body now]> (messages st))
         (r_events st) (notifications st), true)
  | _, _, _ => (st, false)
  end.

Definition authoredByRequester (req : RequestRow) (authorType authorID : string) : bool :=
  bool_decide (authorType = RequesterType req /\ authorID = RequesterID req).

(** The status update, whose error is only logged. *)
Definition AddMessage_flip (f : exec_fault) (now : time) (id authorType authorID : string) (req : RequestRow) (st : store) : store :=
  if authoredByRequester req authorType authorID then st
  else (exec_update f id (with_status now "info_requested") st).1.

Definition message_text (id : string) (req : RequestRow) (body : string) : string :=
  ("More info requested on your " +:+ Kind req) +:+ (" request " +:+ quote (Title req)) +:+
  (" (id " +:+ id) +:+ ("): " +:+ body) +:+ (newline +:+ "Reply with add_request_message.").

Definition AddMessage_tell (gen id authorType authorID body : string) (req : RequestRow) (st : store) : store :=
  let target := broadcastTarget (RequesterType req) (RequesterID req) (RecipientType req) (RecipientID req) in
  let st1 := emit_event target (EventRequestMessage target id gen authorType authorID) st in
  if negb (authoredByRequester req authorType authorID) && bool_decide (RequesterType req = "agent" /\ RequesterID req <> "")
  then notify (Notification (RequesterID req) ("request-message:" +:+ gen) (message_text (default id (canon id)) req body)) st1
  else st1.

(** [race1], [race2]: what others do before the INSERT and before the UPDATE. *)
Definition AddMessage (read_fails insert_fails : bool) (flip : exec_fault) (race1 race2 : store -> store)
    (gen : string) (now : time) (id authorType authorID body : string) (st : store) : store * (string + request_err) :=
  match AddMessage_read read_fails id authorType st with
  | inr e => (st, inr e)
  | inl req =>
      match AddMessage_insert insert_fails gen now id authorType authorID body (race1 st) with
      | (st1, false) => (st1, inr ErrDatabase)
      | (st1, true) =>
          (AddMessage_tell gen id authorType authorID body req
             (AddMessage_flip flip now id authorType authorID req (race2 st1)), inl gen)
      end
  end.

(** The thread, oldest first, at most 200. *)
Definition Messages (fails : bool) (requestID : string) (st : store) : option (list (string * RequestMessageRow)) :=
  match canon requestID with
  | None => None
  | Some c => if fails then None
              else Some (take 200 (sort_by (fun kr => m_created kr.2)
                                     (filter (fun kr => m_request kr.2 = c) (map_to_list (messages st)))))
  end.

(** ** Lists: newest first, at most fifty *)

Definition select_requests (p : RequestRow -> bool) (st : store) : list (string * RequestRow) :=
  take 50 (sort_by (fun kr => - CreatedAt kr.2) (filter (fun kr => p kr.2 = true) (map_to_list (requests st)))).

Definition status_matches (status : string) (r : RequestRow) : bool := bool_decide (status = "" \/ Status r = status).

Definition ListInbox (recipientType recipientID status : string) (st : store) : list (string * RequestRow) :=
  select_requests (fun r => bool_decide (RecipientType r = recipientType /\ RecipientID r = recipientID) && status_matches status r) st.

Definition ListOutgoing (requesterType requesterID status : string) (st : store) : list (string * RequestRow) :=
  select_requests (fun r => bool_decide (RequesterType r = requesterType /\ RequesterID r = requesterID) && status_matches status r) st.

(** The open requests of an org, each with the name of the agent that raised
    it.  An agent id that does not cast to uuid fails the whole query. *)
Definition pending_in (org kind : string) (r : RequestRow) : bool :=
  open_status (Status r) && bool_decide (org = "" \/ OrgID r = canon org) && bool_decide (kind = "" \/ Kind r = kind).

Definition requester_name (t : wstable) (r : RequestRow) : option string :=
  if decide (RequesterType r = "agent") then c ← canon (RequesterID r); ws_name <$> t !! c else None.

Definition uncastable (r : RequestRow) : bool := bool_decide (RequesterType r = "agent" /\ canon (RequesterID r) = None).

Definition ListPendingForOrg (fails : bool) (t : wstable) (orgID kind : string) (st : store)
    : option (list (string * RequestRow * option string)) :=
  let candidates := filter (fun kr => pending_in orgID kind kr.2 = true) (map_to_list (requests st)) in
  if fails || bool_decide (orgID <> "" /\ canon orgID = None) || existsb (fun kr => uncastable kr.2) candidates then None
  else Some ((fun kr => (kr, requester_name t kr.2)) <$> take 50 (sort_by (fun kr => - CreatedAt kr.2) candidates)).
End Store.
