(* ===== verification/RequestsSafety.v ===== *)
(** * What the request store keeps

    The operations of Requests as an interleaving machine: every statement is a
    step, an answer waits between its read and its update, and whatever a
    caller is told is the label of the step.  The machine is proved to
    implement a small specification - a map from ids to the phase of the
    request - and what holds of the specification is carried over. *)

From S2P Require Import Prelude Json Tree A2AQueue Requests.

(** ** The specification *)

Inductive phase := Open (asked : bool) | Decided (status responderType responderID : string) | Withdrawn.

(** Who raised a request, what it is and whom it asks: fixed at creation. *)
Record ident := Ident {
  i_kind : string; i_requester_type : string; i_requester_id : string; i_recipient_type : string; i_recipient_id : string
}.

Inductive label :=
| LRaise (id : string)
| LAsk (id : string)
| LDecide (id status responderType responderID : string)
| LWithdraw (id : string).

Abbreviation spec := (gmap string (ident * phase)).

Inductive spec_step : spec -> label -> spec -> Prop :=
| spec_raise m id i :
    m !! id = None -> spec_step m (LRaise id) (<[id := (i, Open false)]> m)
| spec_ask m id i b :
    m !! id = Some (i, Open b) -> spec_step m (LAsk id) (<[id := (i, Open true)]> m)
| spec_decide m id i b s rt ri :
    m !! id = Some (i, Open b) ->
    actionToStatus (i_kind i) s = Some s -> validParty rt = true ->
    ~ (rt = i_requester_type i /\ ri = i_requester_id i) ->
    spec_step m (LDecide id s rt ri) (<[id := (i, Decided s rt ri)]> m)
| spec_withdraw m id i b :
    m !! id = Some (i, Open b) -> spec_step m (LWithdraw id) (<[id := (i, Withdrawn)]> m).

Inductive spec_run : spec -> list label -> spec -> Prop :=
| run_nil m : spec_run m [] m
| run_snoc m ls m' l m'' : spec_run m ls m' -> spec_step m' l m'' -> spec_run m (ls ++ [l]) m''.

(** The request a label closes. *)
Definition closes (l : label) : option string :=
  match l with LDecide id _ _ _ | LWithdraw id => Some id | _ => None end.

Definition is_closed (p : phase) : Prop := match p with Open _ => False | _ => True end.

(** ** The machine *)

Record sys := Sys { s_store : store; s_answers : list answer }.

Section Machine.
Context `{UuidCast}.
Context (quote : string -> string).

Definition told {A} (l : A -> label) (r : A + request_err) : option label :=
  match r with inl a => Some (l a) | inr _ => None end.

Definition told_unit (l : label) (e : option request_err) : option label :=
  match e with None => Some l | Some _ => None end.

(** The canonical spelling of an id a caller gave. *)
Definition cid (id : string) : string := default id (canon id).

(** Steps, labelled with what the caller is told. *)
Inductive step : sys -> option label -> sys -> Prop :=
| step_create fails gen now i s ans st' r :
    Create fails gen now i s = (st', r) -> step (Sys s ans) (told LRaise r) (Sys st' ans)
| step_respond_read fails id action rt ri s ans a :
    Respond_read fails id action rt ri s = inl a -> step (Sys s ans) None (Sys s (a :: ans))
| step_respond_write f now a s l1 l2 st' r :
    Respond_write quote f now a s = (st', r) ->
    step (Sys s (l1 ++ a :: l2))
      (told (fun _ => LDecide (cid (a_id a)) (a_status a) (a_responder_type a) (a_responder_id a)) r) (Sys st' (l1 ++ l2))
| step_request_info f now id s ans st' e :
    RequestInfo f now id s = (st', e) -> step (Sys s ans) (told_unit (LAsk (cid id)) e) (Sys st' ans)
| step_cancel f now id s ans st' e :
    Cancel f now id s = (st', e) -> step (Sys s ans) (told_unit (LWithdraw (cid id)) e) (Sys st' ans)
| step_message_insert fails gen now id at_ ai body s ans :
    step (Sys s ans) None (Sys (AddMessage_insert fails gen now id at_ ai body s).1 ans)
| step_message_flip f now id at_ ai req s ans :
    step (Sys s ans) None (Sys (AddMessage_flip f now id at_ ai req s) ans)
| step_message_tell gen id at_ ai body req s ans :
    step (Sys s ans) None (Sys (AddMessage_tell quote gen id at_ ai body req s) ans).

(** A run and what its callers were told, in order. *)
Inductive sys_run : sys -> list label -> sys -> Prop :=
| sys_nil s : sys_run s [] s
| sys_snoc s ls s' o s'' : sys_run s ls s' -> step s' o s'' -> sys_run s (ls ++ option_list o) s''.

Definition empty_store : store := Store ∅ ∅ [] [].
Definition init : sys := Sys empty_store [].

(** ** From rows to phases *)

Definition ident_of (r : RequestRow) : ident :=
  Ident (Kind r) (RequesterType r) (RequesterID r) (RecipientType r) (RecipientID r).

Definition phase_of (r : RequestRow) : phase :=
  if decide (Status r = "pending") then Open false
  else if decide (Status r = "info_requested") then Open true
  else if decide (Status r = "cancelled") then Withdrawn
  else Decided (Status r) (default "" (ResponderType r)) (default "" (ResponderID r)).

Definition abs (st : store) : spec := (fun r => (ident_of r, phase_of r)) <$> requests st.
End Machine.

(** ** The specification closes a request once *)

Lemma spec_step_closed m l m' id i p :
  spec_step m l m' -> m !! id = Some (i, p) -> is_closed p -> m' !! id = Some (i, p) /\ closes l <> Some id.
Proof.
  intros Hs Hm Hc.
  destruct Hs; (destruct (decide (id0 = id)) as [->|Hne];
    [simplify_eq; by destruct Hc | rewrite lookup_insert_ne by done; split; [done | simpl; congruence]]).
Qed.

Lemma spec_step_closes m l m' id :
  spec_step m l m' -> closes l = Some id -> exists i p, m' !! id = Some (i, p) /\ is_closed p.
Proof. intros Hs Hc. destruct Hs; simplify_eq/=; eexists _, _; by rewrite lookup_insert_eq. Qed.

Lemma spec_run_closed m ls m' :
  spec_run m ls m' ->
  NoDup (omap closes ls) /\
  forall id, id ∈ omap closes ls -> exists i p, m' !! id = Some (i, p) /\ is_closed p.
Proof.
  induction 1 as [|m ls m' l m'' Hr [IHn IH] Hs]; simpl; [split; [constructor|set_solver]|].
  assert (Hnext : forall id, id ∈ omap closes ls -> closes l <> Some id /\ exists i p, m'' !! id = Some (i, p) /\ is_closed p).
  { intros id (i & p & Hm & Hc)%IH. destruct (spec_step_closed _ _ _ _ _ _ Hs Hm Hc). eauto. }
  rewrite omap_app. simpl. destruct (closes l) as [d|] eqn:E; simpl.
  - split.
    + rewrite NoDup_app. split; [done|]. split; [|apply NoDup_singleton].
      intros id [Hne _]%Hnext Hin. apply list_elem_of_singleton in Hin as ->. done.
    + intros id [Hid|Hid]%elem_of_app; [by apply Hnext|].
      apply list_elem_of_singleton in Hid as ->. by eapply spec_step_closes.
  - rewrite app_nil_r. split; [done|]. intros id Hid. by apply Hnext.
Qed.

(** A decision in the run is the phase of the request at its end. *)
Lemma spec_run_decided m ls m' :
  spec_run m ls m' -> forall id st rt ri, LDecide id st rt ri ∈ ls ->
  exists i, m' !! id = Some (i, Decided st rt ri) /\ actionToStatus (i_kind i) st = Some st /\
            ~ (rt = i_requester_type i /\ ri = i_requester_id i).
Proof.
  induction 1 as [|m ls m' l m'' Hr IH Hs]; intros id st rt ri Hin; [by apply not_elem_of_nil in Hin|].
  apply elem_of_app in Hin as [Hin|Hin].
  - destruct (IH _ _ _ _ Hin) as (i & Hm & Ha). exists i. split; [|done]. by eapply spec_step_closed.
  - apply list_elem_of_singleton in Hin as <-. inversion Hs; subst. exists i. by rewrite lookup_insert_eq.
Qed.

(** ** What the statements do to the rows *)

Section Statements.
Context `{UuidCast}.

(** Rows are neither deleted nor re-addressed. *)
Definition keeps_idents (t t' : gmap string RequestRow) : Prop :=
  forall c r, t !! c = Some r -> exists r', t' !! c = Some r' /\ ident_of r' = ident_of r.

Lemma keeps_idents_refl t : keeps_idents t t.
Proof. intros c r ?. eauto. Qed.
Lemma keeps_idents_trans t1 t2 t3 : keeps_idents t1 t2 -> keeps_idents t2 t3 -> keeps_idents t1 t3.
Proof. intros H1 H2 c r (r1 & H3 & E1)%H1. destruct (H2 _ _ H3) as (r2 & ? & E2). exists r2. by rewrite E2. Qed.

Lemma keeps_idents_update t c r f :
  t !! c = Some r -> ident_of (f r) = ident_of r -> keeps_idents t (<[c := f r]> t).
Proof.
  intros Hc Hf c' r' Hc'. destruct (decide (c = c')) as [->|].
  - exists (f r). rewrite lookup_insert_eq. split; [done|congruence].
  - exists r'. rewrite lookup_insert_ne by done. done.
Qed.

Lemma keeps_idents_insert t c r : t !! c = None -> keeps_idents t (<[c := r]> t).
Proof. intros Hc c' r' Hc'. exists r'. rewrite lookup_insert_ne by congruence. done. Qed.

(** An UPDATE either left the rows alone, and said so, or changed one open row. *)
Lemma exec_update_cases f id u st st' e :
  exec_update f id u st = (st', e) ->
  (requests st' = requests st /\ e <> None \/
   exists c r, canon id = Some c /\ requests st !! c = Some r /\ open_status (Status r) = true /\
               requests st' = <[c := u r]> (requests st) /\
               (e = None \/ f = RowsAffectedErr /\ e = Some ErrDatabase)) /\
  messages st' = messages st /\ r_events st' = r_events st /\ notifications st' = notifications st.
Proof.
  unfold exec_update, update_open. intros Hx.
  destruct (canon id) as [c|]; [|simplify_eq; auto].
  destruct f; [|simplify_eq; auto|]; destruct (requests st !! c) as [r|] eqn:Er; simplify_eq/=; auto;
    destruct (open_status (Status r)) eqn:Eo; simplify_eq/=; auto;
    (split; [right; exists c, r; split_and!; auto | done]).
Qed.

(** What an operation does to the rows, seen from the specification: nothing,
    or one step of it. *)
Lemma abs_update st c r u l :
  requests st !! c = Some r ->
  spec_step (abs st) l (<[c := (ident_of (u r), phase_of (u r))]> (abs st)) ->
  forall st', requests st' = <[c := u r]> (requests st) -> spec_step (abs st) l (abs st').
Proof. intros Hc Hs st' E. unfold abs at 2. rewrite E, fmap_insert. done. Qed.

Lemma abs_lookup_open st c r :
  requests st !! c = Some r -> open_status (Status r) = true -> exists b, abs st !! c = Some (ident_of r, Open b).
Proof.
  intros Hc Ho. unfold abs. rewrite lookup_fmap, Hc. simpl. unfold phase_of. apply bool_decide_eq_true in Ho.
  destruct (decide (Status r = "pending")); [eauto|]. destruct (decide (Status r = "info_requested")); [eauto|].
  exfalso. set_solver.
Qed.

Lemma phase_of_asked now r : phase_of (with_status now "info_requested" r) = Open true.
Proof. done. Qed.
Lemma phase_of_cancelled now r : phase_of (with_status now "cancelled" r) = Withdrawn.
Proof. done. Qed.

Lemma actionToStatus_spec k a s :
  actionToStatus k a = Some s -> s = a /\ (k = "approval" /\ (s = "approved" \/ s = "rejected") \/ k = "task" /\ (s = "done" \/ s = "rejected")).
Proof. unfold actionToStatus. intros. repeat (case_decide || case_match; simplify_eq); b2p; naive_solver. Qed.

Lemma phase_of_decided now k a s rt ri r :
  actionToStatus k a = Some s -> phase_of (with_decision now s rt ri r) = Decided s rt ri.
Proof. intros (-> & Hs)%actionToStatus_spec. unfold phase_of. simpl. repeat case_decide; naive_solver. Qed.

(** The two status updates a caller can make. *)
Lemma exec_update_simulates f id u st st' e l :
  exec_update f id u st = (st', e) ->
  (forall r, ident_of (u r) = ident_of r) ->
  (forall r b, abs st !! cid id = Some (ident_of r, Open b) -> requests st !! cid id = Some r ->
     spec_step (abs st) l (<[cid id := (ident_of (u r), phase_of (u r))]> (abs st))) ->
  keeps_idents (requests st) (requests st') /\
  exists ls, spec_run (abs st) ls (abs st') /\ option_list (told_unit l e) `sublist_of` ls.
Proof.
  intros Hx Hu Hl. destruct (exec_update_cases _ _ _ _ _ _ Hx) as [[[E Hne]|(c & r & Hc & Hr & Ho & E & He)] _].
  - split; [rewrite E; apply keeps_idents_refl|]. exists []. unfold abs. rewrite E.
    split; [constructor|]. destruct e; [constructor|done].
  - rewrite E. split; [by apply keeps_idents_update|]. exists [l].
    destruct (abs_lookup_open _ _ _ Hr Ho) as [b Hb].
    assert (cid id = c) as Ec by (unfold cid; by rewrite Hc).
    split.
    + apply (run_snoc _ [] (abs st)); [constructor|]. eapply abs_update; eauto. rewrite <- Ec in *. eauto.
    + destruct e; simpl; [apply sublist_nil_l|done].
Qed.

(** An answer that waits was checked against the row it will close. *)
Definition answer_ok (st : store) (a : answer) : Prop :=
  exists r, requests st !! cid (a_id a) = Some r /\ ident_of r = ident_of (a_row a) /\
    actionToStatus (Kind r) (a_status a) = Some (a_status a) /\ validParty (a_responder_type a) = true /\
    ~ (a_responder_type a = RequesterType r /\ a_responder_id a = RequesterID r).

Lemma answer_ok_keeps st st' a : keeps_idents (requests st) (requests st') -> answer_ok st a -> answer_ok st' a.
Proof.
  intros Hk (r & Hr & Hi & Ha & Hv & Hn). destruct (Hk _ _ Hr) as (r' & Hr' & E).
  exists r'. unfold ident_of in *. simplify_eq. split_and!; congruence || (intros [? ?]; apply Hn; split; congruence).
Qed.

Lemma Respond_read_ok fails id action rt ri st a :
  Respond_read fails id action rt ri st = inl a ->
  answer_ok st a /\ a = Answer id (a_row a) action (if decide (rt = "") then "user" else rt) (if decide (ri = "") then "human" else ri) /\
  requests st !! cid id = Some (a_row a).
Proof.
  unfold Respond_read, Get, answer_ok, cid. intros Hx.
  destruct (validParty _) eqn:Hv in Hx; [simpl in Hx|done].
  destruct (canon id) as [c|] eqn:Hc; [|done]. destruct fails; [done|].
  destruct (requests st !! c) as [r|] eqn:Hr; [|done]. case_match; [done|].
  destruct (actionToStatus (Kind r) action) as [s|] eqn:Ha; [|done].
  pose proof Ha as [-> _]%actionToStatus_spec. injection Hx as <-. simpl. rewrite Hc. eauto 10.
Qed.

(** ** The simulation *)

(** A step of the store that only the rows' [f] and the label concern. *)
Definition simulates (st : store) (o : option label) (st' : store) : Prop :=
  keeps_idents (requests st) (requests st') /\
  exists ls, spec_run (abs st) ls (abs st') /\ option_list o `sublist_of` ls.

Lemma simulates_same st st' : requests st' = requests st -> simulates st None st'.
Proof.
  intros E. split; [rewrite E; apply keeps_idents_refl|]. exists []. unfold abs. rewrite E.
  split; constructor.
Qed.

Lemma simulates_ext st o st1 st2 : simulates st o st1 -> requests st2 = requests st1 -> simulates st o st2.
Proof. intros [Hk (ls & Hr & Hl)] E. unfold simulates, abs. rewrite E. eauto. Qed.

Lemma simulates_silent st o st' : simulates st o st' -> simulates st None st'.
Proof. intros [Hk (ls & Hr & Hl)]. split; [done|]. exists ls. split; [done|]. apply sublist_nil_l. Qed.

Lemma emit_event_requests target e st : requests (emit_event target e st) = requests st.
Proof. unfold emit_event. by case_decide. Qed.

Lemma Create_cases fails gen now i st :
  (exists e, Create fails gen now i st = (st, inr e)) \/
  (exists o st1 target e, Create fails gen now i st = (emit_event target e st1, inl gen) /\ requests st !! gen = None /\
     requests st1 = <[gen := new_request now o i]> (requests st) /\
     validParty (in_requester_type i) = true /\ validParty (in_recipient_type i) = true /\
     (in_kind i = "task" \/ in_kind i = "approval")).
Proof.
  unfold Create. case_match; [eauto|]. case_match; [eauto|]. b2p.
  case_match; [eauto|]. case_match; [|eauto]. case_match; [|eauto]. case_match; [eauto|].
  right. eexists _, _, _, _. split; [reflexivity|]. split_and!; done.
Qed.

Lemma Create_simulates fails gen now i st st' r :
  Create fails gen now i st = (st', r) -> simulates st (told LRaise r) st'.
Proof.
  intros Hx. destruct (Create_cases fails gen now i st) as [[e E]|(o & st1 & target & ev & E & Hn & Hs & _)];
    rewrite E in Hx; simplify_eq; [by apply simulates_same|].
  eapply simulates_ext; [|apply emit_event_requests]. unfold simulates. rewrite Hs. simpl.
  split; [by apply keeps_idents_insert|]. exists [LRaise gen]. split; [|done].
  apply (run_snoc _ [] (abs st)); [constructor|].
  unfold abs. rewrite Hs, fmap_insert. apply spec_raise. by rewrite lookup_fmap, Hn.
Qed.

Lemma RequestInfo_simulates f now id st st' e :
  RequestInfo f now id st = (st', e) -> simulates st (told_unit (LAsk (cid id)) e) st'.
Proof.
  intros Hx. eapply exec_update_simulates; [done|done|]. intros r b Hb _.
  rewrite phase_of_asked. by econstructor.
Qed.

Lemma Cancel_simulates f now id st st' e :
  Cancel f now id st = (st', e) -> simulates st (told_unit (LWithdraw (cid id)) e) st'.
Proof.
  intros Hx. eapply exec_update_simulates; [done|done|]. intros r b Hb _.
  rewrite phase_of_cancelled. by econstructor.
Qed.

Context (quote : string -> string).

Lemma Respond_write_simulates f now a st st' r :
  answer_ok st a -> Respond_write quote f now a st = (st', r) ->
  simulates st (told (fun _ => LDecide (cid (a_id a)) (a_status a) (a_responder_type a) (a_responder_id a)) r) st'.
Proof.
  intros (row & Hrow & Hi & Ha & Hv & Hn) Hx. unfold Respond_write in Hx.
  destruct (exec_update f (a_id a) _ st) as [st1 e] eqn:Hu.
  assert (Hsim : simulates st (told_unit (LDecide (cid (a_id a)) (a_status a) (a_responder_type a) (a_responder_id a)) e) st1).
  { eapply exec_update_simulates; [done|done|]. intros r0 b Hb Hr0.
    assert (r0 = row) as -> by congruence. rewrite (phase_of_decided _ _ _ _ _ _ _ Ha). by econstructor. }
  destruct e as [e|]; simplify_eq/=; [done|].
  eapply simulates_ext; [done|]. case_decide; simpl; by rewrite emit_event_requests.
Qed.

Lemma AddMessage_flip_simulates f now id at_ ai req st : simulates st None (AddMessage_flip f now id at_ ai req st).
Proof.
  unfold AddMessage_flip. case_match; [by apply simulates_same|].
  destruct (exec_update f id (with_status now "info_requested") st) as [st' e] eqn:Hx. simpl.
  eapply simulates_silent. by eapply (RequestInfo_simulates f now id).
Qed.

Lemma step_simulates s o s' :
  Forall (answer_ok (s_store s)) (s_answers s) -> step quote s o s' ->
  simulates (s_store s) o (s_store s') /\ Forall (answer_ok (s_store s')) (s_answers s').
Proof.
  intros Hf Hs.
  assert (Hkeep : forall l, simulates (s_store s) o (s_store s') ->
            Forall (answer_ok (s_store s)) l -> Forall (answer_ok (s_store s')) l).
  { intros l [Hk _] Hl. eapply Forall_impl; [done|]. intros a. by apply answer_ok_keeps. }
  assert (Hgoal : simulates (s_store s) o (s_store s') -> Forall (answer_ok (s_store s)) (s_answers s') ->
            simulates (s_store s) o (s_store s') /\ Forall (answer_ok (s_store s')) (s_answers s')) by auto.
  destruct Hs; simpl in *; apply Hgoal; clear Hgoal Hkeep.
  all: try done.
  - by eapply Create_simulates.
  - by apply simulates_same.
  - constructor; [|done]. by apply Respond_read_ok in H0 as [? _].
  - apply Forall_app in Hf as [_ Ha]. inversion Ha; subst. by eapply Respond_write_simulates.
  - apply Forall_app in Hf as [? Ha]. inversion Ha; subst. by apply Forall_app.
  - by eapply RequestInfo_simulates.
  - by eapply Cancel_simulates.
  - apply simulates_same. unfold AddMessage_insert. by repeat case_match.
  - apply AddMessage_flip_simulates.
  - apply simulates_same. unfold AddMessage_tell. case_match; simpl; by rewrite emit_event_requests.
Qed.

Lemma spec_run_app m ls m' ls' m'' : spec_run m ls m' -> spec_run m' ls' m'' -> spec_run m (ls ++ ls') m''.
Proof.
  intros H1 H2. induction H2 as [|m' ls' m1 l m2 _ IH Hs]; [by rewrite app_nil_r|].
  rewrite app_assoc. econstructor; eauto.
Qed.

Lemma sys_run_simulates s acks s' :
  Forall (answer_ok (s_store s)) (s_answers s) -> sys_run quote s acks s' ->
  Forall (answer_ok (s_store s')) (s_answers s') /\
  exists ls, spec_run (abs (s_store s)) ls (abs (s_store s')) /\ acks `sublist_of` ls.
Proof.
  intros Hf Hr. induction Hr as [s|s ls s' o s'' _ IH Hs].
  - split; [done|]. exists []. split; constructor.
  - destruct (IH Hf) as (Hf' & ls1 & Hr1 & Hl1). destruct (step_simulates _ _ _ Hf' Hs) as [[_ (ls2 & Hr2 & Hl2)] Hf''].
    split; [done|]. exists (ls1 ++ ls2). split; [by eapply spec_run_app|by apply sublist_app].
Qed.
End Statements.

(** ** Rows *)

(** What the columns of a row promise each other: an undecided row has no
    responder, a decided one has a status its kind allows and a responder that
    is not its requester. *)
Definition row_ok (r : RequestRow) : Prop :=
  (Kind r = "task" \/ Kind r = "approval") /\ validParty (RequesterType r) = true /\ validParty (RecipientType r) = true /\
  (Status r ∈ ["pending"; "info_requested"; "cancelled"] /\ ResponderType r = None /\ ResponderID r = None /\ RespondedAt r = None \/
   exists rt ri t, ResponderType r = Some rt /\ ResponderID r = Some ri /\ RespondedAt r = Some t /\
     validParty rt = true /\ ~ (rt = RequesterType r /\ ri = RequesterID r) /\ actionToStatus (Kind r) (Status r) = Some (Status r)).

Lemma open_row_undecided r :
  row_ok r -> open_status (Status r) = true -> ResponderType r = None /\ ResponderID r = None /\ RespondedAt r = None.
Proof.
  intros (_ & _ & _ & [(_ & ?)|(rt & ri & t & _ & _ & _ & _ & _ & Ha)]) Ho; [done|].
  apply actionToStatus_spec in Ha as [_ Ha]. unfold open_status in Ho. b2p.
  rewrite !elem_of_cons, elem_of_nil in Ho. destruct Ha as [[_ [E|E]]|[_ [E|E]]]; rewrite E in Ho; destruct_or?; done.
Qed.

Definition rows_ok (st : store) : Prop := map_Forall (fun _ r => row_ok r) (requests st).

Lemma abs_decided st id i s rt ri :
  rows_ok st -> abs st !! id = Some (i, Decided s rt ri) ->
  exists r, requests st !! id = Some r /\ ident_of r = i /\ Status r = s /\ ResponderType r = Some rt /\ ResponderID r = Some ri.
Proof.
  intros Hok. unfold abs. rewrite lookup_fmap_Some. intros (r & [= <- E] & Hr).
  exists r. split; [done|]. destruct (Hok _ _ Hr) as (_ & _ & _ & [(Hin & _)|(rt' & ri' & t & E1 & E2 & _)]);
    unfold phase_of in E; repeat case_decide; try done; [set_solver|].
  rewrite E1, E2 in E. injection E as <- <- <-. done.
Qed.

Section Rows.
Context `{UuidCast}.
Context (quote : string -> string).

Lemma exec_update_rows f id u st st' e :
  exec_update f id u st = (st', e) -> rows_ok st ->
  (forall r, requests st !! cid id = Some r -> row_ok r -> open_status (Status r) = true -> row_ok (u r)) -> rows_ok st'.
Proof.
  intros Hx Hok Hu. unfold rows_ok.
  destruct (exec_update_cases _ _ _ _ _ _ Hx) as [[[-> _]|(c & r & Hc & Hr & Ho & -> & _)] _]; [done|].
  apply map_Forall_insert_2; [|done]. apply Hu; [by unfold cid; rewrite Hc|by eapply Hok|done].
Qed.

Lemma with_status_ok now s r :
  s ∈ ["info_requested"; "cancelled"] -> row_ok r -> open_status (Status r) = true -> row_ok (with_status now s r).
Proof.
  intros Hs Hr Ho. destruct (open_row_undecided _ Hr Ho) as (? & ? & ?). destruct Hr as (? & ? & ? & _).
  split_and!; simpl; auto. left. split_and!; simpl; auto. set_solver.
Qed.

Lemma step_rows s o s' :
  Forall (answer_ok (s_store s)) (s_answers s) -> rows_ok (s_store s) -> step quote s o s' -> rows_ok (s_store s').
Proof.
  intros Hf Hok Hs. destruct Hs as [fails gen now i s ans st' r Hx|fails id action rt ri s ans a Hx
    |f now a s l1 l2 st' r Hx|f now id s ans st' e Hx|f now id s ans st' e Hx| |f now id at_ ai req s ans|]; simpl in *.
  - destruct (Create_cases fails gen now i s) as [[e E]|(o & st1 & target & ev & E & Hn & Hrow & ? & ? & ?)];
      rewrite E in Hx; simplify_eq; [done|].
    unfold rows_ok. rewrite emit_event_requests, Hrow. apply map_Forall_insert_2; [|done].
    split_and!; simpl; auto. left. split_and!; simpl; auto. set_solver.
  - done.
  - apply Forall_app in Hf as [_ Ha]. inversion Ha as [|? ? (row & Hrow & Hi & Hact & Hv & Hne)]; subst.
    unfold Respond_write in Hx. destruct (exec_update f (a_id a) _ s) as [st1 e] eqn:Hu.
    assert (rows_ok st1).
    { eapply exec_update_rows; [done|done|]. intros r0 Hr0 (? & ? & ? & _) _. simplify_eq.
      split_and!; simpl; auto. right. eauto 10. }
    destruct e; simplify_eq/=; [done|]. unfold rows_ok. case_decide; simpl; by rewrite emit_event_requests.
  - eapply exec_update_rows; [done|done|]. intros. apply with_status_ok; [set_solver|done|done].
  - eapply exec_update_rows; [done|done|]. intros. apply with_status_ok; [set_solver|done|done].
  - unfold AddMessage_insert, rows_ok. by repeat case_match.
  - unfold AddMessage_flip. case_match; [done|].
    destruct (exec_update f id (with_status now "info_requested") s) as [st' e] eqn:Hx. simpl.
    eapply exec_update_rows; [done|done|]. intros. apply with_status_ok; [set_solver|done|done].
  - unfold AddMessage_tell, rows_ok. case_match; simpl; by rewrite emit_event_requests.
Qed.

Lemma run_ok acks s :
  sys_run quote init acks s -> Forall (answer_ok (s_store s)) (s_answers s) /\ rows_ok (s_store s).
Proof.
  intros Hr. remember init as s0 eqn:E. revert E. induction Hr as [|s0 ls s' o s'' Hr IH Hs]; intros ->.
  - split; [constructor|]. apply map_Forall_empty.
  - destruct (IH eq_refl) as [Hf Hok]. split; [by eapply step_simulates|by eapply step_rows].
Qed.
End Rows.

(** ** Properties *)

(** C10: The request store implements its specification: however its operations
    interleave and fail, what callers are told is, in order, part of a run of
    the specification, and the rows are the state that run ends in. *)
Theorem requests_refine_spec `{UuidCast} quote acks s :
  sys_run quote init acks s ->
  exists ls, spec_run ∅ ls (abs (s_store s)) /\ acks `sublist_of` ls.
Proof.
  intros Hr. apply sys_run_simulates in Hr as [_ (ls & Hr & Hl)]; [|constructor].
  exists ls. unfold abs in Hr at 1. simpl in Hr. rewrite fmap_empty in Hr. done.
Qed.

(** A request is closed once: at most one caller is ever told that its
    answer or its withdrawal closed it, and the row then carries that answer,
    which its kind allows and which the requester did not give itself. *)
Theorem request_decided_once `{UuidCast} quote acks s :
  sys_run quote init acks s ->
  NoDup (omap closes acks) /\
  forall id st rt ri, LDecide id st rt ri ∈ acks ->
    exists r, requests (s_store s) !! id = Some r /\ Status r = st /\ ResponderType r = Some rt /\ ResponderID r = Some ri /\
      actionToStatus (Kind r) st = Some st /\ ~ (rt = RequesterType r /\ ri = RequesterID r).
Proof.
  intros Hrun. pose proof Hrun as Hr. apply sys_run_simulates in Hr as [_ (ls & Hr & Hl)]; [|constructor].
  destruct (spec_run_closed _ _ _ Hr) as [Hn _].
  split; [by apply (sublist_NoDup _ _ Hn), sublist_omap|].
  intros id st rt ri Hin. eapply elem_of_sublist in Hin; [|done].
  destruct (spec_run_decided _ _ _ Hr _ _ _ _ Hin) as (i & Hm & Ha & Hne).
  apply abs_decided in Hm as (r & Hr' & <- & ? & ? & ?); [|by apply run_ok in Hrun as [_ ?]]. eauto 10.
Qed.

(** C11: In every reachable store the rows are well-formed: the kinds, parties
    and statuses of the schema, no responder on an undecided request, and on a
    decided one a status of its kind with a responder who did not raise it. *)
Theorem requests_well_typed `{UuidCast} quote acks s : sys_run quote init acks s -> rows_ok (s_store s).
Proof. intros Hr. by apply run_ok in Hr as [_ ?]. Qed.

(** What each refusal of Respond says about the request, read in [st] and
    written in [st1]. *)
Definition refusal `{UuidCast} (id action rt ri : string) (st st1 : store) (e : request_err) : Prop :=
  match e with
  | ErrInvalidRequestParty => rt <> "user" /\ rt <> "agent"
  | ErrSelfResponse => exists r, requests st !! cid id = Some r /\ rt = RequesterType r /\ ri = RequesterID r
  | ErrInvalidRequestAction => exists r, requests st !! cid id = Some r /\ actionToStatus (Kind r) action = None
  | ErrRequestNotFound =>
      requests st !! cid id = None \/
      forall r, requests st1 !! cid id = Some r -> open_status (Status r) = false
  | ErrInvalidRequestKind => False
  | ErrDatabase => True
  end.

Lemma Respond_read_err `{UuidCast} fails id action rt ri st st1 e :
  Respond_read fails id action rt ri st = inr e ->
  refusal id action (if decide (rt = "") then "user" else rt) (if decide (ri = "") then "human" else ri) st st1 e.
Proof.
  unfold Respond_read, Get, refusal, cid, validParty. intros.
  repeat (case_match; simplify_eq/=); b2p; eauto; try tauto; destruct_and?; eauto.
Qed.

Lemma exec_update_err `{UuidCast} f id u st st' e :
  exec_update f id u st = (st', Some e) ->
  e = ErrDatabase \/ e = ErrRequestNotFound /\ forall r, requests st !! cid id = Some r -> open_status (Status r) = false.
Proof.
  unfold exec_update, update_open, cid. intros Hx.
  destruct (canon id) as [c|]; [|simplify_eq; auto]. simpl.
  destruct f; [|simplify_eq; auto|simplify_eq/=];
    (destruct (requests st !! c) as [r|] eqn:Er; [destruct (open_status (Status r)) eqn:Eo|]; simplify_eq/=; auto;
     right; split; congruence).
Qed.

(** A refused answer says why, tells nobody, and changes nothing - except
    that an update whose row count could not be read did decide the request. *)
Theorem Respond_errors `{UuidCast} quote rf race f now id action rt ri st st' e :
  Respond quote rf race f now id action rt ri st = (st', inr e) ->
  let rt' := if decide (rt = "") then "user" else rt in
  let ri' := if decide (ri = "") then "human" else ri in
  refusal id action rt' ri' st (race st) e /\
  r_events st' = r_events (race st) /\ notifications st' = notifications (race st) /\ messages st' = messages (race st) /\
  (requests st' = requests (race st) \/
   f = RowsAffectedErr /\ e = ErrDatabase /\
   exists r, requests (race st) !! cid id = Some r /\ open_status (Status r) = true /\
     requests st' = <[cid id := with_decision now action rt' ri' r]> (requests (race st))).
Proof.
  intros Hx rt' ri'. unfold Respond in Hx.
  destruct (Respond_read rf id action rt ri st) as [a|e'] eqn:Hr.
  - unfold Respond_write in Hx. destruct (exec_update f (a_id a) _ (race st)) as [st1 [e''|]] eqn:Hu; simplify_eq.
    destruct (Respond_read_ok _ _ _ _ _ _ _ Hr) as (_ & E & _). rewrite E in Hu. simpl in Hu. fold rt' ri' in Hu.
    destruct (exec_update_cases _ _ _ _ _ _ Hu) as [Hc (Hm & He & Hn)].
    split; [|split; [done|split; [done|split; [done|]]]].
    + destruct (exec_update_err _ _ _ _ _ _ Hu) as [->|[-> ?]]; simpl; auto.
    + destruct Hc as [[? _]|(c & r & Hc & Hrow & Ho & Ht & [?|[-> Hdb]])]; [by left|done|].
      injection Hdb as ->. right. unfold cid. rewrite Hc. simpl. eauto 10.
  - simplify_eq. split_and!; auto. by eapply Respond_read_err.
Qed.

(** ** Witnesses

    An agent asks the user to approve a deployment; two answers pass their
    checks, the approval lands first and the rejection is refused. *)
Module Demo.
#[local] Existing Instance plain_cast.
Definition q (s : string) : string := s.
Definition input : CreateRequestInput := MkCreateRequestInput "approval" "agent" "ws-1" "" "user" "" "Deploy" "" None.
Definition st1 : store := (Create false "r1" 10 input empty_store).1.
Definition ans (action : string) : answer := Answer "r1" (new_request 10 None input) action "user" "human".
Definition st2 : store := (Respond_write q ExecOk 20 (ans "approved") st1).1.
Definition answered : RequestRow :=
  MkRequestRow "approval" "agent" "ws-1" None "user" "" "Deploy" None "approved" (Some "user") (Some "human") None 10 10 None.
Definition acks : list label := [LRaise "r1"; LDecide "r1" "approved" "user" "human"].

Lemma demo_run : sys_run q init acks (Sys st2 []).
Proof.
  set (s1 := Sys st1 []). set (s2 := Sys st1 [ans "approved"]). set (s3 := Sys st1 [ans "rejected"; ans "approved"]).
  assert (H1 : sys_run q init ([] ++ option_list (Some (LRaise "r1"))) s1).
  { econstructor; [constructor|]. apply (step_create q false "r1" 10 input empty_store [] st1 (inl "r1")). by vm_compute. }
  assert (H2 : sys_run q init ([LRaise "r1"] ++ option_list None) s2).
  { econstructor; [exact H1|]. apply (step_respond_read q false "r1" "approved" "" "" st1 []). by vm_compute. }
  assert (H3 : sys_run q init ([LRaise "r1"] ++ option_list None) s3).
  { econstructor; [exact H2|]. apply (step_respond_read q false "r1" "rejected" "" "" st1 [ans "approved"]). by vm_compute. }
  assert (H4 : sys_run q init ([LRaise "r1"] ++ option_list (Some (LDecide "r1" "approved" "user" "human"))) (Sys st2 [ans "rejected"])).
  { econstructor; [exact H3|].
    refine (eq_ind _ (fun o => step q s3 o (Sys st2 [ans "rejected"]))
              (step_respond_write q ExecOk 20 (ans "approved") st1 [ans "rejected"] [] st2 (inl answered) _) _ _); by vm_compute. }
  assert (H5 : sys_run q init (acks ++ option_list None) (Sys st2 [])).
  { econstructor; [exact H4|]. apply (step_respond_write q ExecOk 30 (ans "rejected") st2 [] [] st2 (inr ErrRequestNotFound)).
    by vm_compute. }
  exact H5.
Qed.
End Demo.

Lemma requests_refine_spec_witness :
  sys_run (H:=plain_cast) Demo.q init Demo.acks (Sys Demo.st2 []) /\
  exists ls, spec_run ∅ ls (abs Demo.st2) /\ Demo.acks `sublist_of` ls.
Proof. split; [exact Demo.demo_run|]. exact (requests_refine_spec _ _ _ Demo.demo_run). Defined.

Lemma request_decided_once_witness :
  LDecide "r1" "approved" "user" "human" ∈ Demo.acks /\
  exists r, requests Demo.st2 !! "r1" = Some r /\ Status r = "approved" /\ ResponderType r = Some "user".
Proof.
  assert (Hin : LDecide "r1" "approved" "user" "human" ∈ Demo.acks) by (apply elem_of_cons; right; by apply elem_of_cons; left).
  split; [exact Hin|].
  destruct (request_decided_once _ _ _ Demo.demo_run) as [_ Hd].
  destruct (Hd _ _ _ _ Hin) as (r & ? & ? & ? & _). exists r. auto.
Defined.

Lemma requests_well_typed_witness : exists r, requests Demo.st2 !! "r1" = Some r /\ row_ok r.
Proof.
  pose proof (requests_well_typed _ _ _ Demo.demo_run) as Hok.
  destruct (requests Demo.st2 !! "r1") as [r|] eqn:E; [|by vm_compute in E].
  exists r. split; [reflexivity|]. exact (Hok "r1" r E).
Defined.

(** The second answer of the demonstration, refused. *)
Lemma Respond_errors_witness :
  let race := fun _ => Demo.st2 in
  Respond (H:=plain_cast) Demo.q false race ExecOk 30 "r1" "rejected" "" "" Demo.st1 = (Demo.st2, inr ErrRequestNotFound) /\
  (requests Demo.st1 !! "r1" = None \/ forall r, requests Demo.st2 !! "r1" = Some r -> open_status (Status r) = false).
Proof.
  intros race.
  assert (Hx : Respond (H:=plain_cast) Demo.q false race ExecOk 30 "r1" "rejected" "" "" Demo.st1 = (Demo.st2, inr ErrRequestNotFound))
    by (by vm_compute).
  split; [exact Hx|]. exact (proj1 (Respond_errors _ _ _ _ _ _ _ _ _ _ _ _ Hx)).
Defined.
