(* ===== verification/RequestsApi.v ===== *)
(** * The HTTP surface of the request store

    internal/handlers/requests.go.  A handler is reached over two routes: with
    a workspace in the path, where the caller holds that workspace's token, and
    without one ([wsID] empty), where an admin calls.  The decoded body is an
    argument, [None] when gin could not bind it; [races] are what other callers
    do between the handler's own statements. *)

From S2P Require Import Prelude Json Tree A2AQueue Requests RequestsSafety.

Record CreateRequestBody := MkCreateRequestBody {
  cb_kind : string; cb_recipient_type : string; cb_recipient_id : string; cb_title : string; cb_detail : string;
  cb_priority : option Z
}.
Record RespondRequestBody := MkRespondRequestBody { rb_action : string; rb_responder_type : string; rb_responder_id : string }.
Record AddRequestMessageBody := MkAddRequestMessageBody { mb_body : string; mb_author_type : string; mb_author_id : string }.

(** A status code with an error text, string fields, or rows. *)
Inductive reply :=
| RError (code : Z) (error : string)
| RFields (code : Z) (fields : list (string * string))
| RRequest (code : Z) (request : RequestRow) (messages : list (string * RequestMessageRow))
| RRows (code : Z) (rows : list (string * RequestRow)).

Definition code_of (r : reply) : Z :=
  match r with RError c _ | RFields c _ | RRequest c _ _ | RRows c _ => c end.

Definition error_text (e : request_err) : string :=
  match e with
  | ErrRequestNotFound => "request: not found"
  | ErrInvalidRequestAction => "request: invalid action for this request kind"
  | ErrInvalidRequestKind => "request: kind must be 'task' or 'approval'"
  | ErrInvalidRequestParty => "request: type must be 'user' or 'agent'"
  | ErrSelfResponse => "request: responder cannot be the requester"
  | ErrDatabase => ""
  end.

Definition isRequester (req : RequestRow) (wsID : string) : bool := bool_decide (RequesterType req = "agent" /\ RequesterID req = wsID).
Definition isRecipient (req : RequestRow) (wsID : string) : bool := bool_decide (RecipientType req = "agent" /\ RecipientID req = wsID).
Definition isParty (req : RequestRow) (wsID : string) : bool := isRequester req wsID || isRecipient req wsID.

Section Api.
Context `{UuidCast}.
Context (quote : string -> string).

Definition Create_handler (fails : bool) (gen : string) (now : time) (db : wsdb) (workspaceID : string)
    (body : option CreateRequestBody) (st : store) : store * reply :=
  match body with
  | None => (st, RError 400 "invalid request body")
  | Some b =>
      let orgID := match orgRootID db workspaceID with DbOk root => root | _ => "" end in
      match Create fails gen now
              (MkCreateRequestInput (cb_kind b) "agent" workspaceID orgID (cb_recipient_type b) (cb_recipient_id b)
                 (cb_title b) (cb_detail b) (cb_priority b)) st with
      | (st1, inl id) => (st1, RFields 201 [("request_id", id); ("status", "pending")])
      | (st1, inr ErrInvalidRequestKind) => (st1, RError 400 (error_text ErrInvalidRequestKind))
      | (st1, inr ErrInvalidRequestParty) => (st1, RError 400 (error_text ErrInvalidRequestParty))
      | (st1, inr _) => (st1, RError 500 "failed to create request")
      end
  end.

(** The lookup that the token route makes first: the request as read when
    [ok] accepts the caller, or the refusal. *)
Definition authorize (fails : bool) (requestID : string) (ok : RequestRow -> bool) (missing broken refused : string)
    (st : store) : option reply :=
  match Get fails requestID st with
  | inr ErrRequestNotFound => Some (RError 404 missing)
  | inr _ => Some (RError 500 broken)
  | inl req => if ok req then None else Some (RError 403 refused)
  end.

Definition Get_handler (fails messages_fail : bool) (wsID requestID : string) (st : store) : reply :=
  match Get fails requestID st with
  | inr ErrRequestNotFound => RError 404 "request not found"
  | inr _ => RError 500 "query failed"
  | inl req =>
      if negb (bool_decide (wsID = "")) && negb (isParty req wsID) then RError 403 "not a participant"
      else match Messages messages_fail requestID st with
           | None => RError 500 "query failed"
           | Some msgs => RRequest 200 req msgs
           end
  end.

(** [race1] acts between the authorization and Respond, [race2] inside it. *)
Definition Respond_handler (authz_fails read_fails : bool) (f : exec_fault) (race1 race2 : store -> store) (now : time)
    (wsID requestID : string) (body : option RespondRequestBody) (st : store) : store * reply :=
  match body with
  | None => (st, RError 400 "invalid request body")
  | Some b =>
      let '(responderType, responderID) :=
        if decide (wsID = "") then (rb_responder_type b, rb_responder_id b) else ("agent", wsID) in
      match (if decide (wsID = "") then None
             else authorize authz_fails requestID (fun req => isRecipient req wsID)
                    "request not found or already resolved" "failed to respond" "not the recipient" st) with
      | Some refusal => (st, refusal)
      | None =>
          match Respond quote read_fails race2 f now requestID (rb_action b) responderType responderID (race1 st) with
          | (st1, inl _) => (st1, RFields 200 [("status", rb_action b); ("request_id", requestID)])
          | (st1, inr e) =>
              (st1, match e with
                    | ErrRequestNotFound => RError 404 "request not found or already resolved"
                    | ErrInvalidRequestAction | ErrInvalidRequestParty | ErrSelfResponse => RError 400 (error_text e)
                    | _ => RError 500 "failed to update"
                    end)
          end
      end
  end.

Definition AddMessage_handler (authz_fails read_fails insert_fails : bool) (flip : exec_fault)
    (race1 race2 race3 : store -> store) (gen : string) (now : time)
    (wsID requestID : string) (body : option AddRequestMessageBody) (st : store) : store * reply :=
  match body with
  | None => (st, RError 400 "invalid request body")
  | Some b =>
      let '(authorType, authorID) :=
        if decide (wsID = "") then (mb_author_type b, mb_author_id b) else ("agent", wsID) in
      match (if decide (wsID = "") then None
             else authorize authz_fails requestID (fun req => isParty req wsID)
                    "request not found" "failed to add message" "not a participant" st) with
      | Some refusal => (st, refusal)
      | None =>
          match AddMessage quote read_fails insert_fails flip race2 race3 gen now requestID authorType authorID (mb_body b) (race1 st) with
          | (st1, inl id) => (st1, RFields 201 [("status", "created"); ("request_id", requestID); ("message_id", id)])
          | (st1, inr ErrRequestNotFound) => (st1, RError 404 "request not found")
          | (st1, inr ErrInvalidRequestParty) => (st1, RError 400 (error_text ErrInvalidRequestParty))
          | (st1, inr _) => (st1, RError 500 "failed to add message")
          end
      end
  end.

Definition Cancel_handler (authz_fails : bool) (f : exec_fault) (race1 : store -> store) (now : time)
    (wsID requestID : string) (st : store) : store * reply :=
  match (if decide (wsID = "") then None
         else authorize authz_fails requestID (fun req => isRequester req wsID)
                "request not found or already resolved" "failed to cancel" "not the requester" st) with
  | Some refusal => (st, refusal)
  | None =>
      match Cancel f now requestID (race1 st) with
      | (st1, None) => (st1, RFields 200 [("status", "cancelled"); ("request_id", requestID)])
      | (st1, Some ErrRequestNotFound) => (st1, RError 404 "request not found or already resolved")
      | (st1, Some _) => (st1, RError 500 "failed to cancel")
      end
  end.

Definition ListInbox_handler (fails : bool) (workspaceID status : string) (st : store) : reply :=
  if fails then RError 500 "query failed" else RRows 200 (ListInbox "agent" workspaceID status st).

Definition ListOutgoing_handler (fails : bool) (workspaceID status : string) (st : store) : reply :=
  if fails then RError 500 "query failed" else RRows 200 (ListOutgoing "agent" workspaceID status st).

Definition ListPending_handler (fails : bool) (t : wstable) (orgID kind : string) (st : store) : reply :=
  if negb (bool_decide (kind = "" \/ kind = "task" \/ kind = "approval")) then RError 400 "kind must be 'task' or 'approval'"
  else match ListPendingForOrg fails t orgID kind st with
       | None => RError 500 "query failed"
       | Some rows => RRows 200 (fst <$> rows)
       end.
End Api.

(** ** What a token buys *)

Section Authorization.
Context `{UuidCast}.

(** Others may do to the store whatever its operations do. *)
Definition polite (race : store -> store) : Prop := forall st, keeps_idents (requests st) (requests (race st)).

Lemma authorize_none fails id ok m1 m2 m3 st :
  authorize fails id ok m1 m2 m3 st = None -> exists r, requests st !! cid id = Some r /\ ok r = true.
Proof.
  unfold authorize, Get, cid. destruct (canon id) as [c|]; [|done]. destruct fails; [done|]. simpl.
  destruct (requests st !! c) as [r|]; [|done]. destruct (ok r) eqn:E; [eauto|done].
Qed.

Lemma authorize_code fails id ok m1 m2 m3 st r :
  authorize fails id ok m1 m2 m3 st = Some r -> code_of r ∈ [403; 404; 500].
Proof. unfold authorize. intros. repeat (case_match; simplify_eq/=); set_solver. Qed.

Lemma ident_party r r' wsID : ident_of r' = ident_of r ->
  isRecipient r' wsID = isRecipient r wsID /\ isRequester r' wsID = isRequester r wsID /\ isParty r' wsID = isParty r wsID.
Proof.
  unfold ident_of, isParty, isRecipient, isRequester. intros [= E1 E2 E3 E4 E5]. by rewrite E2, E3, E4, E5.
Qed.

(** A status update that was acknowledged acted on an open row. *)
Lemma exec_update_ok f id u st st' :
  exec_update f id u st = (st', None) ->
  exists r, requests st !! cid id = Some r /\ open_status (Status r) = true /\ requests st' !! cid id = Some (u r).
Proof.
  intros Hx. destruct (exec_update_cases _ _ _ _ _ _ Hx) as [[[_ Hn]|(c & r & Hc & Hr & Ho & E & _)] _]; [done|].
  exists r. unfold cid. rewrite Hc. simpl. rewrite E, lookup_insert_eq. done.
Qed.

Lemma Respond_ok quote rf race f now id action rt ri st st' row :
  rt <> "" -> ri <> "" -> polite race ->
  Respond quote rf race f now id action rt ri st = (st', inl row) ->
  exists r, requests (race st) !! cid id = Some r /\ requests st' !! cid id = Some (with_decision now action rt ri r) /\
    ~ (rt = RequesterType r /\ ri = RequesterID r) /\ actionToStatus (Kind r) action = Some action.
Proof.
  intros Hrt Hri Hp Hx. unfold Respond in Hx.
  destruct (Respond_read rf id action rt ri st) as [a|e] eqn:Hr; [|done].
  destruct (Respond_read_ok _ _ _ _ _ _ _ Hr) as (Hok & Ea & _). rewrite !decide_False in Ea by done.
  destruct (answer_ok_keeps _ _ _ (Hp st) Hok) as (r & Hrow & _ & Ha & _ & Hn).
  unfold Respond_write in Hx. destruct (exec_update f (a_id a) _ (race st)) as [st1 [e|]] eqn:Hu; [done|].
  destruct (exec_update_ok _ _ _ _ _ Hu) as (r' & Hr' & _ & Hr1). simplify_eq.
  rewrite Ea in *. simpl in *. exists r. split; [done|]. split; [|done].
  case_decide; simpl; by rewrite emit_event_requests.
Qed.
End Authorization.

Lemma RequestInfo_polite `{UuidCast} f now id : polite (fun st => (RequestInfo f now id st).1).
Proof.
  intros st. destruct (RequestInfo f now id st) as [st' e] eqn:E. by apply (RequestInfo_simulates f now id) in E as [? _].
Qed.

(** ** Properties *)

(** Over the token route a workspace answers only requests addressed to it,
    as itself, and never one it raised: after a 200 the row is addressed to the
    caller, carries the caller as its responder and has another requester. *)
Theorem token_answers_own_inbox `{UuidCast} quote af rf f race1 race2 now wsID requestID b st st' rep :
  wsID <> "" -> polite race1 -> polite race2 ->
  Respond_handler quote af rf f race1 race2 now wsID requestID (Some b) st = (st', rep) -> code_of rep = 200 ->
  exists r, requests st' !! cid requestID = Some r /\
    RecipientType r = "agent" /\ RecipientID r = wsID /\
    ResponderType r = Some "agent" /\ ResponderID r = Some wsID /\
    ~ (RequesterType r = "agent" /\ RequesterID r = wsID) /\
    Status r = rb_action b /\ actionToStatus (Kind r) (rb_action b) = Some (rb_action b).
Proof.
  intros Hws Hp1 Hp2 Hx Hc. unfold Respond_handler in Hx. rewrite !decide_False in Hx by done.
  destruct (authorize _ _ _ _ _ _ _) as [rep'|] eqn:Ha; simplify_eq.
  - apply authorize_code in Ha. rewrite Hc in Ha. set_solver.
  - destruct (authorize_none _ _ _ _ _ _ _ Ha) as (r0 & Hr0 & Hrec).
    destruct (Respond _ _ _ _ _ _ _ _ _ _) as [st1 [row|e]] eqn:Hr; [|destruct e; by simplify_eq/=].
    apply Respond_ok in Hr as (r & Hrow & Hst & Hn & Hact); [|done..]. injection Hx as -> _.
    exists (with_decision now (rb_action b) "agent" wsID r). split; [done|].
    destruct (keeps_idents_trans _ _ _ (Hp1 st) (Hp2 (race1 st)) _ _ Hr0) as (r' & Hr' & Hi).
    assert (r' = r) as -> by congruence.
    destruct (ident_party _ _ wsID Hi) as (E & _ & _). rewrite Hrec in E. apply bool_decide_eq_true in E as [? ?].
    split_and!; simpl; auto. intros [? ?]. by apply Hn.
Qed.

(** Likewise over the token route only the agent that raised a request withdraws
    it. *)
Theorem token_cancels_own_requests `{UuidCast} af f race1 now wsID requestID st st' rep :
  wsID <> "" -> polite race1 ->
  Cancel_handler af f race1 now wsID requestID st = (st', rep) -> code_of rep = 200 ->
  exists r, requests st' !! cid requestID = Some r /\
    RequesterType r = "agent" /\ RequesterID r = wsID /\ Status r = "cancelled".
Proof.
  intros Hws Hp1 Hx Hc. unfold Cancel_handler in Hx. rewrite decide_False in Hx by done.
  destruct (authorize _ _ _ _ _ _ _) as [rep'|] eqn:Ha; simplify_eq.
  - apply authorize_code in Ha. rewrite Hc in Ha. set_solver.
  - destruct (authorize_none _ _ _ _ _ _ _ Ha) as (r0 & Hr0 & Hrec).
    destruct (Cancel f now requestID (race1 st)) as [st1 [e|]] eqn:Hr; [destruct e; by simplify_eq/=|].
    apply exec_update_ok in Hr as (r & Hrow & _ & Hst). injection Hx as -> _.
    eexists. split; [exact Hst|].
    destruct (Hp1 st _ _ Hr0) as (r' & Hr' & Hi). assert (r' = r) as -> by congruence.
    destruct (ident_party _ _ wsID Hi) as (_ & E & _). rewrite Hrec in E. apply bool_decide_eq_true in E as [? ?].
    done.
Qed.

(** An agent asks another to approve; the asked one approves while a third
    caller asks for more information. *)
Module ApiDemo.
#[local] Existing Instance plain_cast.
Definition input : CreateRequestInput := MkCreateRequestInput "approval" "agent" "ws-1" "" "agent" "ws-2" "Deploy" "" None.
Definition st1 : store := (Create false "r1" 10 input empty_store).1.
Definition race (st : store) : store := (RequestInfo ExecOk 15 "r1" st).1.
Definition answer : store * reply :=
  Respond_handler Demo.q false false ExecOk race race 20 "ws-2" "r1" (Some (MkRespondRequestBody "approved" "user" "root")) st1.
End ApiDemo.

Lemma token_answers_own_inbox_witness :
  code_of ApiDemo.answer.2 = 200 /\
  exists r, requests ApiDemo.answer.1 !! "r1" = Some r /\ ResponderID r = Some "ws-2" /\ Status r = "approved".
Proof.
  assert (Hc : code_of ApiDemo.answer.2 = 200) by (by vm_compute). split; [exact Hc|].
  destruct (token_answers_own_inbox (H:=plain_cast) Demo.q false false ExecOk ApiDemo.race ApiDemo.race 20 "ws-2" "r1"
              (MkRespondRequestBody "approved" "user" "root") ApiDemo.st1 ApiDemo.answer.1 ApiDemo.answer.2
              ltac:(done) (RequestInfo_polite _ _ _) (RequestInfo_polite _ _ _) (surjective_pairing _) Hc)
    as (r & Hr & _ & _ & _ & Hri & _ & Hst & _).
  exists r. split_and!; [exact Hr|exact Hri|exact Hst].
Defined.
