(* ===== verification/Wake.v ===== *)
(** * Wakes: the platform makes an agent speak first

    internal/handlers/wake_lifecycle.go (the ledger of wake intents and the
    generation counter), wake_redrive.go and wake_redrive_sweeper.go (what
    happens to an intent that got stuck).  [desired] is the column
    workspaces.desired_generation, [wake_intents] the table of that name keyed
    by its BIGSERIAL id. *)

From stdpp Require Import pretty.
From S2P Require Import Prelude Tree.

(** ** Kinds and keys *)

Definition WakeKind := string.
Definition WakeFirstBootGreet : WakeKind := "first-boot-greet".
Definition WakeRestartContext : WakeKind := "restart-context".
Definition WakeIdle : WakeKind := "idle".
Definition WakeStall : WakeKind := "stall".
Definition WakeNudge : WakeKind := "nudge".
Definition WakeLifecycle : WakeKind := "lifecycle".

Record WakeDecision := MkWakeDecision { Fire : bool; IdempotencyKey : string; Generation : Z }.

Definition wakeIdempotencyKey (kind : WakeKind) (workspaceID dedupSeed : string) : string :=
  if decide (kind = WakeFirstBootGreet) then WakeFirstBootGreet +:+ (":" +:+ workspaceID)
  else if decide (kind = WakeRestartContext) then WakeRestartContext +:+ (":" +:+ workspaceID)
  else kind +:+ (":" +:+ (workspaceID +:+ (":" +:+ dedupSeed))).

(** ** The ledger *)

Record intent := Intent {
  wi_workspace : string;
  wi_kind : string;
  wi_key : string;
  wi_generation : Z;
  wi_status : string;
  wi_created : time;
  wi_settled : option time;
  wi_attempts : Z;                   (* redrive_attempts *)
  wi_redriven : option time          (* last_redriven_at *)
}.

Record wakes := Wakes { desired : gmap string Z; wake_intents : gmap Z intent }.

Definition with_status (s : string) (settled : option time) (i : intent) : intent :=
  Intent (wi_workspace i) (wi_kind i) (wi_key i) (wi_generation i) s (wi_created i) settled (wi_attempts i) (wi_redriven i).
Definition redriven (s : string) (attempts : Z) (now : time) (i : intent) : intent :=
  Intent (wi_workspace i) (wi_kind i) (wi_key i) (wi_generation i) s (wi_created i) (wi_settled i) attempts (Some now).

Definition nonterminal (i : intent) : bool := bool_decide (wi_status i ∈ ["pending"; "dispatched"; "delivered"]).

(** The row of the unique index (workspace_id, idempotency_key). *)
Definition same_wake (ws key : string) (i : intent) : bool := bool_decide (wi_workspace i = ws /\ wi_key i = key).
Definition existing (ws key : string) (m : gmap Z intent) : option intent :=
  snd <$> head (filter (fun ki => same_wake ws key ki.2 = true) (map_to_list m)).

(** Which statements of one DecideWake fail; a commit may also land although
    its answer is lost ([RowsAffectedErr]). *)
Record decide_faults := DecideFaults {
  f_begin : bool; f_bump : bool; f_insert_intent : bool; f_existing : bool; f_commit : exec_fault
}.
Definition no_decide_fault : decide_faults := DecideFaults false false false false ExecOk.

Inductive bump_result := Minted (gen : Z) | DuplicateOf (gen : Z) | BumpErr.

Section Wake.
Context `{UuidCast}.

(** Inside the caller's transaction; [id] is the next value of the sequence.
    The counter is a BIGINT. *)
Definition bumpDesiredGeneration (f : decide_faults) (id : Z) (now : time) (workspaceID kind key : string) (w : wakes)
    : wakes * bump_result :=
  match canon workspaceID with
  | None => (w, BumpErr)
  | Some ws =>
      match f_bump f, desired w !! ws with
      | false, Some g =>
          if g =? 9223372036854775807 then (w, BumpErr)
          else
            let newGen := g + 1 in
            let w1 := Wakes (<[ws := newGen]> (desired w)) (wake_intents w) in
            if f_insert_intent f then (w1, BumpErr)
            else match existing ws key (wake_intents w) with
                 | None =>
                     match wake_intents w !! id with
                     | None =>
                         (Wakes (desired w1)
                            (<[id := Intent ws kind key newGen "pending" now None 0 None]> (wake_intents w)), Minted newGen)
                     | Some _ => (w1, BumpErr)
                     end
                 | Some i => (w1, if f_existing f then BumpErr else DuplicateOf (wi_generation i))
                 end
      | _, _ => (w, BumpErr)
      end
  end.

(** Only a fresh mint commits; everything else rolls back to [w]. *)
Definition DecideWake (f : decide_faults) (id : Z) (now : time) (workspaceID : string) (kind : WakeKind)
    (dedupSeed : string) (w : wakes) : wakes * option WakeDecision :=
  let key := wakeIdempotencyKey kind workspaceID dedupSeed in
  if f_begin f then (w, None)
  else match bumpDesiredGeneration f id now workspaceID kind key w with
       | (_, DuplicateOf _) => (w, Some (MkWakeDecision false key 0))
       | (_, BumpErr) => (w, None)
       | (w1, Minted gen) =>
           match f_commit f with
           | ExecOk => (w1, Some (MkWakeDecision true key gen))
           | ExecErr => (w, None)
           | RowsAffectedErr => (w1, None)
           end
       end.

(** The table after the UPDATE, and whether it failed. *)
Definition MarkWakeDelivered (fails : bool) (workspaceID idempotencyKey : string) (w : wakes) : wakes * bool :=
  match canon workspaceID, fails with
  | Some ws, false =>
      (Wakes (desired w)
         ((fun i => if same_wake ws idempotencyKey i && bool_decide (wi_status i ∈ ["pending"; "dispatched"])
                    then with_status "delivered" (wi_settled i) i else i) <$> wake_intents w), false)
  | _, _ => (w, true)
  end.

Definition MarkWakeSettled (fails : bool) (now : time) (workspaceID : string) (observedGen : Z) (w : wakes) : wakes * bool :=
  match canon workspaceID, fails with
  | Some ws, false =>
      (Wakes (desired w)
         ((fun i => if bool_decide (wi_workspace i = ws) && (wi_generation i <=? observedGen) &&
                       bool_decide (wi_status i = "delivered")
                    then with_status "settled" (Some now) i else i) <$> wake_intents w), false)
  | _, _ => (w, true)
  end.

Definition currentDesiredGeneration (fails : bool) (workspaceID : string) (w : wakes) : dbres Z :=
  match canon workspaceID with
  | None => DbErr
  | Some ws => if fails then DbErr else match desired w !! ws with Some g => DbOk g | None => DbNoRows end
  end.

(** The heartbeat's convergence step: [desiredGen] was read when the handler
    began, [observed] is what the runtime reports.  Settling errors are logged. *)
Definition heartbeat_settles (settle_fails : bool) (now : time) (workspaceID : string) (desiredGen : Z)
    (observed : option Z) (w : wakes) : wakes :=
  match observed with
  | Some o => if desiredGen <=? o then (MarkWakeSettled settle_fails now workspaceID o w).1 else w
  | None => w
  end.

(** ** Re-driving what is stuck *)

Definition redriveMaxAttempts : Z := 5.
Definition redriveStuckAfter : Z := 10 * Minute.
Definition redriveMinInterval : Z := 10 * Minute.
Definition redriveBatchCap : nat := 20.

Record ReDriveResult := MkReDriveResult { Redriven : Z; Dropped : Z }.

Definition stuck (now : time) (i : intent) : bool :=
  nonterminal i && (wi_created i <? now - redriveStuckAfter) &&
  null_or (wi_redriven i) (fun t => t <? now - redriveMinInterval).

(** The batch: the stuck intents of the workspace, lowest generation first. *)
Definition candidates (now : time) (ws : string) (w : wakes) : list (Z * intent) :=
  take redriveBatchCap
    (sort_by (fun ki => wi_generation ki.2)
       (filter (fun ki => (bool_decide (wi_workspace ki.2 = ws) && stuck now ki.2)%bool = true) (map_to_list (wake_intents w)))).

(** One candidate's turn: what others did before it, the clock of its
    statement, whether that fails, and whether the re-emission does. *)
Record redrive_env := RedriveEnv {
  re_race : wakes -> wakes; re_now : time; re_fails : bool; re_emit_fails : bool
}.

(** The re-emissions of a pass, in order: intent and time. *)
Record pass := Pass { p_wakes : wakes; p_result : ReDriveResult; p_emitted : list (Z * time) }.

Definition drop_intent (now : time) (id : Z) (m : gmap Z intent) : gmap Z intent :=
  alter (fun i => if nonterminal i then redriven "dropped" (wi_attempts i) now i else i) id m.
Definition count_attempt (now : time) (id : Z) (m : gmap Z intent) : gmap Z intent :=
  alter (fun i => redriven (wi_status i) (wi_attempts i + 1) now i) id m.

Definition redrive_one (e : redrive_env) (c : Z * intent) (p : pass) : pass :=
  let w := re_race e (p_wakes p) in
  let r := p_result p in
  if re_fails e then Pass w r (p_emitted p)
  else if redriveMaxAttempts <=? wi_attempts c.2 then
    Pass (Wakes (desired w) (drop_intent (re_now e) c.1 (wake_intents w)))
      (MkReDriveResult (Redriven r) (Dropped r + 1)) (p_emitted p)
  else
    Pass (Wakes (desired w) (count_attempt (re_now e) c.1 (wake_intents w)))
      (MkReDriveResult (Redriven r + 1) (Dropped r)) (p_emitted p ++ [(c.1, re_now e)]).

(** The candidates in order, one environment each. *)
Fixpoint redrive_all (env : nat -> redrive_env) (n : nat) (cs : list (Z * intent)) (p : pass) : pass :=
  match cs with
  | [] => p
  | c :: cs' => redrive_all env (S n) cs' (redrive_one (env n) c p)
  end.

(** [wired]: a re-emitter is set; [None] in the answer is the scan's error. *)
Definition ReDriveStuckWakes (wired scan_fails : bool) (now : time) (env : nat -> redrive_env) (workspaceID : string) (w : wakes)
    : pass * bool :=
  let p0 := Pass w (MkReDriveResult 0 0) [] in
  if negb wired then (p0, false)
  else match canon workspaceID with
       | None => (p0, true)
       | Some ws => if scan_fails then (p0, true)
                    else (redrive_all env 0 (candidates now ws w) p0, false)
       end.

(** What the wired re-emitter does with an intent. *)
Inductive reemission := Greet (workspaceID : string) | Skip.
Definition WakeReEmitter (greeter : bool) (workspaceID : string) (kind : WakeKind) : reemission :=
  if decide (kind = WakeFirstBootGreet) then (if greeter then Greet workspaceID else Skip) else Skip.

(** ** The fleet sweep *)

Definition defaultWakeRedriveInterval : Z := 5 * Minute.
Definition wakeRedriveFleetLimit : nat := 500.

Record RedriveSweepResult := MkRedriveSweepResult {
  Workspaces : Z; SweepRedriven : Z; SweepDropped : Z; Errors : Z
}.

Definition fleet (now : time) (w : wakes) : list string :=
  take wakeRedriveFleetLimit
    (remove_dups ((fun ki => wi_workspace ki.2) <$> filter (fun ki => stuck now ki.2 = true) (map_to_list (wake_intents w)))).

Record sweep_state := SweepState { ss_wakes : wakes; ss_result : RedriveSweepResult; ss_emitted : list (Z * time) }.

(** One workspace of the sweep: when its scan runs, whether it fails, and its
    candidates' environments. *)
Record drive_env := DriveEnv { dr_now : time; dr_scan_fails : bool; dr_env : nat -> redrive_env }.

Definition drive_one (e : drive_env) (ws : string) (s : sweep_state) : sweep_state :=
  let '(p, failed) := ReDriveStuckWakes true (dr_scan_fails e) (dr_now e) (dr_env e) ws (ss_wakes s) in
  let r := ss_result s in
  if failed : bool then SweepState (p_wakes p) (MkRedriveSweepResult (Workspaces r) (SweepRedriven r) (SweepDropped r) (Errors r + 1)) (ss_emitted s ++ p_emitted p)
  else SweepState (p_wakes p)
         (MkRedriveSweepResult (Workspaces r + 1) (SweepRedriven r + Redriven (p_result p)) (SweepDropped r + Dropped (p_result p)) (Errors r))
         (ss_emitted s ++ p_emitted p).

Fixpoint drive_all (env : nat -> drive_env) (n : nat) (l : list string) (s : sweep_state) : sweep_state :=
  match l with
  | [] => s
  | ws :: l' => drive_all env (S n) l' (drive_one (env n) ws s)
  end.

Definition Sweep (wired query_fails : bool) (now : time) (env : nat -> drive_env) (w : wakes) : sweep_state :=
  let s0 := SweepState w (MkRedriveSweepResult 0 0 0 0) [] in
  if negb wired then s0
  else if query_fails then SweepState w (MkRedriveSweepResult 0 0 0 1) []
  else drive_all env 0 (fleet now w) s0.
End Wake.

(** ** What the clients of the ledger are given

    The two hooks of SetWakeHooks; a call's environment decides its faults. *)
Record wake_hooks (W E : Type) := WakeHooks {
  decideWake : E -> time -> string -> WakeKind -> string -> W -> W * option WakeDecision;
  markWakeDelivered : E -> string -> string -> W -> W * bool
}.
Arguments WakeHooks {W E}.
Arguments decideWake {W E}.
Arguments markWakeDelivered {W E}.

Record wake_env := WakeEnv { we_faults : decide_faults; we_id : Z; we_mark_fails : bool }.

(** What main.go wires in. *)
Definition ledger_hooks `{UuidCast} : wake_hooks wakes wake_env :=
  WakeHooks (fun e now ws kind seed w => DecideWake (we_faults e) (we_id e) now ws kind seed w)
            (fun e ws key w => MarkWakeDelivered (we_mark_fails e) ws key w).

(** ** Platform turns

    What the sweepers that use the hooks share. *)

(** [now.Truncate(time.Hour).Unix()] *)
Definition hourBucket (now : time) : Z := now / Hour * 3600.

Definition platformTurnContextID (workspaceID : string) : string := "canvas-" +:+ workspaceID.

(** The metadata of a turn that carries a wake's key. *)
Definition key_metadata (key : string) : list (string * json) :=
  if decide (key = "") then [] else [("metadata", JObj [("wake_idempotency_key", JStr key)])].

Section Hooks.
Context {W E : Type} (hooks : option (wake_hooks W E)).

(** What the hooks say of a wake of this hour: the ledger, and [None] for an
    error, else whether to go on and under which key.  Without hooks the key is
    the sweeper's own. *)
Definition ask_wake (e : E) (now : time) (workspaceID : string) (kind : WakeKind) (prefix : string) (wk : W)
    : W * option (bool * string) :=
  let bucket := hourBucket now in
  match hooks with
  | None => (wk, Some (true, prefix +:+ (":" +:+ (workspaceID +:+ (":" +:+ pretty bucket)))))
  | Some h =>
      match decideWake h e now workspaceID kind (pretty bucket) wk with
      | (wk1, None) => (wk1, None)
      | (wk1, Some d) => (wk1, Some (Fire d, IdempotencyKey d))
      end
  end.

(** Its error is only logged. *)
Definition tell_delivered (e : E) (workspaceID key : string) (wk : W) : W :=
  match hooks with None => wk | Some h => (markWakeDelivered h e workspaceID key wk).1 end.
End Hooks.
