(* ===== verification/WakeSafety.v ===== *)
(** * What the wake ledger keeps

    The generation counter counts the intents without gaps and a wake fires
    once, under any interleaving of the ledger's statements; what its clients
    rely on is the class [WakeLaws].  A stuck intent is re-emitted at most five
    times and then dropped. *)

From stdpp Require Import pretty.
From S2P Require Import Prelude Tree Wake.

(** ** Lookups *)

Lemma existing_Some ws key m i :
  existing ws key m = Some i -> exists id, m !! id = Some i /\ wi_workspace i = ws /\ wi_key i = key.
Proof.
  unfold existing. intros (ki & E & ->)%fmap_Some.
  assert (Hin : ki ∈ filter (fun ki => same_wake ws key ki.2 = true) (map_to_list m)).
  { destruct (filter _ _); simplify_eq/=. by left. }
  apply list_elem_of_filter in Hin as [Hs Hin]. destruct ki as [id i]. apply elem_of_map_to_list in Hin.
  unfold same_wake in Hs. b2p. naive_solver.
Qed.

Lemma existing_None ws key m id i :
  existing ws key m = None -> m !! id = Some i -> ~ (wi_workspace i = ws /\ wi_key i = key).
Proof.
  unfold existing. intros E Hm [? ?]. rewrite fmap_None in E.
  assert (Hin : (id, i) ∈ filter (fun ki => same_wake ws key ki.2 = true) (map_to_list m)).
  { apply list_elem_of_filter. split; [by apply bool_decide_eq_true|by apply elem_of_map_to_list]. }
  destruct (filter _ _); [by apply not_elem_of_nil in Hin|done].
Qed.

(** ** Statements that leave the identity of every intent alone *)

Definition identity (i : intent) : string * string * Z := (wi_workspace i, wi_key i, wi_generation i).

Definition same_intents (m m' : gmap Z intent) : Prop := identity <$> m' = identity <$> m.

Lemma same_intents_fmap f m : (forall i, identity (f i) = identity i) -> same_intents m (f <$> m).
Proof. intros Hf. unfold same_intents. rewrite <- map_fmap_compose. apply map_fmap_ext. intros. apply Hf. Qed.

Lemma same_intents_alter f id m : (forall i, identity (f i) = identity i) -> same_intents m (alter f id m).
Proof.
  intros Hf. unfold same_intents. apply map_eq. intros k. rewrite !lookup_fmap.
  destruct (decide (k = id)) as [->|]; [rewrite lookup_alter_eq|by rewrite lookup_alter_ne].
  destruct (m !! id); simpl; [by rewrite Hf|done].
Qed.

Lemma same_intents_lookup m m' id i' :
  same_intents m m' -> m' !! id = Some i' -> exists i, m !! id = Some i /\ identity i = identity i'.
Proof.
  intros E Hm. assert (Hl : (identity <$> m') !! id = (identity <$> m) !! id) by by rewrite E.
  rewrite !lookup_fmap, Hm in Hl. symmetry in Hl. simpl in Hl.
  apply fmap_Some in Hl as (i & Hi & E'). eauto.
Qed.

Lemma same_intents_sym m m' : same_intents m m' -> same_intents m' m.
Proof. done. Qed.

Section Statements.
Context `{UuidCast}.

Lemma MarkWakeDelivered_same fails ws key w :
  desired (MarkWakeDelivered fails ws key w).1 = desired w /\
  same_intents (wake_intents w) (wake_intents (MarkWakeDelivered fails ws key w).1).
Proof.
  unfold MarkWakeDelivered. repeat case_match; simpl; split; try done.
  apply same_intents_fmap. intros i. by case_match.
Qed.

Lemma MarkWakeSettled_same fails now ws g w :
  desired (MarkWakeSettled fails now ws g w).1 = desired w /\
  same_intents (wake_intents w) (wake_intents (MarkWakeSettled fails now ws g w).1).
Proof.
  unfold MarkWakeSettled. repeat case_match; simpl; split; try done.
  apply same_intents_fmap. intros i. by case_match.
Qed.

Lemma drop_intent_same now id m : same_intents m (drop_intent now id m).
Proof. apply same_intents_alter. intros i. by case_match. Qed.
Lemma count_attempt_same now id m : same_intents m (count_attempt now id m).
Proof. by apply same_intents_alter. Qed.

(** What a DecideWake did. *)
Lemma DecideWake_cases f id now workspaceID kind seed w w' d :
  DecideWake f id now workspaceID kind seed w = (w', d) ->
  let key := wakeIdempotencyKey kind workspaceID seed in
  w' = w /\ (d = None \/ d = Some (MkWakeDecision false key 0) /\
             exists ws id i, canon workspaceID = Some ws /\ wake_intents w !! id = Some i /\ wi_workspace i = ws /\ wi_key i = key) \/
  exists ws g, canon workspaceID = Some ws /\ desired w !! ws = Some g /\ existing ws key (wake_intents w) = None /\
    wake_intents w !! id = None /\
    w' = Wakes (<[ws := g + 1]> (desired w)) (<[id := Intent ws kind key (g + 1) "pending" now None 0 None]> (wake_intents w)) /\
    (d = Some (MkWakeDecision true key (g + 1)) \/ d = None).
Proof.
  unfold DecideWake, bumpDesiredGeneration. intros Hx. cbv zeta.
  destruct (f_begin f); [simplify_eq; auto|].
  destruct (canon workspaceID) as [ws|] eqn:Hc; [|simplify_eq; auto].
  destruct (f_bump f); [simplify_eq; auto|].
  destruct (desired w !! ws) as [g|] eqn:Hg; [|simplify_eq; auto].
  destruct (g =? _); [simplify_eq; auto|].
  destruct (f_insert_intent f); [simplify_eq; auto|].
  destruct (existing _ _ _) as [i|] eqn:He.
  - destruct (f_existing f); simplify_eq; [auto|]. left. split; [done|]. right. split; [done|].
    apply existing_Some in He as (id' & ? & ? & ?). eauto 10.
  - destruct (wake_intents w !! id) as [i|] eqn:Hi; [simplify_eq; auto|].
    destruct (f_commit f); simplify_eq/=; eauto; right; exists ws, g; split_and!; auto.
Qed.
End Statements.

(** ** What the clients rely on *)

(** [minted]: an intent of this kind, workspace and seed exists.  A decision
    to fire mints it, none is fired for what is minted, and it stays minted. *)
Class WakeLaws {W E} (h : wake_hooks W E) := {
  minted : W -> WakeKind -> string -> string -> Prop;
  decide_fires : forall e now ws k seed w w' d,
    decideWake h e now ws k seed w = (w', Some d) -> Fire d = true ->
    ~ minted w k ws seed /\ minted w' k ws seed;
  decide_key : forall e now ws k seed w w' d,
    decideWake h e now ws k seed w = (w', Some d) -> IdempotencyKey d = wakeIdempotencyKey k ws seed;
  decide_keeps : forall e now ws k seed w k' ws' seed',
    minted w k' ws' seed' -> minted (decideWake h e now ws k seed w).1 k' ws' seed';
  mark_keeps : forall e ws key w k' ws' seed',
    minted w k' ws' seed' -> minted (markWakeDelivered h e ws key w).1 k' ws' seed'
}.

Definition ledger_minted `{UuidCast} (w : wakes) (k : WakeKind) (workspaceID seed : string) : Prop :=
  exists ws id i, canon workspaceID = Some ws /\ wake_intents w !! id = Some i /\ wi_workspace i = ws /\
    wi_key i = wakeIdempotencyKey k workspaceID seed.

#[export] Instance ledger_laws `{UuidCast} : WakeLaws ledger_hooks.
Proof.
  refine {| minted := ledger_minted |}.
  - intros e now ws k seed w w' d Hx Hf. apply DecideWake_cases in Hx
      as [[-> [?|[Hd _]]]|(c & g & Hc & Hg & He & Hi & -> & [Hd|?])]; simplify_eq/=.
    split.
    + intros (c' & id & i & ? & Hm & ? & ?). simplify_eq. by eapply existing_None; [exact He|exact Hm|].
    + exists c, (we_id e). eexists. split; [done|]. simpl. split; [apply lookup_insert_eq|done].
  - intros e now ws k seed w w' d Hx. apply DecideWake_cases in Hx
      as [[-> [?|[Hd _]]]|(c & g & Hc & Hg & He & Hi & -> & [Hd|?])]; by simplify_eq/=.
  - intros e now ws k seed w k' ws' seed' (c' & id & i & Hc' & Hm & ? & ?). simpl.
    destruct (DecideWake _ _ _ _ _ _ _) as [w' d] eqn:Hx. simpl. apply DecideWake_cases in Hx
      as [[-> _]|(c & g & Hc & Hg & He & Hi & -> & _)]; [by exists c', id, i|].
    exists c', id, i. simpl. rewrite lookup_insert_ne by congruence. done.
  - intros e ws key w k' ws' seed' (c' & id & i & Hc' & Hm & ? & ?). simpl.
    destruct (MarkWakeDelivered_same (we_mark_fails e) ws key w) as [_ Hs].
    destruct (same_intents_lookup _ _ _ _ (same_intents_sym _ _ Hs) Hm) as (i' & Hm' & Hi').
    exists c', id, i'. unfold identity in Hi'. split_and!; congruence.
Qed.

(** Asking through the hooks: a wake that may go on is new and now minted. *)
Lemma ask_wake_laws {W E} (h : wake_hooks W E) `{!WakeLaws h} e now ws kind prefix wk wk' a :
  ask_wake (Some h) e now ws kind prefix wk = (wk', a) ->
  (forall k ws' seed, minted wk k ws' seed -> minted wk' k ws' seed) /\
  forall key, a = Some (true, key) ->
    ~ minted wk kind ws (pretty (hourBucket now)) /\ minted wk' kind ws (pretty (hourBucket now)).
Proof.
  unfold ask_wake. intros Hx.
  destruct (decideWake h e now ws kind (pretty (hourBucket now)) wk) as [wk1 d] eqn:Hd.
  assert (wk' = wk1) as -> by (destruct d; by simplify_eq). split.
  - intros k ws' seed Hm. eapply (decide_keeps e now ws kind (pretty (hourBucket now))) in Hm. by rewrite Hd in Hm.
  - intros key ->. destruct d as [d|]; simplify_eq. by eapply decide_fires.
Qed.

Lemma tell_delivered_keeps {W E} (h : wake_hooks W E) `{!WakeLaws h} e ws key wk k ws' seed :
  minted wk k ws' seed -> minted (tell_delivered (Some h) e ws key wk) k ws' seed.
Proof. apply mark_keeps. Qed.

(** ** The ledger as a machine

    [fired]: the wakes somebody was told to fire, as workspace and key, since
    the workspace row was last created. *)
Record wsys := WSys { s_wakes : wakes; s_fired : list (string * string) }.

Section Machine.
Context `{UuidCast}.

Definition log_fired (ws : string) (d : option WakeDecision) : list (string * string) :=
  match d with
  | Some d => if Fire d then [(default ws (canon ws), IdempotencyKey d)] else []
  | None => []
  end.

Inductive wstep : wsys -> wsys -> Prop :=
| w_decide f id now ws kind seed w l w' d :
    DecideWake f id now ws kind seed w = (w', d) -> wstep (WSys w l) (WSys w' (log_fired ws d ++ l))
| w_delivered fails ws key w l :
    wstep (WSys w l) (WSys (MarkWakeDelivered fails ws key w).1 l)
| w_settled fails now ws g w l :
    wstep (WSys w l) (WSys (MarkWakeSettled fails now ws g w).1 l)
| w_drop now id w l :
    wstep (WSys w l) (WSys (Wakes (desired w) (drop_intent now id (wake_intents w))) l)
| w_count now id w l :
    wstep (WSys w l) (WSys (Wakes (desired w) (count_attempt now id (wake_intents w))) l)
| w_create ws w l :
    canon ws = Some ws -> desired w !! ws = None ->
    wstep (WSys w l) (WSys (Wakes (<[ws := 0]> (desired w)) (wake_intents w)) l)
| w_purge ws w l :
    wstep (WSys w l)
      (WSys (Wakes (delete ws (desired w)) (filter (fun ki => wi_workspace ki.2 <> ws) (wake_intents w)))
            (filter (fun wk => wk.1 <> ws) l)).

Definition winit : wsys := WSys (Wakes ∅ ∅) [].

(** The counter counts: [1 .. desired] are the generations of the workspace's
    intents, each of one intent, as is each key. *)
Record ledger_ok (w : wakes) : Prop := {
  ok_gens : forall ws g, desired w !! ws = Some g -> forall n,
    1 <= n <= g <-> exists id i, wake_intents w !! id = Some i /\ wi_workspace i = ws /\ wi_generation i = n;
  ok_nonneg : forall ws g, desired w !! ws = Some g -> 0 <= g;
  ok_gen_inj : forall id i id' i', wake_intents w !! id = Some i -> wake_intents w !! id' = Some i' ->
    wi_workspace i = wi_workspace i' -> wi_generation i = wi_generation i' -> id = id';
  ok_key_inj : forall id i id' i', wake_intents w !! id = Some i -> wake_intents w !! id' = Some i' ->
    wi_workspace i = wi_workspace i' -> wi_key i = wi_key i' -> id = id';
  ok_owner : forall id i, wake_intents w !! id = Some i -> is_Some (desired w !! wi_workspace i)
}.

(** Each of [ledger_ok]'s clauses reads an intent only through its identity. *)
Lemma ledger_ok_same d m m' : same_intents m m' -> ledger_ok (Wakes d m) -> ledger_ok (Wakes d m').
Proof.
  intros Hs Hok.
  assert (Hback : forall id i', m' !! id = Some i' -> exists i, m !! id = Some i /\
            wi_workspace i' = wi_workspace i /\ wi_key i' = wi_key i /\ wi_generation i' = wi_generation i).
  { intros id i' Hm. destruct (same_intents_lookup _ _ _ _ Hs Hm) as (i & Hi & E). injection E as ? ? ?. eauto 10. }
  assert (Hforth : forall id i, m !! id = Some i -> exists i', m' !! id = Some i' /\
            wi_workspace i' = wi_workspace i /\ wi_generation i' = wi_generation i).
  { intros id i Hm. destruct (same_intents_lookup _ _ _ _ (same_intents_sym _ _ Hs) Hm) as (i' & Hi & E).
    injection E as ? ? ?. eauto 10. }
  destruct Hok as [Hg Hn Hgi Hki Ho]. split; simpl in *.
  - intros ws g Hd n. rewrite (Hg _ _ Hd n). split.
    + intros (id & i & (i' & ? & ? & ?)%Hforth & ? & ?). exists id, i'. split_and!; congruence.
    + intros (id & i' & (i & ? & ? & ? & ?)%Hback & ? & ?). exists id, i. split_and!; congruence.
  - exact Hn.
  - intros id i id' i' (j & Hj & ? & ? & ?)%Hback (j' & Hj' & ? & ? & ?)%Hback ? ?.
    eapply Hgi; [exact Hj|exact Hj'|congruence..].
  - intros id i id' i' (j & Hj & ? & ? & ?)%Hback (j' & Hj' & ? & ? & ?)%Hback ? ?.
    eapply Hki; [exact Hj|exact Hj'|congruence..].
  - intros id i' (i & Hi & -> & _)%Hback. eauto.
Qed.

Lemma ledger_ok_mint w ws g key kind id now :
  ledger_ok w -> desired w !! ws = Some g -> existing ws key (wake_intents w) = None -> wake_intents w !! id = None ->
  ledger_ok (Wakes (<[ws := g + 1]> (desired w))
                   (<[id := Intent ws kind key (g + 1) "pending" now None 0 None]> (wake_intents w))).
Proof.
  intros [Hg Hn Hgi Hki Ho] Hd He Hi. set (new := Intent _ _ _ _ _ _ _ _ _).
  assert (Hin : forall k i, <[id := new]> (wake_intents w) !! k = Some i -> k = id /\ i = new \/ k <> id /\ wake_intents w !! k = Some i).
  { intros k i. destruct (decide (k = id)) as [->|]; [rewrite lookup_insert_eq; naive_solver|rewrite lookup_insert_ne by done; auto]. }
  assert (Hfresh : forall k i, wake_intents w !! k = Some i -> wi_workspace i = ws -> wi_generation i <> g + 1 /\ wi_key i <> key).
  { intros k i Hk Hw. split.
    - intros Hgen. assert (1 <= g + 1 <= g) by (apply (Hg _ _ Hd); eauto). lia.
    - intros Hkey. by eapply existing_None; [exact He|exact Hk|]. }
  split; simpl.
  - intros ws' g' Hd' n. destruct (decide (ws' = ws)) as [->|Hne].
    + rewrite lookup_insert_eq in Hd'. injection Hd' as <-. split.
      * intros Hrange. destruct (decide (n = g + 1)) as [->|].
        { exists id, new. by rewrite lookup_insert_eq. }
        destruct (proj1 (Hg _ _ Hd n)) as (k & i & Hk & ? & ?); [lia|]. exists k, i.
        rewrite lookup_insert_ne by congruence. done.
      * specialize (Hn _ _ Hd). intros (k & i & [[-> ->]|[_ Hk]]%Hin & Hw & Hgen); simpl in Hgen; [lia|].
        assert (1 <= n <= g) by (apply (Hg _ _ Hd); eauto). lia.
    + rewrite lookup_insert_ne in Hd' by done. rewrite (Hg _ _ Hd' n). split.
      * intros (k & i & Hk & Hrest). exists k, i. rewrite lookup_insert_ne by congruence. done.
      * intros (k & i & [[-> ->]|[_ Hk]]%Hin & Hw & Hgen); [by simpl in Hw|eauto].
  - intros ws' g' [[<- <-]|[_ Hd']]%lookup_insert_Some; [|by eapply Hn]. specialize (Hn _ _ Hd). lia.
  - intros k i k' i' [[-> ->]|[Hk1 Hk]]%Hin [[-> ->]|[Hk1' Hk']]%Hin Hw Hgen; simpl in *; auto.
    + destruct (Hfresh _ _ Hk' (eq_sym Hw)); congruence.
    + destruct (Hfresh _ _ Hk Hw); congruence.
    + by eapply Hgi.
  - intros k i k' i' [[-> ->]|[Hk1 Hk]]%Hin [[-> ->]|[Hk1' Hk']]%Hin Hw Hkey; simpl in *; auto.
    + destruct (Hfresh _ _ Hk' (eq_sym Hw)); congruence.
    + destruct (Hfresh _ _ Hk Hw); congruence.
    + by eapply Hki.
  - intros k i [[-> ->]|[_ Hk]]%Hin; simpl; [rewrite lookup_insert_eq; eauto|].
    destruct (decide (ws = wi_workspace i)) as [->|]; [rewrite lookup_insert_eq; eauto|rewrite lookup_insert_ne by done; eauto].
Qed.

Lemma ledger_ok_purge w ws :
  ledger_ok w ->
  ledger_ok (Wakes (delete ws (desired w)) (filter (fun ki => wi_workspace ki.2 <> ws) (wake_intents w))).
Proof.
  intros [Hg Hn Hgi Hki Ho]. split; simpl.
  - intros ws' g [Hne Hd]%lookup_delete_Some n. rewrite (Hg _ _ Hd n). split.
    + intros (id & i & Hi & Hw & Hgen). exists id, i. rewrite map_lookup_filter_Some. simpl. naive_solver.
    + intros (id & i & [Hi _]%map_lookup_filter_Some & Hrest). eauto.
  - intros ws' g [_ Hd]%lookup_delete_Some. eauto.
  - intros id i id' i' [Hi _]%map_lookup_filter_Some [Hi' _]%map_lookup_filter_Some. eauto.
  - intros id i id' i' [Hi _]%map_lookup_filter_Some [Hi' _]%map_lookup_filter_Some. eauto.
  - intros id i [Hi Hw]%map_lookup_filter_Some. rewrite lookup_delete_ne by (simpl in Hw; congruence). eauto.
Qed.

Lemma ledger_ok_create w ws :
  ledger_ok w -> desired w !! ws = None -> ledger_ok (Wakes (<[ws := 0]> (desired w)) (wake_intents w)).
Proof.
  intros [Hg Hn Hgi Hki Ho] Hd. split; simpl.
  - intros ws' g [[<- <-]|[Hne Hd']]%lookup_insert_Some n; [|by apply Hg]. split; [lia|].
    intros (id & i & Hi & <- & _). destruct (Ho _ _ Hi). congruence.
  - intros ws' g [[<- <-]|[Hne Hd']]%lookup_insert_Some; [lia|eauto].
  - exact Hgi.
  - exact Hki.
  - intros id i Hi. destruct (Ho _ _ Hi) as [g Hg']. exists g. rewrite lookup_insert_ne; [done|congruence].
Qed.

(** What was fired is in the ledger, and was fired once. *)
Definition fired_ok (s : wsys) : Prop :=
  NoDup (s_fired s) /\
  forall ws key, (ws, key) ∈ s_fired s -> exists id i, wake_intents (s_wakes s) !! id = Some i /\ wi_workspace i = ws /\ wi_key i = key.

Lemma fired_ok_same w w' l :
  same_intents (wake_intents w) (wake_intents w') -> fired_ok (WSys w l) -> fired_ok (WSys w' l).
Proof.
  intros Hs [Hn Hf]. split; [done|]. intros ws key (id & i & Hi & ? & ?)%Hf. simpl in *.
  destruct (same_intents_lookup _ _ _ _ (same_intents_sym _ _ Hs) Hi) as (i' & Hi' & E). injection E as ? ? ?.
  exists id, i'. split_and!; congruence.
Qed.

Lemma ledger_step_ok s s' : ledger_ok (s_wakes s) /\ fired_ok s -> wstep s s' -> ledger_ok (s_wakes s') /\ fired_ok s'.
Proof.
  intros [Hl Hf] Hs. destruct Hs as [f id now ws kind seed w l w' d Hx| | | | | |]; simpl in *.
  - apply DecideWake_cases in Hx as [[-> Hd]|(c & g & Hc & Hg & He & Hi & -> & Hd)].
    + destruct Hd as [->|[-> _]]; done.
    + split; [by apply ledger_ok_mint|]. destruct Hf as [Hn Hf]. simpl in *.
      assert (Hold : forall ws0 key, (ws0, key) ∈ l -> exists id0 i, <[id := Intent c kind (wakeIdempotencyKey kind ws seed)
                (g + 1) "pending" now None 0 None]> (wake_intents w) !! id0 = Some i /\ wi_workspace i = ws0 /\ wi_key i = key).
      { intros ws0 key (id0 & i & Hi0 & Hrest)%Hf. exists id0, i. rewrite lookup_insert_ne by congruence. done. }
      destruct Hd as [->| ->]; simpl; [|done]. rewrite Hc. simpl. split; simpl.
      * constructor; [|done]. intros (id0 & i & Hi0 & Hw & Hkey)%Hf.
        by eapply existing_None; [exact He|exact Hi0|].
      * intros ws0 key [[= -> ->]|Hin]%elem_of_cons; [|by apply Hold].
        exists id. eexists. rewrite lookup_insert_eq. done.
  - destruct (MarkWakeDelivered_same fails ws key w) as [Hd Hs].
    destruct w as [d m], (MarkWakeDelivered fails ws key (Wakes d m)).1 as [d' m']. simpl in *. subst.
    split; [eapply ledger_ok_same; [exact Hs|exact Hl]|eapply fired_ok_same; [|exact Hf]; exact Hs].
  - destruct (MarkWakeSettled_same fails now ws g w) as [Hd Hs].
    destruct w as [d m], (MarkWakeSettled fails now ws g (Wakes d m)).1 as [d' m']. simpl in *. subst.
    split; [eapply ledger_ok_same; [exact Hs|exact Hl]|eapply fired_ok_same; [|exact Hf]; exact Hs].
  - destruct w as [d m]. split; [eapply ledger_ok_same; [apply drop_intent_same|done]|].
    eapply fired_ok_same; [apply drop_intent_same|done].
  - destruct w as [d m]. split; [eapply ledger_ok_same; [apply count_attempt_same|done]|].
    eapply fired_ok_same; [apply count_attempt_same|done].
  - split; [by apply ledger_ok_create|done].
  - split; [by apply ledger_ok_purge|]. destruct Hf as [Hn Hf]. split; simpl; [by apply NoDup_filter|].
    intros ws0 key [Hne (id & i & Hi & Hw & Hkey)%Hf]%list_elem_of_filter. exists id, i.
    rewrite map_lookup_filter_Some. simpl in *. split_and!; congruence.
Qed.
End Machine.

Lemma winit_ok : ledger_ok (s_wakes winit) /\ fired_ok winit.
Proof.
  split; [split; simpl; intros; by rewrite lookup_empty in * |].
  split; simpl; [constructor|]. intros ws key Hin. by apply not_elem_of_nil in Hin.
Qed.

Lemma wruns_ok `{UuidCast} s : rtc wstep winit s -> ledger_ok (s_wakes s) /\ fired_ok s.
Proof. apply (rtc_invariant wstep (fun s => ledger_ok (s_wakes s) /\ fired_ok s)); [apply ledger_step_ok|apply winit_ok]. Qed.

(** ** Properties *)

(** The generation counter has no gaps and loses none: in every reachable
    ledger the generations of a workspace's intents are exactly [1 .. desired],
    each of one intent, and no two intents of a workspace share a key. *)
Theorem wake_generations_gap_free `{UuidCast} s : rtc wstep winit s -> ledger_ok (s_wakes s).
Proof. intros Hr. by apply wruns_ok. Qed.

(** C13: A wake fires once: however deciders race, retry and fail, no key of a
    workspace is answered with Fire twice, and what was answered with Fire is
    in the ledger. *)
Theorem wake_fires_once `{UuidCast} s :
  rtc wstep winit s ->
  NoDup (s_fired s) /\
  forall ws key, (ws, key) ∈ s_fired s ->
    exists id i, wake_intents (s_wakes s) !! id = Some i /\ wi_workspace i = ws /\ wi_key i = key.
Proof. intros Hr. by apply wruns_ok in Hr as [_ ?]. Qed.

(** ** Witnesses

    A greeting is decided, delivered and decided again, and a nudge follows. *)
Module WakeDemo.
#[local] Existing Instance plain_cast.
Definition w1 : wakes := Wakes {["ws-1" := 0]} ∅.
Definition w2 : wakes := (DecideWake no_decide_fault 1 10 "ws-1" WakeFirstBootGreet "" w1).1.
Definition w3 : wakes := (MarkWakeDelivered false "ws-1" "first-boot-greet:ws-1" w2).1.
Definition w4 : wakes := (DecideWake no_decide_fault 2 30 "ws-1" WakeNudge "0" w3).1.
Definition final : wsys := WSys w4 [("ws-1", "nudge:ws-1:0"); ("ws-1", "first-boot-greet:ws-1")].

Lemma wake_demo_run : rtc wstep winit final.
Proof.
  eapply rtc_l; [apply (w_create "ws-1" (Wakes ∅ ∅) []); reflexivity|].
  eapply rtc_l; [apply (w_decide no_decide_fault 1 10 "ws-1" WakeFirstBootGreet "" w1 [] w2
                          (Some (MkWakeDecision true "first-boot-greet:ws-1" 1))); by vm_compute|].
  eapply rtc_l; [apply (w_delivered false "ws-1" "first-boot-greet:ws-1" w2)|].
  eapply rtc_l; [apply (w_decide no_decide_fault 2 20 "ws-1" WakeFirstBootGreet "again" w3 _ w3
                          (Some (MkWakeDecision false "first-boot-greet:ws-1" 0))); by vm_compute|].
  eapply rtc_l; [apply (w_decide no_decide_fault 2 30 "ws-1" WakeNudge "0" w3 _ w4
                          (Some (MkWakeDecision true "nudge:ws-1:0" 2))); by vm_compute|].
  apply rtc_refl.
Qed.
End WakeDemo.

Lemma wake_generations_gap_free_witness :
  desired WakeDemo.w4 !! "ws-1" = Some 2 /\
  exists id i, wake_intents WakeDemo.w4 !! id = Some i /\ wi_workspace i = "ws-1" /\ wi_generation i = 2.
Proof.
  assert (Hd : desired (s_wakes WakeDemo.final) !! "ws-1" = Some 2) by (by vm_compute).
  split; [exact Hd|].
  apply (ok_gens _ (wake_generations_gap_free (H:=plain_cast) _ WakeDemo.wake_demo_run) "ws-1" 2 Hd 2). lia.
Defined.

Lemma wake_fires_once_witness : NoDup (s_fired WakeDemo.final) /\ s_fired WakeDemo.final <> [].
Proof. split; [exact (proj1 (wake_fires_once (H:=plain_cast) _ WakeDemo.wake_demo_run))|discriminate]. Defined.
