(* ===== verification/WakeRedrive.v ===== *)
(** * Re-driving stuck wakes is bounded and ends

    Passes of ReDriveStuckWakes, one after the other, with the rest of the
    ledger's traffic between and inside them. *)

From S2P Require Import Prelude Tree Wake.

(** What others may do to the ledger: mint intents and change statuses, but
    not the re-drive columns. *)
Record quiet (w w' : wakes) : Prop := {
  quiet_keeps : forall id i, wake_intents w !! id = Some i ->
    exists i', wake_intents w' !! id = Some i' /\ wi_attempts i' = wi_attempts i /\ wi_redriven i' = wi_redriven i;
  quiet_mints : forall id i', wake_intents w' !! id = Some i' -> wake_intents w !! id = None ->
    wi_attempts i' = 0 /\ wi_redriven i' = None
}.

Lemma quiet_refl w : quiet w w.
Proof. split; [eauto|congruence]. Qed.

(** ** Candidates *)

Lemma elem_of_candidates now ws w c :
  c ∈ candidates now ws w -> wake_intents w !! c.1 = Some c.2 /\ wi_workspace c.2 = ws /\ stuck now c.2 = true.
Proof.
  unfold candidates. intros (k & Hin%list_elem_of_lookup_2 & _)%elem_of_take.
  rewrite (sort_by_perm _ _) in Hin. apply list_elem_of_filter in Hin as [Hp Hin].
  destruct c as [id i]. apply elem_of_map_to_list in Hin. simpl in *. b2p. auto.
Qed.

Lemma candidates_NoDup now ws w : NoDup (candidates now ws w).*1.
Proof.
  unfold candidates. rewrite fmap_take. eapply sublist_NoDup; [|apply sublist_take].
  rewrite (sort_by_perm _ _). eapply sublist_NoDup; [apply (NoDup_fst_map_to_list (wake_intents w))|].
  apply fmap_sublist, filter_is_sublist.
Qed.

Lemma candidates_nonempty now ws w id i :
  wake_intents w !! id = Some i -> wi_workspace i = ws -> stuck now i = true -> candidates now ws w <> [].
Proof.
  intros Hi Hw Hs. unfold candidates.
  assert (Hin : (id, i) ∈ sort_by (fun ki => wi_generation ki.2)
    (filter (fun ki => (bool_decide (wi_workspace ki.2 = ws) && stuck now ki.2)%bool = true) (map_to_list (wake_intents w)))).
  { rewrite (sort_by_perm _ _). apply list_elem_of_filter. split; [|by apply elem_of_map_to_list].
    simpl. rewrite Hs. by rewrite bool_decide_true. }
  destruct (sort_by _ _); [by apply not_elem_of_nil in Hin|done].
Qed.

(** ** The budget *)

Definition emissions (id : Z) (log : list (Z * time)) : Z := Z.of_nat (length (filter (fun e => e.1 = id) log)).

(** Every two re-emissions of an intent lie more than the interval apart. *)
Definition spaced (log : list (Z * time)) : Prop :=
  forall l1 id t l2, log = l1 ++ (id, t) :: l2 -> forall t', (id, t') ∈ l1 -> t' + redriveMinInterval < t.

Record budget_ok (w : wakes) (log : list (Z * time)) : Prop := {
  b_count : forall id i, wake_intents w !! id = Some i -> emissions id log <= wi_attempts i <= redriveMaxAttempts;
  b_last : forall id t, (id, t) ∈ log -> exists i r, wake_intents w !! id = Some i /\ wi_redriven i = Some r /\ t <= r;
  b_spaced : spaced log
}.

Lemma emissions_snoc id log id' t : emissions id (log ++ [(id', t)]) = emissions id log + (if decide (id' = id) then 1 else 0).
Proof.
  unfold emissions. rewrite filter_app, length_app, filter_cons, filter_nil. simpl. case_decide; simpl; lia.
Qed.

Lemma emissions_zero id log : emissions id log = 0 <-> forall t, (id, t) ∉ log.
Proof.
  induction log as [|[id' t'] log IH]; unfold emissions in *; [simpl; set_solver|].
  rewrite filter_cons. simpl. case_decide; simpl.
  - split; [lia|]. intros Hn. exfalso. apply (Hn t'). subst. by left.
  - rewrite IH. split; intros Hn t; [|intros Hin; apply (Hn t); by right].
    intros [[= -> ->]|Hin]%elem_of_cons; [done|by apply (Hn t)].
Qed.

Lemma spaced_snoc log id t : spaced log -> (forall t', (id, t') ∈ log -> t' + redriveMinInterval < t) -> spaced (log ++ [(id, t)]).
Proof.
  intros Hs Hn l1 id' t' l2 E. destruct (snoc_split _ _ _ _ _ E) as [(-> & -> & [= -> ->])|(l2' & -> & ->)]; [done|].
  by eapply Hs.
Qed.

Lemma budget_ok_quiet w w' log : quiet w w' -> budget_ok w log -> budget_ok w' log.
Proof.
  intros [Hk Hm] [Hc Hl Hs]. split; [|intros id t|done].
  - intros id i' Hi'. destruct (wake_intents w !! id) as [i|] eqn:Hi.
    + destruct (Hk _ _ Hi) as (i2 & Hi2 & Ha & _). rewrite Hi' in Hi2. injection Hi2 as <-. rewrite Ha. by apply (Hc id).
    + destruct (Hm _ _ Hi' Hi) as [-> _]. assert (emissions id log = 0) as ->; [|unfold redriveMaxAttempts; lia].
      apply emissions_zero. intros t (i & r & ? & _)%Hl. congruence.
  - intros (i & r & Hi & Hr & ?)%Hl. destruct (Hk _ _ Hi) as (i2 & ? & _ & E). exists i2, r. split_and!; congruence.
Qed.

(** A row that is still as the scan saw it, apart from its status. *)
Definition as_scanned (w : wakes) (c : Z * intent) : Prop :=
  exists i, wake_intents w !! c.1 = Some i /\ wi_attempts i = wi_attempts c.2 /\ wi_redriven i = wi_redriven c.2.

Lemma as_scanned_quiet w w' c : quiet w w' -> as_scanned w c -> as_scanned w' c.
Proof. intros [Hk _] (i & (i' & ? & ? & ?)%Hk & ? & ?). exists i'. split_and!; congruence. Qed.

Lemma as_scanned_alter w f id c :
  c.1 <> id -> as_scanned w c -> as_scanned (Wakes (desired w) (alter f id (wake_intents w))) c.
Proof. intros Hne (i & Hi & Hrest). exists i. simpl. by rewrite lookup_alter_ne. Qed.

(** A clause about the last re-drive of a stuck row: it is over. *)
Lemma stuck_redriven now i r : stuck now i = true -> wi_redriven i = Some r -> r + redriveMinInterval < now.
Proof. unfold stuck. intros Hs Hr. rewrite Hr in Hs. simpl in Hs. b2p. lia. Qed.

Lemma budget_ok_alter w log id f i :
  budget_ok w log -> wake_intents w !! id = Some i ->
  wi_attempts (f i) = wi_attempts i ->
  (forall r, wi_redriven i = Some r -> exists r', wi_redriven (f i) = Some r' /\ r <= r') ->
  budget_ok (Wakes (desired w) (alter f id (wake_intents w))) log.
Proof.
  intros [Hc Hl Hs] Hi Ha Hr. split; simpl; [| |done].
  - intros id' i' Hi'. destruct (decide (id' = id)) as [->|].
    + rewrite lookup_alter_eq, Hi in Hi'. injection Hi' as <-. rewrite Ha. by apply Hc.
    + rewrite lookup_alter_ne in Hi' by done. by apply Hc.
  - intros id' t (i' & r & Hi' & Hr' & Ht)%Hl. destruct (decide (id' = id)) as [->|].
    + assert (i' = i) as -> by congruence. destruct (Hr _ Hr') as (r' & ? & ?). exists (f i), r'.
      rewrite lookup_alter_eq, Hi. split_and!; [done..|lia].
    + exists i', r. by rewrite lookup_alter_ne.
Qed.

Section Pass.
Context (now : time) (env : nat -> redrive_env).
Context (Hquiet : forall n w, quiet w (re_race (env n) w)).
Context (Hclock : forall n, now <= re_now (env n)).

Lemma redrive_one_ok n c p log :
  stuck now c.2 = true -> as_scanned (p_wakes p) c -> budget_ok (p_wakes p) (log ++ p_emitted p) ->
  budget_ok (p_wakes (redrive_one (env n) c p)) (log ++ p_emitted (redrive_one (env n) c p)).
Proof.
  intros Hst Hsc Hok. set (w := re_race (env n) (p_wakes p)).
  pose proof (budget_ok_quiet _ w _ (Hquiet n _) Hok) as Hok1.
  pose proof (as_scanned_quiet _ w _ (Hquiet n _) Hsc) as (i & Hi & Ha & Hr).
  assert (Hlater : forall r, wi_redriven i = Some r -> r + redriveMinInterval < re_now (env n)).
  { intros r Hri. specialize (Hclock n). assert (r + redriveMinInterval < now) by (eapply stuck_redriven; [done|congruence]). lia. }
  unfold redrive_one. fold w. destruct (re_fails (env n)); [exact Hok1|].
  destruct (redriveMaxAttempts <=? wi_attempts c.2) eqn:Hcap; simpl.
  - eapply budget_ok_alter; [exact Hok1|exact Hi|by case_match|]. intros r Hri.
    specialize (Hlater _ Hri). unfold redriveMinInterval, Minute, Second in *. case_match; simpl; [|eauto with lia].
    exists (re_now (env n)). split; [done|lia].
  - b2p. rewrite app_assoc. destruct Hok1 as [Hc Hl Hs]. split; simpl.
    + intros id' i' Hi'. rewrite emissions_snoc. unfold count_attempt in Hi'. case_decide as Hid.
      * subst id'. rewrite lookup_alter_eq, Hi in Hi'. injection Hi' as <-. simpl.
        specialize (Hc _ _ Hi). unfold redriveMaxAttempts in *. lia.
      * rewrite lookup_alter_ne in Hi' by done. specialize (Hc _ _ Hi'). lia.
    + intros id' t [Hin|[= -> ->]%list_elem_of_singleton]%elem_of_app.
      * destruct (Hl _ _ Hin) as (i' & r & Hi' & Hr' & Ht). unfold count_attempt.
        destruct (decide (id' = c.1)) as [->|]; [|exists i', r; by rewrite lookup_alter_ne].
        rewrite lookup_alter_eq, Hi. eexists _, _. split_and!; [done..|]. simpl.
        assert (i' = i) as -> by congruence. specialize (Hlater _ Hr'). unfold redriveMinInterval, Minute, Second in *. lia.
      * unfold count_attempt. rewrite lookup_alter_eq, Hi. eexists _, _. split_and!; [done..|]. simpl. lia.
    + apply spaced_snoc; [done|]. intros t' (i' & r & Hi' & Hr' & Ht)%Hl. assert (i' = i) as -> by congruence.
      specialize (Hlater _ Hr'). lia.
Qed.

Lemma redrive_one_other n c c' p :
  c'.1 <> c.1 -> as_scanned (p_wakes p) c' -> as_scanned (p_wakes (redrive_one (env n) c p)) c'.
Proof.
  intros Hne Hsc. pose proof (as_scanned_quiet _ _ _ (Hquiet n _) Hsc) as Hsc1. unfold redrive_one.
  repeat case_match; simpl; auto; by apply as_scanned_alter.
Qed.

Lemma redrive_all_ok cs n p log :
  NoDup cs.*1 -> Forall (fun c => stuck now c.2 = true /\ as_scanned (p_wakes p) c) cs ->
  budget_ok (p_wakes p) (log ++ p_emitted p) ->
  budget_ok (p_wakes (redrive_all env n cs p)) (log ++ p_emitted (redrive_all env n cs p)).
Proof.
  revert n p. induction cs as [|c cs IH]; intros n p Hnd Hf Hok; simpl; [done|].
  inversion Hnd as [|? ? Hnin Hnd']; subst. inversion Hf as [|? ? [Hst Hsc] Hf']; subst.
  apply IH; [done| |by apply redrive_one_ok].
  rewrite Forall_forall in Hf' |- *. intros c' Hin. destruct (Hf' _ Hin) as [? ?]. split; [done|].
  apply redrive_one_other; [|done]. intros E. apply Hnin. rewrite <- E. by apply list_elem_of_fmap_2.
Qed.
End Pass.

(** ** Runs *)

Section Runs.
Context `{UuidCast}.

(** The state and every re-emission so far. *)
Inductive rstep : wakes * list (Z * time) -> wakes * list (Z * time) -> Prop :=
| r_quiet w w' log : quiet w w' -> rstep (w, log) (w', log)
| r_pass wired scan_fails now env ws w p failed log :
    (forall n w, quiet w (re_race (env n) w)) -> (forall n, now <= re_now (env n)) ->
    ReDriveStuckWakes wired scan_fails now env ws w = (p, failed) ->
    rstep (w, log) (p_wakes p, log ++ p_emitted p).

Lemma candidates_scanned now ws w :
  Forall (fun c => stuck now c.2 = true /\ as_scanned w c) (candidates now ws w).
Proof.
  rewrite Forall_forall. intros c (Hi & _ & Hst)%elem_of_candidates. split; [done|]. by exists c.2.
Qed.

Lemma rstep_ok s s' : budget_ok s.1 s.2 -> rstep s s' -> budget_ok s'.1 s'.2.
Proof.
  intros Hok Hs. destruct Hs as [w w' log Hq|wired sf now env ws w p failed log Hq Hc Hx]; simpl in *.
  - by eapply budget_ok_quiet.
  - unfold ReDriveStuckWakes in Hx. repeat case_match; simplify_eq/=; try by rewrite app_nil_r.
    apply (redrive_all_ok now); [done|done|apply candidates_NoDup|apply candidates_scanned|]. simpl. by rewrite app_nil_r.
Qed.

Lemma budget_ok_init w : (forall id i, wake_intents w !! id = Some i -> wi_attempts i = 0) -> budget_ok w [].
Proof.
  intros Hz. split.
  - intros id i Hi. rewrite (Hz _ _ Hi). unfold emissions, redriveMaxAttempts. simpl. lia.
  - intros id t Hin. by apply not_elem_of_nil in Hin.
  - intros l1 id t l2 E. by destruct l1.
Qed.
End Runs.

(** However the passes fail and whatever else happens to the ledger, an
    intent that no pass has touched yet is re-emitted at most five times, and
    any two of its re-emissions are more than ten minutes apart. *)
Theorem redrive_budget `{UuidCast} w w' log :
  (forall id i, wake_intents w !! id = Some i -> wi_attempts i = 0) ->
  rtc rstep (w, []) (w', log) ->
  (forall id, emissions id log <= redriveMaxAttempts) /\ spaced log.
Proof.
  intros Hz Hr. apply (rtc_invariant rstep (fun s => budget_ok s.1 s.2)) in Hr;
    [|intros s s' ? ?; by eapply rstep_ok|by apply budget_ok_init].
  destruct Hr as [Hc Hl Hs]. simpl in *. split; [|done]. intros id.
  destruct (decide (emissions id log = 0)) as [->|Hne]; [unfold redriveMaxAttempts; lia|].
  destruct (wake_intents w' !! id) as [i|] eqn:Hi; [specialize (Hc _ _ Hi); lia|].
  exfalso. apply Hne, emissions_zero. intros t (i & r & ? & _)%Hl. congruence.
Qed.

(** ** Passes end *)

Definition undisturbed (now : time) (n : nat) : redrive_env := RedriveEnv (fun w => w) now false false.

Definition clean_pass `{UuidCast} (now : time) (ws : string) (w : wakes) : wakes :=
  p_wakes (ReDriveStuckWakes true false now (undisturbed now) ws w).1.

(** How many more turns an intent can take. *)
Definition turns_left (ws : string) (i : intent) : nat :=
  if bool_decide (wi_workspace i = ws) && nonterminal i then Z.to_nat (redriveMaxAttempts - wi_attempts i + 1) else 0.

Definition work_left (ws : string) (m : gmap Z intent) : nat := sum_list_with (fun ki => turns_left ws ki.2) (map_to_list m).

Lemma work_left_delete ws m id i : m !! id = Some i -> work_left ws m = (turns_left ws i + work_left ws (delete id m))%nat.
Proof.
  intros Hi. unfold work_left. rewrite <- (map_to_list_delete m id i Hi). done.
Qed.

Lemma work_left_alter ws m id i f : m !! id = Some i ->
  (work_left ws (alter f id m) + turns_left ws i = work_left ws m + turns_left ws (f i))%nat.
Proof.
  intros Hi. rewrite (work_left_delete ws m id i Hi), (work_left_delete ws (alter f id m) id (f i)).
  - assert (delete id (alter f id m) = delete id m) as ->; [|lia].
    apply map_eq. intros k. destruct (decide (k = id)) as [->|]; [by rewrite !lookup_delete_eq|].
    by rewrite !lookup_delete_ne, lookup_alter_ne.
  - by rewrite lookup_alter_eq, Hi.
Qed.

Lemma work_left_zero ws m : work_left ws m = 0%nat ->
  forall id i, m !! id = Some i -> wi_workspace i = ws -> wi_attempts i <= redriveMaxAttempts -> nonterminal i = false.
Proof.
  intros Hz id i Hi Hw Ha. rewrite (work_left_delete _ _ _ _ Hi) in Hz.
  unfold turns_left in Hz. rewrite bool_decide_true in Hz by done. destruct (nonterminal i); [|done]. simpl in Hz. lia.
Qed.

(** Every unfinished intent of the workspace may be taken up at [t]. *)
Definition ready (ws : string) (t : time) (m : gmap Z intent) : Prop :=
  forall id i, m !! id = Some i -> wi_workspace i = ws -> nonterminal i = true ->
    wi_attempts i <= redriveMaxAttempts /\ wi_created i < t - redriveStuckAfter /\
    forall r, wi_redriven i = Some r -> r < t - redriveMinInterval.

Lemma ready_stuck ws t m id i :
  ready ws t m -> m !! id = Some i -> wi_workspace i = ws -> nonterminal i = true -> stuck t i = true.
Proof.
  intros Hr Hi Hw Hn. destruct (Hr _ _ Hi Hw Hn) as (_ & Hc & Hl). unfold stuck. rewrite Hn. simpl.
  apply andb_true_iff. split; [by apply Z.ltb_lt|]. destruct (wi_redriven i) as [r|]; simpl; [|done].
  apply Z.ltb_lt. by apply Hl.
Qed.

(** One turn of an undisturbed pass. *)
Definition turn (now : time) (c : Z * intent) (m : gmap Z intent) : gmap Z intent :=
  if redriveMaxAttempts <=? wi_attempts c.2 then drop_intent now c.1 m else count_attempt now c.1 m.

Lemma redrive_all_turns now n cs p :
  wake_intents (p_wakes (redrive_all (undisturbed now) n cs p)) = fold_left (fun m c => turn now c m) cs (wake_intents (p_wakes p)).
Proof.
  revert n p. induction cs as [|c cs IH]; intros n p; simpl; [done|]. rewrite IH. f_equal.
  unfold redrive_one, turn. simpl. by case_match.
Qed.

Lemma turn_other now c m id : id <> c.1 -> turn now c m !! id = m !! id.
Proof. intros. unfold turn, drop_intent, count_attempt. case_match; by rewrite lookup_alter_ne. Qed.

Lemma turn_work now c m :
  m !! c.1 = Some c.2 -> nonterminal c.2 = true -> wi_attempts c.2 <= redriveMaxAttempts ->
  (work_left (wi_workspace c.2) (turn now c m) < work_left (wi_workspace c.2) m)%nat.
Proof.
  intros Hc Hn Ha. destruct c as [id i]. simpl in *.
  assert (Ht : turns_left (wi_workspace i) i = Z.to_nat (redriveMaxAttempts - wi_attempts i + 1)).
  { unfold turns_left. by rewrite bool_decide_true, Hn by done. }
  unfold turn. simpl. destruct (redriveMaxAttempts <=? wi_attempts i) eqn:E; b2p.
  - pose proof (work_left_alter (wi_workspace i) m id i
      (fun i => if nonterminal i then redriven "dropped" (wi_attempts i) now i else i) Hc) as Hw.
    unfold drop_intent. cbv beta in Hw. rewrite Hn in Hw.
    assert (turns_left (wi_workspace i) (redriven "dropped" (wi_attempts i) now i) = 0%nat) as E0
      by (unfold turns_left; simpl; by rewrite andb_false_r). lia.
  - pose proof (work_left_alter (wi_workspace i) m id i (fun i => redriven (wi_status i) (wi_attempts i + 1) now i) Hc) as Hw.
    unfold count_attempt. cbv beta in Hw.
    assert (turns_left (wi_workspace i) (redriven (wi_status i) (wi_attempts i + 1) now i) =
            Z.to_nat (redriveMaxAttempts - (wi_attempts i + 1) + 1)) as E1.
    { unfold turns_left. simpl. rewrite bool_decide_true by done. unfold nonterminal in *. simpl. by rewrite Hn. }
    lia.
Qed.

(** What a turn leaves is ready again after the interval. *)
Lemma turn_ready ws now t' c m :
  redriveMinInterval + now < t' ->
  (forall id i, m !! id = Some i -> wi_workspace i = ws -> nonterminal i = true ->
     wi_attempts i <= redriveMaxAttempts /\ wi_created i < t' - redriveStuckAfter /\
     forall r, wi_redriven i = Some r -> r < t' - redriveMinInterval) ->
  m !! c.1 = Some c.2 -> ready ws t' (turn now c m).
Proof.
  intros Ht Hm Hc id i Hi Hw Hn. destruct (decide (id = c.1)) as [->|]; [|rewrite turn_other in Hi by done; eauto].
  unfold turn, drop_intent, count_attempt in Hi. case_match; rewrite lookup_alter_eq, Hc in Hi; injection Hi as <-.
  - case_match; [done|]. congruence.
  - b2p. simpl in *. destruct (Hm _ _ Hc Hw Hn) as (Ha & Hcr & _). split_and!; [lia|done|]. intros r [= <-]. lia.
Qed.

Lemma turns_progress ws now t' cs m :
  redriveMinInterval + now < t' -> NoDup cs.*1 ->
  Forall (fun c => m !! c.1 = Some c.2 /\ wi_workspace c.2 = ws /\ nonterminal c.2 = true /\ wi_attempts c.2 <= redriveMaxAttempts) cs ->
  ready ws t' m ->
  let m' := fold_left (fun m c => turn now c m) cs m in
  (work_left ws m' + length cs <= work_left ws m)%nat /\ ready ws t' m'.
Proof.
  intros Ht. revert m. induction cs as [|c cs IH]; intros m Hnd Hf Hr; simpl; [split; [lia|done]|].
  inversion Hnd as [|? ? Hnin Hnd']; subst. inversion Hf as [|? ? (Hc & Hw & Hn & Ha) Hf']; subst.
  destruct (IH (turn now c m) Hnd') as [Hwork Hready].
  - rewrite Forall_forall in Hf' |- *. intros c' Hin. destruct (Hf' _ Hin) as (Hc' & Hrest). split; [|done].
    rewrite turn_other; [done|]. intros E. apply Hnin. rewrite <- E. by apply list_elem_of_fmap_2.
  - by apply turn_ready.
  - split; [|done]. pose proof (turn_work now c m Hc Hn Ha). lia.
Qed.

Lemma sum_list_with_pos {A} (f : A -> nat) l : (0 < sum_list_with f l)%nat -> exists x, x ∈ l /\ (0 < f x)%nat.
Proof.
  induction l as [|x l IH]; simpl; [lia|]. intros Hp. destruct (f x) eqn:E.
  - destruct IH as (y & ? & ?); [lia|]. exists y. split; [by right|done].
  - exists x. split; [by left|lia].
Qed.

Section Drain.
Context `{UuidCast}.

Lemma clean_pass_progress ws now t' w :
  canon ws = Some ws -> redriveMinInterval + now < t' -> ready ws now (wake_intents w) ->
  ready ws t' (wake_intents (clean_pass now ws w)) /\
  (work_left ws (wake_intents (clean_pass now ws w)) <= pred (work_left ws (wake_intents w)))%nat.
Proof.
  intros Hws Ht Hr. unfold clean_pass, ReDriveStuckWakes. simpl. rewrite Hws. simpl.
  rewrite redrive_all_turns. simpl. set (cs := candidates now ws w).
  destruct (turns_progress ws now t' cs (wake_intents w)) as [Hwork Hready];
    [done|apply candidates_NoDup| | |].
  - rewrite Forall_forall. intros c (Hi & Hw & Hst)%elem_of_candidates.
    assert (nonterminal c.2 = true) as Hn by (unfold stuck in Hst; b2p; done).
    split_and!; [done..|]. by eapply Hr.
  - intros id i Hi Hw Hn. destruct (Hr _ _ Hi Hw Hn) as (Ha & Hc & Hl). split_and!; [done| |].
    + unfold redriveMinInterval, Minute, Second in *. lia.
    + intros r Hr'. specialize (Hl _ Hr'). unfold redriveMinInterval, Minute, Second in *. lia.
  - split; [done|]. destruct (decide (cs = [])) as [E|Hne]; [|destruct cs; [done|simpl in *; lia]].
    destruct (work_left ws (wake_intents w)) eqn:Ew; [lia|]. exfalso.
    assert (Hex : exists id i, wake_intents w !! id = Some i /\ (0 < turns_left ws i)%nat).
    { unfold work_left in Ew. assert (Hpos : (0 < sum_list_with (fun ki => turns_left ws ki.2) (map_to_list (wake_intents w)))%nat) by lia.
      apply sum_list_with_pos in Hpos as ([id i] & Hin & Hp). apply elem_of_map_to_list in Hin. eauto. }
    destruct Hex as (id & i & Hi & Hp). unfold turns_left in Hp. destruct (_ && _) eqn:Eb in Hp; [|lia]. b2p.
    eapply (candidates_nonempty now ws w); [exact Hi|done| |exact E]. by eapply ready_stuck.
Qed.

(** Passes at the times [ts]. *)
Fixpoint passes (ts : list time) (ws : string) (w : wakes) : wakes :=
  match ts with [] => w | t :: ts' => passes ts' ws (clean_pass t ws w) end.

(** Each later than the one before by more than the interval. *)
Fixpoint apart (t : time) (ts : list time) : Prop :=
  match ts with [] => True | t' :: ts' => redriveMinInterval + t < t' /\ apart t' ts' end.

Lemma passes_finish ts t ws w :
  canon ws = Some ws -> ready ws t (wake_intents w) -> apart t ts ->
  (work_left ws (wake_intents w) <= length (t :: ts))%nat ->
  forall id i, wake_intents (passes (t :: ts) ws w) !! id = Some i -> wi_workspace i = ws -> nonterminal i = false.
Proof.
  intros Hws. revert t w. induction ts as [|t' ts IH]; intros t w Hr Ha Hl id i Hi Hw.
  - assert (Hnext : redriveMinInterval + t < redriveMinInterval + t + 1) by lia.
    destruct (clean_pass_progress ws t _ w Hws Hnext Hr) as [Hready Hwork]. simpl in *.
    destruct (nonterminal i) eqn:Hn; [|done]. rewrite <- Hn.
    eapply work_left_zero; [|exact Hi|done|by eapply Hready]. lia.
  - destruct Ha as [Ht Ha]. destruct (clean_pass_progress ws t t' w Hws Ht Hr) as [Hready Hwork].
    eapply IH; [exact Hready|done| |exact Hi|done]. simpl in *. lia.
Qed.
End Drain.

Definition unfinished (ws : string) (m : gmap Z intent) : nat :=
  length (filter (fun ki => (bool_decide (wi_workspace ki.2 = ws) && nonterminal ki.2)%bool = true) (map_to_list m)).

Lemma work_left_unfinished ws m :
  (forall id i, m !! id = Some i -> 0 <= wi_attempts i) -> (work_left ws m <= 6 * unfinished ws m)%nat.
Proof.
  intros Ha. assert (Hl : Forall (fun ki => 0 <= wi_attempts ki.2) (map_to_list m)).
  { rewrite Forall_forall. intros [id i] Hin. apply elem_of_map_to_list in Hin. by eapply Ha. }
  unfold work_left, unfinished. induction Hl as [|ki l Hk _ IH]; simpl; [lia|].
  rewrite filter_cons. unfold turns_left at 1. destruct (_ && _); simpl; unfold redriveMaxAttempts in *; lia.
Qed.

(** C14: Stuck wakes come to an end: undisturbed passes over a workspace - no
    statement of theirs fails and nobody else writes the table - each more than
    ten minutes after the one before, leave no intent of it unfinished after
    six passes per intent, although a pass takes up twenty at most.  At the first
    pass every unfinished intent is ready: created more than ten minutes ago, not
    taken up in the last ten, and with zero to five attempts; the column starts
    at 0 and a pass is its only writer. *)
Theorem redrive_finishes `{UuidCast} ws w t ts :
  canon ws = Some ws -> ready ws t (wake_intents w) ->
  (forall id i, wake_intents w !! id = Some i -> 0 <= wi_attempts i) ->
  apart t ts -> (6 * unfinished ws (wake_intents w) <= length (t :: ts))%nat ->
  forall id i, wake_intents (passes (t :: ts) ws w) !! id = Some i -> wi_workspace i = ws ->
    nonterminal i = false.
Proof.
  intros Hws Hr Ha Hap Hl. apply passes_finish; auto.
  pose proof (work_left_unfinished ws _ Ha). lia.
Qed.

(** ** Witnesses

    One intent stuck since the start of the clock; six passes drop it. *)
Module RedriveDemo.
#[local] Existing Instance plain_cast.
Definition lost : intent := Intent "ws-1" WakeFirstBootGreet "first-boot-greet:ws-1" 1 "pending" 0 None 0 None.
Definition w0 : wakes := Wakes {["ws-1" := 1]} {[7 := lost]}.
Definition rest : list time := [22 * Minute; 33 * Minute; 44 * Minute; 55 * Minute; 66 * Minute].
Definition after : wakes := passes (11 * Minute :: rest) "ws-1" w0.

Lemma only id i : wake_intents w0 !! id = Some i -> 7 = id /\ lost = i.
Proof. apply lookup_singleton_Some. Qed.

Lemma clean t ws w : rtc rstep (w, []) (clean_pass t ws w, p_emitted (ReDriveStuckWakes true false t (undisturbed t) ws w).1).
Proof.
  apply rtc_once. unfold clean_pass.
  destruct (ReDriveStuckWakes true false t (undisturbed t) ws w) as [p failed] eqn:E.
  apply (r_pass true false t (undisturbed t) ws w p failed []); [intros; apply quiet_refl|simpl; lia|exact E].
Qed.
End RedriveDemo.

Lemma redrive_budget_witness :
  let p := (ReDriveStuckWakes (H:=plain_cast) true false (11 * Minute) (undisturbed (11 * Minute)) "ws-1" RedriveDemo.w0).1 in
  emissions 7 (p_emitted p) = 1 /\ emissions 7 (p_emitted p) <= redriveMaxAttempts.
Proof.
  split; [by vm_compute|].
  assert (Hz : forall id i, wake_intents RedriveDemo.w0 !! id = Some i -> wi_attempts i = 0).
  { intros id i Hi. by apply RedriveDemo.only in Hi as [<- <-]. }
  exact (proj1 (redrive_budget _ _ _ Hz (RedriveDemo.clean (11 * Minute) "ws-1" RedriveDemo.w0)) 7).
Defined.

Lemma redrive_finishes_witness :
  exists i, wake_intents RedriveDemo.after !! 7 = Some i /\ wi_status i = "dropped" /\ nonterminal i = false.
Proof.
  destruct (wake_intents RedriveDemo.after !! 7) as [i|] eqn:E; [|by vm_compute in E].
  exists i. split; [reflexivity|]. split; [vm_compute in E; by injection E as <-|].
  assert (Hw : wi_workspace i = "ws-1") by (vm_compute in E; by injection E as <-).
  refine (redrive_finishes (H:=plain_cast) "ws-1" RedriveDemo.w0 (11 * Minute) RedriveDemo.rest
            _ _ _ _ _ 7 i E Hw).
  - reflexivity.
  - intros id j Hj Hws Hn. apply RedriveDemo.only in Hj as [<- <-].
    split; [by vm_compute|]. split; [by vm_compute|]. discriminate.
  - intros id j Hj. apply RedriveDemo.only in Hj as [<- <-]. by vm_compute.
  - repeat (split; [apply Z.ltb_lt; vm_compute; reflexivity|]). exact I.
  - vm_compute. lia.
Defined.
