(* ===== verification/PgArray.v ===== *)
(** * Postgres text arrays

    The [stringArray] adapter of internal/handlers/request_nudge_sweeper.go:
    what a [[]string] becomes as a bound parameter, and how an array literal is
    read back.  [None] is Go's nil slice. *)

From S2P Require Import Prelude.

Definition quote_char : Ascii.ascii := Ascii.ascii_of_nat 34.
Definition backslash : Ascii.ascii := Ascii.ascii_of_nat 92.
Definition comma : Ascii.ascii := Ascii.ascii_of_nat 44.
Definition lbrace : Ascii.ascii := Ascii.ascii_of_nat 123.
Definition rbrace : Ascii.ascii := Ascii.ascii_of_nat 125.

(** ** Value *)

(** The bytes of an element, quotes and backslashes escaped. *)
Fixpoint escape (e : string) : string :=
  match e with
  | "" => ""
  | String c e' => if decide (c = quote_char \/ c = backslash) then String backslash (String c (escape e'))
                   else String c (escape e')
  end.

Definition quoted (e : string) : string := String quote_char (escape e +:+ String quote_char "").

(** The elements, a comma before each but the first. *)
Fixpoint elements (l : list string) : string :=
  match l with
  | [] => ""
  | [e] => quoted e
  | e :: l' => quoted e +:+ String comma (elements l')
  end.

Definition Value (a : option (list string)) : option string :=
  l ← a; Some (String lbrace (elements l +:+ String rbrace "")).

(** ** parsePGTextArray *)

(** The loop over the bytes between the braces: the finished elements, the
    current one, and the two flags. *)
Fixpoint parse_loop (body : string) (out : list string) (cur : string) (inQuotes escaped : bool) : list string :=
  match body with
  | "" => out ++ [cur]
  | String c body' =>
      if escaped then parse_loop body' out (cur +:+ String c "") inQuotes false
      else if decide (c = backslash) then parse_loop body' out cur inQuotes true
      else if decide (c = quote_char) then parse_loop body' out cur (negb inQuotes) false
      else if decide (c = comma /\ inQuotes = false) then parse_loop body' (out ++ [cur]) "" inQuotes false
      else parse_loop body' out (cur +:+ String c "") inQuotes false
  end.

Definition last_byte (s : string) : option Ascii.ascii := String.get (String.length s - 1) s.

Definition parsePGTextArray (s : string) : option (list string) :=
  if (String.length s <? 2)%nat then None
  else if bool_decide (String.get 0 s = Some lbrace /\ last_byte s = Some rbrace) then
    let body := str_take (String.length s - 2) (str_drop 1 s) in
    if decide (body = "") then None else Some (parse_loop body [] "" false false)
  else None.

(** A NULL column scans to the nil slice. *)
Definition Scan (src : option string) : option (list string) := src ≫= parsePGTextArray.

(** ** What is written is read back *)

Lemma parse_escaped e rest out cur :
  parse_loop (escape e +:+ rest) out cur true false = parse_loop rest out (cur +:+ e) true false.
Proof.
  revert cur. induction e as [|c e IH]; intros cur; simpl; [by rewrite str_app_nil, str_app_nil_r|].
  assert (Hcons : (cur +:+ String c e) = ((cur +:+ String c "") +:+ e)) by by rewrite <- str_app_assoc.
  rewrite Hcons. case_decide as Hc; rewrite !str_app_cons; simpl; [by rewrite IH|].
  rewrite !decide_False by naive_solver. apply IH.
Qed.

Lemma parse_quoted e rest out :
  parse_loop (quoted e +:+ rest) out "" false false = parse_loop rest out e false false.
Proof.
  unfold quoted. rewrite str_app_cons, <- str_app_assoc. simpl. rewrite parse_escaped, str_app_cons. simpl.
  by rewrite str_app_nil.
Qed.

Lemma parse_elements e l out : parse_loop (elements (e :: l)) out "" false false = out ++ e :: l.
Proof.
  revert e out. induction l as [|e' l IH]; intros e out.
  - change (elements [e]) with (quoted e). by rewrite <- (str_app_nil_r (quoted e)), parse_quoted.
  - change (elements (e :: e' :: l)) with (quoted e +:+ String comma (elements (e' :: l))).
    rewrite parse_quoted. cbn [parse_loop]. rewrite !decide_False by done. rewrite decide_True by done.
    rewrite IH. by rewrite <- app_assoc.
Qed.

(** Dropping the braces of a literal. *)
Lemma parse_braced body :
  parsePGTextArray (String lbrace (body +:+ String rbrace "")) =
  if decide (body = "") then None else Some (parse_loop body [] "" false false).
Proof.
  assert (Hlen : String.length (body +:+ String rbrace "") = S (String.length body)) by (rewrite str_length_app; simpl; lia).
  unfold parsePGTextArray. cbn [String.length]. rewrite Hlen.
  destruct (Nat.ltb_spec (S (S (String.length body))) 2); [lia|].
  rewrite bool_decide_true.
  - cbn [str_drop]. replace (S (S (String.length body)) - 2)%nat with (String.length body) by lia.
    by rewrite str_take_app_le, str_take_all by lia.
  - split; [done|]. unfold last_byte. cbn [String.length]. rewrite Hlen.
    replace (S (S (String.length body)) - 1)%nat with (S (String.length body)) by lia.
    cbn [String.get]. rewrite get_app_ge by lia. by rewrite Nat.sub_diag.
Qed.

Lemma elements_nonempty e l : elements (e :: l) <> "".
Proof. by destruct l. Qed.

(** A non-empty list of strings, whatever bytes they hold, survives being
    bound as a text array and parsed back; the empty list comes back as the nil
    slice. *)
Theorem array_round_trip l : Scan (Value (Some l)) = match l with [] => None | _ => Some l end.
Proof.
  unfold Scan, Value. simpl. rewrite parse_braced. destruct l as [|e l]; [done|].
  rewrite decide_False by apply elements_nonempty. by rewrite parse_elements.
Qed.

(** An element that holds none of the characters the parser treats specially. *)
Definition plain_char (c : Ascii.ascii) : Prop := c <> backslash /\ c <> quote_char /\ c <> comma.
Fixpoint plain (e : string) : Prop := match e with "" => True | String c e' => plain_char c /\ plain e' end.

(** The literal array_agg gives for elements that need no quotes. *)
Fixpoint unquoted (l : list string) : string :=
  match l with
  | [] => ""
  | [e] => e
  | e :: l' => e +:+ String comma (unquoted l')
  end.

Lemma parse_plain e rest out cur :
  plain e -> parse_loop (e +:+ rest) out cur false false = parse_loop rest out (cur +:+ e) false false.
Proof.
  revert cur. induction e as [|c e IH]; intros cur; simpl; [by rewrite str_app_nil, str_app_nil_r|].
  intros [(? & ? & ?) Hp]. rewrite !decide_False by naive_solver.
  rewrite IH by done. by rewrite <- str_app_assoc.
Qed.

(** The ids array_agg returns are read back as they are. *)
Lemma array_agg_read l : Forall plain l -> l <> [] -> unquoted l <> "" ->
  parsePGTextArray (String lbrace (unquoted l +:+ String rbrace "")) = Some l.
Proof.
  intros Hp Hne Hs. rewrite parse_braced, decide_False by done. f_equal.
  assert (Hgo : forall out, parse_loop (unquoted l) out "" false false = out ++ l); [|apply Hgo].
  clear Hs. induction l as [|e l IH]; [done|]. inversion Hp; subst. intros out. destruct l as [|e' l].
  - simpl. rewrite <- (str_app_nil_r e) at 1. by rewrite parse_plain.
  - change (unquoted (e :: e' :: l)) with (e +:+ String comma (unquoted (e' :: l))).
    rewrite parse_plain by done. cbn [parse_loop]. rewrite !decide_False by done. rewrite decide_True by done.
    rewrite IH by done. by rewrite <- app_assoc.
Qed.
