(* ===== verification/Nudge.v ===== *)
(** * The inbox nudge (internal/handlers/request_nudge_sweeper.go)

    A sweep finds the idle agents with requests that have waited long enough
    and enqueues one turn for each.  The ledger behind the wake hooks is
    whatever satisfies [WakeLaws]; [None] for the hooks is a sweeper they were
    not wired into. *)

From stdpp Require Import pretty.
From S2P Require Import Prelude Json Tree A2AQueue Requests Wake WakeSafety.

Definition defaultRequestNudgeInterval : Z := 5 * Minute.
Definition requestNudgeStaleAfter : Z := 10 * Minute.
Definition requestNudgeReNudgeAfter : Z := Hour.
Definition requestNudgeBatchLimit : nat := 200.

Record NudgeResult := MkNudgeResult { AgentsNudged : Z; ItemsCovered : Z; NudgeErrors : Z }.

Definition nudge_text (n : Z) : string :=
  ("You have " +:+ pretty n) +:+ (" unhandled inbox " +:+ (if n =? 1 then "request" else "requests")) +:+
  (" awaiting your response. " +:+ "Use list_inbox to see them and respond_request / add_request_message to act.").

Definition buildNudgeBody (fresh_uuid workspaceID : string) (n : Z) (key : string) : json :=
  JObj [("method", JStr "message/send");
        ("params", JObj (("message", JObj [("role", JStr "user");
                            ("messageId", JStr ("inbox-nudge-" +:+ fresh_uuid));
                            ("contextId", JStr (platformTurnContextID workspaceID));
                            ("parts", JArr [JObj [("kind", JStr "text"); ("text", JStr (nudge_text n))]]);
                            ("metadata", JObj [("source", JStr "platform"); ("kind", JStr "inbox_nudge");
                                               ("source_type", JStr "self-nudge")])]) :: key_metadata key))].

Section Nudge.
Context `{UuidCast}.
(** The JSON text of a value. *)
Context (marshal : json -> string).
Context {W E : Type} (hooks : option (wake_hooks W E)).

(** The tables a sweep works on; [nu_stamps] is the column last_nudged_at,
    [nu_sent] the turns handed to the queue, as agent and hour. *)
Record nudge_world := NudgeWorld {
  nu_requests : gmap string RequestRow;
  nu_stamps : gmap string time;
  nu_queue : queue;
  nu_wakes : W;
  nu_sent : list (string * Z)
}.

(** ** The work list *)

(** The conditions on the request alone. *)
Definition nudgeable (now : time) (stamps : gmap string time) (kr : string * RequestRow) : bool :=
  bool_decide (RecipientType kr.2 = "agent") && open_status (Status kr.2) &&
  (CreatedAt kr.2 <? now - requestNudgeStaleAfter) &&
  null_or (stamps !! kr.1) (fun t => t <? now - requestNudgeReNudgeAfter).

(** The conditions on its recipient: an online workspace without a task. *)
Definition idle (known : wstable) (active_tasks : string -> Z) (recipientID : string) : bool :=
  match canon recipientID with
  | Some ws => match known !! ws with
               | Some w => bool_decide (ws_status w = "online") && (active_tasks ws =? 0)
               | None => false
               end
  | None => false
  end.

(** One group per recipient; an id that does not cast fails the query. *)
Definition groups (now : time) (known : wstable) (active_tasks : string -> Z) (w : nudge_world) : option (list (string * list string)) :=
  let rows := filter (fun kr => nudgeable now (nu_stamps w) kr = true) (map_to_list (nu_requests w)) in
  if existsb (fun kr => bool_decide (canon (RecipientID kr.2) = None)) rows then None
  else
    let todo := filter (fun kr => idle known active_tasks (RecipientID kr.2) = true) rows in
    Some (take requestNudgeBatchLimit
            ((fun r => (r, (filter (fun kr => RecipientID kr.2 = r) todo).*1)) <$> remove_dups ((fun kr => RecipientID kr.2) <$> todo))).

(** ** One agent *)

(** The faults and fresh values of one nudge; [ne_clock] is the clock of its
    statements. *)
Record nudge_env := NudgeEnv {
  ne_wake : E; ne_uuid : string; ne_gen : string; ne_faults : enqueue_faults; ne_clock : time; ne_stamp_fails : bool
}.

Definition stamp (now : time) (ids : list string) (w : nudge_world) : gmap string time :=
  foldr (fun id m => match nu_requests w !! id with Some _ => <[id := now]> m | None => m end) (nu_stamps w) ids.

(** The world and whether it returned an error. *)
Definition nudgeAgent (known : wstable) (e : nudge_env) (now : time) (recipientID : string) (ids : list string) (w : nudge_world)
    : nudge_world * bool :=
  match ask_wake hooks (ne_wake e) now recipientID WakeNudge "inbox-nudge" (nu_wakes w) with
  | (wk1, None) => (NudgeWorld (nu_requests w) (nu_stamps w) (nu_queue w) wk1 (nu_sent w), true)
  | (wk1, Some (false, _)) => (NudgeWorld (nu_requests w) (nu_stamps w) (nu_queue w) wk1 (nu_sent w), false)
  | (wk1, Some (true, key)) =>
      let body := buildNudgeBody (ne_uuid e) recipientID (Z.of_nat (length ids)) key in
      let sent := nu_sent w ++ [(recipientID, hourBucket now)] in
      match EnqueueA2A (ne_faults e) (ne_gen e) known (nu_queue w) (ne_clock e) recipientID "" PriorityInfo
              (Payload (marshal body) (Some body)) "message/send" key None with
      | (q1, None) => (NudgeWorld (nu_requests w) (nu_stamps w) q1 wk1 sent, true)
      | (q1, Some _) =>
          let wk2 := tell_delivered hooks (ne_wake e) recipientID key wk1 in
          if ne_stamp_fails e then (NudgeWorld (nu_requests w) (nu_stamps w) q1 wk2 sent, true)
          else (NudgeWorld (nu_requests w) (stamp (ne_clock e) ids w) q1 wk2 sent, false)
      end
  end.

(** ** The sweep *)

Fixpoint nudge_all (known : wstable) (env : nat -> nudge_env) (n : nat) (now : time) (todo : list (string * list string))
    (wr : nudge_world * NudgeResult) : nudge_world * NudgeResult :=
  match todo with
  | [] => wr
  | g :: todo' =>
      let '(w1, failed) := nudgeAgent known (env n) now g.1 g.2 wr.1 in
      let r := wr.2 in
      nudge_all known env (S n) now todo'
        (w1, if failed : bool then MkNudgeResult (AgentsNudged r) (ItemsCovered r) (NudgeErrors r + 1)
             else MkNudgeResult (AgentsNudged r + 1) (ItemsCovered r + Z.of_nat (length g.2)) (NudgeErrors r))
  end.

(** [query_now]: the clock of the query, [now] the one read after it. *)
Definition Sweep (query_fails : bool) (known : wstable) (active_tasks : string -> Z) (query_now now : time)
    (env : nat -> nudge_env) (w : nudge_world) : nudge_world * NudgeResult :=
  match query_fails, groups query_now known active_tasks w with
  | false, Some todo => nudge_all known env 0 now todo (w, MkNudgeResult 0 0 0)
  | _, _ => (w, MkNudgeResult 0 0 1)
  end.
End Nudge.

(** ** Once an hour *)

Section Once.
Context `{UuidCast}.
Context (marshal : json -> string).
Context {W E : Type} (h : wake_hooks W E) `{!WakeLaws h}.

(** A nudge, whoever sends it, or anything else that forgets no wake. *)
Inductive nstep : @nudge_world W -> @nudge_world W -> Prop :=
| n_nudge known e now recipientID ids w :
    nstep w (nudgeAgent marshal (Some h) known e now recipientID ids w).1
| n_other w rq stamps q wk :
    (forall k ws seed, minted (nu_wakes w) k ws seed -> minted wk k ws seed) ->
    nstep w (NudgeWorld rq stamps q wk (nu_sent w)).

Definition sent_ok (w : @nudge_world W) : Prop :=
  NoDup (nu_sent w) /\ forall r b, (r, b) ∈ nu_sent w -> minted (nu_wakes w) WakeNudge r (pretty b).

(** What one nudge does to the ledger and to what was sent. *)
Lemma nudgeAgent_cases known e now r ids w w' err :
  nudgeAgent marshal (Some h) known e now r ids w = (w', err) ->
  (forall k ws seed, minted (nu_wakes w) k ws seed -> minted (nu_wakes w') k ws seed) /\
  (nu_sent w' = nu_sent w /\ nu_queue w' = nu_queue w /\ nu_stamps w' = nu_stamps w \/
   nu_sent w' = nu_sent w ++ [(r, hourBucket now)] /\ ~ minted (nu_wakes w) WakeNudge r (pretty (hourBucket now)) /\
   minted (nu_wakes w') WakeNudge r (pretty (hourBucket now))).
Proof.
  unfold nudgeAgent. intros Hx.
  destruct (ask_wake _ _ _ _ _ _ _) as [wk1 a] eqn:Ha. destruct (ask_wake_laws h _ _ _ _ _ _ _ _ Ha) as [Hkeep Hfire].
  destruct a as [[[] key]|]; [|by simplify_eq/=; auto..].
  destruct (Hfire _ eq_refl) as [Hn Hm].
  destruct (EnqueueA2A _ _ _ _ _ _ _ _ _ _ _ _) as [q1 [a|]]; [|simplify_eq/=; auto].
  destruct (ne_stamp_fails e); simplify_eq/=; (split; [intros; by apply tell_delivered_keeps, Hkeep|]);
    right; (split; [done|]); (split; [done|]); by apply tell_delivered_keeps.
Qed.

Lemma nstep_ok w w' : sent_ok w -> nstep w w' -> sent_ok w'.
Proof.
  intros [Hn Hs] Hst. destruct Hst as [known e now r ids w|w rq stamps q wk Hk].
  - destruct (nudgeAgent marshal (Some h) known e now r ids w) as [w' err] eqn:Hx. simpl.
    destruct (nudgeAgent_cases _ _ _ _ _ _ _ _ Hx) as [Hk [(E1 & _)|(E1 & Hnm & Hm)]]; unfold sent_ok; rewrite E1.
    + split; [done|]. intros r' b Hin. by apply Hk, Hs.
    + split.
      * apply NoDup_app. split; [done|]. split; [|apply NoDup_singleton].
        intros [r' b] Hin [= -> ->]%list_elem_of_singleton. by apply Hnm, Hs.
      * intros r' b [Hin|[= -> ->]%list_elem_of_singleton]%elem_of_app; [by apply Hk, Hs|done].
  - split; [done|]. intros r b Hin. simpl. by apply Hk, Hs.
Qed.

Lemma nudge_all_steps known env n now todo w res :
  rtc nstep w (nudge_all marshal (Some h) known env n now todo (w, res)).1.
Proof.
  revert n w res. induction todo as [|g todo IH]; intros n w res; simpl; [done|].
  destruct (nudgeAgent _ _ known (env n) now g.1 g.2 w) as [w1 err] eqn:Hx.
  eapply rtc_l; [|apply IH]. pose proof (n_nudge known (env n) now g.1 g.2 w) as Hs. by rewrite Hx in Hs.
Qed.

Lemma Sweep_steps qf known active_tasks qnow now env w :
  rtc nstep w (Sweep marshal (Some h) qf known active_tasks qnow now env w).1.
Proof. unfold Sweep. repeat case_match; simpl; try done. apply nudge_all_steps. Qed.

(** With the wake ledger wired in, an agent is nudged at most once in an
    hour of the clock, however many sweepers run, fail and interleave. *)
Theorem nudged_once_an_hour w w' :
  nu_sent w = [] -> rtc nstep w w' -> NoDup (nu_sent w').
Proof.
  intros Hw Hr. apply (rtc_invariant nstep sent_ok) in Hr; [by destruct Hr|apply nstep_ok|].
  unfold sent_ok. rewrite Hw. split; [constructor|]. intros r b Hin. by apply not_elem_of_nil in Hin.
Qed.

(** A nudge whose enqueue fails is not retried by the next sweeps: for the
    rest of the hour the ledger refuses it, and nothing is queued or stamped
    for the agent. *)
Theorem failed_nudge_waits_for_the_hour w0 w known e now r ids w1 :
  nu_sent w0 = [] -> rtc nstep w0 w ->
  nudgeAgent marshal (Some h) known e now r ids w = (w1, true) -> nu_sent w1 <> nu_sent w ->
  forall w2, rtc nstep w1 w2 ->
  forall known' e' now' ids', hourBucket now' = hourBucket now ->
    let w3 := (nudgeAgent marshal (Some h) known' e' now' r ids' w2).1 in
    nu_queue w3 = nu_queue w2 /\ nu_stamps w3 = nu_stamps w2 /\ nu_sent w3 = nu_sent w2.
Proof.
  intros Hw0 Hr0 Hx Hne w2 Hr2 known' e' now' ids' Hb w3.
  assert (Hm : minted (nu_wakes w2) WakeNudge r (pretty (hourBucket now))).
  { destruct (nudgeAgent_cases _ _ _ _ _ _ _ _ Hx) as [_ [(E1 & _)|(_ & _ & Hm)]]; [done|].
    clear Hx Hne Hr0. induction Hr2 as [|w1 w1' w2 Hs Hr2 IH]; [done|]. apply IH.
    destruct Hs as [known2 e2 now2 r2 ids2 w1|w1 rq stamps q wk Hk]; [|by apply Hk].
    destruct (nudgeAgent marshal (Some h) known2 e2 now2 r2 ids2 w1) as [w1'' err] eqn:Hx2.
    by destruct (nudgeAgent_cases _ _ _ _ _ _ _ _ Hx2) as [Hk _]; apply Hk. }
  unfold w3. destruct (nudgeAgent marshal (Some h) known' e' now' r ids' w2) as [w4 err] eqn:Hx4. simpl.
  destruct (nudgeAgent_cases _ _ _ _ _ _ _ _ Hx4) as [_ [(-> & -> & ->)|(_ & Hn & _)]]; [done|].
  rewrite Hb in Hn. done.
Qed.
End Once.

(** ** Witnesses

    The queue is down when the first sweep nudges an agent; twenty minutes
    later it is up again and the second sweep skips the agent. *)
Module NudgeDemo.
#[local] Existing Instance plain_cast.
Definition text (j : json) : string := "{}".
Definition known : wstable := {["ws-1" := WsRow "a" None "online" None None]}.
Definition world : @nudge_world wakes := NudgeWorld ∅ ∅ ∅ (Wakes {["ws-1" := 0]} ∅) [].
Definition env (down : bool) : @nudge_env wake_env :=
  NudgeEnv (WakeEnv no_decide_fault 1 false) "u" "g" (EnqueueFaults false down false false) 0 false.
Definition first : nudge_world * bool := nudgeAgent text (Some ledger_hooks) known (env true) (5 * Minute) "ws-1" ["r1"] world.
Definition second : nudge_world * bool := nudgeAgent text (Some ledger_hooks) known (env false) (25 * Minute) "ws-1" ["r1"] first.1.

Lemma nudge_demo_run : rtc (nstep text ledger_hooks) world second.1.
Proof.
  eapply rtc_l; [apply (n_nudge text ledger_hooks known (env true) (5 * Minute) "ws-1" ["r1"])|].
  apply rtc_once, (n_nudge text ledger_hooks known (env false) (25 * Minute) "ws-1" ["r1"]).
Qed.
End NudgeDemo.

Lemma nudged_once_an_hour_witness : nu_sent NudgeDemo.second.1 = [("ws-1", 0)] /\ NoDup (nu_sent NudgeDemo.second.1).
Proof.
  split; [by vm_compute|].
  exact (nudged_once_an_hour (H:=plain_cast) NudgeDemo.text ledger_hooks NudgeDemo.world _ eq_refl NudgeDemo.nudge_demo_run).
Defined.

Lemma failed_nudge_waits_for_the_hour_witness :
  NudgeDemo.first.2 = true /\ NudgeDemo.second.2 = false /\ nu_queue NudgeDemo.second.1 = nu_queue NudgeDemo.first.1.
Proof.
  split; [by vm_compute|]. split; [by vm_compute|].
  assert (Hx : NudgeDemo.first = (NudgeDemo.first.1, true)) by (by vm_compute).
  assert (Hne : nu_sent NudgeDemo.first.1 <> nu_sent NudgeDemo.world) by (by vm_compute).
  assert (Hb : hourBucket (25 * Minute) = hourBucket (5 * Minute)) by (by vm_compute).
  exact (proj1 (failed_nudge_waits_for_the_hour (H:=plain_cast) NudgeDemo.text ledger_hooks NudgeDemo.world NudgeDemo.world
           _ _ _ _ _ _ eq_refl (rtc_refl _ _) Hx Hne _ (rtc_refl _ _) NudgeDemo.known (NudgeDemo.env false) (25 * Minute) ["r1"] Hb)).
Defined.
