(* ===== verification/Stall.v ===== *)
(** * The stall watchdog (internal/handlers/stall_watchdog.go)

    A workspace that is online and busy but has recorded no activity for a
    while is probed, and restarted when it stays silent.  [st_rows] is the
    table workspace_stall_state. *)

From stdpp Require Import pretty.
From S2P Require Import Prelude Json Tree A2AQueue Wake WakeSafety.

Definition defaultStallWatchdogInterval : Z := 3 * Minute.
Definition stallStaleAfter : Z := 12 * Minute.
Definition stallProbeGrace : Z := 5 * Minute.
Definition stallCooldown : Z := 30 * Minute.
Definition stallBatchLimit : nat := 100.

Record StallWatchdog := MkStallWatchdog {
  staleAfter : Z; probeGrace : Z; cooldown : Z;
  can_restart : bool                  (* a restart function is wired *)
}.

Record stall_row := StallRow {
  st_state : string; st_probed : option time; st_probed_activity : option time; st_last_action : option time
}.

(** One busy and silent workspace with its row, if any. *)
Record stallCandidate := MkStallCandidate {
  workspaceID : string; lastActivityAt : option time; state_row : option stall_row
}.

Record StallResult := MkStallResult { Probed : Z; Restarted : Z; Cleared : Z; StallErrors : Z }.

(** [int(d.Minutes())] of a duration. *)
Definition minutes (d : Z) : Z := Z.quot d Minute.

Definition probe_text (staleMins graceMins : Z) : string :=
  ("Liveness check: you've had no recorded activity for over " +:+ pretty staleMins) +:+
  (" minutes while still marked busy " +:+ "(an active task is in progress). If you are working, reply or take an action now — anything ") +:+
  ("that records activity. If you do not within " +:+ pretty graceMins) +:+
  (" minutes, you'll be automatically restarted to " +:+ "recover from a possible hang.").

Definition buildStallProbeBody (fresh_uuid workspaceID : string) (staleMins graceMins : Z) (key : string) : json :=
  JObj [("method", JStr "message/send");
        ("params", JObj (("message", JObj [("role", JStr "user");
                            ("messageId", JStr ("stall-probe-" +:+ fresh_uuid));
                            ("contextId", JStr (platformTurnContextID workspaceID));
                            ("parts", JArr [JObj [("kind", JStr "text"); ("text", JStr (probe_text staleMins graceMins))]]);
                            ("metadata", JObj [("source", JStr "platform"); ("kind", JStr "stall_probe");
                                               ("source_type", JStr "self-stall")])]) :: key_metadata key))].

Section Stall.
Context `{UuidCast}.
(** The JSON text of a value. *)
Context (marshal : json -> string).
Context {W E : Type} (hooks : option (wake_hooks W E)).
Context (s : StallWatchdog).

(** The tables, and what the watchdog did: probes handed to the queue and
    restarts dispatched, each with the candidate and the clock of its sweep. *)
Record stall_world := StallWorld {
  st_rows : gmap string stall_row;
  st_queue : queue;
  st_wakes : W;
  st_probes : list (stallCandidate * time);
  st_restarts : list (stallCandidate * time);
  st_audit : list (string * string)           (* activity_logs: workspace and action *)
}.

(** The rows of [workspaces] as the query sees them. *)
Record activity := Activity { ac_known : wstable; ac_tasks : string -> Z; ac_last : gmap string time }.

Definition silent (query_now : time) (ac : activity) (kw : string * wsrow) : bool :=
  bool_decide (ws_status kw.2 = "online") && (0 <? ac_tasks ac kw.1) &&
  some_and (ac_last ac !! kw.1) (fun t => t <? query_now - Z.quot (staleAfter s) Second * Second).

Definition stall_candidates (query_now : time) (ac : activity) (w : stall_world) : list stallCandidate :=
  take stallBatchLimit
    (sort_by (fun c => default 0 (lastActivityAt c))
       ((fun kw => MkStallCandidate kw.1 (ac_last ac !! kw.1) (st_rows w !! kw.1)) <$>
        filter (fun kw => silent query_now ac kw = true) (map_to_list (ac_known ac)))).

(** The faults and fresh values of one candidate's turn. *)
Record stall_env := StallEnv {
  se_wake : E; se_uuid : string; se_gen : string; se_faults : enqueue_faults; se_clock : time;
  se_write_fails : bool; se_audit_fails : bool
}.

Definition audit (e : stall_env) (ws action : string) (l : list (string * string)) : list (string * string) :=
  if se_audit_fails e then l else l ++ [(ws, action)].

(** ** The actions: the world, and [true] for an error *)

Definition clearState (e : stall_env) (ws : string) (w : stall_world) : stall_world * bool :=
  if se_write_fails e then (w, true)
  else (StallWorld (delete ws (st_rows w)) (st_queue w) (st_wakes w) (st_probes w) (st_restarts w) (audit e ws "clear" (st_audit w)), false).

(** The upsert of a probe keeps the time of the last restart. *)
Definition probed_row (now : time) (c : stallCandidate) (old : option stall_row) : stall_row :=
  StallRow "probed" (Some now) (lastActivityAt c) (r ← old; st_last_action r).

(** What a probe came to: an error, a wake that was minted before, or done. *)
Inductive probe_outcome := ProbeError | ProbeSkipped | ProbeDone.

Definition probe (e : stall_env) (known : wstable) (now : time) (c : stallCandidate) (w : stall_world) : stall_world * probe_outcome :=
  let ws := workspaceID c in
  match ask_wake hooks (se_wake e) now ws WakeStall "stall-probe" (st_wakes w) with
  | (wk1, None) => (StallWorld (st_rows w) (st_queue w) wk1 (st_probes w) (st_restarts w) (st_audit w), ProbeError)
  | (wk1, Some (false, _)) => (StallWorld (st_rows w) (st_queue w) wk1 (st_probes w) (st_restarts w) (st_audit w), ProbeSkipped)
  | (wk1, Some (true, key)) =>
      let metaKey := match hooks with None => "" | Some _ => key end in
      let body := buildStallProbeBody (se_uuid e) ws (minutes (staleAfter s)) (minutes (probeGrace s)) metaKey in
      match EnqueueA2A (se_faults e) (se_gen e) known (st_queue w) (se_clock e) ws "" PriorityCritical
              (Payload (marshal body) (Some body)) "message/send" key None with
      | (q1, None) => (StallWorld (st_rows w) q1 wk1 (st_probes w) (st_restarts w) (st_audit w), ProbeError)
      | (q1, Some _) =>
          let wk2 := tell_delivered hooks (se_wake e) ws key wk1 in
          let probes := st_probes w ++ [(c, now)] in
          if se_write_fails e then (StallWorld (st_rows w) q1 wk2 probes (st_restarts w) (st_audit w), ProbeError)
          else (StallWorld (<[ws := probed_row now c (st_rows w !! ws)]> (st_rows w)) q1 wk2 probes (st_restarts w)
                  (audit e ws "probe" (st_audit w)), ProbeDone)
      end
  end.

Definition restarted_row (now : time) (c : stallCandidate) (old : option stall_row) : stall_row :=
  match old with
  | Some r => StallRow "restarted" (st_probed r) (st_probed_activity r) (Some now)
  | None => StallRow "restarted" (state_row c ≫= st_probed) (state_row c ≫= st_probed_activity) (Some now)
  end.

Definition softRestart (e : stall_env) (now : time) (c : stallCandidate) (w : stall_world) : stall_world * bool * bool :=
  if negb (can_restart s) then (w, false, false)
  else if se_write_fails e then (w, false, true)
  else
    let ws := workspaceID c in
    (StallWorld (<[ws := restarted_row now c (st_rows w !! ws)]> (st_rows w)) (st_queue w) (st_wakes w) (st_probes w)
       (st_restarts w ++ [(c, now)]) (audit e ws "restart" (st_audit w)), true, false).

Definition count_probe (o : probe_outcome) (r : StallResult) : StallResult :=
  match o with
  | ProbeError => MkStallResult (Probed r) (Restarted r) (Cleared r) (StallErrors r + 1)
  | ProbeSkipped => r
  | ProbeDone => MkStallResult (Probed r + 1) (Restarted r) (Cleared r) (StallErrors r)
  end.

(** Activity since the probe: [t.After(u)] on valid times. *)
Definition resumed (c : stallCandidate) (r : stall_row) : bool :=
  some_and (st_probed_activity r) (fun u => some_and (lastActivityAt c) (fun t => u <? t)).

Definition in_cooldown (now : time) (r : stall_row) : bool := some_and (st_last_action r) (fun t => now - t <? cooldown s).
Definition within_grace (now : time) (r : stall_row) : bool := null_or (st_probed r) (fun t => now - t <=? probeGrace s).

(** The state machine for one candidate; an error is counted by the sweep. *)
Definition act (e : stall_env) (known : wstable) (now : time) (c : stallCandidate) (wr : stall_world * StallResult)
    : stall_world * StallResult :=
  let '(w, r) := wr in
  let do_probe := let '(w1, o) := probe e known now c w in (w1, count_probe o r) in
  match state_row c with
  | None => do_probe
  | Some row =>
      if decide (st_state row = "probed") then
        if resumed c row then
          let '(w1, failed) := clearState e (workspaceID c) w in
          (w1, if failed : bool then MkStallResult (Probed r) (Restarted r) (Cleared r) (StallErrors r + 1)
               else MkStallResult (Probed r) (Restarted r) (Cleared r + 1) (StallErrors r))
        else if within_grace now row then (w, r)
        else if in_cooldown now row then (w, r)
        else
          let '(w1, done_, failed) := softRestart e now c w in
          (w1, MkStallResult (Probed r) (Restarted r + (if done_ : bool then 1 else 0)) (Cleared r)
                 (StallErrors r + (if failed : bool then 1 else 0)))
      else if decide (st_state row = "restarted") then
        if in_cooldown now row then (w, r) else do_probe
      else (w, r)
  end.

Fixpoint act_all (env : nat -> stall_env) (known : wstable) (n : nat) (now : time) (todo : list stallCandidate)
    (wr : stall_world * StallResult) : stall_world * StallResult :=
  match todo with
  | [] => wr
  | c :: todo' => act_all env known (S n) now todo' (act (env n) known now c wr)
  end.

(** [query_now]: the clock of the query, [now] the one read after it. *)
Definition Sweep (query_fails : bool) (ac : activity) (query_now now : time) (env : nat -> stall_env) (w : stall_world)
    : stall_world * StallResult :=
  if query_fails then (w, MkStallResult 0 0 0 1)
  else act_all env (ac_known ac) 0 now (stall_candidates query_now ac w) (w, MkStallResult 0 0 0 0).
End Stall.

(** * The watchdog restarts on evidence, and seldom

    The sweeps of one watchdog, one after the other on a clock that does not go
    back, with any traffic on the queue and the wake ledger in between. *)

Section Safety.
Context `{UuidCast}.
Context (marshal : json -> string).
Context {W V : Type} (hooks : option (wake_hooks W V)).
Context (s : StallWatchdog).

Abbreviation world := (@stall_world W).

(** A sweep, or anything that leaves the watchdog's table alone. *)
Inductive sstep : world * time -> world * time -> Prop :=
| s_sweep qf ac query_now now env w clk :
    clk <= now -> query_now <= now ->
    sstep (w, clk) ((Sweep marshal hooks s qf ac query_now now env w).1, now)
| s_other w clk q wk l :
    sstep (w, clk) (StallWorld (st_rows w) q wk (st_probes w) (st_restarts w) l, clk).

(** ** The invariant *)

Definition row_ok (w : world) (clk : time) (ws : string) (row : stall_row) : Prop :=
  st_state row = "probed" /\
    (exists c p, (c, p) ∈ st_probes w /\ workspaceID c = ws /\ st_probed row = Some p /\
                 st_probed_activity row = lastActivityAt c /\ p <= clk) \/
  st_state row = "restarted" /\ exists t, st_last_action row = Some t /\ t <= clk.

(** Where the table stands after a restart at [t]. *)
Definition after_restart (clk t : time) (row : option stall_row) : Prop :=
  t <= clk /\
  match row with
  | None => t + cooldown s <= clk
  | Some r => (st_state r = "probed" -> exists p, st_probed r = Some p /\ t + cooldown s <= p) /\
              (st_state r = "restarted" -> exists t', st_last_action r = Some t' /\ t <= t')
  end.

(** Silent since an earlier probe that had its grace. *)
Definition on_evidence (probes : list (stallCandidate * time)) (c : stallCandidate) (t : time) : Prop :=
  exists c' p l l', (c', p) ∈ probes /\ workspaceID c' = workspaceID c /\ p + probeGrace s < t /\
    lastActivityAt c = Some l /\ lastActivityAt c' = Some l' /\ l <= l' /\
    l < t - Z.quot (staleAfter s) Second * Second.

Definition restarts_apart (log : list (stallCandidate * time)) : Prop :=
  forall l1 c t l2, log = l1 ++ (c, t) :: l2 ->
    forall c' t', (c', t') ∈ l1 -> workspaceID c' = workspaceID c -> t' + cooldown s + probeGrace s < t.

Record stall_ok (w : world) (clk : time) : Prop := {
  ok_rows : forall ws row, st_rows w !! ws = Some row -> row_ok w clk ws row;
  ok_probes : forall c p, (c, p) ∈ st_probes w -> lastActivityAt c <> None;
  ok_after : forall c t, (c, t) ∈ st_restarts w -> after_restart clk t (st_rows w !! workspaceID c);
  ok_evidence : forall c t, (c, t) ∈ st_restarts w -> on_evidence (st_probes w) c t;
  ok_apart : restarts_apart (st_restarts w)
}.

Lemma row_ok_mono w w' clk clk' ws row :
  (forall cp, cp ∈ st_probes w -> cp ∈ st_probes w') -> clk <= clk' -> row_ok w clk ws row -> row_ok w' clk' ws row.
Proof.
  intros Hp Hc [[E (c & p & Hin & Hrest)]|[E (t & Ht & Hle)]]; [left|right]; (split; [done|]).
  - exists c, p. split; [by apply Hp|]. naive_solver lia.
  - exists t. split; [done|lia].
Qed.

Lemma after_restart_mono clk clk' t row : clk <= clk' -> after_restart clk t row -> after_restart clk' t row.
Proof. intros Hc [Ht Hr]. split; [lia|]. destruct row; [done|lia]. Qed.

Lemma on_evidence_mono probes probes' c t :
  (forall cp, cp ∈ probes -> cp ∈ probes') -> on_evidence probes c t -> on_evidence probes' c t.
Proof. intros Hp (c' & p & l & l' & Hin & Hrest). exists c', p, l, l'. split; [by apply Hp|done]. Qed.

Lemma stall_ok_later w clk clk' : clk <= clk' -> stall_ok w clk -> stall_ok w clk'.
Proof.
  intros Hc [Hr Hp Ha He Hs]. split; [| done | | done | done].
  - intros ws row Hrow. eapply row_ok_mono; [done|done|by apply Hr].
  - intros c t Hin. eapply after_restart_mono; [done|by apply Ha].
Qed.

(** ** What each action does to the tables *)

(** A change of one workspace's row, with more probes and the same restarts. *)
Lemma stall_ok_write w clk ws row q wk l probes :
  stall_ok w clk ->
  (forall cp, cp ∈ st_probes w -> cp ∈ probes) ->
  (forall c p, (c, p) ∈ probes -> lastActivityAt c <> None) ->
  let w' := StallWorld (partial_alter (fun _ => row) ws (st_rows w)) q wk probes (st_restarts w) l in
  (forall r, row = Some r -> row_ok w' clk ws r) ->
  (forall c t, (c, t) ∈ st_restarts w -> workspaceID c = ws -> after_restart clk t row) ->
  stall_ok w' clk.
Proof.
  intros [Hr Hp Ha He Hs] Hmono Hlast w' Hrow Hafter. split; simpl; [| done | | | done].
  - intros ws' r. destruct (decide (ws = ws')) as [<-|]; [rewrite lookup_partial_alter_eq; apply Hrow|].
    rewrite lookup_partial_alter_ne by done. intros Hr'. by eapply row_ok_mono; [..|by apply Hr]; [|lia].
  - intros c t Hin. destruct (decide (ws = workspaceID c)) as [E|]; [rewrite E, lookup_partial_alter_eq; eauto|].
    rewrite lookup_partial_alter_ne by done. by apply Ha.
  - intros c t Hin. eapply on_evidence_mono; [done|by apply He].
Qed.

Lemma probe_ok e known now c w w' o :
  stall_ok w now -> lastActivityAt c <> None -> st_rows w !! workspaceID c = state_row c ->
  (forall r, state_row c = Some r -> st_state r = "restarted" /\ in_cooldown s now r = false) ->
  probe marshal hooks s e known now c w = (w', o) ->
  stall_ok w' now /\ st_restarts w' = st_restarts w /\ (forall ws, ws <> workspaceID c -> st_rows w' !! ws = st_rows w !! ws).
Proof.
  intros Hok Hlast Hrow Hidle Hx.
  assert (Hframe : forall q wk l probes, (forall cp, cp ∈ st_probes w -> cp ∈ probes) ->
            (forall c p, (c, p) ∈ probes -> lastActivityAt c <> None) ->
            stall_ok (StallWorld (st_rows w) q wk probes (st_restarts w) l) now).
  { intros q wk l probes Hm Hl. destruct Hok as [Hr Hp Ha He Hs]. split; simpl; [|done|done| |done].
    - intros ws row Hr'. eapply row_ok_mono; [done|reflexivity|by apply Hr].
    - intros c0 t Hin. eapply on_evidence_mono; [done|by apply He]. }
  assert (Hsnoc : forall c0 p, (c0, p) ∈ st_probes w ++ [(c, now)] -> lastActivityAt c0 <> None).
  { intros c0 p [Hin|[= -> ->]%list_elem_of_singleton]%elem_of_app; [by eapply ok_probes|done]. }
  assert (Hmono : forall cp, cp ∈ st_probes w -> cp ∈ st_probes w ++ [(c, now)]) by set_solver.
  pose proof (ok_probes _ _ Hok) as Hold.
  unfold probe in Hx. destruct (ask_wake _ _ _ _ _ _ _) as [wk1 [[[] key]|]];
    [|by simplify_eq; split_and!; [by apply Hframe|..]..].
  destruct (EnqueueA2A _ _ _ _ _ _ _ _ _ _ _ _) as [q1 [a|]]; [|by simplify_eq; split_and!; [by apply Hframe|..]].
  destruct (se_write_fails e); simplify_eq; [by split_and!; [by apply Hframe|..]|].
  split_and!; [|done|intros ws Hne; simpl; by rewrite lookup_insert_ne].
  apply (stall_ok_write w now (workspaceID c) (Some (probed_row now c (st_rows w !! workspaceID c)))); try done.
  - intros r [= <-]. left. split; [done|]. exists c, now. split_and!; [set_solver|done..|lia].
  - intros c0 t Hin E. destruct (ok_after _ _ Hok _ _ Hin) as [Ht Hcase]. rewrite E, Hrow in Hcase.
    split; [done|]. split; [|done]. intros _. exists now. split; [done|].
    destruct (state_row c) as [r|]; [|done]. destruct (Hidle _ eq_refl) as [Hst Hcd].
    destruct Hcase as [_ Hre]. destruct (Hre Hst) as (t' & Hla & Hle).
    unfold in_cooldown in Hcd. rewrite Hla in Hcd. simpl in Hcd. b2p. lia.
Qed.

Lemma restart_ok (e : @stall_env V) now c w w' did failed row :
  stall_ok w now -> st_rows w !! workspaceID c = Some row -> state_row c = Some row -> st_state row = "probed" ->
  resumed c row = false -> within_grace s now row = false ->
  (forall l, lastActivityAt c = Some l -> l < now - Z.quot (staleAfter s) Second * Second) -> lastActivityAt c <> None ->
  softRestart s e now c w = (w', did, failed) ->
  stall_ok w' now /\ (forall ws, ws <> workspaceID c -> st_rows w' !! ws = st_rows w !! ws).
Proof.
  intros Hok Hrow Hc Hst Hres Hgr Hsil Hlast Hx. unfold softRestart in Hx.
  destruct (can_restart s); [simpl in Hx|by simplify_eq/=]. destruct (se_write_fails e); [by simplify_eq|].
  simplify_eq. split; [|intros ws Hne; simpl; by rewrite lookup_insert_ne].
  destruct (lastActivityAt c) as [l|] eqn:Hl; [|done]. specialize (Hsil l eq_refl).
  destruct Hok as [Hr Hp Ha He Hs].
  destruct (Hr _ _ Hrow) as [[_ (c' & p & Hin & Hws & Hpr & Hpa & Hple)]|[? _]]; [|congruence].
  unfold within_grace in Hgr. rewrite Hpr in Hgr. simpl in Hgr. b2p.
  destruct (lastActivityAt c') as [l'|] eqn:Hl'; [|by apply Hp in Hin].
  unfold resumed in Hres. rewrite Hpa in Hres. simpl in Hres. rewrite Hl in Hres. simpl in Hres. b2p.
  split; simpl.
  - intros ws r. destruct (decide (ws = workspaceID c)) as [->|]; [rewrite lookup_insert_eq|rewrite lookup_insert_ne by done].
    + intros [= <-]. right. rewrite Hrow. split; [done|]. exists now. split; [done|lia].
    + intros Hr'. by apply Hr.
  - exact Hp.
  - intros c0 t [Hin0|[= -> ->]%list_elem_of_singleton]%elem_of_app.
    + destruct (Ha _ _ Hin0) as [Ht Hcase]. destruct (decide (workspaceID c0 = workspaceID c)) as [->|].
      * rewrite lookup_insert_eq, Hrow. split; [done|]. split; [done|]. intros _. exists now. split; [done|lia].
      * rewrite lookup_insert_ne by done. by apply Ha.
    + rewrite lookup_insert_eq, Hrow. split; [lia|]. split; [done|]. intros _. exists now. split; [done|lia].
  - intros c0 t [Hin0|[= -> ->]%list_elem_of_singleton]%elem_of_app; [by apply He|].
    exists c', p, l, l'. split_and!; [done..|lia|done|done|lia|lia].
  - intros l1 c0 t l2 Eq c1 t1 Hin1 Hws1.
    destruct (snoc_split _ _ _ _ _ Eq) as [(_ & <- & [= <- <-])|(l2' & _ & El)]; [|by eapply (Hs _ _ _ _ El)].
    destruct (Ha _ _ Hin1) as [Ht Hcase]. rewrite Hws1, Hrow in Hcase. destruct Hcase as [Hpb _].
    destruct (Hpb Hst) as (p' & Hp' & Hle). simplify_eq. lia.
Qed.

Lemma clear_ok (e : @stall_env V) now c w w' failed row :
  stall_ok w now -> st_rows w !! workspaceID c = Some row -> st_state row = "probed" ->
  clearState e (workspaceID c) w = (w', failed) ->
  stall_ok w' now /\ (forall ws, ws <> workspaceID c -> st_rows w' !! ws = st_rows w !! ws).
Proof.
  intros Hok Hrow Hst Hx. unfold clearState in Hx. destruct (se_write_fails e); simplify_eq; [done|].
  split; [|intros ws Hne; simpl; by rewrite lookup_delete_ne].
  apply (stall_ok_write w now (workspaceID c) None); try done; [by eapply ok_probes|].
  intros c0 t Hin E. destruct (ok_after _ _ Hok _ _ Hin) as [Ht Hcase]. rewrite E, Hrow in Hcase. split; [done|].
  destruct Hcase as [Hp _]. destruct (Hp Hst) as (p & Hpr & Hle).
  destruct (ok_rows _ _ Hok _ _ Hrow) as [[_ (c' & p' & _ & _ & Hpr' & _ & Hple)]|[? _]]; [|congruence].
  simplify_eq. lia.
Qed.

(** ** A sweep *)

(** A candidate as it was scanned. *)
Definition scanned (w : world) (now : time) (c : stallCandidate) : Prop :=
  st_rows w !! workspaceID c = state_row c /\ lastActivityAt c <> None /\
  forall l, lastActivityAt c = Some l -> l < now - Z.quot (staleAfter s) Second * Second.

Lemma act_ok e known now c w r w' r' :
  stall_ok w now -> scanned w now c -> act marshal hooks s e known now c (w, r) = (w', r') ->
  stall_ok w' now /\ (forall ws, ws <> workspaceID c -> st_rows w' !! ws = st_rows w !! ws).
Proof.
  intros Hok (Hrow & Hlast & Hsil) Hx. unfold act in Hx.
  destruct (state_row c) as [row|] eqn:Hc.
  - case_decide as Hst.
    + destruct (resumed c row) eqn:Hres.
      * destruct (clearState e (workspaceID c) w) as [w1 failed] eqn:Hcl. simplify_eq. by eapply clear_ok.
      * destruct (within_grace s now row) eqn:Hgr; [by simplify_eq|].
        destruct (in_cooldown s now row); [by simplify_eq|].
        destruct (softRestart s e now c w) as [[w1 did] failed] eqn:Hre. simplify_eq. by eapply restart_ok.
    + case_decide as Hst2; [|by simplify_eq].
      destruct (in_cooldown s now row) eqn:Hcd; [by simplify_eq|].
      destruct (probe marshal hooks s e known now c w) as [w1 o] eqn:Hpr. simplify_eq.
      assert (Hidle : forall r1, state_row c = Some r1 -> st_state r1 = "restarted" /\ in_cooldown s now r1 = false).
      { intros r1. rewrite Hc. by intros [= <-]. }
      rewrite <- Hc in Hrow. by destruct (probe_ok _ _ _ _ _ _ _ Hok Hlast Hrow Hidle Hpr) as (? & _ & ?).
  - destruct (probe marshal hooks s e known now c w) as [w1 o] eqn:Hpr. simplify_eq.
    assert (Hidle : forall r1, state_row c = Some r1 -> st_state r1 = "restarted" /\ in_cooldown s now r1 = false)
      by (intros r1; by rewrite Hc).
    rewrite <- Hc in Hrow. by destruct (probe_ok _ _ _ _ _ _ _ Hok Hlast Hrow Hidle Hpr) as (? & _ & ?).
Qed.

Lemma act_all_ok env known n now cs wr :
  stall_ok wr.1 now -> NoDup (workspaceID <$> cs) -> Forall (scanned wr.1 now) cs ->
  stall_ok (act_all marshal hooks s env known n now cs wr).1 now.
Proof.
  revert n wr. induction cs as [|c cs IH]; intros n [w r] Hok Hnd Hf; cbn [act_all]; [done|].
  inversion Hnd as [|? ? Hnin Hnd']; subst. inversion Hf as [|? ? Hc Hf']; subst.
  destruct (act marshal hooks s (env n) known now c (w, r)) as [w' r'] eqn:Hx.
  destruct (act_ok _ _ _ _ _ _ _ _ Hok Hc Hx) as [Hok' Hother].
  apply IH; [done|done|]. rewrite Forall_forall in Hf' |- *. intros c' Hin. destruct (Hf' _ Hin) as [Hrow Hrest].
  split; [|done]. simpl in *. rewrite Hother; [done|]. intros Eq. apply Hnin. rewrite <- Eq. by apply list_elem_of_fmap_2.
Qed.

Lemma stall_candidates_scanned query_now now ac (w : world) :
  query_now <= now -> Forall (scanned w now) (stall_candidates s query_now ac w).
Proof.
  intros Hq. unfold stall_candidates. apply Forall_take. rewrite (sort_by_perm _ _).
  rewrite Forall_forall. intros c (kw & -> & Hin)%list_elem_of_fmap.
  apply list_elem_of_filter in Hin as [Hp _]. unfold silent in Hp. b2p.
  unfold scanned. simpl. destruct (ac_last ac !! kw.1) as [l|]; [|done]. simpl in *. b2p.
  split; [done|]. split; [done|]. intros l' [= <-]. lia.
Qed.

Lemma stall_candidates_NoDup query_now ac (w : world) : NoDup (workspaceID <$> stall_candidates s query_now ac w).
Proof.
  unfold stall_candidates. rewrite fmap_take. eapply sublist_NoDup; [|apply sublist_take].
  rewrite (sort_by_perm _ _), <- list_fmap_compose. simpl.
  eapply sublist_NoDup; [apply (NoDup_fst_map_to_list (ac_known ac))|]. apply fmap_sublist, filter_is_sublist.
Qed.

Lemma sstep_ok st st' : stall_ok st.1 st.2 -> sstep st st' -> stall_ok st'.1 st'.2.
Proof.
  intros Hok Hst. destruct Hst as [qf ac query_now now env w clk Hclk Hq|w clk q wk l]; simpl in *.
  - apply (stall_ok_later _ _ now Hclk) in Hok. unfold Sweep. destruct qf; simpl; [done|].
    apply act_all_ok; [done|apply stall_candidates_NoDup|by apply stall_candidates_scanned].
  - destruct Hok as [Hr Hp Ha He Hs]. split; simpl; [|done..].
    intros ws row Hrow. destruct (Hr _ _ Hrow) as [?|?]; [by left|by right].
Qed.

Lemma stall_runs_ok w clk w' clk' :
  st_rows w = ∅ -> st_probes w = [] -> st_restarts w = [] -> rtc sstep (w, clk) (w', clk') -> stall_ok w' clk'.
Proof.
  intros Hr Hp Hs Hrun. apply (rtc_invariant sstep (fun st => stall_ok st.1 st.2) sstep_ok (w, clk) (w', clk')); [|done].
  simpl. split; rewrite ?Hr, ?Hp, ?Hs; try (intros ? ? Hin; by apply not_elem_of_nil in Hin).
  - intros ws row. by rewrite lookup_empty.
  - intros [|] ? ? ? Eq; done.
Qed.

(** The watchdog restarts a workspace only on evidence: it probed it
    before, more than the grace has passed since, the workspace has recorded
    nothing since the probe and has been silent for the stale threshold. *)
Theorem stall_restart_on_evidence w clk w' clk' :
  st_rows w = ∅ -> st_probes w = [] -> st_restarts w = [] -> rtc sstep (w, clk) (w', clk') ->
  forall c t, (c, t) ∈ st_restarts w' -> on_evidence (st_probes w') c t.
Proof. intros Hr Hp Hs Hrun c t Hin. by eapply ok_evidence; [eapply stall_runs_ok|]. Qed.

(** Two restarts of a workspace lie more than the cooldown and the grace
    apart, whatever activity, faults and cleared probes come between. *)
Theorem stall_restarts_apart w clk w' clk' :
  st_rows w = ∅ -> st_probes w = [] -> st_restarts w = [] -> rtc sstep (w, clk) (w', clk') ->
  restarts_apart (st_restarts w').
Proof. intros Hr Hp Hs Hrun. by eapply ok_apart, stall_runs_ok. Qed.
End Safety.

(** ** Witnesses

    A workspace is busy and silent from the first minute: it is probed at
    minute 20 and restarted at 30, probed again at 62 - its restart brought no
    activity - and restarted at 70. *)
Module StallDemo.
#[local] Existing Instance plain_cast.
Definition text (j : json) : string := "{}".
Definition no_hooks : option (wake_hooks unit unit) := None.
Definition dog : StallWatchdog := MkStallWatchdog stallStaleAfter stallProbeGrace stallCooldown true.
Definition ac : activity := Activity {["ws-1" := WsRow "a" None "online" None None]} (fun _ => 1) {["ws-1" := Minute]}.
Definition start : @stall_world unit := StallWorld ∅ ∅ tt [] [] [].
Definition env (n : nat) : @stall_env unit := StallEnv tt "u" "g" no_enqueue_fault 0 false false.
Definition sweep (t : time) (w : @stall_world unit) : @stall_world unit :=
  (Sweep text no_hooks dog false ac t t env w).1.
Definition w1 : @stall_world unit := sweep (20 * Minute) start.
Definition w2 : @stall_world unit := sweep (30 * Minute) w1.
Definition w3 : @stall_world unit := sweep (62 * Minute) w2.
Definition w4 : @stall_world unit := sweep (70 * Minute) w3.

Lemma step t clk w : clk <= t -> sstep text no_hooks dog (w, clk) (sweep t w, t).
Proof. intros Ht. apply s_sweep; [done|lia]. Qed.

Lemma stall_demo_run : rtc (sstep text no_hooks dog) (start, 0) (w4, 70 * Minute).
Proof.
  eapply rtc_l; [apply (step (20 * Minute)); by vm_compute|].
  eapply rtc_l; [apply (step (30 * Minute)); by vm_compute|].
  eapply rtc_l; [apply (step (62 * Minute)); by vm_compute|].
  apply rtc_once, step. by vm_compute.
Qed.

Definition cand (r : option stall_row) : stallCandidate := MkStallCandidate "ws-1" (Some Minute) r.
Definition c1 : stallCandidate := cand (Some (StallRow "probed" (Some (20 * Minute)) (Some Minute) None)).
Definition c2 : stallCandidate := cand (Some (StallRow "probed" (Some (62 * Minute)) (Some Minute) (Some (30 * Minute)))).
Definition restarts : list (stallCandidate * time) := [(c1, 30 * Minute); (c2, 70 * Minute)].
End StallDemo.

Lemma stall_restart_on_evidence_witness :
  st_restarts StallDemo.w4 = StallDemo.restarts /\
  on_evidence StallDemo.dog (st_probes StallDemo.w4) StallDemo.c1 (30 * Minute).
Proof.
  assert (Hr : st_restarts StallDemo.w4 = StallDemo.restarts) by (by vm_compute).
  split; [exact Hr|].
  apply (stall_restart_on_evidence (H:=plain_cast) StallDemo.text StallDemo.no_hooks StallDemo.dog StallDemo.start 0 _ _ eq_refl eq_refl eq_refl StallDemo.stall_demo_run).
  rewrite Hr. unfold StallDemo.restarts. by left.
Defined.

Lemma stall_restarts_apart_witness :
  st_restarts StallDemo.w4 = [(StallDemo.c1, 30 * Minute)] ++ (StallDemo.c2, 70 * Minute) :: [] /\
  30 * Minute + stallCooldown + stallProbeGrace < 70 * Minute.
Proof.
  assert (Hr : st_restarts StallDemo.w4 = [(StallDemo.c1, 30 * Minute)] ++ (StallDemo.c2, 70 * Minute) :: []) by (by vm_compute).
  split; [exact Hr|].
  refine (stall_restarts_apart (H:=plain_cast) StallDemo.text StallDemo.no_hooks StallDemo.dog StallDemo.start 0 _ _ eq_refl eq_refl eq_refl StallDemo.stall_demo_run
            _ _ _ _ Hr StallDemo.c1 (30 * Minute) _ eq_refl).
  by left.
Defined.
