(* ===== verification/Approvals.v ===== *)
(** * Approvals of destructive operations

    internal/approvals/policy.go, internal/handlers/approvals.go and
    approval_gate.go: a privileged caller of a gated operation needs a row of
    [approval_requests] that a human approved, and uses it up.  A delegation
    that was never handed off gives its grant back.  The handlers are written as
    the statements they run; [race] is what other callers do between two of
    them. *)

From S2P Require Import Prelude Json Tree.

(** ** Policy (internal/approvals/policy.go) *)

Definition ActionDeleteWorkspace := "delete_workspace".
Definition ActionDeprovision := "deprovision_workspace".
Definition ActionSecretWrite := "secret_write".
Definition ActionOrgTokenMint := "org_token_mint".
Definition ActionPrivilegedDelegate := "privileged_delegate".

Definition gated : list string := [ActionSecretWrite; ActionOrgTokenMint; ActionPrivilegedDelegate].
Definition IsGated (action : string) : bool := bool_decide (action ∈ gated).

(** ** Rows *)

Record ApprovalRow := MkApprovalRow {
  ap_workspace : option string;
  ap_task : option string;
  ap_action : string;
  ap_reason : option string;
  ap_context : json;
  ap_status : string;
  ap_decided_by : option string;
  ap_decided_at : option time;
  ap_created : time;
  ap_consumed_at : option time;
  ap_hash : option string               (* request_hash *)
}.

(** What is broadcast: the event, the workspace it is anchored on, the approval
    and the rest of the payload. *)
Inductive approval_event :=
| EventApprovalRequested (workspace id action reason : string) (task : option string)
| EventApprovalEscalated (workspace id from_workspace action reason : string)
| EventApprovalDecided (workspace id decision decided_by : string)
| EventApprovalWithdrawn (workspace id : string).

Record approvals := Approvals { ap_rows : gmap string ApprovalRow; ap_events : list approval_event }.

Definition put_approval (id : string) (r : ApprovalRow) (st : approvals) : approvals :=
  Approvals (<[id := r]> (ap_rows st)) (ap_events st).
Definition broadcast (e : approval_event) (st : approvals) : approvals :=
  Approvals (ap_rows st) (ap_events st ++ [e]).

Definition set_consumed (t : option time) (r : ApprovalRow) : ApprovalRow :=
  MkApprovalRow (ap_workspace r) (ap_task r) (ap_action r) (ap_reason r) (ap_context r) (ap_status r)
    (ap_decided_by r) (ap_decided_at r) (ap_created r) t (ap_hash r).
Definition set_decision (status by_ : string) (now : time) (r : ApprovalRow) : ApprovalRow :=
  MkApprovalRow (ap_workspace r) (ap_task r) (ap_action r) (ap_reason r) (ap_context r) status
    (Some by_) (Some now) (ap_created r) (ap_consumed_at r) (ap_hash r).

(** ** Callers

    The keys the authentication middleware sets on the gin context. *)
Inductive ctx_value := CtxBool (b : bool) | CtxString (s : string).
Record caller := Caller { org_token_id : option ctx_value; caller_is_admin_token : option ctx_value }.

Definition callerHoldsOrgToken (c : caller) : bool := bool_decide (is_Some (org_token_id c)).
Definition callerIsAdminToken (c : caller) : bool :=
  match caller_is_admin_token c with Some (CtxBool b) => b | _ => false end.
Definition callerIsPrivileged (c : caller) : bool := callerIsAdminToken c || callerHoldsOrgToken c.

(** [getenv] is the process environment. *)
Definition flag_set (v : string) : bool := bool_decide (v = "1" \/ v = "true").
Definition destructiveGateEnabled (getenv : string -> string) : bool :=
  flag_set (getenv "MOLECULE_PLATFORM_APPROVAL_GATE").
Definition privilegedDelegationGateEnabled (getenv : string -> string) : bool :=
  flag_set (getenv "MOLECULE_PRIVILEGED_DELEGATION_GATE").
Definition delegationRequiresGrant (getenv : string -> string) (c : caller) : bool :=
  privilegedDelegationGateEnabled getenv && IsGated ActionPrivilegedDelegate && callerIsPrivileged c.

Section Gate.
Context `{UuidCast}.
(** The JSON text of a value with sorted keys, and the hexadecimal SHA-256 of a
    text. *)
Context (marshal : json -> string) (sha256_hex : string -> string).

Definition nul : string := String (Ascii.ascii_of_nat 0) "".

Definition approvalRequestHash (workspaceID action : string) (contextMap : json) : string :=
  sha256_hex (workspaceID +:+ (nul +:+ (action +:+ (nul +:+ marshal contextMap)))).

(** ** The statements of requireApproval *)

Definition usable (workspaceID action hash : string) (r : ApprovalRow) : bool :=
  bool_decide (ap_workspace r = Some workspaceID /\ ap_action r = action /\ ap_hash r = Some hash) &&
  bool_decide (ap_status r = "approved" /\ ap_consumed_at r = None).

(** [ORDER BY decided_at DESC NULLS LAST]. *)
Definition newest_decision (l : list (string * ApprovalRow)) : list (string * ApprovalRow) :=
  sort_by (fun kr => - default 0 (ap_decided_at kr.2)) (filter (fun kr => is_Some (ap_decided_at kr.2)) l) ++
  filter (fun kr => ap_decided_at kr.2 = None) l.

(** The rows a concurrent transaction holds are skipped. *)
Definition pick_grant (locked : string -> bool) (workspaceID action hash : string) (st : approvals)
    : option (string * ApprovalRow) :=
  head (newest_decision
          (filter (fun kr => usable workspaceID action hash kr.2 && negb (locked kr.1)) (map_to_list (ap_rows st)))).

Definition consume (fails : bool) (locked : string -> bool) (now : time) (workspaceID action hash : string)
    (st : approvals) : approvals * dbres string :=
  match canon workspaceID with
  | None => (st, DbErr)
  | Some ws =>
      if fails then (st, DbErr)
      else match pick_grant locked ws action hash st with
           | None => (st, DbNoRows)
           | Some (id, r) => (put_approval id (set_consumed (Some now) r) st, DbOk id)
           end
  end.

Definition pending_match (workspaceID action hash : string) (r : ApprovalRow) : bool :=
  bool_decide (ap_workspace r = Some workspaceID /\ ap_action r = action /\ ap_hash r = Some hash /\
               ap_status r = "pending").

(** [gen]: the id gen_random_uuid() yields; [known] carries the foreign key. *)
Definition create_or_reuse (fails : bool) (gen : string) (known : wstable) (now : time)
    (workspaceID action reason : string) (contextMap : json) (hash : string) (st : approvals)
    : approvals * dbres string :=
  match canon workspaceID with
  | None => (st, DbErr)
  | Some ws =>
      if fails then (st, DbErr)
      else match head (filter (fun kr => pending_match ws action hash kr.2) (map_to_list (ap_rows st))) with
           | Some (id, _) => (st, DbOk id)
           | None =>
               match known !! ws, ap_rows st !! gen with
               | Some _, None =>
                   (put_approval gen (MkApprovalRow (Some ws) None action (Some reason) contextMap "pending"
                                        None None now None (Some hash)) st, DbOk gen)
               | _, _ => (st, DbErr)
               end
           end
  end.

Definition parent_of (fails : bool) (known : wstable) (workspaceID : string) : option string :=
  if fails then None
  else match canon workspaceID with
       | Some ws => match known !! ws with Some w => ws_parent w | None => None end
       | None => None
       end.

(** ** requireApproval *)

Record gate_env := GateEnv {
  consume_fails : bool;
  rows_locked : string -> bool;
  create_fails : bool;
  fresh_id : string;
  parent_fails : bool;
  ge_now : time;
  ge_known : wstable;
  ge_race : approvals -> approvals;       (* between the two statements *)
  broadcaster : bool                      (* the handler has one *)
}.

Definition requireApproval (ge : gate_env) (workspaceID action reason : string) (contextMap : json) (st : approvals)
    : approvals * option (bool * string) :=
  let hash := approvalRequestHash workspaceID action contextMap in
  match consume (consume_fails ge) (rows_locked ge) (ge_now ge) workspaceID action hash st with
  | (st1, DbOk id) => (st1, Some (true, id))
  | (st1, DbErr) => (st1, None)
  | (st1, DbNoRows) =>
      match create_or_reuse (create_fails ge) (fresh_id ge) (ge_known ge) (ge_now ge) workspaceID action reason
              contextMap hash (ge_race ge st1) with
      | (st2, DbOk id) =>
          let st3 := if broadcaster ge then broadcast (EventApprovalRequested workspaceID id action reason None) st2 else st2 in
          let st4 := match parent_of (parent_fails ge) (ge_known ge) workspaceID with
                     | Some p => if broadcaster ge then broadcast (EventApprovalEscalated p id workspaceID action reason) st3 else st3
                     | None => st3
                     end in
          (st4, Some (false, id))
      | (st2, _) => (st2, None)
      end
  end.

(** ** The two gates *)

Inductive gate_reply :=
| Proceed
| GateFailed                              (* 500 *)
| PendingApproval (id : string)           (* 202 *)
| GrantRequired (id : string).            (* 403 *)

Definition gateDestructive (getenv : string -> string) (c : caller) (ge : gate_env)
    (workspaceID action reason : string) (contextMap : json) (st : approvals) : approvals * gate_reply :=
  if negb (IsGated action) then (st, Proceed)
  else if negb (callerIsPrivileged c) then (st, Proceed)
  else if negb (callerIsAdminToken c) && negb (destructiveGateEnabled getenv) then (st, Proceed)
  else match requireApproval ge workspaceID action reason contextMap st with
       | (st1, None) => (st1, GateFailed)
       | (st1, Some (false, id)) => (st1, PendingApproval id)
       | (st1, Some (true, _)) => (st1, Proceed)
       end.

Definition privilegedDelegationContext (targetID task : string) : json :=
  JObj [("target_id", JStr targetID); ("task_hash", JStr (sha256_hex task))].

(** Returns the id of the grant it consumed, empty when there is none. *)
Definition gatePrivilegedDelegation (getenv : string -> string) (c : caller) (ge : gate_env)
    (sourceID targetID task : string) (st : approvals) : approvals * gate_reply * string :=
  if negb (delegationRequiresGrant getenv c) then (st, Proceed, "")
  else match requireApproval ge sourceID ActionPrivilegedDelegate ("privileged delegation to " +:+ targetID)
               (privilegedDelegationContext targetID task) st with
       | (st1, None) => (st1, GateFailed, "")
       | (st1, Some (false, id)) => (st1, GrantRequired id, "")
       | (st1, Some (true, id)) => (st1, Proceed, id)
       end.

Definition restorePrivilegedDelegationGrant (fails : bool) (workspaceID grantID : string) (st : approvals) : approvals :=
  if decide (grantID = "") then st
  else if fails then st
  else match canon grantID, canon workspaceID with
       | Some id, Some ws =>
           match ap_rows st !! id with
           | Some r => if bool_decide (ap_workspace r = Some ws /\ ap_consumed_at r <> None)
                       then put_approval id (set_consumed None r) st else st
           | None => st
           end
       | _, _ => st
       end.

(** ** The handlers of approvals.go *)

Inductive approval_reply :=
| AError (code : Z) (error : string)
| AFields (code : Z) (fields : list (string * string))
| ARows (l : list (string * ApprovalRow)).

Record create_body := CreateBody { cb_task : string; cb_action : string; cb_reason : string; cb_context : json }.
Record decide_body := DecideBody { db_decision : string; db_decided_by : string }.

(** [None]: gin could not bind the body, which it does not when the required
    [action] is empty. *)
Definition Create (fails parent_lookup_fails : bool) (gen : string) (known : wstable) (now : time) (workspaceID : string)
    (body : option create_body) (st : approvals) : approvals * approval_reply :=
  match body with
  | None => (st, AError 400 "invalid request body")
  | Some b =>
      if decide (cb_action b = "") then (st, AError 400 "invalid request body")
      else
        match fails, canon workspaceID with
        | false, Some ws =>
            match known !! ws, ap_rows st !! gen with
            | Some _, None =>
                let st1 := put_approval gen (MkApprovalRow (Some ws) (Some (cb_task b)) (cb_action b) (Some (cb_reason b))
                                               (cb_context b) "pending" None None now None None) st in
                let st2 := broadcast (EventApprovalRequested workspaceID gen (cb_action b) (cb_reason b) (Some (cb_task b))) st1 in
                let st3 := match parent_of parent_lookup_fails known workspaceID with
                           | Some p => broadcast (EventApprovalEscalated p gen workspaceID (cb_action b) (cb_reason b)) st2
                           | None => st2
                           end in
                (st3, AFields 201 [("approval_id", gen); ("status", "pending")])
            | _, _ => (st, AError 500 "failed to create approval")
            end
        | _, _ => (st, AError 500 "failed to create approval")
        end
  end.

(** [ORDER BY created_at DESC LIMIT 50]. *)
Definition newest_created (l : list (string * ApprovalRow)) : list (string * ApprovalRow) :=
  take 50 (sort_by (fun kr => - ap_created kr.2) l).

(** The join with [workspaces] drops rows whose workspace is gone. *)
Definition ListAll (fails : bool) (known : wstable) (st : approvals) : approval_reply :=
  if fails then AError 500 "query failed"
  else ARows (newest_created (filter (fun kr => ap_status kr.2 = "pending" /\
                 some_and (ap_workspace kr.2) (fun ws => bool_decide (is_Some (known !! ws))) = true)
                (map_to_list (ap_rows st)))).

Definition List_handler (fails : bool) (workspaceID : string) (st : approvals) : approval_reply :=
  match fails, canon workspaceID with
  | false, Some ws =>
      ARows (newest_created (filter (fun kr => ap_workspace kr.2 = Some ws) (map_to_list (ap_rows st))))
  | _, _ => AError 500 "query failed"
  end.

(** The guarded UPDATE of a decision: its rows. *)
Definition decide_stmt (status by_ : string) (now : time) (id : string) (ws : option string) (st : approvals)
    : approvals * Z :=
  match ap_rows st !! id with
  | Some r => if bool_decide (ap_status r = "pending") && (bool_decide (ws = None) || bool_decide (ap_workspace r = ws))
              then (put_approval id (set_decision status by_ now r) st, 1) else (st, 0)
  | None => (st, 0)
  end.

Definition Decide (f : exec_fault) (now : time) (workspaceID approvalID : string) (body : option decide_body)
    (st : approvals) : approvals * approval_reply :=
  match body with
  | None => (st, AError 400 "invalid request body")
  | Some b =>
      if decide (db_decision b = "") then (st, AError 400 "invalid request body")
      else if negb (bool_decide (db_decision b = "approved" \/ db_decision b = "denied"))
      then (st, AError 400 "decision must be 'approved' or 'denied'")
      else
        let decidedBy := if decide (db_decided_by b = "") then "human" else db_decided_by b in
        match canon approvalID, canon workspaceID, f with
        | Some id, Some ws, ExecOk =>
            match decide_stmt (db_decision b) decidedBy now id (Some ws) st with
            | (st1, 0) => (st1, AError 404 "approval not found or already decided")
            | (st1, _) => (broadcast (EventApprovalDecided workspaceID approvalID (db_decision b) decidedBy) st1,
                           AFields 200 [("status", db_decision b); ("approval_id", approvalID)])
            end
        | Some id, Some ws, RowsAffectedErr =>
            ((decide_stmt (db_decision b) decidedBy now id (Some ws) st).1, AError 500 "failed to update")
        | _, _, _ => (st, AError 500 "failed to update")
        end
  end.

(** [race] acts between the read of the creator and the UPDATE.  A row without
    a workspace does not scan. *)
Definition Withdraw (read_fails : bool) (f : exec_fault) (race : approvals -> approvals) (now : time)
    (workspaceID approvalID : string) (st : approvals) : approvals * approval_reply :=
  match (if read_fails then None
         else id ← canon approvalID; r ← ap_rows st !! id; ws ← ap_workspace r; Some (id, ws)) with
  | None => (st, AError 404 "approval not found")
  | Some (id, creatorWorkspaceID) =>
      if bool_decide (workspaceID <> "" /\ workspaceID <> creatorWorkspaceID) then (st, AError 403 "not the requester")
      else
        let st0 := race st in
        match f with
        | ExecErr => (st0, AError 500 "failed to withdraw")
        | RowsAffectedErr => ((decide_stmt "withdrawn" "requester" now id None st0).1, AError 500 "failed to withdraw")
        | ExecOk =>
            match decide_stmt "withdrawn" "requester" now id None st0 with
            | (st1, 0) => (st1, AError 409 "approval not pending (already decided or withdrawn)")
            | (st1, _) => (broadcast (EventApprovalWithdrawn creatorWorkspaceID approvalID) st1,
                           AFields 200 [("status", "withdrawn"); ("approval_id", approvalID)])
            end
        end
  end.

End Gate.
