(* ===== verification/ApprovalsSafety.v ===== *)
(** * What an approval is good for

    The statements of Approvals as a step relation, with the operations and
    hand-offs that spend an approval: however they interleave, an approval
    covers one operation, of the kind it was asked for, and a decision is
    final. *)

From S2P Require Import Prelude Json Tree Approvals.

(** ** Steps

    [fl_holding]: the delegations between their gate and their hand-off, with
    source and grant.  [fl_used]: the approvals that an operation or a
    completed hand-off has spent. *)
Record flows := Flows {
  fl_tbl : approvals;
  fl_holding : gmap nat (string * string);
  fl_used : list string
}.

Section Flows.
Context `{UuidCast}.
Context (marshal : json -> string) (sha256_hex : string -> string).

(** An id never drawn before. *)
Definition unseen (s : flows) (gen : string) : Prop :=
  canon gen = Some gen /\ (gen ∉ fl_used s) /\ forall f src id, fl_holding s !! f = Some (src, id) -> id <> gen.

Inductive gstep : flows -> flows -> Prop :=
| g_operation s fails locked now ws action hash st' id :
    consume fails locked now ws action hash (fl_tbl s) = (st', DbOk id) ->
    gstep s (Flows st' (fl_holding s) (fl_used s ++ [id]))
| g_delegation s f fails locked now ws action hash st' id :
    fl_holding s !! f = None ->
    consume fails locked now ws action hash (fl_tbl s) = (st', DbOk id) ->
    gstep s (Flows st' (<[f := (ws, id)]> (fl_holding s)) (fl_used s))
| g_dispatched s f src id :
    fl_holding s !! f = Some (src, id) ->
    gstep s (Flows (fl_tbl s) (delete f (fl_holding s)) (fl_used s ++ [id]))
| g_not_dispatched s f src id fails :
    fl_holding s !! f = Some (src, id) ->
    gstep s (Flows (restorePrivilegedDelegationGrant fails src id (fl_tbl s)) (delete f (fl_holding s)) (fl_used s))
| g_process_lost s f :
    gstep s (Flows (fl_tbl s) (delete f (fl_holding s)) (fl_used s))
| g_request s fails gen known now ws action reason ctx :
    unseen s gen ->
    gstep s (Flows (create_or_reuse fails gen known now ws action reason ctx
                      (approvalRequestHash marshal sha256_hex ws action ctx) (fl_tbl s)).1
                   (fl_holding s) (fl_used s))
| g_create s fails pf gen known now ws body :
    unseen s gen ->
    gstep s (Flows (Create fails pf gen known now ws body (fl_tbl s)).1 (fl_holding s) (fl_used s))
| g_decide s f now ws id body :
    gstep s (Flows (Decide f now ws id body (fl_tbl s)).1 (fl_holding s) (fl_used s))
| g_withdraw s now id :
    gstep s (Flows (decide_stmt "withdrawn" "requester" now id None (fl_tbl s)).1 (fl_holding s) (fl_used s))
| g_events s evs :
    gstep s (Flows (Approvals (ap_rows (fl_tbl s)) evs) (fl_holding s) (fl_used s))
| g_purge s ws :
    gstep s (Flows (Approvals (filter (fun kr => ap_workspace kr.2 <> Some ws) (ap_rows (fl_tbl s))) (ap_events (fl_tbl s)))
                   (fl_holding s) (fl_used s)).

(** Any table, nothing spent on it yet. *)
Definition opening (st : approvals) : flows := Flows st ∅ [].

Definition keys_canonical (st : approvals) : Prop := forall k r, ap_rows st !! k = Some r -> canon k = Some k.

(** ** What the statements do to the rows *)

Lemma pick_grant_usable locked ws action hash st id r :
  pick_grant locked ws action hash st = Some (id, r) ->
  ap_rows st !! id = Some r /\ usable ws action hash r = true.
Proof.
  unfold pick_grant. intros Hh. apply head_Some_elem_of in Hh.
  unfold newest_decision in Hh. rewrite elem_of_app, sort_by_perm, !list_elem_of_filter in Hh.
  assert (Hx : (usable ws action hash (id, r).2 && negb (locked (id, r).1)) = true /\ (id, r) ∈ map_to_list (ap_rows st))
    by (destruct Hh as [(_ & ? & ?)|(_ & ? & ?)]; split; auto using Is_true_true_1).
  destruct Hx as [Hu Hin]. apply elem_of_map_to_list in Hin. simpl in Hu. b2p. auto.
Qed.

Lemma consume_ok fails locked now ws action hash st st' id :
  consume fails locked now ws action hash st = (st', DbOk id) ->
  exists r c, canon ws = Some c /\ ap_rows st !! id = Some r /\ usable c action hash r = true /\
              st' = put_approval id (set_consumed (Some now) r) st.
Proof.
  unfold consume. destruct (canon ws) as [c|]; [|done]. destruct fails; [done|].
  destruct (pick_grant _ _ _ _ _) as [[k r]|] eqn:E; [|done]. intros [= <- <-].
  apply pick_grant_usable in E as [? ?]. eauto 10.
Qed.

Lemma usable_spec ws action hash r :
  usable ws action hash r = true ->
  ap_workspace r = Some ws /\ ap_action r = action /\ ap_hash r = Some hash /\ ap_status r = "approved" /\
  ap_consumed_at r = None.
Proof. unfold usable. intros Hu. b2p. naive_solver. Qed.

(** What a row was asked for, and what was answered. *)
Definition subject (r : ApprovalRow) := (ap_workspace r, ap_action r, ap_context r, ap_hash r).
Definition verdict (r : ApprovalRow) := (ap_status r, ap_decided_by r, ap_decided_at r).

(** The table after a statement that spends nothing: each row is an old one,
    decided at most if it was pending, or the new one. *)
Definition evolves (st st' : approvals) (new : option string) : Prop :=
  forall k r', ap_rows st' !! k = Some r' ->
    match ap_rows st !! k with
    | Some r => subject r' = subject r /\ ap_consumed_at r' = ap_consumed_at r /\
                (ap_status r = "pending" \/ verdict r' = verdict r)
    | None => new = Some k
    end.

Lemma evolves_rows st st' new : (forall k r', ap_rows st' !! k = Some r' -> ap_rows st !! k = Some r') -> evolves st st' new.
Proof. intros Hk k r' Hr. rewrite (Hk _ _ Hr). auto. Qed.

Lemma evolves_refl st new : evolves st st new.
Proof. by apply evolves_rows. Qed.

Lemma evolves_put st id r : ap_rows st !! id = None -> evolves st (put_approval id r st) (Some id).
Proof.
  intros Hn k r' Hk. simpl in Hk. apply lookup_insert_Some in Hk as [[<- _]|[_ ->]]; [|auto]. by rewrite Hn.
Qed.

Lemma create_or_reuse_evolves fails gen known now ws action reason ctx hash st :
  evolves st (create_or_reuse fails gen known now ws action reason ctx hash st).1 (Some gen).
Proof.
  unfold create_or_reuse. repeat case_match; try apply evolves_refl. by apply evolves_put.
Qed.

Lemma Create_evolves fails pf gen known now ws body st :
  evolves st (Create fails pf gen known now ws body st).1 (Some gen).
Proof. unfold Create. repeat case_match; try apply evolves_refl; by apply evolves_put. Qed.

Lemma decide_stmt_evolves status by_ now id ws st :
  evolves st (decide_stmt status by_ now id ws st).1 None.
Proof.
  unfold decide_stmt. destruct (ap_rows st !! id) as [r|] eqn:E; [|apply evolves_refl].
  case_match eqn:C; [|apply evolves_refl]. b2p.
  intros k r' Hk. simpl in Hk. apply lookup_insert_Some in Hk as [[<- <-]|[_ ->]]; [rewrite E|]; auto.
Qed.

Lemma Decide_evolves f now ws id body st : evolves st (Decide f now ws id body st).1 None.
Proof.
  unfold Decide. repeat case_match; subst; try apply evolves_refl;
    try apply decide_stmt_evolves;
    match goal with E : decide_stmt ?s ?b ?n ?i ?w ?t = _ |- _ =>
      pose proof (decide_stmt_evolves s b n i w t) as Hk; rewrite E in Hk; exact Hk end.
Qed.

Lemma restore_rows fails ws gid st k r' :
  ap_rows (restorePrivilegedDelegationGrant fails ws gid st) !! k = Some r' ->
  ap_rows st !! k = Some r' \/
  exists r, canon gid = Some k /\ ap_rows st !! k = Some r /\ r' = set_consumed None r.
Proof.
  unfold restorePrivilegedDelegationGrant. repeat case_match; auto. simpl. intros Hk.
  apply lookup_insert_Some in Hk as [[<- <-]|[_ ?]]; eauto.
Qed.

(** ** One use per approval *)

Definition spent (s : flows) (id : string) : Prop :=
  id ∈ fl_used s \/ exists f src, fl_holding s !! f = Some (src, id).

Record grants_ok (s : flows) : Prop := {
  go_keys : keys_canonical (fl_tbl s);
  go_used : NoDup (fl_used s);
  go_apart : forall f src id, fl_holding s !! f = Some (src, id) -> id ∉ fl_used s;
  go_canon : forall f src id, fl_holding s !! f = Some (src, id) -> canon id = Some id;
  go_one : forall f g a b id, fl_holding s !! f = Some (a, id) -> fl_holding s !! g = Some (b, id) -> f = g;
  go_rows : forall id r, spent s id -> ap_rows (fl_tbl s) !! id = Some r ->
              ap_consumed_at r <> None /\ ap_status r = "approved"
}.

(** A statement that only decides, adds and drops rows. *)
Lemma grants_table s tbl new :
  grants_ok s -> evolves (fl_tbl s) tbl new -> (forall gen, new = Some gen -> unseen s gen) ->
  grants_ok (Flows tbl (fl_holding s) (fl_used s)).
Proof.
  intros [Hk Hu Ha Hc Ho Hr] Hs Hn. constructor; simpl; auto.
  - intros k r Hin. specialize (Hs k r Hin). destruct (ap_rows (fl_tbl s) !! k) eqn:E; [eauto|]. by destruct (Hn _ Hs).
  - intros id r Hid Hin. specialize (Hs id r Hin). destruct (ap_rows (fl_tbl s) !! id) as [r0|] eqn:E.
    + destruct Hs as (_ & Hcs & Hst), (Hr id r0 Hid E) as [? Hap]. rewrite Hcs. split; [done|].
      destruct Hst as [?|Hv]; [congruence|]. unfold verdict in Hv. congruence.
    + destruct (Hn _ Hs) as (_ & Hnu & Hnh). exfalso. destruct Hid as [?|(f & src & Hf)]; [done|]. by eapply Hnh.
Qed.

(** A flow that lets go of its grant without a trace in the table. *)
Lemma grants_release s f : grants_ok s -> grants_ok (Flows (fl_tbl s) (delete f (fl_holding s)) (fl_used s)).
Proof.
  intros [Hk Hu Ha Hc Ho Hr]. constructor; simpl; auto.
  - intros g src id Hg. apply lookup_delete_Some in Hg as [_ Hg]. eauto.
  - intros g src id Hg. apply lookup_delete_Some in Hg as [_ Hg]. eauto.
  - intros g1 g2 a b id H1 H2. apply lookup_delete_Some in H1 as [_ H1], H2 as [_ H2]. eauto.
  - intros id r [?|(g & src & Hg)]; apply Hr; [by left|]. simpl in Hg. apply lookup_delete_Some in Hg as [_ Hg]. right; eauto.
Qed.

Lemma not_spent s id r : grants_ok s -> ap_rows (fl_tbl s) !! id = Some r -> ap_consumed_at r = None -> ~ spent s id.
Proof. intros Hg Hr Hc Hs. by destruct (go_rows s Hg id r Hs Hr). Qed.

(** The row a consume picked is marked, and was not spent. *)
Lemma consumed_rows s fails locked now ws action hash st' id :
  grants_ok s -> consume fails locked now ws action hash (fl_tbl s) = (st', DbOk id) ->
  ~ spent s id /\ keys_canonical st' /\ canon id = Some id /\
  forall k r, ap_rows st' !! k = Some r -> k = id \/ spent s k ->
    ap_consumed_at r <> None /\ ap_status r = "approved".
Proof.
  intros Hg Hc. apply consume_ok in Hc as (r & c & _ & Hr & Hu & ->).
  apply usable_spec in Hu as (_ & _ & _ & Hap & Hnone).
  split; [by eapply not_spent|]. split; [|split; [by eapply (go_keys s)|]].
  - intros k r' Hk. simpl in Hk. apply lookup_insert_Some in Hk as [[<- _]|[_ ?]]; eapply (go_keys s); eauto.
  - intros k r' Hk Hs. simpl in Hk. apply lookup_insert_Some in Hk as [[<- <-]|[Hne Hk]]; [done|].
    destruct Hs as [?|Hs]; [congruence|]. by apply (go_rows s Hg k).
Qed.

Lemma grants_step s s' : grants_ok s -> gstep s s' -> grants_ok s'.
Proof.
  intros Hg Hst. destruct Hst.
  - destruct (consumed_rows _ _ _ _ _ _ _ _ _ Hg H0) as (Hns & Hk & Hcid & Hr). destruct Hg as [Hk0 Hu Ha Hc Ho _].
    constructor; simpl; auto.
    + apply NoDup_app. split; [done|]. split; [|apply NoDup_singleton].
      intros x Hx Hy. apply list_elem_of_singleton in Hy as ->. apply Hns. by left.
    + intros f src i Hf Hi. apply elem_of_app in Hi as [Hi|Hi]; [by eapply Ha|].
      apply list_elem_of_singleton in Hi as ->. apply Hns. right; eauto.
    + intros i r Hi Hin. apply (Hr i r Hin). destruct Hi as [Hi|Hi]; [|right; by right].
      simpl in Hi. apply elem_of_app in Hi as [Hi|Hi]; [right; by left|]. left. by apply list_elem_of_singleton in Hi.
  - destruct (consumed_rows _ _ _ _ _ _ _ _ _ Hg H1) as (Hns & Hk & Hcid & Hr). destruct Hg as [Hk0 Hu Ha Hc Ho _].
    assert (Hnew : forall g a i, <[f := (ws, id)]> (fl_holding s) !! g = Some (a, i) ->
              (g = f /\ i = id) \/ (g <> f /\ fl_holding s !! g = Some (a, i))).
    { intros g a i Hi. apply lookup_insert_Some in Hi as [[<- [= _ <-]]|[? ?]]; auto. }
    constructor; simpl; auto.
    + intros g a i Hi. apply Hnew in Hi as [[-> ->]|[_ Hi]]; [|by eapply Ha]. intros Hx. apply Hns. by left.
    + intros g a i Hi. apply Hnew in Hi as [[-> ->]|[_ Hi]]; eauto.
    + intros g1 g2 a b i H2 H3. apply Hnew in H2, H3.
      destruct H2 as [[-> E1]|[_ H2]], H3 as [[-> E2]|[_ H3]]; subst; [done| | |by eapply Ho];
        exfalso; apply Hns; right; eauto.
    + intros i r Hi Hin. apply (Hr i r Hin). destruct Hi as [Hi|(g & a & Hi)]; [right; by left|].
      simpl in Hi. apply Hnew in Hi as [[-> ->]|[_ Hi]]; [by left|]. right; right; eauto.
  - pose proof (grants_release s f Hg) as Hd. destruct Hd as [Hk Hu Ha Hc Ho Hr]. constructor; simpl in *; auto.
    + apply NoDup_app. split; [done|]. split; [|apply NoDup_singleton].
      intros x Hx Hy. apply list_elem_of_singleton in Hy as ->. by apply (go_apart s Hg f src id).
    + intros g a i Hi Hx. apply elem_of_app in Hx as [Hx|Hx]; [by eapply Ha|].
      apply list_elem_of_singleton in Hx as ->. apply lookup_delete_Some in Hi as [Hne Hi].
      apply Hne. exact (go_one s Hg f g src a id H0 Hi).
    + intros i r Hi Hin. apply (go_rows s Hg i r); [|done]. destruct Hi as [Hi|(g & a & Hi)]; simpl in *.
      * apply elem_of_app in Hi as [Hi|Hi]; [by left|]. apply list_elem_of_singleton in Hi as ->. right; eauto.
      * apply lookup_delete_Some in Hi as [_ Hi]. right; eauto.
  - pose proof (grants_release s f Hg) as [Hk Hu Ha Hc Ho Hr]. constructor; simpl in *; auto.
    + intros k r Hin. destruct (restore_rows _ _ _ _ _ _ Hin) as [?|(r0 & _ & ? & _)]; eauto.
    + intros i r Hi Hin. destruct (restore_rows _ _ _ _ _ _ Hin) as [Hin0|(r0 & Hc0 & Hin0 & ->)]; [by apply (Hr i r Hi)|].
      exfalso. rewrite (go_canon s Hg _ _ _ H0) in Hc0. injection Hc0 as <-.
      destruct Hi as [Hi|(g & a & Hi)]; [by eapply (go_apart s Hg)|]. simpl in Hi.
      apply lookup_delete_Some in Hi as [Hne Hi]. apply Hne. exact (go_one s Hg f g src a id H0 Hi).
  - by apply grants_release.
  - eapply grants_table; [done|apply create_or_reuse_evolves|]. by intros ? [= <-].
  - eapply grants_table; [done|apply Create_evolves|]. by intros ? [= <-].
  - eapply grants_table; [done|apply Decide_evolves|done].
  - eapply grants_table; [done|apply decide_stmt_evolves|done].
  - by apply (grants_table s _ None); [|apply evolves_rows|].
  - apply (grants_table s _ None); [done| |done]. apply evolves_rows. intros k r Hk. simpl in Hk.
    by apply map_lookup_filter_Some in Hk as [Hk _].
Qed.

Lemma grants_opening st : keys_canonical st -> grants_ok (opening st).
Proof.
  intros Hk. split; simpl; [done|constructor|done..|].
  intros id r [Hi|(f & src & Hf)]; simpl in *; [by apply elem_of_nil in Hi|done].
Qed.

(** C9: However gates, hand-offs, decisions and purges interleave, no approval
    is spent twice: the operations and completed hand-offs behind it and the
    delegations that hold it are one at most, and it was approved. *)
Theorem approval_spent_once st s :
  keys_canonical st -> rtc gstep (opening st) s ->
  NoDup (fl_used s) /\
  (forall f src id, fl_holding s !! f = Some (src, id) ->
     (id ∉ fl_used s) /\ forall g src', fl_holding s !! g = Some (src', id) -> g = f) /\
  (forall id r, spent s id -> ap_rows (fl_tbl s) !! id = Some r ->
     ap_status r = "approved" /\ ap_consumed_at r <> None).
Proof.
  intros Hk Hs. assert (Hg : grants_ok s) by (eapply (rtc_invariant gstep grants_ok); eauto using grants_step, grants_opening).
  split; [by apply go_used|]. split.
  - intros f src id Hf. split; [by eapply (go_apart s)|]. intros g src' Hf'. by eapply (go_one s Hg).
  - intros id r Hi Hr. by destruct (go_rows s Hg id r Hi Hr).
Qed.

(** ** Decisions are final *)

Lemma consume_verdicts fails locked now ws action hash st st' res k r r' :
  consume fails locked now ws action hash st = (st', res) ->
  ap_rows st !! k = Some r -> ap_rows st' !! k = Some r' -> subject r' = subject r /\ verdict r' = verdict r.
Proof.
  unfold consume. intros Hc Hk Hk'. repeat case_match; simplify_eq; auto.
  match goal with E : pick_grant _ _ _ _ _ = _ |- _ => apply pick_grant_usable in E as [Hp _] end.
  simpl in Hk'. apply lookup_insert_Some in Hk' as [[<- <-]|[_ ?]]; simplify_eq; auto.
Qed.

(** What an approval was asked for never changes, and neither does an
    answer once it was given, whichever call comes next. *)
Theorem decision_is_final s s' id r r' :
  gstep s s' -> ap_rows (fl_tbl s) !! id = Some r -> ap_rows (fl_tbl s') !! id = Some r' ->
  (ap_workspace r', ap_action r', ap_context r', ap_hash r') = (ap_workspace r, ap_action r, ap_context r, ap_hash r) /\
  (ap_status r <> "pending" ->
   (ap_status r', ap_decided_by r', ap_decided_at r') = (ap_status r, ap_decided_by r, ap_decided_at r)).
Proof.
  intros Hst Hr Hr'.
  assert (He : forall new, evolves (fl_tbl s) (fl_tbl s') new -> subject r' = subject r /\ (ap_status r <> "pending" -> verdict r' = verdict r)).
  { intros new He. specialize (He id r' Hr'). rewrite Hr in He. destruct He as (? & _ & [Hp|Hv]); split; auto. intros Hn. by destruct (Hn Hp). }
  destruct Hst; simpl in *; try (simplify_eq; auto; fail).
  - match goal with E : consume _ _ _ _ _ _ _ = _ |- _ => destruct (consume_verdicts _ _ _ _ _ _ _ _ _ _ _ _ E Hr Hr') end; auto.
  - match goal with E : consume _ _ _ _ _ _ _ = _ |- _ => destruct (consume_verdicts _ _ _ _ _ _ _ _ _ _ _ _ E Hr Hr') end; auto.
  - destruct (restore_rows _ _ _ _ _ _ Hr') as [?|(r0 & _ & ? & ->)]; simplify_eq; auto.
  - by apply (He (Some gen)), create_or_reuse_evolves.
  - by apply (He (Some gen)), Create_evolves.
  - by apply (He None), Decide_evolves.
  - by apply (He None), decide_stmt_evolves.
  - apply map_lookup_filter_Some in Hr' as [? _]; simplify_eq; auto.
Qed.

(** ** An approval covers what it was asked for *)

(** No NUL in a text, as in every text Postgres stores. *)
Fixpoint nul_free (s : string) : bool :=
  match s with "" => true | String a s' => negb (bool_decide (a = Ascii.ascii_of_nat 0)) && nul_free s' end.

Lemma nul_app x : (nul +:+ x) = String (Ascii.ascii_of_nat 0) x.
Proof. reflexivity. Qed.

Lemma nul_split a b x y :
  nul_free a = true -> nul_free b = true -> (a +:+ (nul +:+ x)) = (b +:+ (nul +:+ y)) -> a = b /\ x = y.
Proof.
  rewrite !nul_app. revert b.
  induction a as [|c a IH]; intros [|d b]; rewrite ?str_app_nil, ?str_app_cons; cbn [nul_free]; intros Ha Hb [= Hs]; b2p; subst; try done.
  destruct (IH b) as [-> ->]; auto.
Qed.

(** The hash of a row is that of its own operation. *)
Definition hashed (st : approvals) : Prop :=
  forall k r h, ap_rows st !! k = Some r -> ap_hash r = Some h ->
    exists ws, is_Some (canon ws) /\ ap_workspace r = canon ws /\
               h = approvalRequestHash marshal sha256_hex ws (ap_action r) (ap_context r).

Lemma hashed_put st id r :
  hashed st ->
  (forall h, ap_hash r = Some h -> exists ws, is_Some (canon ws) /\ ap_workspace r = canon ws /\
             h = approvalRequestHash marshal sha256_hex ws (ap_action r) (ap_context r)) ->
  hashed (put_approval id r st).
Proof. intros Hs Hr k r' h Hk. simpl in Hk. apply lookup_insert_Some in Hk as [[_ <-]|[_ Hk]]; eauto. Qed.

Lemma hashed_update st id r r0 :
  hashed st -> ap_rows st !! id = Some r0 -> subject r = subject r0 -> hashed (put_approval id r st).
Proof.
  intros Hs Hr0 Hsub. apply hashed_put; [done|]. intros h Hh. unfold subject in Hsub.
  injection Hsub as -> -> -> Hhash. rewrite Hhash in Hh. eauto.
Qed.

Lemma hashed_evolves st st' : hashed st -> evolves st st' None -> hashed st'.
Proof.
  intros Hs He k r' h Hk Hh. specialize (He k r' Hk). destruct (ap_rows st !! k) as [r|] eqn:E; [|done].
  destruct He as (Hsub & _). unfold subject in Hsub. injection Hsub as -> -> -> Hhash. rewrite Hhash in Hh. eauto.
Qed.

Lemma hashed_step s s' : hashed (fl_tbl s) -> gstep s s' -> hashed (fl_tbl s').
Proof.
  intros Hs Hst. destruct Hst; simpl; auto.
  - match goal with E : consume _ _ _ _ _ _ _ = _ |- _ => apply consume_ok in E as (r & c & _ & Hr & _ & ->) end.
    by eapply hashed_update.
  - match goal with E : consume _ _ _ _ _ _ _ = _ |- _ => apply consume_ok in E as (r & c & _ & Hr & _ & ->) end.
    by eapply hashed_update.
  - intros k r h Hk Hh. apply restore_rows in Hk as [?|(r0 & _ & Hr0 & ->)]; [by eapply Hs|exact (Hs k r0 h Hr0 Hh)].
  - unfold create_or_reuse. repeat case_match; auto. apply hashed_put; [done|]. intros h [= <-]. exists ws. rewrite H1. eauto.
  - unfold Create. repeat case_match; auto; apply hashed_put; auto; intros h Hh; discriminate Hh.
  - eapply hashed_evolves; [done|apply Decide_evolves].
  - eapply hashed_evolves; [done|apply decide_stmt_evolves].
  - intros k r h Hk. simpl in Hk. apply map_lookup_filter_Some in Hk as [Hk _]. eauto.
Qed.

(** Two texts with one digest. *)
Definition collision : Prop := exists x y, x <> y /\ sha256_hex x = sha256_hex y.

Lemma hash_binds ws ws' action c c' :
  (forall s u, canon s = Some u -> nul_free s = true) -> is_Some (canon ws) -> is_Some (canon ws') ->
  approvalRequestHash marshal sha256_hex ws action c = approvalRequestHash marshal sha256_hex ws' action c' ->
  marshal c = marshal c' \/ collision.
Proof.
  intros Hn [u Hu] [u' Hu'] Hh. unfold approvalRequestHash in Hh.
  match type of Hh with sha256_hex ?a = sha256_hex ?b => destruct (decide (a = b)) as [Heq|Hne] end;
    [|right; red; eauto].
  left. apply nul_split in Heq as [_ Heq]; eauto. apply str_app_inj_l, str_app_inj_l in Heq. done.
Qed.

(** Whatever the rollout flag, a caller with the admin token passes a gated
    operation only by using up an approval that was asked for in the same
    workspace, for the same action and context, and granted (unless SHA-256
    collides). *)
Theorem admin_needs_approval s getenv c ge ws action reason ctx st' :
  (forall t u, canon t = Some u -> nul_free t = true) ->
  rtc gstep (opening (Approvals ∅ [])) s ->
  IsGated action = true -> callerIsAdminToken c = true ->
  gateDestructive marshal sha256_hex getenv c ge ws action reason ctx (fl_tbl s) = (st', Proceed) ->
  exists id r, ap_rows (fl_tbl s) !! id = Some r /\ ap_status r = "approved" /\ ap_consumed_at r = None /\
    ap_workspace r = canon ws /\ ap_action r = action /\
    (marshal (ap_context r) = marshal ctx \/ collision) /\
    ap_rows st' !! id = Some (set_consumed (Some (ge_now ge)) r).
Proof.
  intros Hn Hs Hgated Hadmin Hgate.
  assert (Hh : hashed (fl_tbl s)).
  { refine (rtc_invariant gstep (fun s => hashed (fl_tbl s)) hashed_step _ _ _ Hs). by intros k r h Hk. }
  unfold gateDestructive, callerIsPrivileged, requireApproval in Hgate. rewrite Hgated, Hadmin in Hgate. simpl in Hgate.
  destruct (consume _ _ _ _ _ _ _) as [st1 [id| |]] eqn:Ec; [| |done].
  - injection Hgate as <-. apply consume_ok in Ec as (r & u & Hu & Hr & Hus & ->).
    apply usable_spec in Hus as (Hws & Hact & Hhash & Hap & Hnone).
    destruct (Hh _ _ _ Hr Hhash) as (ws' & Hws' & _ & Heq). rewrite Hact in Heq.
    exists id, r. repeat split; auto; [congruence| |simpl; by rewrite lookup_insert_eq].
    eapply hash_binds; [done| |by eexists|symmetry; exact Heq]. done.
  - destruct (create_or_reuse _ _ _ _ _ _ _ _ _ _) as [st2 [?| |]]; discriminate Hgate.
Qed.

(** A grant whose delegation was not handed off is given back: consuming it
    and restoring it leaves the table as it was. *)
Theorem restore_undoes_consume fails locked now ws action hash st st' id :
  keys_canonical st ->
  consume fails locked now ws action hash st = (st', DbOk id) ->
  ap_rows (restorePrivilegedDelegationGrant false ws id st') = ap_rows st.
Proof.
  intros Hk Hc. apply consume_ok in Hc as (r & c & Hws & Hr & Hu & ->).
  apply usable_spec in Hu as (Hws' & _ & _ & _ & Hnone).
  pose proof (Hk _ _ Hr) as Hid. unfold restorePrivilegedDelegationGrant.
  rewrite decide_False by (intros ->; by apply canon_nonempty in Hid). rewrite Hid, Hws. simpl. rewrite lookup_insert_eq.
  rewrite bool_decide_eq_true_2 by done. simpl. rewrite insert_insert_eq. apply insert_id. rewrite Hr. f_equal.
  destruct r; simpl in *. by rewrite <- Hnone.
Qed.

End Flows.

(** ** A run

    An agent with the admin token asks to write a secret, the decide route
    approves what it asked for, and its retry passes. *)
Module ApprovalsDemo.

(** A cast that takes every non-empty text without NUL for canonical. *)
Program Definition text_cast : UuidCast :=
  {| canon := fun s => if bool_decide (s = "") || negb (nul_free s) then None else Some s |}.
Next Obligation. intros s c. simpl. intros. case_match eqn:E; simplify_eq. by rewrite E. Qed.
Next Obligation. intros c. simpl. case_match eqn:E; [done|]. intros [= ->]. done. Qed.

Definition mar (j : json) : string := match j with JObj [(_, JStr k)] => k | _ => "{}" end.
Definition sha (s : string) : string := s.
Definition known : wstable := {[ "ws1" := WsRow "agent" None "online" None None ]}.
Definition ctx : json := JObj [("key", JStr "API_KEY")].
Definition agent : caller := Caller None (Some (CtxBool true)).
Definition ge : gate_env := GateEnv false (fun _ => false) false "g1" false 10 known id false.

Definition ask (st : approvals) :=
  @gateDestructive text_cast mar sha (fun _ => "") agent ge "ws1" ActionSecretWrite "write secret API_KEY" ctx st.
Definition asked : approvals := (ask (Approvals ∅ [])).1.
Definition approved : approvals :=
  (Decide (H := text_cast) ExecOk 20 "ws1" "g1" (Some (DecideBody "approved" "")) asked).1.

Example asked_is_pending : (ask (Approvals ∅ [])).2 = PendingApproval "g1".
Proof. vm_compute. reflexivity. Qed.

(** The decide route does not ask who decides: what the agent asked for, the
    agent can approve, and its retry passes, once. *)
Example agent_approves_itself :
  (ask approved).2 = Proceed /\ (ask (ask approved).1).2 = GateFailed.
Proof. vm_compute. auto. Qed.

Lemma approvals_run : rtc (@gstep text_cast mar sha) (opening (Approvals ∅ [])) (opening approved).
Proof.
  eapply rtc_l; [apply (@g_request text_cast mar sha _ false "g1" known 10 "ws1" ActionSecretWrite "write secret API_KEY" ctx);
                 split; [reflexivity|split; [by apply not_elem_of_nil|done]]|].
  eapply rtc_l; [apply (@g_decide text_cast mar sha _ ExecOk 20 "ws1" "g1" (Some (DecideBody "approved" "")))|].
  apply rtc_refl.
Qed.

Lemma approval_spent_once_witness :
  spent (Flows (consume (H := text_cast) false (fun _ => false) 30 "ws1" ActionSecretWrite
                  (approvalRequestHash mar sha "ws1" ActionSecretWrite ctx) approved).1 ∅ ["g1"]) "g1" /\ NoDup ["g1"].
Proof.
  split; [left; by apply list_elem_of_singleton|].
  apply (approval_spent_once (H := text_cast) mar sha (Approvals ∅ [])
           (Flows (consume (H := text_cast) false (fun _ => false) 30 "ws1" ActionSecretWrite
                  (approvalRequestHash mar sha "ws1" ActionSecretWrite ctx) approved).1 ∅ ["g1"])).
  - intros k r Hk. discriminate Hk.
  - eapply rtc_r; [exact approvals_run|].
    apply (@g_operation text_cast mar sha (opening approved) false (fun _ => false) 30 "ws1" ActionSecretWrite
             (approvalRequestHash mar sha "ws1" ActionSecretWrite ctx)). vm_compute. reflexivity.
Defined.

Lemma decision_is_final_witness :
  exists r r', ap_rows asked !! "g1" = Some r /\ ap_rows approved !! "g1" = Some r' /\
    (ap_workspace r', ap_action r', ap_context r', ap_hash r') = (ap_workspace r, ap_action r, ap_context r, ap_hash r).
Proof.
  eexists _, _. split; [vm_compute; reflexivity|]. split; [vm_compute; reflexivity|].
  refine (proj1 (decision_is_final (H := text_cast) mar sha (opening asked) (opening approved) "g1" _ _ _ _ _)).
  - apply (@g_decide text_cast mar sha (opening asked) ExecOk 20 "ws1" "g1" (Some (DecideBody "approved" ""))).
  - vm_compute. reflexivity.
  - vm_compute. reflexivity.
Defined.

Lemma text_cast_nul t u : @canon text_cast t = Some u -> nul_free t = true.
Proof. simpl. case_match eqn:E; [done|]. intros _. by b2p. Qed.

Lemma admin_needs_approval_witness :
  exists id r, ap_rows approved !! id = Some r /\ ap_status r = "approved".
Proof.
  destruct (admin_needs_approval (H := text_cast) mar sha (opening approved) (fun _ => "") agent ge "ws1" ActionSecretWrite
              "write secret API_KEY" ctx (ask approved).1) as (id & r & Hr & Hs & _).
  - exact text_cast_nul.
  - exact approvals_run.
  - reflexivity.
  - reflexivity.
  - vm_compute. reflexivity.
  - exists id, r. auto.
Defined.

Lemma restore_undoes_consume_witness :
  ap_rows (restorePrivilegedDelegationGrant (H := text_cast) false "ws1" "g1"
             (consume (H := text_cast) false (fun _ => false) 30 "ws1" ActionSecretWrite
                (approvalRequestHash mar sha "ws1" ActionSecretWrite ctx) approved).1) = ap_rows approved.
Proof.
  apply (restore_undoes_consume (H := text_cast) sha false (fun _ => false) 30 "ws1" ActionSecretWrite
           (approvalRequestHash mar sha "ws1" ActionSecretWrite ctx) approved).
  - intros k r Hk. apply elem_of_map_to_list in Hk. vm_compute in Hk. apply list_elem_of_singleton in Hk.
    by injection Hk as -> _.
  - vm_compute. reflexivity.
Defined.

End ApprovalsDemo.
