(* ===== verification/StartGuard.v ===== *)
(** * Starting a container against deleting its workspace

    internal/provisioner/start_delete_guard.go, Start and start of
    provisioner.go, Stop and RemoveVolume, and CascadeDelete of
    internal/handlers/workspace_crud.go, as far as containers, volumes and the
    workspace row go.  A Start and a delete are threads whose program counters
    are the points between two calls that others can see; the daemon and the
    database answer each call as the step says. *)

From S2P Require Import Prelude RateLimit.

(** ** Names (provisioner.go) *)

Definition ContainerName (workspaceID : string) : string := "ws-" +:+ workspaceID.
Definition legacyContainerName (workspaceID : string) : string := "ws-" +:+ str_take 12 workspaceID.
Definition ConfigVolumeName (workspaceID : string) : string := "ws-" +:+ (workspaceID +:+ "-configs").
Definition legacyConfigVolumeName (workspaceID : string) : string := "ws-" +:+ (str_take 12 workspaceID +:+ "-configs").
Definition ClaudeSessionVolumeName (workspaceID : string) : string := "ws-" +:+ (workspaceID +:+ "-claude-sessions").
Definition legacyClaudeSessionVolumeName (workspaceID : string) : string :=
  "ws-" +:+ (str_take 12 workspaceID +:+ "-claude-sessions").
Definition WorkspaceVolumeName (workspaceID : string) : string := "ws-" +:+ (workspaceID +:+ "-workspace").

Definition bindsNamedVolume (binds : list string) (volumeName : string) : bool :=
  existsb (fun b => has_prefix b (volumeName +:+ ":")) binds.

Definition workspaceRestartPolicy (getenv : string -> string) : string :=
  let v := TrimSpace (getenv "MOLECULE_WORKSPACE_RESTART_POLICY") in
  if decide (v = "") then "unless-stopped"
  else if bool_decide (v ∈ ["no"; "always"; "unless-stopped"; "on-failure"]) then v
  else "unless-stopped".

(** ** The daemon

    A container is known by its name and has the Start that made it for id. *)
Record container := Container { c_maker : nat; c_running : bool }.
Record docker := Docker { d_containers : gmap string container; d_volumes : gset string }.

Definition volume_create (v : string) (d : docker) : docker := Docker (d_containers d) ({[v]} ∪ d_volumes d).
Definition volume_remove (v : string) (d : docker) : docker := Docker (d_containers d) (d_volumes d ∖ {[v]}).
Definition container_create (n : string) (sid : nat) (d : docker) : docker :=
  Docker (<[n := Container sid false]> (d_containers d)) (d_volumes d).
Definition container_remove (n : string) (d : docker) : docker := Docker (delete n (d_containers d)) (d_volumes d).

(** The container with the id of Start [sid]. *)
Definition own_container (n : string) (sid : nat) (d : docker) : bool :=
  match d_containers d !! n with Some c => Nat.eqb (c_maker c) sid | None => false end.
Definition container_remove_id (n : string) (sid : nat) (d : docker) : docker :=
  if own_container n sid d then container_remove n d else d.
Definition container_start (n : string) (sid : nat) (d : docker) : docker :=
  if own_container n sid d then Docker (<[n := Container sid true]> (d_containers d)) (d_volumes d) else d.

(** How a call comes back.  [CutOff]: its context ended while it was under way,
    and it took effect all the same. *)
Inductive answer := Ok | Err | CutOff.
Definition landed (a : answer) : bool := match a with Err => false | _ => true end.
Definition call (a : answer) (effect : docker -> docker) (d : docker) : docker :=
  if landed a then effect d else d.

(** ** Stop and RemoveVolume *)

Inductive remove_answer := Removed | NotFound | InProgress | RemoveFailed.

(** What the daemon may say about a container name; [InProgress] is a removal
    that another call started. *)
Definition honest (ans : string -> remove_answer) (d : docker) : Prop :=
  forall n, ans n = NotFound -> d_containers d !! n = None.

Fixpoint stop_names (names : list string) (ans : string -> remove_answer) (d : docker) : docker * bool :=
  match names with
  | [] => (d, true)
  | n :: names' =>
      match ans n with
      | Removed | InProgress => (container_remove n d, true)
      | NotFound => stop_names names' ans d
      | RemoveFailed => (d, false)
      end
  end.

(** [false]: an error. *)
Definition Stop (ans : string -> remove_answer) (workspaceID : string) (d : docker) : docker * bool :=
  stop_names [ContainerName workspaceID; legacyContainerName workspaceID] ans d.

(** [ok v]: the daemon removes volume [v]. *)
Definition remove_volumes (ok : string -> bool) (vs : list string) (d : docker) : docker :=
  foldl (fun d v => if ok v then volume_remove v d else d) d vs.
Definition RemoveVolume (ok : string -> bool) (workspaceID : string) (d : docker) : docker * bool :=
  let configs := [ConfigVolumeName workspaceID; legacyConfigVolumeName workspaceID] in
  let d1 := remove_volumes ok configs d in
  if negb (existsb ok configs) then (d1, false)
  else (remove_volumes ok [ClaudeSessionVolumeName workspaceID; legacyClaudeSessionVolumeName workspaceID] d1, true).

(** discardRemovedWorkspace; [false]: the container could not be removed, which
    is only logged. *)
Definition discardRemovedWorkspace (a : remove_answer) (ok : string -> bool) (workspaceID : string) (d : docker)
    : docker * bool :=
  let '(d1, removed) := match a with
                        | Removed => (container_remove (ContainerName workspaceID) d, true)
                        | NotFound => (d, true)
                        | InProgress | RemoveFailed => (d, false)
                        end in
  ((RemoveVolume ok workspaceID d1).1, removed).

(** ** The registry of running Starts *)

Abbreviation registry := (gmap string (gset nat)).

Definition trackStart (sid : nat) (workspaceID : string) (reg : registry) : registry :=
  <[workspaceID := {[sid]} ∪ default ∅ (reg !! workspaceID)]> reg.
Definition untrackStart (sid : nat) (workspaceID : string) (reg : registry) : registry :=
  let rest := default ∅ (reg !! workspaceID) ∖ {[sid]} in
  if decide (rest = ∅) then delete workspaceID reg else <[workspaceID := rest]> reg.

(** The starts CancelInflightStart finds under the lock. *)
Definition running_starts (workspaceID : string) (reg : registry) : list nat :=
  elements (default ∅ (reg !! workspaceID)).

(** Its report: [done] are the starts whose channel is closed. *)
Definition CancelInflightStart_report (finished : nat -> bool) (running : list nat) : bool := forallb finished running.

(** The cause of a cancelled context is the first one given. *)
Inductive cause := ErrWorkspaceRemoved | CallerDone.

(** buildLocalImageUnlessRemoved: the build ends first, or the Start's context
    does and [after] is how the build ends once it is stopped.  The result, and
    whether the build was killed. *)
Inductive build_wait := Built (ok : bool) | Interrupted (c : cause) (after : bool).
Definition buildLocalImageUnlessRemoved (b : build_wait) : bool * bool :=
  match b with
  | Built ok => (ok, false)
  | Interrupted CallerDone after => (after, true)
  | Interrupted ErrWorkspaceRemoved _ => (false, false)
  end.

(** ** Start *)

Record start_cfg := StartCfg {
  WorkspaceID : string;
  claude_code : bool;                      (* Runtime *)
  ResetClaudeSession : bool;
  Binds : list string                      (* after ApplyTierConfig *)
}.

Inductive start_result := Started | RemovedAndDiscarded | WorkspaceRemoved | Failed.

Inductive start_pc :=
| SVolume                                  (* VolumeCreate of the config volume; a migration (VolumeMigrate) comes before it *)
| SImage                                   (* selectImage, the local build *)
| SReset                                   (* VolumeRemove of the sessions *)
| SSessions                                (* VolumeCreate of the sessions *)
| SStale                                   (* ContainerRemove of a stale container *)
| SPull                                    (* ensureImagePresent *)
| SCheck1                                  (* workspaceRemoved before the create *)
| SWorkspaceVolume
| SConfigAgain
| SCreate                                  (* ContainerCreate *)
| SSeed                                    (* template and config files *)
| SStart                                   (* ContainerStart *)
| SUndo                                    (* ContainerRemove after a failed seed or start *)
| SCheck2                                  (* workspaceRemoved after the start *)
| SDiscard                                 (* start discards what it made *)
| SReturn (r : start_result)               (* start has returned to Start *)
| SDiscardCancelled                        (* Start discards what a cancelled start left *)
| SLeave (r : start_result)                (* before the deferred deregistration *)
| SGone (r : start_result).

Record start_thread := StartThread { t_cfg : start_cfg; t_cause : option cause; t_pc : start_pc }.

Definition at_pc (pc : start_pc) (t : start_thread) : start_thread := StartThread (t_cfg t) (t_cause t) pc.
Definition cancel_start (c : cause) (t : start_thread) : start_thread :=
  StartThread (t_cfg t) (match t_cause t with None => Some c | Some c' => Some c' end) (t_pc t).

(** The row of a workspace is its status; a removed workspace has no row or
    says so. *)
Definition row_removed (rows : gmap string string) (w : string) : bool :=
  match rows !! w with None => true | Some st => bool_decide (st = "removed") end.

(** WorkspaceIsRemoved, and workspaceRemoved, which asks it when it is wired. *)
Definition WorkspaceIsRemoved (fails : bool) (rows : gmap string string) (w : string) : bool :=
  if fails then false else row_removed rows w.
Definition workspaceRemoved (wired fails : bool) (rows : gmap string string) (w : string) : bool :=
  wired && WorkspaceIsRemoved fails rows w.

(** What the outside says to the call a thread is at. *)
Record reply := Reply {
  r_answer : answer;
  r_check_fails : bool;                    (* the SELECT of the removed-check errors *)
  r_remove : remove_answer;                (* ContainerRemove of a discard *)
  r_volumes : string -> bool
}.

Definition ok_or (a : answer) (yes no : start_pc) : start_pc := match a with Ok => yes | _ => no end.

(** From one program counter to the next, with the effect on the daemon. *)
Definition start_step (wired : bool) (rows : gmap string string) (rp : reply) (sid : nat) (t : start_thread)
    (d : docker) : start_thread * docker :=
  let w := WorkspaceID (t_cfg t) in
  let n := ContainerName w in
  let a := r_answer rp in
  let go pc d' := (at_pc pc t, d') in
  match t_pc t with
  | SVolume => go (ok_or a SImage (SReturn Failed)) (call a (volume_create (ConfigVolumeName w)) d)
  | SImage => go (ok_or a (if claude_code (t_cfg t) then if ResetClaudeSession (t_cfg t) then SReset else SSessions
                           else SStale) (SReturn Failed)) d
  | SReset => go SSessions (call a (volume_remove (ClaudeSessionVolumeName w)) d)
  | SSessions => go (ok_or a SStale (SReturn Failed)) (call a (volume_create (ClaudeSessionVolumeName w)) d)
  | SStale => go SPull (call a (container_remove n) d)
  | SPull => go SCheck1 d
  | SCheck1 =>
      if workspaceRemoved wired (r_check_fails rp) rows w then go SDiscard d
      else go (if bindsNamedVolume (Binds (t_cfg t)) (WorkspaceVolumeName w) then SWorkspaceVolume else SConfigAgain) d
  | SWorkspaceVolume => go (ok_or a SConfigAgain (SReturn Failed)) (call a (volume_create (WorkspaceVolumeName w)) d)
  | SConfigAgain => go (ok_or a SCreate (SReturn Failed)) (call a (volume_create (ConfigVolumeName w)) d)
  | SCreate => go (ok_or a SSeed (SReturn Failed)) (call a (container_create n sid) d)
  | SSeed => go (ok_or a SStart SUndo) d
  | SStart => go (ok_or a SCheck2 SUndo) (call a (container_start n sid) d)
  | SUndo => go (SReturn Failed) (call a (container_remove_id n sid) d)
  | SCheck2 => if workspaceRemoved wired (r_check_fails rp) rows w then go SDiscard d else go (SReturn Started) d
  | SDiscard => go (SReturn RemovedAndDiscarded) (discardRemovedWorkspace (r_remove rp) (r_volumes rp) w d).1
  | SReturn r =>
      match r, t_cause t with
      | Failed, Some ErrWorkspaceRemoved => go SDiscardCancelled d
      | _, _ => go (SLeave r) d
      end
  | SDiscardCancelled => go (SLeave WorkspaceRemoved) (discardRemovedWorkspace (r_remove rp) (r_volumes rp) w d).1
  | SLeave r => go (SGone r) d
  | SGone r => (t, d)
  end.

(** What can be true of an answer: only a call whose context ended is cut off,
    a name that is taken is not created, and a container that is there is not
    reported missing. *)
Definition possible (rp : reply) (sid : nat) (t : start_thread) (d : docker) : Prop :=
  let n := ContainerName (WorkspaceID (t_cfg t)) in
  (r_answer rp = CutOff -> t_cause t <> None) /\
  (t_pc t = SCreate -> landed (r_answer rp) = true -> d_containers d !! n = None) /\
  (r_remove rp = NotFound -> d_containers d !! n = None).

(** ** CascadeDelete *)

Inductive delete_pc :=
| DMark
| DCancel (todo : list string)                                (* first pass: cancel only *)
| DCancelling (running : list nat) (todo : list string)
| DWait (todo : list string)                                  (* second pass: cancel and wait *)
| DWaitCancelling (running wait : list nat) (todo : list string)
| DWaiting (running : list nat) (todo : list string)
| DTeardown (todo : list string)                              (* stopAndRemove *)
| DVolumes (w : string) (todo : list string)                  (* after a stop that worked *)
| DDone.

Record delete_thread := DeleteThread { dl_id : string; dl_descendants : list string; dl_pc : delete_pc }.
Definition delete_at (pc : delete_pc) (t : delete_thread) : delete_thread :=
  DeleteThread (dl_id t) (dl_descendants t) pc.
Definition dl_all (t : delete_thread) : list string := dl_id t :: dl_descendants t.
Definition dl_teardown (t : delete_thread) : list string := dl_descendants t ++ [dl_id t].

(** The UPDATE that marks the rows. *)
Definition mark_removed (ids : list string) (rows : gmap string string) : gmap string string :=
  map_imap (fun w st => Some (if bool_decide (w ∈ ids) then "removed" else st)) rows.

(** ** The system *)

Inductive fault :=
| CheckFailed (w : string)        (* a removed-check whose SELECT errored *)
| DiscardFailed (w : string)      (* a discard that only logged *)
| StopFailed (w : string)         (* a stop error the delete returns *)
| CallerEnded (w : string)        (* the context a Start was called with ended *)
| Revived (w : string).           (* a removed row taken back into use *)
Definition fault_ws (f : fault) : string :=
  match f with CheckFailed w | DiscardFailed w | StopFailed w | CallerEnded w | Revived w => w end.

Record system := System {
  sy_rows : gmap string string;
  sy_docker : docker;
  sy_inflight : registry;
  sy_starts : gmap nat start_thread;
  sy_deletes : gmap nat delete_thread;
  sy_faults : list fault
}.

(** The faults a start step shows. *)
Definition step_faults (wired : bool) (rp : reply) (t : start_thread) : list fault :=
  let w := WorkspaceID (t_cfg t) in
  match t_pc t with
  | SCheck1 | SCheck2 => if wired && r_check_fails rp then [CheckFailed w] else []
  | SDiscard | SDiscardCancelled =>
      match r_remove rp with Removed | NotFound => [] | _ => [DiscardFailed w] end
  | _ => []
  end.

Definition cancel_all (sids : list nat) (starts : gmap nat start_thread) : gmap nat start_thread :=
  map_imap (fun sid t => Some (if bool_decide (sid ∈ sids) then cancel_start ErrWorkspaceRemoved t else t)) starts.
Definition is_gone (t : start_thread) : bool := match t_pc t with SGone _ => true | _ => false end.
Definition finished (starts : gmap nat start_thread) (sid : nat) : bool :=
  match starts !! sid with Some t => is_gone t | None => true end.

Section System.
Context (wired : bool).                    (* SetWorkspaceRemovedCheck was called *)

Definition set_delete (d : nat) (t : delete_thread) (pc : delete_pc) (s : system) : system :=
  System (sy_rows s) (sy_docker s) (sy_inflight s) (sy_starts s) (<[d := delete_at pc t]> (sy_deletes s)) (sy_faults s).

Inductive dstep (d : nat) (t : delete_thread) (s : system) : system -> Prop :=
| d_mark (fails : bool) :
    dl_pc t = DMark ->
    dstep d t s (set_delete d t (DCancel (dl_all t))
      (System (if fails then sy_rows s else mark_removed (dl_all t) (sy_rows s)) (sy_docker s) (sy_inflight s)
              (sy_starts s) (sy_deletes s) (sy_faults s)))
| d_snapshot w todo :
    dl_pc t = DCancel (w :: todo) ->
    dstep d t s (set_delete d t (DCancelling (running_starts w (sy_inflight s)) todo) s)
| d_cancel sid running todo :
    dl_pc t = DCancelling (sid :: running) todo ->
    dstep d t s (set_delete d t (DCancelling running todo)
      (System (sy_rows s) (sy_docker s) (sy_inflight s) (cancel_all [sid] (sy_starts s)) (sy_deletes s) (sy_faults s)))
| d_cancelled todo :
    dl_pc t = DCancelling [] todo -> dstep d t s (set_delete d t (DCancel todo) s)
| d_all_cancelled :
    dl_pc t = DCancel [] -> dstep d t s (set_delete d t (DWait (dl_all t)) s)
| d_snapshot2 w todo :
    dl_pc t = DWait (w :: todo) ->
    dstep d t s (set_delete d t (let r := running_starts w (sy_inflight s) in DWaitCancelling r r todo) s)
| d_cancel2 sid running wait todo :
    dl_pc t = DWaitCancelling (sid :: running) wait todo ->
    dstep d t s (set_delete d t (DWaitCancelling running wait todo)
      (System (sy_rows s) (sy_docker s) (sy_inflight s) (cancel_all [sid] (sy_starts s)) (sy_deletes s) (sy_faults s)))
| d_wait wait todo :
    dl_pc t = DWaitCancelling [] wait todo -> dstep d t s (set_delete d t (DWaiting wait todo) s)
| d_waited wait todo (timeout : bool) :
    dl_pc t = DWaiting wait todo ->
    timeout = true \/ CancelInflightStart_report (finished (sy_starts s)) wait = true ->
    dstep d t s (set_delete d t (DWait todo) s)
| d_all_waited :
    dl_pc t = DWait [] -> dstep d t s (set_delete d t (DTeardown (dl_teardown t)) s)
| d_stop w todo ans :
    dl_pc t = DTeardown (w :: todo) -> honest ans (sy_docker s) ->
    dstep d t s
      (let '(d', ok) := Stop ans w (sy_docker s) in
       set_delete d t (if ok then DVolumes w todo else DTeardown todo)
         (System (sy_rows s) d' (sy_inflight s) (sy_starts s) (sy_deletes s)
                 (if ok then sy_faults s else StopFailed w :: sy_faults s)))
| d_unvolume w todo oks :
    dl_pc t = DVolumes w todo ->
    dstep d t s (set_delete d t (DTeardown todo)
      (System (sy_rows s) (RemoveVolume oks w (sy_docker s)).1 (sy_inflight s) (sy_starts s) (sy_deletes s) (sy_faults s)))
| d_done :
    dl_pc t = DTeardown [] -> dstep d t s (set_delete d t DDone s).

Inductive step (s : system) : system -> Prop :=
| s_enter sid cfg :
    sy_starts s !! sid = None ->
    step s (System (sy_rows s) (sy_docker s) (trackStart sid (WorkspaceID cfg) (sy_inflight s))
              (<[sid := StartThread cfg None SVolume]> (sy_starts s)) (sy_deletes s) (sy_faults s))
| s_start sid t rp :
    sy_starts s !! sid = Some t -> possible rp sid t (sy_docker s) ->
    step s (let '(t', d') := start_step wired (sy_rows s) rp sid t (sy_docker s) in
            System (sy_rows s) d'
              (match t_pc t with SLeave _ => untrackStart sid (WorkspaceID (t_cfg t)) (sy_inflight s) | _ => sy_inflight s end)
              (<[sid := t']> (sy_starts s)) (sy_deletes s) (step_faults wired rp t ++ sy_faults s))
| s_caller_ended sid t :
    sy_starts s !! sid = Some t ->
    step s (System (sy_rows s) (sy_docker s) (sy_inflight s) (<[sid := cancel_start CallerDone t]> (sy_starts s))
              (sy_deletes s) (CallerEnded (WorkspaceID (t_cfg t)) :: sy_faults s))
| s_delete d id descendants :
    sy_deletes s !! d = None ->
    step s (System (sy_rows s) (sy_docker s) (sy_inflight s) (sy_starts s)
              (<[d := DeleteThread id descendants DMark]> (sy_deletes s)) (sy_faults s))
| s_deleting d t s' :
    sy_deletes s !! d = Some t -> dstep d t s s' -> step s s'
| s_status w st :
    row_removed (sy_rows s) w = false -> st <> "removed" ->
    step s (System (<[w := st]> (sy_rows s)) (sy_docker s) (sy_inflight s) (sy_starts s) (sy_deletes s) (sy_faults s))
| s_purge w :
    row_removed (sy_rows s) w = true ->
    step s (System (delete w (sy_rows s)) (sy_docker s) (sy_inflight s) (sy_starts s) (sy_deletes s) (sy_faults s))
| s_revive w st :
    sy_rows s !! w = Some "removed" ->
    step s (System (<[w := st]> (sy_rows s)) (sy_docker s) (sy_inflight s) (sy_starts s) (sy_deletes s)
              (Revived w :: sy_faults s))
| s_container_gone n :
    step s (System (sy_rows s) (container_remove n (sy_docker s)) (sy_inflight s) (sy_starts s) (sy_deletes s) (sy_faults s)).

(** No Start and no delete under way. *)
Definition quiet (rows : gmap string string) (d : docker) : system := System rows d ∅ ∅ ∅ [].

End System.
