(* ===== verification/StartGuardSafety.v ===== *)
(** * No container outlives the delete of its workspace

    The threads of StartGuard under every interleaving: once the row of a
    workspace is removed and no Start and no delete of it is under way, no
    container of it is left, unless a call failed that the code only logs or
    reports. *)

From S2P Require Import Prelude StartGuard.


Abbreviation guarded_step := (step true).

(** ** The invariant *)

Definition clean (s : system) (w : string) : Prop := forall f, f ∈ sy_faults s -> fault_ws f <> w.
Definition gone (s : system) (w : string) : Prop := row_removed (sy_rows s) w = true.
Definition ws_of (t : start_thread) : string := WorkspaceID (t_cfg t).

(** The delete has yet to tear [w] down. *)
Definition pending (t : delete_thread) (w : string) : Prop :=
  match dl_pc t with
  | DMark | DDone => False
  | DTeardown todo | DVolumes _ todo => w ∈ todo
  | _ => w ∈ dl_all t
  end.
Definition pend (s : system) (w : string) : Prop := exists d t, sy_deletes s !! d = Some t /\ pending t w.

(** The delete has yet to cancel Start [sid] of [w]. *)
Definition will_cancel (t : delete_thread) (w : string) (sid : nat) : Prop :=
  w ∈ dl_all t /\
  match dl_pc t with
  | DCancel todo => w ∈ todo
  | DCancelling running todo => sid ∈ running \/ w ∈ todo
  | _ => False
  end.

(** Past the first check, before the container is made. *)
Definition committed (t : start_thread) : Prop :=
  match t_pc t with SWorkspaceVolume | SConfigAgain | SCreate => True | _ => False end.

(** The Start will discard the container it made. *)
Definition doomed (t : start_thread) : Prop :=
  match t_pc t with
  | SCheck2 | SDiscard | SDiscardCancelled => True
  | SSeed | SStart | SUndo | SReturn Failed => t_cause t = Some ErrWorkspaceRemoved
  | _ => False
  end.

Record guard (s : system) : Prop := {
  gd_tracked : forall sid t, sy_starts s !! sid = Some t -> is_gone t = false ->
                 sid ∈ default ∅ (sy_inflight s !! ws_of t);
  gd_cause : forall sid t, sy_starts s !! sid = Some t -> clean s (ws_of t) -> t_cause t <> Some CallerDone;
  gd_commit : forall sid t, sy_starts s !! sid = Some t -> committed t -> gone s (ws_of t) -> clean s (ws_of t) ->
                t_cause t = Some ErrWorkspaceRemoved \/
                exists d dt, sy_deletes s !! d = Some dt /\ will_cancel dt (ws_of t) sid;
  gd_owned : forall w c, d_containers (sy_docker s) !! ContainerName w = Some c -> gone s w -> clean s w ->
                pend s w \/ exists t, sy_starts s !! c_maker c = Some t /\ ws_of t = w /\ doomed t
}.

Lemma will_cancel_pending t w sid : will_cancel t w sid -> pending t w.
Proof. intros [Ha Hc]. unfold pending. by destruct (dl_pc t). Qed.

Lemma clean_app s w fs starts inflight dk dels rows :
  clean (System rows dk inflight starts dels (fs ++ sy_faults s)) w -> clean s w.
Proof. intros Hc f Hf. apply Hc. simpl. apply elem_of_app. by right. Qed.

Lemma ContainerName_inj a b : ContainerName a = ContainerName b -> a = b.
Proof. apply str_app_inj_l. Qed.

(** ** The registry *)

Lemma track_in sid w reg : sid ∈ default ∅ (trackStart sid w reg !! w).
Proof. unfold trackStart. rewrite lookup_insert_eq. simpl. set_solver. Qed.

Lemma track_keeps sid w reg sid' w' : sid' ∈ default ∅ (reg !! w') -> sid' ∈ default ∅ (trackStart sid w reg !! w').
Proof.
  unfold trackStart. intros Hs. destruct (decide (w = w')) as [->|Hne].
  - rewrite lookup_insert_eq. simpl. set_solver.
  - by rewrite lookup_insert_ne.
Qed.

Lemma untrack_keeps sid w reg sid' w' :
  sid' <> sid \/ w' <> w -> sid' ∈ default ∅ (reg !! w') -> sid' ∈ default ∅ (untrackStart sid w reg !! w').
Proof.
  unfold untrackStart. intros Hne Hs. destruct (decide (w = w')) as [->|Hw].
  - destruct Hne as [Hne|?]; [|done].
    assert (Hin : sid' ∈ default ∅ (reg !! w') ∖ {[sid]}) by set_solver.
    case_decide as Hd; [by rewrite Hd in Hin|]. by rewrite lookup_insert_eq.
  - case_decide; [by rewrite lookup_delete_ne|by rewrite lookup_insert_ne].
Qed.

Lemma running_starts_in sid w reg : sid ∈ default ∅ (reg !! w) -> sid ∈ running_starts w reg.
Proof. unfold running_starts. by rewrite elem_of_elements. Qed.

(** ** Cancelling *)

Lemma cancel_all_lookup sids starts sid :
  cancel_all sids starts !! sid =
  (fun t => if bool_decide (sid ∈ sids) then cancel_start ErrWorkspaceRemoved t else t) <$> starts !! sid.
Proof. unfold cancel_all. rewrite map_lookup_imap. by destruct (starts !! sid). Qed.

(** ** Steps that make no container

    [t'] is [t], perhaps cancelled. *)
Definition carried (s' : system) (t t' : start_thread) : Prop :=
  t_cfg t' = t_cfg t /\ t_pc t' = t_pc t /\
  (t_cause t' = t_cause t \/ t_cause t' = Some ErrWorkspaceRemoved /\ t_cause t = None \/ ~ clean s' (ws_of t)).

Lemma carried_refl s' t : carried s' t t.
Proof. repeat split; auto. Qed.

Definition carried_all (s' : system) (starts starts' : gmap nat start_thread) : Prop :=
  forall sid, match starts !! sid, starts' !! sid with
              | Some t, Some t' => carried s' t t' | None, None => True | _, _ => False end.

Record frame (s s' : system) : Prop := {
  fr_clean : forall w, clean s' w -> clean s w;
  fr_gone : forall w, clean s' w -> gone s' w ->
              gone s w \/ exists d dt, sy_deletes s' !! d = Some dt /\ forall sid, will_cancel dt w sid;
  fr_inflight : sy_inflight s' = sy_inflight s;
  fr_starts : carried_all s' (sy_starts s) (sy_starts s');
  fr_containers : forall n c, d_containers (sy_docker s') !! n = Some c -> d_containers (sy_docker s) !! n = Some c;
  fr_cancel : forall w sid, (exists d dt, sy_deletes s !! d = Some dt /\ will_cancel dt w sid) ->
                sid ∈ default ∅ (sy_inflight s !! w) ->
                (exists d dt, sy_deletes s' !! d = Some dt /\ will_cancel dt w sid) \/
                (forall t t', sy_starts s !! sid = Some t -> sy_starts s' !! sid = Some t' ->
                   t_cause t <> Some CallerDone -> t_cause t' = Some ErrWorkspaceRemoved);
  fr_pend : forall w c, pend s w -> clean s' w -> d_containers (sy_docker s') !! ContainerName w = Some c -> pend s' w
}.

Lemma frame_start s s' sid t' :
  frame s s' -> sy_starts s' !! sid = Some t' -> exists t, sy_starts s !! sid = Some t /\ carried s' t t'.
Proof. intros F Ht. pose proof (fr_starts s s' F sid) as Hc. rewrite Ht in Hc. destruct (sy_starts s !! sid); [eauto|done]. Qed.

Lemma carried_ws s' t t' : carried s' t t' -> ws_of t' = ws_of t.
Proof. unfold ws_of. by intros (-> & _). Qed.

Lemma frame_guard s s' : guard s -> frame s s' -> guard s'.
Proof.
  intros G F. constructor.
  - intros sid t' Ht' Hg. destruct (frame_start _ _ _ _ F Ht') as (t & Ht & C). rewrite (fr_inflight _ _ F), (carried_ws _ _ _ C).
    apply (gd_tracked s G sid t Ht). destruct C as (_ & Hpc & _). unfold is_gone in *. by rewrite <- Hpc.
  - intros sid t' Ht' Hc. destruct (frame_start _ _ _ _ F Ht') as (t & Ht & C). rewrite (carried_ws _ _ _ C) in Hc.
    destruct C as (_ & _ & [->|[[-> _]|Hn]]); [|done|done]. eapply gd_cause; eauto. by apply (fr_clean _ _ F).
  - intros sid t' Ht' Hcm Hgo Hc. destruct (frame_start _ _ _ _ F Ht') as (t & Ht & C). rewrite (carried_ws _ _ _ C) in *.
    pose proof (fr_clean _ _ F _ Hc) as Hc0.
    assert (Hcm0 : committed t) by (destruct C as (_ & Hpc & _); unfold committed in *; by rewrite <- Hpc).
    destruct (fr_gone _ _ F _ Hc Hgo) as [Hgo0|(d & dt & Hd & Hw)]; [|right; eauto].
    destruct (gd_commit s G sid t Ht Hcm0 Hgo0 Hc0) as [Hr|Hw].
    + left. destruct C as (_ & _ & [->|[[-> _]|Hn]]); [done|done|done].
    + destruct (fr_cancel _ _ F (ws_of t) sid Hw) as [Hw'|Hx]; [|auto|left; eapply Hx; eauto using gd_cause].
      eapply gd_tracked; eauto. unfold committed in Hcm0. unfold is_gone. by destruct (t_pc t).
  - intros w c Hin Hgo Hc. destruct (fr_gone _ _ F _ Hc Hgo) as [Hgo0|(d & dt & Hd & Hw)].
    + destruct (gd_owned s G w c (fr_containers _ _ F _ _ Hin) Hgo0 (fr_clean _ _ F _ Hc)) as [Hp|(t & Ht & Hws & Hdo)].
      * left. eapply fr_pend; eauto.
      * right. pose proof (fr_starts _ _ F (c_maker c)) as Hs. rewrite Ht in Hs.
        destruct (sy_starts s' !! c_maker c) as [t'|]; [|done]. exists t'. split; [done|].
        split; [by rewrite (carried_ws _ _ _ Hs)|]. destruct Hs as (_ & Hpc & Hcause). unfold doomed in *. rewrite Hpc.
        destruct (t_pc t) as [| | | | | | | | | | | | | | |[]| | |]; auto;
          (destruct Hcause as [->|[[-> _]|Hn]]; [done|done|by rewrite Hws in Hn]).
    + left. exists d, dt. split; [done|]. by eapply will_cancel_pending.
Unshelve. exact 0%nat.
Qed.

(** ** The steps of a delete *)

Lemma frame_delete s d t pc rows' dk' starts' faults' :
  let t' := delete_at pc t in
  let s' := System rows' dk' (sy_inflight s) starts' (<[d := t']> (sy_deletes s)) faults' in
  sy_deletes s !! d = Some t ->
  (forall w, clean s' w -> clean s w) ->
  (forall w, clean s' w -> gone s' w -> gone s w \/ forall sid, will_cancel t' w sid) ->
  carried_all s' (sy_starts s) starts' ->
  (forall n c, d_containers dk' !! n = Some c -> d_containers (sy_docker s) !! n = Some c) ->
  (forall w sid, will_cancel t w sid -> sid ∈ default ∅ (sy_inflight s !! w) ->
     will_cancel t' w sid \/
     forall u u', sy_starts s !! sid = Some u -> starts' !! sid = Some u' ->
       t_cause u <> Some CallerDone -> t_cause u' = Some ErrWorkspaceRemoved) ->
  (forall w c, pending t w -> clean s' w -> d_containers dk' !! ContainerName w = Some c -> pending t' w) ->
  frame s s'.
Proof.
  intros t' s' Hd Hcl Hgo Hst Hco Hca Hpe. constructor; auto.
  - intros w Hc Hg. destruct (Hgo w Hc Hg) as [?|?]; [auto|]. right. exists d, t'. split; [apply lookup_insert_eq|done].
  - intros w sid (d0 & dt & Hd0 & Hw) Hin. destruct (decide (d = d0)) as [<-|Hne].
    + rewrite Hd in Hd0. injection Hd0 as <-. destruct (Hca w sid Hw Hin) as [?|?]; [left|by right].
      exists d, t'. split; [apply lookup_insert_eq|done].
    + left. exists d0, dt. split; [|done]. simpl. by rewrite lookup_insert_ne.
  - intros w c (d0 & dt & Hd0 & Hp) Hc Hin. destruct (decide (d = d0)) as [<-|Hne].
    + rewrite Hd in Hd0. injection Hd0 as <-. exists d, t'. split; [apply lookup_insert_eq|eauto].
    + exists d0, dt. split; [|done]. simpl. by rewrite lookup_insert_ne.
Qed.

Lemma starts_same s' starts : carried_all s' starts starts.
Proof. intros sid. destruct (starts !! sid); [apply carried_refl|done]. Qed.

Lemma starts_cancelled s s' sids : carried_all s' (sy_starts s) (cancel_all sids (sy_starts s)).
Proof.
  intros sid. rewrite cancel_all_lookup. destruct (sy_starts s !! sid) as [t|] eqn:E; [|done]. simpl.
  case_bool_decide; [|apply carried_refl]. repeat split. destruct (t_cause t) as [c|] eqn:Ec; simpl; rewrite Ec; auto.
Qed.

Lemma mark_gone ids rows w : row_removed (mark_removed ids rows) w = true -> row_removed rows w = true \/ w ∈ ids.
Proof.
  unfold row_removed, mark_removed. rewrite map_lookup_imap. destruct (rows !! w) as [st|]; [|auto]. simpl.
  destruct (decide (w ∈ ids)); [auto|]. rewrite (bool_decide_eq_false_2 (w ∈ ids)) by done. auto.
Qed.

Lemma stop_containers ans w d n c : d_containers (Stop ans w d).1 !! n = Some c -> d_containers d !! n = Some c.
Proof.
  unfold Stop. generalize [ContainerName w; legacyContainerName w]. intros l. induction l as [|m l IH]; simpl; [done|].
  destruct (ans m); simpl; auto; intros Hl; apply lookup_delete_Some in Hl as [_ ?]; done.
Qed.

Lemma stop_clears ans w d :
  honest ans d -> (Stop ans w d).2 = true -> d_containers (Stop ans w d).1 !! ContainerName w = None.
Proof.
  intros Hh. unfold Stop. simpl. destruct (ans (ContainerName w)) eqn:E; simpl; try done; intros Hok;
    try apply lookup_delete_eq.
  apply Hh in E. destruct (ans (legacyContainerName w)) eqn:E'; simpl in *; try done;
    apply eq_None_not_Some; intros [c Hc]; apply lookup_delete_Some in Hc as [_ Hc]; congruence.
Qed.

Lemma volumes_containers ok w d : d_containers (RemoveVolume ok w d).1 = d_containers d.
Proof.
  assert (Hr : forall vs d, d_containers (remove_volumes ok vs d) = d_containers d).
  { induction vs as [|v vs IH]; intros d'; simpl; [done|]. unfold remove_volumes in *. simpl. rewrite IH. by case_match. }
  unfold RemoveVolume. case_match; cbn [fst]; by rewrite !Hr.
Qed.

(** What a step of the delete does to its duties. *)
Ltac delete_step E :=
  unfold set_delete; simpl; apply frame_delete; simpl; auto using starts_same;
  [intros x y [Ha Hw]; rewrite E in Hw; try done; unfold will_cancel; simpl
  |intros x c Hp _ _; unfold pending in *; rewrite E in Hp; simpl; try done].

Lemma dstep_guard s d t s' : guard s -> sy_deletes s !! d = Some t -> dstep d t s s' -> guard s'.
Proof.
  intros G Hd Hst. apply (frame_guard s); [done|].
  destruct Hst as [fails E|w todo E|sid running todo E|todo E|E|w todo E|sid running wait todo E|wait todo E|wait todo b E _|E|w todo ans E Hh|w todo oks E|E].
  - unfold set_delete; simpl. apply frame_delete; simpl; auto using starts_same.
    + unfold gone. simpl. intros w _ Hg. destruct fails; [auto|]. apply mark_gone in Hg as [?|Hin]; [auto|].
      right. intros sid. split; done.
    + intros w sid [_ Hw]. by rewrite E in Hw.
    + intros w c Hp. unfold pending in Hp. by rewrite E in Hp.
  - delete_step E. intros Hin. left. split; [done|]. apply elem_of_cons in Hw as [->|Hw]; [left|by right].
    by apply running_starts_in.
  - unfold set_delete; simpl. apply frame_delete; simpl; auto using starts_cancelled.
    + intros x y [Ha Hw]. rewrite E in Hw. intros _.
      destruct (decide (y = sid)) as [->|Hne].
      * right. intros u u' Hu Hu' Hc. rewrite cancel_all_lookup, Hu in Hu'. simpl in Hu'. injection Hu' as <-.
        rewrite bool_decide_eq_true_2 by set_solver. simpl. by destruct (t_cause u) as [[]|].
      * left. split; [done|]. simpl. destruct Hw as [Hw|Hw]; [left|by right]. set_solver.
    + intros x c Hp _ _. unfold pending in *. by rewrite E in Hp.
  - delete_step E. intros _. left. split; [done|]. destruct Hw as [Hw|Hw]; [by apply elem_of_nil in Hw|done].
  - delete_step E. by apply elem_of_nil in Hw.
  - delete_step E.
  - unfold set_delete; simpl. apply frame_delete; simpl; auto using starts_cancelled.
    + intros x y [Ha Hw]. by rewrite E in Hw.
    + intros x c Hp _ _. unfold pending in *. by rewrite E in Hp.
  - delete_step E.
  - delete_step E.
  - delete_step E. unfold dl_all in Hp. unfold dl_teardown. apply elem_of_app. set_solver.
  - pose proof (stop_clears ans w (sy_docker s) Hh) as Hclear. pose proof (stop_containers ans w (sy_docker s)) as Hsub.
    destruct (Stop ans w (sy_docker s)) as [d' ok]. simpl in *.
    unfold set_delete. simpl. apply frame_delete; simpl; auto using starts_same.
    + intros x Hc f Hf. apply Hc. simpl. destruct ok; [done|by right].
    + intros x y [Ha Hw]. by rewrite E in Hw.
    + intros x c Hp Hc Hin. unfold pending in *. rewrite E in Hp. apply elem_of_cons in Hp as [->|Hp].
      * exfalso. destruct ok; [by rewrite (Hclear eq_refl) in Hin|]. apply (Hc (StopFailed w)); [by left|done].
      * by destruct ok.
  - unfold set_delete; simpl. apply frame_delete; simpl; auto using starts_same.
    + intros n c. by rewrite volumes_containers.
    + intros x y [Ha Hw]. by rewrite E in Hw.
    + intros x c Hp _ _. unfold pending in *. by rewrite E in Hp.
  - delete_step E. by apply elem_of_nil in Hp.
Qed.

(** ** The steps of a Start *)

Lemma discard_containers a ok w d n c :
  d_containers (discardRemovedWorkspace a ok w d).1 !! n = Some c -> d_containers d !! n = Some c.
Proof.
  unfold discardRemovedWorkspace. destruct a; cbn [fst]; rewrite volumes_containers; auto; simpl; intros Hl;
    apply lookup_delete_Some in Hl as [_ ?]; done.
Qed.

(** After a discard that worked nothing is left under the name. *)
Lemma discard_clears a ok w d :
  (a = NotFound -> d_containers d !! ContainerName w = None) ->
  a = Removed \/ a = NotFound -> d_containers (discardRemovedWorkspace a ok w d).1 !! ContainerName w = None.
Proof.
  unfold discardRemovedWorkspace. intros Hn [->| ->]; cbn [fst]; rewrite volumes_containers; auto. apply lookup_delete_eq.
Qed.

Lemma call_volumes a v d : d_containers (call a (volume_create v) d) = d_containers d.
Proof. unfold call. by case_match. Qed.
Lemma call_unvolume a v d : d_containers (call a (volume_remove v) d) = d_containers d.
Proof. unfold call. by case_match. Qed.

Lemma start_step_cfg wired rows rp sid t d :
  t_cfg (start_step wired rows rp sid t d).1 = t_cfg t /\ t_cause (start_step wired rows rp sid t d).1 = t_cause t.
Proof.
  unfold start_step. destruct (t_pc t) as [| | | | | | | | | | | | | | |r| | |]; try (split; reflexivity).
  - by destruct (workspaceRemoved _ _ _ _).
  - by destruct (workspaceRemoved _ _ _ _).
  - destruct r; try done. by destruct (t_cause t) as [[]|] eqn:Ec; simpl; rewrite ?Ec.
Qed.

(** Containers of the step: those that were there, made by whom they were, and
    the one it creates. *)
Lemma start_step_containers wired rows rp sid t d n c :
  d_containers (start_step wired rows rp sid t d).2 !! n = Some c ->
  (exists c0, d_containers d !! n = Some c0 /\ c_maker c0 = c_maker c) \/
  (t_pc t = SCreate /\ landed (r_answer rp) = true /\ n = ContainerName (ws_of t) /\ c_maker c = sid).
Proof.
  unfold start_step. fold (ws_of t). intros Hc.
  assert (Hkeep : d_containers d !! n = Some c -> exists c0, d_containers d !! n = Some c0 /\ c_maker c0 = c_maker c) by eauto.
  destruct (t_pc t) eqn:Epc; simpl in Hc; try (left; by auto);
    try (rewrite ?call_volumes, ?call_unvolume in Hc; left; by auto);
    try (left; apply Hkeep; by eapply discard_containers);
    try (destruct (workspaceRemoved _ _ _ _); left; by auto).
  - unfold call in Hc. case_match; [|left; by auto]. simpl in Hc; apply lookup_delete_Some in Hc as [_ Hc]. left; auto.
  - unfold call in Hc. destruct (landed (r_answer rp)) eqn:El; [|left; by auto].
    simpl in Hc; apply lookup_insert_Some in Hc as [[<- <-]|[_ Hc]]; [right|left; by auto]. auto.
  - unfold call, container_start in Hc. case_match; [|left; by auto].
    unfold own_container in Hc. destruct (d_containers d !! ContainerName (ws_of t)) as [c1|] eqn:E1; [|left; by auto].
    destruct (Nat.eqb (c_maker c1) sid) eqn:Em; [|left; by auto]. apply Nat.eqb_eq in Em.
    simpl in Hc; apply lookup_insert_Some in Hc as [[<- <-]|[_ Hc]]; left; [eauto|by auto].
  - unfold call, container_remove_id in Hc. repeat case_match; try (left; by auto).
    simpl in Hc; apply lookup_delete_Some in Hc as [_ Hc]. left; auto.
  - left. destruct r; try destruct (t_cause t) as [[]|]; auto.
Qed.

(** A Start on its way to discard its container stays on it, or the container
    is gone, or something was logged. *)
Lemma doomed_step s rp sid t :
  let r := start_step true (sy_rows s) rp sid t (sy_docker s) in
  possible rp sid t (sy_docker s) -> gone s (ws_of t) -> doomed t ->
  (forall f, f ∈ step_faults true rp t -> fault_ws f <> ws_of t) ->
  doomed r.1 \/ d_containers r.2 !! ContainerName (ws_of t) = None.
Proof.
  intros r (_ & _ & Hnf) Hg Hd Hf. subst r. unfold doomed in Hd. unfold gone in Hg. fold (ws_of t) in Hnf.
  unfold start_step. fold (ws_of t).
  destruct (t_pc t) as [| | | | | | | | | | | | | | |[]| | |] eqn:Epc; try done.
  - left. unfold doomed. simpl. by destruct (r_answer rp).
  - left. unfold doomed. simpl. by destruct (r_answer rp).
  - left. unfold doomed. simpl. done.
  - left. unfold step_faults in Hf. rewrite Epc in Hf. simpl in Hf. unfold workspaceRemoved, WorkspaceIsRemoved. simpl.
    destruct (r_check_fails rp); [exfalso; apply (Hf (CheckFailed (ws_of t))); [by left|done]|]. by rewrite Hg.
  - right. unfold step_faults in Hf. rewrite Epc in Hf. apply discard_clears; [done|].
    destruct (r_remove rp) eqn:Er; auto; exfalso; (apply (Hf (DiscardFailed (ws_of t))); [by left|done]).
  - left. rewrite Hd. done.
  - right. unfold step_faults in Hf. rewrite Epc in Hf. apply discard_clears; [done|].
    destruct (r_remove rp) eqn:Er; auto; exfalso; (apply (Hf (DiscardFailed (ws_of t))); [by left|done]).
Qed.

(** A thread becomes committed past a check that found the row, or stays so. *)
Lemma committed_step s rp sid t :
  let r := start_step true (sy_rows s) rp sid t (sy_docker s) in
  committed r.1 -> gone s (ws_of t) -> (forall f, f ∈ step_faults true rp t -> fault_ws f <> ws_of t) -> committed t.
Proof.
  intros r Hc Hg Hf. subst r. unfold start_step, committed in *. fold (ws_of t) in Hc.
  destruct (t_pc t) as [| | | | | | | | | | | | | | |[]| | |] eqn:Epc; simpl in *; try done;
    try (destruct (r_answer rp); simpl in *; try done; repeat case_match; done).
  - unfold step_faults in Hf. rewrite Epc in Hf. simpl in Hf. unfold workspaceRemoved, WorkspaceIsRemoved in Hc. simpl in Hc.
    destruct (r_check_fails rp); [exfalso; apply (Hf (CheckFailed (ws_of t))); [by left|done]|].
    unfold gone in Hg. rewrite Hg in Hc. done.
Qed.

Lemma start_gone wired rows rp sid t d :
  is_gone (start_step wired rows rp sid t d).1 = false -> is_gone t = false /\ forall r, t_pc t <> SLeave r.
Proof. unfold start_step, is_gone. by destruct (t_pc t) as [| | | | | | | | | | | | | | |r| |r|r] eqn:E; simpl; rewrite ?E. Qed.

Lemma start_guard s sid t rp :
  guard s -> sy_starts s !! sid = Some t -> possible rp sid t (sy_docker s) ->
  guard (let '(t', d') := start_step true (sy_rows s) rp sid t (sy_docker s) in
         System (sy_rows s) d'
           (match t_pc t with SLeave _ => untrackStart sid (WorkspaceID (t_cfg t)) (sy_inflight s) | _ => sy_inflight s end)
           (<[sid := t']> (sy_starts s)) (sy_deletes s) (step_faults true rp t ++ sy_faults s)).
Proof.
  intros G Ht Hp. fold (ws_of t).
  pose proof (start_step_cfg true (sy_rows s) rp sid t (sy_docker s)) as [Hcfg Hcause].
  pose proof (doomed_step s rp sid t) as Hdoom. pose proof (committed_step s rp sid t) as Hcom.
  pose proof (start_step_containers true (sy_rows s) rp sid t (sy_docker s)) as Hcon.
  pose proof (start_gone true (sy_rows s) rp sid t (sy_docker s)) as Hgone.
  assert (Hmake : t_pc t = SCreate -> landed (r_answer rp) = true -> t_cause t = Some ErrWorkspaceRemoved ->
            doomed (start_step true (sy_rows s) rp sid t (sy_docker s)).1).
  { intros Epc Hl Hc. unfold start_step, doomed. rewrite Epc. simpl. by destruct (r_answer rp). }
  assert (Hcut : t_pc t = SCreate -> landed (r_answer rp) = true -> t_cause t = None -> r_answer rp = Ok).
  { intros _ Hl Hc. destruct Hp as (Hcut & _). destruct (r_answer rp); [done|done|]. by destruct (Hcut eq_refl). }
  destruct (start_step true (sy_rows s) rp sid t (sy_docker s)) as [t' d']. simpl in *.
  assert (Hws : ws_of t' = ws_of t) by (unfold ws_of; by rewrite Hcfg).
  assert (Hcl : forall w, clean (System (sy_rows s) d' (match t_pc t with SLeave _ => untrackStart sid (ws_of t) (sy_inflight s) | _ => sy_inflight s end)
            (<[sid := t']> (sy_starts s)) (sy_deletes s) (step_faults true rp t ++ sy_faults s)) w -> clean s w)
    by (intros w; apply clean_app).
  assert (Hfs : forall w, clean (System (sy_rows s) d' (match t_pc t with SLeave _ => untrackStart sid (ws_of t) (sy_inflight s) | _ => sy_inflight s end)
            (<[sid := t']> (sy_starts s)) (sy_deletes s) (step_faults true rp t ++ sy_faults s)) w ->
            forall f, f ∈ step_faults true rp t -> fault_ws f <> w)
    by (intros w Hc f Hf; apply Hc; simpl; apply elem_of_app; by left).
  constructor; simpl.
  - intros sid0 u Hu Hg. apply lookup_insert_Some in Hu as [[<- <-]|[Hne Hu]].
    + destruct (Hgone Hg) as [Hg0 Hnl]. rewrite Hws. pose proof (gd_tracked s G sid t Ht Hg0).
      destruct (t_pc t); try done. by destruct (Hnl r).
    + pose proof (gd_tracked s G sid0 u Hu Hg). destruct (t_pc t); try done. apply untrack_keeps; auto.
  - intros sid0 u Hu Hc. apply lookup_insert_Some in Hu as [[<- <-]|[Hne Hu]].
    + rewrite Hcause. rewrite Hws in Hc. eapply gd_cause; eauto.
    + eapply gd_cause; eauto.
  - intros sid0 u Hu Hcm Hg Hc. apply lookup_insert_Some in Hu as [[<- <-]|[Hne Hu]].
    + rewrite Hws in *. rewrite Hcause. apply (gd_commit s G sid t Ht); auto.
    + by apply (gd_commit s G sid0 u Hu); auto.
  - intros w c Hin Hg Hc. destruct (Hcon _ _ Hin) as [(c0 & Hin0 & Hm)|(Epc & Hl & Hn & Hm)].
    + destruct (gd_owned s G w c0 Hin0 Hg (Hcl w Hc)) as [?|(u & Hu & Huw & Hd)]; [by left|right].
      rewrite Hm in Hu. destruct (decide (c_maker c = sid)) as [Heq|Hne].
      * rewrite Heq in *. rewrite Ht in Hu. injection Hu as <-. exists t'. rewrite lookup_insert_eq. subst w. repeat split; auto.
        destruct Hdoom as [?|Hnone]; auto. by rewrite Hnone in Hin.
      * exists u. by rewrite lookup_insert_ne.
    + apply ContainerName_inj in Hn as ->. 
      destruct (gd_commit s G sid t Ht) as [Hr|(d & dt & Hd & Hw)]; auto.
      * unfold committed. by rewrite Epc.
      * right. exists t'. rewrite Hm, lookup_insert_eq. repeat split; auto.
      * left. exists d, dt. split; [done|]. by eapply will_cancel_pending.
Qed.

(** ** Every step *)

Lemma frame_rows s rows' faults' :
  let s' := System rows' (sy_docker s) (sy_inflight s) (sy_starts s) (sy_deletes s) (faults' ++ sy_faults s) in
  (forall w, clean s' w -> row_removed rows' w = true -> row_removed (sy_rows s) w = true) ->
  frame s s'.
Proof.
  intros s' Hg. constructor; auto using starts_same.
  - intros w. apply clean_app.
  - intros w Hc Hr. left. by apply Hg.
Qed.

Lemma guard_step s s' : guard s -> guarded_step s s' -> guard s'.
Proof.
  intros G Hst. destruct Hst as [sid cfg Hn|sid t rp Ht Hp|sid t Ht|d id ds Hn|d t s' Hd Hst|w st Hr Hne|w Hr|w st Hr|n].
  - constructor; simpl.
    + intros sid0 u Hu Hg. apply lookup_insert_Some in Hu as [[<- <-]|[Hne Hu]]; [apply track_in|].
      apply track_keeps. by eapply gd_tracked.
    + intros sid0 u Hu Hc. apply lookup_insert_Some in Hu as [[<- <-]|[Hne Hu]]; [done|]. by eapply gd_cause.
    + intros sid0 u Hu Hcm Hg Hc. apply lookup_insert_Some in Hu as [[<- <-]|[Hne Hu]]; [done|]. by apply (gd_commit s G sid0 u Hu).
    + intros w c Hin Hg Hc. destruct (gd_owned s G w c Hin Hg Hc) as [?|(u & Hu & ?)]; [by left|right].
      exists u. rewrite lookup_insert_ne; [done|]. intros ->. congruence.
  - by apply start_guard.
  - apply (frame_guard s); [done|]. constructor; simpl; auto.
    + intros w. apply (clean_app s w [_]).
    + intros sid0. simpl. destruct (decide (sid = sid0)) as [<-|Hne]; [|rewrite lookup_insert_ne by done; apply starts_same].
      rewrite Ht, lookup_insert_eq. repeat split. right. right. intros Hc. by apply (Hc (CallerEnded (ws_of t))); [left|].
  - apply (frame_guard s); [done|]. constructor; simpl; auto using starts_same.
    + intros w sid (d0 & dt & Hd0 & Hw) _. left. exists d0, dt. split; [|done]. simpl. rewrite lookup_insert_ne; [done|].
      intros ->. congruence.
    + intros w c (d0 & dt & Hd0 & Hw) _ _. exists d0, dt. split; [|done]. simpl. rewrite lookup_insert_ne; [done|].
      intros ->. congruence.
  - by eapply dstep_guard.
  - apply (frame_guard s); [done|]. apply (frame_rows s _ []). intros w0 _. unfold row_removed.
    destruct (decide (w = w0)) as [<-|Hne']; [|by rewrite lookup_insert_ne].
    rewrite lookup_insert_eq. intros Hb. by apply bool_decide_eq_true in Hb.
  - apply (frame_guard s); [done|]. apply (frame_rows s _ []). intros w0 _.
    destruct (decide (w = w0)) as [<-|Hne']; [done|]. unfold row_removed. by rewrite lookup_delete_ne.
  - apply (frame_guard s); [done|]. apply (frame_rows s _ [_]). intros w0 Hc.
    destruct (decide (w = w0)) as [<-|Hne']; [exfalso; by apply (Hc (Revived w)); [left|]|].
    unfold row_removed. by rewrite lookup_insert_ne.
  - apply (frame_guard s); [done|]. constructor; simpl; auto using starts_same.
    intros m c Hc. by apply lookup_delete_Some in Hc as [_ Hc].
Qed.

(** A delete works on its own workspaces. *)
Definition within (s : system) : Prop :=
  forall d t w, sy_deletes s !! d = Some t -> pending t w -> w ∈ dl_all t.

Lemma within_set s d t pc rows' dk' starts' faults' :
  within s -> sy_deletes s !! d = Some t -> (forall w, pending (delete_at pc t) w -> w ∈ dl_all t) ->
  within (System rows' dk' (sy_inflight s) starts' (<[d := delete_at pc t]> (sy_deletes s)) faults').
Proof.
  intros W Hd Hp d0 t0 w Hd0 Hpe. simpl in Hd0. apply lookup_insert_Some in Hd0 as [[<- <-]|[_ Hd0]]; [by apply Hp|by eapply W].
Qed.

Lemma within_step s s' : within s -> guarded_step s s' -> within s'.
Proof.
  intros W Hst. destruct Hst as [| sid t rp Ht _| |d id ds Hn|d t s' Hd Hst| | | |]; try exact W.
  - by destruct (start_step true (sy_rows s) rp sid t (sy_docker s)).
  - intros d0 t0 w Hd0 Hp. simpl in Hd0. apply lookup_insert_Some in Hd0 as [[<- <-]|[_ Hd0]]; [done|by eapply W].
  - pose proof (fun w => W d t w Hd) as Wt. unfold pending in Wt.
    destruct Hst as [fails E|w todo E|sid running todo E|todo E|E|w todo E|sid running wait todo E|wait todo E|wait todo b E _|E|w todo ans E Hh|w todo oks E|E];
      rewrite E in Wt; try (destruct (Stop ans w (sy_docker s)) as [d' ok]);
      unfold set_delete; simpl; (apply within_set; [done|done|]); unfold pending; simpl; auto.
    + intros w. unfold dl_teardown, dl_all. set_solver.
    + intros w0. destruct ok; intros Hw; apply Wt; by right.
    + done.
Qed.

(** Nothing under way, and every container belongs to a live row. *)
Definition sound (rows : gmap string string) (d : docker) : Prop :=
  forall w, is_Some (d_containers d !! ContainerName w) -> row_removed rows w = false.

Lemma guard_quiet rows d : sound rows d -> guard (quiet rows d).
Proof.
  intros Hs. constructor; simpl; try (intros ? ? Hl; by rewrite lookup_empty in Hl).
  intros w c Hc Hg _. unfold gone in Hg. simpl in Hg. rewrite Hs in Hg; [done|eauto].
Qed.

(** C7: However Starts, deletes and other writers interleave, once the row of a
    workspace is removed and every Start and every delete of it is over, no
    container of it is left, unless a call of it failed in a way that the code
    logs or reports, or its row was revived. *)
Theorem no_container_outlives_delete rows d s w :
  sound rows d -> rtc guarded_step (quiet rows d) s ->
  row_removed (sy_rows s) w = true ->
  (forall sid t, sy_starts s !! sid = Some t -> WorkspaceID (t_cfg t) = w -> is_gone t = true) ->
  (forall dl t, sy_deletes s !! dl = Some t -> w ∈ dl_id t :: dl_descendants t -> dl_pc t = DDone) ->
  (forall f, f ∈ sy_faults s -> fault_ws f <> w) ->
  d_containers (sy_docker s) !! ContainerName w = None.
Proof.
  intros Hs Hr Hgone Hstarts Hdel Hf.
  assert (G : guard s) by (refine (rtc_invariant guarded_step guard guard_step _ _ (guard_quiet _ _ Hs) Hr)).
  assert (W : within s) by (refine (rtc_invariant guarded_step within within_step _ _ _ Hr); intros ? ? ? Hl; done).
  apply eq_None_not_Some. intros [c Hc].
  destruct (gd_owned s G w c Hc Hgone Hf) as [(dl & t & Hd & Hp)|(t & Ht & Hw & Hdo)].
  - specialize (Hdel dl t Hd (W dl t w Hd Hp)). unfold pending in Hp. by rewrite Hdel in Hp.
  - specialize (Hstarts _ t Ht Hw). unfold is_gone, doomed in *. by destruct (t_pc t) as [| | | | | | | | | | | | | | |[]| | |].
Qed.

(** ** A scheduler

    One step of a thread when the daemon and the database answer as they
    should, so that a run is a list of choices. *)
Inductive choice :=
| Enter (sid : nat) (cfg : start_cfg)
| RunStart (sid : nat)
| OpenDelete (d : nat) (id : string) (descendants : list string)
| RunDelete (d : nat).

Definition daemon_removes (dk : docker) (n : string) : remove_answer :=
  match d_containers dk !! n with Some _ => Removed | None => NotFound end.
Definition good_reply (dk : docker) (t : start_thread) : reply :=
  let n := ContainerName (ws_of t) in
  Reply (match d_containers dk !! n with Some _ => (match t_pc t with SCreate => Err | _ => Ok end) | None => Ok end)
        false (daemon_removes dk n) (fun _ => true).

Definition run_start (sid : nat) (t : start_thread) (s : system) : system :=
  let '(t', d') := start_step true (sy_rows s) (good_reply (sy_docker s) t) sid t (sy_docker s) in
  System (sy_rows s) d'
    (match t_pc t with SLeave _ => untrackStart sid (WorkspaceID (t_cfg t)) (sy_inflight s) | _ => sy_inflight s end)
    (<[sid := t']> (sy_starts s)) (sy_deletes s) (step_faults true (good_reply (sy_docker s) t) t ++ sy_faults s).

(** Waits time out. *)
Definition run_delete (d : nat) (t : delete_thread) (s : system) : system :=
  let cancelled sid := System (sy_rows s) (sy_docker s) (sy_inflight s) (cancel_all [sid] (sy_starts s)) (sy_deletes s) (sy_faults s) in
  match dl_pc t with
  | DMark => set_delete d t (DCancel (dl_all t))
               (System (mark_removed (dl_all t) (sy_rows s)) (sy_docker s) (sy_inflight s) (sy_starts s) (sy_deletes s) (sy_faults s))
  | DCancel (w :: todo) => set_delete d t (DCancelling (running_starts w (sy_inflight s)) todo) s
  | DCancel [] => set_delete d t (DWait (dl_all t)) s
  | DCancelling (sid :: running) todo => set_delete d t (DCancelling running todo) (cancelled sid)
  | DCancelling [] todo => set_delete d t (DCancel todo) s
  | DWait (w :: todo) => set_delete d t (let r := running_starts w (sy_inflight s) in DWaitCancelling r r todo) s
  | DWait [] => set_delete d t (DTeardown (dl_teardown t)) s
  | DWaitCancelling (sid :: running) wait todo => set_delete d t (DWaitCancelling running wait todo) (cancelled sid)
  | DWaitCancelling [] wait todo => set_delete d t (DWaiting wait todo) s
  | DWaiting wait todo => set_delete d t (DWait todo) s
  | DTeardown (w :: todo) =>
      let '(d', ok) := Stop (daemon_removes (sy_docker s)) w (sy_docker s) in
      set_delete d t (if ok then DVolumes w todo else DTeardown todo)
        (System (sy_rows s) d' (sy_inflight s) (sy_starts s) (sy_deletes s)
                (if ok then sy_faults s else StopFailed w :: sy_faults s))
  | DTeardown [] => set_delete d t DDone s
  | DVolumes w todo => set_delete d t (DTeardown todo)
      (System (sy_rows s) (RemoveVolume (fun _ => true) w (sy_docker s)).1 (sy_inflight s) (sy_starts s) (sy_deletes s) (sy_faults s))
  | DDone => s
  end.

Definition choose (s : system) (c : choice) : system :=
  match c with
  | Enter sid cfg =>
      match sy_starts s !! sid with
      | Some _ => s
      | None => System (sy_rows s) (sy_docker s) (trackStart sid (WorkspaceID cfg) (sy_inflight s))
                  (<[sid := StartThread cfg None SVolume]> (sy_starts s)) (sy_deletes s) (sy_faults s)
      end
  | RunStart sid => match sy_starts s !! sid with Some t => run_start sid t s | None => s end
  | OpenDelete d id ds =>
      match sy_deletes s !! d with
      | Some _ => s
      | None => System (sy_rows s) (sy_docker s) (sy_inflight s) (sy_starts s)
                  (<[d := DeleteThread id ds DMark]> (sy_deletes s)) (sy_faults s)
      end
  | RunDelete d => match sy_deletes s !! d with Some t => run_delete d t s | None => s end
  end.

Lemma good_possible dk sid t : possible (good_reply dk t) sid t dk.
Proof.
  unfold possible, good_reply, daemon_removes. fold (ws_of t). simpl.
  destruct (d_containers dk !! ContainerName (ws_of t)); split; try done; [by destruct (t_pc t)|].
  split; [|done]. by intros ->.
Qed.

Lemma run_delete_step d t s : sy_deletes s !! d = Some t -> s = run_delete d t s \/ guarded_step s (run_delete d t s).
Proof.
  intros Hd. unfold run_delete. destruct (dl_pc t) as [|[|w todo]|[|sid r] todo|[|w todo]|[|sid r] wait todo|wait todo|[|w todo]|w todo|] eqn:E;
    try (by left); right; eapply s_deleting; eauto.
  - by apply (d_mark d t s false).
  - by apply d_all_cancelled.
  - by apply d_snapshot.
  - by apply d_cancelled.
  - by apply d_cancel.
  - by apply d_all_waited.
  - by apply d_snapshot2.
  - by apply d_wait.
  - by apply d_cancel2.
  - by apply (d_waited d t s wait todo true); [|left].
  - by apply d_done.
  - apply d_stop; [done|]. intros n. unfold daemon_removes. by destruct (d_containers (sy_docker s) !! n).
  - by apply d_unvolume.
Qed.

Lemma choose_steps cs s : rtc guarded_step s (foldl choose s cs).
Proof.
  revert s. induction cs as [|c cs IH]; intros s; [apply rtc_refl|]. simpl.
  assert (Hc : s = choose s c \/ guarded_step s (choose s c)).
  { destruct c as [sid cfg|sid|d id ds|d]; simpl.
    - destruct (sy_starts s !! sid) eqn:E; [by left|right]. by apply s_enter.
    - destruct (sy_starts s !! sid) as [t|] eqn:E; [right|by left]. unfold run_start.
      apply (s_start true s sid t (good_reply (sy_docker s) t)); [done|apply good_possible].
    - destruct (sy_deletes s !! d) eqn:E; [by left|right]. by apply s_delete.
    - destruct (sy_deletes s !! d) eqn:E; [by apply run_delete_step|by left]. }
  destruct Hc as [<-|Hc]; [apply IH|]. by eapply rtc_l.
Qed.

(** *** The race

    A Start has made sure that the workspace is there; the delete marks it,
    cancels the Start, gives up waiting and tears down; then the Start creates
    and starts its container, asks again, and takes everything down. *)
Module StartGuardDemo.
Definition cfg : start_cfg := StartCfg "w1" false false ["ws-w1-configs:/configs"; "ws-w1-workspace:/workspace"].
Definition rows : gmap string string := {[ "w1" := "provisioning" ]}.
Definition before : list choice := Enter 0 cfg :: replicate 6 (RunStart 0).
Definition delete_all : list choice := OpenDelete 0 "w1" [] :: replicate 14 (RunDelete 0).
Definition overtaken : system := foldl choose (quiet rows (Docker ∅ ∅)) (before ++ delete_all).
Definition created : system := foldl choose overtaken (replicate 4 (RunStart 0)).
Definition settled : system := foldl choose created (replicate 6 (RunStart 0)).

Example the_race :
  (dl_pc <$> sy_deletes overtaken !! 0%nat, t_pc <$> sy_starts overtaken !! 0%nat) = (Some DDone, Some SConfigAgain) /\
  map_to_list (d_containers (sy_docker created)) = [("ws-w1", Container 0 true)] /\
  t_pc <$> sy_starts settled !! 0%nat = Some (SGone RemovedAndDiscarded).
Proof. vm_compute. auto. Qed.

(** Without the removed-check the container would stay. *)
Definition unwired_end : start_pc :=
  match sy_starts created !! 0%nat with
  | Some t => t_pc (start_step false (sy_rows created) (good_reply (sy_docker created) t) 0 t (sy_docker created)).1
  | None => SVolume
  end.
Example unwired_leaks : unwired_end = SReturn Started.
Proof. vm_compute. reflexivity. Qed.

Lemma no_container_outlives_delete_witness : d_containers (sy_docker settled) !! ContainerName "w1" = None.
Proof.
  apply (no_container_outlives_delete rows (Docker ∅ ∅) settled "w1").
  - intros w [c Hc]. simpl in Hc. by rewrite lookup_empty in Hc.
  - unfold settled, created, overtaken. rewrite <- !foldl_app. apply choose_steps.
  - vm_compute. reflexivity.
  - intros sid t Ht _. apply elem_of_map_to_list in Ht. vm_compute in Ht.
    apply list_elem_of_singleton in Ht. by injection Ht as _ ->.
  - intros d t Hd _. apply elem_of_map_to_list in Hd. vm_compute in Hd.
    apply list_elem_of_singleton in Hd. by injection Hd as _ ->.
  - intros f Hf. vm_compute in Hf. by apply elem_of_nil in Hf.
Defined.

End StartGuardDemo.
