(* ===== verification/CpProvision.v ===== *)
(** * Provisioning through the control plane

    internal/provisioner/cp_ensure_image.go,
    internal/handlers/cp_provision_budget.go, and provisionWorkspaceCP and
    markProvisionFailed of workspace_provision.go and
    workspace_provision_shared.go.  The control plane is HTTP: what it answers
    is an argument. *)

From S2P Require Import Prelude RestartGuards.

(** ** EnsureImage (cp_ensure_image.go) *)

Record EnsureImageResult := MkEnsureImageResult { er_status : string; er_image_ref : string; er_error : string }.

(** What comes back from the POST: nothing, or a status and a body that is read
    and decodes, or not. *)
Inductive ensure_http :=
| NotSent                                  (* building or sending the request failed *)
| Response (status : Z) (readable : bool) (decoded : option EnsureImageResult).

(** [probe]: the status of the GET on a route that every control plane has. *)
Definition isCPRouteFamilyLive (has_client : bool) (probe : option Z) : bool :=
  has_client && match probe with Some status => negb (status =? 404) | None => false end.

Definition ensureImageStatusIsPermanent (status : Z) : bool :=
  if (status =? 408) || (status =? 429) then false else (400 <=? status) && (status <? 500).

(** [resolved]: the backend of the workspace row, [None] on an error. *)
Definition providerForWorkspace (workspaceID explicit : string) (resolved : option string) : string :=
  if bool_decide (explicit <> "") || bool_decide (workspaceID = "") then explicit else default explicit resolved.

Definition EnsureImage (wired has_client : bool) (http : ensure_http) (probe : option Z) : ensure_answer :=
  if negb wired then EnsureOther           (* ErrNoBackend *)
  else match http with
       | NotSent | Response _ false _ => EnsureOther
       | Response status true decoded =>
           if status =? 501 then EnsureUnsupported
           else if status =? 404 then
             if isCPRouteFamilyLive has_client probe then EnsureUnsupported else EnsurePermanent
           else if (status <? 200) || (300 <=? status) then
             if ensureImageStatusIsPermanent status then EnsurePermanent else EnsureOther
           else match decoded with Some _ => EnsureReady | None => EnsureOther end
       end.

(** ** Budgets (cp_provision_budget.go) *)

Definition CPProvisionCeiling : Z := 20 * Minute.
Definition cpProvisionLegReserve : Z := 5 * Minute.

(** [secs]: ProvisionTimeoutSecondsForRuntime, a Go int. *)
Definition cpProvisionTimeout (secs : Z) : Z :=
  let d := CPProvisionCeiling in
  if 0 <? secs then let perRuntime := seconds secs in if d <? perRuntime then perRuntime else d else d.

Definition cpCreatePrewarmBudget (total : Z) : Z :=
  let b := restartPrewarmBudget in
  let lim := total - cpProvisionLegReserve in
  let b := if lim <? b then lim else b in
  if b <? 0 then 0 else b.

(** ** Failure reasons *)

Definition provisionFailedGeneric := "provisioning failed".
Definition provisionFailedImageUnavailable := "image_unavailable: the workspace runtime image could not be obtained — this is expected briefly after a runtime-image promote; retry the workspace shortly".
Definition provisionFailedRuntimePinMissing := "runtime_pin_missing: no runtime image is pinned for this workspace's runtime — promote a runtime image, then retry".
Definition provisionFailedBudgetExhausted := "provision_timeout: the control plane did not finish provisioning within the provision budget".

Definition cpProvisionFailureReasons : list string :=
  [provisionFailedGeneric; provisionFailedImageUnavailable; provisionFailedRuntimePinMissing; provisionFailedBudgetExhausted].

(** An error: whether it wraps ErrEnsureImagePermanent, and its text. *)
Record cp_error := CpError { wraps_permanent : bool; err_text : string }.

Definition pin_markers : list string := ["runtime_pin_missing"].
Definition image_markers : list string :=
  ["image resolution"; "image_resolution"; "pull failed"; "pull stalled"; "not available locally";
   "did not resolve to expected digest"].
Definition timeout_markers : list string :=
  ["context deadline exceeded"; "client.timeout exceeded"; "context canceled"; "context cancelled"].

Definition cpProvisionFailureReason (err : option cp_error) : string :=
  match err with
  | None => provisionFailedGeneric
  | Some e =>
      if wraps_permanent e then provisionFailedImageUnavailable
      else
        let s := str_lower (err_text e) in
        let contains needles := existsb (str_contains s) needles in
        if contains pin_markers then provisionFailedRuntimePinMissing
        else if contains image_markers then provisionFailedImageUnavailable
        else if contains timeout_markers then provisionFailedBudgetExhausted
        else provisionFailedGeneric
  end.

(** The create-path pre-flight: "" to go on, or the reason to fail with. *)
Definition ensurePinnedImageBeforeProvision (has_cp : bool) (answer : ensure_answer) (budget : Z) : string :=
  if negb has_cp then ""
  else if cpCreatePrewarmBudget budget <=? 0 then ""
  else match answer with
       | EnsurePermanent => provisionFailedImageUnavailable
       | EnsureReady | EnsureUnsupported | EnsureOther => ""
       end.

(** ** The row a provision works on *)

Record prow := ProvisionRow {
  pv_status : string;
  pv_runtime : option string;
  pv_instance : option string;             (* instance_id *)
  pv_error : option string;                (* last_sample_error *)
  pv_updated : time
}.
Abbreviation ptable := (gmap string prow).

Definition fail_prow (msg : string) (now : time) (r : prow) : prow :=
  ProvisionRow "failed" (pv_runtime r) (pv_instance r) (Some msg) now.

(** The broadcast of a failure: the workspace, the message, the instance that
    the payload names. *)
Record failure_event := FailureEvent { fe_workspace : string; fe_error : string; fe_instance : option string }.

(** markProvisionFailed: the guarded UPDATE, if it lands, and the broadcast. *)
Definition markProvisionFailed (write_fails : bool) (now : time) (w msg : string) (instance : option string)
    (t : ptable) : ptable * failure_event :=
  (if write_fails then t
   else match t !! w with
        | Some r => if bool_decide (pv_status r <> "removed") then <[w := fail_prow msg now r]> t else t
        | None => t
        end,
   FailureEvent w msg instance).

(** ** provisionWorkspaceCP *)

Definition instanceIDPersistRetryAttempts : nat := 3.

Record cp_env := CpEnv {
  ce_prepare : option string;              (* the message prepareProvisionContext aborts with *)
  ce_answer : ensure_answer;
  ce_start : string + cp_error;            (* the machine id, or why there is none *)
  ce_persist_fails : nat -> bool;          (* by attempt, from 1 *)
  ce_write_fails : bool;                   (* the UPDATE of markProvisionFailed *)
  ce_now : time
}.

(** The first attempt that persists the instance id, out of [left] from
    [attempt]. *)
Fixpoint persist_attempt (left attempt : nat) (fails : nat -> bool) : option nat :=
  match left with
  | O => None
  | S left' => if negb (fails attempt) then Some attempt else persist_attempt left' (S attempt) fails
  end.

Definition set_instance (machine : string) (now : time) (w : string) (t : ptable) : ptable :=
  alter (fun r => ProvisionRow (pv_status r) (pv_runtime r) (Some machine) (pv_error r) now) w t.

(** What a provision did: whether it called the control plane's Start, the
    machine it got, the failure it published. *)
Record cp_outcome := CpOutcome {
  co_called_start : bool; co_machine : option string; co_failure : option failure_event
}.

Definition provisionWorkspaceCP (e : cp_env) (secs : Z) (w : string) (t : ptable) : ptable * cp_outcome :=
  let fail msg instance called machine :=
    let '(t', ev) := markProvisionFailed (ce_write_fails e) (ce_now e) w msg instance t in
    (t', CpOutcome called machine (Some ev)) in
  let budget := cpProvisionTimeout secs in
  match ce_prepare e with
  | Some msg => fail msg None false None
  | None =>
      let reason := ensurePinnedImageBeforeProvision true (ce_answer e) budget in
      if bool_decide (reason <> "") then fail reason None false None
      else match ce_start e with
           | inr err => fail (cpProvisionFailureReason (Some err)) None true None
           | inl machineID =>
               match persist_attempt instanceIDPersistRetryAttempts 1 (ce_persist_fails e) with
               | Some _ => (set_instance machineID (ce_now e) w t, CpOutcome true (Some machineID) None)
               | None => fail "instance_id persist failed after retry — provider compute untracked" (Some machineID) true
                              (Some machineID)
               end
           end
  end.

(** ** Budgets: theorems *)

(** The budget of a provision is never below that of the client it bounds,
    and is the template's own timeout when that is longer. *)
Theorem provision_budget_covers_client secs :
  0 <= secs <= 9223372036 ->
  cpProvisionTimeout secs = Z.max CPProvisionCeiling (secs * Second) /\ CPProvisionCeiling <= cpProvisionTimeout secs.
Proof.
  intros Hs. unfold cpProvisionTimeout. rewrite seconds_id by lia. unfold CPProvisionCeiling, Minute, Second.
  destruct (0 <? secs) eqn:E; b2p; [case_match; b2p; lia|lia].
Qed.

(** The pre-warm's share: no more than the restart path's, never negative, and
    five minutes short of the whole. *)
Lemma prewarm_budget_bounds total :
  0 <= cpCreatePrewarmBudget total <= restartPrewarmBudget /\
  (0 < cpCreatePrewarmBudget total -> cpCreatePrewarmBudget total + cpProvisionLegReserve <= total).
Proof.
  unfold cpCreatePrewarmBudget, restartPrewarmBudget, cpProvisionLegReserve, Minute, Second.
  repeat case_match; b2p; lia.
Qed.

(** With the default budget the pre-warm's share and the reserve are the whole
    budget: what the preparation before it takes comes out of the reserve. *)
Example reserve_is_not_kept :
  let spent := 2 * Minute in
  cpProvisionTimeout 0 - spent - cpCreatePrewarmBudget (cpProvisionTimeout 0) < cpProvisionLegReserve.
Proof. reflexivity. Qed.

(** ** Classification *)

Lemma reason_closed err : cpProvisionFailureReason err ∈ cpProvisionFailureReasons.
Proof. unfold cpProvisionFailureReason, cpProvisionFailureReasons. repeat case_match; set_solver. Qed.

(** An image failure that also says the context was cancelled is an image
    failure. *)
Lemma reason_specific e s p :
  wraps_permanent e = false -> str_lower (err_text e) = s ->
  existsb (str_contains s) pin_markers = false -> p ∈ image_markers -> str_contains s p = true ->
  cpProvisionFailureReason (Some e) = provisionFailedImageUnavailable.
Proof.
  intros Hw <- Hp Hin Hc. unfold cpProvisionFailureReason. rewrite Hw, Hp.
  rewrite (proj2 (existsb_exists _ image_markers)); [done|]. exists p. split; [by apply list_elem_of_In|done].
Qed.

(** When EnsureImage says what. *)
Lemma EnsureImage_permanent has_client http probe :
  EnsureImage true has_client http probe = EnsurePermanent <->
  exists status decoded, http = Response status true decoded /\
    ((400 <= status < 500 /\ status <> 404 /\ status <> 408 /\ status <> 429) \/
     (status = 404 /\ isCPRouteFamilyLive has_client probe = false)).
Proof.
  unfold EnsureImage, ensureImageStatusIsPermanent. simpl. split.
  - intros Hs. destruct http as [|status [] decoded]; try done. exists status, decoded. split; [done|].
    repeat case_match; try done; b2p; try (right; auto; fail).
    left. lia.
  - intros (status & decoded & -> & [Hs|[-> Hl]]).
    + rewrite (proj2 (Z.eqb_neq status 501)), (proj2 (Z.eqb_neq status 404)) by lia.
      rewrite (proj2 (Z.leb_le 300 status)), orb_true_r by lia.
      rewrite (proj2 (Z.eqb_neq status 408)), (proj2 (Z.eqb_neq status 429)) by lia. simpl.
      rewrite (proj2 (Z.leb_le 400 status)), (proj2 (Z.ltb_lt status 500)) by lia. done.
    + simpl. by rewrite Hl.
Qed.

(** A create goes to the control plane's Start unless its preparation
    aborted or the control plane understood the image question and refused it:
    a 4xx other than 404, 408 and 429, or a 404 from something that does not
    route to a control plane at all. *)
Theorem create_asks_unless_refused e secs w t has_client http probe :
  0 <= secs <= 9223372036 -> ce_answer e = EnsureImage true has_client http probe ->
  co_called_start (provisionWorkspaceCP e secs w t).2 = false <->
  ce_prepare e <> None \/
  exists status decoded, http = Response status true decoded /\
    ((400 <= status < 500 /\ status <> 404 /\ status <> 408 /\ status <> 429) \/
     (status = 404 /\ isCPRouteFamilyLive has_client probe = false)).
Proof.
  intros Hs Ha. rewrite <- EnsureImage_permanent, <- Ha. unfold provisionWorkspaceCP.
  destruct (ce_prepare e) as [msg|]; [simpl; split; [auto|done]|].
  assert (Hb : (cpCreatePrewarmBudget (cpProvisionTimeout secs) <=? 0) = false).
  { apply Z.leb_gt. destruct (provision_budget_covers_client secs Hs) as [_ Hc].
    unfold cpCreatePrewarmBudget, restartPrewarmBudget, cpProvisionLegReserve, CPProvisionCeiling, Minute, Second in *.
    repeat case_match; b2p; lia. }
  unfold ensurePinnedImageBeforeProvision. rewrite Hb. simpl negb. cbn iota.
  destruct (ce_answer e); simpl.
  3: split; auto.
  all: destruct (ce_start e); simpl; repeat case_match; simpl; (split; [done|]); intros [?|?]; done.
Qed.

Lemma create_asks_unless_refused_witness :
  let e := CpEnv None (EnsureImage true true (Response 422 true None) None) (inl "m1") (fun _ => false) false 0 in
  co_called_start (provisionWorkspaceCP e 0 "w1" ∅).2 = false.
Proof.
  intros e. apply (create_asks_unless_refused e 0 "w1" ∅ true (Response 422 true None) None); [lia|reflexivity|].
  right. exists 422, None. split; [reflexivity|]. left. lia.
Defined.

Lemma provision_budget_covers_client_witness : cpProvisionTimeout 1800 = 1800 * Second.
Proof. rewrite (proj1 (provision_budget_covers_client 1800 ltac:(lia))). reflexivity. Defined.

Lemma markProvisionFailed_other wf now w msg i t k :
  k <> w -> (markProvisionFailed wf now w msg i t).1 !! k = t !! k.
Proof. intros Hk. unfold markProvisionFailed. simpl. repeat case_match; auto. by rewrite lookup_insert_ne. Qed.

(** The row of a failed provision. *)
Lemma markProvisionFailed_row wf now w msg i t r :
  t !! w = Some r ->
  (markProvisionFailed wf now w msg i t).1 !! w =
  Some (if wf || bool_decide (pv_status r = "removed") then r else fail_prow msg now r).
Proof.
  intros Hr. unfold markProvisionFailed. simpl. destruct wf; [done|]. rewrite Hr. simpl.
  destruct (decide (pv_status r = "removed")) as [E|E].
  - by rewrite bool_decide_eq_false_2, bool_decide_eq_true_2 by naive_solver.
  - rewrite bool_decide_eq_true_2, bool_decide_eq_false_2 by done. by rewrite lookup_insert_eq.
Qed.

Definition persist_failure := "instance_id persist failed after retry — provider compute untracked".

(** Whatever error the control plane gives, a failed provision publishes one
    of five fixed sentences, writes the same one to the row, touches no other
    row, and leaves a removed row removed. *)
Theorem provision_failure_is_canned e secs w t t' o :
  ce_prepare e = None -> provisionWorkspaceCP e secs w t = (t', o) ->
  (forall f, co_failure o = Some f -> fe_workspace f = w /\ fe_error f ∈ persist_failure :: cpProvisionFailureReasons) /\
  (forall k, k <> w -> t' !! k = t !! k) /\
  (forall r r', t !! w = Some r -> t' !! w = Some r' ->
     (pv_status r = "removed" -> pv_status r' = "removed" /\ pv_error r' = pv_error r) /\
     (pv_error r' <> pv_error r -> exists f, co_failure o = Some f /\ pv_error r' = Some (fe_error f))).
Proof.
  intros Hp Hrun.
  assert (Hf : forall msg i m, msg ∈ persist_failure :: cpProvisionFailureReasons ->
     forall called, let '(tb, ev) := markProvisionFailed (ce_write_fails e) (ce_now e) w msg i t in
     (tb, CpOutcome called m (Some ev)) = (t', o) ->
     (forall f, co_failure o = Some f -> fe_workspace f = w /\ fe_error f ∈ persist_failure :: cpProvisionFailureReasons) /\
     (forall k, k <> w -> t' !! k = t !! k) /\
     (forall r r', t !! w = Some r -> t' !! w = Some r' ->
       (pv_status r = "removed" -> pv_status r' = "removed" /\ pv_error r' = pv_error r) /\
       (pv_error r' <> pv_error r -> exists f, co_failure o = Some f /\ pv_error r' = Some (fe_error f)))).
  { intros msg i m Hm called. pose proof (markProvisionFailed_other (ce_write_fails e) (ce_now e) w msg i t) as Ho.
    pose proof (markProvisionFailed_row (ce_write_fails e) (ce_now e) w msg i t) as Hr.
    destruct (markProvisionFailed _ _ _ _ _ _) as [tb ev] eqn:Em. simpl in *. intros [= <- <-].
    assert (Hev : ev = FailureEvent w msg i) by (unfold markProvisionFailed in Em; by injection Em).
    subst ev. split; [intros f [= <-]; auto|]. split; [exact Ho|].
    intros r r' Hw Hw'. rewrite (Hr r Hw) in Hw'. injection Hw' as <-.
    destruct (ce_write_fails e); simpl; [split; [auto|by intros []]|].
    case_bool_decide as Hrem; simpl; [split; [auto|by intros []]|]. split; [done|]. intros _. eauto. }
  unfold provisionWorkspaceCP in Hrun. rewrite Hp in Hrun. case_bool_decide as Hr.
  - eapply Hf; [|exact Hrun]. unfold ensurePinnedImageBeforeProvision in *. repeat case_match; try done. set_solver.
  - destruct (ce_start e) as [m|err].
    + destruct (persist_attempt _ _ _).
      * injection Hrun as <- <-. split; [done|]. unfold set_instance. split; [intros k Hk; by rewrite lookup_alter_ne|].
        intros r r' Hw Hw'. rewrite lookup_alter_eq, Hw in Hw'. injection Hw' as <-. simpl. split; [auto|by intros []].
      * eapply Hf; [|exact Hrun]. by left.
    + eapply Hf; [|exact Hrun]. right. apply reason_closed.
Qed.

Definition demo_env := CpEnv None EnsureReady (inr (CpError false "i-0abc in subnet-1: Pull Failed: context canceled"))
                             (fun _ => false) false 7.
Definition demo_table : ptable := {[ "w1" := ProvisionRow "provisioning" None None None 0 ]}.

Lemma provision_failure_is_canned_witness :
  exists f, co_failure (provisionWorkspaceCP demo_env 0 "w1" demo_table).2 = Some f /\
            fe_error f = provisionFailedImageUnavailable /\ fe_error f ∈ persist_failure :: cpProvisionFailureReasons.
Proof.
  destruct (provisionWorkspaceCP demo_env 0 "w1" demo_table) as [t' o] eqn:E.
  destruct (provision_failure_is_canned demo_env 0 "w1" demo_table t' o eq_refl E) as [Hf _].
  vm_compute in E. injection E as <- <-. eexists. split; [reflexivity|]. split; [reflexivity|]. apply (Hf _ eq_refl).
Defined.

(** A machine the control plane started is recorded in the row, or named in
    the failure that is published. *)
Theorem machine_is_accounted_for e secs w t t' o m :
  provisionWorkspaceCP e secs w t = (t', o) -> co_machine o = Some m -> is_Some (t !! w) ->
  (co_failure o = None /\ exists r', t' !! w = Some r' /\ pv_instance r' = Some m) \/
  (exists f, co_failure o = Some f /\ fe_instance f = Some m).
Proof.
  intros Hrun Hm [r Hr]. unfold provisionWorkspaceCP in Hrun.
  destruct (ce_prepare e); [injection Hrun as <- <-; done|]. case_bool_decide; [injection Hrun as <- <-; done|].
  destruct (ce_start e) as [m'|err]; [|injection Hrun as <- <-; done].
  destruct (persist_attempt _ _ _); injection Hrun as <- <-; simpl in *; injection Hm as ->.
  - left. split; [done|]. unfold set_instance. rewrite lookup_alter_eq, Hr. eauto.
  - right. eauto.
Qed.

Lemma machine_is_accounted_for_witness :
  let e := CpEnv None EnsureReady (inl "m1") (fun n => Nat.ltb n 3) false 7 in
  exists r', (provisionWorkspaceCP e 0 "w1" demo_table).1 !! "w1" = Some r' /\ pv_instance r' = Some "m1".
Proof.
  intros e. destruct (machine_is_accounted_for e 0 "w1" demo_table _ _ "m1" (surjective_pairing _)) as [[_ H]|[f [Hf _]]].
  - vm_compute. reflexivity.
  - vm_compute. eauto.
  - exact H.
  - vm_compute in Hf. discriminate Hf.
Defined.

(** An UPDATE of no row is no error: the machine of a workspace that was purged
    meanwhile is recorded nowhere. *)
Example purged_row_loses_the_machine :
  let e := CpEnv None EnsureReady (inl "m1") (fun _ => false) false 7 in
  provisionWorkspaceCP e 0 "w1" ∅ = (∅, CpOutcome true (Some "m1") None).
Proof. vm_compute. reflexivity. Qed.

(** ** The restart path *)

(** With a control plane a restart stops the container only after the
    control plane said over HTTP that the image is there, or that it has no such
    endpoint. *)
Theorem stop_needs_an_http_answer has_client https probes expires fails cancelled n :
  stopForRestart false true (fun k => EnsureImage true has_client (https k) (probes k)) expires fails cancelled = Some n ->
  exists k status decoded, https k = Response status true decoded /\
    ((200 <= status < 300 /\ decoded <> None) \/ status = 501 \/
     (status = 404 /\ isCPRouteFamilyLive has_client (probes k) = true)).
Proof.
  unfold stopForRestart, ensurePinnedImageBeforeStop. simpl negb. cbn iota.
  destruct (ensure_loop _ _ _ _) eqn:El; [|done]. intros _. revert El. generalize cpStopRetryAttempts at 1. generalize 1%nat.
  intros a left. revert a. induction left as [|left IH]; intros a; [done|]. cbn [ensure_loop].
  destruct (EnsureImage true has_client (https a) (probes a)) eqn:E; intros Hl.
  - exists a. unfold EnsureImage in E. simpl in E. destruct (https a) as [|status [] decoded]; try done.
    exists status, decoded. split; [done|]. repeat case_match; try done; b2p. left. split; [lia|done].
  - exists a. unfold EnsureImage in E. simpl in E. destruct (https a) as [|status [] decoded]; try done.
    exists status, decoded. split; [done|]. repeat case_match; try done; b2p; auto.
  - done.
  - repeat case_match; try done. by apply (IH (S a)).
Qed.

Lemma stop_needs_an_http_answer_witness :
  exists n, stopForRestart false true (fun k => EnsureImage true true
              (if Nat.eqb k 1 then Response 503 true None else Response 501 true None) None) (fun _ => false) (fun _ => false)
              (fun _ => false) = Some n /\
  exists k status decoded, (if Nat.eqb k 1 then Response 503 true None else Response 501 true None) = Response status true decoded /\
    ((200 <= status < 300 /\ decoded <> None) \/ status = 501 \/ (status = 404 /\ isCPRouteFamilyLive true None = true)).
Proof.
  eexists. split; [vm_compute; reflexivity|].
  apply (stop_needs_an_http_answer true (fun k => if Nat.eqb k 1 then Response 503 true None else Response 501 true None)
           (fun _ => None) (fun _ => false) (fun _ => false) (fun _ => false) 1%nat).
  vm_compute. reflexivity.
Defined.
