(* ===== verification/ProvisionSweep.v ===== *)
(** * Sweeps over provisioning and removed rows

    internal/registry/provisiontimeout.go fails workspaces that never register;
    cp_orphan_sweeper.go ends the machines of removed workspaces.  Both work on
    the rows of CpProvision.  A sweep reads its candidates once; [race] is what
    other writers do before each of its updates. *)

From S2P Require Import Prelude CpProvision.

(** ** The deadline *)

Definition DefaultProvisioningTimeout : Z := 12 * Minute.
Definition HermesProvisioningTimeout : Z := 30 * Minute.

(** [env]: PROVISION_TIMEOUT_SECONDS as [strconv.Atoi] reads it, [None] when it
    is unset or no number.  [lookup]: the template's own seconds, 0 for none;
    a nil lookup is one that always says 0. *)
Definition provisioningTimeoutFor (env : option Z) (lookup : string -> Z) (runtime : string) : Z :=
  match env with
  | Some n => if 0 <? n then seconds n
              else if 0 <? lookup runtime then seconds (lookup runtime)
              else if bool_decide (runtime = "hermes") then HermesProvisioningTimeout else DefaultProvisioningTimeout
  | None => if 0 <? lookup runtime then seconds (lookup runtime)
            else if bool_decide (runtime = "hermes") then HermesProvisioningTimeout else DefaultProvisioningTimeout
  end.

(** [int(timeout / time.Second)]. *)
Definition timeout_secs (timeout : Z) : Z := timeout `quot` Second.

(** ** sweepStuckProvisioning *)

(** [EXTRACT(EPOCH FROM (now() - updated_at))::int]: the cast rounds half away
    from zero. *)
Definition age_sec (now updated : time) : Z :=
  let d := now - updated in
  if 0 <=? d then (2 * d + Second) / (2 * Second) else - ((2 * (- d) + Second) / (2 * Second)).

Record candidate := Candidate { c_id : string; c_runtime : string; c_instance : string; c_age : Z }.

(** The rows of the SELECT. *)
Definition stuck_candidates (now : time) (t : ptable) : list candidate :=
  map (fun kr => Candidate kr.1 (default "" (pv_runtime kr.2)) (default "" (pv_instance kr.2)) (age_sec now (pv_updated kr.2)))
      (filter (fun kr => pv_status kr.2 = "provisioning") (map_to_list t)).

Definition timeout_message := "provisioning timed out — container started but never called /registry/register. Check container logs and network connectivity to the platform.".

(** The guarded UPDATE, with its row count. *)
Definition flip_stuck (now : time) (id : string) (secs : Z) (t : ptable) : ptable * Z :=
  match t !! id with
  | Some r => if bool_decide (pv_status r = "provisioning") && (pv_updated r <? now - secs * Second)
              then (<[id := fail_prow timeout_message now r]> t, 1) else (t, 0)
  | None => (t, 0)
  end.

(** One flip: the rescue capture and the broadcast that go with it. *)
Record flip := Flip { f_id : string; f_instance : string; f_secs : Z; f_runtime : string }.

Record sweep_env := SweepEnv {
  sw_query_fails : bool;
  sw_read : list candidate -> list candidate;   (* the rows that scan, before an iteration error *)
  sw_fault : string -> exec_fault;
  sw_race : string -> ptable -> ptable;
  sw_now : string -> time
}.

Section Sweep.
Context (timeout_env : option Z) (lookup : string -> Z).

Definition sweep_candidate (e : sweep_env) (c : candidate) (t : ptable) : ptable * list flip :=
  let secs := timeout_secs (provisioningTimeoutFor timeout_env lookup (c_runtime c)) in
  if c_age c <? secs then (t, [])
  else
    let t0 := sw_race e (c_id c) t in
    match sw_fault e (c_id c) with
    | ExecErr => (t0, [])
    | RowsAffectedErr => ((flip_stuck (sw_now e (c_id c)) (c_id c) secs t0).1, [])
    | ExecOk =>
        match flip_stuck (sw_now e (c_id c)) (c_id c) secs t0 with
        | (t1, 0) => (t1, [])
        | (t1, _) => (t1, [Flip (c_id c) (c_instance c) secs (c_runtime c)])
        end
    end.

Fixpoint sweep_all (e : sweep_env) (cs : list candidate) (t : ptable) : ptable * list flip :=
  match cs with
  | [] => (t, [])
  | c :: cs' => let '(t1, f1) := sweep_candidate e c t in
                let '(t2, f2) := sweep_all e cs' t1 in (t2, f1 ++ f2)
  end.

Definition sweepStuckProvisioning (e : sweep_env) (now : time) (t : ptable) : ptable * list flip :=
  if sw_query_fails e then (t, []) else sweep_all e (sw_read e (stuck_candidates now t)) t.

(** ** A quiet sweep *)

Definition quiet_sweep (now : time) : sweep_env := SweepEnv false id (fun _ => ExecOk) (fun _ t => t) (fun _ => now).

(** Past its deadline. *)
Definition overdue (now : time) (r : prow) : bool :=
  bool_decide (pv_status r = "provisioning") &&
  (timeout_secs (provisioningTimeoutFor timeout_env lookup (default "" (pv_runtime r))) * Second <? now - pv_updated r).

Lemma age_covers now r : 
  timeout_secs (provisioningTimeoutFor timeout_env lookup (default "" (pv_runtime r))) * Second < now - pv_updated r ->
  0 <= timeout_secs (provisioningTimeoutFor timeout_env lookup (default "" (pv_runtime r))) ->
  (age_sec now (pv_updated r) <? timeout_secs (provisioningTimeoutFor timeout_env lookup (default "" (pv_runtime r)))) = false.
Proof.
  intros Hd Hp. set (s := timeout_secs _) in *. apply Z.ltb_ge. unfold age_sec.
  assert (Hn : 0 <= now - pv_updated r) by (unfold Second in *; lia).
  apply Z.leb_le in Hn. rewrite Hn. apply Z.div_le_lower_bound; unfold Second in *; lia.
Qed.

(** The deadlines do not overflow. *)
Definition sane : Prop :=
  (forall n, timeout_env = Some n -> n <= 9223372036) /\ (forall r, lookup r <= 9223372036).

Lemma timeout_nonneg r : sane -> 0 < timeout_secs (provisioningTimeoutFor timeout_env lookup r).
Proof.
  intros [He Hl]. specialize (Hl r). unfold timeout_secs, provisioningTimeoutFor.
  assert (Hs : forall n, 0 < n -> n <= 9223372036 -> 0 < seconds n `quot` Second).
  { intros n Hn Hm. rewrite seconds_id by lia. rewrite Z.quot_mul by done. lia. }
  destruct timeout_env as [n|].
  - specialize (He n eq_refl). repeat case_match; b2p; auto; unfold HermesProvisioningTimeout, DefaultProvisioningTimeout; vm_compute; reflexivity.
  - repeat case_match; b2p; auto; vm_compute; reflexivity.
Qed.

Definition candidate_of (now : time) (kr : string * prow) : candidate :=
  Candidate kr.1 (default "" (pv_runtime kr.2)) (default "" (pv_instance kr.2)) (age_sec now (pv_updated kr.2)).
Definition flip_of (kr : string * prow) : flip :=
  Flip kr.1 (default "" (pv_instance kr.2))
    (timeout_secs (provisioningTimeoutFor timeout_env lookup (default "" (pv_runtime kr.2)))) (default "" (pv_runtime kr.2)).

Lemma quiet_candidate now kr t :
  sane -> t !! kr.1 = Some kr.2 -> pv_status kr.2 = "provisioning" ->
  sweep_candidate (quiet_sweep now) (candidate_of now kr) t =
  if overdue now kr.2 then (<[kr.1 := fail_prow timeout_message now kr.2]> t, [flip_of kr]) else (t, []).
Proof.
  intros Hs Hr Hp. unfold sweep_candidate, candidate_of, overdue, flip_stuck. simpl. rewrite Hr, Hp.
  pose proof (timeout_nonneg (default "" (pv_runtime kr.2)) Hs) as Hpos. pose proof (age_covers now kr.2) as Ha.
  set (secs := timeout_secs _) in *. rewrite bool_decide_eq_true_2 by done. simpl.
  destruct (secs * Second <? now - pv_updated kr.2) eqn:E.
  - b2p. rewrite Ha by lia. rewrite (proj2 (Z.ltb_lt (pv_updated kr.2) _)) by lia. done.
  - b2p. rewrite (proj2 (Z.ltb_ge (pv_updated kr.2) _)) by lia. by case_match.
Qed.

Lemma quiet_sweep_all now l t :
  sane -> NoDup l.*1 -> (forall kr, kr ∈ l -> t !! kr.1 = Some kr.2 /\ pv_status kr.2 = "provisioning") ->
  let s := sweep_all (quiet_sweep now) (map (candidate_of now) l) t in
  s.2 = map flip_of (filter (fun kr => overdue now kr.2 = true) l) /\
  forall k, s.1 !! k = (fun r => if bool_decide (k ∈ l.*1) && overdue now r then fail_prow timeout_message now r else r) <$> t !! k.
Proof.
  intros Hs. revert t. induction l as [|kr l IH]; intros t Hnd Hl.
  - simpl. split; [done|]. intros k. destruct (t !! k); done.
  - rewrite fmap_cons in Hnd. apply NoDup_cons in Hnd as [Hn Hnd]. destruct (Hl kr) as [Hr Hp]; [by left|]. cbn [map sweep_all].
    rewrite quiet_candidate by done.
    assert (Hrest : forall t1 : ptable, (forall k, k ∈ l.*1 -> t1 !! k = t !! k) -> forall kr0, kr0 ∈ l -> t1 !! kr0.1 = Some kr0.2 /\ pv_status kr0.2 = "provisioning").
    { intros t1 Ht kr0 Hin. destruct (Hl kr0) as [? ?]; [by right|]. split; [|done]. rewrite Ht; [done|]. by apply list_elem_of_fmap_2. }
    assert (Hlook : forall (t1 : ptable) k, (forall k, k ≠ kr.1 -> t1 !! k = t !! k) -> k ≠ kr.1 ->
      (fun r => if bool_decide (k ∈ l.*1) && overdue now r then fail_prow timeout_message now r else r) <$> t1 !! k =
      (fun r => if bool_decide (k ∈ (kr :: l).*1) && overdue now r then fail_prow timeout_message now r else r) <$> t !! k).
    { intros t1 k Ht Hk. rewrite Ht by done.
      assert (Heq : bool_decide (k ∈ l.*1) = bool_decide (k ∈ (kr :: l).*1)).
      { apply bool_decide_ext. rewrite fmap_cons, elem_of_cons. naive_solver. }
      by rewrite Heq. }
    destruct (overdue now kr.2) eqn:E.
    + destruct (IH (<[kr.1:=fail_prow timeout_message now kr.2]> t) Hnd) as [H1 H2].
      { apply Hrest. intros k Hk. rewrite lookup_insert_ne; [done|]. intros Heq. by subst k. }
      destruct (sweep_all _ _ _) as [t2 f2]. cbn [fst snd] in *. rewrite filter_cons, decide_True by done. split; [by rewrite H1|].
      intros k. rewrite H2. destruct (decide (k = kr.1)) as [->|Hk].
      * rewrite lookup_insert_eq, Hr, (bool_decide_eq_false_2 (kr.1 ∈ l.*1)) by done.
        rewrite (bool_decide_eq_true_2 (kr.1 ∈ (kr :: l).*1)) by (rewrite fmap_cons; by left). simpl. by rewrite E.
      * apply Hlook; [|done]. intros k' Hk'. by rewrite lookup_insert_ne.
    + destruct (IH t Hnd) as [H1 H2]; [by apply Hrest|].
      destruct (sweep_all _ _ _) as [t2 f2]. cbn [fst snd] in *. rewrite filter_cons, decide_False by congruence. split; [done|].
      intros k. rewrite H2. destruct (decide (k = kr.1)) as [->|Hk]; [|by apply Hlook].
      rewrite Hr. simpl. by rewrite E, !andb_false_r.
Qed.

(** A sweep that nothing disturbs fails exactly the workspaces that have
    been provisioning for longer than their runtime's deadline, each with one
    rescue capture and one broadcast, and leaves every other row alone. *)
Theorem sweep_fails_the_overdue now t :
  sane ->
  (sweepStuckProvisioning (quiet_sweep now) now t).1 =
    ((fun r => if overdue now r then fail_prow timeout_message now r else r) <$> t) /\
  NoDup (map f_id (sweepStuckProvisioning (quiet_sweep now) now t).2) /\
  (forall id, id ∈ map f_id (sweepStuckProvisioning (quiet_sweep now) now t).2 <->
              exists r, t !! id = Some r /\ overdue now r = true).
Proof.
  intros Hs. unfold sweepStuckProvisioning. simpl. unfold stuck_candidates. fold (candidate_of now).
  set (l := filter (fun kr => pv_status kr.2 = "provisioning") (map_to_list t)).
  assert (Hl : forall kr, kr ∈ l <-> t !! kr.1 = Some kr.2 /\ pv_status kr.2 = "provisioning").
  { intros [k r]. unfold l. rewrite list_elem_of_filter, elem_of_map_to_list. simpl. tauto. }
  assert (Hnd : NoDup l.*1).
  { apply (sublist_NoDup _ (map_to_list t).*1); [apply NoDup_fst_map_to_list|]. apply fmap_sublist, filter_is_sublist. }
  change (fun kr : string * prow => _) with (candidate_of now).
  destruct (quiet_sweep_all now l t Hs Hnd) as [H2 H1]; [intros kr; apply Hl|]. rewrite H2. split; [|split].
  - apply map_eq. intros k. rewrite H1, lookup_fmap. destruct (t !! k) as [r|] eqn:E; [|done]. simpl. f_equal.
    destruct (overdue now r) eqn:Eo; [|by rewrite andb_false_r]. rewrite bool_decide_eq_true_2; [done|].
    unfold overdue in Eo. b2p. change k with (k, r).1. apply list_elem_of_fmap_2, Hl. done.
  - rewrite map_map. simpl. apply (sublist_NoDup _ l.*1); [done|]. apply fmap_sublist, filter_is_sublist.
  - intros id. rewrite map_map. simpl. rewrite list_elem_of_fmap. split.
    + intros ([k r] & -> & Hin). apply list_elem_of_filter in Hin as [Ho Hin]. apply Hl in Hin as [? _]. eauto.
    + intros (r & Hr & Ho). exists (id, r). split; [done|]. apply list_elem_of_filter. split; [done|]. apply Hl.
      unfold overdue in Ho. b2p. done.
Qed.

(** Whatever other writers do meanwhile, a sweep only announces the failure
    of a row that was still provisioning and past its deadline when its own
    update reached it. *)
Theorem announced_flip_was_due e c t t' fs f :
  sweep_candidate e c t = (t', fs) -> f ∈ fs ->
  fs = [f] /\ f_id f = c_id c /\
  exists r, sw_race e (c_id c) t !! c_id c = Some r /\ pv_status r = "provisioning" /\
            pv_updated r < sw_now e (c_id c) - f_secs f * Second /\
            t' = <[c_id c := fail_prow timeout_message (sw_now e (c_id c)) r]> (sw_race e (c_id c) t).
Proof.
  assert (Hnil : f ∉ ([] : list flip)) by apply not_elem_of_nil.
  unfold sweep_candidate. intros Hs Hf. destruct (c_age c <? _); [by simplify_eq|].
  destruct (sw_fault e (c_id c)); simplify_eq; try done.
  unfold flip_stuck in Hs. destruct (sw_race e (c_id c) t !! c_id c) as [r|] eqn:Er; [|by simplify_eq].
  destruct (bool_decide (pv_status r = "provisioning") && _) eqn:Eg; [|by simplify_eq]. injection Hs as <- <-.
  apply list_elem_of_singleton in Hf as ->. b2p. split; [done|]. split; [done|]. exists r. simpl. auto.
Qed.

End Sweep.

Definition demo_rows : ptable :=
  {[ "w1" := ProvisionRow "provisioning" (Some "claude-code") (Some "i1") None 0;
     "w2" := ProvisionRow "provisioning" (Some "hermes") None None 0;
     "w3" := ProvisionRow "online" None None None 0 ]}.

Lemma demo_sane : sane None (fun _ => 0).
Proof. split; [done|]. intros _. lia. Qed.

Lemma sweep_fails_the_overdue_witness :
  map f_id (sweepStuckProvisioning None (fun _ => 0) (quiet_sweep (13 * Minute)) (13 * Minute) demo_rows).2 = ["w1"] /\
  forall id, id ∈ ["w1"] <-> exists r, demo_rows !! id = Some r /\ overdue None (fun _ => 0) (13 * Minute) r = true.
Proof.
  split; [vm_compute; reflexivity|].
  exact (proj2 (proj2 (sweep_fails_the_overdue None (fun _ => 0) (13 * Minute) demo_rows demo_sane))).
Defined.

Definition demo_candidate := Candidate "w1" "claude-code" "i1" 780.

Lemma announced_flip_was_due_witness :
  exists r, demo_rows !! "w1" = Some r /\ pv_updated r < 13 * Minute - 720 * Second.
Proof.
  destruct (announced_flip_was_due None (fun _ => 0) (quiet_sweep (13 * Minute)) demo_candidate demo_rows _ _
              (Flip "w1" "i1" 720 "claude-code") (surjective_pairing _)) as (_ & _ & r & Hr & _ & Hu & _).
  - vm_compute. by left.
  - exists r. split; [exact Hr|exact Hu].
Defined.

(** A timeout of more than 292 years' worth of seconds overflows to a negative
    one, and every provisioning workspace is overdue. *)
Example huge_timeout_is_negative : provisioningTimeoutFor (Some 9223372037) (fun _ => 0) "codex" < 0.
Proof. vm_compute. reflexivity. Qed.

(** ** cpSweepOnce (cp_orphan_sweeper.go) *)

Definition cpSweepLimit : nat := 100.

(** Removed, with an instance that nobody has ended. *)
Definition cp_orphan (kr : string * prow) : bool :=
  bool_decide (pv_status kr.2 = "removed") && some_and (pv_instance kr.2) (fun i => negb (bool_decide (i = ""))).

(** [ORDER BY updated_at DESC LIMIT 100]. *)
Definition cp_orphans (t : ptable) : list string :=
  map fst (take cpSweepLimit (sort_by (fun kr => - pv_updated kr.2) (filter (fun kr => cp_orphan kr = true) (map_to_list t)))).

Definition clear_instance (now : time) (id : string) (t : ptable) : ptable :=
  alter (fun r => ProvisionRow (pv_status r) (pv_runtime r) None (pv_error r) now) id t.

(** The table and the workspaces whose Stop was called; [cut]: the iteration of
    the rows fails. *)
Fixpoint cp_sweep_all (stop_fails clear_fails : string -> bool) (now : time) (ids : list string) (t : ptable)
    : ptable * list string :=
  match ids with
  | [] => (t, [])
  | id :: ids' =>
      let t1 := if stop_fails id || clear_fails id then t else clear_instance now id t in
      let '(t2, stopped) := cp_sweep_all stop_fails clear_fails now ids' t1 in (t2, id :: stopped)
  end.

Definition cpSweepOnce (query_fails cut : bool) (stop_fails clear_fails : string -> bool) (now : time) (t : ptable)
    : ptable * list string :=
  if query_fails || cut then (t, []) else cp_sweep_all stop_fails clear_fails now (cp_orphans t) t.

Definition backlog (t : ptable) : nat := size (filter (fun kr => cp_orphan kr = true) t).

Lemma cp_orphans_spec t id :
  id ∈ cp_orphans t -> exists r, t !! id = Some r /\ cp_orphan (id, r) = true.
Proof.
  unfold cp_orphans. intros Hin. apply list_elem_of_fmap in Hin as ([k r] & -> & Hin).
  apply elem_of_take in Hin as (i & Hi & _). apply list_elem_of_lookup_2 in Hi. rewrite sort_by_perm in Hi.
  apply list_elem_of_filter in Hi as [Ho Hi]. apply elem_of_map_to_list in Hi. eauto.
Qed.

Lemma cp_orphans_NoDup t : NoDup (cp_orphans t).
Proof.
  unfold cp_orphans. change (map fst ?l) with (l.*1). rewrite fmap_take. eapply sublist_NoDup; [|apply sublist_take].
  rewrite sort_by_perm. apply (sublist_NoDup _ (map_to_list t).*1); [apply NoDup_fst_map_to_list|].
  apply fmap_sublist, filter_is_sublist.
Qed.

Lemma backlog_list t : backlog t = length (filter (fun kr => cp_orphan kr = true) (map_to_list t)).
Proof.
  unfold backlog. rewrite <- length_map_to_list. symmetry. apply Permutation_length.
  induction t as [|k r t Hk IH] using map_ind; [done|].
  rewrite map_to_list_insert by done. rewrite filter_cons. case_decide as Ho.
  - rewrite map_filter_insert_True by done. rewrite map_to_list_insert by (apply map_lookup_filter_None; auto). by rewrite IH.
  - rewrite map_filter_insert_False by done. by rewrite delete_id.
Qed.

Lemma cp_orphans_length t : length (cp_orphans t) = Nat.min cpSweepLimit (backlog t).
Proof. unfold cp_orphans. rewrite length_map, length_take, sort_by_perm. by rewrite backlog_list. Qed.

Lemma clear_backlog now id r t :
  t !! id = Some r -> cp_orphan (id, r) = true -> backlog (clear_instance now id t) = pred (backlog t).
Proof.
  intros Hr Ho. unfold backlog.
  assert (Hf : filter (fun kr => cp_orphan kr = true) (clear_instance now id t) =
               delete id (filter (fun kr => cp_orphan kr = true) t)).
  { apply map_eq. intros k. apply option_eq. intros r'. rewrite lookup_delete_Some, !map_lookup_filter_Some.
    unfold clear_instance. destruct (decide (id = k)) as [<-|Hne].
    - rewrite lookup_alter_eq, Hr. simpl. split; [|by intros []]. intros [[= <-] Hx].
      unfold cp_orphan in Hx. simpl in Hx. by rewrite andb_false_r in Hx.
    - rewrite lookup_alter_ne by done. naive_solver. }
  rewrite Hf. apply map_size_delete_Some. exists r. by apply map_lookup_filter_Some.
Qed.

Lemma clear_instance_ne now id k t : k <> id -> clear_instance now id t !! k = t !! k.
Proof. intros Hk. unfold clear_instance. by rewrite lookup_alter_ne. Qed.

(** A pass over [ids] that fails nowhere. *)
Lemma cp_sweep_all_ok now ids t :
  NoDup ids -> (forall id, id ∈ ids -> exists r, t !! id = Some r /\ cp_orphan (id, r) = true) ->
  let s := cp_sweep_all (fun _ => false) (fun _ => false) now ids t in
  s.2 = ids /\ backlog s.1 = (backlog t - length ids)%nat.
Proof.
  revert t. induction ids as [|id ids IH]; intros t Hnd Hin; [simpl; split; [done|lia]|].
  apply NoDup_cons in Hnd as [Hn Hnd]. destruct (Hin id) as (r & Hr & Ho); [by left|]. cbn [cp_sweep_all orb].
  destruct (IH (clear_instance now id t) Hnd) as [H2 H1].
  { intros id' Hid'. rewrite clear_instance_ne by (by intros ->). apply Hin. by right. }
  destruct (cp_sweep_all _ _ _ _ _) as [t2 stopped]. simpl in *. split; [by rewrite H2|].
  rewrite H1, (clear_backlog now id r t) by done. lia.
Qed.

Fixpoint sweeps (n : nat) (now : time) (t : ptable) : ptable :=
  match n with O => t | S n' => sweeps n' now (cpSweepOnce false false (fun _ => false) (fun _ => false) now t).1 end.

(** Once the control plane and the database answer, every pass of the orphan
    sweeper ends the machines of a hundred removed workspaces, so that as many
    passes as there are hundreds leave none. *)
Theorem orphans_drain now n t :
  backlog (sweeps n now t) = (backlog t - n * cpSweepLimit)%nat.
Proof.
  revert t. induction n as [|n IH]; intros t; cbn [sweeps]; [lia|]. rewrite IH. unfold cpSweepOnce. simpl orb. cbn iota.
  destruct (cp_sweep_all_ok now (cp_orphans t) t (cp_orphans_NoDup t)) as [_ H1]; [intros id; apply cp_orphans_spec|].
  rewrite H1, cp_orphans_length. unfold cpSweepLimit. lia.
Qed.

(** Whatever fails, the sweeper calls Stop only for removed workspaces with
    an instance, and forgets an instance only when its Stop worked. *)
Theorem orphan_sweep_is_safe qf cut stop_fails clear_fails now t :
  let s := cpSweepOnce qf cut stop_fails clear_fails now t in
  (forall id, id ∈ s.2 -> exists r, t !! id = Some r /\ cp_orphan (id, r) = true) /\
  (forall id r, t !! id = Some r -> s.1 !! id = Some r \/
     (id ∈ s.2 /\ stop_fails id = false /\
      s.1 !! id = Some (ProvisionRow (pv_status r) (pv_runtime r) None (pv_error r) now))).
Proof.
  intros s. subst s. unfold cpSweepOnce. destruct (qf || cut); [simpl; split; [by intros id ?%elem_of_nil|auto]|].
  assert (Hall : forall ids t, NoDup ids ->
    (cp_sweep_all stop_fails clear_fails now ids t).2 = ids /\
    (forall id r, t !! id = Some r -> (cp_sweep_all stop_fails clear_fails now ids t).1 !! id = Some r \/
       (id ∈ ids /\ stop_fails id = false /\ (cp_sweep_all stop_fails clear_fails now ids t).1 !! id =
          Some (ProvisionRow (pv_status r) (pv_runtime r) None (pv_error r) now))) /\
    (forall id, id ∉ ids -> (cp_sweep_all stop_fails clear_fails now ids t).1 !! id = t !! id)).
  { clear. induction ids as [|i ids IH]; intros t Hnd; [simpl; auto|].
    apply NoDup_cons in Hnd as [Hn Hnd]. cbn [cp_sweep_all]. set (t1 := if stop_fails i || clear_fails i then t else _).
    destruct (IH t1 Hnd) as (H2 & H1 & H0). destruct (cp_sweep_all _ _ _ _ _) as [t2 stopped]. simpl in *.
    assert (Hne : forall k, k <> i -> t1 !! k = t !! k).
    { intros k Hk. subst t1. case_match; [done|]. by apply clear_instance_ne. }
    split; [by rewrite H2|]. split.
    - intros id r Hr. destruct (decide (id = i)) as [->|Hk].
      + rewrite (H0 i Hn). subst t1. destruct (stop_fails i) eqn:Es; simpl; [by left|]. destruct (clear_fails i); [by left|].
        right. split; [by left|]. split; [done|]. unfold clear_instance. by rewrite lookup_alter_eq, Hr.
      + destruct (H1 id r) as [?|(? & ? & ?)]; [by rewrite Hne|by left|]. right. split; [by right|]. done.
    - intros id Hid. apply not_elem_of_cons in Hid as [? ?]. rewrite H0 by done. by apply Hne. }
  destruct (Hall (cp_orphans t) t (cp_orphans_NoDup t)) as (H2 & H1 & _). rewrite H2. split; [apply cp_orphans_spec|exact H1].
Qed.

(** As long as the newest hundred cannot be stopped the sweeper does nothing:
    a failed Stop leaves [updated_at], and the order with it. *)
Lemma stuck_newest_starve query_fails cut stop_fails clear_fails now t :
  (forall id, id ∈ cp_orphans t -> stop_fails id = true) ->
  (cpSweepOnce query_fails cut stop_fails clear_fails now t).1 = t.
Proof.
  unfold cpSweepOnce. case_match; [done|]. generalize (cp_orphans t). clear. intros ids. revert t.
  induction ids as [|i ids IH]; intros t Hf; [done|]. cbn [cp_sweep_all].
  rewrite (Hf i) by (by left). simpl. specialize (IH t (fun id Hid => Hf id (list_elem_of_further _ _ _ Hid))).
  by destruct (cp_sweep_all _ _ _ _ _).
Qed.
