(* ===== verification/Tokens.v ===== *)
(** * Workspace tokens

    internal/wsauth/tokens.go and internal/handlers/tokens.go: opaque bearer
    tokens of which the database keeps the SHA-256.  The functions are the statements they run on the tables
    workspace_auth_tokens and workspaces; the random plaintext and the drawn id
    are arguments. *)

From S2P Require Import Prelude Tree RateLimit.

Record token_row := TokenRow {
  tk_workspace : string;
  tk_hash : string;
  tk_prefix : string;
  tk_kind : string;                        (* instance or api *)
  tk_created : time;
  tk_last_used : option time;
  tk_revoked : option time
}.

(** The tokens by id, and the status of each workspace. *)
Record token_db := TokenDb { td_tokens : gmap string token_row; td_status : gmap string string }.

Definition set_tokens (t : gmap string token_row) (db : token_db) : token_db := TokenDb t (td_status db).
Definition set_last_used (now : time) (r : token_row) : token_row :=
  TokenRow (tk_workspace r) (tk_hash r) (tk_prefix r) (tk_kind r) (tk_created r) (Some now) (tk_revoked r).
Definition set_revoked (now : time) (r : token_row) : token_row :=
  TokenRow (tk_workspace r) (tk_hash r) (tk_prefix r) (tk_kind r) (tk_created r) (tk_last_used r) (Some now).

Definition tokenPrefixLen : nat := 8.

Section Tokens.
Context `{UuidCast}.
(** The SHA-256 of a text. *)
Context (sha256 : string -> string).

(** ** Issue *)

(** The INSERT: the workspace exists, the id and the hash are new. *)
Definition insert_token (fails : bool) (gen : string) (now : time) (workspaceID hash prefix kind : string) (db : token_db)
    : option token_db :=
  match fails, canon workspaceID with
  | false, Some ws =>
      match td_status db !! ws, td_tokens db !! gen with
      | Some _, None =>
          if existsb (fun kr => bool_decide (tk_hash kr.2 = hash)) (map_to_list (td_tokens db)) then None
          else Some (set_tokens (<[gen := TokenRow ws hash prefix kind now None None]> (td_tokens db)) db)
      | _, _ => None
      end
  | _, _ => None
  end.

(** [plaintext]: the encoded random bytes, [None] when the generator errors. *)
Definition issueTokenKind (fails : bool) (plaintext : option string) (gen : string) (now : time) (workspaceID kind : string)
    (db : token_db) : token_db * option string :=
  match plaintext with
  | None => (db, None)
  | Some p =>
      match insert_token fails gen now workspaceID (sha256 p) (str_take tokenPrefixLen p) kind db with
      | Some db' => (db', Some p)
      | None => (db, None)
      end
  end.
Definition IssueToken (fails : bool) (plaintext : option string) (gen : string) (now : time) (workspaceID : string)
    (db : token_db) : token_db * option string :=
  issueTokenKind fails plaintext gen now workspaceID "instance" db.
Definition IssueAPIToken (fails : bool) (plaintext : option string) (gen : string) (now : time) (workspaceID : string)
    (db : token_db) : token_db * option string :=
  issueTokenKind fails plaintext gen now workspaceID "api" db.

(** ** Validate *)

Definition live (r : token_row) : bool := bool_decide (tk_revoked r = None).
Definition in_use (db : token_db) (ws : string) : bool :=
  match td_status db !! ws with Some st => bool_decide (st <> "removed") | None => false end.

(** [None] is ErrInvalidToken. *)
Definition lookupTokenByHash (fails : bool) (hash : string) (db : token_db) : option (string * string) :=
  if fails then None
  else match head (filter (fun kr => (bool_decide (tk_hash kr.2 = hash) && live kr.2 && in_use db (tk_workspace kr.2)) = true)
                     (map_to_list (td_tokens db))) with
       | Some (id, r) => Some (id, tk_workspace r)
       | None => None
       end.

Definition bump (fails : bool) (now : time) (id : string) (db : token_db) : token_db :=
  if fails then db else set_tokens (alter (set_last_used now) id (td_tokens db)) db.

Definition ValidateToken (fails bump_fails : bool) (now : time) (expectedWorkspaceID plaintext : string) (db : token_db)
    : token_db * bool :=
  if bool_decide (plaintext = "") || bool_decide (expectedWorkspaceID = "") then (db, false)
  else match lookupTokenByHash fails (sha256 plaintext) db with
       | None => (db, false)
       | Some (id, ws) => if bool_decide (ws <> expectedWorkspaceID) then (db, false) else (bump bump_fails now id db, true)
       end.

Definition WorkspaceFromToken (fails : bool) (plaintext : string) (db : token_db) : option string :=
  if decide (plaintext = "") then None else snd <$> lookupTokenByHash fails (sha256 plaintext) db.

Definition ValidateAnyToken (fails bump_fails : bool) (now : time) (plaintext : string) (db : token_db) : token_db * bool :=
  if decide (plaintext = "") then (db, false)
  else match lookupTokenByHash fails (sha256 plaintext) db with
       | None => (db, false)
       | Some (id, _) => (bump bump_fails now id db, true)
       end.

(** ** Revoke *)

Definition revoke_where (p : token_row -> bool) (now : time) (db : token_db) : token_db :=
  set_tokens ((fun r => if live r && p r then set_revoked now r else r) <$> td_tokens db) db.

(** The second component: no error. *)
Definition RevokeAllForWorkspace (fails : bool) (now : time) (workspaceID : string) (db : token_db) : token_db * bool :=
  match fails, canon workspaceID with
  | false, Some ws => (revoke_where (fun r => bool_decide (tk_workspace r = ws)) now db, true)
  | _, _ => (db, false)
  end.
Definition RevokeInstanceTokensForWorkspace (fails : bool) (now : time) (workspaceID : string) (db : token_db)
    : token_db * bool :=
  match fails, canon workspaceID with
  | false, Some ws =>
      (revoke_where (fun r => bool_decide (tk_workspace r = ws) && bool_decide (tk_kind r = "instance")) now db, true)
  | _, _ => (db, false)
  end.

(** ** Queries; [None] is an error *)

Definition count_tokens (p : token_row -> bool) (db : token_db) : nat :=
  length (filter (fun kr => p kr.2 = true) (map_to_list (td_tokens db))).

Definition WorkspaceExists (fails : bool) (workspaceID : string) (db : token_db) : option bool :=
  match fails, canon workspaceID with
  | false, Some ws => Some (bool_decide (is_Some (td_status db !! ws)))
  | _, _ => None
  end.
Definition HasLiveInstanceToken (fails : bool) (workspaceID : string) (db : token_db) : option bool :=
  match fails, canon workspaceID with
  | false, Some ws =>
      Some (Nat.ltb 0 (count_tokens (fun r => bool_decide (tk_workspace r = ws) && live r && bool_decide (tk_kind r = "instance")) db))
  | _, _ => None
  end.
Definition HasAnyLiveToken (fails : bool) (workspaceID : string) (db : token_db) : option bool :=
  match fails, canon workspaceID with
  | false, Some ws => Some (Nat.ltb 0 (count_tokens (fun r => bool_decide (tk_workspace r = ws) && live r) db))
  | _, _ => None
  end.
Definition HasAnyLiveTokenGlobal (fails : bool) (db : token_db) : option bool :=
  if fails then None else Some (Nat.ltb 0 (count_tokens live db)).

(** ** The token routes of a workspace *)

Definition maxTokensPerWorkspace : nat := 50.

Inductive create_reply := BadWorkspaceID | TooManyTokens | CreateFailed | Created (plaintext : string).

(** [count_fails]: the COUNT errors; its error is not looked at and the count
    stays 0. *)
Definition Create (count_fails fails : bool) (plaintext : option string) (gen : string) (now : time) (workspaceID : string)
    (db : token_db) : token_db * create_reply :=
  match canon workspaceID with
  | None => (db, BadWorkspaceID)
  | Some ws =>
      let count := if count_fails then 0%nat
                   else count_tokens (fun r => bool_decide (tk_workspace r = ws) && live r) db in
      if (maxTokensPerWorkspace <=? count)%nat then (db, TooManyTokens)
      else match IssueAPIToken fails plaintext gen now workspaceID db with
           | (db', Some p) => (db', Created p)
           | (db', None) => (db', CreateFailed)
           end
  end.

Inductive revoke_reply := RevokeBadID | RevokeFailed | TokenNotFound | Revoked.

(** The id is compared as a uuid too. *)
Definition Revoke (f : exec_fault) (now : time) (workspaceID tokenID : string) (db : token_db) : token_db * revoke_reply :=
  match canon workspaceID with
  | None => (db, RevokeBadID)
  | Some ws =>
      match f, canon tokenID with
      | ExecErr, _ | _, None => (db, RevokeFailed)
      | _, Some id =>
          let hit := match td_tokens db !! id with
                     | Some r => bool_decide (tk_workspace r = ws) && live r
                     | None => false
                     end in
          let db' := if hit then set_tokens (alter (set_revoked now) id (td_tokens db)) db else db in
          match f with
          | RowsAffectedErr => (db', RevokeFailed)
          | _ => (db', if hit then Revoked else TokenNotFound)
          end
      end
  end.

End Tokens.

Definition BearerTokenFromHeader (h : string) : string :=
  if has_prefix h "Bearer " then TrimSpace (str_drop 7 h) else "".
