(* ===== verification/TokensSafety.v ===== *)
(** * What a workspace token opens

    Over any sequence of the statements of Tokens and of writes of the
    workspaces table: an accepted token was issued for the workspace it opens
    and nothing has revoked it since; provisioning a workspace takes its
    instance tokens and no others. *)

From stdpp Require Import pretty.
From S2P Require Import Prelude Tree Tokens.

Section TokensSafety.
Context `{UuidCast}.
Context (sha256 : string -> string).

(** ** Histories *)

Inductive event :=
| EvIssue (fails : bool) (plaintext : option string) (gen : string) (now : time) (workspaceID kind : string)
| EvCreate (count_fails fails : bool) (plaintext : option string) (gen : string) (now : time) (workspaceID : string)
| EvUse (fails bump_fails : bool) (now : time) (expected plaintext : string)
| EvUseAny (fails bump_fails : bool) (now : time) (plaintext : string)
| EvRevoke (f : exec_fault) (now : time) (workspaceID tokenID : string)
| EvRevokeAll (fails : bool) (now : time) (workspaceID : string)
| EvRevokeInstance (fails : bool) (now : time) (workspaceID : string)
| EvStatus (ws st : string)                (* a workspace is created or its status written *)
| EvPurge (ws : string).                   (* its row is deleted, and the tokens with it *)

Definition purge (ws : string) (db : token_db) : token_db :=
  TokenDb (filter (fun kr => tk_workspace kr.2 <> ws) (td_tokens db)) (delete ws (td_status db)).

Definition apply_event (ev : event) (db : token_db) : token_db :=
  match ev with
  | EvIssue f p g now w k => (issueTokenKind sha256 f p g now w k db).1
  | EvCreate cf f p g now w => (Create sha256 cf f p g now w db).1
  | EvUse f bf now e p => (ValidateToken sha256 f bf now e p db).1
  | EvUseAny f bf now p => (ValidateAnyToken sha256 f bf now p db).1
  | EvRevoke f now w i => (Revoke f now w i db).1
  | EvRevokeAll f now w => (RevokeAllForWorkspace f now w db).1
  | EvRevokeInstance f now w => (RevokeInstanceTokensForWorkspace f now w db).1
  | EvStatus w st => TokenDb (td_tokens db) (<[w := st]> (td_status db))
  | EvPurge w => purge w db
  end.

Definition history (evs : list event) : token_db := foldl (fun db ev => apply_event ev db) (TokenDb ∅ ∅) evs.

(** The event hands out plaintext [p] for the workspace, as row [id]. *)
Definition issues (ev : event) (id ws kind p : string) : Prop :=
  match ev with
  | EvIssue _ op g _ w k => op = Some p /\ g = id /\ canon w = Some ws /\ k = kind
  | EvCreate _ _ op g _ w => op = Some p /\ g = id /\ canon w = Some ws /\ kind = "api"
  | _ => False
  end.

(** The event is meant to end the token. *)
Definition ends (ev : event) (id ws kind : string) : Prop :=
  match ev with
  | EvRevoke f _ w i => f <> ExecErr /\ canon w = Some ws /\ canon i = Some id
  | EvRevokeAll f _ w => f = false /\ canon w = Some ws
  | EvRevokeInstance f _ w => f = false /\ canon w = Some ws /\ kind = "instance"
  | EvPurge w => w = ws
  | _ => False
  end.

(** ** Single rows *)

Definition unique_hashes (db : token_db) : Prop :=
  forall i j r s, td_tokens db !! i = Some r -> td_tokens db !! j = Some s -> tk_hash r = tk_hash s -> i = j.

(** The row [p] opens [ws] with. *)
Definition opens (db : token_db) (p ws id : string) (r : token_row) : Prop :=
  td_tokens db !! id = Some r /\ tk_hash r = sha256 p /\ tk_revoked r = None /\ tk_workspace r = ws /\ in_use db ws = true.

Lemma lookup_opens p id ws db :
  lookupTokenByHash false (sha256 p) db = Some (id, ws) -> exists r, opens db p ws id r.
Proof.
  unfold lookupTokenByHash. destruct (head _) as [[i r]|] eqn:Hh; [|done]. intros [= -> <-].
  apply head_Some_elem_of in Hh. apply list_elem_of_filter in Hh as [Hp Hin]. apply elem_of_map_to_list in Hin.
  b2p. simpl in *. exists r. unfold opens, live in *. b2p. auto.
Qed.

Lemma opens_lookup p id ws r db :
  unique_hashes db -> opens db p ws id r -> lookupTokenByHash false (sha256 p) db = Some (id, ws).
Proof.
  intros Hu (Hid & Hh & Hr & Hw & Hin). unfold lookupTokenByHash.
  destruct (head _) as [[i s]|] eqn:Hhd.
  - apply head_Some_elem_of in Hhd. apply list_elem_of_filter in Hhd as [Hp Hi]. apply elem_of_map_to_list in Hi.
    b2p. simpl in *. assert (i = id) as -> by (eapply Hu; eauto; congruence). congruence.
  - exfalso. apply head_None in Hhd.
    assert ((id, r) ∈ filter (fun kr : string * token_row =>
      (bool_decide (tk_hash kr.2 = sha256 p) && live kr.2 && in_use db (tk_workspace kr.2)) = true) (map_to_list (td_tokens db)))
      as Hel.
    { apply list_elem_of_filter. split; [|by apply elem_of_map_to_list]. unfold live. subst ws. simpl.
      rewrite Hin, !bool_decide_eq_true_2 by done. done. }
    rewrite Hhd in Hel. by apply elem_of_nil in Hel.
Qed.

Lemma ValidateToken_opens f bf now e p db :
  (ValidateToken sha256 f bf now e p db).2 = true -> p <> "" /\ e <> "" /\ exists id r, opens db p e id r.
Proof.
  unfold ValidateToken. destruct (_ || _) eqn:Hne; [done|]. b2p.
  destruct (lookupTokenByHash f _ db) as [[id ws]|] eqn:Hl; [|done]. case_bool_decide as Hw; [done|]. intros _.
  destruct f; [done|]. apply lookup_opens in Hl as [r Hr].
  destruct (decide (ws = e)) as [->|]; [|by destruct Hw]. eauto.
Qed.

Lemma opens_ValidateToken bf now e p id r db :
  unique_hashes db -> p <> "" -> e <> "" -> opens db p e id r -> (ValidateToken sha256 false bf now e p db).2 = true.
Proof.
  intros Hu Hp He Ho. unfold ValidateToken. rewrite !bool_decide_eq_false_2 by done. cbn [orb].
  rewrite (opens_lookup _ _ _ _ _ Hu Ho). by rewrite bool_decide_eq_false_2 by auto.
Qed.

(** ** What one event does to a row *)

Definition same_token (r s : token_row) : Prop :=
  tk_workspace r = tk_workspace s /\ tk_kind r = tk_kind s /\ tk_hash r = tk_hash s.

(** [r] comes from a row of [db], and was live there if it is. *)
Definition descends (db : token_db) (id : string) (r : token_row) : Prop :=
  exists r0, td_tokens db !! id = Some r0 /\ same_token r0 r /\ (tk_revoked r = None -> tk_revoked r0 = None).

Lemma descends_refl db id r : td_tokens db !! id = Some r -> descends db id r.
Proof. intros Hr. exists r. by repeat split. Qed.

Lemma alter_descends (f : token_row -> token_row) i db id r :
  (forall s, same_token s (f s) /\ (tk_revoked (f s) = None -> tk_revoked s = None)) ->
  td_tokens (set_tokens (alter f i (td_tokens db)) db) !! id = Some r -> descends db id r.
Proof.
  intros Hf Hr. simpl in Hr. apply lookup_alter_Some in Hr as [(-> & s & Hs & ->)|[_ Hr]].
  - exists s. destruct (Hf s) as [Hf1 Hf2]. by split_and!.
  - by apply descends_refl.
Qed.

Lemma bump_descends f now i db id r : td_tokens (bump f now i db) !! id = Some r -> descends db id r.
Proof. unfold bump. destruct f; [apply descends_refl|]. apply alter_descends. intros s. by repeat split. Qed.

Lemma revoke_where_row p now db id r :
  td_tokens (revoke_where p now db) !! id = Some r ->
  exists r0, td_tokens db !! id = Some r0 /\ same_token r0 r /\
    r = (if live r0 && p r0 then set_revoked now r0 else r0).
Proof.
  unfold revoke_where. simpl. rewrite lookup_fmap. intros (r0 & -> & ->)%fmap_Some. exists r0.
  split; [done|]. split; [|done]. by destruct (live r0 && p r0).
Qed.

Lemma revoke_where_descends p now db id r :
  td_tokens (revoke_where p now db) !! id = Some r ->
  descends db id r /\
  (tk_revoked r = None -> exists r0, td_tokens db !! id = Some r0 /\ same_token r0 r /\ p r0 = false).
Proof.
  intros (r0 & Hr0 & Hs & ->)%revoke_where_row. unfold live in *. case_bool_decide as Hn; simpl.
  - destruct (p r0) eqn:Hp; simpl in *; [by split; [exists r0; by split_and!|]|].
    split; [exists r0|intros _; exists r0]; by split_and!.
  - split; [exists r0; by split_and!|done].
Qed.

Definition fresh_hash (db : token_db) (r : token_row) : Prop :=
  forall j s, td_tokens db !! j = Some s -> tk_hash s <> tk_hash r.

Lemma issue_rows f op g now w k db id r :
  td_tokens (issueTokenKind sha256 f op g now w k db).1 !! id = Some r ->
  td_tokens db !! id = Some r \/
  td_tokens db !! id = None /\ fresh_hash db r /\ g = id /\ canon w = Some (tk_workspace r) /\ tk_kind r = k /\
  exists p, op = Some p /\ sha256 p = tk_hash r.
Proof.
  unfold issueTokenKind, insert_token. destruct op as [p|]; [|auto]. destruct f; [auto|].
  destruct (canon w) as [ws|] eqn:Hw; [|auto]. destruct (td_status db !! ws); [|auto].
  destruct (td_tokens db !! g) eqn:Hg; [auto|]. destruct (existsb _ _) eqn:Hf; [auto|]. simpl.
  intros [(-> & <-)|[_ Hr]]%lookup_insert_Some; [|auto]. right.
  split; [done|]. split; [|simpl; eauto 10]. intros j q Hq Hh.
  apply not_true_iff_false in Hf. apply Hf, existsb_exists. exists (j, q). simpl in Hh.
  by rewrite <- list_elem_of_In, elem_of_map_to_list, bool_decide_eq_true.
Qed.

Lemma Revoke_rows f now w i db id r :
  td_tokens (Revoke f now w i db).1 !! id = Some r ->
  descends db id r /\
  (tk_revoked r = None -> ~ (f <> ExecErr /\ canon w = Some (tk_workspace r) /\ canon i = Some id)).
Proof.
  unfold Revoke. destruct (canon w) as [ws|]; [|split; [by apply descends_refl|naive_solver]].
  destruct (canon i) as [c|]; [|destruct f; (split; [by apply descends_refl|naive_solver])].
  set (hit := match td_tokens db !! c with Some _ => _ | None => _ end).
  assert (td_tokens (if hit then set_tokens (alter (set_revoked now) c (td_tokens db)) db else db) !! id = Some r ->
    descends db id r /\ (tk_revoked r = None -> ~ (ws = tk_workspace r /\ c = id))) as Hh.
  { intros Hr. destruct hit eqn:Hhit; subst hit.
    - split; [revert Hr; apply alter_descends; intros q; by repeat split|]. intros Hn [-> ->].
      simpl in Hr. rewrite lookup_alter_eq in Hr. by apply fmap_Some in Hr as (q & _ & ->).
    - split; [by apply descends_refl|]. intros Hn [-> ->]. rewrite Hr in Hhit. unfold live in Hhit.
      by rewrite !bool_decide_eq_true_2 in Hhit. }
  destruct f; intros Hr; [|split; [by apply descends_refl|naive_solver]|];
    (destruct (Hh Hr) as [Hd Hk]; split; [done|naive_solver]).
Qed.

(** Every row is new, or was there before and is not ended. *)
Lemma apply_event_rows ev db id r :
  td_tokens (apply_event ev db) !! id = Some r ->
  (td_tokens db !! id = None /\ fresh_hash db r /\ exists p, issues ev id (tk_workspace r) (tk_kind r) p /\ sha256 p = tk_hash r) \/
  (descends db id r /\ (tk_revoked r = None -> ~ ends ev id (tk_workspace r) (tk_kind r))).
Proof.
  intros Hrow. revert Hrow. destruct ev as [f op g now w k|cf f op g now w|f bf now e p|f bf now p|f now w i|f now w|f now w|w st|w]; simpl.
  - intros [Hr|(Hn & Hf & -> & Hw & <- & p & -> & Hp)]%issue_rows; [right; split; [by apply descends_refl|auto]|].
    left. split; [done|]. split; [done|]. exists p. auto.
  - unfold Create. destruct (canon w) as [ws|] eqn:Hw; [|right; split; [by apply descends_refl|auto]].
    destruct (_ <=? _)%nat; [right; split; [by apply descends_refl|auto]|]. unfold IssueAPIToken.
    pose proof (issue_rows f op g now w "api" db id r) as Hi.
    destruct (issueTokenKind sha256 f op g now w "api" db) as [db' [q|]]; simpl in *; intros Hr;
      (destruct (Hi Hr) as [Hold|(Hn & Hf & -> & Hw' & <- & p & -> & Hp)]; [right; split; [by apply descends_refl|auto]|]);
      left; (split; [done|]); (split; [done|]); exists p; rewrite Hw in *; auto.
  - intros Hrow. right. split; [|auto]. revert Hrow. unfold ValidateToken.
    destruct (_ || _); [apply descends_refl|]. destruct (lookupTokenByHash _ _ _) as [[j v]|]; [|apply descends_refl].
    case_bool_decide; [apply descends_refl|apply bump_descends].
  - intros Hrow. right. split; [|auto]. revert Hrow. unfold ValidateAnyToken.
    case_decide; [apply descends_refl|]. destruct (lookupTokenByHash _ _ _) as [[j v]|]; [|apply descends_refl].
    apply bump_descends.
  - intros Hrow. right. by apply (Revoke_rows f now w i).
  - intros Hrow. right. revert Hrow. unfold RevokeAllForWorkspace. destruct f, (canon w) as [ws|] eqn:Hw; simpl;
      try (split; [by apply descends_refl|naive_solver]).
    intros Hr. pose proof Hr as (Hd & Hk)%revoke_where_descends. split; [done|]. intros Hn (_ & [= ->]).
    destruct (Hk Hn) as (r0 & _ & (Hw0 & _) & Hp). b2p. congruence.
  - intros Hrow. right. revert Hrow. unfold RevokeInstanceTokensForWorkspace. destruct f, (canon w) as [ws|] eqn:Hw; simpl;
      try (split; [by apply descends_refl|naive_solver]).
    intros Hr. pose proof Hr as (Hd & Hk)%revoke_where_descends. split; [done|]. intros Hn (_ & [= ->] & Hi).
    destruct (Hk Hn) as (r0 & _ & (Hw0 & Hk0 & _) & Hp).
    rewrite !bool_decide_eq_true_2 in Hp by congruence. done.
  - intros Hrow. right. split; [by apply descends_refl|auto].
  - intros Hrow. right. simpl in *. apply map_lookup_filter_Some in Hrow as [Hr Hw]. split; [by apply descends_refl|]. simpl in Hw. naive_solver.
Qed.
(** ** Whole histories *)

Definition explained (evs : list event) (db : token_db) : Prop :=
  forall id r, td_tokens db !! id = Some r ->
  exists pre ev post p, evs = pre ++ ev :: post /\ issues ev id (tk_workspace r) (tk_kind r) p /\ sha256 p = tk_hash r /\
    (tk_revoked r = None -> Forall (fun e => ~ ends e id (tk_workspace r) (tk_kind r)) post).

Lemma history_snoc evs ev : history (evs ++ [ev]) = apply_event ev (history evs).
Proof. unfold history. by rewrite foldl_app. Qed.

Lemma history_explained evs : explained evs (history evs).
Proof.
  induction evs as [|ev evs IH] using rev_ind; [intros id r [=]|].
  rewrite history_snoc. intros id r [(_ & _ & p & Hi & Hp)|[(r0 & Hr0 & (Hw & Hk & Hh) & Hl) He]]%apply_event_rows.
  - exists evs, ev, [], p. split_and!; auto.
  - destruct (IH _ _ Hr0) as (pre & ev0 & post & p & -> & Hi & Hp & Hf). rewrite Hw, Hk in *.
    exists pre, ev0, (post ++ [ev]), p. rewrite <- app_assoc. split_and!; [done..|congruence|].
    intros Hn. apply Forall_app. auto.
Qed.

(** C8: an accepted bearer was handed out for the workspace it opens - the text
    of that issue has the same SHA-256 - nothing that is meant to end the token
    has happened since, and the workspace is not removed. *)
Theorem accepted_token_was_issued evs f bf now expected p :
  (ValidateToken sha256 f bf now expected p (history evs)).2 = true ->
  exists pre ev post id kind p',
    evs = pre ++ ev :: post /\ issues ev id expected kind p' /\ sha256 p' = sha256 p /\
    Forall (fun e => ~ ends e id expected kind) post /\
    exists st, td_status (history evs) !! expected = Some st /\ st <> "removed".
Proof.
  intros (_ & _ & id & r & Hr & Hh & Hn & Hw & Hin)%ValidateToken_opens.
  destruct (history_explained evs _ _ Hr) as (pre & ev & post & p' & -> & Hi & Hp & Hf).
  exists pre, ev, post, id, (tk_kind r), p'. rewrite Hw in *. split_and!; [done|done|congruence|auto|].
  unfold in_use in Hin. destruct (td_status _ !! expected) as [st|]; [|done]. exists st. by b2p.
Qed.

(** ** Unique hashes *)

Lemma issues_one ev i j w k p w' k' p' : issues ev i w k p -> issues ev j w' k' p' -> i = j.
Proof. destruct ev; simpl; naive_solver. Qed.

Lemma apply_event_unique ev db : unique_hashes db -> unique_hashes (apply_event ev db).
Proof.
  intros Hu i j r s [(_ & Hfi & p & Hi & _)|[(r0 & Hr0 & (_ & _ & Hr) & _) _]]%apply_event_rows
    [(_ & Hfj & q & Hj & _)|[(s0 & Hs0 & (_ & _ & Hs) & _) _]]%apply_event_rows Hh.
  - by eapply issues_one.
  - destruct (Hfi _ _ Hs0). congruence.
  - destruct (Hfj _ _ Hr0). congruence.
  - eapply Hu; [done..|congruence].
Qed.

Lemma history_unique evs : unique_hashes (history evs).
Proof.
  induction evs as [|ev evs IH] using rev_ind; [intros ? ? ? ? [=]|].
  rewrite history_snoc. by apply apply_event_unique.
Qed.

(** ** Revoking *)

Lemma opens_revoke_where pr now db p ws id r :
  opens (revoke_where pr now db) p ws id r <-> opens db p ws id r /\ pr r = false.
Proof.
  unfold opens, in_use. split.
  - intros (Hr & Hh & Hn & Hw & Hin). apply revoke_where_row in Hr as (r0 & Hr0 & _ & ->).
    destruct (live r0 && pr r0) eqn:Hc; [done|]. unfold live in Hc. rewrite bool_decide_eq_true_2 in Hc by done.
    by split_and!.
  - intros ((Hr & Hh & Hn & Hw & Hin) & Hp). split_and!; try done. unfold revoke_where. simpl.
    rewrite lookup_fmap, Hr. simpl. by rewrite Hp, andb_false_r.
Qed.

Lemma revoke_where_unique pr now db : unique_hashes db -> unique_hashes (revoke_where pr now db).
Proof.
  intros Hu i j r s (r0 & Hr0 & (_ & _ & Hr) & _)%revoke_where_row (s0 & Hs0 & (_ & _ & Hs) & _)%revoke_where_row Hh.
  eapply Hu; [done..|congruence].
Qed.

Lemma count_revoked pr q now db :
  (forall r, q r = true -> live r = true /\ pr r = true) -> (forall r, q (set_revoked now r) = false) ->
  count_tokens q (revoke_where pr now db) = 0%nat.
Proof.
  intros Hq Hs. unfold count_tokens. rewrite length_zero_iff_nil. apply elem_of_nil_inv. intros [i r].
  intros [Hqr Hin]%list_elem_of_filter. apply elem_of_map_to_list in Hin. simpl in Hqr.
  apply revoke_where_row in Hin as (r0 & _ & _ & ->). destruct (live r0 && pr r0) eqn:Hc; [by rewrite Hs in Hqr|].
  destruct (Hq _ Hqr) as [H1 H2]. by rewrite H1, H2 in Hc.
Qed.

(** revoking the instance tokens of a workspace, as provisioning does,
    leaves it without a live instance token and takes exactly those: a bearer
    is accepted afterwards iff it was before and is not an instance token of
    that workspace. *)
Theorem provisioning_keeps_api_tokens evs now w db' bf1 bf2 now1 now2 :
  RevokeInstanceTokensForWorkspace false now w (history evs) = (db', true) ->
  HasLiveInstanceToken false w db' = Some false /\
  forall expected p,
    (ValidateToken sha256 false bf1 now1 expected p db').2 = true <->
    (ValidateToken sha256 false bf2 now2 expected p (history evs)).2 = true /\
    forall id r, td_tokens (history evs) !! id = Some r -> tk_hash r = sha256 p ->
      canon w = Some (tk_workspace r) -> tk_kind r <> "instance".
Proof.
  unfold RevokeInstanceTokensForWorkspace, HasLiveInstanceToken. destruct (canon w) as [ws|]; [|done]. intros [= <-].
  pose proof (history_unique evs) as Hu. split.
  - rewrite count_revoked; [done| |]; intros r.
    + intros Hq. b2p. split; [done|]. by rewrite !bool_decide_eq_true_2.
    + unfold live. simpl. by rewrite andb_false_r.
  - intros expected p. split.
    + intros (Hp & He & id & r & (Ho & Hk)%opens_revoke_where)%ValidateToken_opens.
      split; [by eapply opens_ValidateToken|]. intros i s Hs Hh [= ->] Hi.
      destruct Ho as (Hr & Hhr & _). assert (i = id) as -> by (eapply Hu; [done..|congruence]).
      rewrite !bool_decide_eq_true_2 in Hk by congruence. done.
    + intros [(Hp & He & id & r & Ho)%ValidateToken_opens Hk].
      eapply opens_ValidateToken; [by apply revoke_where_unique|done..|]. apply opens_revoke_where. split; [exact Ho|].
      destruct Ho as (Hr & Hh & _). apply andb_false_iff. destruct (decide (tk_workspace r = ws)) as [Hws|Hw].
      * right. apply bool_decide_eq_false. apply (Hk id); congruence.
      * left. by apply bool_decide_eq_false.
Qed.
End TokensSafety.

(** ** A workspace's life *)

Module TokensDemo.
#[local] Existing Instance plain_cast.

(** A hash that is the text, a workspace that registers, mints a token for its
    user, and is provisioned again. *)
Definition sha (p : string) : string := p.
Definition life : list event :=
  [ EvStatus "w1" "online"; EvStatus "w2" "online";
    EvIssue false (Some "instance-secret") "t1" 10 "w1" "instance";
    EvCreate false false (Some "api-secret-text") "t2" 20 "w1";
    EvUse false false 30 "w1" "instance-secret" ].

Example users :
  ((ValidateToken sha false false 40 "w1" "api-secret-text" (history sha life)).2,
   (ValidateToken sha false false 40 "w2" "api-secret-text" (history sha life)).2,
   (ValidateToken sha false false 40 "w1" "api-secret-text" (history sha (life ++ [EvRevoke ExecOk 35 "w1" "t2"]))).2,
   (ValidateToken sha false false 40 "w1" "api-secret-text" (history sha (life ++ [EvStatus "w1" "removed"]))).2)
  = (true, false, false, false).
Proof. vm_compute. reflexivity. Qed.

Lemma accepted_token_was_issued_witness :
  (ValidateToken sha false false 40 "w1" "instance-secret" (history sha life)).2 = true /\
  exists pre ev post id kind p',
    life = pre ++ ev :: post /\ issues ev id "w1" kind p' /\ sha p' = sha "instance-secret" /\
    Forall (fun e => ~ ends e id "w1" kind) post /\
    exists st, td_status (history sha life) !! "w1" = Some st /\ st <> "removed".
Proof.
  assert ((ValidateToken sha false false 40 "w1" "instance-secret" (history sha life)).2 = true) as Ho
    by (vm_compute; reflexivity).
  split; [exact Ho|]. exact (accepted_token_was_issued sha _ _ _ _ _ _ Ho).
Defined.

Definition reprovisioned : token_db := (RevokeInstanceTokensForWorkspace false 50 "w1" (history sha life)).1.

Lemma provisioning_keeps_api_tokens_witness :
  HasLiveInstanceToken false "w1" reprovisioned = Some false /\
  (ValidateToken sha false false 60 "w1" "api-secret-text" reprovisioned).2 = true /\
  (ValidateToken sha false false 60 "w1" "instance-secret" reprovisioned).2 = false.
Proof.
  assert (RevokeInstanceTokensForWorkspace false 50 "w1" (history sha life) = (reprovisioned, true)) as Hrev
    by (vm_compute; reflexivity).
  destruct (provisioning_keeps_api_tokens sha life 50 "w1" reprovisioned false false 60 40 Hrev) as [Hl _].
  split; [exact Hl|]. split; vm_compute; reflexivity.
Defined.

(** The limit of fifty is not enforced when the count cannot be read. *)
Definition fifty : list event :=
  EvStatus "w1" "online" ::
  map (fun n => EvCreate false false (Some (pretty n)) (pretty n) 20 "w1") (seq 0 50).
Example limit_fails_open :
  ((Create sha false false (Some "one-more") "t" 30 "w1" (history sha fifty)).2,
   (Create sha true false (Some "one-more") "t" 30 "w1" (history sha fifty)).2) = (TooManyTokens, Created "one-more").
Proof. vm_compute. reflexivity. Qed.
End TokensDemo.
