(* ===== verification/VolumeMigrate.v ===== *)
(** * Moving a volume to its full name

    resolveConfigVolumeName, resolveClaudeSessionVolumeName and
    migrateVolumeIfNeeded of internal/provisioner/provisioner.go: a volume that
    still has the twelve-character name is copied to the full one by a
    short-lived container.  The daemon's volumes are a map from names to files. *)

From S2P Require Import Prelude StartGuard.

Abbreviation files := (gmap string string).
Abbreviation volumes := (gmap string files).

(** How the copy container ends.  One that fails may have copied a part. *)
Inductive copy_end := Copied | CopyFailed (partly : files) | WaitFailed (partly : files).

Record daemon_answers := Answers {
  a_sees_legacy : bool;                    (* VolumeInspect finds what is there *)
  a_sees_new : bool;
  a_create : bool;                         (* VolumeCreate works *)
  a_container : bool;                      (* ContainerCreate and ContainerStart work *)
  a_copy : copy_end;
  a_remove : bool                          (* VolumeRemove works *)
}.

Definition exists_volume (sees : bool) (n : string) (vols : volumes) : bool := sees && bool_decide (is_Some (vols !! n)).

(** [cp -a] into the volume [n]. *)
Definition copy_into (n : string) (fs : files) (vols : volumes) : volumes := <[n := fs ∪ default ∅ (vols !! n)]> vols.

(** The volumes afterwards; [false]: an error, which the callers log. *)
Definition migrateVolumeIfNeeded (e : daemon_answers) (newName legacyName : string) (vols : volumes) : volumes * bool :=
  if negb (exists_volume (a_sees_legacy e) legacyName vols) then (vols, true)
  else if exists_volume (a_sees_new e) newName vols then (vols, true)
  else if negb (a_create e) then (vols, false)
  else
    let vols1 := match vols !! newName with Some _ => vols | None => <[newName := ∅]> vols end in
    if negb (a_container e) then (vols1, false)
    else
      let legacy := default ∅ (vols1 !! legacyName) in
      match a_copy e with
      | CopyFailed fs | WaitFailed fs => (copy_into newName fs vols1, false)
      | Copied =>
          let vols2 := copy_into newName legacy vols1 in
          if decide (default ∅ (vols2 !! newName) = ∅) then (vols2, false)     (* the trailing test *)
          else (if a_remove e then delete legacyName vols2 else vols2, true)
      end.

Definition resolveConfigVolumeName (e : daemon_answers) (workspaceID : string) (vols : volumes) : volumes * string :=
  ((migrateVolumeIfNeeded e (ConfigVolumeName workspaceID) (legacyConfigVolumeName workspaceID) vols).1, ConfigVolumeName workspaceID).
Definition resolveClaudeSessionVolumeName (e : daemon_answers) (workspaceID : string) (vols : volumes) : volumes * string :=
  ((migrateVolumeIfNeeded e (ClaudeSessionVolumeName workspaceID) (legacyClaudeSessionVolumeName workspaceID) vols).1,
   ClaudeSessionVolumeName workspaceID).

Definition migrations (es : list daemon_answers) (newName legacyName : string) (vols : volumes) : volumes :=
  foldl (fun vols e => (migrateVolumeIfNeeded e newName legacyName vols).1) vols es.

(** ** What a migration does *)

Section Migrate.
Context (newName legacyName : string) (Hne : newName <> legacyName).

Lemma copy_keeps_legacy fs vols : copy_into newName fs vols !! legacyName = vols !! legacyName.
Proof. unfold copy_into. by rewrite lookup_insert_ne. Qed.

(** The files that were under the old name are there still, or all of them are
    under the new one. *)
Definition holds (fs : files) (vols : volumes) : Prop :=
  vols !! legacyName = Some fs \/ (vols !! legacyName = None /\ exists gs, vols !! newName = Some gs /\ fs ⊆ gs).

Lemma migrate_holds e fs vols : holds fs vols -> holds fs (migrateVolumeIfNeeded e newName legacyName vols).1.
Proof.
  intros Hh. unfold migrateVolumeIfNeeded, exists_volume. destruct (a_sees_legacy e && _) eqn:Hl; [|done]. simpl. b2p.
  assert (vols !! legacyName = Some fs) as Hfs by (destruct Hh as [|[Hn _]]; [done|rewrite Hn in *; by destruct H0]).
  destruct (a_sees_new e && _); [done|]. destruct (negb (a_create e)); [done|].
  assert (exists gs, match vols !! newName with Some _ => vols | None => <[newName := ∅]> vols end = <[newName := gs]> vols)
    as [gs ->] by (destruct (vols !! newName) as [g|] eqn:Hg; [exists g; by rewrite insert_id|by exists ∅]).
  assert (<[newName := gs]> vols !! legacyName = Some fs) as Hfs1 by (by rewrite lookup_insert_ne).
  destruct (negb (a_container e)); [by left|].
  destruct (a_copy e); cbn [fst]; [|left; by rewrite copy_keeps_legacy..].
  rewrite Hfs1. cbn [default from_option id]. case_decide; cbn [fst]; [left; by rewrite copy_keeps_legacy|].
  destruct (a_remove e); cbn [fst]; [|left; by rewrite copy_keeps_legacy].
  right. rewrite lookup_delete_eq. split; [done|]. rewrite lookup_delete_ne by done. unfold copy_into.
  rewrite lookup_insert_eq. eexists. split; [done|]. apply map_union_subseteq_l.
Qed.

(** no sequence of migrations, whatever fails, loses the files of the old
    volume: they stay under the old name until all of them are under the new. *)
Theorem migrations_keep_the_files es fs vols :
  vols !! legacyName = Some fs -> holds fs (migrations es newName legacyName vols).
Proof.
  intros Hfs. assert (holds fs vols) as Hh by (by left). clear Hfs. unfold migrations.
  revert vols Hh. induction es as [|e es IH]; intros vols Hh; simpl; [done|]. by apply IH, migrate_holds.
Qed.

(** A migration that fails once is not tried again: the new volume exists from
    then on, and the workspace keeps what the copy left in it. *)
Lemma failed_copy_is_not_retried e es partly fs vols :
  vols !! legacyName = Some fs -> vols !! newName = None ->
  a_sees_legacy e = true -> a_create e = true -> a_container e = true -> a_copy e = CopyFailed partly ->
  Forall (fun e => a_sees_new e = true) es ->
  (migrateVolumeIfNeeded e newName legacyName vols).2 = false /\
  migrations (e :: es) newName legacyName vols !! newName = Some partly /\
  migrations (e :: es) newName legacyName vols !! legacyName = Some fs.
Proof.
  intros Hfs Hn Hl Hc Hk Hcp Hes. unfold migrations. simpl.
  assert (migrateVolumeIfNeeded e newName legacyName vols = (copy_into newName partly (<[newName := ∅]> vols), false)) as Hm.
  { unfold migrateVolumeIfNeeded, exists_volume. rewrite Hfs, Hn, Hl, Hc, Hk, Hcp.
    rewrite bool_decide_eq_true_2, bool_decide_eq_false_2, andb_false_r by (try apply is_Some_None; eauto). done. }
  rewrite Hm. simpl. split; [done|].
  assert (forall v, v !! newName = Some partly -> v !! legacyName = Some fs ->
    foldl (fun vols e => (migrateVolumeIfNeeded e newName legacyName vols).1) v es = v) as Hfix.
  { clear Hm. intros v Hv Hv'. induction Hes as [|e' es' He' _ IH]; [done|]. simpl.
    assert ((migrateVolumeIfNeeded e' newName legacyName v).1 = v) as ->; [|done].
    unfold migrateVolumeIfNeeded, exists_volume. rewrite Hv, He'. destruct (negb _); [done|].
    by rewrite (bool_decide_eq_true_2 (is_Some (Some partly))) by eauto. }
  assert (copy_into newName partly (<[newName := ∅]> vols) !! newName = Some partly) as H1.
  { unfold copy_into. rewrite !lookup_insert_eq. simpl. by rewrite map_union_empty. }
  assert (copy_into newName partly (<[newName := ∅]> vols) !! legacyName = Some fs) as H2.
  { by rewrite copy_keeps_legacy, lookup_insert_ne. }
  by rewrite Hfix.
Qed.
End Migrate.

(** ** A workspace of the older generation *)

Module MigrateDemo.
Definition w := "0a1b2c3d-0000-4".
Definition old : volumes := {[ legacyConfigVolumeName w := {[ "config.yaml" := "name: a"; ".auth_token" := "t" ]} ]}.
Definition fine : daemon_answers := Answers true true true true Copied true.
Definition full_disk : daemon_answers := Answers true true true true (CopyFailed ∅) true.

Example moved :
  bool_decide (resolveConfigVolumeName fine w old =
    ({[ ConfigVolumeName w := {[ "config.yaml" := "name: a"; ".auth_token" := "t" ]} ]}, ConfigVolumeName w)) = true.
Proof. vm_compute. reflexivity. Qed.

(** After one failed copy the workspace starts on an empty volume for good. *)
Example starts_empty :
  migrations [full_disk; fine; fine] (ConfigVolumeName w) (legacyConfigVolumeName w) old !! ConfigVolumeName w = Some ∅.
Proof. vm_compute. reflexivity. Qed.

Lemma migrations_keep_the_files_witness :
  holds (ConfigVolumeName w) (legacyConfigVolumeName w) {[ "config.yaml" := "name: a"; ".auth_token" := "t" ]}
    (migrations [full_disk; fine] (ConfigVolumeName w) (legacyConfigVolumeName w) old).
Proof.
  apply migrations_keep_the_files; [vm_compute; discriminate|vm_compute; reflexivity].
Defined.
End MigrateDemo.
