(* ===== verification/ContainerNames.v ===== *)
(** * From a container's name to its workspace

    internal/provisioner/brand_seam.go, the two list methods of provisioner.go
    and isLikelyWorkspaceID of internal/registry/orphan_sweeper.go: what the
    sweeps read from the names on the daemon, as the prefix of a workspace id
    that goes into a LIKE pattern.  The brand tokens come from a package outside
    the repository and are the argument [brands]; the daemon's answer is the
    list of the names of each container. *)

From Stdlib Require Import Ascii.
From S2P Require Import Prelude RateLimit StartGuard.

Definition containerNamePrefix := "ws-".
Definition wsInfix := "-ws-".

Definition workspaceNamePrefixesFor (brands : list string) : list string :=
  containerNamePrefix :: map (fun b => b +:+ wsInfix) brands.

(** ** The dashes of a uuid *)

Definition uuidDashOffsets : list nat := [8; 12; 16; 20]%nat.

(** The loop from [prev] over the offsets that are left, and the rest. *)
Fixpoint dash_from (offs : list nat) (prev : nat) (short : string) : string :=
  match offs with
  | [] => str_drop prev short
  | off :: offs' =>
      if (String.length short <=? off)%nat then str_drop prev short
      else str_drop prev (str_take off short) +:+ ("-" +:+ dash_from offs' off short)
  end.

Definition dashedUUIDPrefix (short : string) : string :=
  if (String.length short <=? 8)%nat || str_contains short "-" then short else dash_from uuidDashOffsets 0 short.

(** ** Parsing *)

(** [s[strings.LastIndex(s, "-")+1:]], all of [s] when it has no dash. *)
Fixpoint after_last_dash (s : string) : string :=
  match s with
  | "" => ""
  | String a s' => if str_contains s' "-" then after_last_dash s' else if decide (a = "-"%char) then s' else s
  end.

Definition trim_slash (s : string) : string := if has_prefix s "/" then str_drop 1 s else s.

(** The first brand whose prefix the name has decides. *)
Fixpoint parse_branded (n : string) (brands : list string) : option (option string) :=
  match brands with
  | [] => None
  | b :: brands' =>
      let p := b +:+ wsInfix in
      if has_prefix n p then
        let body := str_drop (String.length p) n in
        let short := after_last_dash body in
        Some (if decide (body = "") then None else if decide (short = "") then None else Some (dashedUUIDPrefix short))
      else parse_branded n brands'
  end.

Definition parseWorkspaceContainerIDIn (name : string) (brands : list string) : option string :=
  let n := trim_slash (TrimSpace name) in
  match parse_branded n brands with
  | Some r => r
  | None =>
      if has_prefix n containerNamePrefix then
        let id := str_drop (String.length containerNamePrefix) n in
        if decide (id = "") then None else Some id
      else None
  end.

(** ** The lists *)

(** The first name that parses, of each container. *)
Definition ids_of (brands : list string) (listed : list (list string)) : list string :=
  omap (fun names => head (omap (fun name => parseWorkspaceContainerIDIn name brands) names)) listed.

Record listed_container := Listed { l_names : list string; l_labels : gmap string string }.

Definition LabelManaged := "molecule.platform.managed".
Definition LabelInstance := "molecule.platform.instance".

(** [wired]: there is a daemon; [all] is what it lists, [None] when it errors.
    Its name filter keeps the containers one of whose names contains the text. *)
Definition ListWorkspaceContainerIDPrefixes (wired : bool) (brands : list string) (all : option (list listed_container))
    : option (list string) :=
  if negb wired then Some []
  else (fun cs => ids_of brands (map l_names (filter (fun c => existsb (fun n => str_contains n containerNamePrefix) (l_names c) = true) cs)))
         <$> all.

Definition ours (instance : string) (c : listed_container) : bool :=
  bool_decide (l_labels c !! LabelManaged = Some "true") && bool_decide (l_labels c !! LabelInstance = Some instance).
Definition ListManagedContainerIDPrefixes (wired : bool) (brands : list string) (instance : string)
    (all : option (list listed_container)) : option (list string) :=
  if negb wired then Some []
  else (fun cs => ids_of brands (map l_names (filter (fun c => ours instance c = true) cs))) <$> all.

(** PlatformInstanceID from the value of DATABASE_URL; [sha256_hex] is the hash in hex. *)
Definition PlatformInstanceID (sha256_hex : string -> string) (dsn : string) : string :=
  if decide (dsn = "") then "default" else str_take 16 (sha256_hex dsn).

Definition likely_char (a : ascii) : bool :=
  let n := nat_of_ascii a in
  ((48 <=? n) && (n <=? 57) || (97 <=? n) && (n <=? 102) || (65 <=? n) && (n <=? 70) || (n =? 45))%nat.
Fixpoint all_chars (p : ascii -> bool) (s : string) : bool :=
  match s with "" => true | String a s' => p a && all_chars p s' end.
Definition isLikelyWorkspaceID (s : string) : bool := negb (bool_decide (s = "")) && all_chars likely_char s.

(** ** LIKE *)

(** SQL's [s LIKE p] on one-byte characters: a percent sign matches any run, an
    underscore any character, and a backslash quotes the next one. *)
Fixpoint sql_like (p s : string) : bool :=
  match p with
  | "" => bool_decide (s = "")
  | String c p' =>
      if decide (c = "%"%char) then
        (fix any (s : string) : bool := sql_like p' s || match s with "" => false | String _ s' => any s' end) s
      else if decide (c = "\"%char) then
        match p', s with
        | String e p'', String a s' => bool_decide (a = e) && sql_like p'' s'
        | _, _ => false
        end
      else match s with
           | "" => false
           | String a s' => (bool_decide (c = "_"%char) || bool_decide (a = c)) && sql_like p' s'
           end
  end.

(** ** Lemmas *)

Lemma all_chars_app p s t : all_chars p (s +:+ t) = all_chars p s && all_chars p t.
Proof. induction s as [|a s IH]; [done|]. rewrite str_app_cons. simpl. by rewrite IH, andb_assoc. Qed.

Lemma all_chars_drop p n s : all_chars p s = true -> all_chars p (str_drop n s) = true.
Proof. revert s. induction n as [|n IH]; intros [|a s]; simpl; auto. intros H. b2p. auto. Qed.

Lemma all_chars_take p n s : all_chars p s = true -> all_chars p (str_take n s) = true.
Proof. revert s. induction n as [|n IH]; intros [|a s]; simpl; auto. intros H. b2p. apply andb_true_iff. auto. Qed.

Lemma all_chars_mono (p q : ascii -> bool) s :
  (forall a, p a = true -> q a = true) -> all_chars p s = true -> all_chars q s = true.
Proof. intros Hpq. induction s as [|a s IH]; simpl; [done|]. intros H. b2p. apply andb_true_iff. auto. Qed.

Lemma all_chars_get p s n a : all_chars p s = true -> String.get n s = Some a -> p a = true.
Proof. revert n. induction s as [|b s IH]; intros [|n]; simpl; try done; intros H; b2p; [naive_solver|eauto]. Qed.

(** What Docker allows in a container name, and the slash in front. *)
Definition name_char (a : ascii) : bool :=
  let n := nat_of_ascii a in
  ((48 <=? n) && (n <=? 57) || (97 <=? n) && (n <=? 122) || (65 <=? n) && (n <=? 90) || (n =? 95) || (45 <=? n) && (n <=? 47))%nat.

Lemma likely_name a : likely_char a = true -> name_char a = true.
Proof.
  unfold likely_char, name_char. rewrite !orb_true_iff, !andb_true_iff, !Nat.leb_le, !Nat.eqb_eq. lia.
Qed.

Lemma no_name_space sp : sp ∈ spaces -> all_chars name_char sp = false.
Proof.
  intros Hsp. assert (forallb (fun sp => negb (all_chars name_char sp)) spaces = true) as Hall by (vm_compute; reflexivity).
  rewrite forallb_forall in Hall. apply negb_true_iff, Hall. by apply list_elem_of_In.
Qed.

Lemma fold_none {A B} (p : A -> bool) (f : A -> B) l :
  (forall x, x ∈ l -> p x = false) -> foldr (fun x r => if p x then Some (f x) else r) None l = None.
Proof. induction l as [|x l IH]; intros Hp; simpl; [done|]. rewrite Hp by set_solver. apply IH. set_solver. Qed.

Lemma TrimSpace_name s : all_chars name_char s = true -> TrimSpace s = s.
Proof.
  intros Hs. unfold TrimSpace.
  assert (cut_space s = None) as Hl.
  { unfold cut_space. apply fold_none. intros sp Hsp%no_name_space. apply not_true_iff_false. intros Hp%has_prefix_split.
    rewrite Hp, all_chars_app, Hsp in Hs. done. }
  assert (cut_last_space s = None) as Hr.
  { unfold cut_last_space. pose proof no_name_space as Hn. induction spaces as [|sp l IH]; simpl; [done|].
    rewrite decide_False; [apply IH; set_solver|]. intros [_ Hd]. specialize (Hn sp ltac:(set_solver)).
    rewrite <- Hd, all_chars_drop in Hn by done. done. }
  assert (forall n, trim_left n s = s) as -> by (intros [|n]; simpl; [done|]; by rewrite Hl).
  destruct (String.length s); simpl; [done|]. by rewrite Hr.
Qed.

(** *** The last dash *)

Lemma contains_dash_app x y : str_contains (x +:+ String "-" y) "-" = true.
Proof. induction x as [|a x IH]; [by destruct y|]. rewrite str_app_cons. simpl. rewrite IH. apply orb_true_r. Qed.

Lemma after_last_dash_none s : str_contains s "-" = false -> after_last_dash s = s.
Proof.
  destruct s as [|a s]; [done|]. simpl. intros H. apply orb_false_iff in H as [Ha Hs]. rewrite Hs.
  destruct (decide (a = "-"%char)) as [->|]; [|done]. rewrite decide_True in Ha by done. by destruct s.
Qed.

Lemma after_last_dash_app x y : after_last_dash (x +:+ String "-" y) = after_last_dash y.
Proof.
  induction x as [|a x IH].
  - rewrite str_app_nil. cbn [after_last_dash]. destruct (str_contains y "-") eqn:Hy; [done|].
    rewrite decide_True by done. by rewrite after_last_dash_none.
  - rewrite str_app_cons. cbn [after_last_dash]. by rewrite contains_dash_app.
Qed.

Lemma after_last_dash_end q y : after_last_dash ((q +:+ "-") +:+ y) = after_last_dash y.
Proof. rewrite <- str_app_assoc, str_app_cons, str_app_nil. apply after_last_dash_app. Qed.

Lemma after_last_dash_brand b y : after_last_dash ((b +:+ wsInfix) +:+ y) = after_last_dash y.
Proof. change wsInfix with ("-ws" +:+ "-"). rewrite str_app_assoc. apply after_last_dash_end. Qed.

(** A name under some brand gives its last run, whichever brand is tried. *)
Lemma parse_branded_some n brands b :
  b ∈ brands -> has_prefix n (b +:+ wsInfix) = true -> after_last_dash n <> "" ->
  parse_branded n brands = Some (Some (dashedUUIDPrefix (after_last_dash n))).
Proof.
  intros Hb Hp Hs. induction brands as [|b' brands IH]; [by apply elem_of_nil in Hb|]. simpl.
  destruct (has_prefix n (b' +:+ wsInfix)) eqn:Hp'.
  - apply has_prefix_split in Hp'. set (body := str_drop _ n) in *.
    assert (after_last_dash n = after_last_dash body) as Hl.
    { rewrite Hp'. apply after_last_dash_brand. }
    rewrite Hl in *. destruct (decide (body = "")) as [->|]; [done|]. by rewrite decide_False.
  - apply IH. apply elem_of_cons in Hb as [->|Hb]; [by rewrite Hp in Hp'|done].
Qed.

(** No brand claims the names this package mints. *)
Lemma parse_branded_plain id brands :
  all_chars likely_char id = true -> parse_branded (ContainerName id) brands = None.
Proof.
  intros Hid. induction brands as [|b brands IH]; [done|]. cbn [parse_branded].
  destruct (has_prefix (ContainerName id) (b +:+ wsInfix)) eqn:Hp; [exfalso|exact IH]. apply has_prefix_split in Hp.
  assert (String.get (S (String.length b)) (ContainerName id) = Some "w"%char) as Hw.
  { rewrite Hp, <- str_app_assoc, get_app_ge by lia.
    by replace (S (String.length b) - String.length b)%nat with 1%nat by lia. }
  unfold ContainerName in Hw. rewrite !str_app_cons, str_app_nil in Hw.
  destruct (String.length b) as [|[|n]]; simpl in Hw; [done|done|].
  apply (all_chars_get likely_char) in Hw; done.
Qed.

(** *** LIKE on the patterns the sweeps build *)

Lemma likely_plain a : likely_char a = true -> a <> "%"%char /\ a <> "\"%char /\ a <> "_"%char.
Proof. intros Ha. split_and!; intros ->; done. Qed.

Lemma sql_like_any s : sql_like "%" s = true.
Proof. simpl. induction s as [|a s IH]; [done|]. by rewrite IH, orb_true_r. Qed.

Lemma sql_like_prefix p s : all_chars likely_char p = true -> sql_like (p +:+ "%") s = has_prefix s p.
Proof.
  revert s. induction p as [|c p IH]; intros s Hp.
  - rewrite str_app_nil, sql_like_any. by destruct s.
  - rewrite str_app_cons. cbn [all_chars] in Hp. apply andb_true_iff in Hp as [Hc Hp].
    apply likely_plain in Hc as (H1 & H2 & H3). cbn [sql_like].
    rewrite (decide_False _ _ H1), (decide_False _ _ H2), (bool_decide_eq_false_2 _ H3). destruct s as [|a s]; [done|].
    simpl. case_decide; case_bool_decide; simpl; auto; congruence.
Qed.

(** *** The dashes *)

Lemma str_take_le_length n s : (String.length (str_take n s) = Nat.min n (String.length s))%nat.
Proof. revert s. induction n as [|n IH]; intros [|a s]; simpl; auto. Qed.

Lemma str_take_take m n s : (m <= n)%nat -> str_take m (str_take n s) = str_take m s.
Proof. revert n s. induction m as [|m IH]; intros [|n] [|a s]; simpl; auto; try lia. intros. rewrite IH; auto; lia. Qed.

Lemma has_prefix_take n s : has_prefix s (str_take n s) = true.
Proof. rewrite <- (str_take_drop n s) at 1. apply has_prefix_app. Qed.

Lemma str_drop_take k n s : str_drop k (str_take n s) = str_take (n - k) (str_drop k s).
Proof. revert n s. induction k as [|k IH]; intros [|n] [|a s]; simpl; auto. by destruct (n - k)%nat. Qed.

Lemma has_prefix_app_mono p s t : has_prefix (p +:+ s) (p +:+ t) = has_prefix s t.
Proof. induction p as [|a p IH]; [done|]. rewrite !str_app_cons. simpl. by rewrite decide_True. Qed.

Lemma has_prefix_app_r s t p : has_prefix s p = true -> has_prefix (s +:+ t) p = true.
Proof. intros Hp. rewrite (has_prefix_split _ _ Hp), <- str_app_assoc. apply has_prefix_app. Qed.

(** Putting dashes in keeps a prefix a prefix. *)
Lemma dash_from_prefix offs prev n s : has_prefix (dash_from offs prev s) (dash_from offs prev (str_take n s)) = true.
Proof.
  revert prev. induction offs as [|off offs IH]; intros prev; simpl; rewrite ?str_take_le_length.
  - rewrite str_drop_take. apply has_prefix_take.
  - destruct (String.length s <=? off)%nat eqn:Hs.
    + apply Nat.leb_le in Hs. replace (_ <=? off)%nat with true by (symmetry; apply Nat.leb_le; lia).
      rewrite str_drop_take. apply has_prefix_take.
    + apply Nat.leb_gt in Hs. destruct (_ <=? off)%nat eqn:Hn.
      * apply Nat.leb_le in Hn. apply has_prefix_app_r. rewrite !str_drop_take.
        rewrite <- (str_take_take (n - prev) (off - prev)) by lia. apply has_prefix_take.
      * apply Nat.leb_gt in Hn. rewrite str_take_take by lia. rewrite !has_prefix_app_mono. apply IH.
Qed.

(** ** The ids *)

Definition hex_char (a : ascii) : bool :=
  let n := nat_of_ascii a in ((48 <=? n) && (n <=? 57) || (97 <=? n) && (n <=? 102))%nat.
Definition hex_run (n : nat) (s : string) : Prop := String.length s = n /\ all_chars hex_char s = true.

(** The text of a uuid as Postgres prints it, by its five runs. *)
Record uuid := Uuid { u1 : string; u2 : string; u3 : string; u4 : string; u5 : string }.
Definition is_uuid (u : uuid) : Prop :=
  hex_run 8 (u1 u) /\ hex_run 4 (u2 u) /\ hex_run 4 (u3 u) /\ hex_run 4 (u4 u) /\ hex_run 12 (u5 u).
Definition dashless (u : uuid) : string := u1 u +:+ (u2 u +:+ (u3 u +:+ (u4 u +:+ u5 u))).
Definition text (u : uuid) : string :=
  u1 u +:+ ("-" +:+ (u2 u +:+ ("-" +:+ (u3 u +:+ ("-" +:+ (u4 u +:+ ("-" +:+ u5 u))))))).

Lemma hex_likely a : hex_char a = true -> likely_char a = true.
Proof. unfold hex_char, likely_char. rewrite !orb_true_iff. tauto. Qed.

Lemma text_likely u : is_uuid u -> all_chars likely_char (text u) = true.
Proof.
  intros ((_ & H1) & (_ & H2) & (_ & H3) & (_ & H4) & _ & H5).
  unfold text. rewrite !all_chars_app.
  by rewrite (all_chars_mono _ _ _ hex_likely H1), (all_chars_mono _ _ _ hex_likely H2), (all_chars_mono _ _ _ hex_likely H3),
    (all_chars_mono _ _ _ hex_likely H4), (all_chars_mono _ _ _ hex_likely H5).
Qed.

Lemma dashless_hex u : is_uuid u -> all_chars hex_char (dashless u) = true.
Proof.
  intros ((_ & H1) & (_ & H2) & (_ & H3) & (_ & H4) & _ & H5).
  unfold dashless. rewrite !all_chars_app. by rewrite H1, H2, H3, H4, H5.
Qed.

Lemma hex_no_dash s : all_chars hex_char s = true -> str_contains s "-" = false.
Proof.
  induction s as [|a s IH]; intros Hs; [done|]. simpl in Hs. apply andb_true_iff in Hs as [Ha Hs]. cbn [str_contains].
  rewrite (IH Hs), orb_false_r. simpl. destruct (decide ("-"%char = a)) as [<-|]; done.
Qed.

Lemma dash_dashless u : is_uuid u -> dash_from uuidDashOffsets 0 (dashless u) = text u.
Proof.
  destruct u as [a b c d e]. intros ((Ha & _) & (Hb & _) & (Hc & _) & (Hd & _) & He & _). unfold dashless, text. simpl in *.
  rewrite !str_length_app, Ha, Hb, Hc, Hd, He. cbn [Nat.add Nat.leb].
  do 8 (destruct a as [|? a]; [done|]). destruct a; [|done]. do 4 (destruct b as [|? b]; [done|]). destruct b; [|done].
  do 4 (destruct c as [|? c]; [done|]). destruct c; [|done]. do 4 (destruct d as [|? d]; [done|]). by destruct d.
Qed.

Lemma dashedUUIDPrefix_prefix u n :
  is_uuid u -> has_prefix (text u) (dashedUUIDPrefix (str_take n (dashless u))) = true.
Proof.
  intros Hu. unfold dashedUUIDPrefix.
  rewrite hex_no_dash, orb_false_r by (by apply all_chars_take, dashless_hex).
  destruct (_ <=? 8)%nat eqn:Hn; [|rewrite <- (dash_dashless u Hu); apply dash_from_prefix].
  assert (dash_from uuidDashOffsets 0 (str_take n (dashless u)) = str_take n (dashless u)) as <-
    by (simpl; by rewrite Hn).
  rewrite <- (dash_dashless u Hu). apply dash_from_prefix.
Qed.

(** ** The names a workspace's container has

    This package's, its older one of twelve characters, and the control plane's
    [<brand>-ws-[<tenant>-]<short>], each as Docker reports it. *)
Inductive named_for (brands : list string) (u : uuid) : string -> Prop :=
| NamedFull : named_for brands u ("/" +:+ ContainerName (text u))
| NamedLegacy : named_for brands u ("/" +:+ legacyContainerName (text u))
| NamedShort b n :
    b ∈ brands -> all_chars name_char b = true -> (0 < n)%nat ->
    named_for brands u ("/" +:+ ((b +:+ wsInfix) +:+ str_take n (dashless u)))
| NamedTenant b tenant n :
    b ∈ brands -> all_chars name_char b = true -> all_chars name_char tenant = true -> (0 < n)%nat ->
    named_for brands u ("/" +:+ ((b +:+ wsInfix) +:+ (tenant +:+ ("-" +:+ str_take n (dashless u))))).

Lemma parse_name brands n :
  all_chars name_char n = true ->
  parseWorkspaceContainerIDIn ("/" +:+ n) brands =
  match parse_branded n brands with
  | Some r => r
  | None => if has_prefix n containerNamePrefix then if decide (str_drop 3 n = "") then None else Some (str_drop 3 n) else None
  end.
Proof.
  intros Hn. unfold parseWorkspaceContainerIDIn. rewrite TrimSpace_name; [|by rewrite all_chars_app, Hn].
  assert (trim_slash ("/" +:+ n) = n) as -> by (rewrite str_app_cons, str_app_nil; by destruct n). done.
Qed.

Lemma parse_minted brands id :
  all_chars likely_char id = true -> id <> "" -> parseWorkspaceContainerIDIn ("/" +:+ ContainerName id) brands = Some id.
Proof.
  intros Hid Hne. rewrite parse_name, parse_branded_plain by (try done; unfold ContainerName; rewrite all_chars_app;
    by rewrite (all_chars_mono _ _ _ likely_name Hid)).
  change (str_drop 3 (ContainerName id)) with id.
  rewrite (has_prefix_app containerNamePrefix id : has_prefix (ContainerName id) _ = true). by rewrite decide_False.
Qed.

Lemma parse_brand brands b pre short :
  b ∈ brands -> all_chars name_char ((b +:+ wsInfix) +:+ (pre +:+ short)) = true ->
  (pre = "" \/ exists q, pre = q +:+ "-") -> all_chars hex_char short = true -> short <> "" ->
  parseWorkspaceContainerIDIn ("/" +:+ ((b +:+ wsInfix) +:+ (pre +:+ short))) brands = Some (dashedUUIDPrefix short).
Proof.
  intros Hb Hc Hpre Hs Hne. rewrite parse_name by done.
  assert (after_last_dash ((b +:+ wsInfix) +:+ (pre +:+ short)) = short) as Hl.
  { rewrite after_last_dash_brand. destruct Hpre as [->|[q ->]]; [rewrite str_app_nil|rewrite after_last_dash_end];
      by apply after_last_dash_none, hex_no_dash. }
  rewrite (parse_branded_some _ _ b), Hl; [done|done|apply has_prefix_app|by rewrite Hl].
Qed.

Lemma short_facts u n :
  is_uuid u -> (0 < n)%nat ->
  str_take n (dashless u) <> "" /\ all_chars hex_char (str_take n (dashless u)) = true /\
  all_chars name_char (str_take n (dashless u)) = true.
Proof.
  intros Hu Hn. assert (all_chars hex_char (str_take n (dashless u)) = true) as Hx by (by apply all_chars_take, dashless_hex).
  split; [|split; [done|]]; [|eapply all_chars_mono, Hx; auto using likely_name, hex_likely].
  destruct Hu as ((H1 & _) & _). unfold dashless. destruct (u1 u) as [|a s]; [done|]. rewrite str_app_cons. destruct n; [lia|done].
Qed.

Lemma dashed_likely s : all_chars hex_char s = true -> all_chars likely_char (dashedUUIDPrefix s) = true.
Proof.
  intros Hs%(all_chars_mono _ _ _ hex_likely). unfold dashedUUIDPrefix. destruct (_ || _); [done|].
  generalize 0%nat as k. induction uuidDashOffsets as [|off offs IH]; intros k; simpl; [by apply all_chars_drop|].
  destruct (_ <=? _)%nat; [by apply all_chars_drop|]. rewrite !all_chars_app, IH.
  by rewrite all_chars_drop by (by apply all_chars_take).
Qed.

Lemma dashed_nonempty s : s <> "" -> dashedUUIDPrefix s <> "".
Proof.
  unfold dashedUUIDPrefix. destruct (_ || _) eqn:Hc; [done|]. apply orb_false_iff in Hc as [Hl%Nat.leb_gt _]. intros _.
  cbn [dash_from uuidDashOffsets]. rewrite (proj2 (Nat.leb_gt _ _)) by lia. destruct s; [simpl in Hl; lia|done].
Qed.

(** the name of a workspace's container, in any of its shapes and under any
    brand of the list, gives an id prefix whose LIKE pattern passes the sweeps'
    filter and matches the workspace; the name this package mints gives the id. *)
Theorem names_find_their_workspace brands u name :
  is_uuid u -> named_for brands u name ->
  exists p, parseWorkspaceContainerIDIn name brands = Some p /\ isLikelyWorkspaceID p = true /\
    sql_like (p +:+ "%") (text u) = true /\ (name = "/" +:+ ContainerName (text u) -> p = text u).
Proof.
  intros Hu Hn. pose proof (text_likely u Hu) as Ht.
  assert (text u <> "") as Hne.
  { intros He. destruct Hu as ((H1 & _) & _). unfold text in He. by destruct (u1 u). }
  assert (forall p, all_chars likely_char p = true -> has_prefix (text u) p = true -> p <> "" ->
    isLikelyWorkspaceID p = true /\ sql_like (p +:+ "%") (text u) = true) as Hp.
  { intros p Hl Hx Hq. unfold isLikelyWorkspaceID. rewrite bool_decide_eq_false_2, sql_like_prefix by done. by rewrite Hl. }
  assert (has_prefix (text u) (text u) = true) as Hself by (rewrite <- (str_app_nil_r (text u)) at 1; apply has_prefix_app).
  assert (forall b pre n, b ∈ brands -> (0 < n)%nat ->
    all_chars name_char ((b +:+ wsInfix) +:+ (pre +:+ str_take n (dashless u))) = true ->
    pre = "" \/ (exists q, pre = q +:+ "-") ->
    exists p, parseWorkspaceContainerIDIn ("/" +:+ ((b +:+ wsInfix) +:+ (pre +:+ str_take n (dashless u)))) brands = Some p /\
      isLikelyWorkspaceID p = true /\ sql_like (p +:+ "%") (text u) = true /\
      ("/" +:+ ((b +:+ wsInfix) +:+ (pre +:+ str_take n (dashless u))) = "/" +:+ ContainerName (text u) -> p = text u)) as Hbrand.
  { intros b pre n Hb H0 Hc Hpre. destruct (short_facts u n Hu H0) as (Hs & Hh & _).
    pose proof (parse_brand brands b pre _ Hb Hc Hpre Hh Hs) as Hpp. rewrite Hpp. eexists. split; [done|].
    destruct (Hp (dashedUUIDPrefix (str_take n (dashless u)))) as [H1 H2];
      [by apply dashed_likely|by apply dashedUUIDPrefix_prefix|by apply dashed_nonempty|]. split_and!; [done..|].
    intros Heq. rewrite Heq, parse_minted in Hpp by done. congruence. }
  destruct Hn as [| |b n Hb Hcb H0|b tenant n Hb Hcb Hct H0].
  - exists (text u). rewrite parse_minted by done. split; [done|]. destruct (Hp (text u)); auto.
  - assert (str_take 12 (text u) <> "") as Hn by (by destruct (text u)).
    assert (all_chars likely_char (str_take 12 (text u)) = true) as Hl by (by apply all_chars_take).
    exists (str_take 12 (text u)). unfold legacyContainerName. fold (ContainerName (str_take 12 (text u))).
    rewrite parse_minted by done. split; [done|].
    destruct (Hp (str_take 12 (text u))) as [H1 H2]; [done|apply has_prefix_take|done|]. split_and!; [done..|].
    intros Heq. do 4 apply (f_equal (str_drop 1)) in Heq. done.
  - destruct (short_facts u n Hu H0) as (Hs & Hh & Hc).
    apply (Hbrand b "" n Hb H0); [by rewrite !all_chars_app, Hcb, Hc|auto].
  - destruct (short_facts u n Hu H0) as (Hs & Hh & Hc).
    replace (tenant +:+ ("-" +:+ str_take n (dashless u))) with ((tenant +:+ "-") +:+ str_take n (dashless u))
      by (by rewrite <- str_app_assoc).
    apply (Hbrand b (tenant +:+ "-") n Hb H0); [by rewrite !all_chars_app, Hcb, Hct, Hc|eauto].
Qed.

Module NamesDemo.
Definition brands : list string := ["enteros"; "mol"].
Definition u : uuid := Uuid "abc123de" "f456" "4abc" "8def" "0123456789ab".

Example shapes :
  map (fun n => parseWorkspaceContainerIDIn n brands)
    ["/ws-abc123de-f456-4abc-8def-0123456789ab"; "/ws-abc123de-f45"; "/enteros-ws-acme-corp-abc123def456"; "/mol-ws-abc123def456";
     "/my-ws-thing"; "/enteros-ws-"]
  = [Some "abc123de-f456-4abc-8def-0123456789ab"; Some "abc123de-f45"; Some "abc123de-f456"; Some "abc123de-f456"; None; None].
Proof. vm_compute. reflexivity. Qed.

(** With no brand in the list the control plane's containers are not seen. *)
Example blind_without_brands : parseWorkspaceContainerIDIn "/enteros-ws-acme-corp-abc123def456" [] = None.
Proof. vm_compute. reflexivity. Qed.

Lemma names_find_their_workspace_witness :
  exists p, parseWorkspaceContainerIDIn "/enteros-ws-acme-corp-abc123def456" brands = Some p /\
    isLikelyWorkspaceID p = true /\ sql_like (p +:+ "%") (text u) = true.
Proof.
  assert (is_uuid u) as Hu by (unfold is_uuid, hex_run; split_and!; vm_compute; reflexivity).
  assert (named_for brands u "/enteros-ws-acme-corp-abc123def456") as Hn.
  { assert ("/enteros-ws-acme-corp-abc123def456" =
      "/" +:+ (("enteros" +:+ wsInfix) +:+ ("acme-corp" +:+ ("-" +:+ str_take 12 (dashless u))))) as -> by (vm_compute; reflexivity).
    apply NamedTenant; [by apply list_elem_of_here|vm_compute; reflexivity..|lia]. }
  destruct (names_find_their_workspace brands u _ Hu Hn) as (p & H1 & H2 & H3 & _).
  exact (ex_intro _ p (conj H1 (conj H2 H3))).
Defined.
End NamesDemo.
