(* ===== verification/OrphanSweep.v ===== *)
(** * The orphan sweep of the Docker server

    internal/registry/orphan_sweeper.go: three passes that compare the
    containers the daemon lists with the workspaces table.  The daemon's lists
    are those of ContainerNames, Stop and RemoveVolume those of StartGuard, the
    token table that of Tokens. *)

From S2P Require Import Prelude Tree Tokens TokensSafety StartGuard StartGuardSafety ContainerNames.

(** The patterns of the prefixes that can be ids. *)
Definition kept_prefixes (prefixes : list string) : list string := filter (fun p => isLikelyWorkspaceID p = true) prefixes.
Definition like_patterns (prefixes : list string) : list string := map (fun p => p +:+ "%") (kept_prefixes prefixes).

(** [id LIKE ANY(likes)]. *)
Definition like_any (likes : list string) (id : string) : bool := existsb (fun lk => sql_like lk id) likes.

(** How the calls of a sweep go.  [se_scan_fails]: the row with this text does
    not scan and is skipped; [se_query_fails]: the query or its iteration errors. *)
Record sweep_env := SweepEnv {
  se_query_fails : bool;
  se_scan_fails : string -> bool;
  se_stop : string -> string -> remove_answer;     (* by workspace and container name *)
  se_volume : string -> string -> bool             (* by workspace and volume name *)
}.

(** ** Containers *)

Definition reap (e : sweep_env) (id : string) (d : docker) : docker :=
  let '(d1, stopped) := Stop (se_stop e id) id d in
  if stopped then (RemoveVolume (se_volume e id) id d1).1 else d1.
Definition reap_all (e : sweep_env) (ids : list string) (d : docker) : docker := foldl (fun d id => reap e id d) d ids.

(** The ids of the removed rows the patterns match. *)
Definition removed_matching (likes : list string) (rows : gmap string string) : list string :=
  map fst (filter (fun kr => (bool_decide (kr.2 = "removed") && like_any likes kr.1) = true) (map_to_list rows)).

Definition sweepRemovedRows (e : sweep_env) (listed : option (list string)) (rows : gmap string string) (d : docker) : docker :=
  match listed with
  | None | Some [] => d
  | Some prefixes =>
      let likes := like_patterns prefixes in
      if decide (likes = []) then d
      else if se_query_fails e then d
      else reap_all e (filter (fun id => se_scan_fails e id = false) (removed_matching likes rows)) d
  end.

(** The patterns some row matches. *)
Definition known_patterns (likes : list string) (rows : gmap string string) : list string :=
  filter (fun lk => existsb (fun kr => sql_like lk kr.1) (map_to_list rows) = true) likes.

Definition sweepLabeledOrphansWithoutRows (e : sweep_env) (managed : option (list string)) (rows : gmap string string)
    (d : docker) : docker :=
  match managed with
  | None | Some [] => d
  | Some prefixes =>
      let likes := like_patterns prefixes in
      if decide (likes = []) then d
      else if se_query_fails e then d
      else let known := filter (fun lk => se_scan_fails e lk = false) (known_patterns likes rows) in
           reap_all e (filter (fun p => (p +:+ "%") ∉ known) (kept_prefixes prefixes)) d
  end.

(** ** Tokens *)

Definition staleTokenGrace : time := 5 * Minute.

(** [COALESCE(last_used_at, created_at)]. *)
Definition idle_since (r : token_row) : time := default (tk_created r) (tk_last_used r).
Definition stale (now : time) (r : token_row) : bool := idle_since r <? now - staleTokenGrace.

(** The workspaces that may lose tokens; [runtimes] is the runtime column. *)
Definition sweepable (likes : list string) (runtimes : gmap string string) (db : token_db) (ws : string) : bool :=
  match td_status db !! ws, runtimes !! ws with
  | Some st, Some rt =>
      negb (bool_decide (st ∈ ["removed"; "provisioning"])) && negb (bool_decide (rt ∈ ["external"; "mock"])) &&
      (bool_decide (likes = []) || negb (like_any likes ws))
  | _, _ => false
  end.
Definition stale_workspaces (likes : list string) (runtimes : gmap string string) (now : time) (db : token_db) : list string :=
  remove_dups (map (fun kr => tk_workspace kr.2)
    (filter (fun kr => (live kr.2 && stale now kr.2 && sweepable likes runtimes db (tk_workspace kr.2)) = true)
      (map_to_list (td_tokens db)))).

Definition revoke_stale (now : time) (ws : string) (db : token_db) : token_db :=
  revoke_where (fun r => bool_decide (tk_workspace r = ws) && stale now r) now db.

(** What happens around the UPDATE of one workspace: others write first, the
    clock reads [te_now], the statement may error. *)
Record token_env := TokenEnv {
  te_query_fails : bool;
  te_scan_fails : string -> bool;
  te_before : string -> token_db -> token_db;
  te_now : string -> time;
  te_fails : string -> bool
}.

Fixpoint revoke_each (e : token_env) (ids : list string) (db : token_db) : token_db :=
  match ids with
  | [] => db
  | ws :: ids' =>
      let db1 := te_before e ws db in
      if te_fails e ws then db1 else revoke_each e ids' (revoke_stale (te_now e ws) ws db1)
  end.

Definition sweepStaleTokensWithoutContainer (e : token_env) (has_reaper : bool) (listed : option (list string))
    (runtimes : gmap string string) (now : time) (db : token_db) : token_db :=
  if negb has_reaper then db
  else match listed with
       | None => db
       | Some prefixes =>
           if te_query_fails e then db
           else revoke_each e (filter (fun ws => te_scan_fails e ws = false)
                                 (stale_workspaces (like_patterns prefixes) runtimes now db)) db
       end.

(** ** One cycle

    The daemon is listed and the tables are read anew in each pass. *)
Definition sweepOnce (e1 e2 : sweep_env) (e3 : token_env) (listed1 managed listed2 : option (list string))
    (rows1 rows2 runtimes : gmap string string) (now : time) (d : docker) (db : token_db) : docker * token_db :=
  (sweepLabeledOrphansWithoutRows e2 managed rows2 (sweepRemovedRows e1 listed1 rows1 d),
   sweepStaleTokensWithoutContainer e3 true listed2 runtimes now db).

(** ** Containers: lemmas *)

Lemma kept_in p prefixes : p ∈ kept_prefixes prefixes <-> p ∈ prefixes /\ isLikelyWorkspaceID p = true.
Proof. unfold kept_prefixes. rewrite list_elem_of_filter. tauto. Qed.

Lemma pattern_in p prefixes : p ∈ prefixes -> isLikelyWorkspaceID p = true -> (p +:+ "%") ∈ like_patterns prefixes.
Proof. intros Hp Hl. unfold like_patterns. apply list_elem_of_fmap. exists p. by rewrite kept_in. Qed.

Lemma likely_chars p : isLikelyWorkspaceID p = true -> all_chars likely_char p = true.
Proof. unfold isLikelyWorkspaceID. intros H. by b2p. Qed.

Lemma like_self p : isLikelyWorkspaceID p = true -> sql_like (p +:+ "%") p = true.
Proof.
  intros Hp%likely_chars. rewrite sql_like_prefix by done.
  rewrite <- (str_app_nil_r p) at 1. apply has_prefix_app.
Qed.

Lemma reap_all_containers e ids d n c :
  d_containers (reap_all e ids d) !! n = Some c -> d_containers d !! n = Some c.
Proof.
  unfold reap_all. revert d. induction ids as [|id ids IH]; intros d; [done|]. simpl. intros Hc%IH. unfold reap in Hc.
  destruct (Stop (se_stop e id) id d) as [d1 ok] eqn:Hs. pose proof (stop_containers (se_stop e id) id d n c) as Hk.
  rewrite Hs in Hk. destruct ok; [rewrite volumes_containers in Hc|]; auto.
Qed.

(** The names a reap of [id] touches. *)
Definition container_names (id : string) : list string := [ContainerName id; legacyContainerName id].
Definition volume_names (id : string) : list string :=
  [ConfigVolumeName id; legacyConfigVolumeName id; ClaudeSessionVolumeName id; legacyClaudeSessionVolumeName id].

Lemma stop_names_other ns ans d n :
  n ∉ ns -> d_containers (stop_names ns ans d).1 !! n = d_containers d !! n /\ d_volumes (stop_names ns ans d).1 = d_volumes d.
Proof.
  induction ns as [|m ns IH]; intros Hn; simpl; [done|]. apply not_elem_of_cons in Hn as [Hm Hn].
  destruct (ans m); simpl; auto; by rewrite lookup_delete_ne by done.
Qed.

Lemma remove_volumes_other ok vs d v : v ∉ vs -> v ∈ d_volumes (remove_volumes ok vs d) <-> v ∈ d_volumes d.
Proof.
  unfold remove_volumes. revert d. induction vs as [|w vs IH]; intros d Hv; simpl; [done|].
  apply not_elem_of_cons in Hv as [Hw Hv]. rewrite IH by done. destruct (ok w); [simpl; set_solver|done].
Qed.

Lemma RemoveVolume_other ok id d v : v ∉ volume_names id -> v ∈ d_volumes (RemoveVolume ok id d).1 <-> v ∈ d_volumes d.
Proof.
  unfold volume_names, RemoveVolume. intros Hv. destruct (negb _); cbn [fst]; rewrite !remove_volumes_other; set_solver.
Qed.

Lemma reap_other e id d n v :
  n ∉ container_names id -> v ∉ volume_names id ->
  d_containers (reap e id d) !! n = d_containers d !! n /\ (v ∈ d_volumes (reap e id d) <-> v ∈ d_volumes d).
Proof.
  intros Hn Hv. unfold reap. destruct (Stop (se_stop e id) id d) as [d1 ok] eqn:Hs.
  pose proof (stop_names_other _ (se_stop e id) d n Hn) as [H1 H2]. unfold container_names in *. fold (Stop (se_stop e id) id d) in *.
  rewrite Hs in H1, H2. simpl in H1, H2. destruct ok; [|by rewrite H1, H2].
  rewrite volumes_containers, RemoveVolume_other, H1, H2 by done. done.
Qed.

Lemma reap_all_other e ids d n v :
  (forall id, id ∈ ids -> (n ∉ container_names id) /\ (v ∉ volume_names id)) ->
  d_containers (reap_all e ids d) !! n = d_containers d !! n /\ (v ∈ d_volumes (reap_all e ids d) <-> v ∈ d_volumes d).
Proof.
  unfold reap_all. revert d. induction ids as [|id ids IH]; intros d Hi; [done|]. simpl.
  destruct (Hi id) as [Hn Hv]; [set_solver|]. destruct (reap_other e id d n v Hn Hv) as [H1 H2].
  destruct (IH (reap e id d)) as [H3 H4]; [set_solver|]. by rewrite H3, H4.
Qed.

(** *** Names of different ids *)

Lemma str_snoc_inj x y a b : (x +:+ String a "") = (y +:+ String b "") -> x = y /\ a = b.
Proof.
  revert y. induction x as [|c x IH]; intros [|d y]; rewrite ?str_app_nil, ?str_app_cons.
  - by intros [= ->].
  - intros [= _ Hn]. by destruct y.
  - intros [= _ Hn]. by destruct x.
  - intros [= -> Hn]. apply IH in Hn as [-> ->]. done.
Qed.

Lemma str_app_inj_r x y s : (x +:+ s) = (y +:+ s) -> x = y.
Proof.
  revert x y. induction s as [|a s IH]; intros x y; [by rewrite !str_app_nil_r|].
  change (String a s) with (String a "" +:+ s). rewrite !str_app_assoc. intros Hs%IH. by apply str_snoc_inj in Hs as [-> _].
Qed.

Lemma suffix_differs x y : (x +:+ "-configs") <> (y +:+ "-claude-sessions").
Proof.
  change "-configs" with ("-config" +:+ "s"). change "-claude-sessions" with ("-claude-session" +:+ "s").
  rewrite !str_app_assoc. intros [Hs _]%str_snoc_inj.
  change "-config" with ("-confi" +:+ "g") in Hs. change "-claude-session" with ("-claude-sessio" +:+ "n") in Hs.
  rewrite !str_app_assoc in Hs. by apply str_snoc_inj in Hs as [_ ?].
Qed.

(** An id longer than twelve characters shares no name with another one. *)
Lemma names_disjoint w id :
  (12 < String.length w)%nat -> id <> w ->
  (ContainerName w ∉ container_names id) /\ (ConfigVolumeName w ∉ volume_names id) /\
  (ClaudeSessionVolumeName w ∉ volume_names id).
Proof.
  intros Hw Hid. assert (str_take 12 id <> w) as Ht.
  { intros <-. rewrite str_take_le_length in Hw. lia. }
  unfold container_names, volume_names, ContainerName, legacyContainerName, ConfigVolumeName, legacyConfigVolumeName,
    ClaudeSessionVolumeName, legacyClaudeSessionVolumeName.
  rewrite !not_elem_of_cons. split_and!; try apply not_elem_of_nil; intros Heq%str_app_inj_l;
    first [ by symmetry in Heq | by apply str_app_inj_r in Heq | by apply suffix_differs in Heq
          | by symmetry in Heq; apply suffix_differs in Heq ].
Qed.

Lemma own_volume_spared w id v :
  (12 < String.length w)%nat -> id <> w -> v ∈ [ConfigVolumeName w; ClaudeSessionVolumeName w] ->
  (ContainerName w ∉ container_names id) /\ (v ∉ volume_names id).
Proof.
  intros Hw Hid Hv. destruct (names_disjoint w id Hw Hid) as (H1 & H2 & H3). split; [done|].
  apply elem_of_cons in Hv as [->|Hv]; [done|]. by apply list_elem_of_singleton in Hv as ->.
Qed.

Lemma text_length u : is_uuid u -> String.length (text u) = 36%nat.
Proof.
  intros ((H1 & _) & (H2 & _) & (H3 & _) & (H4 & _) & H5 & _). unfold text. rewrite !str_length_app, H1, H2, H3, H4, H5. done.
Qed.

(** ** What the container passes spare and what they take *)

Section Containers.
Context (u : uuid) (Hu : is_uuid u).

(** The removed-row pass reaps ids of removed rows only. *)
Lemma removed_pass_ids e listed rows d v :
  (exists st, rows !! text u = Some st /\ st <> "removed") ->
  v ∈ [ConfigVolumeName (text u); ClaudeSessionVolumeName (text u)] ->
  d_containers (sweepRemovedRows e listed rows d) !! ContainerName (text u) = d_containers d !! ContainerName (text u) /\
  (v ∈ d_volumes (sweepRemovedRows e listed rows d) <-> v ∈ d_volumes d).
Proof.
  intros (st & Hst & Hne) Hv. unfold sweepRemovedRows. destruct listed as [[|p ps]|]; [done| |done].
  case_decide; [done|]. destruct (se_query_fails e); [done|]. apply reap_all_other. intros id Hid.
  apply list_elem_of_filter in Hid as [_ Hid]. unfold removed_matching in Hid.
  apply list_elem_of_fmap in Hid as ([id' st'] & -> & Hid). apply list_elem_of_filter in Hid as [Hc Hin]. simpl in *. b2p. subst.
  apply elem_of_map_to_list in Hin.
  apply own_volume_spared; [rewrite text_length by done; lia|naive_solver|done].
Qed.

(** The wiped-database pass reaps prefixes no row matches. *)
Lemma wiped_pass_ids e managed rows d v :
  is_Some (rows !! text u) -> (forall lk, se_scan_fails e lk = false) ->
  v ∈ [ConfigVolumeName (text u); ClaudeSessionVolumeName (text u)] ->
  d_containers (sweepLabeledOrphansWithoutRows e managed rows d) !! ContainerName (text u) = d_containers d !! ContainerName (text u) /\
  (v ∈ d_volumes (sweepLabeledOrphansWithoutRows e managed rows d) <-> v ∈ d_volumes d).
Proof.
  intros [st Hst] Hscan Hv. unfold sweepLabeledOrphansWithoutRows. destruct managed as [[|p ps]|]; [done| |done].
  case_decide; [done|]. destruct (se_query_fails e); [done|]. apply reap_all_other. intros id Hid.
  apply list_elem_of_filter in Hid as [Hk Hid]. apply own_volume_spared; [rewrite text_length by done; lia| |done].
  - intros ->. apply Hk. apply list_elem_of_filter. split; [apply Hscan|]. unfold known_patterns. apply list_elem_of_filter.
    split; [|by apply pattern_in; apply kept_in in Hid as [??]]. apply existsb_exists. exists (text u, st).
    rewrite <- list_elem_of_In, elem_of_map_to_list. split; [done|]. by apply like_self; apply kept_in in Hid as [_ ?].
Qed.

(** a sweep leaves the container and the volumes of every workspace whose
    row is there and not removed, whatever the daemon lists and answers - as
    long as every row the second pass reads scans. *)
Theorem sweep_spares_live_workspaces e1 e2 e3 listed1 managed listed2 rows1 rows2 runtimes now d db v :
  (exists st, rows1 !! text u = Some st /\ st <> "removed") -> is_Some (rows2 !! text u) ->
  (forall lk, se_scan_fails e2 lk = false) ->
  v ∈ [ConfigVolumeName (text u); ClaudeSessionVolumeName (text u)] ->
  let d' := (sweepOnce e1 e2 e3 listed1 managed listed2 rows1 rows2 runtimes now d db).1 in
  d_containers d' !! ContainerName (text u) = d_containers d !! ContainerName (text u) /\
  (v ∈ d_volumes d' <-> v ∈ d_volumes d).
Proof.
  intros H1 H2 Hscan Hv. simpl.
  destruct (removed_pass_ids e1 listed1 rows1 d v H1 Hv) as [Ha Hb].
  destruct (wiped_pass_ids e2 managed rows2 (sweepRemovedRows e1 listed1 rows1 d) v H2 Hscan Hv) as [Hc Hd].
  by rewrite Hc, Hd.
Qed.
End Containers.

(** ** What the token pass revokes *)

Lemma revoke_each_row e id ids db r' :
  (forall ws db r, td_tokens (te_before e ws db) !! id = Some r -> tk_revoked r <> None -> td_tokens db !! id = Some r) ->
  td_tokens (revoke_each e ids db) !! id = Some r' -> tk_revoked r' <> None ->
  td_tokens db !! id = Some r' \/
  (tk_workspace r' ∈ ids /\ tk_revoked r' = Some (te_now e (tk_workspace r')) /\ stale (te_now e (tk_workspace r')) r' = true).
Proof.
  intros Ho. revert db. induction ids as [|ws ids IH]; intros db Hr Hn; simpl in *; [auto|].
  destruct (te_fails e ws); [eauto|]. destruct (IH _ Hr Hn) as [Hr1|(H1 & H2)]; [|set_solver].
  apply revoke_where_row in Hr1 as (r0 & Hr0 & _ & ->). destruct (live r0 && _) eqn:Hc; [|eauto]. b2p. subst ws.
  right. split; [set_solver|]. done.
Qed.

Lemma stale_workspaces_in likes runtimes now db ws :
  ws ∈ stale_workspaces likes runtimes now db ->
  sweepable likes runtimes db ws = true /\
  exists id r, td_tokens db !! id = Some r /\ tk_workspace r = ws /\ tk_revoked r = None /\ stale now r = true.
Proof.
  unfold stale_workspaces. rewrite elem_of_remove_dups, list_elem_of_fmap. intros ([id r] & -> & Hin).
  apply list_elem_of_filter in Hin as [Hc Hin]. apply elem_of_map_to_list in Hin. unfold live in Hc. simpl in *. b2p.
  split; [done|]. eauto 10.
Qed.

(** a token the pass revokes has been idle for longer than the grace when
    its UPDATE runs, however others write in between, and its workspace had at
    the SELECT a live token as idle, no listed container, and neither a status
    nor a runtime that is exempt. *)
Theorem stale_sweep_is_sound e prefixes runtimes now db id r' :
  (forall ws db r, td_tokens (te_before e ws db) !! id = Some r -> tk_revoked r <> None -> td_tokens db !! id = Some r) ->
  td_tokens (sweepStaleTokensWithoutContainer e true (Some prefixes) runtimes now db) !! id = Some r' ->
  tk_revoked r' <> None -> td_tokens db !! id <> Some r' ->
  (exists t, tk_revoked r' = Some t /\ idle_since r' < t - 5 * Minute) /\
  sweepable (like_patterns prefixes) runtimes db (tk_workspace r') = true /\
  exists id0 r0, td_tokens db !! id0 = Some r0 /\ tk_workspace r0 = tk_workspace r' /\ tk_revoked r0 = None /\
    idle_since r0 < now - 5 * Minute.
Proof.
  intros Ho Hr Hn Hnew. unfold sweepStaleTokensWithoutContainer in Hr. simpl in Hr.
  destruct (te_query_fails e); [done|]. apply revoke_each_row in Hr as [?|(Hin & Ht & Hs)]; [done| |done|done].
  apply list_elem_of_filter in Hin as [_ Hin]. apply stale_workspaces_in in Hin as (Hsw & id0 & r0 & H1 & H2 & H3 & H4).
  unfold stale in *. b2p. split; [eauto|]. split; [done|]. eauto 10.
Qed.

(** The pattern of a listed container keeps the tokens of its workspace. *)
Lemma listed_not_swept brands all prefixes runtimes db u c name :
  is_uuid u -> ListWorkspaceContainerIDPrefixes true brands (Some all) = Some prefixes ->
  c ∈ all -> l_names c = [name] -> named_for brands u name -> str_contains name containerNamePrefix = true ->
  sweepable (like_patterns prefixes) runtimes db (text u) = false.
Proof.
  intros Hu [= <-] Hc Hn Hname Hws. destruct (names_find_their_workspace brands u name Hu Hname) as (p & Hp & Hl & Hlike & _).
  set (prefixes := ids_of _ _).
  assert (like_any (like_patterns prefixes) (text u) = true) as Ha.
  { apply existsb_exists. exists (p +:+ "%"). split; [|done]. apply list_elem_of_In. apply pattern_in; [|done]. unfold prefixes, ids_of. apply list_elem_of_omap.
    exists [name]. split; [|simpl; by rewrite Hp]. rewrite <- Hn. apply list_elem_of_fmap_2, list_elem_of_filter.
    split; [|done]. rewrite Hn. simpl. by rewrite Hws. }
  unfold sweepable. destruct (td_status db !! text u), (runtimes !! text u); try done.
  rewrite Ha, (bool_decide_eq_false_2 (like_patterns prefixes = [])) by (intros He; by rewrite He in Ha).
  cbn [negb orb]. apply andb_false_r.
Qed.

(** Each of the names contains what the daemon is asked for. *)
Lemma named_for_listed brands u name : named_for brands u name -> str_contains name containerNamePrefix = true.
Proof.
  assert (forall x y, str_contains (x +:+ (containerNamePrefix +:+ y)) containerNamePrefix = true) as Hc.
  { intros x y. induction x as [|a x IH]; [|rewrite str_app_cons; cbn [str_contains]; rewrite IH; apply orb_true_r].
    rewrite str_app_nil. pose proof (has_prefix_app containerNamePrefix y) as Hp.
    unfold containerNamePrefix in *. rewrite !str_app_cons in *. cbn [str_contains]. by rewrite Hp. }
  destruct 1 as [| |b n|b tenant n].
  - apply Hc.
  - apply Hc.
  - replace ("/" +:+ _) with (("/" +:+ (b +:+ "-")) +:+ (containerNamePrefix +:+ str_take n (dashless u)));
      [apply Hc|]. unfold wsInfix. change "-ws-" with ("-" +:+ containerNamePrefix). by rewrite <- !str_app_assoc.
  - replace ("/" +:+ _) with (("/" +:+ (b +:+ "-")) +:+ (containerNamePrefix +:+ (tenant +:+ ("-" +:+ str_take n (dashless u)))));
      [apply Hc|]. unfold wsInfix. change "-ws-" with ("-" +:+ containerNamePrefix). by rewrite <- !str_app_assoc.
Qed.

(** a workspace that has a container on the daemon - running or not, of this
    package or of the control plane, of any brand of the list - loses no token
    to the sweep. *)
Theorem contained_workspace_keeps_tokens e brands all prefixes runtimes now db u c name id r' :
  is_uuid u -> ListWorkspaceContainerIDPrefixes true brands (Some all) = Some prefixes ->
  c ∈ all -> l_names c = [name] -> named_for brands u name ->
  (forall ws db r, td_tokens (te_before e ws db) !! id = Some r -> tk_revoked r <> None -> td_tokens db !! id = Some r) ->
  td_tokens (sweepStaleTokensWithoutContainer e true (Some prefixes) runtimes now db) !! id = Some r' ->
  tk_workspace r' = text u -> tk_revoked r' <> None -> td_tokens db !! id = Some r'.
Proof.
  intros Hu Hl Hc Hn Hname Ho Hr Hw Hrev. unfold sweepStaleTokensWithoutContainer in Hr. simpl in Hr.
  destruct (te_query_fails e); [done|]. apply revoke_each_row in Hr as [?|(Hin & _)]; [done| |done|done].
  apply list_elem_of_filter in Hin as [_ Hin]. apply stale_workspaces_in in Hin as [Hsw _].
  rewrite Hw in Hsw. erewrite listed_not_swept in Hsw; eauto using named_for_listed. done.
Qed.

(** ** What the removed-row pass gets rid of *)

Lemma reap_all_gone e ids id d :
  honest (se_stop e id) d -> id ∈ ids -> (Stop (se_stop e id) id d).2 = true ->
  d_containers (reap_all e ids d) !! ContainerName id = None.
Proof.
  unfold reap_all. revert d. induction ids as [|i ids IH]; intros d Hh Hid Hok; [by apply elem_of_nil in Hid|]. simpl.
  destruct (decide (i = id)) as [->|Hne].
  - apply eq_None_not_Some. intros [c Hc]. apply (reap_all_containers e ids) in Hc. unfold reap in Hc.
    destruct (Stop (se_stop e id) id d) as [d1 ok] eqn:Hs. simpl in Hok. subst ok.
    rewrite volumes_containers in Hc. pose proof (stop_clears (se_stop e id) id d Hh) as Hcl. rewrite Hs in Hcl. simpl in Hcl.
    rewrite Hcl in Hc by done. done.
  - apply IH; [|set_solver|].
    + intros n Hn. apply Hh in Hn. apply eq_None_not_Some. intros [c Hc]. apply (reap_all_containers e [i] d) in Hc. congruence.
    + revert Hok. unfold Stop. simpl. by destruct (se_stop e id (ContainerName id)), (se_stop e id (legacyContainerName id)).
Qed.

(** a removed workspace whose container is on the daemon has none after the
    pass, when the query, the row and its Stop do not fail. *)
Theorem removed_workspace_is_reaped e brands all rows d u c name :
  is_uuid u -> rows !! text u = Some "removed" ->
  c ∈ all -> l_names c = [name] -> named_for brands u name ->
  se_query_fails e = false -> se_scan_fails e (text u) = false ->
  honest (se_stop e (text u)) d -> (Stop (se_stop e (text u)) (text u) d).2 = true ->
  d_containers (sweepRemovedRows e (ListWorkspaceContainerIDPrefixes true brands (Some all)) rows d) !! ContainerName (text u) = None.
Proof.
  intros Hu Hrow Hc Hn Hname Hq Hscan Hh Hok. simpl. set (prefixes := ids_of _ _).
  destruct (names_find_their_workspace brands u name Hu Hname) as (p & Hp & Hl & Hlike & _).
  assert ((p +:+ "%") ∈ like_patterns prefixes) as Hin.
  { apply pattern_in; [|done]. apply list_elem_of_omap. exists [name].
    split; [|simpl; by rewrite Hp]. rewrite <- Hn. apply list_elem_of_fmap_2, list_elem_of_filter.
    split; [|done]. rewrite Hn. simpl. by rewrite (named_for_listed _ _ _ Hname). }
  unfold sweepRemovedRows. destruct prefixes as [|p0 ps] eqn:Hps; [by apply elem_of_nil in Hin|].
  rewrite decide_False by (intros He; rewrite He in Hin; by apply elem_of_nil in Hin). rewrite Hq.
  apply reap_all_gone; [done| |done]. apply list_elem_of_filter. split; [done|]. unfold removed_matching.
  apply list_elem_of_fmap. exists (text u, "removed"). split; [done|]. apply list_elem_of_filter.
  split; [|by apply elem_of_map_to_list]. simpl. apply existsb_exists. exists (p +:+ "%"). by rewrite <- list_elem_of_In.
Qed.

(** ** A daemon with four containers *)

Module OrphanDemo.
Import NamesDemo.

Lemma u_uuid : is_uuid u.
Proof. unfold is_uuid, hex_run; split_and!; vm_compute; reflexivity. Qed.

Definition full_name := "/" +:+ ContainerName (text u).
Definition listing : list listed_container := [Listed [full_name] ∅; Listed ["/my-ws-thing"] ∅].
Definition prefixes : list string := [text u].
Definition calm : sweep_env := SweepEnv false (fun _ => false) (fun _ n => if decide (n = ContainerName (text u)) then Removed else NotFound)
  (fun _ _ => true).
Definition daemon : docker :=
  Docker {[ ContainerName (text u) := Container 0 true ]} {[ ConfigVolumeName (text u); WorkspaceVolumeName (text u) ]}.
Definition quiet_tokens (now : time) : token_env := TokenEnv false (fun _ => false) (fun _ db => db) (fun _ => now) (fun _ => false).

Lemma removed_workspace_is_reaped_witness :
  d_containers (sweepRemovedRows calm (ListWorkspaceContainerIDPrefixes true brands (Some listing)) {[ text u := "removed" ]} daemon)
    !! ContainerName (text u) = None.
Proof.
  apply (removed_workspace_is_reaped calm brands listing _ daemon u (Listed [full_name] ∅) full_name u_uuid).
  - apply lookup_insert_eq.
  - apply list_elem_of_here.
  - reflexivity.
  - apply NamedFull.
  - reflexivity.
  - reflexivity.
  - intros n Hn. simpl in Hn. destruct (decide (n = ContainerName (text u))); [done|]. apply lookup_singleton_ne; intros Heq; by subst.
  - reflexivity.
Defined.

(** The container of a live workspace stays, with its volume. *)
Definition live_rows : gmap string string := {[ text u := "online" ]}.
Lemma sweep_spares_live_workspaces_witness :
  let d' := (sweepOnce calm calm (quiet_tokens 0) (Some prefixes) (Some prefixes) (Some prefixes) live_rows live_rows ∅ 0 daemon
    (TokenDb ∅ ∅)).1 in
  d_containers d' !! ContainerName (text u) = d_containers daemon !! ContainerName (text u) /\
  (ConfigVolumeName (text u) ∈ d_volumes d' <-> ConfigVolumeName (text u) ∈ d_volumes daemon).
Proof.
  apply (sweep_spares_live_workspaces u u_uuid); [|exists "online"; apply lookup_insert_eq|reflexivity|apply list_elem_of_here].
  exists "online". split; [apply lookup_insert_eq|discriminate].
Defined.

(** Were the row of a live workspace to fail to scan in the second pass, the
    pass would take it for a wiped one. *)
Definition bad_scan : sweep_env := SweepEnv false (fun _ => true) (se_stop calm) (fun _ _ => true).
Example unscanned_row_is_reaped :
  let d' := sweepLabeledOrphansWithoutRows bad_scan (Some prefixes) live_rows daemon in
  d_containers d' !! ContainerName (text u) = None /\ bool_decide (ConfigVolumeName (text u) ∈ d_volumes d') = false.
Proof. vm_compute. split; reflexivity. Qed.

(** A labelled orphan of the control plane's shape is recognised and stays: the
    names Stop tries are not its name. *)
Definition branded := "enteros-ws-acme-abc123def456".
Definition branded_daemon : docker := Docker {[ branded := Container 0 true ]} ∅.
Definition truthful : sweep_env :=
  SweepEnv false (fun _ => false) (fun _ n => if decide (n = branded) then Removed else NotFound) (fun _ _ => false).
Definition labels : gmap string string := {[ LabelManaged := "true"; LabelInstance := "i1" ]}.
Example branded_orphan_stays :
  ListManagedContainerIDPrefixes true brands "i1" (Some [Listed ["/" +:+ branded] labels]) = Some ["abc123de-f456"] /\
  is_Some (d_containers (sweepLabeledOrphansWithoutRows truthful (Some ["abc123de-f456"]) ∅ branded_daemon) !! branded).
Proof. split; [vm_compute; reflexivity|]. vm_compute. eauto. Qed.

(** ** Tokens *)

Definition at_time (m : Z) : time := m * Minute.
Definition row (kind : string) (used : option time) : token_row :=
  TokenRow (text u) ("h-" +:+ kind) "prefix" kind (at_time 0) used None.
Definition tokens (st : string) : token_db :=
  TokenDb {[ "t1" := row "instance" (Some (at_time 20)); "t2" := row "api" None ]} {[ text u := st ]}.
Definition runtimes : gmap string string := {[ text u := "claude-code" ]}.

(** The tokens of a paused workspace, which has no container by design, are
    revoked, those of the platform's callers too. *)
Example paused_workspace_loses_api_tokens :
  let db := sweepStaleTokensWithoutContainer (quiet_tokens (at_time 60)) true (Some []) runtimes (at_time 60) (tokens "paused") in
  (tk_revoked <$> td_tokens db !! "t1", tk_revoked <$> td_tokens db !! "t2") = (Some (Some (at_time 60)), Some (Some (at_time 60))).
Proof. vm_compute. reflexivity. Qed.

Definition swept : token_db :=
  sweepStaleTokensWithoutContainer (quiet_tokens (at_time 60)) true (Some []) runtimes (at_time 60) (tokens "online").
Definition revoked_row : token_row := set_revoked (at_time 60) (row "instance" (Some (at_time 20))).

Lemma stale_sweep_is_sound_witness :
  td_tokens swept !! "t1" = Some revoked_row /\ sweepable [] runtimes (tokens "online") (text u) = true.
Proof.
  assert (td_tokens swept !! "t1" = Some revoked_row) as Hr by (vm_compute; reflexivity).
  split; [exact Hr|].
  destruct (stale_sweep_is_sound (quiet_tokens (at_time 60)) [] runtimes (at_time 60) (tokens "online") "t1" revoked_row)
    as (_ & Hs & _); [intros ws db r Hdb _; exact Hdb|exact Hr|discriminate|vm_compute; discriminate|exact Hs].
Defined.

Definition revoked_before : token_db :=
  TokenDb {[ "t1" := revoked_row; "t2" := row "api" None ]} {[ text u := "online" ]}.
Lemma contained_workspace_keeps_tokens_witness :
  let db := sweepStaleTokensWithoutContainer (quiet_tokens (at_time 90)) true (Some prefixes) runtimes (at_time 90) revoked_before in
  td_tokens db !! "t1" = Some revoked_row /\ td_tokens revoked_before !! "t1" = Some revoked_row.
Proof.
  assert (td_tokens (sweepStaleTokensWithoutContainer (quiet_tokens (at_time 90)) true (Some prefixes) runtimes (at_time 90)
    revoked_before) !! "t1" = Some revoked_row) as Hr by (vm_compute; reflexivity).
  split; [exact Hr|].
  apply (contained_workspace_keeps_tokens (quiet_tokens (at_time 90)) brands listing prefixes runtimes (at_time 90) revoked_before
    u (Listed [full_name] ∅) full_name "t1" revoked_row u_uuid); [vm_compute; reflexivity|apply list_elem_of_here|reflexivity
    |apply NamedFull|intros ws db r Hdb _; exact Hdb|exact Hr|reflexivity|discriminate].
Defined.
End OrphanDemo.
