(* ===== verification/RuntimeOverrides.v ===== *)
(** * What a runtime declares about itself

    internal/handlers/runtime_overrides.go: a process-wide cache of the idle
    timeout and the native capabilities each workspace last declared.  An entry
    with neither is taken out. *)

From S2P Require Import Prelude.

Record runtimeOverrideEntry := Entry { idleTimeout : time; capabilities : gmap string bool }.
Abbreviation runtimeOverrideCache := (gmap string runtimeOverrideEntry).

Definition loadEntry (workspaceID : string) (c : runtimeOverrideCache) : runtimeOverrideEntry :=
  default (Entry 0 ∅) (c !! workspaceID).

Definition deleteIfEmpty (workspaceID : string) (e : runtimeOverrideEntry) (c : runtimeOverrideCache)
    : runtimeOverrideCache :=
  if (idleTimeout e <=? 0) && bool_decide (capabilities e = ∅) then delete workspaceID c else <[workspaceID := e]> c.

Definition SetIdleTimeout (workspaceID : string) (d : time) (c : runtimeOverrideCache) : runtimeOverrideCache :=
  if decide (workspaceID = "") then c
  else deleteIfEmpty workspaceID (Entry (if d <=? 0 then 0 else d) (capabilities (loadEntry workspaceID c))) c.

(** [None]: the dispatch uses the global default. *)
Definition IdleTimeout (workspaceID : string) (c : runtimeOverrideCache) : option time :=
  let e := loadEntry workspaceID c in if idleTimeout e <=? 0 then None else Some (idleTimeout e).

Definition SetCapabilities (workspaceID : string) (caps : gmap string bool) (c : runtimeOverrideCache)
    : runtimeOverrideCache :=
  if decide (workspaceID = "") then c else deleteIfEmpty workspaceID (Entry (idleTimeout (loadEntry workspaceID c)) caps) c.

Definition HasCapability (workspaceID name : string) (c : runtimeOverrideCache) : bool :=
  if decide (workspaceID = "" \/ name = "") then false
  else default false (capabilities (loadEntry workspaceID c) !! name).

(** The ids the code sorts, as a set. *)
Definition WorkspacesWithCapability (name : string) (c : runtimeOverrideCache) : gset string :=
  if decide (name = "") then ∅ else dom (filter (fun kv => capabilities kv.2 !! name = Some true) c).

Definition ProvidesNativeScheduler (workspaceID : string) (c : runtimeOverrideCache) : bool :=
  HasCapability workspaceID "scheduler" c.

(** ** The abstract view: a timeout and a set of capabilities per workspace *)

Record overrides_view := View { v_idle : string -> option time; v_has : string -> string -> bool }.
Definition view (c : runtimeOverrideCache) : overrides_view :=
  View (fun ws => IdleTimeout ws c) (fun ws name => HasCapability ws name c).

Definition view_set_idle (ws : string) (d : time) (v : overrides_view) : overrides_view :=
  View (fun ws' => if decide (ws' = ws) then if d <=? 0 then None else Some d else v_idle v ws') (v_has v).
Definition view_set_caps (ws : string) (caps : gmap string bool) (v : overrides_view) : overrides_view :=
  View (v_idle v)
    (fun ws' name => if decide (ws' = ws) then if decide (name = "") then false else default false (caps !! name)
                     else v_has v ws' name).

Definition same_view (v w : overrides_view) : Prop :=
  (forall ws, v_idle v ws = v_idle w ws) /\ (forall ws name, v_has v ws name = v_has w ws name).
#[export] Instance same_view_equivalence : Equivalence same_view.
Proof.
  split.
  - intros v. split; reflexivity.
  - intros v w [H1 H2]. by split; intros; rewrite ?H1, ?H2.
  - intros u v w [H1 H2] [H3 H4]. split; intros; by rewrite ?H1, ?H2.
Qed.

(** No entry is empty, and none is filed under the empty id. *)
Definition no_husks (c : runtimeOverrideCache) : Prop :=
  forall ws e, c !! ws = Some e -> ws <> "" /\ 0 <= idleTimeout e /\ (0 < idleTimeout e \/ capabilities e <> ∅).

Lemma loadEntry_deleteIfEmpty ws ws' e c :
  0 <= idleTimeout e ->
  loadEntry ws (deleteIfEmpty ws' e c) = if decide (ws = ws') then e else loadEntry ws c.
Proof.
  intros He. unfold loadEntry, deleteIfEmpty.
  destruct ((idleTimeout e <=? 0) && bool_decide (capabilities e = ∅)) eqn:Ee;
    destruct (decide (ws = ws')) as [->|Hne].
  - b2p. rewrite lookup_delete_eq. cbn. destruct e as [i m]. cbn in *. f_equal; [lia|done].
  - by rewrite lookup_delete_ne.
  - by rewrite lookup_insert_eq.
  - by rewrite lookup_insert_ne.
Qed.

Lemma loadEntry_nonneg ws c : no_husks c -> 0 <= idleTimeout (loadEntry ws c).
Proof. intros Hc. unfold loadEntry. destruct (c !! ws) as [e|] eqn:Ee; cbn; [|lia]. by apply Hc in Ee as (_ & ? & _). Qed.

Lemma no_husks_deleteIfEmpty ws e c : ws <> "" -> 0 <= idleTimeout e -> no_husks c -> no_husks (deleteIfEmpty ws e c).
Proof.
  intros Hws He Hc ws' e' Hl. unfold deleteIfEmpty in Hl.
  destruct ((idleTimeout e <=? 0) && bool_decide (capabilities e = ∅)) eqn:Ee.
  - apply lookup_delete_Some in Hl as [_ Hl]. by apply Hc.
  - apply lookup_insert_Some in Hl as [[<- <-]|[_ Hl]]; [|by apply Hc].
    split; [done|]. split; [done|]. apply andb_false_iff in Ee as [Ee|Ee]; b2p; [left; lia|by right].
Qed.

(** the cache is the view and nothing else: setting the timeout or the
    capabilities of a workspace changes exactly that in the view, whatever is
    stored or taken out for it, and no empty entry is ever kept. *)
Theorem overrides_refine_view ws d caps c :
  ws <> "" -> no_husks c ->
  no_husks (SetIdleTimeout ws d c) /\ no_husks (SetCapabilities ws caps c) /\
  same_view (view (SetIdleTimeout ws d c)) (view_set_idle ws d (view c)) /\
  same_view (view (SetCapabilities ws caps c)) (view_set_caps ws caps (view c)).
Proof.
  intros Hws Hc. pose proof (loadEntry_nonneg ws c Hc) as H0.
  assert (Hd : 0 <= if d <=? 0 then 0 else d) by (destruct (d <=? 0) eqn:E0; b2p; lia).
  unfold SetIdleTimeout, SetCapabilities. rewrite !decide_False by done.
  split_and!; try by apply no_husks_deleteIfEmpty.
  - split; intros ws'; [|intros name]; cbn; unfold IdleTimeout, HasCapability;
      rewrite loadEntry_deleteIfEmpty by done; destruct (decide (ws' = ws)) as [->|]; try done.
    cbn. by destruct (d <=? 0) eqn:E0; [|rewrite E0].
  - split; intros ws'; [|intros name]; cbn; unfold IdleTimeout, HasCapability;
      rewrite loadEntry_deleteIfEmpty by done; destruct (decide (ws' = ws)) as [->|]; try done.
    cbn [capabilities]. destruct (decide (name = "")) as [->|Hn];
      [by rewrite decide_True by auto|by rewrite decide_False by tauto].
Qed.

Lemma overrides_refine_view_witness :
  let c := SetCapabilities "a" {[ "scheduler" := true ]} ∅ in
  no_husks c /\ HasCapability "a" "scheduler" (SetIdleTimeout "a" 5 c) = true.
Proof.
  intros c. assert (no_husks (∅ : runtimeOverrideCache)) as H0 by (intros ws e He; by rewrite lookup_empty in He).
  destruct (overrides_refine_view "a" 5 {[ "scheduler" := true ]} ∅ ltac:(done) H0) as (_ & Hc & _ & _).
  split; [exact Hc|].
  destruct (overrides_refine_view "a" 5 ∅ c ltac:(done) Hc) as (_ & _ & [_ Hv] & _).
  etransitivity; [exact (Hv "a" "scheduler")|]. vm_compute. reflexivity.
Defined.

(** The workspaces listed for a capability are those that have it. *)
Lemma WorkspacesWithCapability_spec ws name c :
  no_husks c -> (ws ∈ WorkspacesWithCapability name c) <-> HasCapability ws name c = true.
Proof.
  intros Hc. unfold WorkspacesWithCapability, HasCapability. destruct (decide (name = "")) as [->|Hn].
  - rewrite decide_True by auto. split; [|done]. intros Hin. by apply not_elem_of_empty in Hin.
  - rewrite elem_of_dom. unfold loadEntry. split.
    + intros [e [He Hcap]%map_lookup_filter_Some]. cbn in Hcap.
      destruct (Hc _ _ He) as (Hws & _). rewrite decide_False by tauto. rewrite He. cbn. by rewrite Hcap.
    + case_decide as Hd; [done|]. destruct (c !! ws) as [e|] eqn:Ee; cbn; [|by rewrite lookup_empty].
      destruct (capabilities e !! name) as [b|] eqn:Eb; cbn; [|done]. intros ->.
      exists e. apply map_lookup_filter_Some. by split.
Qed.

(** A declared timeout so large that its nanoseconds overflow is read as none. *)
Example overflowing_timeout_is_cleared :
  IdleTimeout "a" (SetIdleTimeout "a" (seconds 9223372037) ∅) = None.
Proof. vm_compute. reflexivity. Qed.
