(* ===== verification/Budget.v ===== *)
(** * Spending limits of a workspace

    internal/handlers/budget_periods.go, budget.go and checkWorkspaceBudget of
    a2a_proxy.go: a ledger of spend increments, limits over four rolling windows
    and the check that refuses a call.  The limits are a JSON document in a
    column of the workspaces row; the ledger names its workspace by the text it
    was given, a TEXT column.  An integer literal is a [JNum] over 1; a literal
    with a fraction has the denominator it is written with. *)

From S2P Require Import Prelude Tree.

(** ** The periods *)

Inductive BudgetPeriod := PeriodHourly | PeriodDaily | PeriodWeekly | PeriodMonthly.
#[export] Instance BudgetPeriod_eq_dec : EqDecision BudgetPeriod.
Proof. solve_decision. Defined.

Definition period_name (p : BudgetPeriod) : string :=
  match p with
  | PeriodHourly => "hourly" | PeriodDaily => "daily" | PeriodWeekly => "weekly" | PeriodMonthly => "monthly"
  end.
Definition window (p : BudgetPeriod) : time :=
  match p with
  | PeriodHourly => Hour | PeriodDaily => 24 * Hour | PeriodWeekly => 7 * 24 * Hour | PeriodMonthly => 30 * 24 * Hour
  end.
Definition budgetPeriods : list BudgetPeriod := [PeriodHourly; PeriodDaily; PeriodWeekly; PeriodMonthly].
Definition spendLedgerRetention : time := 35 * 24 * Hour.

(** A map from periods: [None] is an absent key. *)
Definition limits := BudgetPeriod -> option Z.
Definition no_limits : limits := fun _ => None.
Definition has_limits (m : limits) : bool := existsb (fun p => bool_decide (is_Some (m p))) budgetPeriods.

(** ** The limits as JSON *)

Definition fits64 (z : Z) : bool := (- 2 ^ 63 <=? z) && (z <? 2 ^ 63).

(** Unmarshal into a [*int64]; [None] is an error. *)
Definition decode_int (j : json) : option (option Z) :=
  match j with
  | JNull => Some None
  | JNum n 1 => if fits64 n then Some (Some n) else None
  | _ => None
  end.

(** Unmarshal into a [map[string]*int64]: a later member replaces an earlier one. *)
Definition decode_int_map (j : json) : option (list (string * option Z)) :=
  match j with
  | JNull => Some []
  | JObj l => mapM (fun kv => pair kv.1 <$> decode_int kv.2) l
  | _ => None
  end.
Definition assoc_last {A} (k : string) (m : list (string * A)) : option A :=
  fold_left (fun acc kv => if decide (kv.1 = k) then Some kv.2 else acc) m None.

Definition parseBudgetLimits (raw : json) : limits := fun p =>
  match decode_int_map raw with
  | None => None
  | Some m => match assoc_last (period_name p) m with
              | Some (Some v) => if 0 <=? v then Some v else None
              | _ => None
              end
  end.

(** json.Marshal writes the keys of a map in order. *)
Definition encodeBudgetLimits (m : limits) : json :=
  JObj (omap (fun p => match m p with
                       | Some v => if 0 <=? v then Some (period_name p, JNum v 1) else None
                       | None => None
                       end) [PeriodDaily; PeriodHourly; PeriodMonthly; PeriodWeekly]).

(** ** The ledger *)

Record spend_event := SpendEvent { se_workspace : string; delta_cents : Z; occurred_at : time }.

(** The rows of workspaces as far as budgets go: status and budget_limits, and
    the legacy budget_limit. *)
Record budget_row := BudgetRow { bu_status : string; budget_limits : json; budget_limit : option Z }.
Record budget_db := BudgetDb { bd_rows : gmap string budget_row; bd_events : list spend_event }.

(** [occurred_at < now() - 35 days]; the interval is in whole seconds. *)
Definition prunable (now : time) (workspaceID : string) (e : spend_event) : bool :=
  bool_decide (se_workspace e = workspaceID) &&
  (occurred_at e <? now - (spendLedgerRetention / Second) * Second).
Definition prune (now : time) (workspaceID : string) (l : list spend_event) : list spend_event :=
  List.filter (fun e => negb (prunable now workspaceID e)) l.

(** The table holds positive increments only (a CHECK).  [None]: the INSERT
    errored. *)
Definition recordSpendDelta (fails prune_fails : bool) (now : time) (workspaceID : string) (deltaCents : Z)
    (l : list spend_event) : option (list spend_event) :=
  if deltaCents <=? 0 then Some l
  else if fails then None
  else let l' := l ++ [SpendEvent workspaceID deltaCents now] in
       Some (if prune_fails then l' else prune now workspaceID l').

Definition in_window (now : time) (workspaceID : string) (w : time) (e : spend_event) : bool :=
  bool_decide (se_workspace e = workspaceID) && (now - w <? occurred_at e).
Definition total (l : list spend_event) : Z := foldr (fun e n => delta_cents e + n) 0 l.

(** The sum over one window, of the rows of the largest. *)
Definition window_sum (now : time) (workspaceID : string) (p : BudgetPeriod) (l : list spend_event) : Z :=
  total (List.filter (in_window now workspaceID (window p))
           (List.filter (in_window now workspaceID (window PeriodMonthly)) l)).

(** [None]: the query or its Scan into int64 errored. *)
Definition spendByPeriod (fails : bool) (now : time) (workspaceID : string) (l : list spend_event)
    : option (BudgetPeriod -> Z) :=
  if fails then None
  else if forallb (fun p => fits64 (window_sum now workspaceID p l)) budgetPeriods
  then Some (fun p => window_sum now workspaceID p l) else None.

Definition exceededPeriods (m : limits) (spend : BudgetPeriod -> Z) : list BudgetPeriod :=
  List.filter (fun p => some_and (m p) (fun limit => limit <=? spend p)) budgetPeriods.

(** ** The check of a call and the handlers *)

(** [Some over] is the 402 with its exceeded_periods. *)
Definition checkWorkspaceBudget `{UuidCast} (read_fails spend_fails : bool) (now : time) (workspaceID : string)
    (db : budget_db) : option (list BudgetPeriod) :=
  if read_fails then None
  else match canon workspaceID ≫= fun id => bd_rows db !! id with
       | None => None
       | Some r =>
           let m := parseBudgetLimits (budget_limits r) in
           if negb (has_limits m) then None
           else match spendByPeriod spend_fails now workspaceID (bd_events db) with
                | None => None
                | Some spend => match exceededPeriods m spend with [] => None | over => Some over end
                end
       end.

Record periodBudget := PeriodBudget { pb_limit : option Z; pb_spend : Z; pb_remaining : option Z }.
Record budgetResponse := BudgetResponse {
  br_periods : BudgetPeriod -> periodBudget;
  br_limit : option Z;
  br_monthly_spend : Z;
  br_remaining : option Z
}.

Definition buildBudgetResponse (fails : bool) (now : time) (workspaceID : string) (limitsRaw : json)
    (l : list spend_event) : option budgetResponse :=
  let m := parseBudgetLimits limitsRaw in
  match spendByPeriod fails now workspaceID l with
  | None => None
  | Some spend =>
      let pb p := PeriodBudget (m p) (spend p) ((fun lim => wrap64 (lim - spend p)) <$> m p) in
      Some (BudgetResponse pb (pb_limit (pb PeriodMonthly)) (spend PeriodMonthly) (pb_remaining (pb PeriodMonthly)))
  end.

(** The responses: 200 with the budget, 200 "updated", and the errors by code. *)
Inductive budget_reply := BudgetOk (r : budgetResponse) | BudgetUpdated | BudgetErr (code : Z).
Definition reply_ok (r : budget_reply) : bool := match r with BudgetErr _ => false | _ => true end.

Definition GetBudget `{UuidCast} (read_fails spend_fails : bool) (now : time) (workspaceID : string) (db : budget_db)
    : budget_reply :=
  if read_fails then BudgetErr 500
  else match canon workspaceID with
       | None => BudgetErr 500
       | Some id =>
           match bd_rows db !! id with
           | Some r =>
               if decide (bu_status r = "removed") then BudgetErr 404
               else match buildBudgetResponse spend_fails now workspaceID (budget_limits r) (bd_events db) with
                    | Some b => BudgetOk b
                    | None => BudgetErr 500
                    end
           | None => BudgetErr 404
           end
       end.

Definition period_of (k : string) : option BudgetPeriod :=
  List.find (fun p => bool_decide (period_name p = k)) budgetPeriods.

(** The loop over the decoded map; it stops at a bad entry with a 400. *)
Definition collect_limits (m : list (string * option Z)) : option limits :=
  if forallb (fun kv => bool_decide (is_Some (period_of kv.1)) &&
                        match assoc_last kv.1 m with Some (Some v) => 0 <=? v | _ => true end) m
  then Some (fun p => match assoc_last (period_name p) m with Some (Some v) => Some v | _ => None end)
  else None.

(** What the body asks for, [None] where it is refused. *)
Definition patch_limits (body : option json) : option limits :=
  match body with
  | Some (JObj raw) =>
      match assoc_last "budget_limits" raw, assoc_last "budget_limit" raw with
      | None, None => None
      | Some j, _ => decode_int_map j ≫= collect_limits
      | None, Some j =>
          match decode_int j with
          | Some (Some v) => if v <? 0 then None else Some (fun p => if decide (p = PeriodMonthly) then Some v else None)
          | Some None => Some no_limits
          | None => None
          end
      end
  | _ => None
  end.

(** [body]: the document of the request, [None] where it is not JSON.  The three
    statements fail on their own; [race] is what others do between them. *)
Definition PatchBudget `{UuidCast} (exists_fails update_fails spend_fails : bool) (race : budget_db -> budget_db)
    (now : time) (workspaceID : string) (body : option json) (db : budget_db) : budget_db * budget_reply :=
  match patch_limits body with
  | None => (db, BudgetErr 400)
  | Some m =>
      if exists_fails then (db, BudgetErr 404)
      else match canon workspaceID with
           | None => (db, BudgetErr 404)
           | Some id =>
               if some_and (bd_rows db !! id) (fun r => negb (bool_decide (bu_status r = "removed"))) then
                 let db := race db in
                 if update_fails then (db, BudgetErr 500)
                 else
                   let set r := BudgetRow (bu_status r) (encodeBudgetLimits m) (m PeriodMonthly) in
                   let db' := BudgetDb (alter set id (bd_rows db)) (bd_events db) in
                   match buildBudgetResponse spend_fails now workspaceID (encodeBudgetLimits m) (bd_events db') with
                   | Some b => (db', BudgetOk b)
                   | None => (db', BudgetUpdated)
                   end
               else (db, BudgetErr 404)
           end
  end.

(** ** Limits and their encoding *)

Definition valid_limits (m : limits) : Prop := forall p v, m p = Some v -> 0 <= v < 2 ^ 63.

Lemma decode_int_nat v : 0 <= v < 2 ^ 63 -> decode_int (JNum v 1) = Some (Some v).
Proof.
  intros Hv. unfold decode_int, fits64.
  rewrite (proj2 (Z.leb_le (- 2 ^ 63) v)), (proj2 (Z.ltb_lt v (2 ^ 63))) by lia. reflexivity.
Qed.

(** An encoded map reads back as it was. *)
Lemma parse_encode m p : valid_limits m -> parseBudgetLimits (encodeBudgetLimits m) p = m p.
Proof.
  intros Hm. unfold parseBudgetLimits, encodeBudgetLimits, decode_int_map.
  pose proof (Hm PeriodDaily) as Hd. pose proof (Hm PeriodHourly) as Hh.
  pose proof (Hm PeriodMonthly) as Ho. pose proof (Hm PeriodWeekly) as Hw.
  assert (Hle : forall v, 0 <= v < 2 ^ 63 -> (0 <=? v) = true) by (intros; apply Z.leb_le; lia).
  destruct (m PeriodDaily) as [d|] eqn:Ed; destruct (m PeriodHourly) as [h|] eqn:Eh;
    destruct (m PeriodMonthly) as [o|] eqn:Eo; destruct (m PeriodWeekly) as [w|] eqn:Ew;
    cbn [omap list_omap]; rewrite ?Ed, ?Eh, ?Eo, ?Ew, ?Hle by eauto; cbn [omap list_omap];
    cbn [mapM fst snd]; rewrite ?decode_int_nat by eauto;
    destruct p; cbn; repeat (first [rewrite decide_True by done | rewrite decide_False by done]);
    rewrite ?Ed, ?Eh, ?Eo, ?Ew, ?Hle by eauto; reflexivity.
Qed.

Lemma mapM_decode_fits m l :
  mapM (fun kv : string * json => pair kv.1 <$> decode_int kv.2) l = Some m ->
  Forall (fun kv => forall v, kv.2 = Some v -> v < 2 ^ 63) m.
Proof.
  revert m. induction l as [|[k j] l IH]; intros m; cbn.
  - intros [= <-]. constructor.
  - destruct (decode_int j) as [o|] eqn:Ej; cbn; [|done].
    destruct (mapM _ l) as [m'|] eqn:Em; cbn; [|done]. intros [= <-]. constructor; [|by apply IH].
    intros v Hv. cbn in Hv. subst o. unfold decode_int, fits64 in Ej. repeat step_case_in Ej; simplify_eq. b2p. lia.
Qed.

Lemma assoc_last_spec {A} k (m : list (string * A)) acc x :
  fold_left (fun acc kv => if decide (kv.1 = k) then Some kv.2 else acc) m acc = Some x ->
  acc = Some x \/ (k, x) ∈ m.
Proof.
  revert acc. induction m as [|[k' y] m IH]; intros acc; cbn; [auto|].
  intros Hf. apply IH in Hf as [Hf|Hf].
  - case_decide; simplify_eq; [right; left|by left].
  - right. by right.
Qed.

Lemma assoc_last_in {A} k (m : list (string * A)) x : assoc_last k m = Some x -> (k, x) ∈ m.
Proof. intros Hx. by destruct (assoc_last_spec k m None x Hx). Qed.

Lemma decode_int_map_fits j m : decode_int_map j = Some m -> Forall (fun kv => forall v, kv.2 = Some v -> v < 2 ^ 63) m.
Proof.
  destruct j; cbn; try done.
  - intros [= <-]. constructor.
  - apply mapM_decode_fits.
Qed.

(** What PatchBudget takes from a body is never negative and fits the column. *)
Lemma patch_limits_valid body m : patch_limits body = Some m -> valid_limits m.
Proof.
  unfold patch_limits. intros Hm p v Hp. destruct body as [[| | | | |raw]|]; try done.
  destruct (assoc_last "budget_limits" raw) as [j|] eqn:Ej.
  - destruct (decode_int_map j) as [dm|] eqn:Ed; cbn in Hm; [|done].
    unfold collect_limits in Hm. destruct (forallb _ dm) eqn:Ef; [|done]. simplify_eq.
    destruct (assoc_last (period_name p) dm) as [[w|]|] eqn:Ea; simplify_eq.
    pose proof (assoc_last_in _ _ _ Ea) as Hin.
    rewrite forallb_forall in Ef. specialize (Ef _ (proj1 (list_elem_of_In _ _) Hin)). cbn in Ef. b2p.
    rewrite Ea in *. b2p.
    pose proof (decode_int_map_fits _ _ Ed) as Hfit. rewrite Forall_forall in Hfit.
    specialize (Hfit _ Hin v eq_refl). lia.
  - destruct (assoc_last "budget_limit" raw) as [j|]; [|done].
    destruct (decode_int j) as [[w|]|] eqn:Ed; [|by simplify_eq|done].
    destruct (w <? 0) eqn:Ew; simplify_eq. case_decide; simplify_eq. b2p.
    unfold decode_int, fits64 in Ed. repeat step_case_in Ed; simplify_eq. b2p. lia.
Qed.

(** ** Sums *)

#[local] Arguments total : simpl never.
Lemma total_cons e l : total (e :: l) = delta_cents e + total l.
Proof. reflexivity. Qed.
Lemma total_app l l' : total (l ++ l') = total l + total l'.
Proof. induction l as [|e l IH]; cbn; rewrite ?total_cons; [done|]. rewrite IH. lia. Qed.

Lemma total_filter_split (f : spend_event -> bool) l :
  total l = total (List.filter f l) + total (List.filter (fun e => negb (f e)) l).
Proof. induction l as [|e l IH]; [done|]. cbn. destruct (f e); cbn; rewrite ?total_cons, IH; lia. Qed.

Lemma total_filter_nonneg f l : Forall (fun e => 0 < delta_cents e) l -> 0 <= total (List.filter f l).
Proof. induction 1; cbn; [done|]. destruct (f x); rewrite ?total_cons; lia. Qed.

Lemma filter_filter_le (f g : spend_event -> bool) l :
  (forall e, f e = true -> g e = true) -> List.filter f (List.filter g l) = List.filter f l.
Proof.
  intros Hfg. induction l as [|e l IH]; [done|]. cbn. destruct (g e) eqn:Eg; cbn; rewrite IH; [done|].
  destruct (f e) eqn:Ef; [|done]. by rewrite (Hfg _ Ef) in Eg.
Qed.

Lemma window_le_month p : window p <= window PeriodMonthly.
Proof. destruct p; cbn; unfold Hour, Minute, Second; lia. Qed.

Lemma in_window_mono now ws a b e : a <= b -> in_window now ws a e = true -> in_window now ws b e = true.
Proof.
  intros Hab He. unfold in_window in *. b2p.
  rewrite (bool_decide_eq_true_2 _ H), (proj2 (Z.ltb_lt _ _)); [done|lia].
Qed.

(** The outer bound of the query leaves no row of a window out. *)
Lemma window_sum_direct now ws p l : window_sum now ws p l = total (List.filter (in_window now ws (window p)) l).
Proof.
  unfold window_sum. rewrite filter_filter_le; [done|]. intros e. apply in_window_mono, window_le_month.
Qed.

Lemma retention_covers p : window p <= (spendLedgerRetention / Second) * Second.
Proof. by destruct p; vm_compute. Qed.

(** A pruned row lies before every window from then on. *)
Lemma prunable_out_of_window now now' ws ws' p e :
  now <= now' -> prunable now ws e = true -> in_window now' ws' (window p) e = false.
Proof.
  intros Hn Hp. unfold prunable, in_window in *. b2p. pose proof (retention_covers p).
  rewrite (proj2 (Z.ltb_ge _ _)); [by rewrite andb_false_r|lia].
Qed.

Lemma prune_keeps_windows now now' ws ws' p l :
  now <= now' -> window_sum now' ws' p (prune now ws l) = window_sum now' ws' p l.
Proof.
  intros Hn. rewrite !window_sum_direct. unfold prune. rewrite filter_filter_le; [done|].
  intros e He. apply negb_true_iff. destruct (prunable now ws e) eqn:Ep; [|done].
  by rewrite (prunable_out_of_window _ _ _ ws' p _ Hn Ep) in He.
Qed.

Lemma window_sum_app now ws p l l' :
  window_sum now ws p (l ++ l') = window_sum now ws p l + window_sum now ws p l'.
Proof.
  by rewrite !window_sum_direct, List.filter_app, total_app.
Qed.

Lemma window_sum_nil now ws p : window_sum now ws p [] = 0.
Proof. reflexivity. Qed.

(** ** The ledger over time *)

Record recording := Recording {
  rc_at : time; rc_workspace : string; rc_delta : Z; rc_fails : bool; rc_prune_fails : bool
}.

(** The recordings of all workspaces, one after the other. *)
Fixpoint record_all (h : list recording) (l : list spend_event) : list spend_event :=
  match h with
  | [] => l
  | r :: h' =>
      record_all h' (default l (recordSpendDelta (rc_fails r) (rc_prune_fails r) (rc_at r) (rc_workspace r) (rc_delta r) l))
  end.

(** What a recording adds. *)
Definition recorded (r : recording) : list spend_event :=
  if (rc_delta r <=? 0) || rc_fails r then [] else [SpendEvent (rc_workspace r) (rc_delta r) (rc_at r)].

Lemma recordSpendDelta_window r now ws p l :
  rc_at r <= now ->
  window_sum now ws p (default l (recordSpendDelta (rc_fails r) (rc_prune_fails r) (rc_at r) (rc_workspace r) (rc_delta r) l)) =
  window_sum now ws p l + window_sum now ws p (recorded r).
Proof.
  intros Hn. unfold recordSpendDelta, recorded. destruct (rc_delta r <=? 0); cbn [orb default from_option id];
    [|destruct (rc_fails r); cbn [orb default from_option id]].
  - rewrite window_sum_nil. lia.
  - rewrite window_sum_nil. lia.
  - destruct (rc_prune_fails r); rewrite ?prune_keeps_windows by done; apply window_sum_app.
Qed.

(** what a period has spent is the sum of the increments recorded for the
    workspace within it: pruning the ledger never takes an increment out of a
    window. *)
Theorem spend_is_what_was_recorded h l now ws p :
  Forall (fun r => rc_at r <= now) h ->
  window_sum now ws p (record_all h l) =
  window_sum now ws p l + total (List.filter (in_window now ws (window p)) (flat_map recorded h)).
Proof.
  intros Hh. revert l. induction Hh as [|r h Hr _ IH]; intros l; cbn [record_all flat_map].
  - unfold total at 1. cbn. lia.
  - rewrite IH, recordSpendDelta_window by done.
    rewrite <- !(window_sum_direct now ws p), window_sum_app. lia.
Qed.

(** ** The check *)

Lemma exceededPeriods_spec m spend p :
  p ∈ exceededPeriods m spend <-> exists v, m p = Some v /\ v <= spend p.
Proof.
  unfold exceededPeriods. rewrite list_elem_of_In, filter_In. split.
  - intros [_ Hp]. destruct (m p) as [v|]; cbn in Hp; [|done]. b2p. eauto.
  - intros (v & Hv & Hle). split; [destruct p; cbn; tauto|]. rewrite Hv. cbn. by apply Z.leb_le.
Qed.

Lemma has_limits_spec m : has_limits m = true <-> exists p v, m p = Some v.
Proof.
  unfold has_limits. rewrite existsb_exists. split.
  - intros (p & _ & Hp). b2p. destruct Hp as [v Hv]. eauto.
  - intros (p & v & Hv). exists p. split; [destruct p; cbn; tauto|]. apply bool_decide_eq_true. eauto.
Qed.

Definition sums_fit (now : time) (ws : string) (l : list spend_event) : Prop :=
  forall p, fits64 (window_sum now ws p l) = true.

Lemma spendByPeriod_fits now ws l :
  sums_fit now ws l -> spendByPeriod false now ws l = Some (fun p => window_sum now ws p l).
Proof. intros Hf. unfold spendByPeriod. cbn [budgetPeriods forallb]. by rewrite !Hf. Qed.

Lemma sums_fit_dec now ws l : {sums_fit now ws l} + {~ sums_fit now ws l}.
Proof.
  destruct (forallb (fun p => fits64 (window_sum now ws p l)) budgetPeriods) eqn:E.
  - left. intros p. rewrite forallb_forall in E. apply E. destruct p; cbn; tauto.
  - right. intros Hf. rewrite (proj2 (forallb_forall _ _)) in E; [done|]. intros p _. apply Hf.
Qed.

Lemma spendByPeriod_overflow now ws l : ~ sums_fit now ws l -> spendByPeriod false now ws l = None.
Proof.
  intros Hf. unfold spendByPeriod. destruct (forallb _ _) eqn:E; [|done]. destruct Hf. intros p.
  rewrite forallb_forall in E. apply E. destruct p; cbn; tauto.
Qed.

(** A row with the limits [m] refuses exactly at a reached limit that both
    queries and the Scan let it see; otherwise the call goes through. *)
Lemma check_decides `{UuidCast} rf sf now ws id r m db :
  canon ws = Some id -> bd_rows db !! id = Some r -> (forall p, parseBudgetLimits (budget_limits r) p = m p) ->
  forall p, (exists over, checkWorkspaceBudget rf sf now ws db = Some over /\ p ∈ over) <->
            rf = false /\ sf = false /\ sums_fit now ws (bd_events db) /\
            (exists v, m p = Some v /\ v <= window_sum now ws p (bd_events db)).
Proof.
  intros Hc Hr Hm p. unfold checkWorkspaceBudget. destruct rf; [split; [by intros (? & ? & _)|by intros (? & _)]|].
  rewrite Hc. cbn [mbind option_bind]. rewrite Hr. set (m' := parseBudgetLimits (budget_limits r)).
  set (spend := fun p => window_sum now ws p (bd_events db)).
  assert (Hspec := exceededPeriods_spec m' spend p). rewrite <- (Hm p). fold m'.
  destruct (has_limits m') eqn:Eh; cbn [negb].
  - destruct sf; [split; [by intros (? & ? & _)|by intros (_ & ? & _)]|].
    destruct (sums_fit_dec now ws (bd_events db)) as [Hf|Hf].
    + rewrite spendByPeriod_fits by done. fold spend.
      transitivity (p ∈ exceededPeriods m' spend); [|rewrite Hspec; unfold spend; tauto].
      destruct (exceededPeriods m' spend) as [|q over] eqn:Eo; split.
      * by intros (over & ? & _).
      * intros Hin. by apply not_elem_of_nil in Hin.
      * by intros (over' & [= <-] & Hin).
      * eauto.
    + rewrite spendByPeriod_overflow by done. split; [by intros (? & ? & _)|tauto].
  - split; [by intros (over & ? & _)|]. intros (_ & _ & _ & v & Hv & _).
    assert (has_limits m' = true) by (apply has_limits_spec; eauto). congruence.
Qed.

(** C16: limits a PATCH accepted are the ones enforced: as long as nobody writes
    the row again, a call to the workspace is refused, naming a period, exactly
    when both reads of the check work, the four sums fit an int64, and the period
    has a limit that the spend recorded in it under the id, as the call spells it,
    has reached - a limit of 0 always. Whatever is not refused goes through: the
    check fails open. *)
Theorem patched_limits_are_enforced `{UuidCast} exists_fails spend_fails race now ws id body m db db' rep rf sf now' db2 p :
  patch_limits body = Some m ->
  PatchBudget exists_fails false spend_fails race now ws body db = (db', rep) -> reply_ok rep = true ->
  canon ws = Some id -> is_Some (bd_rows (race db) !! id) ->
  bd_rows db2 !! id = bd_rows db' !! id ->
  (exists over, checkWorkspaceBudget rf sf now' ws db2 = Some over /\ p ∈ over) <->
  rf = false /\ sf = false /\ sums_fit now' ws (bd_events db2) /\
  (exists v, m p = Some v /\ v <= window_sum now' ws p (bd_events db2)).
Proof.
  intros Hm Hp Hrep Hc [r Hr] Hsame. unfold PatchBudget in Hp. rewrite Hm, Hc in Hp.
  destruct exists_fails; [by simplify_eq|].
  destruct (some_and _ _); [|simplify_eq; by destruct (Hrep 404)]. cbn zeta in Hp.
  eapply (check_decides rf sf now' ws id (BudgetRow (bu_status r) (encodeBudgetLimits m) (m PeriodMonthly))); [done| |
    intros q; apply parse_encode; by eapply patch_limits_valid].
  rewrite Hsame. assert (Hd : db' = fst (db', rep)) by done. rewrite Hd, <- Hp.
  destruct (buildBudgetResponse _ _ _ _ _); cbn [fst bd_rows]; by rewrite lookup_alter_eq, Hr.
Qed.

(** ** On concrete inputs *)

Definition demo_body : json := JObj [("budget_limits", JObj [("hourly", JNum 100 1); ("weekly", JNull); ("monthly", JNum 0 1)])].
Definition demo_budget_db (spent : Z) : budget_db :=
  BudgetDb {[ "a" := BudgetRow "online" (JObj []) None ]} [SpendEvent "a" spent (10 * Hour)].

Example patch_then_check :
  let '(db, _) := @PatchBudget plain_cast false false false id (10 * Hour) "a" (Some demo_body) (demo_budget_db 99) in
  @checkWorkspaceBudget plain_cast false false (10 * Hour + 1) "a" db = Some [PeriodMonthly] /\
  @checkWorkspaceBudget plain_cast false false (10 * Hour + 1) "a"
    (BudgetDb (bd_rows db) (bd_events (demo_budget_db 100))) = Some [PeriodHourly; PeriodMonthly].
Proof. vm_compute. auto. Qed.

Lemma spend_is_what_was_recorded_witness :
  let h := [Recording 0 "a" 5 false false; Recording (40 * 24 * Hour) "a" 7 false false] in
  record_all h [] = [SpendEvent "a" 7 (40 * 24 * Hour)] /\
  window_sum (40 * 24 * Hour) "a" PeriodMonthly (record_all h []) = 7.
Proof.
  intros h. split; [reflexivity|]. unfold h. rewrite spend_is_what_was_recorded; [reflexivity|].
  repeat constructor; cbn; unfold Hour, Minute, Second; lia.
Defined.

Definition demo_patched : budget_db * budget_reply :=
  @PatchBudget plain_cast false false false id (10 * Hour) "a" (Some demo_body) (demo_budget_db 100).

Lemma demo_sums_fit : sums_fit (10 * Hour + 1) "a" (bd_events demo_patched.1).
Proof. intros []; vm_compute; reflexivity. Qed.

Lemma patched_limits_are_enforced_witness :
  exists over, @checkWorkspaceBudget plain_cast false false (10 * Hour + 1) "a" demo_patched.1 = Some over /\
               PeriodHourly ∈ over.
Proof.
  destruct (patch_limits (Some demo_body)) as [m|] eqn:Em; [|vm_compute in Em; discriminate].
  assert (Hm : m PeriodHourly = Some 100) by (vm_compute in Em; by simplify_eq).
  refine (proj2 (@patched_limits_are_enforced plain_cast false false id (10 * Hour) "a" "a" (Some demo_body)
                   m (demo_budget_db 100) demo_patched.1 demo_patched.2 false false (10 * Hour + 1) demo_patched.1 PeriodHourly Em
                   (surjective_pairing demo_patched) _ eq_refl _ eq_refl) _).
  - vm_compute. reflexivity.
  - vm_compute. eauto.
  - split_and!; [reflexivity|reflexivity|exact demo_sums_fit|].
    exists 100. split; [exact Hm|]. vm_compute. discriminate.
Defined.

(** A cast that ignores case, as Postgres' does. *)
Lemma ascii_lower_idem a : ascii_lower (ascii_lower a) = ascii_lower a.
Proof. destruct a as [[] [] [] [] [] [] [] []]; vm_compute; reflexivity. Qed.
Lemma str_lower_idem s : str_lower (str_lower s) = str_lower s.
Proof. induction s as [|a s IH]; [done|]. cbn. by rewrite ascii_lower_idem, IH. Qed.

Program Definition lower_cast : UuidCast :=
  {| canon := fun s => if decide (s = "") then None else Some (str_lower s) |}.
Next Obligation.
  intros s c. simpl. case_decide; [done|]. intros [= <-]. rewrite decide_False.
  - by rewrite str_lower_idem.
  - by destruct s.
Qed.
Next Obligation. intros c. simpl. case_decide; [done|]. destruct c; [done|]. by intros [= ?]. Qed.

(** The limits are found by uuid and the spend by text: a call that spells the id
    in upper case is measured against no spend at all. *)
Example budget_bypassed_by_spelling :
  let db := BudgetDb {[ "ab" := BudgetRow "online" (encodeBudgetLimits (fun _ => Some 100)) None ]}
              [SpendEvent "ab" 500 Hour] in
  @checkWorkspaceBudget lower_cast false false Hour "ab" db = Some budgetPeriods /\
  @checkWorkspaceBudget lower_cast false false Hour "AB" db = None.
Proof. vm_compute. auto. Qed.
