(* ===== verification/McpSurface.v ===== *)
(** * The management surface a runtime advertises, and what was dispatched

    internal/handlers/registry.go, from mcpToolIDNamespace to classifyMCPSurface:
    how the inventory of a heartbeat is checked against the tools core has seen
    the model call.  The statements around it are in Heartbeat.  A sorted list
    without repetitions is kept as its set, and a map used as a set is one. *)

From Stdlib Require Import Ascii.
From S2P Require Import Prelude Json Truncate RateLimit ContainerNames.

(** ** The namespace of a dispatcher id *)

(** [strings.Index]. *)
Fixpoint str_index (s sub : string) : option nat :=
  if has_prefix s sub then Some 0%nat
  else match s with "" => None | String _ s' => S <$> str_index s' sub end.

(** The characters mcpToolIDUnsafe keeps. *)
Definition word_char (a : Ascii.ascii) : bool :=
  let n := Ascii.nat_of_ascii a in
  ((48 <=? n) && (n <=? 57) || (65 <=? n) && (n <=? 90) || (97 <=? n) && (n <=? 122) || (n =? 95))%nat.

(** [mcpToolIDUnsafe.ReplaceAllString(s, "_")], rune by rune. *)
Fixpoint replace_unsafe (fuel : nat) (s : string) : string :=
  match fuel, s with
  | S f, String a s' =>
      if word_char a then String a (replace_unsafe f s') else String "_"%char (replace_unsafe f (str_drop (rune_width s) s))
  | _, _ => ""
  end.
Definition sanitize (s : string) : string := replace_unsafe (String.length s) s.

Definition mcpToolIDNamespace (toolID : string) : string :=
  let s := TrimSpace toolID in
  if negb (has_prefix s "mcp__") then ""
  else let rest := str_drop 5 s in
       match str_index rest "__" with
       | None | Some O => ""
       | Some idx => if (String.length rest <=? idx + 2)%nat then "" else sanitize (str_take idx rest)
       end.

(** ** The dispatches on record *)

(** One entry of a trace: an object with a tool, or a bare string. *)
Definition entry_tool (e : json) : string :=
  let '(tool, bad) := get_string ["tool"] e in
  if negb bad && negb (bool_decide (tool = "")) then tool else match e with JStr s => s | _ => "" end.

(** A document that is not an array of entries is skipped. *)
Definition trace_entries (trace : json) : list json := match trace with JArr l => l | _ => [] end.

Definition add_dispatch (acc : gset string * nat) (e : json) : gset string * nat :=
  let ns := mcpToolIDNamespace (entry_tool e) in
  if decide (ns = "") then acc else ({[ ns ]} ∪ acc.1, S acc.2).
Definition mcpDispatchNamespacesFrom (toolTraces : list json) : gset string * nat :=
  fold_left add_dispatch (flat_map trace_entries toolTraces) (∅, 0%nat).

(** ** The verdict *)

Definition verdictNoInventory := "unknown:no_inventory_reported".
Definition verdictNoDispatchRecord := "unknown:no_dispatch_record".
Definition verdictNotYetExercised := "unknown:advertised_not_yet_exercised".
Definition verdictCorroborated := "dispatch_observed:namespace_corroborated".

Record mcpSurfaceReport := Surface {
  ReportedCount : nat;
  DispatchCorroboratedCount : nat;
  AdvertisedOnlyCount : nat;
  ReportedNamespaces : gset string;
  DispatchedNamespaces : gset string;
  DispatchRecords : nat;
  CorroboratedNamespaces : gset string;
  FirstCorroboratedAt : option time;
  Verdict : string;
  ObservedAt : time
}.

Definition everDispatched (dispatched : gset string) (prior : option mcpSurfaceReport) : gset string :=
  dispatched ∪ match prior with Some r => CorroboratedNamespaces r ∖ {[ "" ]} | None => ∅ end.

Definition classifyMCPSurface (reported : list string) (dispatched : gset string) (dispatchRecords : nat)
    (prior : option mcpSurfaceReport) (now : time) : mcpSurfaceReport :=
  let ever := everDispatched dispatched prior in
  let namespaces := List.filter (fun ns => negb (bool_decide (ns = ""))) (map mcpToolIDNamespace reported) in
  let corroborated := length (List.filter (fun ns => bool_decide (ns ∈ ever)) namespaces) in
  let first := prior ≫= FirstCorroboratedAt in
  let rep := Surface (length reported) corroborated (length reported - corroborated) (list_to_set namespaces)
               dispatched dispatchRecords ever in
  if decide (length reported = 0%nat) then rep first verdictNoInventory now
  else if (0 <? corroborated)%nat then rep (Some (default now first)) verdictCorroborated now
  else if decide (ever = ∅) then rep first verdictNoDispatchRecord now
  else rep first verdictNotYetExercised now.

(** The request context keeps the verdict; anything else reads as none. *)
Definition mcpSurfaceVerdictFromContext (v : option string) : string :=
  match v with
  | Some s =>
      if bool_decide (s ∈ [verdictNoInventory; verdictNoDispatchRecord; verdictNotYetExercised; verdictCorroborated])
      then s else ""
  | None => ""
  end.

Definition mcpDispatchLookbackRows : nat := 200.

(** ** The parse *)

(** No two underscores in a row, and none at the end: what separates the server
    from the tool cannot start inside. *)
Fixpoint no_separator (s : string) : bool :=
  match s with
  | "" => true
  | String a s' => negb (bool_decide (a = "_"%char) && match s' with "" => true | String b _ => bool_decide (b = "_"%char) end)
                   && no_separator s'
  end.

Lemma str_index_separator server tool :
  no_separator server = true -> str_index (server +:+ ("__" +:+ tool)) "__" = Some (String.length server).
Proof.
  induction server as [|a s IH]; intros Hs; [destruct tool; reflexivity|].
  rewrite str_app_cons. cbn [no_separator] in Hs. apply andb_true_iff in Hs as [Ha Hs].
  assert (Hp : has_prefix (String a (s +:+ "__" +:+ tool)) "__" = false).
  { cbn [has_prefix]. destruct (decide ("_"%char = a)) as [<-|]; [|done].
    rewrite (bool_decide_true ("_"%char = "_"%char)) in Ha by done.
    destruct s as [|b s]; [done|]. rewrite str_app_cons. cbn [has_prefix].
    rewrite decide_False; [done|]. intros <-. by rewrite bool_decide_true in Ha by done. }
  cbn [str_index]. by rewrite Hp, IH.
Qed.

(** An ASCII name is sanitised character by character. *)
Fixpoint map_chars (f : Ascii.ascii -> Ascii.ascii) (s : string) : string :=
  match s with "" => "" | String a s' => String (f a) (map_chars f s') end.
Definition fold_char (a : Ascii.ascii) : Ascii.ascii := if word_char a then a else "_"%char.

Lemma name_char_width a s : name_char a = true -> rune_width (String a s) = 1%nat.
Proof. destruct a as [[] [] [] [] [] [] [] []]; intros Ha; vm_compute in Ha; try discriminate Ha; reflexivity. Qed.

#[local] Arguments rune_width : simpl never.
Lemma sanitize_ascii s : all_chars name_char s = true -> sanitize s = map_chars fold_char s.
Proof.
  unfold sanitize. induction s as [|a s IH]; cbn; [done|]. intros H. apply andb_true_iff in H as [Ha Hs].
  unfold fold_char at 1. destruct (word_char a) eqn:Ew; [by rewrite IH|].
  rewrite name_char_width by done. cbn. by rewrite IH.
Qed.

Lemma fold_char_idem a : fold_char (fold_char a) = fold_char a.
Proof. unfold fold_char at 2 3. destruct (word_char a) eqn:E; [unfold fold_char; by rewrite E|reflexivity]. Qed.
Lemma map_fold_idem s : map_chars fold_char (map_chars fold_char s) = map_chars fold_char s.
Proof. induction s as [|a s IH]; cbn; [done|]. by rewrite fold_char_idem, IH. Qed.
Lemma fold_char_name a : name_char a = true -> name_char (fold_char a) = true.
Proof. unfold fold_char. by destruct (word_char a). Qed.
Lemma map_fold_name s : all_chars name_char s = true -> all_chars name_char (map_chars fold_char s) = true.
Proof.
  induction s as [|a s IH]; cbn; [done|]. rewrite !andb_true_iff. intros [Ha Hs]. split; [by apply fold_char_name|by apply IH].
Qed.

Definition mcp_id (server tool : string) : string := "mcp__" +:+ (server +:+ ("__" +:+ tool)).

Lemma str_take_app_exact s t : str_take (String.length s) (s +:+ t) = s.
Proof. induction s as [|a s IH]; [by destruct t|]. rewrite str_app_cons. cbn. by rewrite IH. Qed.

(** The namespace of a well-formed id is the server's name, folded. *)
Lemma namespace_of_id server tool :
  all_chars name_char server = true -> all_chars name_char tool = true -> no_separator server = true ->
  server <> "" -> tool <> "" -> mcpToolIDNamespace (mcp_id server tool) = map_chars fold_char server.
Proof.
  intros Hs Ht Hsep Hne Htne. unfold mcpToolIDNamespace, mcp_id.
  rewrite TrimSpace_name by (rewrite !all_chars_app, Hs, Ht; reflexivity).
  rewrite has_prefix_app. cbn [negb]. rewrite (str_drop_app "mcp__"), str_index_separator by done.
  destruct (String.length server) as [|n] eqn:En; [by destruct server|].
  rewrite (proj2 (Nat.leb_gt _ _)).
  - rewrite <- En, str_take_app_exact. by apply sanitize_ascii.
  - rewrite !str_length_app. destruct tool; [done|]. cbn. lia.
Qed.

(** the two spellings of one server agree: an id with the name as declared
    and an id with the name as the dispatcher rewrites it, hyphens and dots to
    underscores, have one namespace - provided the rewritten name holds no double
    underscore, which would be taken for the separator. *)
Theorem spellings_agree server tool1 tool2 :
  all_chars name_char server = true -> all_chars name_char tool1 = true -> all_chars name_char tool2 = true ->
  server <> "" -> tool1 <> "" -> tool2 <> "" ->
  no_separator server = true -> no_separator (map_chars fold_char server) = true ->
  mcpToolIDNamespace (mcp_id server tool1) = mcpToolIDNamespace (mcp_id (map_chars fold_char server) tool2).
Proof.
  intros Hs H1 H2 Hne Hn1 Hn2 Hsep Hfold.
  rewrite !namespace_of_id; try done.
  - by rewrite map_fold_idem.
  - by apply map_fold_name.
  - by destruct server.
Qed.

Lemma spellings_agree_witness :
  mcpToolIDNamespace (mcp_id "molecule-platform" "list_orgs") = mcpToolIDNamespace (mcp_id "molecule_platform" "x__y").
Proof.
  exact (spellings_agree "molecule-platform" "list_orgs" "x__y" eq_refl eq_refl eq_refl ltac:(done) ltac:(done)
           ltac:(done) eq_refl eq_refl).
Defined.

(** The proviso is needed: with two unsafe characters in a row the declared id and
    the dispatched one do not meet. *)
Example adjacent_hyphens_disagree :
  mcpToolIDNamespace (mcp_id "a--b" "t") = "a__b" /\ mcpToolIDNamespace (mcp_id "a__b" "t") = "a".
Proof. vm_compute. auto. Qed.

Example namespace_edges :
  map mcpToolIDNamespace ["mcp__x__"; "mcp____t"; "mcp__x"; " mcp__a.b__t__u "; "x"] = [""; ""; ""; "a_b"; ""].
Proof. vm_compute. reflexivity. Qed.

(** ** The verdict over a run of heartbeats *)

Definition namespaces_in (traces : list json) : gset string := fst (mcpDispatchNamespacesFrom traces).

(** The record a heartbeat with this inventory leaves, given the record before it
    and the traces on file. *)
Definition surface_report (reported : list string) (traces : list json) (prior : option mcpSurfaceReport) (now : time)
    : mcpSurfaceReport :=
  match reported with
  | [] => classifyMCPSurface reported ∅ 0 None now
  | _ => let '(dispatched, records) := mcpDispatchNamespacesFrom traces in
         classifyMCPSurface reported dispatched records prior now
  end.

Record surface_beat := SurfaceBeat { sb_reported : list string; sb_traces : list json; sb_at : time }.
Definition next_surface (prior : option mcpSurfaceReport) (b : surface_beat) : option mcpSurfaceReport :=
  Some (surface_report (sb_reported b) (sb_traces b) prior (sb_at b)).
Definition run_surface (prior : option mcpSurfaceReport) (bs : list surface_beat) : option mcpSurfaceReport :=
  fold_left next_surface bs prior.

(** A tool of this namespace was called in one of the traces. *)
Definition dispatched_in (ns : string) (traces : list json) : Prop :=
  exists trace e, trace ∈ traces /\ e ∈ trace_entries trace /\ mcpToolIDNamespace (entry_tool e) = ns.

Lemma dispatch_fold_spec ns entries acc :
  (ns ∈ fst (fold_left add_dispatch entries acc)) <->
  (ns ∈ acc.1) \/ (ns <> "" /\ exists e, e ∈ entries /\ mcpToolIDNamespace (entry_tool e) = ns).
Proof.
  revert acc. induction entries as [|e l IH]; intros acc; cbn [fold_left].
  - split; [by left|]. intros [?|(_ & e & He & _)]; [done|]. by apply not_elem_of_nil in He.
  - rewrite IH. unfold add_dispatch. destruct (decide (mcpToolIDNamespace (entry_tool e) = "")) as [E0|E0].
    + split; (intros [?|(Hns & e' & He & Hn)]; [by left|right; split; [done|]]).
      * exists e'. split; [by right|done].
      * apply elem_of_cons in He as [->|He]; [congruence|eauto].
    + cbn [fst]. rewrite elem_of_union, elem_of_singleton. split.
      * intros [[->|?]|(Hns & e' & He & Hn)]; [right|by left|right]; (split; [done|]).
        -- exists e. split; [by left|done].
        -- exists e'. split; [by right|done].
      * intros [?|(Hns & e' & He & Hn)]; [by left; right|].
        apply elem_of_cons in He as [->|He]; [by left; left|right; eauto].
Qed.

Lemma namespaces_in_spec ns traces : (ns ∈ namespaces_in traces) <-> ns <> "" /\ dispatched_in ns traces.
Proof.
  unfold namespaces_in, mcpDispatchNamespacesFrom. rewrite dispatch_fold_spec. split.
  - intros [Hin|(Hns & e & He & Hn)]; [by apply not_elem_of_empty in Hin|]. split; [done|].
    apply list_elem_of_In, in_flat_map in He as (trace & Ht & He). exists trace, e. by rewrite !list_elem_of_In.
  - intros (Hns & trace & e & Ht & He & Hn). right. split; [done|]. exists e. split; [|done].
    apply list_elem_of_In, in_flat_map. exists trace. by rewrite <- !list_elem_of_In.
Qed.

Lemma classify_fields reported d n prior now :
  let rep := classifyMCPSurface reported d n prior now in
  CorroboratedNamespaces rep = everDispatched d prior /\ DispatchedNamespaces rep = d /\
  ReportedCount rep = length reported /\
  DispatchCorroboratedCount rep =
    length (List.filter (fun ns => bool_decide (ns ∈ everDispatched d prior))
              (List.filter (fun ns => negb (bool_decide (ns = ""))) (map mcpToolIDNamespace reported))).
Proof. unfold classifyMCPSurface. cbn zeta. repeat case_match; done. Qed.

(** Corroborated means: some reported id has a namespace that was dispatched. *)
Lemma classify_corroborated reported d n prior now :
  Verdict (classifyMCPSurface reported d n prior now) = verdictCorroborated <->
  exists id, id ∈ reported /\ mcpToolIDNamespace id <> "" /\ (mcpToolIDNamespace id ∈ everDispatched d prior).
Proof.
  unfold classifyMCPSurface. cbn zeta.
  set (c := List.filter _ (List.filter _ _)).
  assert (Hc : c <> [] <-> exists id, id ∈ reported /\ mcpToolIDNamespace id <> "" /\ (mcpToolIDNamespace id ∈ everDispatched d prior)).
  { split.
    - intros Hne. destruct c as [|ns c'] eqn:Ec; [done|].
      assert (Hin : In ns c) by (rewrite Ec; by left). unfold c in Hin.
      apply filter_In in Hin as [Hin Hev]. apply filter_In in Hin as [Hin Hns]. b2p.
      apply in_map_iff in Hin as (id & <- & Hid). exists id. by rewrite list_elem_of_In.
    - intros (id & Hid & Hns & Hev) Hnil. assert (Hin : In (mcpToolIDNamespace id) c); [|by rewrite Hnil in Hin].
      unfold c. apply filter_In. split; [|by apply bool_decide_eq_true].
      apply filter_In. split; [|by apply negb_true_iff, bool_decide_eq_false]. apply in_map. by apply list_elem_of_In. }
  rewrite <- Hc. destruct (decide (length reported = 0%nat)) as [E0|E0].
  - apply nil_length_inv in E0. subst reported. split; [by vm_compute|]. intros Hne. by destruct Hne.
  - destruct c as [|ns c']; cbn.
    + split; [|done]. destruct (decide _); vm_compute; discriminate.
    + split; [done|]. reflexivity.
Qed.

Lemma everDispatched_keeps ns d r : ns <> "" -> ns ∈ CorroboratedNamespaces r -> ns ∈ everDispatched d (Some r).
Proof.
  intros Hns Hin. unfold everDispatched. apply elem_of_union_r, elem_of_difference. split; [done|].
  intros He. by apply elem_of_singleton in He.
Qed.

Lemma surface_report_namespaces reported traces prior now :
  reported <> [] ->
  surface_report reported traces prior now =
  classifyMCPSurface reported (namespaces_in traces) (snd (mcpDispatchNamespacesFrom traces)) prior now.
Proof. intros Hne. unfold surface_report, namespaces_in. destruct reported; [done|]. by destruct (mcpDispatchNamespacesFrom traces). Qed.

(** Every namespace on record comes from a trace of some beat. *)
Definition from_traces (bs : list surface_beat) (r : option mcpSurfaceReport) : Prop :=
  match r with
  | None => True
  | Some r => forall ns, ns ∈ CorroboratedNamespaces r -> ns <> "" /\ exists b, b ∈ bs /\ dispatched_in ns (sb_traces b)
  end.

Lemma run_surface_from bs seen r : from_traces seen r -> from_traces (seen ++ bs) (run_surface r bs).
Proof.
  revert seen r. induction bs as [|b bs IH]; intros seen r Hr; cbn; [by rewrite app_nil_r|].
  replace (seen ++ b :: bs) with ((seen ++ [b]) ++ bs) by (by rewrite <- app_assoc). apply IH.
  intros ns Hns. unfold surface_report in Hns. destruct (sb_reported b) as [|id ids].
  - rewrite (proj1 (classify_fields _ _ _ _ _)) in Hns. unfold everDispatched in Hns.
    by apply elem_of_union in Hns as [Hns|Hns]; apply not_elem_of_empty in Hns.
  - destruct (mcpDispatchNamespacesFrom (sb_traces b)) as [d n] eqn:Ed.
    rewrite (proj1 (classify_fields _ _ _ _ _)) in Hns. unfold everDispatched in Hns.
    apply elem_of_union in Hns as [Hns|Hns].
    + assert (Hin : ns ∈ namespaces_in (sb_traces b)) by (unfold namespaces_in; by rewrite Ed).
      apply namespaces_in_spec in Hin as [Hne Hd]. split; [done|]. exists b. split; [|done].
      apply elem_of_app. right. by left.
    + destruct r as [r|]; [|by apply not_elem_of_empty in Hns]. apply elem_of_difference in Hns as [Hns _].
      destruct (Hr ns Hns) as (Hne & b' & Hb' & Hd). split; [done|]. exists b'. split; [|done].
      apply elem_of_app. by left.
Qed.

(** corroboration is never invented: over any run of heartbeats, a record that
    says corroborated names an id the last inventory reported, and a tool of that
    id's namespace stands in a trace one of the beats read. *)
Theorem corroboration_has_a_dispatch bs b r :
  run_surface None (bs ++ [b]) = Some r -> Verdict r = verdictCorroborated ->
  exists id, id ∈ sb_reported b /\ exists b', b' ∈ bs ++ [b] /\ dispatched_in (mcpToolIDNamespace id) (sb_traces b').
Proof.
  intros Hrun Hv. pose proof (run_surface_from (bs ++ [b]) [] None I) as Hfrom. cbn [app] in Hfrom. rewrite Hrun in Hfrom.
  unfold run_surface in Hrun. rewrite fold_left_app in Hrun. cbn in Hrun. injection Hrun as <-.
  destruct (sb_reported b) as [|id0 ids] eqn:Er.
  - apply classify_corroborated in Hv as (id & Hid & _). by apply not_elem_of_nil in Hid.
  - pose proof (surface_report_namespaces (id0 :: ids) (sb_traces b) (fold_left next_surface bs None) (sb_at b) ltac:(done)) as Hs.
    rewrite Hs in Hv, Hfrom. pose proof Hv as (id & Hid & Hne & Hin)%classify_corroborated.
    exists id. split; [done|]. apply (Hfrom (mcpToolIDNamespace id)). by rewrite (proj1 (classify_fields _ _ _ _ _)).
Qed.

(** corroboration sticks while every beat reports an inventory: a namespace
    once on record stays, whatever the traces show later, and a beat that reports an
    id of it is corroborated, with the instant of the first corroboration. *)
Theorem corroboration_sticks bs r ns at0 :
  ns <> "" -> ns ∈ CorroboratedNamespaces r -> FirstCorroboratedAt r = Some at0 ->
  Forall (fun b => sb_reported b <> []) bs ->
  exists r', run_surface (Some r) bs = Some r' /\ (ns ∈ CorroboratedNamespaces r') /\ FirstCorroboratedAt r' = Some at0 /\
    forall b, last bs = Some b -> (exists id, id ∈ sb_reported b /\ mcpToolIDNamespace id = ns) -> Verdict r' = verdictCorroborated.
Proof.
  intros Hne Hin Hat Hbs. revert r Hin Hat. induction Hbs as [|b bs Hb _ IH]; intros r Hin Hat.
  - exists r. repeat split; auto. intros b [=].
  - assert (Hstep : exists r1, next_surface (Some r) b = Some r1 /\ (ns ∈ CorroboratedNamespaces r1) /\
              FirstCorroboratedAt r1 = Some at0 /\
              ((exists id, id ∈ sb_reported b /\ mcpToolIDNamespace id = ns) -> Verdict r1 = verdictCorroborated)).
    { unfold next_surface. rewrite surface_report_namespaces by done. eexists. split; [reflexivity|]. split_and!.
      - rewrite (proj1 (classify_fields _ _ _ _ _)). by apply everDispatched_keeps.
      - unfold classifyMCPSurface. cbn zeta. cbn [mbind option_bind]. rewrite Hat. by repeat case_decide || case_match.
      - intros (id & Hid & Hn). apply classify_corroborated. exists id. split; [done|]. rewrite Hn.
        split; [done|]. by apply everDispatched_keeps. }
    destruct Hstep as (r1 & Hr1 & Hin1 & Hat1 & Hv1). destruct (IH r1 Hin1 Hat1) as (r' & Hr' & Hin' & Hat' & Hv').
    exists r'. unfold run_surface in *. cbn [fold_left]. rewrite Hr1. repeat split; auto.
    intros b' Hlast. destruct bs as [|b2 bs2]; [|by apply Hv'].
    injection Hlast as <-. cbn in Hr'. injection Hr' as <-. exact Hv1.
Qed.

Definition demo_trace : json := JArr [JObj [("tool", JStr "mcp__molecule_platform__list_orgs")]; JStr "mcp__molecule__send"].
Definition demo_inventory : list string := [mcp_id "molecule-platform" "list_orgs"].

Lemma corroboration_has_a_dispatch_witness :
  exists id, id ∈ demo_inventory /\
    exists b', b' ∈ [SurfaceBeat demo_inventory [demo_trace] 1] /\ dispatched_in (mcpToolIDNamespace id) (sb_traces b').
Proof.
  exact (corroboration_has_a_dispatch [] (SurfaceBeat demo_inventory [demo_trace] 1) _ eq_refl eq_refl).
Defined.

Lemma corroboration_sticks_witness :
  exists r', run_surface (Some (surface_report demo_inventory [demo_trace] None 1)) [SurfaceBeat demo_inventory [] 2] = Some r' /\
    Verdict r' = verdictCorroborated.
Proof.
  destruct (corroboration_sticks [SurfaceBeat demo_inventory [] 2] (surface_report demo_inventory [demo_trace] None 1)
              "molecule_platform" 1 ltac:(done)) as (r' & Hr & _ & _ & Hv).
  - apply (bool_decide_unpack _). vm_compute. exact I.
  - reflexivity.
  - repeat constructor. done.
  - exists r'. split; [exact Hr|]. apply (Hv _ eq_refl). eexists. split; [by left|]. reflexivity.
Defined.

(** One beat with an empty list forgets it: the record of such a beat starts from
    nothing, and the next inventory is not corroborated. *)
Example empty_inventory_forgets :
  let r := surface_report demo_inventory [demo_trace] None 1 in
  let r' := run_surface (Some r) [SurfaceBeat [] [] 2; SurfaceBeat demo_inventory [] 3] in
  Verdict r = verdictCorroborated /\
  Verdict <$> r' = Some verdictNoDispatchRecord /\ r' ≫= FirstCorroboratedAt = None.
Proof. vm_compute. auto. Qed.
