(* ===== verification/WorkspaceRow.v ===== *)
(** * The row of a workspace and the statements of a handler on it

    What internal/handlers/registry.go reads and writes of one workspaces row, and
    a small state monad for its handlers.  A handler is a sequence of statements;
    before each of them others may change the row, and each may fail.  What it
    announces or starts is an output. *)

From Stdlib Require Import QArith.
From S2P Require Import Prelude Budget McpSurface RuntimeOverrides.
#[local] Open Scope Z_scope.

(** ** The row *)

(** The columns a heartbeat reports. *)
Record vitals := Vitals {
  last_error_rate : Q; active_tasks : Z; uptime_seconds : Z; current_task : option string; monthly_spend : Z; is_busy : bool
}.

(** Who the workspace is and where it is reached. *)
Record identity := Identity {
  i_name : option string; i_role : option string; agent_card : option json; i_url : option string;
  delivery_mode : option string; i_runtime : option string; i_kind : string
}.

Record hrow := HRow {
  h_status : string;
  h_ident : identity;
  h_vitals : vitals;
  h_sample_error : string;                 (* last_sample_error *)
  h_register_failure : option time;        (* last_register_failure_at *)
  h_unloaded : option time;                (* mcp_unloaded_since *)
  h_heartbeat_at : option time;            (* last_heartbeat_at *)
  h_updated_at : time;
  h_max : Z;                               (* max_concurrent_tasks *)
  h_loaded : option (list string);         (* loaded_mcp_tools *)
  h_surface : option mcpSurfaceReport;     (* mcp_surface *)
  h_observed : Z;                          (* observed_generation *)
  h_desired : Z;                           (* desired_generation *)
  h_inbound : option string                (* platform_inbound_secret *)
}.

Definition h_kind (w : hrow) : string := i_kind (h_ident w).

Definition with_status (st : string) (w : hrow) : hrow :=
  HRow st (h_ident w) (h_vitals w) (h_sample_error w) (h_register_failure w) (h_unloaded w) (h_heartbeat_at w)
    (h_updated_at w) (h_max w) (h_loaded w) (h_surface w) (h_observed w) (h_desired w) (h_inbound w).
Definition with_ident (i : identity) (w : hrow) : hrow :=
  HRow (h_status w) i (h_vitals w) (h_sample_error w) (h_register_failure w) (h_unloaded w) (h_heartbeat_at w)
    (h_updated_at w) (h_max w) (h_loaded w) (h_surface w) (h_observed w) (h_desired w) (h_inbound w).
Definition with_vitals (v : vitals) (w : hrow) : hrow :=
  HRow (h_status w) (h_ident w) v (h_sample_error w) (h_register_failure w) (h_unloaded w) (h_heartbeat_at w)
    (h_updated_at w) (h_max w) (h_loaded w) (h_surface w) (h_observed w) (h_desired w) (h_inbound w).
Definition with_sample_error (m : string) (w : hrow) : hrow :=
  HRow (h_status w) (h_ident w) (h_vitals w) m (h_register_failure w) (h_unloaded w) (h_heartbeat_at w)
    (h_updated_at w) (h_max w) (h_loaded w) (h_surface w) (h_observed w) (h_desired w) (h_inbound w).
Definition with_register_failure (o : option time) (w : hrow) : hrow :=
  HRow (h_status w) (h_ident w) (h_vitals w) (h_sample_error w) o (h_unloaded w) (h_heartbeat_at w)
    (h_updated_at w) (h_max w) (h_loaded w) (h_surface w) (h_observed w) (h_desired w) (h_inbound w).
Definition with_unloaded (o : option time) (w : hrow) : hrow :=
  HRow (h_status w) (h_ident w) (h_vitals w) (h_sample_error w) (h_register_failure w) o (h_heartbeat_at w)
    (h_updated_at w) (h_max w) (h_loaded w) (h_surface w) (h_observed w) (h_desired w) (h_inbound w).
Definition with_heartbeat (t : time) (w : hrow) : hrow :=
  HRow (h_status w) (h_ident w) (h_vitals w) (h_sample_error w) (h_register_failure w) (h_unloaded w) (Some t)
    (h_updated_at w) (h_max w) (h_loaded w) (h_surface w) (h_observed w) (h_desired w) (h_inbound w).
(** [updated_at = now()]. *)
Definition touch (t : time) (w : hrow) : hrow :=
  HRow (h_status w) (h_ident w) (h_vitals w) (h_sample_error w) (h_register_failure w) (h_unloaded w) (h_heartbeat_at w)
    t (h_max w) (h_loaded w) (h_surface w) (h_observed w) (h_desired w) (h_inbound w).
Definition with_loaded (l : option (list string)) (w : hrow) : hrow :=
  HRow (h_status w) (h_ident w) (h_vitals w) (h_sample_error w) (h_register_failure w) (h_unloaded w) (h_heartbeat_at w)
    (h_updated_at w) (h_max w) l (h_surface w) (h_observed w) (h_desired w) (h_inbound w).
Definition with_surface (r : option mcpSurfaceReport) (w : hrow) : hrow :=
  HRow (h_status w) (h_ident w) (h_vitals w) (h_sample_error w) (h_register_failure w) (h_unloaded w) (h_heartbeat_at w)
    (h_updated_at w) (h_max w) (h_loaded w) r (h_observed w) (h_desired w) (h_inbound w).
Definition with_observed (n : Z) (w : hrow) : hrow :=
  HRow (h_status w) (h_ident w) (h_vitals w) (h_sample_error w) (h_register_failure w) (h_unloaded w) (h_heartbeat_at w)
    (h_updated_at w) (h_max w) (h_loaded w) (h_surface w) n (h_desired w) (h_inbound w).
Definition with_inbound (o : option string) (w : hrow) : hrow :=
  HRow (h_status w) (h_ident w) (h_vitals w) (h_sample_error w) (h_register_failure w) (h_unloaded w) (h_heartbeat_at w)
    (h_updated_at w) (h_max w) (h_loaded w) (h_surface w) (h_observed w) (h_desired w) o.

Definition has_status (st : string) (w : hrow) : bool := bool_decide (h_status w = st).

(** ** Surroundings and outputs *)

(** [e_now] is the clock of the handler and of its statements; the [k]-th
    statement fails when [e_fails k], and [e_others k] is what others do to the
    row before it. *)
Record benv := BEnv {
  e_now : time;
  e_fails : nat -> bool;
  e_others : nat -> option hrow -> option hrow;
  e_model : bool;                          (* a MODEL secret is stored *)
  e_declared : list string;                (* the declared plugins, by name *)
  e_traces : list json;                    (* the newest tool traces on record *)
  e_reconcile : bool;                      (* SetReconcileFunc was called *)
  e_restore : bool;                        (* SetRestoreSchedulesFunc was called *)
  e_greeter : bool;                        (* SetFirstBootGreeter was called *)
  e_drain : bool;                          (* SetQueueDrainFunc was called *)
  e_settler : bool;                        (* SetWakeSettler was called *)
  e_minted : option string                 (* a fresh random secret, [None] if the generator errors *)
}.

Inductive hout :=
| Wrote (kind before after : string)       (* a statement of the handler changed the status *)
| BroadcastOnline (evidence : option string)
| BroadcastDegraded (why : string)
| BroadcastFailed (reason : string)
| BroadcastTask (task : string)
| BroadcastHeartbeat
| Reconcile                                (* the declared-plugin reconcile of fireReconcileOnline *)
| RestoreSchedules                         (* its other hook *)
| Recover                                  (* the reconcile of fireReconcileMCPRecovery *)
| Greet (tools : nat)
| Settle (generation : Z)
| Drain (capacity : Z)
| RefreshTTL
| SetOnline
| CacheURL (url : string)
| CacheInternalURL (url : string)
| ClearKeys                                (* db.ClearWorkspaceKeys *)
| Announced (event : string)               (* RecordAndBroadcast of another event *)
| StopContainer (stopped : bool)            (* a backend was asked to stop the container, and whether it did *)
| Provision                                (* provisionWorkspaceAuto *)
| Offline.                                 (* the OfflineHandler of a sweep *)

(** The state of a handler: the row and the spend ledger, the outputs so far, the
    number of statements run, and the three caches of the process: when the
    recovery of this workspace was last fired, what runtimes declared, and the
    inbound secret with its expiry. *)
Record hst := HSt {
  x_row : option hrow;
  x_events : list spend_event;
  x_out : list hout;
  x_k : nat;
  x_recovered : option time;
  x_overrides : gmap string runtimeOverrideEntry;
  x_cached : option (string * time)
}.

(** ** The monad *)

Definition M (A : Type) := hst -> hst * A.
Definition ret {A} (a : A) : M A := fun s => (s, a).
Definition bind {A B} (m : M A) (f : A -> M B) : M B := fun s => let '(s', a) := m s in f a s'.
Declare Scope beat_scope.
Delimit Scope beat_scope with beat.
Notation "x <-- m ;; k" := (bind m (fun x => k)) (at level 100, m at next level, right associativity) : beat_scope.
Notation "m ;;; k" := (bind m (fun _ => k)) (at level 100, right associativity) : beat_scope.
#[local] Open Scope beat_scope.

Definition unless {A} (b : bool) (a : A) (m : M A) : M A := if b then ret a else m.
Definition when (b : bool) (m : M unit) : M unit := if b then m else ret tt.
Definition emit (o : hout) : M unit := fun s =>
  (HSt (x_row s) (x_events s) (x_out s ++ [o]) (x_k s) (x_recovered s) (x_overrides s) (x_cached s), tt).
Definition get : M hst := fun s => (s, s).
Definition set_recovered (t : time) : M unit := fun s =>
  (HSt (x_row s) (x_events s) (x_out s) (x_k s) (Some t) (x_overrides s) (x_cached s), tt).
Definition set_overrides (f : gmap string runtimeOverrideEntry -> gmap string runtimeOverrideEntry) : M unit := fun s =>
  (HSt (x_row s) (x_events s) (x_out s) (x_k s) (x_recovered s) (f (x_overrides s)) (x_cached s), tt).
Definition set_cached (secret : string) (expires : time) : M unit := fun s =>
  (HSt (x_row s) (x_events s) (x_out s) (x_k s) (x_recovered s) (x_overrides s) (Some (secret, expires)), tt).

Section Statements.
Context (e : benv).

(** One statement: the others first, then its effect on the row; [None]: it
    errored, and did nothing. *)
Definition statement {A} (f : option hrow -> option hrow * A * list hout) : M (option A) := fun s =>
  let r := e_others e (x_k s) (x_row s) in
  let s' r o := HSt r (x_events s) (x_out s ++ o) (S (x_k s)) (x_recovered s) (x_overrides s) (x_cached s) in
  if e_fails e (x_k s) then (s' r [], None)
  else let '(r', a, o) := f r in (s' r' o, Some a).

(** A SELECT on the row: [None] when it errors, [Some None] when there is no row. *)
Definition read : M (option (option hrow)) := statement (fun r => (r, r, [])).

(** A SELECT on another table, which holds [v]. *)
Definition read_other {A} (v : A) : M (option A) := statement (fun r => (r, v, [])).

Definition wrote (w w' : hrow) : list hout :=
  if decide (h_status w' = h_status w) then [] else [Wrote (h_kind w) (h_status w) (h_status w')].

(** An UPDATE: the rows affected. *)
Definition exec (guard : hrow -> bool) (upd : hrow -> hrow) : M (option Z) :=
  statement (fun r => match r with
                      | Some w => if guard w then (Some (upd w), 1, wrote w (upd w)) else (r, 0, [])
                      | None => (r, 0, [])
                      end).
(** One whose result is only logged. *)
Definition exec_ (guard : hrow -> bool) (upd : hrow -> hrow) : M unit := _ <-- exec guard upd ;; ret tt.

(** The INSERT of recordSpendDelta and its prune. *)
Definition record_spend (workspaceID : string) (delta : Z) : M unit := fun s =>
  let k := x_k s in
  let r := e_others e (S k) (e_others e k (x_row s)) in
  (HSt r (default (x_events s) (recordSpendDelta (e_fails e k) (e_fails e (S k)) (e_now e) workspaceID delta (x_events s)))
     (x_out s) (S (S k)) (x_recovered s) (x_overrides s) (x_cached s), tt).
End Statements.

(** ** What a handler adds to the outputs *)

Definition Emits {A} (P : hout -> Prop) (m : M A) : Prop :=
  forall s, exists out, x_out (fst (m s)) = x_out s ++ out /\ Forall P out.

Lemma Emits_mono {A} (P Q : hout -> Prop) (m : M A) : (forall o, P o -> Q o) -> Emits P m -> Emits Q m.
Proof. intros Hpq Hm s. destruct (Hm s) as (out & E & Hout). exists out. split; [done|]. by eapply Forall_impl. Qed.

Lemma Emits_ret {A} P (a : A) : Emits P (ret a).
Proof. intros s. exists []. by rewrite app_nil_r. Qed.

Lemma Emits_bind {A B} P (m : M A) (f : A -> M B) : Emits P m -> (forall a, Emits P (f a)) -> Emits P (bind m f).
Proof.
  intros Hm Hf s. unfold bind. destruct (Hm s) as (o1 & E1 & H1). destruct (m s) as [s' a]. cbn in E1.
  destruct (Hf a s') as (o2 & E2 & H2). exists (o1 ++ o2). split; [by rewrite E2, E1, app_assoc|]. by apply Forall_app.
Qed.

Lemma Emits_emit P o : P o -> Emits P (emit o).
Proof. intros Ho s. exists [o]. split; [done|]. by repeat constructor. Qed.

Lemma Emits_when P b m : (b = true -> Emits P m) -> Emits P (when b m).
Proof. intros Hm. destruct b; cbn; [by apply Hm|apply Emits_ret]. Qed.

Lemma Emits_unless {A} P b (a : A) m : (b = false -> Emits P m) -> Emits P (unless b a m).
Proof. intros Hm. destruct b; cbn; [apply Emits_ret|by apply Hm]. Qed.

Lemma Emits_quiet {A} P (m : M A) : (forall s, x_out (fst (m s)) = x_out s) -> Emits P m.
Proof. intros Hm s. exists []. by rewrite app_nil_r. Qed.

Lemma Emits_statement {A} e P (f : option hrow -> option hrow * A * list hout) :
  (forall r, Forall P (snd (f r))) -> Emits P (statement e f).
Proof.
  intros Hf s. unfold statement. destruct (e_fails e (x_k s)).
  - exists []. by rewrite app_nil_r.
  - set (r := e_others e (x_k s) (x_row s)). specialize (Hf r). destruct (f r) as [[r' a] o]. by exists o.
Qed.

Lemma Emits_read P e : Emits P (read e).
Proof. by apply Emits_statement. Qed.
Lemma Emits_read_other {A} P e (v : A) : Emits P (read_other e v).
Proof. by apply Emits_statement. Qed.

(** What a SELECT gives is an error or the value. *)
Lemma Emits_bind_read_other {A B} P e (v : A) (f : option A -> M B) :
  Emits P (f None) -> Emits P (f (Some v)) -> Emits P (bind (read_other e v) f).
Proof.
  intros Hn Hs s. unfold bind, read_other, statement. set (r := e_others e (x_k s) (x_row s)).
  destruct (e_fails e (x_k s)).
  - match goal with |- context [f None ?s'] => destruct (Hn s') as (out & E & Hout) end.
    exists out. by rewrite E; cbn; rewrite app_nil_r.
  - match goal with |- context [f (Some v) ?s'] => destruct (Hs s') as (out & E & Hout) end.
    exists out. by rewrite E; cbn; rewrite app_nil_r.
Qed.

(** An UPDATE of the status emits its move from a row it matches. *)
Lemma Emits_exec P e guard upd :
  (forall w, guard w = true -> h_status (upd w) <> h_status w -> P (Wrote (h_kind w) (h_status w) (h_status (upd w)))) ->
  Emits P (exec e guard upd).
Proof.
  intros Hp. apply Emits_statement. intros [w|]; [|by constructor]. destruct (guard w) eqn:Eg; [|by constructor].
  cbn. unfold wrote. case_decide; repeat constructor. by apply Hp.
Qed.
Lemma Emits_exec_ P e guard upd :
  (forall w, guard w = true -> h_status (upd w) <> h_status w -> P (Wrote (h_kind w) (h_status w) (h_status (upd w)))) ->
  Emits P (exec_ e guard upd).
Proof. intros Hp. apply Emits_bind; [by apply Emits_exec|]. intros. apply Emits_ret. Qed.

(** One that leaves the status alone emits nothing. *)
Lemma Emits_exec_still P e guard upd : (forall w, h_status (upd w) = h_status w) -> Emits P (exec_ e guard upd).
Proof. intros Hs. apply Emits_exec_. intros w _ Hne. by destruct (Hne (Hs w)). Qed.

(** ** Handlers nothing disturbs *)

(** No statement fails and nobody else writes the row. *)
Definition quiet (e : benv) : Prop := (forall k, e_fails e k = false) /\ (forall k r, e_others e k r = r).

(** From row [w], with the declarations [ov] in the cache, the handler ends in a
    row and with a result in [Q], the cache as it was. *)
Definition ends {A} (ov : gmap string runtimeOverrideEntry) (m : M A) (w : hrow) (Q : hrow -> A -> Prop) : Prop :=
  forall s, x_row s = Some w -> x_overrides s = ov ->
            exists w', x_row (fst (m s)) = Some w' /\ x_overrides (fst (m s)) = ov /\ Q w' (snd (m s)).

Section Ends.
Context (ov : gmap string runtimeOverrideEntry).

Lemma ends_ret {A} (a : A) w (Q : hrow -> A -> Prop) : Q w a -> ends ov (ret a) w Q.
Proof. intros HQ s Hs Ho. by exists w. Qed.

Lemma ends_bind {A B} (m : M A) (f : A -> M B) w Q :
  ends ov m w (fun w1 a => ends ov (f a) w1 Q) -> ends ov (bind m f) w Q.
Proof.
  intros Hm s Hs Ho. unfold bind. destruct (Hm s Hs Ho) as (w1 & H1 & H2 & H3). destruct (m s) as [s' a].
  by apply H3.
Qed.

Lemma ends_mono {A} (m : M A) w (Q R : hrow -> A -> Prop) : (forall w' a, Q w' a -> R w' a) -> ends ov m w Q -> ends ov m w R.
Proof. intros HQR Hm s Hs Ho. destruct (Hm s Hs Ho) as (w' & ? & ? & ?). exists w'. auto. Qed.

Lemma ends_get {B} (f : hst -> M B) w Q :
  (forall s, x_row s = Some w -> x_overrides s = ov -> ends ov (f s) w Q) -> ends ov (bind get f) w Q.
Proof. intros Hf s Hs Ho. exact (Hf s Hs Ho s Hs Ho). Qed.

(** A part that touches neither the row nor the declarations. *)
Lemma ends_aside (m : M unit) w (Q : hrow -> unit -> Prop) :
  (forall s, x_row (fst (m s)) = x_row s /\ x_overrides (fst (m s)) = x_overrides s) -> Q w tt -> ends ov m w Q.
Proof. intros Hm HQ s Hs Ho. destruct (Hm s) as [-> ->]. exists w. repeat split; [done|done|]. by destruct (snd (m s)). Qed.

Lemma ends_emit o w (Q : hrow -> unit -> Prop) : Q w tt -> ends ov (emit o) w Q.
Proof. by apply ends_aside. Qed.

Lemma ends_when (b : bool) m w (Q : hrow -> unit -> Prop) :
  (b = true -> ends ov m w Q) -> (b = false -> Q w tt) -> ends ov (when b m) w Q.
Proof. intros Ht Hf. destruct b; cbn; [by apply Ht|]. apply ends_ret. by apply Hf. Qed.

Context (e : benv) (Hq : quiet e).

Lemma ends_read w (Q : hrow -> option (option hrow) -> Prop) : Q w (Some (Some w)) -> ends ov (read e) w Q.
Proof. intros HQ s Hs Ho. exists w. unfold read, statement. by rewrite (proj1 Hq), (proj2 Hq), Hs. Qed.

Lemma ends_read_other {A} (v : A) w (Q : hrow -> option A -> Prop) : Q w (Some v) -> ends ov (read_other e v) w Q.
Proof. intros HQ s Hs Ho. exists w. unfold read_other, statement. by rewrite (proj1 Hq), (proj2 Hq), Hs. Qed.

Lemma ends_exec (guard : hrow -> bool) upd w (Q : hrow -> option Z -> Prop) :
  Q (if guard w then upd w else w) (Some (if guard w then 1 else 0)) -> ends ov (exec e guard upd) w Q.
Proof.
  intros HQ s Hs Ho. unfold exec, statement. rewrite (proj1 Hq), (proj2 Hq), Hs. exists (if guard w then upd w else w).
  by destruct (guard w).
Qed.

Lemma ends_exec_ (guard : hrow -> bool) upd w (Q : hrow -> unit -> Prop) :
  Q (if guard w then upd w else w) tt -> ends ov (exec_ e guard upd) w Q.
Proof. intros HQ. by apply ends_bind, ends_exec, ends_ret. Qed.

Lemma ends_record_spend ws d w (Q : hrow -> unit -> Prop) : Q w tt -> ends ov (record_spend e ws d) w Q.
Proof. intros HQ s Hs Ho. exists w. unfold record_spend. cbn. by rewrite !(proj2 Hq). Qed.
End Ends.

(** ** What a handler keeps of the row

    From a row in [I], with other writers that keep [I], the handler leaves one in [I]
    and returns a value in [Q]. *)
Definition Holds {A} (I : option hrow -> Prop) (m : M A) (Q : A -> Prop) : Prop :=
  forall s, I (x_row s) -> I (x_row (fst (m s))) /\ Q (snd (m s)).

Section Holds.
Context (I : option hrow -> Prop).

Lemma Holds_ret {A} (a : A) (Q : A -> Prop) : Q a -> Holds I (ret a) Q.
Proof. by intros HQ s Hs. Qed.

Lemma Holds_bind {A B} (m : M A) (f : A -> M B) (Q : A -> Prop) R :
  Holds I m Q -> (forall a, Q a -> Holds I (f a) R) -> Holds I (bind m f) R.
Proof.
  intros Hm Hf s Hs. unfold bind. destruct (Hm s Hs) as [H1 H2]. destruct (m s) as [s' a]. by apply Hf.
Qed.

Lemma Holds_mono {A} (m : M A) (Q R : A -> Prop) : (forall a, Q a -> R a) -> Holds I m Q -> Holds I m R.
Proof. intros HQR Hm s Hs. destruct (Hm s Hs). auto. Qed.

Lemma Holds_aside {A} (m : M A) : (forall s, x_row (fst (m s)) = x_row s) -> Holds I m (fun _ => True).
Proof. intros Hm s Hs. by rewrite Hm. Qed.

Lemma Holds_when b m : (b = true -> Holds I m (fun _ => True)) -> Holds I (when b m) (fun _ => True).
Proof. intros Hm. destruct b; cbn; [by apply Hm|by apply Holds_ret]. Qed.

Context (e : benv) (He : forall k r, I r -> I (e_others e k r)).

Lemma Holds_statement {A} (f : option hrow -> option hrow * A * list hout) (Q : option A -> Prop) :
  Q None -> (forall r, I r -> I (fst (fst (f r))) /\ Q (Some (snd (fst (f r))))) -> Holds I (statement e f) Q.
Proof.
  intros Hn Hf s Hs. unfold statement. destruct (e_fails e (x_k s)); [split; [by apply He|done]|].
  destruct (Hf _ (He (x_k s) _ Hs)) as [H1 H2]. destruct (f _) as [[r' a] o]. by split.
Qed.

Lemma Holds_read (Q : option (option hrow) -> Prop) : Q None -> (forall r, I r -> Q (Some r)) -> Holds I (read e) Q.
Proof. intros Hn Hr. apply Holds_statement; [done|]. auto. Qed.
Lemma Holds_read_other {A} (v : A) : Holds I (read_other e v) (fun _ => True).
Proof. apply Holds_statement; [done|]. auto. Qed.

Lemma Holds_exec (guard : hrow -> bool) upd :
  (forall w, I (Some w) -> guard w = true -> I (Some (upd w))) -> Holds I (exec e guard upd) (fun _ => True).
Proof. intros Hu. apply Holds_statement; [done|]. intros [w|] Hw; [|by split]. destruct (guard w) eqn:Eg; cbn; auto. Qed.
Lemma Holds_exec_ (guard : hrow -> bool) upd :
  (forall w, I (Some w) -> guard w = true -> I (Some (upd w))) -> Holds I (exec_ e guard upd) (fun _ => True).
Proof. intros Hu. eapply Holds_bind; [by apply Holds_exec|]. intros. by apply Holds_ret. Qed.
End Holds.

(** What a handler adds to the outputs when it starts from a row in [I]. *)
Definition EmitsFrom {A} (I : option hrow -> Prop) (P : hout -> Prop) (m : M A) : Prop :=
  forall s, I (x_row s) -> exists out, x_out (fst (m s)) = x_out s ++ out /\ Forall P out.

Lemma EmitsFrom_bind {A B} I P (m : M A) (f : A -> M B) (Q : A -> Prop) :
  EmitsFrom I P m -> Holds I m Q -> (forall a, Q a -> EmitsFrom I P (f a)) -> EmitsFrom I P (bind m f).
Proof.
  intros Hm Hq Hf s Hs. unfold bind. destruct (Hm s Hs) as (o1 & E1 & H1), (Hq s Hs) as [HI Ha].
  destruct (m s) as [s' a]. cbn in *. destruct (Hf a Ha s' HI) as (o2 & E2 & H2).
  exists (o1 ++ o2). split; [by rewrite E2, E1, app_assoc|]. by apply Forall_app.
Qed.

(** A prefix that emits [P] from any row and keeps [I], and a suffix that does not care. *)
Lemma EmitsFrom_then {A B} I P (m : M A) (f : A -> M B) :
  Emits P m -> Holds I m (fun _ => True) -> (forall a, EmitsFrom I P (f a)) -> EmitsFrom I P (bind m f).
Proof. intros Hm Hq Hf. eapply EmitsFrom_bind; [intros s _; apply Hm|exact Hq|auto]. Qed.
Lemma EmitsFrom_before {A B} I P (m : M A) (f : A -> M B) :
  EmitsFrom I P m -> (forall a, Emits P (f a)) -> EmitsFrom I P (bind m f).
Proof.
  intros Hm Hf s Hs. unfold bind. destruct (Hm s Hs) as (o1 & E1 & H1). destruct (m s) as [s' a]. cbn in *.
  destruct (Hf a s') as (o2 & E2 & H2). exists (o1 ++ o2). split; [by rewrite E2, E1, app_assoc|]. by apply Forall_app.
Qed.

(** Takes a handler apart along its own binds, for a result nobody needs. *)
Ltac holds :=
  repeat lazymatch goal with
  | |- Holds _ (ret _) _ => by apply Holds_ret
  | |- Holds _ (emit _) _ => by apply Holds_aside
  | |- Holds _ (read _) _ => by apply Holds_read
  | |- Holds _ (read_other _ _) _ => by apply Holds_read_other
  | |- Holds _ get _ => by apply Holds_aside
  | |- Holds _ (when _ _) _ => apply Holds_when; intros ?
  | |- Holds _ (bind _ _) _ => eapply (Holds_bind _ _ _ (fun _ => True)); [|intros ? _]
  end.

(** Takes a handler apart along its own binds, and leaves its calls. *)
Ltac emits :=
  repeat lazymatch goal with
  | |- Emits _ (ret _) => apply Emits_ret
  | |- Emits _ (read _) => apply Emits_read
  | |- Emits _ (read_other _ _) => apply Emits_read_other
  | |- Emits _ get => by apply Emits_quiet
  | |- Emits _ (when _ _) => apply Emits_when; intros ?
  | |- Emits _ (unless _ _ _) => apply Emits_unless; intros ?
  | |- Emits _ (bind _ _) => apply Emits_bind; [|intros ?]
  end.
