(* ===== verification/Heartbeat.v ===== *)
(** * Heartbeats

    internal/handlers/registry.go: requireWorkspaceToken, Heartbeat and
    evaluateStatus, with the statements of recordMCPSurfaceCorroboration, and the
    inbound secret of workspace_provision_shared.go and
    internal/wsauth/platform_inbound.go that every answer carries. *)

From Stdlib Require Import QArith.
From S2P Require Import Prelude Tree Tokens Budget McpSurface RuntimeOverrides WorkspaceRow.
#[local] Open Scope Z_scope.
#[local] Open Scope beat_scope.

(** ** Authentication *)

Section Auth.
Context `{UuidCast}.
Context (sha256 : string -> string).

(** How the four statements fare, and what others do to the tokens between them. *)
Record auth_env := AuthEnv {
  ae_live_fails : bool; ae_validate_fails : bool; ae_bump_fails : bool; ae_relive_fails : bool;
  ae_race : token_db -> token_db
}.

(** [failClosed] is the environment flag; [None] admits the request, else the
    status of the refusal. *)
Definition requireWorkspaceToken (failClosed : bool) (a : auth_env) (now : time) (workspaceID header : string)
    (db : token_db) : token_db * option Z :=
  match HasLiveInstanceToken (ae_live_fails a) workspaceID db with
  | None => (db, if failClosed then Some 503 else None)
  | Some false => (db, None)
  | Some true =>
      let token := BearerTokenFromHeader header in
      if decide (token = "") then (db, Some 401)
      else let '(db, ok) := ValidateToken sha256 (ae_validate_fails a) (ae_bump_fails a) now workspaceID token (ae_race a db) in
           if ok then (db, None)
           else match HasLiveInstanceToken (ae_relive_fails a) workspaceID (ae_race a db) with
                | Some false => (ae_race a db, None)
                | _ => (ae_race a db, Some 401)
                end
  end.
End Auth.

(** ** The beat *)

Record RuntimeMetadata := RtMetadata { Capabilities : gmap string bool; IdleTimeoutSeconds : option Z }.

Record beat := Beat {
  WorkspaceID : string;
  ErrorRate : Q;
  SampleError : string;
  ActiveTasks : Z;
  IsBusy : option bool;
  UptimeSeconds : Z;
  CurrentTask : string;
  MonthlySpend : Z;
  ObservedGeneration : option Z;
  RuntimeState : string;
  Metadata : option RuntimeMetadata;
  AgentCard : option json;                 (* [None]: no bytes *)
  MCPServerPresent : option bool;
  LoadedMCPTools : option (list string);   (* [None]: absent or null *)
  MCPToolsReady : option bool
}.

Section Beat.
Context (e : benv).
(** The required tool id, composed from two constants of a package outside the
    repository. *)
Context (conciergePlatformMCPProvisionWorkspaceTool : string).

Definition set_status (st : string) (w : hrow) : hrow := touch (e_now e) (with_status st w).
Definition set_status_error (st msg : string) (w : hrow) : hrow := with_sample_error msg (set_status st w).
Definition set_unloaded (o : option time) (w : hrow) : hrow := touch (e_now e) (with_unloaded o w).

(** [UPDATE ... SET status = to WHERE id = $ AND status = from]. *)
Definition move (from to : string) : M unit := exec_ e (has_status from) (set_status to).
Definition degrade (from msg : string) : M (option Z) := exec e (has_status from) (set_status_error "degraded" msg).

(** *** Hooks *)

Definition mcpRecoveryCooldown : time := 5 * Minute.
Definition managementMCPUnloadedGrace : time := 180 * Second.
Definition conciergeWarmupFailGrace : time := 300 * Second.
Definition conciergePlatformMCPName := "molecule-ai-plugin-molecule-platform-mcp".

Definition fireReconcileOnline : M unit :=
  when (e_reconcile e) (emit Reconcile) ;;; when (e_restore e) (emit RestoreSchedules).
Definition fireReconcileMCPRecovery : M unit :=
  s <-- get ;;
  if negb (e_reconcile e) then ret tt
  else if some_and (x_recovered s) (fun t => e_now e - t <? mcpRecoveryCooldown) then ret tt
  else set_recovered (e_now e) ;;; emit Recover.
Definition fireFirstBootGreeting (tools : nat) : M unit := when (e_greeter e) (emit (Greet tools)).
Definition fireWakeSettled (observedGen : Z) : M unit := when (e_settler e) (emit (Settle observedGen)).

Definition platformAgentHasModelSecret : M (option bool) := read_other e (e_model e).
Definition platformAgentMCPServerPresent (present : option bool) : bool :=
  match present with None => true | Some b => b end.

(** [None] is an error; [Some true]: declared and not loaded. *)
Definition platformAgentManagementMCPLoaded (loaded : list string) : M (option bool) :=
  d <-- read_other e (e_declared e) ;;
  ret ((fun declared : list string =>
          bool_decide (conciergePlatformMCPName ∈ declared) &&
          negb (bool_decide (conciergePlatformMCPProvisionWorkspaceTool ∈ loaded))) <$> d).

(** The UPDATE has no condition on the status. *)
Definition markWorkspaceFailed (msg reason : string) : M unit :=
  emit (BroadcastFailed reason) ;;; exec_ e (fun _ => true) (set_status_error "failed" msg).

Definition evidenceSelfReportMCPToolsReady := "self_report:mcp_tools_ready".
Definition evidenceSelfReportLoadedMCPTools := "self_report:loaded_mcp_tools".
Definition evidenceNoneLegacyRuntime := "none:legacy_runtime_no_readiness_contract".
Definition evidenceDispatchObservedMCPSurface := "dispatch_observed:mcp_namespace_corroborated".

Definition conciergeOnlineEvidence (mcpToolsReady provisionToolLoaded : bool) (surface : string) : string :=
  if mcpToolsReady || provisionToolLoaded then
    if decide (surface = verdictCorroborated) then evidenceDispatchObservedMCPSurface
    else if mcpToolsReady then evidenceSelfReportMCPToolsReady else evidenceSelfReportLoadedMCPTools
  else "".

(** *** Messages *)

Definition model_missing_message :=
  "platform agent heartbeat denied: no seeded MODEL workspace_secret; refusing to mark online (RCA #2970 FAIL-CLOSED)".
Definition mcp_missing_message :=
  "platform agent heartbeat denied: management MCP server absent (mcp_server_present=false); refusing to mark online (RCA #2970 FAIL-CLOSED)".
Definition warmup_message :=
  "platform concierge never reached management-MCP readiness within 5m0s of warming (mcp_tools_ready not published and loaded_mcp_tools did not carry provision_workspace); marking degraded (EV2 warm-fail safety net, core#3082/#4449)".
Definition not_ready_message :=
  "platform agent management-MCP readiness probe reports provision_workspace not loaded past the grace window; marking degraded (EV2 live mcp_tools_ready=false, core#3082/#4457)".
Definition not_loaded_message := "platform agent management MCP declared but not loaded; marking degraded (core#3082)".
Definition no_list_message :=
  "platform agent runtime did not report loaded_mcp_tools on a mcp_server_present=true heartbeat; cannot verify provision_workspace tool is loaded — marking degraded (core#3082)".
(** The text of the error in the middle is left out. *)
Definition lookup_message := "platform agent declared management MCP lookup failed: ; marking degraded (core#3082)".

(** *** The concierge that is not online *)

Definition recoverable (status : string) : bool :=
  bool_decide (status ∈ ["provisioning"; "failed"; "offline"; "awaiting_agent"; "degraded"]).

(** The stamp, set by [COALESCE(mcp_unloaded_since, now())] where the read found
    none, and the time it stands for. *)
Definition stamp_unloaded (mcpUnloadedSince : option time) : M time :=
  match mcpUnloadedSince with
  | Some t => ret t
  | None =>
      exec_ e (fun _ => true) (fun w => set_unloaded (Some (default (e_now e) (h_unloaded w))) w) ;;; ret (e_now e)
  end.
Definition clear_unloaded (mcpUnloadedSince : option time) : M unit :=
  when (bool_decide (is_Some mcpUnloadedSince)) (exec_ e (fun w => bool_decide (is_Some (h_unloaded w))) (set_unloaded None)).

Definition unhealthy (p : beat) (recent_failure : bool) : bool :=
  bool_decide (RuntimeState p = "wedged") || Qle_bool (1 # 2) (ErrorRate p) || recent_failure.
Definition tools_of (p : beat) : list string := default [] (LoadedMCPTools p).
Definition provision_loaded (p : beat) : bool := bool_decide (conciergePlatformMCPProvisionWorkspaceTool ∈ tools_of p).
Definition tools_ready (p : beat) : bool := bool_decide (MCPToolsReady p = Some true).

(** A degrade that announces itself when it hit the row; the recovery also fires
    when the UPDATE errored. *)
Definition degrade_loudly (from msg why : string) : M unit :=
  n <-- degrade from msg ;;
  match n with
  | None => fireReconcileMCPRecovery
  | Some n => when (0 <? n) (emit (BroadcastDegraded why) ;;; fireReconcileMCPRecovery)
  end.

Definition promoted (st : string) (evidence : string) (p : beat) : M unit :=
  emit (BroadcastOnline (Some evidence)) ;;;
  fireReconcileOnline ;;;
  when (bool_decide (st = "provisioning")) (fireFirstBootGreeting (length (tools_of p))).

(** Held in provisioning, and degraded when it takes too long. *)
Definition hold_warming (w : hrow) : M unit :=
  first <-- stamp_unloaded (h_unloaded w) ;;
  when (conciergeWarmupFailGrace <=? e_now e - first) (degrade_loudly "provisioning" warmup_message "warmup_never_ready").

Definition promote_concierge (w : hrow) (p : beat) (surface : string) (recent_failure : bool) : M unit :=
  let st := h_status w in
  let sick := unhealthy p recent_failure in
  if negb (recoverable st) then ret tt
  else if bool_decide (MCPServerPresent p = None) && negb sick then
    move st "online" ;;; promoted st evidenceNoneLegacyRuntime p
  else if (tools_ready p || provision_loaded p) && negb sick then
    exec_ e (has_status st) (fun w => set_status "online" (with_unloaded None w)) ;;;
    promoted st (conciergeOnlineEvidence (tools_ready p) (provision_loaded p) surface) p
  else if decide (st = "provisioning") then hold_warming w
  else ret tt.

(** *** The concierge that is: the management MCP may have gone

    The result is managementMCPUnloaded. *)
Definition check_concierge (w : hrow) (p : beat) : M bool :=
  if negb (bool_decide (MCPServerPresent p = Some true)) then ret false
  else if tools_ready p then clear_unloaded (h_unloaded w) ;;; ret false
  else if bool_decide (is_Some (MCPToolsReady p)) then
    first <-- stamp_unloaded (h_unloaded w) ;;
    when (negb (e_now e - first <? managementMCPUnloadedGrace))
      (degrade_loudly "online" not_ready_message "mcp_tools_ready_false") ;;;
    ret true
  else
    missing <-- match LoadedMCPTools p with
                | None => ret (Some true)
                | Some loaded => platformAgentManagementMCPLoaded loaded
                end ;;
    match missing with
    | None =>
        _ <-- degrade "online" lookup_message ;;
        emit (BroadcastDegraded "management_mcp_lookup_failed") ;;; ret true
    | Some true =>
        first <-- stamp_unloaded (h_unloaded w) ;;
        when (negb (e_now e - first <? managementMCPUnloadedGrace))
          (_ <-- degrade "online" (if bool_decide (LoadedMCPTools p = None) then no_list_message else not_loaded_message) ;;
           emit (BroadcastDegraded "management_mcp_missing") ;;; fireReconcileMCPRecovery) ;;;
        ret true
    | Some false => clear_unloaded (h_unloaded w) ;;; ret false
    end.

(** *** Every other workspace, and the concierge that is online *)

(** The float64 nearest to 0.1. *)
Definition tenth : Q := 3602879701896397 # 36028797018963968.

Definition degraded (why : string) : M unit := move "online" "degraded" ;;; emit (BroadcastDegraded why).
Definition recovered (from : string) : M unit :=
  move from "online" ;;; emit (BroadcastOnline None) ;;; fireReconcileOnline.

Definition generic_status (w : hrow) (p : beat) (recent_failure managementMCPUnloaded : bool) : M unit :=
  let st := h_status w in
  when (bool_decide (RuntimeState p = "wedged") && bool_decide (st = "online")) (degraded "wedged") ;;;
  s <-- get ;;
  let nativeStatus := HasCapability (WorkspaceID p) "status_mgmt" (x_overrides s) in
  when (negb nativeStatus && bool_decide (st = "online") && Qle_bool (1 # 2) (ErrorRate p)) (degraded "error_rate") ;;;
  when (bool_decide (st = "online") && recent_failure) (degraded "register_failure") ;;;
  when (negb nativeStatus && bool_decide (st = "degraded") && negb (Qle_bool tenth (ErrorRate p)) &&
        bool_decide (RuntimeState p = "") && negb recent_failure && negb managementMCPUnloaded)
    (recovered "degraded") ;;;
  when (bool_decide (st = "offline")) (recovered "offline") ;;;
  when (bool_decide (st = "provisioning")) (recovered "provisioning") ;;;
  when (bool_decide (st = "awaiting_agent")) (recovered "awaiting_agent") ;;;
  when (bool_decide (st = "failed")) (recovered "failed").

(** A failed SELECT leaves the capacity at zero. *)
Definition drain_spare (p : beat) : M unit :=
  when (e_drain e)
    (o <-- read e ;;
     let maxConcurrent := match o with Some (Some w) => h_max w | _ => 0 end in
     when (ActiveTasks p <? maxConcurrent) (emit (WorkspaceRow.Drain (Z.max 1 (maxConcurrent - ActiveTasks p))))).

Definition recent_register_failure (w : hrow) : bool :=
  some_and (h_register_failure w) (fun t => e_now e - t <? 5 * Minute).

(** [surface] is what the request context holds. *)
Definition evaluate_row (w : hrow) (surface : option string) (p : beat) : M unit :=
  let recent := recent_register_failure w in
  if decide (h_kind w = "platform") then
    m <-- platformAgentHasModelSecret ;;
    match m with
    | None => ret tt
    | Some hasModel =>
        if negb hasModel then markWorkspaceFailed model_missing_message "model_missing"
        else if negb (platformAgentMCPServerPresent (MCPServerPresent p)) then
          fireReconcileMCPRecovery ;;; markWorkspaceFailed mcp_missing_message "mcp_server_missing"
        else if negb (bool_decide (h_status w = "online")) then
          promote_concierge w p (mcpSurfaceVerdictFromContext surface) recent
        else unloaded <-- check_concierge w p ;; generic_status w p recent unloaded ;;; drain_spare p
    end
  else generic_status w p recent false ;;; drain_spare p.

Definition evaluateStatus (surface : option string) (p : beat) : M unit :=
  o <-- read e ;;
  match o with
  | Some (Some w) => evaluate_row w surface p
  | _ => ret tt
  end.

(** ** The rest of the handler *)

Definition not_removed (w : hrow) : bool := negb (has_status "removed" w).

(** The verdict goes into the request context, [None] where none was reached. *)
Definition recordMCPSurfaceCorroboration (reported : list string) : M (option string) :=
  match reported with
  | [] =>
      let report := classifyMCPSurface reported ∅ 0 None (e_now e) in
      exec_ e not_removed (fun w => touch (e_now e) (with_surface (Some report) w)) ;;; ret (Some (Verdict report))
  | _ =>
      o <-- read e ;;
      let prior := match o with Some (Some w) => h_surface w | _ => None end in
      t <-- read_other e (e_traces e) ;;
      match t with
      | None => ret None
      | Some traces =>
          let '(dispatched, records) := mcpDispatchNamespacesFrom traces in
          let report := classifyMCPSurface reported dispatched records prior (e_now e) in
          exec_ e not_removed (fun w => touch (e_now e) (with_surface (Some report) w)) ;;; ret (Some (Verdict report))
      end
  end.

Definition maxMonthlySpend : Z := 1000000000000.
Definition clamp_spend (n : Z) : Z := Z.min maxMonthlySpend (Z.max 0 n).

(** The increment the ledger is told, none where it is not positive. *)
Definition spend_delta (prevSpend spend : Z) : option Z :=
  if spend <=? 0 then None
  else let delta := if spend - prevSpend <? 0 then spend else spend - prevSpend in
       if 0 <? delta then Some delta else None.

(** The main UPDATE. *)
Definition beat_row (p : beat) (w : hrow) : hrow :=
  let spend := clamp_spend (MonthlySpend p) in
  let v := Vitals (ErrorRate p) (ActiveTasks p) (UptimeSeconds p) (Some (CurrentTask p))
             (if 0 <? spend then spend else monthly_spend (h_vitals w)) (default (0 <? ActiveTasks p) (IsBusy p)) in
  let st := if decide (h_status w = "provisioning" /\ h_kind w <> "platform") then "online" else h_status w in
  touch (e_now e) (with_status st (with_heartbeat (e_now e) (with_sample_error (SampleError p) (with_vitals v w)))).

Definition report_tools (p : beat) : M (option string) :=
  match LoadedMCPTools p with
  | None => ret None
  | Some tools =>
      exec_ e not_removed (fun w => touch (e_now e) (with_loaded (Some tools) w)) ;;;
      recordMCPSurfaceCorroboration tools
  end.

Definition report_generation (p : beat) (desiredGen : Z) : M unit :=
  match ObservedGeneration p with
  | None => ret tt
  | Some n =>
      exec_ e not_removed (fun w => touch (e_now e) (with_observed (Z.max (h_observed w) n) w)) ;;;
      when (desiredGen <=? n) (fireWakeSettled n)
  end.

Definition with_card (c : json) (w : hrow) : hrow :=
  let i := h_ident w in
  with_ident (Identity (i_name i) (i_role i) (Some c) (i_url i) (delivery_mode i) (i_runtime i) (i_kind i)) w.

Definition report_card (p : beat) : M unit :=
  match AgentCard p with
  | None => ret tt
  | Some c =>
      exec_ e (fun w => bool_decide (agent_card (h_ident w) = None)) (with_card c) ;;;
      exec_ e (fun w => bool_decide (is_Some (h_register_failure w))) (with_register_failure None)
  end.

Definition refresh_overrides (p : beat) : M unit :=
  let ws := WorkspaceID p in
  set_overrides (fun c =>
    let c := SetIdleTimeout ws (match Metadata p ≫= IdleTimeoutSeconds with Some n => seconds n | None => 0 end) c in
    SetCapabilities ws (match Metadata p with Some m => Capabilities m | None => ∅ end) c).

(** *** The inbound secret *)

Definition inboundSecretCacheTTL : time := 5 * Minute.

(** [inr false] is ErrNoInboundSecret, [inr true] any other error. *)
Definition read_inbound_column : M (string + bool) :=
  o <-- read e ;;
  match o with
  | None => ret (inr true)
  | Some None => ret (inr false)
  | Some (Some w) =>
      match h_inbound w with
      | None => ret (inr false)
      | Some secret =>
          if decide (secret = "") then ret (inr false)
          else set_cached secret (e_now e + inboundSecretCacheTTL) ;;; ret (inl secret)
      end
  end.
Definition ReadPlatformInboundSecret : M (string + bool) :=
  s <-- get ;;
  match x_cached s with
  | Some (secret, expires) => if e_now e <? expires then ret (inl secret) else read_inbound_column
  | None => read_inbound_column
  end.

(** The rows affected are not looked at. *)
Definition IssuePlatformInboundSecret : M (option string) :=
  match e_minted e with
  | None => ret None
  | Some plaintext =>
      n <-- exec e (fun _ => true) (with_inbound (Some plaintext)) ;;
      match n with
      | None => ret None
      | Some _ => set_cached plaintext (e_now e + inboundSecretCacheTTL) ;;; ret (Some plaintext)
      end
  end.

Definition readOrLazyHealInboundSecret : M (option string) :=
  r <-- ReadPlatformInboundSecret ;;
  match r with
  | inl secret => ret (Some secret)
  | inr true => ret None
  | inr false => IssuePlatformInboundSecret
  end.

(** *** Heartbeat *)

Inductive beat_reply := BeatOk (generation : Z) (secret : option string) | BeatErr (code : Z).

(** What follows the main UPDATE. *)
Definition after_update (p : beat) (prevTask prevStatus : string) (desiredGen : Z) : M beat_reply :=
  surface <-- report_tools p ;;
  report_generation p desiredGen ;;;
  when (bool_decide (prevStatus = "provisioning")) fireReconcileOnline ;;;
  report_card p ;;;
  emit RefreshTTL ;;;
  evaluateStatus surface p ;;;
  when (negb (bool_decide (CurrentTask p = prevTask))) (emit (BroadcastTask (CurrentTask p))) ;;;
  emit BroadcastHeartbeat ;;;
  refresh_overrides p ;;;
  secret <-- readOrLazyHealInboundSecret ;;
  ret (BeatOk desiredGen (match secret with Some "" => None | o => o end)).

(** The handler once the caller is admitted. *)
Definition Heartbeat (p : beat) : M beat_reply :=
  prev <-- read e ;;
  let '(prevTask, prevSpend, prevStatus, desiredGen) :=
    match prev with
    | Some (Some w) => (default "" (current_task (h_vitals w)), monthly_spend (h_vitals w), h_status w, h_desired w)
    | _ => ("", 0, "", 0)
    end in
  match spend_delta prevSpend (clamp_spend (MonthlySpend p)) with
  | Some delta => record_spend e (WorkspaceID p) delta
  | None => ret tt
  end ;;;
  n <-- exec e not_removed (beat_row p) ;;
  match n with
  | None => ret (BeatErr 500)
  | Some _ => after_update p prevTask prevStatus desiredGen
  end.

End Beat.

Definition holdOnlineBroadcastForWarmingPlatform (kind status : string) : bool :=
  bool_decide (kind = "platform") && bool_decide (status = "provisioning").

(** The whole request: [None] is a body that does not decode. *)
Definition HeartbeatRequest `{UuidCast} (sha256 : string -> string) (e : benv) (tool : string) (failClosed : bool)
    (a : auth_env) (header : string) (body : option beat) (db : token_db) (s : hst) : token_db * hst * beat_reply :=
  match body with
  | None => (db, s, BeatErr 400)
  | Some p =>
      if decide (WorkspaceID p = "") then (db, s, BeatErr 400)
      else match requireWorkspaceToken sha256 failClosed a (e_now e) (WorkspaceID p) header db with
           | (db, Some code) => (db, s, BeatErr code)
           | (db, None) => let '(s, r) := Heartbeat e tool p s in (db, s, r)
           end
  end.

(** A handler's first state. *)
Definition begin_on (r : option hrow) : hst := HSt r [] [] 0 None ∅ None.
