(* ===== verification/HeartbeatSafety.v ===== *)
(** * What a heartbeat may do to a status

    The status writes of Heartbeat under any failures and any other writers, what
    an undisturbed evaluateStatus computes, how long a concierge may warm up, and
    how the spend reported adds up in the ledger. *)

From Stdlib Require Import QArith.
From S2P Require Import Prelude Tree Tokens Budget McpSurface RuntimeOverrides WorkspaceRow Heartbeat.
#[local] Open Scope Z_scope.
#[local] Open Scope beat_scope.

(** ** The moves *)

Section Moves.
Context (e : benv) (tool : string).

(** The identity gate of a concierge is closed. *)
Definition identity_lost (p : beat) : Prop := e_model e = false \/ MCPServerPresent p = Some false.

(** What a concierge has to show: a model, a management MCP that is not reported
    absent, health, and readiness - unless its runtime cannot speak of it. *)
Definition proven (w : hrow) (p : beat) : Prop :=
  e_model e = true /\ MCPServerPresent p <> Some false /\ RuntimeState p <> "wedged" /\ ~ (1 # 2 <= ErrorRate p)%Q /\
  recent_register_failure e w = false /\
  (MCPServerPresent p = None \/ MCPToolsReady p = Some true \/ tool ∈ tools_of p).

(** The statuses a heartbeat may bring back from: not removed, paused, hibernated or
    hibernating, and not online already. *)
Definition comes_back (st : string) : Prop :=
  st = "provisioning" \/ st = "failed" \/ st = "offline" \/ st = "awaiting_agent" \/ st = "degraded".

Lemma recoverable_comes_back st : recoverable st = true -> comes_back st.
Proof. unfold recoverable, comes_back. intros Hr. apply bool_decide_eq_true in Hr. set_solver. Qed.

(** The status moves of an evaluation that read the row [w]. *)
Definition move_of (w : hrow) (p : beat) (o : hout) : Prop :=
  match o with
  | Wrote _ before after =>
      (after = "online" /\ before = h_status w /\ comes_back before /\ (h_kind w = "platform" -> proven w p)) \/
      (after = "degraded" /\ before = h_status w /\ (before = "online" \/ before = "provisioning" /\ h_kind w = "platform")) \/
      (after = "failed" /\ h_kind w = "platform" /\ identity_lost p)
  | _ => True
  end.

Lemma emits_aside P : (forall o, match o with Wrote _ _ _ => True | _ => P o end) ->
  Emits P (fireReconcileOnline e) /\ Emits P (fireReconcileMCPRecovery e) /\ (forall n, Emits P (fireFirstBootGreeting e n)) /\
  (forall n, Emits P (fireWakeSettled e n)) /\ (forall why, Emits P (emit (BroadcastDegraded why))) /\
  (forall ev, Emits P (emit (BroadcastOnline ev))).
Proof.
  intros HP. split_and!; intros; unfold fireReconcileOnline, fireReconcileMCPRecovery, fireFirstBootGreeting, fireWakeSettled.
  - emits; apply Emits_emit; [exact (HP Reconcile)|exact (HP RestoreSchedules)].
  - apply Emits_bind; [by apply Emits_quiet|]. intros s. repeat case_match; try apply Emits_ret.
    apply Emits_bind; [by apply Emits_quiet|]. intros _. apply Emits_emit. exact (HP Recover).
  - emits. apply Emits_emit. exact (HP (Greet n)).
  - emits. apply Emits_emit. exact (HP (Settle n)).
  - apply Emits_emit. exact (HP (BroadcastDegraded why)).
  - apply Emits_emit. exact (HP (BroadcastOnline ev)).
Qed.

Lemma emits_guarded P from upd :
  (forall w, h_status (upd w) <> h_status w -> P (Wrote (h_kind w) from (h_status (upd w)))) ->
  Emits P (exec e (has_status from) upd).
Proof. intros HP. apply Emits_exec. intros w Hg Hne. unfold has_status in Hg. b2p. rewrite Hg at 1. by apply HP. Qed.

Lemma emits_move P from to : (forall k, P (Wrote k from to)) -> Emits P (move e from to).
Proof. intros HP. unfold move, exec_. emits. apply emits_guarded. intros w _. apply HP. Qed.

Lemma emits_degrade P from msg : (forall k, P (Wrote k from "degraded")) -> Emits P (degrade e from msg).
Proof. intros HP. apply emits_guarded. intros w _. apply HP. Qed.

Lemma emits_stamp P o : Emits P (stamp_unloaded e o).
Proof.
  unfold stamp_unloaded. destruct o; [apply Emits_ret|]. apply Emits_bind; [by apply Emits_exec_still|].
  intros _. apply Emits_ret.
Qed.

Lemma emits_clear P o : Emits P (clear_unloaded e o).
Proof. unfold clear_unloaded. apply Emits_when. intros _. by apply Emits_exec_still. Qed.

(** Everything that is not a status write is allowed. *)
Definition aside (P : hout -> Prop) : Prop := forall o, match o with Wrote _ _ _ => True | _ => P o end.

Lemma emits_degrade_loudly P from msg why : aside P -> (forall k, P (Wrote k from "degraded")) -> Emits P (degrade_loudly e from msg why).
Proof.
  intros Ha HP. destruct (emits_aside P Ha) as (_ & Hr & _ & _ & Hd & _). unfold degrade_loudly. emits.
  - by apply emits_degrade.
  - destruct a; emits; auto.
Qed.

Lemma emits_promoted P st ev p : aside P -> Emits P (promoted e st ev p).
Proof.
  intros Ha. destruct (emits_aside P Ha) as (Ho & _ & Hg & _ & _ & Hb). unfold promoted.
  apply Emits_bind; [apply Hb|]. intros _. apply Emits_bind; [apply Ho|]. intros _. apply Emits_when. intros _. apply Hg.
Qed.

Lemma unhealthy_false p recent :
  unhealthy p recent = false -> RuntimeState p <> "wedged" /\ ~ (1 # 2 <= ErrorRate p)%Q /\ recent = false.
Proof.
  unfold unhealthy. intros Hu. apply orb_false_iff in Hu as [Hu Hr]. apply orb_false_iff in Hu as [Hw He]. b2p.
  split_and!; [done| |done]. intros Hle. apply Qle_bool_iff in Hle. congruence.
Qed.

(** The gate of a concierge that is not online. *)
Lemma emits_promote w p surface :
  h_kind w = "platform" -> e_model e = true -> MCPServerPresent p <> Some false ->
  Emits (move_of w p) (promote_concierge e tool w p surface (recent_register_failure e w)).
Proof.
  intros Hk Hm Hp. assert (Ha : aside (move_of w p)) by by intros [].
  unfold promote_concierge. destruct (recoverable (h_status w)) eqn:Er; cbn [negb]; [|apply Emits_ret].
  destruct (bool_decide (MCPServerPresent p = None) && negb (unhealthy p _)) eqn:E1.
  - b2p. destruct (unhealthy_false _ _ H0) as (? & ? & ?). apply Emits_bind; [|intros _; by apply emits_promoted].
    apply emits_move. intros k. left. split_and!; try done; [by apply recoverable_comes_back|]. intros _. unfold proven. auto 10.
  - destruct ((tools_ready p || provision_loaded tool p) && negb (unhealthy p _)) eqn:E2.
    + b2p. destruct (unhealthy_false _ _ H0) as (? & ? & ?). apply Emits_bind; [|intros _; by apply emits_promoted].
      unfold exec_. emits. apply emits_guarded. intros w' _. left.
      split_and!; try done; [by apply recoverable_comes_back|]. intros _.
      apply orb_true_iff in H. unfold tools_ready, provision_loaded in H. unfold proven. split_and!; try done.
      destruct H as [H|H]; b2p; auto.
    + destruct (decide (h_status w = "provisioning")) as [Est|]; [|apply Emits_ret].
      apply Emits_bind; [apply emits_stamp|]. intros t. apply Emits_when. intros _. apply emits_degrade_loudly; [done|].
      intros k. right; left. rewrite Est. auto.
Qed.

Lemma emits_check w p : h_status w = "online" -> Emits (move_of w p) (check_concierge e tool w p).
Proof.
  intros Hon. assert (Ha : aside (move_of w p)) by by intros [].
  assert (Hd : forall k, move_of w p (Wrote k "online" "degraded")) by (intros k; right; left; rewrite Hon; auto).
  destruct (emits_aside (move_of w p) Ha) as (_ & Hr & _ & _ & Hb & _).
  unfold check_concierge. destruct (negb _); [apply Emits_ret|]. destruct (tools_ready p).
  { apply Emits_bind; [apply emits_clear|]. intros. apply Emits_ret. }
  destruct (bool_decide (is_Some (MCPToolsReady p))).
  { apply Emits_bind; [apply emits_stamp|]. intros t. apply Emits_bind; [|intros; apply Emits_ret].
    apply Emits_when. intros _. by apply emits_degrade_loudly. }
  apply Emits_bind.
  { destruct (LoadedMCPTools p); [|apply Emits_ret]. unfold platformAgentManagementMCPLoaded. emits. }
  intros [[]|].
  - apply Emits_bind; [apply emits_stamp|]. intros t. apply Emits_bind; [|intros; apply Emits_ret].
    apply Emits_when. intros _. apply Emits_bind; [by apply emits_degrade|]. intros _.
    apply Emits_bind; [apply Hb|]. intros _. apply Hr.
  - apply Emits_bind; [apply emits_clear|]. intros. apply Emits_ret.
  - apply Emits_bind; [by apply emits_degrade|]. intros _. apply Emits_bind; [apply Hb|]. intros. apply Emits_ret.
Qed.

Lemma emits_degraded P why : aside P -> (forall k, P (Wrote k "online" "degraded")) -> Emits P (degraded e why).
Proof.
  intros Ha HP. destruct (emits_aside P Ha) as (_ & _ & _ & _ & Hb & _). unfold degraded.
  apply Emits_bind; [by apply emits_move|]. intros _. apply Hb.
Qed.

Lemma emits_recovered P from : aside P -> (forall k, P (Wrote k from "online")) -> Emits P (recovered e from).
Proof.
  intros Ha HP. destruct (emits_aside P Ha) as (Ho & _ & _ & _ & _ & Hb). unfold recovered.
  apply Emits_bind; [by apply emits_move|]. intros _. apply Emits_bind; [apply Hb|]. intros _. apply Ho.
Qed.

Lemma emits_generic w p recent unloaded :
  (h_kind w = "platform" -> h_status w = "online") -> Emits (move_of w p) (generic_status e w p recent unloaded).
Proof.
  intros Hk. assert (Ha : aside (move_of w p)) by by intros [].
  assert (Hd : h_status w = "online" -> forall k, move_of w p (Wrote k "online" "degraded")) by (intros Hon k; right; left; rewrite Hon; auto).
  assert (Hr : forall st, h_status w = st -> recoverable st = true -> st <> "online" -> forall k, move_of w p (Wrote k st "online")).
  { intros st Hst Hrec Hne k. left. split_and!; try done; [by apply recoverable_comes_back|]. intros Hp. by destruct Hne; rewrite <- Hst; apply Hk. }
  unfold generic_status.
  cbn zeta. emits; b2p;
    first [apply emits_degraded; [done|auto] | apply emits_recovered; [done|by apply Hr]].
Qed.

Lemma emits_drain P (p : beat) : aside P -> Emits P (drain_spare e p).
Proof. intros Ha. unfold drain_spare. emits. apply Emits_emit. apply (Ha (WorkspaceRow.Drain _)). Qed.

Lemma emits_failed P msg reason :
  aside P -> (forall k b, P (Wrote k b "failed")) -> Emits P (markWorkspaceFailed e msg reason).
Proof.
  intros Ha HP. unfold markWorkspaceFailed. apply Emits_bind; [apply Emits_emit, (Ha (BroadcastFailed reason))|].
  intros _. apply Emits_exec_. intros w _ _. apply HP.
Qed.

Lemma emits_evaluate_row w surface p : Emits (move_of w p) (evaluate_row e tool w surface p).
Proof.
  assert (Ha : aside (move_of w p)) by by intros [].
  destruct (emits_aside (move_of w p) Ha) as (_ & Hr & _). unfold evaluate_row.
  destruct (decide (h_kind w = "platform")) as [Hk|Hk].
  - apply Emits_bind_read_other; [apply Emits_ret|]. destruct (e_model e) eqn:Em; cbn [negb].
    + destruct (platformAgentMCPServerPresent (MCPServerPresent p)) eqn:Epr; cbn [negb].
      * assert (Hp : MCPServerPresent p <> Some false) by (intros Hp; by rewrite Hp in Epr).
        destruct (bool_decide (h_status w = "online")) eqn:Eon; cbn [negb].
        -- b2p. apply Emits_bind; [by apply emits_check|]. intros u.
           apply Emits_bind; [by apply emits_generic|]. intros _. by apply emits_drain.
        -- by apply emits_promote.
      * apply Emits_bind; [apply Hr|]. intros _. apply emits_failed; [done|]. intros k b. right; right.
        split_and!; try done. right. unfold platformAgentMCPServerPresent in Epr.
        destruct (MCPServerPresent p) as [[]|]; congruence.
    + apply emits_failed; [done|]. intros k b. right; right. split_and!; try done. by left.
  - apply Emits_bind; [by apply emits_generic|]. intros _. by apply emits_drain.
Qed.
End Moves.

(** whatever fails and whoever else writes the row meanwhile, an evaluation
    moves a status only along these edges: to online, from the status it read, one a
    heartbeat may recover from, and for a concierge only one that has a model, does
    not report its management MCP absent, is healthy, and is ready or too old to
    say; to degraded, from online, or from a concierge's provisioning; and to failed,
    a concierge without its model or its management MCP. *)
Theorem evaluated_moves e tool surface p s w :
  e_others e (x_k s) (x_row s) = Some w ->
  exists out, x_out (fst (evaluateStatus e tool surface p s)) = x_out s ++ out /\ Forall (move_of e tool w p) out.
Proof.
  intros Hw. unfold evaluateStatus, bind, read, statement. rewrite Hw. destruct (e_fails e (x_k s)).
  - exists []. cbn. by rewrite app_nil_r.
  - match goal with |- context [evaluate_row e tool w surface p ?s'] =>
      destruct (emits_evaluate_row e tool w surface p s') as (out & E & Hout) end.
    exists out. split; [|done]. rewrite E. cbn. by rewrite app_nil_r.
Qed.

(** ** The whole beat *)

Definition beat_move (e : benv) (p : beat) (o : hout) : Prop :=
  match o with
  | Wrote _ before after =>
      (after = "online" /\ comes_back before) \/
      (after = "degraded" /\ (before = "online" \/ before = "provisioning")) \/
      (after = "failed" /\ identity_lost e p)
  | _ => True
  end.

Lemma move_beat_move e tool w p o : move_of e tool w p o -> beat_move e p o.
Proof. destruct o; try done. intros [(-> & _ & Hr & _)|[(-> & _ & Hb)|(-> & _ & Hl)]]; cbn; tauto. Qed.

Lemma emits_evaluate e tool surface p : Emits (beat_move e p) (evaluateStatus e tool surface p).
Proof.
  apply Emits_bind; [apply Emits_read|]. intros [[w|]|]; try apply Emits_ret.
  eapply Emits_mono; [|apply emits_evaluate_row]. intros o. apply move_beat_move.
Qed.

Lemma emits_surface e P reported : Emits P (recordMCPSurfaceCorroboration e reported).
Proof.
  unfold recordMCPSurfaceCorroboration. destruct reported; emits; try by apply Emits_exec_still.
  destruct a0; [|apply Emits_ret]. destruct (mcpDispatchNamespacesFrom _). emits. by apply Emits_exec_still.
Qed.

Lemma emits_tools e P p : Emits P (report_tools e p).
Proof.
  unfold report_tools. destruct (LoadedMCPTools p); [|apply Emits_ret]. apply Emits_bind; [by apply Emits_exec_still|].
  intros _. apply emits_surface.
Qed.

Lemma emits_generation e P p n : aside P -> Emits P (report_generation e p n).
Proof.
  intros Ha. destruct (emits_aside e P Ha) as (_ & _ & _ & Hs & _). unfold report_generation.
  destruct (ObservedGeneration p); emits; [by apply Emits_exec_still|apply Hs].
Qed.

Lemma emits_card e P p : Emits P (report_card e p).
Proof. unfold report_card. destruct (AgentCard p); emits; by apply Emits_exec_still. Qed.

Lemma emits_secret e P : Emits P (readOrLazyHealInboundSecret e).
Proof.
  assert (Hc : Emits P (read_inbound_column e)).
  { unfold read_inbound_column. emits. repeat case_match; emits; by apply Emits_quiet. }
  unfold readOrLazyHealInboundSecret, ReadPlatformInboundSecret, IssuePlatformInboundSecret. emits.
  - repeat case_match; try done; apply Emits_ret.
  - destruct a as [?|[]]; [apply Emits_ret|apply Emits_ret|]. destruct (e_minted e); emits.
    + by apply Emits_exec.
    + destruct a; emits. by apply Emits_quiet.
Qed.

Lemma beat_row_status e p w :
  h_status (beat_row e p w) <> h_status w ->
  h_status w = "provisioning" /\ h_kind w <> "platform" /\ h_status (beat_row e p w) = "online".
Proof. unfold beat_row. cbn. destruct (decide _) as [[-> Hk]|]; [auto|done]. Qed.

(** ** A beat of a workspace that is no platform agent *)

(** No platform agent: the row is absent, or an ordinary one. *)
Definition ordinary (o : option hrow) : Prop := forall w, o = Some w -> h_kind w <> "platform".

Section Kind.
Context (e : benv) (He : forall k o, ordinary o -> ordinary (e_others e k o)).

Lemma keep_kind (upd : hrow -> hrow) w : h_kind (upd w) = h_kind w -> ordinary (Some w) -> ordinary (Some (upd w)).
Proof. intros E Ho w' [= <-]. rewrite E. by apply Ho. Qed.

Lemma ordinary_exec guard upd : (forall w, h_kind (upd w) = h_kind w) -> Holds ordinary (exec_ e guard upd) (fun _ => True).
Proof. intros E. apply Holds_exec_; [done|]. intros w Hw _. by apply (keep_kind upd). Qed.

Lemma ordinary_failed msg reason : Holds ordinary (markWorkspaceFailed e msg reason) (fun _ => True).
Proof. unfold markWorkspaceFailed. holds. by apply ordinary_exec. Qed.

Lemma ordinary_hooks :
  Holds ordinary (fireReconcileOnline e) (fun _ => True) /\ Holds ordinary (fireReconcileMCPRecovery e) (fun _ => True) /\
  (forall n, Holds ordinary (fireFirstBootGreeting e n) (fun _ => True)).
Proof.
  unfold fireReconcileOnline, fireReconcileMCPRecovery, fireFirstBootGreeting. split_and!; [holds| |intros; holds].
  eapply (Holds_bind _ _ _ (fun _ => True)); [by apply Holds_aside|]. intros s _. repeat case_match; try by apply Holds_ret.
Qed.

Lemma ordinary_secret : Holds ordinary (readOrLazyHealInboundSecret e) (fun _ => True).
Proof.
  assert (Hc : Holds ordinary (read_inbound_column e) (fun _ => True)).
  { unfold read_inbound_column. eapply (Holds_bind _ _ _ (fun _ => True)); [by apply Holds_read|].
    intros o _. repeat case_match; holds; by apply Holds_aside. }
  unfold readOrLazyHealInboundSecret, ReadPlatformInboundSecret, IssuePlatformInboundSecret. holds.
  - repeat case_match; try done; by apply Holds_ret.
  - destruct a as [?|[]]; [holds|holds|]. destruct (e_minted e); [|holds]. eapply (Holds_bind _ _ _ (fun _ => True)).
    + apply Holds_exec; [done|]. intros w Hw _. by apply (keep_kind (with_inbound _)).
    + intros [n|] _; holds. by apply Holds_aside.
Qed.

End Kind.

(** What a beat of an ordinary workspace may write. *)
Definition ordinary_move (o : hout) : Prop :=
  match o with
  | Wrote _ before after => (after = "online" /\ comes_back before) \/ (after = "degraded" /\ before = "online")
  | _ => True
  end.

Lemma move_ordinary e tool w p o : h_kind w <> "platform" -> move_of e tool w p o -> ordinary_move o.
Proof.
  intros Hk. destruct o; try done. intros [(-> & _ & Hr & _)|[(-> & _ & [Hb|[_ Hb]])|(_ & Hb & _)]]; cbn; auto; by destruct Hk.
Qed.

Section Ordinary.
Context (e : benv) (tool : string) (He : forall k o, ordinary o -> ordinary (e_others e k o)).

Lemma evaluate_ordinary surface p : EmitsFrom ordinary ordinary_move (evaluateStatus e tool surface p).
Proof.
  eapply (EmitsFrom_bind _ _ _ _ (fun o => match o with Some (Some w) => h_kind w <> "platform" | _ => True end)).
  - intros s _. apply Emits_read.
  - apply Holds_read; [done|done|]. intros [w|] Hw; [by apply Hw|done].
  - intros [[w|]|] Hw s _; try apply Emits_ret.
    eapply Emits_mono; [|apply emits_evaluate_row]. intros o. by apply move_ordinary.
Qed.

Lemma ordinary_tools p : Holds ordinary (report_tools e p) (fun _ => True).
Proof.
  unfold report_tools. destruct (LoadedMCPTools p) as [l|]; [|holds].
  eapply (Holds_bind _ _ _ (fun _ => True)); [by apply ordinary_exec|]. intros _ _.
  unfold recordMCPSurfaceCorroboration. destruct l; holds; [by apply ordinary_exec|].
  destruct a0 as [traces|]; [|holds]. destruct (mcpDispatchNamespacesFrom traces). holds. by apply ordinary_exec.
Qed.

Lemma ordinary_generation p n : Holds ordinary (report_generation e p n) (fun _ => True).
Proof. unfold report_generation, fireWakeSettled. destruct (ObservedGeneration p); holds. by apply ordinary_exec. Qed.

Lemma after_update_ordinary p t st g : EmitsFrom ordinary ordinary_move (after_update e tool p t st g).
Proof.
  assert (Ha : aside ordinary_move) by by intros [].
  destruct (emits_aside e ordinary_move Ha) as (Ho & _). destruct (ordinary_hooks e) as (Hh & _).
  unfold after_update. apply EmitsFrom_then; [apply emits_tools|apply ordinary_tools|]. intros surface.
  apply EmitsFrom_then; [by apply emits_generation|apply ordinary_generation|]. intros _.
  apply EmitsFrom_then; [by apply Emits_when|by holds|]. intros _.
  apply EmitsFrom_then; [apply emits_card| |].
  { unfold report_card. destruct (AgentCard p); holds; by apply ordinary_exec. }
  intros _. apply EmitsFrom_then; [by apply Emits_emit|holds|]. intros _.
  apply EmitsFrom_before; [apply evaluate_ordinary|]. intros _.
  emits; auto using emits_secret; try (by apply Emits_emit); by apply Emits_quiet.
Qed.

Lemma heartbeat_ordinary p : EmitsFrom ordinary ordinary_move (Heartbeat e tool p).
Proof.
  unfold Heartbeat. apply EmitsFrom_then; [apply Emits_read|by apply Holds_read|]. intros prev.
  destruct (match prev with Some (Some w) => _ | _ => _ end) as [[[t sp] st] g].
  apply EmitsFrom_then.
  { destruct (spend_delta _ _); [by apply Emits_quiet|apply Emits_ret]. }
  { destruct (spend_delta _ _); [|holds]. intros s Hs. split; [|done]. cbn. by apply He, He. }
  intros _. apply EmitsFrom_then.
  - apply Emits_exec. intros w Hg Hne. apply beat_row_status in Hne as (Hst & _ & ->). left. split; [done|]. rewrite Hst. by left.
  - apply Holds_exec; [done|]. intros w Hw _. by apply keep_kind.
  - intros [n|]; [apply after_update_ordinary|]. intros s _. apply Emits_ret.
Qed.
End Ordinary.

Lemma heartbeat_emits e tool p : Emits (beat_move e p) (Heartbeat e tool p).
Proof.
  assert (Ha : aside (beat_move e p)) by by intros [].
  destruct (emits_aside e (beat_move e p) Ha) as (Ho & _).
  assert (Haft : forall t st g, Emits (beat_move e p) (after_update e tool p t st g)).
  { intros t st g. unfold after_update. emits; auto using emits_tools, emits_generation, emits_card, emits_evaluate, emits_secret;
      try (by apply Emits_emit); by apply Emits_quiet. }
  unfold Heartbeat. emits. destruct (match a with Some (Some w) => _ | _ => _ end) as [[[t sp] st] g]. emits.
  - destruct (spend_delta _ _); [by apply Emits_quiet|apply Emits_ret].
  - apply Emits_exec. intros w Hg Hne. apply beat_row_status in Hne as (Hst & _ & ->). left. split; [done|]. rewrite Hst. by left.
  - destruct a1; [apply Haft|apply Emits_ret].
Qed.

(** C15: a heartbeat brings back nobody: whatever fails and whoever writes
    meanwhile, it puts a row online only from a status a heartbeat may recover from
    - never a removed, paused or hibernated one - degrades only what was online or
    provisioning, and fails a row only when a concierge's identity is gone: the
    beat reports no management MCP, or there is no model. A workspace that is not
    of kind platform, and that no other writer makes one meanwhile, it never fails,
    and degrades only from online. *)
Theorem heartbeat_moves e tool p s :
  exists out, x_out (fst (Heartbeat e tool p s)) = x_out s ++ out /\ Forall (beat_move e p) out /\
    ((forall k o, ordinary o -> ordinary (e_others e k o)) -> ordinary (x_row s) -> Forall ordinary_move out).
Proof.
  destruct (heartbeat_emits e tool p s) as (out & E & Hout). exists out. split_and!; [done|done|].
  intros He Hs. destruct (heartbeat_ordinary e tool He p s Hs) as (out' & E' & Hout').
  rewrite E in E'. by apply app_inv_head in E' as ->.
Qed.

(** ** What an undisturbed evaluation computes *)

Section Reference.
Context (e : benv) (tool : string).

(** The management MCP has been unloaded for [grace] at least. *)
Definition unloaded_for (grace : time) (w : hrow) : bool :=
  grace <=? e_now e - default (e_now e) (h_unloaded w).

Definition management_lost (w : hrow) (p : beat) : bool :=
  bool_decide (MCPServerPresent p = Some true) && negb (tools_ready p) &&
  (bool_decide (is_Some (MCPToolsReady p)) || bool_decide (LoadedMCPTools p = None) ||
   bool_decide (conciergePlatformMCPName ∈ e_declared e) && negb (provision_loaded tool p)) &&
  unloaded_for managementMCPUnloadedGrace w.

Definition next_generic (native : bool) (st : string) (p : beat) (recent unloaded : bool) : string :=
  if decide (st = "online") then
    if bool_decide (RuntimeState p = "wedged") || negb native && Qle_bool (1 # 2) (ErrorRate p) || recent
    then "degraded" else "online"
  else if decide (st = "degraded") then
    if negb native && negb (Qle_bool tenth (ErrorRate p)) && bool_decide (RuntimeState p = "") && negb recent && negb unloaded
    then "online" else "degraded"
  else if decide (st ∈ ["offline"; "provisioning"; "awaiting_agent"; "failed"]) then "online" else st.

(** The status after one evaluation of row [w]; [native]: the runtime manages its
    own status. *)
Definition next_status (native : bool) (w : hrow) (p : beat) : string :=
  let st := h_status w in
  let recent := recent_register_failure e w in
  if decide (h_kind w <> "platform") then next_generic native st p recent false
  else if negb (e_model e) || bool_decide (MCPServerPresent p = Some false) then "failed"
  else if decide (st = "online") then if management_lost w p then "degraded" else next_generic native st p recent false
  else if negb (recoverable st) then st
  else if negb (unhealthy p recent) && (bool_decide (MCPServerPresent p = None) || tools_ready p || provision_loaded tool p)
  then "online"
  else if decide (st = "provisioning") then
    if unloaded_for conciergeWarmupFailGrace w then "degraded" else st
  else st.
End Reference.

(** Replaces tests on literals by their values. *)
Ltac literals :=
  repeat match goal with
  | |- context [bool_decide (?a = ?b)] =>
      let v := eval vm_compute in (bool_decide (a = b)) in
      match v with true => change (bool_decide (a = b)) with true | false => change (bool_decide (a = b)) with false end
  end.

Section Evaluate.
Context (e : benv) (tool : string) (Hq : quiet e) (ov : gmap string runtimeOverrideEntry).

Ltac steps :=
  repeat lazymatch goal with
  | |- ends _ (bind get _) _ _ => apply ends_get; intros ? ? ?
  | |- ends _ (bind _ _) _ _ => apply ends_bind
  | |- ends _ (ret _) _ _ => apply ends_ret
  | |- ends _ (emit _) _ _ => apply ends_emit
  | |- ends _ (read _) _ _ => apply ends_read; [exact Hq|]
  | |- ends _ (read_other _ _) _ _ => apply ends_read_other; [exact Hq|]
  | |- ends _ (exec _ _ _) _ _ => apply ends_exec; [exact Hq|]
  | |- ends _ (exec_ _ _ _) _ _ => apply ends_exec_; [exact Hq|]
  | |- ends _ (when _ _) _ _ => apply ends_when; intros ?
  end.

Lemma aside_recovery s : x_row (fst (fireReconcileMCPRecovery e s)) = x_row s /\ x_overrides (fst (fireReconcileMCPRecovery e s)) = x_overrides s.
Proof. unfold fireReconcileMCPRecovery, bind, get, ret. destruct (negb _); [done|]. by destruct (some_and _ _). Qed.

Lemma aside_online s : x_row (fst (fireReconcileOnline e s)) = x_row s /\ x_overrides (fst (fireReconcileOnline e s)) = x_overrides s.
Proof. unfold fireReconcileOnline, bind, when. by destruct (e_reconcile e), (e_restore e). Qed.

Lemma aside_promoted st ev p s :
  x_row (fst (promoted e st ev p s)) = x_row s /\ x_overrides (fst (promoted e st ev p s)) = x_overrides s.
Proof.
  unfold promoted, fireReconcileOnline, fireFirstBootGreeting, bind, when.
  by destruct (e_reconcile e), (e_restore e), (bool_decide _), (e_greeter e).
Qed.

Lemma ends_move from to w (Q : hrow -> unit -> Prop) :
  Q (if has_status from w then set_status e to w else w) tt -> ends ov (move e from to) w Q.
Proof. intros HQ. unfold move. by apply ends_exec_. Qed.

Lemma ends_degraded why w (Q : hrow -> unit -> Prop) :
  Q (if has_status "online" w then set_status e "degraded" w else w) tt -> ends ov (degraded e why) w Q.
Proof. intros HQ. unfold degraded. apply ends_bind, ends_move, ends_emit. exact HQ. Qed.

Lemma ends_recovered from w (Q : hrow -> unit -> Prop) :
  Q (if has_status from w then set_status e "online" w else w) tt -> ends ov (recovered e from) w Q.
Proof.
  intros HQ. unfold recovered. apply ends_bind, ends_move, ends_bind, ends_emit. apply ends_aside; [|exact HQ].
  apply aside_online.
Qed.

Lemma ends_degrade_loudly from msg why w (Q : hrow -> unit -> Prop) :
  Q (if has_status from w then set_status_error e "degraded" msg w else w) tt -> ends ov (degrade_loudly e from msg why) w Q.
Proof.
  intros HQ. unfold degrade_loudly, degrade. apply ends_bind, ends_exec; [done|].
  apply ends_when; intros _; [|exact HQ]. apply ends_bind, ends_emit, ends_aside; [apply aside_recovery|exact HQ].
Qed.

Lemma ends_drain p w (Q : hrow -> unit -> Prop) : Q w tt -> ends ov (drain_spare e p) w Q.
Proof. intros HQ. unfold drain_spare. steps; exact HQ. Qed.

(** On a row whose status is known. *)
Lemma ends_degraded_on why w (Q : hrow -> unit -> Prop) :
  h_status w = "online" -> Q (set_status e "degraded" w) tt -> ends ov (degraded e why) w Q.
Proof. intros Hw HQ. apply ends_degraded. unfold has_status. by rewrite bool_decide_true. Qed.
Lemma ends_degraded_off why w (Q : hrow -> unit -> Prop) :
  h_status w = "degraded" -> Q w tt -> ends ov (degraded e why) w Q.
Proof. intros Hw HQ. apply ends_degraded. unfold has_status. rewrite Hw. by rewrite bool_decide_false. Qed.
Lemma ends_recovered_on from w (Q : hrow -> unit -> Prop) :
  h_status w = from -> Q (set_status e "online" w) tt -> ends ov (recovered e from) w Q.
Proof. intros Hw HQ. apply ends_recovered. unfold has_status. by rewrite bool_decide_true. Qed.

Definition generic_states : list string := ["online"; "degraded"; "offline"; "provisioning"; "awaiting_agent"; "failed"].

(** Runs the branches whose conditions are known. *)
Ltac walk :=
  repeat lazymatch goal with
  | |- ends _ (bind get _) _ _ =>
      apply ends_get; let s := fresh "s" in let H1 := fresh "H" in let H2 := fresh "H" in
      intros s H1 H2; rewrite H2; clear s H1 H2;
      repeat match goal with n := _ : bool |- _ => progress fold n | E : ?n = _ |- context [?n] => rewrite E end;
      rewrite ?andb_false_r, ?andb_true_r; cbn [andb negb]
  | |- ends _ (bind _ _) _ _ => apply ends_bind
  | |- ends _ (when true _) _ _ => apply ends_when; [intros _|discriminate]
  | |- ends _ (when false _) _ _ => apply ends_when; [discriminate|intros _]
  | |- ends _ (degraded _ _) _ _ =>
      first [apply ends_degraded_on; [first [eassumption|reflexivity]|] | apply ends_degraded_off; [reflexivity|]]
  | |- ends _ (recovered _ _) _ _ => apply ends_recovered_on; [eassumption|]
  | HQ : forall _, _ -> _ -> ?Q _ tt |- ?Q _ tt => apply HQ; first [reflexivity|eassumption]
  end.

Lemma ends_generic w w0 p recent unloaded (Q : hrow -> unit -> Prop) :
  h_status w0 = h_status w ->
  (forall w', h_status w' = next_generic (HasCapability (WorkspaceID p) "status_mgmt" ov) (h_status w) p recent unloaded ->
              h_unloaded w' = h_unloaded w0 -> Q w' tt) ->
  ends ov (generic_status e w p recent unloaded) w0 Q.
Proof.
  intros Hst HQ. unfold generic_status. cbn zeta. set (nat := HasCapability _ _ _) in HQ.
  assert (Hw : exists st, h_status w = st) by eauto. destruct Hw as [st Est]. rewrite Est in *.
  destruct (decide (st ∈ generic_states)) as [Hin|Hout].
  - unfold generic_states in Hin. rewrite !elem_of_cons, elem_of_nil in Hin. unfold next_generic in HQ.
    destruct Hin as [->|[->|[->|[->|[->|[->|[]]]]]]]; literals; rewrite ?andb_false_r, ?andb_true_r; cbn [andb].
    + destruct (bool_decide (RuntimeState p = "wedged")), nat eqn:En, (Qle_bool (1 # 2) (ErrorRate p)), recent; walk.
    + destruct nat eqn:En, (Qle_bool tenth (ErrorRate p)), (bool_decide (RuntimeState p = "")), recent, unloaded; walk.
    + walk.
    + walk.
    + walk.
    + walk.
  - assert (Hne : forall l, l ∈ generic_states -> bool_decide (st = l) = false)
      by (intros l Hl; apply bool_decide_eq_false; by intros ->).
    rewrite !Hne by (unfold generic_states; rewrite !elem_of_cons; tauto). rewrite ?andb_false_r. cbn [andb].
    unfold next_generic in HQ. rewrite !decide_False in HQ; [walk| | |]; intros Heq; apply Hout; unfold generic_states;
      rewrite ?Heq, !elem_of_cons in *; tauto.
Qed.
(** A row the check has degraded stays degraded: the later moves expect it online. *)
Lemma ends_generic_online w w0 p recent unloaded (Q : hrow -> unit -> Prop) :
  h_status w = "online" -> h_status w0 = "degraded" ->
  (forall w', h_status w' = "degraded" -> Q w' tt) -> ends ov (generic_status e w p recent unloaded) w0 Q.
Proof.
  intros Hon Hdeg HQ. unfold generic_status. cbn zeta. rewrite Hon. literals.
  rewrite ?andb_false_r, ?andb_true_r; cbn [andb].
  repeat lazymatch goal with
  | |- ends _ (bind get _) _ _ => apply ends_get; intros ? _ _
  | |- ends _ (bind _ _) _ _ => apply ends_bind
  | |- ends _ (degraded _ _) _ _ => apply ends_degraded_off; [exact Hdeg|]
  | |- ends _ (when false _) _ _ => apply ends_when; [discriminate|intros _]
  | |- ends _ (when (_ && false && _ && _ && _ && _) _) _ _ => rewrite andb_false_r; cbn [andb]
  | |- ends _ (when _ _) _ _ => apply ends_when; intros _
  | |- Q w0 tt => by apply HQ
  end.
Qed.

Lemma ends_stamp o w (Q : hrow -> time -> Prop) :
  o = h_unloaded w ->
  Q (match o with Some _ => w | None => set_unloaded e (Some (e_now e)) w end) (default (e_now e) o) ->
  ends ov (stamp_unloaded e o) w Q.
Proof.
  intros -> HQ. unfold stamp_unloaded. destruct (h_unloaded w) as [t|] eqn:Eu; [by apply ends_ret|].
  apply ends_bind, ends_exec_; [done|]. apply ends_ret. cbn in *. by rewrite Eu.
Qed.

Lemma ends_clear o w (Q : hrow -> unit -> Prop) :
  (forall w', h_status w' = h_status w -> Q w' tt) -> ends ov (clear_unloaded e o) w Q.
Proof.
  intros HQ. unfold clear_unloaded. apply ends_when; intros _; [|by apply HQ]. apply ends_exec_; [done|]. apply HQ. by case_match.
Qed.

Definition stamped (w : hrow) : hrow :=
  match h_unloaded w with Some _ => w | None => set_unloaded e (Some (e_now e)) w end.
Lemma stamped_status w : h_status (stamped w) = h_status w.
Proof. unfold stamped. by destruct (h_unloaded w). Qed.

Lemma ends_hold w (Q : hrow -> unit -> Prop) :
  h_status w = "provisioning" ->
  Q (if unloaded_for e conciergeWarmupFailGrace w then set_status_error e "degraded" warmup_message (stamped w)
     else stamped w) tt ->
  ends ov (hold_warming e w) w Q.
Proof.
  intros Hst HQ. unfold hold_warming. apply ends_bind, ends_stamp; [done|]. fold (stamped w).
  unfold unloaded_for in HQ. apply ends_when; intros Hg; rewrite Hg in HQ; [|exact HQ].
  apply ends_degrade_loudly. unfold has_status. by rewrite bool_decide_true by (by rewrite stamped_status).
Qed.

Lemma ends_promote w p surface (Q : hrow -> unit -> Prop) :
  (forall w', h_status w' =
     (if negb (recoverable (h_status w)) then h_status w
      else if negb (unhealthy p (recent_register_failure e w)) &&
              (bool_decide (MCPServerPresent p = None) || tools_ready p || provision_loaded tool p) then "online"
      else if decide (h_status w = "provisioning") then
        if unloaded_for e conciergeWarmupFailGrace w then "degraded" else h_status w
      else h_status w) -> Q w' tt) ->
  ends ov (promote_concierge e tool w p surface (recent_register_failure e w)) w Q.
Proof.
  intros HQ. unfold promote_concierge. cbn zeta.
  destruct (recoverable (h_status w)) eqn:Er; cbn [negb] in *; [|by apply ends_ret, HQ].
  assert (Hhold : ends ov (if decide (h_status w = "provisioning") then hold_warming e w else ret tt) w (fun w' _ =>
            h_status w' = if decide (h_status w = "provisioning") then
                            if unloaded_for e conciergeWarmupFailGrace w then "degraded" else h_status w else h_status w)).
  { destruct (decide _) as [Hst|Hst]; [|by apply ends_ret]. apply ends_hold; [done|].
    destruct (unloaded_for e conciergeWarmupFailGrace w); [done|]. by rewrite stamped_status. }
  assert (Hhas : has_status (h_status w) w = true) by by apply bool_decide_true.
  assert (Hgo : forall st ev, ends ov (promoted e st ev p) (set_status e "online" w) (fun w' _ => h_status w' = "online")
                /\ ends ov (promoted e st ev p) (set_status e "online" (with_unloaded None w)) (fun w' _ => h_status w' = "online"))
    by (intros; split; (apply ends_aside; [apply aside_promoted|done])).
  eapply ends_mono with (Q := fun w' _ => h_status w' = _); [intros w' [] Hw'; apply HQ; exact Hw'|].
  destruct (unhealthy p _); cbn [negb andb]; rewrite ?andb_false_r, ?andb_true_r; [exact Hhold|].
  destruct (bool_decide (MCPServerPresent p = None)); cbn [orb].
  - apply ends_bind, ends_move. rewrite Hhas. apply Hgo.
  - destruct (tools_ready p || provision_loaded tool p); [|exact Hhold].
    apply ends_bind, ends_exec_; [done|]. rewrite Hhas. apply Hgo.
Qed.

Lemma ends_check w p (Q : hrow -> bool -> Prop) :
  h_status w = "online" ->
  (forall w' u, h_status w' = (if management_lost e tool w p then "degraded" else "online") -> Q w' u) ->
  ends ov (check_concierge e tool w p) w Q.
Proof.
  intros Hst HQ. unfold management_lost, unloaded_for in HQ. unfold check_concierge.
  destruct (bool_decide (MCPServerPresent p = Some true)); cbn [negb andb] in *; [|by apply ends_ret, HQ].
  destruct (tools_ready p); cbn [negb andb] in HQ.
  { apply ends_bind, ends_clear. intros w' Hw'. apply ends_ret, HQ. congruence. }
  assert (Hon : forall w', h_status w' = "online" -> has_status "online" w' = true) by (intros; by apply bool_decide_true).
  assert (Hgrace : forall w', (negb (e_now e - default (e_now e) (h_unloaded w') <? managementMCPUnloadedGrace)) =
            (managementMCPUnloadedGrace <=? e_now e - default (e_now e) (h_unloaded w'))) by (intros; by rewrite Z.leb_antisym).
  destruct (bool_decide (is_Some (MCPToolsReady p))); cbn [orb andb] in HQ.
  { apply ends_bind, ends_stamp; [done|]. fold (stamped w). apply ends_bind. rewrite Hgrace.
    apply ends_when; intros Hg; rewrite Hg in HQ.
    - apply ends_degrade_loudly. rewrite Hon by by rewrite stamped_status. by apply ends_ret, HQ.
    - apply ends_ret, HQ. by rewrite stamped_status. }
  assert (Hmissing : forall b, (b = true -> bool_decide (LoadedMCPTools p = None) || bool_decide (conciergePlatformMCPName ∈ e_declared e) && negb (provision_loaded tool p) = true) ->
            ends ov (first <-- stamp_unloaded e (h_unloaded w) ;;
                     when (negb (e_now e - first <? managementMCPUnloadedGrace))
                       (_ <-- degrade e "online" (if bool_decide (LoadedMCPTools p = None) then no_list_message else not_loaded_message) ;;
                        emit (BroadcastDegraded "management_mcp_missing") ;;; fireReconcileMCPRecovery e) ;;;
                     ret true) w (fun w' u => b = true -> Q w' u)).
  { intros b Hb. apply ends_bind, ends_stamp; [done|]. fold (stamped w). apply ends_bind. rewrite Hgrace.
    apply ends_when; intros Hg.
    - apply ends_bind, ends_exec; [done|]. rewrite Hon by by rewrite stamped_status.
      apply ends_bind, ends_emit, ends_aside; [apply aside_recovery|]. apply ends_ret. intros Hbt. apply HQ.
      by rewrite (Hb Hbt), Hg.
    - apply ends_ret. intros Hbt. apply HQ. by rewrite Hg, andb_false_r, stamped_status. }
  destruct (LoadedMCPTools p) as [loaded|] eqn:El.
  - rewrite bool_decide_false in HQ by done. cbn [orb] in HQ. apply ends_bind.
    unfold platformAgentManagementMCPLoaded. apply ends_bind, ends_read_other; [done|]. apply ends_ret. cbn [fmap option_fmap option_map].
    assert (Hl : provision_loaded tool p = bool_decide (tool ∈ loaded)) by (unfold provision_loaded, tools_of; by rewrite El).
    rewrite Hl in *. destruct (bool_decide (conciergePlatformMCPName ∈ e_declared e) && negb (bool_decide (tool ∈ loaded))) eqn:Em.
    + eapply ends_mono; [|apply (Hmissing true)].
      * intros w' u Hw'. by apply Hw'.
      * intros _. apply orb_true_r.
    + cbn [andb] in HQ. apply ends_bind, ends_clear. intros w' Hw'. apply ends_ret, HQ. congruence.
  - apply ends_bind, ends_ret. eapply ends_mono; [|apply (Hmissing true)].
    + intros w' u Hw'. by apply Hw'.
    + intros _. by rewrite bool_decide_true.
Qed.
Lemma ends_evaluate_row w surface p :
  ends ov (evaluate_row e tool w surface p) w
    (fun w' _ => h_status w' = next_status e tool (HasCapability (WorkspaceID p) "status_mgmt" ov) w p).
Proof.
  unfold evaluate_row, next_status. cbn zeta. set (nat := HasCapability _ _ _).
  assert (Hgen : h_kind w <> "platform" -> ends ov (generic_status e w p (recent_register_failure e w) false ;;; drain_spare e p) w
            (fun w' _ => h_status w' = next_generic nat (h_status w) p (recent_register_failure e w) false)).
  { intros _. apply ends_bind, ends_generic; [done|]. intros w' Hw' _. by apply ends_drain. }
  destruct (decide (h_kind w = "platform")) as [Hk|Hk]; [rewrite decide_False by tauto|rewrite decide_True by done; by apply Hgen].
  apply ends_bind, ends_read_other; [done|]. destruct (e_model e); cbn [negb orb].
  2: { apply ends_bind, ends_emit, ends_exec_; done. }
  destruct (MCPServerPresent p) as [[]|] eqn:Epr; cbn [platformAgentMCPServerPresent negb];
    [rewrite (bool_decide_false (Some true = Some false)) by done| |rewrite (bool_decide_false (None = Some false)) by done].
  2: { rewrite bool_decide_true by done. apply ends_bind, ends_aside; [apply aside_recovery|].
       apply ends_bind, ends_emit, ends_exec_; done. }
  all: destruct (decide (h_status w = "online")) as [Hon|Hon];
    [rewrite (bool_decide_true (h_status w = "online")) by done; cbn [negb];
     apply ends_bind, ends_check; [done|]; intros w' u Hw'; apply ends_bind|
     rewrite (bool_decide_false (h_status w = "online")) by done; cbn [negb];
     apply ends_promote; intros w' ->; rewrite ?Epr; done].
  all: destruct (management_lost e tool w p) eqn:El.
  all: try (apply ends_generic; [by rewrite Hw', Hon|]; intros w2 Hw2 _; apply ends_drain; rewrite Hw2, Hon;
            unfold next_generic; rewrite !decide_True by done; done).
  all: apply ends_generic_online; [done|by rewrite Hw'|]; intros w2 Hw2; by apply ends_drain.
Qed.
End Evaluate.

(** an evaluation that nothing disturbs - no failed statement, no other writer -
    computes [next_status] of the row it read and of the beat. *)
Theorem evaluateStatus_is_next_status e tool surface p s w :
  quiet e -> x_row s = Some w ->
  h_status <$> x_row (fst (evaluateStatus e tool surface p s)) =
  Some (next_status e tool (HasCapability (WorkspaceID p) "status_mgmt" (x_overrides s)) w p).
Proof.
  intros Hq Hw.
  assert (H : ends (x_overrides s) (evaluateStatus e tool surface p) w (fun w' _ =>
            h_status w' = next_status e tool (HasCapability (WorkspaceID p) "status_mgmt" (x_overrides s)) w p)).
  { apply ends_bind, ends_read; [done|]. by apply ends_evaluate_row. }
  destruct (H s Hw eq_refl) as (w' & -> & _ & Hst). cbn. by rewrite Hst.
Qed.

(** ** A concierge that never gets ready *)

(** As [ends], for a handler that may also write the declarations. *)
Definition lands {A} (m : M A) (w : hrow) (Q : hrow -> A -> Prop) : Prop :=
  forall s, x_row s = Some w -> exists w', x_row (fst (m s)) = Some w' /\ Q w' (snd (m s)).

Lemma ends_lands {A} (m : M A) w Q : (forall ov, ends ov m w Q) -> lands m w Q.
Proof. intros Hm s Hs. destruct (Hm (x_overrides s) s Hs eq_refl) as (w' & ? & _ & ?). eauto. Qed.

Lemma lands_bind {A B} (m : M A) (f : A -> M B) w Q : lands m w (fun w1 a => lands (f a) w1 Q) -> lands (bind m f) w Q.
Proof. intros Hm s Hs. unfold bind. destruct (Hm s Hs) as (w1 & H1 & H3). destruct (m s) as [s' a]. by apply H3. Qed.

(** The handler leaves the part [f] of the row as it is. *)
Definition keeps {A T} (f : hrow -> T) (m : M A) : Prop := forall w, lands m w (fun w' _ => f w' = f w).

(** What the warm-up depends on. *)
Definition core (w : hrow) : string * string * option time := (h_status w, h_kind w, h_unloaded w).
Definition row_spend (w : hrow) : Z := monthly_spend (h_vitals w).

Section Keeps.
Context {T : Type} (part : hrow -> T).

Lemma keeps_bind {A B} (m : M A) (f : A -> M B) : keeps part m -> (forall a, keeps part (f a)) -> keeps part (bind m f).
Proof.
  intros Hm Hf w. apply lands_bind. intros s Hs. destruct (Hm w s Hs) as (w1 & H1 & H2). exists w1. split; [done|].
  intros s' Hs'. destruct (Hf (snd (m s)) w1 s' Hs') as (w2 & H3 & H4). exists w2. split; [done|]. congruence.
Qed.

Lemma keeps_then {A B} (m : M A) (f : A -> M B) w c Q :
  keeps part m -> part w = c -> (forall w1 a, part w1 = c -> lands (f a) w1 Q) -> lands (bind m f) w Q.
Proof.
  intros Hm Hw Hf. apply lands_bind. intros s Hs. destruct (Hm w s Hs) as (w1 & H1 & H2). exists w1. split; [done|].
  apply Hf. congruence.
Qed.

Lemma lands_keeps {A B} (m : M A) (f : A -> M B) w (R : T -> Prop) :
  lands m w (fun w1 _ => R (part w1)) -> (forall a, keeps part (f a)) -> lands (bind m f) w (fun w2 _ => R (part w2)).
Proof.
  intros Hm Hf. apply lands_bind. intros s Hs. destruct (Hm s Hs) as (w1 & H1 & H2). exists w1. split; [done|].
  intros s' Hs'. destruct (Hf (snd (m s)) w1 s' Hs') as (w2 & H3 & H4). exists w2. split; [done|]. by rewrite H4.
Qed.

Lemma keeps_ret {A} (a : A) : keeps part (ret a).
Proof. intros w. apply ends_lands. intros ov. by apply ends_ret. Qed.
Lemma keeps_row {A} (m : M A) : (forall s, x_row (fst (m s)) = x_row s) -> keeps part m.
Proof. intros Hm w s Hs. exists w. by rewrite Hm. Qed.
Lemma keeps_when b m : keeps part m -> keeps part (when b m).
Proof. intros Hm. destruct b; [exact Hm|apply keeps_ret]. Qed.

Context (e : benv) (Hq : quiet e).
Lemma keeps_read : keeps part (read e).
Proof. intros w. apply ends_lands. intros ov. by apply ends_read. Qed.
Lemma keeps_read_other {A} (v : A) : keeps part (read_other e v).
Proof. intros w. apply ends_lands. intros ov. by apply ends_read_other. Qed.
Lemma keeps_exec guard upd : (forall w, part (upd w) = part w) -> keeps part (exec e guard upd).
Proof. intros Hu w. apply ends_lands. intros ov. apply ends_exec; [done|]. destruct (guard w); auto. Qed.
Lemma keeps_exec_ guard upd : (forall w, part (upd w) = part w) -> keeps part (exec_ e guard upd).
Proof. intros Hu w. apply ends_lands. intros ov. apply ends_exec_; [done|]. destruct (guard w); auto. Qed.
Lemma keeps_record ws d : keeps part (record_spend e ws d).
Proof. intros w. apply ends_lands. intros ov. by apply ends_record_spend. Qed.
End Keeps.


Ltac keeping :=
  repeat lazymatch goal with
  | |- keeps _ (ret _) => apply keeps_ret
  | |- keeps _ (read _) => by apply keeps_read
  | |- keeps _ (read_other _ _) => by apply keeps_read_other
  | |- keeps _ (exec _ _ _) => by apply keeps_exec
  | |- keeps _ (exec_ _ _ _) => by apply keeps_exec_
  | |- keeps _ (record_spend _ _ _) => by apply keeps_record
  | |- keeps _ (when _ _) => apply keeps_when
  | |- keeps _ (bind _ _) => apply keeps_bind; [|intros ?]
  | |- keeps _ (match ?x with _ => _ end) => destruct x
  | |- keeps _ _ => apply keeps_row; reflexivity
  end.

(** The parts of a beat that only touch columns of their own. *)
Definition both (w : hrow) : (string * string * option time) * Z := (core w, row_spend w).

Lemma keeps_fst {A T U} (f : hrow -> T * U) (m : M A) : keeps f m -> keeps (fun w => (f w).1) m.
Proof. intros Hm w s Hs. destruct (Hm w s Hs) as (w' & ? & E). exists w'. by rewrite E. Qed.

Section Quiet.
Context (e : benv) (tool : string) (Hq : quiet e).

Lemma keeps_tools p : keeps both (report_tools e p).
Proof. unfold report_tools, recordMCPSurfaceCorroboration. keeping. Qed.
Lemma keeps_generation p n : keeps both (report_generation e p n).
Proof. unfold report_generation, fireWakeSettled. keeping. Qed.
Lemma keeps_card p : keeps both (report_card e p).
Proof. unfold report_card. keeping. Qed.
Lemma keeps_online : keeps both (fireReconcileOnline e).
Proof. unfold fireReconcileOnline. keeping. Qed.
Lemma keeps_secret : keeps both (readOrLazyHealInboundSecret e).
Proof.
  unfold readOrLazyHealInboundSecret, ReadPlatformInboundSecret, IssuePlatformInboundSecret, read_inbound_column. keeping.
Qed.

(** The beats of a concierge whose management MCP is up and never reports ready. *)
Definition silent (p : beat) : Prop :=
  MCPServerPresent p = Some true /\ tools_ready p = false /\ provision_loaded tool p = false.

(** What one silent beat makes of it. *)
Definition after_silent (c : string * string * option time) : string * string * option time :=
  if decide (c.1.1 = "provisioning") then
    (if conciergeWarmupFailGrace <=? e_now e - default (e_now e) c.2 then "degraded" else "provisioning", "platform",
     Some (default (e_now e) c.2))
  else c.

Lemma silent_evaluate surface p w :
  e_model e = true -> silent p -> h_kind w = "platform" -> (h_status w = "provisioning" \/ h_status w = "degraded") ->
  lands (evaluateStatus e tool surface p) w (fun w' _ => core w' = after_silent (core w)).
Proof.
  intros Hm (Hpr & Hr & Hl) Hk Hst. apply ends_lands. intros ov.
  apply ends_bind, ends_read; [done|]. unfold evaluate_row. cbn zeta. rewrite decide_True by done.
  apply ends_bind, ends_read_other; [done|]. rewrite Hm, Hpr. cbn [negb platformAgentMCPServerPresent].
  rewrite (bool_decide_false (h_status w = "online")) by (destruct Hst as [-> | ->]; done). cbn [negb].
  unfold promote_concierge. cbn zeta. rewrite Hpr, Hr, Hl, (bool_decide_false (Some true = None)) by done. cbn [andb orb].
  unfold after_silent, core. cbn [fst snd]. destruct Hst as [Hst|Hst]; rewrite Hst.
  - cbn [negb]. rewrite !decide_True by done. apply ends_hold; [done|done|]. unfold unloaded_for, stamped.
    destruct (conciergeWarmupFailGrace <=? _); destruct (h_unloaded w) eqn:Eu; cbn;
      unfold h_kind in *; cbn; by rewrite ?Hk, ?Hst, ?Eu.
  - cbn [negb]. rewrite !decide_False by done. apply ends_ret. by rewrite Hst.
Qed.

Lemma silent_beat p w :
  e_model e = true -> silent p -> h_kind w = "platform" -> (h_status w = "provisioning" \/ h_status w = "degraded") ->
  lands (Heartbeat e tool p) w (fun w' _ => core w' = after_silent (core w)).
Proof.
  intros Hm Hs Hk Hst.
  assert (Hfst : forall B (m : M B), keeps both m -> keeps core m) by (intros B m Hk'; exact (keeps_fst both m Hk')).
  unfold Heartbeat. eapply keeps_then; [by apply keeps_read|reflexivity|]. intros w1 prev Hw1.
  destruct (match prev with Some (Some w) => _ | _ => _ end) as [[[t sp] st] g].
  eapply keeps_then; [instantiate (1 := core); destruct (spend_delta _ _); keeping|exact Hw1|].
  intros w2 [] Hw2. apply lands_bind, ends_lands. intros ov. apply ends_exec; [done|].
  assert (Hbeat : core (beat_row e p w2) = core w2).
  { unfold core in *. unfold beat_row. cbn. rewrite decide_False; [done|]. intros [_ Hn]. apply Hn. congruence. }
  set (w3 := if not_removed w2 then beat_row e p w2 else w2).
  assert (Hw3 : core w3 = core w) by (unfold w3; destruct (not_removed w2); congruence).
  unfold after_update. eapply keeps_then; [apply Hfst, keeps_tools|exact Hw3|]. intros w4 surface Hw4.
  eapply keeps_then; [apply Hfst, keeps_generation|exact Hw4|]. intros w5 _ Hw5.
  eapply keeps_then; [apply keeps_when, Hfst, keeps_online|exact Hw5|]. intros w6 _ Hw6.
  eapply keeps_then; [apply Hfst, keeps_card|exact Hw6|]. intros w7 _ Hw7.
  eapply keeps_then; [by apply keeps_row|exact Hw7|]. intros w8 _ Hw8.
  apply (lands_keeps core _ _ _ (fun c => c = after_silent (core w))).
  - unfold core in Hw8 at 1 2. injection Hw8 as H1 H2 H3.
    rewrite <- (f_equal after_silent (f_equal2 pair (f_equal2 pair H1 H2) H3 : core w8 = core w)).
    apply silent_evaluate; [done|done|congruence|by rewrite H1].
  - intros _. keeping. apply Hfst, keeps_secret.
Qed.
End Quiet.

Definition run_beats (tool : string) (bs : list (benv * beat)) (s : hst) : hst :=
  fold_left (fun s b => fst (Heartbeat b.1 tool b.2 s)) bs s.

Lemma silent_run tool t0 bs s w :
  Forall (fun b => quiet b.1 /\ e_model b.1 = true /\ silent tool b.2) bs -> x_row s = Some w ->
  (core w = ("provisioning", "platform", Some t0) \/ core w = ("degraded", "platform", Some t0)) ->
  h_status <$> x_row (run_beats tool bs s) =
  Some (if bool_decide (h_status w = "degraded") || existsb (fun b => t0 + conciergeWarmupFailGrace <=? e_now b.1) bs
        then "degraded" else "provisioning").
Proof.
  intros Hbs. revert s w. induction Hbs as [|b bs (Hq & Hm & Hs) _ IH]; intros s w Hw Hc; cbn.
  - rewrite Hw. cbn. rewrite orb_false_r. destruct Hc as [Hc|Hc]; injection Hc as H1 _ _; rewrite H1; reflexivity.
  - assert (Hk : h_kind w = "platform" /\ (h_status w = "provisioning" \/ h_status w = "degraded"))
      by (destruct Hc as [Hc|Hc]; injection Hc as H1 H2 _; auto).
    destruct Hk as [Hk Hst]. destruct (silent_beat b.1 tool Hq b.2 w Hm Hs Hk Hst s Hw) as (w' & Hw' & Hc').
    unfold run_beats in IH. rewrite (IH _ _ Hw').
    + destruct Hc as [Hc|Hc]; rewrite Hc in Hc'; injection Hc as H1 _ _; rewrite H1; unfold after_silent in Hc'; cbn in Hc'.
      * injection Hc' as H1' _ _. rewrite H1'. literals. cbn [orb].
        replace (t0 + conciergeWarmupFailGrace <=? e_now b.1) with (conciergeWarmupFailGrace <=? e_now b.1 - t0)
          by (destruct (Z.leb_spec (t0 + conciergeWarmupFailGrace) (e_now b.1)); destruct (Z.leb_spec conciergeWarmupFailGrace (e_now b.1 - t0)); try done; lia).
        by destruct (conciergeWarmupFailGrace <=? e_now b.1 - t0).
      * injection Hc' as H1' _ _. by rewrite H1'.
    + destruct Hc as [Hc|Hc]; rewrite Hc in Hc'; rewrite Hc'; unfold after_silent; cbn; [|by right].
      destruct (conciergeWarmupFailGrace <=? _); [by right|by left].
Qed.

(** a concierge that keeps beating and never gets ready is not held for ever,
    nor given up early: provisioning through any run of such beats, it is degraded
    from the first beat that comes 300 seconds after the first of them. *)
Theorem stuck_concierge_degrades tool b0 bs s w :
  Forall (fun b => quiet b.1 /\ e_model b.1 = true /\ silent tool b.2) (b0 :: bs) ->
  x_row s = Some w -> h_kind w = "platform" -> h_status w = "provisioning" -> h_unloaded w = None ->
  h_status <$> x_row (run_beats tool (b0 :: bs) s) =
  Some (if existsb (fun b => e_now b0.1 + conciergeWarmupFailGrace <=? e_now b.1) bs then "degraded" else "provisioning").
Proof.
  intros Hbs Hw Hk Hst Hu. inversion Hbs as [|? ? (Hq & Hm & Hs) Hbs']; subst.
  destruct (silent_beat b0.1 tool Hq b0.2 w Hm Hs Hk (or_introl Hst) s Hw) as (w' & Hw' & Hc').
  unfold core at 2 in Hc'. rewrite Hst, Hk, Hu in Hc'. unfold after_silent in Hc'. cbn in Hc'. rewrite Z.sub_diag in Hc'.
  assert (Hg : (conciergeWarmupFailGrace <=? 0) = false) by reflexivity. rewrite Hg in Hc'.
  change (run_beats tool (b0 :: bs) s) with (run_beats tool bs (fst (Heartbeat b0.1 tool b0.2 s))).
  rewrite (silent_run tool (e_now b0.1) bs _ w' Hbs' Hw' (or_introl Hc')). injection Hc' as H1 _ _. by rewrite H1.
Qed.

(** ** Spend *)

(** The handler leaves the ledger as it is. *)
Definition steady {A} (m : M A) : Prop := forall s, x_events (fst (m s)) = x_events s.

Lemma steady_bind {A B} (m : M A) (f : A -> M B) : steady m -> (forall a, steady (f a)) -> steady (bind m f).
Proof. intros Hm Hf s. unfold bind. specialize (Hm s). destruct (m s) as [s' a]. by rewrite Hf. Qed.
Lemma bind_steady {A B} (m : M A) (f : A -> M B) s :
  (forall a, steady (f a)) -> x_events (fst (bind m f s)) = x_events (fst (m s)).
Proof. intros Hf. unfold bind. destruct (m s) as [s' a]. by rewrite Hf. Qed.
Lemma bind_read_quiet {B} e (f : option (option hrow) -> M B) s w :
  quiet e -> x_row s = Some w ->
  bind (read e) f s = f (Some (Some w)) (HSt (Some w) (x_events s) (x_out s ++ []) (S (x_k s)) (x_recovered s) (x_overrides s) (x_cached s)).
Proof. intros Hq Hw. unfold bind, read, statement. by rewrite (proj1 Hq), (proj2 Hq), Hw. Qed.
Lemma steady_when b m : steady m -> steady (when b m).
Proof. by destruct b. Qed.
Lemma steady_statement {A} e (f : option hrow -> option hrow * A * list hout) : steady (statement e f).
Proof. intros s. unfold statement. destruct (e_fails e (x_k s)); [done|]. by destruct (f _) as [[? ?] ?]. Qed.
Lemma steady_exec_ e g u : steady (exec_ e g u).
Proof. apply steady_bind; [apply steady_statement|done]. Qed.

Ltac steadying :=
  repeat lazymatch goal with
  | |- steady (read _) => apply steady_statement
  | |- steady (read_other _ _) => apply steady_statement
  | |- steady (exec _ _ _) => apply steady_statement
  | |- steady (exec_ _ _ _) => apply steady_exec_
  | |- steady (when _ _) => apply steady_when
  | |- steady (bind _ _) => apply steady_bind; [|intros ?]
  | |- steady (match ?x with _ => _ end) => destruct x
  | |- steady _ => done
  end.

Lemma steady_evaluate e tool surface p : steady (evaluateStatus e tool surface p).
Proof.
  unfold evaluateStatus, evaluate_row, platformAgentHasModelSecret, markWorkspaceFailed, promote_concierge, hold_warming,
    check_concierge, generic_status, drain_spare, promoted, degrade_loudly, degraded, recovered, degrade, move,
    stamp_unloaded, clear_unloaded, platformAgentManagementMCPLoaded, fireReconcileMCPRecovery, fireReconcileOnline,
    fireFirstBootGreeting. cbn zeta. steadying.
Qed.

Lemma steady_after e tool p t st g : steady (after_update e tool p t st g).
Proof.
  unfold after_update, report_tools, recordMCPSurfaceCorroboration, report_generation, fireWakeSettled, fireReconcileOnline,
    report_card, readOrLazyHealInboundSecret, ReadPlatformInboundSecret, IssuePlatformInboundSecret, read_inbound_column.
  steadying. apply steady_evaluate.
Qed.

Section QuietSpend.
Context (e : benv) (tool : string) (Hq : quiet e).

Lemma keeps_evaluate surface p : keeps row_spend (evaluateStatus e tool surface p).
Proof.
  unfold evaluateStatus, evaluate_row, platformAgentHasModelSecret, markWorkspaceFailed, promote_concierge, hold_warming,
    check_concierge, generic_status, drain_spare, promoted, degrade_loudly, degraded, recovered, degrade, move,
    stamp_unloaded, clear_unloaded, platformAgentManagementMCPLoaded, fireReconcileMCPRecovery, fireReconcileOnline,
    fireFirstBootGreeting. cbn zeta. keeping.
Qed.

Lemma next_status_removed native w p : h_status w <> "removed" -> next_status e tool native w p <> "removed".
Proof.
  intros Hne. unfold next_status, next_generic. cbn zeta. repeat case_match; try done.
Qed.

(** One beat of a workspace that is not removed. *)
Lemma beat_spend p w s :
  x_row s = Some w -> h_status w <> "removed" ->
  let spend := clamp_spend (MonthlySpend p) in
  exists w', x_row (fst (Heartbeat e tool p s)) = Some w' /\ h_status w' <> "removed" /\
    row_spend w' = (if 0 <? spend then spend else row_spend w) /\
    x_events (fst (Heartbeat e tool p s)) =
      match spend_delta (row_spend w) spend with
      | Some d => default (x_events s) (recordSpendDelta false false (e_now e) (WorkspaceID p) d (x_events s))
      | None => x_events s
      end.
Proof.
  intros Hw Hne spend. set (Q := fun (w' : hrow) (_ : beat_reply) => h_status w' <> "removed" /\ row_spend w' = (if 0 <? spend then spend else row_spend w)).
  assert (Haft : forall t st g w3, h_status w3 <> "removed" -> row_spend w3 = (if 0 <? spend then spend else row_spend w) ->
            lands (after_update e tool p t st g) w3 Q).
  { intros t st g w3 Hst3 Hsp3. unfold after_update.
    assert (Hb : forall w', both w' = both w3 -> h_status w' <> "removed" /\ row_spend w' = row_spend w3)
      by (intros w' Hb; unfold both, core in Hb; injection Hb as H1 _ _ H2; split; [by rewrite H1|done]).
    eapply keeps_then; [by apply keeps_tools|reflexivity|]. intros w4 surface Hw4.
    eapply keeps_then; [by apply keeps_generation|exact Hw4|]. intros w5 _ Hw5.
    eapply keeps_then; [by apply keeps_when, keeps_online|exact Hw5|]. intros w6 _ Hw6.
    eapply keeps_then; [by apply keeps_card|exact Hw6|]. intros w7 _ Hw7.
    eapply keeps_then; [apply keeps_row; reflexivity|exact Hw7|]. intros w8 _ Hw8. destruct (Hb _ Hw8) as [Hst8 Hsp8].
    apply lands_bind. intros s8 Hs8.
    destruct (keeps_evaluate surface p w8 s8 Hs8) as (w9 & Hw9 & Hsp9).
    assert (Hev : ends (x_overrides s8) (evaluateStatus e tool surface p) w8 (fun w' _ => h_status w' <> "removed")).
    { apply ends_bind, ends_read; [done|]. eapply ends_mono; [|by apply ends_evaluate_row].
      intros w' a Hw'. cbn in Hw'. rewrite Hw'. by apply next_status_removed. }
    destruct (Hev s8 Hs8 eq_refl) as (w9' & Hw9' & _ & Hst9). rewrite Hw9 in Hw9'. injection Hw9' as <-.
    exists w9. split; [done|]. intros s9 Hs9.
    assert (Hrest : forall B (k : M B), keeps both k -> lands k w9 (fun w' _ => h_status w' <> "removed" /\ row_spend w' = (if 0 <? spend then spend else row_spend w))).
    { intros B k Hk s' Hs'. destruct (Hk w9 s' Hs') as (w10 & H1 & H2). exists w10. split; [done|].
      unfold both, core in H2. injection H2 as H3 _ _ H4. rewrite H3, H4. split; [done|]. congruence. }
    apply (Hrest beat_reply); [|exact Hs9]. keeping. by apply keeps_secret. }
  assert (Hl : lands (Heartbeat e tool p) w Q).
  { unfold Heartbeat. apply lands_bind, ends_lands. intros ov. apply ends_read; [done|]. cbn beta iota.
    eapply (keeps_then (fun w => w)); [destruct (spend_delta _ _); keeping|reflexivity|]. intros w2 [] ->.
    apply lands_bind, ends_lands. intros ov2. apply ends_exec; [done|].
    unfold not_removed, has_status. rewrite bool_decide_false by done. cbn [negb]. apply Haft; [|reflexivity].
    unfold beat_row. cbn. by destruct (decide _). }
  destruct (Hl s Hw) as (w' & Hw' & Hst' & Hsp'). exists w'. split_and!; [done|done|done|].
  unfold Heartbeat. rewrite bind_read_quiet with (w := w) by done. cbn beta iota zeta. fold (row_spend w). fold spend.
  rewrite bind_steady.
  - set (s1 := HSt _ _ _ _ _ _ _). change (x_events s) with (x_events s1).
    destruct (spend_delta (row_spend w) spend); [|done]. unfold record_spend. cbn. by rewrite !(proj1 Hq).
  - intros []. apply steady_bind; [apply steady_statement|]. intros [n|]; [apply steady_after|done].
Qed.
End QuietSpend.

(** What a run of beats tells the ledger, from the spend [c] on record. *)
Fixpoint increments (ws : string) (c : Z) (bs : list (benv * beat)) : list spend_event :=
  match bs with
  | [] => []
  | b :: bs' =>
      let v := clamp_spend (MonthlySpend b.2) in
      match spend_delta c v with Some d => [SpendEvent ws d (e_now b.1)] | None => [] end ++
      increments ws (if 0 <? v then v else c) bs'
  end.

Lemma spend_delta_pos c v d : spend_delta c v = Some d -> 0 < d.
Proof. unfold spend_delta. destruct (v <=? 0); [done|]. cbn zeta. destruct (0 <? _) eqn:E0; [|done]. intros [= <-]. by b2p. Qed.

Lemma run_spend tool ws bs s w now q :
  Forall (fun b => quiet b.1 /\ WorkspaceID b.2 = ws /\ e_now b.1 <= now) bs ->
  x_row s = Some w -> h_status w <> "removed" ->
  window_sum now ws q (x_events (run_beats tool bs s)) =
  window_sum now ws q (x_events s) + window_sum now ws q (increments ws (row_spend w) bs).
Proof.
  intros Hbs. revert s w. induction Hbs as [|b bs (Hq & Hws & Hn) _ IH]; intros s w Hw Hne.
  - cbn [run_beats fold_left increments]. rewrite window_sum_nil. unfold run_beats. cbn. lia.
  - destruct (beat_spend b.1 tool Hq b.2 w s Hw Hne) as (w' & Hw' & Hne' & Hsp & Hev).
    change (run_beats tool (b :: bs) s) with (run_beats tool bs (fst (Heartbeat b.1 tool b.2 s))).
    rewrite (IH _ w' Hw' Hne'), Hev, Hsp. cbn [increments]. cbn zeta. rewrite window_sum_app.
    set (v := clamp_spend (MonthlySpend b.2)). destruct (spend_delta (row_spend w) v) as [d|] eqn:Ed.
    + pose proof (recordSpendDelta_window (Recording (e_now b.1) ws d false false) now ws q (x_events s) Hn) as Hr.
      cbn in Hr. rewrite Hws, Hr. unfold recorded. cbn.
      rewrite (proj2 (Z.leb_gt d 0)) by (by eapply spend_delta_pos). cbn. lia.
    + cbn [app]. rewrite window_sum_nil. lia.
Qed.

(** The reports do not go down: each is the last one that was positive, or more. *)
Fixpoint climbing (c : Z) (bs : list (benv * beat)) : Prop :=
  match bs with
  | [] => True
  | b :: bs' => let v := clamp_spend (MonthlySpend b.2) in c <= v /\ climbing v bs'
  end.
Definition last_report (c : Z) (bs : list (benv * beat)) : Z :=
  fold_left (fun _ b => clamp_spend (MonthlySpend b.2)) bs c.

Lemma increments_climbing ws now q bs c :
  0 <= c -> climbing c bs -> Forall (fun b => now - window q < e_now b.1) bs ->
  window_sum now ws q (increments ws c bs) = last_report c bs - c.
Proof.
  intros Hc Hcl Hbs. revert c Hc Hcl. induction Hbs as [|b bs Hw _ IH]; intros c Hc Hcl.
  - cbn [increments last_report fold_left]. rewrite window_sum_nil. cbn. lia.
  - cbn [climbing increments last_report fold_left] in *. cbn zeta in *. destruct Hcl as [Hle Hcl].
    set (v := clamp_spend (MonthlySpend b.2)) in *. rewrite window_sum_app.
    assert (Hv : (if 0 <? v then v else c) = v) by (destruct (0 <? v) eqn:E0; b2p; [done|lia]).
    rewrite Hv, IH by (try done; lia). fold (last_report v bs).
    assert (Hd : window_sum now ws q match spend_delta c v with Some d => [SpendEvent ws d (e_now b.1)] | None => [] end = v - c).
    { unfold spend_delta. destruct (v <=? 0) eqn:E0; b2p.
      - rewrite window_sum_nil. lia.
      - cbn zeta. rewrite (proj2 (Z.ltb_ge (v - c) 0)) by lia. destruct (0 <? v - c) eqn:E1; b2p.
        + rewrite window_sum_direct. cbn. unfold in_window. cbn. rewrite bool_decide_true by done.
          rewrite (proj2 (Z.ltb_lt _ _)) by done. unfold total. cbn. lia.
        + rewrite window_sum_nil. lia. }
    rewrite Hd. lia.
Qed.

(** what a workspace reports as spent is counted once: over any undisturbed run
    of beats whose cumulative figure does not go down, the spend of every period
    that covers the run grows by exactly the rise of the figure, however it is cut
    into beats. *)
Theorem spend_is_counted_once tool ws bs s w now q :
  Forall (fun b => quiet b.1 /\ WorkspaceID b.2 = ws /\ now - window q < e_now b.1 <= now) bs ->
  x_row s = Some w -> h_status w <> "removed" -> 0 <= row_spend w -> climbing (row_spend w) bs ->
  window_sum now ws q (x_events (run_beats tool bs s)) =
  window_sum now ws q (x_events s) + (last_report (row_spend w) bs - row_spend w).
Proof.
  intros Hbs Hw Hne Hc Hcl.
  rewrite (run_spend tool ws bs s w now q) by first [done | eapply Forall_impl; [exact Hbs|]; cbn; tauto].
  rewrite increments_climbing; [done|done|done|]. eapply Forall_impl; [exact Hbs|]. cbn. tauto.
Qed.

(** ** On concrete inputs *)

Definition demo_tool : string := "mcp__p__pw".
Definition calm (now : time) : benv := BEnv now (fun _ => false) (fun _ r => r) true [] [] true true true true true None.
Definition failing (k : nat) (b : benv) : benv :=
  BEnv (e_now b) (fun n => bool_decide (n = k)) (e_others b) (e_model b) (e_declared b) (e_traces b) (e_reconcile b)
    (e_restore b) (e_greeter b) (e_drain b) (e_settler b) (e_minted b).
Definition without_model (b : benv) : benv :=
  BEnv (e_now b) (e_fails b) (e_others b) false (e_declared b) (e_traces b) (e_reconcile b)
    (e_restore b) (e_greeter b) (e_drain b) (e_settler b) (e_minted b).

Definition demo_row (status kind : string) (unloaded : option time) (spent : Z) : hrow :=
  HRow status (Identity (Some "n") None None None (Some "push") None kind) (Vitals 0 0 0 None spent false) "" None unloaded None 0 1
    None None 0 0 (Some "s").
Definition demo_beat (present ready : option bool) (tools : option (list string)) (spend : Z) : beat :=
  Beat "ab" 0 "" 0 None 0 "" spend None "" None None present tools ready.
Definition ready_beat : beat := demo_beat (Some true) (Some true) None 0.
Definition silent_beat_demo : beat := demo_beat (Some true) None None 0.

Lemma calm_quiet now : quiet (calm now).
Proof. by split. Qed.

Lemma evaluated_moves_witness :
  exists out, x_out (fst (evaluateStatus (calm 9) demo_tool None ready_beat (begin_on (Some (demo_row "failed" "platform" None 0))))) = [] ++ out /\
    Forall (move_of (calm 9) demo_tool (demo_row "failed" "platform" None 0) ready_beat) out.
Proof.
  exact (evaluated_moves (calm 9) demo_tool None ready_beat (begin_on (Some (demo_row "failed" "platform" None 0))) _ eq_refl).
Defined.

Lemma evaluateStatus_is_next_status_witness :
  h_status <$> x_row (fst (evaluateStatus (calm 9) demo_tool None ready_beat (begin_on (Some (demo_row "failed" "platform" None 0))))) =
  Some "online".
Proof.
  etransitivity; [exact (evaluateStatus_is_next_status (calm 9) demo_tool None ready_beat
                           (begin_on (Some (demo_row "failed" "platform" None 0))) _ (calm_quiet 9) eq_refl)|].
  vm_compute. reflexivity.
Defined.

Lemma stuck_concierge_degrades_witness :
  h_status <$> x_row (run_beats demo_tool [(calm 0, silent_beat_demo); (calm (299 * Second), silent_beat_demo)]
                        (begin_on (Some (demo_row "provisioning" "platform" None 0)))) = Some "provisioning" /\
  h_status <$> x_row (run_beats demo_tool [(calm 0, silent_beat_demo); (calm (300 * Second), silent_beat_demo)]
                        (begin_on (Some (demo_row "provisioning" "platform" None 0)))) = Some "degraded".
Proof.
  split;
    (etransitivity; [apply (stuck_concierge_degrades demo_tool (calm 0, silent_beat_demo) [(calm _, silent_beat_demo)] _
                              (demo_row "provisioning" "platform" None 0));
                     [repeat constructor; by vm_compute|reflexivity|reflexivity|reflexivity|reflexivity]|vm_compute; reflexivity]).
Defined.

Lemma spend_is_counted_once_witness :
  let bs := [(calm Hour, demo_beat None None None 7); (calm (2 * Hour), demo_beat None None None 10)] in
  window_sum (2 * Hour) "ab" PeriodDaily (x_events (run_beats demo_tool bs (begin_on (Some (demo_row "online" "workspace" None 3))))) = 7.
Proof.
  intros bs. etransitivity; [apply (spend_is_counted_once demo_tool "ab" bs (begin_on (Some (demo_row "online" "workspace" None 3)))
                                      (demo_row "online" "workspace" None 3) (2 * Hour) PeriodDaily)|vm_compute; reflexivity].
  - unfold bs, Hour, Minute, Second. repeat constructor; cbn; unfold Hour, Minute, Second; lia.
  - reflexivity.
  - discriminate.
  - vm_compute. discriminate.
  - unfold bs. vm_compute. repeat split; discriminate.
Defined.

(** ** Faults of the code *)

(** A removed concierge comes back with two beats: one without a model makes it
    failed, since that UPDATE has no condition on the status, and the next one
    online.  No credential is asked of either, the delete having revoked all. *)
Example removed_concierge_comes_back :
  let db := TokenDb ∅ {[ "ab" := "removed" ]} in
  let ask e := @HeartbeatRequest plain_cast (fun s => s) e demo_tool true (AuthEnv false false false false (fun d => d)) ""
                 (Some ready_beat) db in
  let '(_, s1, _) := ask (without_model (calm 1)) (begin_on (Some (demo_row "removed" "platform" None 0))) in
  let '(_, s2, r) := ask (calm 2) s1 in
  (h_status <$> x_row s1, h_status <$> x_row s2, r) = (Some "failed", Some "online", BeatOk 0 (Some "s")).
Proof. vm_compute. reflexivity. Qed.

(** Spend is recorded a second time when the first SELECT of a beat fails, and when
    its UPDATE does after the ledger has the increment. *)
Example lost_read_counts_twice :
  let s := run_beats demo_tool [(calm 1, demo_beat None None None 7)] (begin_on (Some (demo_row "online" "workspace" None 0))) in
  total (x_events (run_beats demo_tool [(failing (x_k s) (calm 2), demo_beat None None None 7)] s)) = 14.
Proof. vm_compute. reflexivity. Qed.
Example lost_update_counts_twice :
  total (x_events (run_beats demo_tool [(failing 3 (calm 1), demo_beat None None None 7); (calm 2, demo_beat None None None 7)]
                     (begin_on (Some (demo_row "online" "workspace" None 0))))) = 14.
Proof. vm_compute. reflexivity. Qed.

(** The recovery of an offline workspace is announced although its UPDATE failed. *)
Example unfounded_announcement :
  let s := fst (evaluateStatus (failing 1 (calm 1)) demo_tool None (demo_beat None None None 0)
                  (begin_on (Some (demo_row "offline" "workspace" None 0)))) in
  (h_status <$> x_row s, x_out s) = (Some "offline", [BroadcastOnline None; Reconcile; RestoreSchedules; WorkspaceRow.Drain 1]).
Proof. vm_compute. reflexivity. Qed.

(** The promotion of a legacy runtime leaves the stamp of an earlier loss: the next
    loss, long after, is degraded at once instead of after its grace. *)
Example stale_stamp_skips_the_grace :
  let legacy := demo_beat None None None 0 in
  let lost := demo_beat (Some true) (Some false) None 0 in
  let s := run_beats demo_tool [(calm (1000 * Second), legacy)] (begin_on (Some (demo_row "degraded" "platform" (Some 0) 0))) in
  (h_status <$> x_row s, h_status <$> x_row (run_beats demo_tool [(calm (1001 * Second), lost)] s)) =
  (Some "online", Some "degraded").
Proof. vm_compute. reflexivity. Qed.

(** A heartbeat for a workspace that does not exist is answered with a secret that
    was never stored. *)
Example secret_of_nobody :
  let e := BEnv 1 (fun _ => false) (fun _ r => r) true [] [] true true true true true (Some "fresh") in
  let '(s, r) := Heartbeat e demo_tool ready_beat (begin_on None) in
  (r, x_row s, x_cached s) = (BeatOk 0 (Some "fresh"), None, Some ("fresh", 1 + 5 * Minute)).
Proof. vm_compute. reflexivity. Qed.
