(* ===== verification/AgentCard.v ===== *)
(** * The card a workspace advertises

    internal/handlers/agent_card_reconcile.go and isProvisionerHostPortURL of
    registry.go.  A card decoded into a [map[string]any] is a finite map;
    marshalling it sorts its members, keeps the last of equal names and takes
    numbers through a float64, whose arithmetic is a parameter. *)

From S2P Require Import Prelude Json RateLimit.

(** ** Decoding into [any] and marshalling *)

Fixpoint insert_member (kv : string * json) (l : list (string * json)) : list (string * json) :=
  match l with
  | [] => [kv]
  | kv' :: l' => if String.leb kv.1 kv'.1 then kv :: l else kv' :: insert_member kv l'
  end.
Definition sort_members (l : list (string * json)) : list (string * json) := foldr insert_member [] l.

Abbreviation members := (gmap string json).

(** The last of equal names counts. *)
Definition to_members (l : list (string * json)) : members := list_to_map (rev l).
Definition of_members (m : members) : list (string * json) := sort_members (map_to_list m).

Section Card.
(** The numbers a float64 can hold, and what they are after [json.Unmarshal] and
    [json.Marshal]. *)
Context (in_range : Z -> positive -> bool).
Context (float64 : Z -> positive -> Z * positive).

Fixpoint as_any (j : json) : json :=
  match j with
  | JNum n d => let '(n', d') := float64 n d in JNum n' d'
  | JArr l => JArr (map as_any l)
  | JObj l => JObj (of_members (to_members (map (fun kv => match kv with (k, v) => (k, as_any v) end) l)))
  | _ => j
  end.

(** Whether every number of the document fits. *)
Fixpoint decodable (j : json) : bool :=
  match j with
  | JNum n d => in_range n d
  | JArr l => forallb decodable l
  | JObj l => forallb (fun kv => match kv with (_, v) => decodable v end) l
  | _ => true
  end.

(** [json.Unmarshal] into a [map[string]any]: [None] for an error and for null. *)
Definition unmarshal_map (card : json) : option members :=
  match card with JObj l => if decodable card then Some (as_any <$> to_members l) else None | _ => None end.

(** [json.Marshal]. *)
Definition marshal_map (m : members) : json := JObj (of_members m).

(** [s, _ := m[k].(string)]. *)
Definition string_at (m : members) (k : string) : string :=
  match m !! k with Some (JStr s) => s | _ => "" end.

Definition agentCardURL (card : json) : string :=
  match unmarshal_map card with None => "" | Some m => TrimSpace (string_at m "url") end.

Definition fill_name (workspaceID dbName : string) (m : members) : members * bool :=
  let cardName := string_at m "name" in
  if decide ((cardName = "" \/ cardName = workspaceID) /\ dbName <> "" /\ dbName <> workspaceID)
  then (<["name" := JStr dbName]> m, true) else (m, false).

Definition fill_description (workspaceID : string) (m : members) : members * bool :=
  let n := string_at m "name" in
  if decide (string_at m "description" = "" /\ n <> "" /\ n <> workspaceID)
  then (<["description" := JStr n]> m, true) else (m, false).

Definition fill_role (dbRole : string) (m : members) : members * bool :=
  if decide (dbRole <> "" /\ string_at m "role" = "") then (<["role" := JStr dbRole]> m, true) else (m, false).

Definition reconcileAgentCardIdentity (card : json) (workspaceID dbName dbRole : string) : json * bool :=
  match unmarshal_map card with
  | None => (card, false)
  | Some m =>
      let '(m, c1) := fill_name workspaceID dbName m in
      let '(m, c2) := fill_description workspaceID m in
      let '(m, c3) := fill_role dbRole m in
      if c1 || c2 || c3 then (marshal_map m, true) else (card, false)
  end.

(** ** Marshalling loses nothing *)

Lemma insert_member_perm kv l : insert_member kv l ≡ₚ kv :: l.
Proof. induction l as [|kv' l IH]; cbn; [done|]. case_match; [done|]. rewrite IH. constructor. Qed.
Lemma sort_members_perm l : sort_members l ≡ₚ l.
Proof. induction l as [|kv l IH]; cbn; [done|]. by rewrite insert_member_perm, IH. Qed.

Lemma to_of_members m : to_members (of_members m) = m.
Proof.
  unfold to_members, of_members.
  assert (Hp : rev (sort_members (map_to_list m)) ≡ₚ map_to_list m).
  { rewrite <- Permutation_rev. apply sort_members_perm. }
  rewrite <- (list_to_map_to_list m) at 2. apply list_to_map_proper; [|done].
  rewrite Hp. apply NoDup_fst_map_to_list.
Qed.

Lemma as_any_string j s : as_any j = JStr s <-> j = JStr s.
Proof. destruct j; cbn; split; intros H; try done. by destruct (float64 num den). Qed.

Lemma string_at_as_any m k : string_at (as_any <$> m) k = string_at m k.
Proof.
  unfold string_at. rewrite lookup_fmap. destruct (m !! k) as [j|]; [|done]. cbn.
  destruct j; try done. cbn. by destruct (float64 num den).
Qed.

(** ** What reconciling does *)

Lemma string_at_insert m k s k' : string_at (<[k := JStr s]> m) k' = if decide (k = k') then s else string_at m k'.
Proof. unfold string_at. destruct (decide (k = k')) as [->|Hk]; [by rewrite lookup_insert_eq|by rewrite lookup_insert_ne]. Qed.

(** The member [k] of a document, and the string there, empty when there is none. *)
Definition card_member (card : json) (k : string) : option json :=
  match card with JObj l => to_members l !! k | _ => None end.
Definition card_field (card : json) (k : string) : string :=
  match card_member card k with Some (JStr s) => s | _ => "" end.

Definition new_name (workspaceID dbName name : string) : string :=
  if decide ((name = "" \/ name = workspaceID) /\ dbName <> "" /\ dbName <> workspaceID) then dbName else name.
Definition new_description (workspaceID name description : string) : string :=
  if decide (description = "" /\ name <> "" /\ name <> workspaceID) then name else description.
Definition new_role (dbRole role : string) : string := if decide (role = "") then dbRole else role.

(** Each step stores its new value where it differs. *)
Definition put (k v : string) (m : members) : members * bool :=
  if decide (v = string_at m k) then (m, false) else (<[k := JStr v]> m, true).

Lemma fill_name_put ws dbName m : fill_name ws dbName m = put "name" (new_name ws dbName (string_at m "name")) m.
Proof. unfold fill_name, put, new_name. destruct (decide (_ /\ _)) as [(Hn & H1 & H2)|]; [|by rewrite decide_True].
  rewrite decide_False; [done|]. intros E. rewrite <- E in Hn. by destruct Hn.
Qed.
Lemma fill_description_put ws m :
  fill_description ws m = put "description" (new_description ws (string_at m "name") (string_at m "description")) m.
Proof. unfold fill_description, put, new_description. destruct (decide (_ /\ _)) as [(Hd & Hn & _)|]; [|by rewrite decide_True].
  rewrite decide_False; [done|]. congruence.
Qed.
Lemma fill_role_put dbRole m : fill_role dbRole m = put "role" (new_role dbRole (string_at m "role")) m.
Proof. unfold fill_role, put, new_role. destruct (decide (string_at m "role" = "")) as [Hr|Hr].
  - destruct (decide (dbRole = "")) as [->|Hd].
    + rewrite decide_False by tauto. by rewrite decide_True.
    + rewrite decide_True by done. rewrite decide_False; [done|]. congruence.
  - rewrite decide_False by tauto. by rewrite decide_True.
Qed.

Lemma put_string k v m k' : string_at (fst (put k v m)) k' = if decide (k = k') then v else string_at m k'.
Proof. unfold put. destruct (decide (v = _)) as [->|]; cbn; [by destruct (decide (k = k')) as [->|]|apply string_at_insert]. Qed.
Lemma put_other k v m k' : k <> k' -> fst (put k v m) !! k' = m !! k'.
Proof. intros Hk. unfold put. destruct (decide _); cbn; [done|by rewrite lookup_insert_ne]. Qed.
Lemma put_unchanged k v m : snd (put k v m) = false -> fst (put k v m) = m.
Proof. unfold put. by destruct (decide _). Qed.

Lemma put_same k v m : v = string_at m k -> put k v m = (m, false).
Proof. intros ->. unfold put. by rewrite decide_True. Qed.

(** Nothing to fill: the three values are there. *)
Definition filled (ws dbName dbRole : string) (m : members) : Prop :=
  new_name ws dbName (string_at m "name") = string_at m "name" /\
  new_description ws (string_at m "name") (string_at m "description") = string_at m "description" /\
  new_role dbRole (string_at m "role") = string_at m "role".

(** The members after the three steps. *)
Definition fill (ws dbName dbRole : string) (m : members) : members :=
  fst (fill_role dbRole (fst (fill_description ws (fst (fill_name ws dbName m))))).

Lemma fill_strings ws dbName dbRole m :
  let name := new_name ws dbName (string_at m "name") in
  string_at (fill ws dbName dbRole m) "name" = name /\
  string_at (fill ws dbName dbRole m) "description" = new_description ws name (string_at m "description") /\
  string_at (fill ws dbName dbRole m) "role" = new_role dbRole (string_at m "role") /\
  (forall k, k <> "name" -> k <> "description" -> k <> "role" -> fill ws dbName dbRole m !! k = m !! k).
Proof.
  unfold fill. rewrite fill_role_put, fill_description_put, fill_name_put. cbn zeta.
  repeat (rewrite put_string; cbn). split_and!; try done. intros k H1 H2 H3. by rewrite !put_other.
Qed.

Lemma new_values_stable ws dbName dbRole n d r :
  let n' := new_name ws dbName n in
  new_name ws dbName n' = n' /\
  new_description ws n' (new_description ws n' d) = new_description ws n' d /\
  new_role dbRole (new_role dbRole r) = new_role dbRole r.
Proof. cbn zeta. split_and!.
  - unfold new_name. destruct (decide ((n = "" \/ n = ws) /\ dbName <> "" /\ dbName <> ws)) as [H|H]; [|by rewrite decide_False].
    rewrite decide_False; [done|tauto].
  - generalize (new_name ws dbName n). intros n'. unfold new_description.
    destruct (decide (d = "" /\ n' <> "" /\ n' <> ws)) as [H|H]; [|by rewrite decide_False].
    rewrite decide_False; [done|tauto].
  - unfold new_role. destruct (decide (r = "")) as [H|H]; [by destruct (decide _)|by rewrite decide_False].
Qed.

Lemma fill_filled ws dbName dbRole m : filled ws dbName dbRole (fill ws dbName dbRole m).
Proof.
  unfold filled. destruct (fill_strings ws dbName dbRole m) as (-> & -> & -> & _). apply new_values_stable.
Qed.

Lemma reconcile_unchanged card ws dbName dbRole :
  (forall m, unmarshal_map card = Some m -> filled ws dbName dbRole m) ->
  reconcileAgentCardIdentity card ws dbName dbRole = (card, false).
Proof.
  intros Hf. unfold reconcileAgentCardIdentity. destruct (unmarshal_map card) as [m|]; [|done].
  destruct (Hf m eq_refl) as (Hn & Hd & Hr).
  rewrite fill_name_put, put_same by done. rewrite fill_description_put, put_same by done.
  by rewrite fill_role_put, put_same.
Qed.

Lemma reconcile_fill card ws dbName dbRole m :
  unmarshal_map card = Some m -> exists changed : bool,
  reconcileAgentCardIdentity card ws dbName dbRole =
    (if changed then (marshal_map (fill ws dbName dbRole m), true) else (card, false)) /\
  (changed = false -> fill ws dbName dbRole m = m).
Proof.
  intros Hm. unfold reconcileAgentCardIdentity, fill. rewrite Hm, fill_name_put.
  destruct (put "name" _ m) as [m1 c1] eqn:E1. cbn. rewrite fill_description_put.
  destruct (put "description" _ m1) as [m2 c2] eqn:E2. cbn. rewrite fill_role_put.
  destruct (put "role" _ m2) as [m3 c3] eqn:E3. cbn. exists (c1 || c2 || c3). split; [done|]. intros Hc.
  apply orb_false_iff in Hc as [Hc ->]. apply orb_false_iff in Hc as [-> ->].
  apply (f_equal fst) in E1 as H1, E2 as H2, E3 as H3. apply (f_equal snd) in E1, E2, E3.
  rewrite (put_unchanged _ _ _ E1) in H1. rewrite (put_unchanged _ _ _ E2) in H2. rewrite (put_unchanged _ _ _ E3) in H3.
  cbn in *. congruence.
Qed.

Lemma card_field_decoded card m k : unmarshal_map card = Some m -> string_at m k = card_field card k.
Proof.
  destruct card; try done. cbn [unmarshal_map]. destruct (decodable _); [|done]. intros [= <-]. apply string_at_as_any.
Qed.

Lemma card_member_decoded card m k : unmarshal_map card = Some m -> m !! k = as_any <$> card_member card k.
Proof. destruct card; try done. cbn [unmarshal_map]. destruct (decodable _); [|done]. intros [= <-]. apply lookup_fmap. Qed.

(** the platform fills gaps in a card's identity and does nothing else: the name
    only where the card has none or the placeholder, from a real name on record;
    the description only where blank, from that name; the role only where there is
    none.  Every other member stays, numbers as a float64 holds them, and to do it
    again changes nothing. *)
Theorem reconcile_only_fills_gaps card ws dbName dbRole :
  decodable card = true -> (exists l, card = JObj l) ->
  let card' := fst (reconcileAgentCardIdentity card ws dbName dbRole) in
  card_field card' "name" = new_name ws dbName (card_field card "name") /\
  card_field card' "description" = new_description ws (card_field card' "name") (card_field card "description") /\
  card_field card' "role" = new_role dbRole (card_field card "role") /\
  (forall k, k <> "name" -> k <> "description" -> k <> "role" ->
     card' = card \/ card_member card' k = as_any <$> card_member card k) /\
  reconcileAgentCardIdentity card' ws dbName dbRole = (card', false).
Proof.
  intros Hd [l ->]. destruct (unmarshal_map (JObj l)) as [m|] eqn:Em; [|unfold unmarshal_map in Em; by rewrite Hd in Em].
  destruct (reconcile_fill _ ws dbName dbRole _ Em) as (changed & E & Hsame).
  destruct (fill_strings ws dbName dbRole m) as (Hn & Hde & Hr & Ho).
  assert (Hf := fill_filled ws dbName dbRole m). cbn zeta. rewrite E. destruct changed; cbn [fst].
  - assert (Hc : forall k, card_field (marshal_map (fill ws dbName dbRole m)) k = string_at (fill ws dbName dbRole m) k).
    { intros k. unfold card_field, card_member, marshal_map. by rewrite to_of_members. }
    rewrite !Hc, Hn, Hde, Hr, !(card_field_decoded _ _ _ Em). split_and!; try done.
    + intros k ???. right. unfold card_member at 1, marshal_map. rewrite to_of_members, Ho by done.
      by apply card_member_decoded.
    + apply reconcile_unchanged. intros m' Hm'. destruct Hf as (F1 & F2 & F3). unfold filled.
      rewrite !(card_field_decoded _ _ _ Hm'), !Hc. done.
  - rewrite (Hsame eq_refl) in Hn, Hde, Hr, Hf. rewrite <- !(card_field_decoded _ _ _ Em).
    split_and!; [by rewrite Hn at 1|by rewrite Hn, Hde at 1|done|by left|].
    apply reconcile_unchanged. intros m' Hm'. by simplify_eq.
Qed.
End Card.

(** A float64 that holds everything, for the witnesses. *)
Definition exact (n : Z) (d : positive) : Z * positive := (n, d).

Lemma reconcile_only_fills_gaps_witness :
  let card := JObj [("name", JStr "7f3a"); ("skills", JArr [JNum 1 1]); ("role", JNull)] in
  decodable (fun _ _ => true) card = true /\
  card_field (fst (reconcileAgentCardIdentity (fun _ _ => true) exact card "7f3a" "Scout" "researcher")) "name" = "Scout".
Proof.
  intros card. assert (Hd : decodable (fun _ _ => true) card = true) by reflexivity. split; [done|].
  rewrite (proj1 (reconcile_only_fills_gaps (fun _ _ => true) exact card "7f3a" "Scout" "researcher" Hd (ex_intro _ _ eq_refl))).
  reflexivity.
Defined.

(** ** The URL the provisioner wrote *)

Definition digit (a : Ascii.ascii) : bool := let n := Ascii.nat_of_ascii a in (48 <=? n)%nat && (n <=? 57)%nat.

(** The value of a string of decimal digits, [None] if it is empty or has another
    character. *)
Fixpoint digits_from (acc : Z) (s : string) : option Z :=
  match s with
  | "" => Some acc
  | String a s' => if digit a then digits_from (10 * acc + (Z.of_nat (Ascii.nat_of_ascii a) - 48)) s' else None
  end.
Definition digits (s : string) : option Z := if decide (s = "") then None else digits_from 0 s.

(** [strconv.Atoi]. *)
Definition Atoi (s : string) : option Z :=
  let n := if has_prefix s "-" then Z.opp <$> digits (str_drop 1 s)
           else if has_prefix s "+" then digits (str_drop 1 s) else digits s in
  n ≫= fun n => if (- 2 ^ 63 <=? n) && (n <? 2 ^ 63) then Some n else None.

(** What follows the last colon, [None] without one. *)
Fixpoint after_last_colon (s : string) : option string :=
  match s with
  | "" => None
  | String a s' => match after_last_colon s' with
                   | Some r => Some r
                   | None => if decide (Ascii.nat_of_ascii a = 58)%nat then Some s' else None
                   end
  end.

Definition loopback_prefix (u : string) : bool := has_prefix u "http://127.0.0.1:" || has_prefix u "http://localhost:".

Definition isProvisionerHostPortURL (u : string) : bool :=
  if decide (u = "") then false
  else if negb (loopback_prefix u) then false
  else let port := default u (after_last_colon u) in
       if decide (port = "") then false
       else match Atoi port with None => false | Some n => negb (n =? 8000) end.

(** The CASE of the upsert: [CAST(substring(url FROM ':([0-9]+)$') AS int) <> 8000];
    [None] where the cast overflows and the statement errors. *)
Definition keeps_stored_url (stored : option string) : option bool :=
  match stored with
  | None => Some false
  | Some u =>
      if decide (u = "") then Some false
      else if loopback_prefix u then
        match after_last_colon u ≫= digits with
        | None => Some false
        | Some n => if n <=? 2147483647 then Some (negb (n =? 8000)) else None
        end
      else Some false
  end.

Lemma digits_from_nonneg acc s n : 0 <= acc -> digits_from acc s = Some n -> 0 <= n.
Proof.
  revert acc. induction s as [|a s IH]; intros acc Ha; cbn; [by intros [= <-]|].
  unfold digit. destruct (_ && _) eqn:E; [|done]. apply andb_true_iff in E as [E _]. apply Nat.leb_le in E. apply IH. lia.
Qed.

Lemma digits_sign s n : digits s = Some n -> has_prefix s "-" = false /\ has_prefix s "+" = false.
Proof.
  unfold digits. destruct (decide (s = "")); [done|]. destruct s as [|a s]; [done|]. cbn. intros Hd.
  split; case_decide; by subst.
Qed.

(** Where the statement keeps the stored URL, the cache prefers it too. *)
Lemma kept_url_is_the_provisioners u : keeps_stored_url (Some u) = Some true -> isProvisionerHostPortURL u = true.
Proof.
  unfold keeps_stored_url, isProvisionerHostPortURL. destruct (decide (u = "")) as [|Hu]; [done|].
  destruct (loopback_prefix u); [|done]. cbn [negb]. destruct (after_last_colon u) as [p|]; [|done]. cbn.
  destruct (digits p) as [n|] eqn:E; [|done]. destruct (n <=? 2147483647) eqn:Eb; [|done]. intros [= Hn].
  destruct (decide (p = "")) as [->|Hp]; [done|]. destruct (digits_sign _ _ E) as [E1 E2].
  unfold Atoi. rewrite E1, E2. cbn [mbind option_bind]. apply Z.leb_le in Eb.
  assert (0 <= n) by (unfold digits in E; rewrite decide_False in E by done; by apply digits_from_nonneg in E).
  rewrite (proj2 (Z.leb_le _ _)) by lia. rewrite (proj2 (Z.ltb_lt _ _)) by lia. done.
Qed.

(** A port that does not fit an int makes every later registration error. *)
Example port_overflow : keeps_stored_url (Some "http://localhost:99999999999") = None.
Proof. reflexivity. Qed.
