(* ===== verification/Ssrf.v ===== *)
(** * Which addresses the server talks to

    internal/handlers/ssrf.go, validateAgentURL and isPlatformTunnelHostname of
    registry.go, resolveA2AInboundSecret of a2a_inbound_auth.go and the dial
    control of transcript.go.  An address is a number below 2^128, IPv4 in the
    block ::ffff:0:0/96, as in Go's sixteen-byte form; [url.Parse] and the name
    server are parameters. *)

From S2P Require Import Prelude RateLimit AgentCard.
From Stdlib Require Import Ascii Btauto.

(** ** Addresses (net.IP) *)

Definition v4_block : Z := Z.shiftl 65535 32.
Definition v4 (a b c d : Z) : Z := ((a * 256 + b) * 256 + c) * 256 + d.
(** An address with the leading sixteen bits [g]. *)
Definition v6_top (g : Z) : Z := Z.shiftl g 112.
Definition is_ip (a : Z) : Prop := 0 <= a < 2 ^ 128.

(** [ip.To4()]. *)
Definition To4 (a : Z) : option Z := if Z.shiftr a 32 =? 65535 then Some (a - v4_block) else None.
Definition of4 (x : Z) : Z := v4_block + x.

(** A network: IPv4 when [c_v4]. *)
Record cidr := Cidr { c_v4 : bool; c_base : Z; c_bits : Z }.

(** The two agree on their first [bits] of [width] bits. *)
Definition same_prefix (width bits a b : Z) : bool := Z.shiftr a (width - bits) =? Z.shiftr b (width - bits).

(** [network.Contains(ip)]. *)
Definition Contains (n : cidr) (a : Z) : bool :=
  match To4 a with
  | Some x => c_v4 n && same_prefix 32 (c_bits n) x (c_base n)
  | None => negb (c_v4 n) && same_prefix 128 (c_bits n) a (c_base n)
  end.

Definition net4 (a b c d bits : Z) : cidr := Cidr true (v4 a b c d) bits.
Definition net6 (g bits : Z) : cidr := Cidr false (v6_top g) bits.
(** 2001:db8::/32. *)
Definition doc_v6 : cidr := Cidr false (Z.shiftl 536939960 96) 32.

(** Byte [i] of the sixteen. *)
Definition byte16 (i a : Z) : Z := Z.land (Z.shiftr a (8 * (15 - i))) 255.

Definition IsLoopback (a : Z) : bool :=
  match To4 a with Some x => Z.shiftr x 24 =? 127 | None => a =? 1 end.
Definition IsUnspecified (a : Z) : bool := (a =? v4_block) || (a =? 0).
Definition IsLinkLocalUnicast (a : Z) : bool :=
  match To4 a with
  | Some x => Contains (net4 169 254 0 0 16) a
  | None => (byte16 0 a =? 254) && (Z.land (byte16 1 a) 192 =? 128)
  end.
Definition IsLinkLocalMulticast (a : Z) : bool :=
  match To4 a with
  | Some x => Contains (net4 224 0 0 0 24) a
  | None => (byte16 0 a =? 255) && (Z.land (byte16 1 a) 15 =? 2)
  end.
Definition IsInterfaceLocalMulticast (a : Z) : bool := (byte16 0 a =? 255) && (Z.land (byte16 1 a) 15 =? 1).
Definition IsPrivate (a : Z) : bool :=
  match To4 a with
  | Some x => Contains (net4 10 0 0 0 8) a || Contains (net4 172 16 0 0 12) a || Contains (net4 192 168 0 0 16) a
  | None => Z.land (byte16 0 a) 254 =? 252
  end.

(** *** Reading an address (netip.ParseAddr) *)

Definition hex_value (c : ascii) : option Z :=
  let n := Z.of_nat (nat_of_ascii c) in
  if (48 <=? n) && (n <=? 57) then Some (n - 48)
  else if (97 <=? n) && (n <=? 102) then Some (n - 87)
  else if (65 <=? n) && (n <=? 70) then Some (n - 55) else None.

(** The hexadecimal digits at the head: their value, their number, the rest. *)
Fixpoint hex_run (acc : Z) (off : nat) (s : string) : Z * nat * string :=
  match s with
  | String c s' => match hex_value c with
                   | Some v => hex_run (16 * acc + v) (S off) s'
                   | None => (acc, off, s)
                   end
  | "" => (acc, off, "")
  end.

(** The text up to the first [c] and what follows it. *)
Fixpoint cut (c : ascii) (s : string) : string * option string :=
  match s with
  | "" => ("", None)
  | String a s' => if decide (a = c) then ("", Some s')
                   else let '(h, t) := cut c s' in (String a h, t)
  end.

(** One decimal field of an IPv4 address: no leading zero, at most 255. *)
Definition octet (s : string) : option Z :=
  match digits s with
  | Some n => if ((String.length s =? 1)%nat || negb (has_prefix s "0")) && (n <=? 255) then Some n else None
  | None => None
  end.

Definition parse_v4 (s : string) : option Z :=
  match cut "."%char s with
  | (a, Some s) =>
      match cut "."%char s with
      | (b, Some s) =>
          match cut "."%char s with
          | (c, Some d) =>
              match octet a, octet b, octet c, octet d with
              | Some a, Some b, Some c, Some d => Some (v4 a b c d)
              | _, _, _, _ => None
              end
          | _ => None
          end
      | _ => None
      end
  | _ => None
  end.

(** The sixteen-bit groups read so far, and where the [::] stood.  One round of the
    loop reads one group; eight groups at most. *)
Fixpoint groups_loop (fuel : nat) (s : string) (gs : list Z) (ell : option nat) : option (list Z * option nat) :=
  match fuel with
  | O => if decide (s = "") then Some (gs, ell) else None
  | S fuel =>
      let '(v, off, rest) := hex_run 0 0 s in
      if ((off =? 0) || (4 <? off))%nat then None
      else match rest with
           | "" => Some (gs ++ [v], ell)
           | String c rest' =>
               if decide (c = "."%char) then
                 if bool_decide (ell = None) && negb (length gs =? 6)%nat then None
                 else if (6 <? length gs)%nat then None
                 else match parse_v4 s with
                      | Some x => Some (gs ++ [Z.shiftr x 16; Z.land x 65535], ell)
                      | None => None
                      end
               else if decide (c = ":"%char) then
                 match rest' with
                 | "" => None
                 | String c' rest'' =>
                     if decide (c' = ":"%char) then
                       if bool_decide (is_Some ell) then None
                       else if decide (rest'' = "") then Some (gs ++ [v], Some (S (length gs)))
                       else groups_loop fuel rest'' (gs ++ [v]) (Some (S (length gs)))
                     else groups_loop fuel rest' (gs ++ [v]) ell
                 end
               else None
           end
  end.

Definition join_groups (gs : list Z) : Z := fold_left (fun acc g => 65536 * acc + g) gs 0.

Definition parse_v6 (s : string) : option Z :=
  let r := if has_prefix s "::" then
             if decide (str_drop 2 s = "") then Some ([], Some O) else groups_loop 8 (str_drop 2 s) [] (Some O)
           else groups_loop 8 s [] None in
  match r with
  | Some (gs, None) => if (length gs =? 8)%nat then Some (join_groups gs) else None
  | Some (gs, Some k) =>
      if (length gs <? 8)%nat then Some (join_groups (take k gs ++ replicate (8 - length gs) 0 ++ drop k gs)) else None
  | None => None
  end.

(** The first of [.], [:] and [%]. *)
Fixpoint first_mark (s : string) : option ascii :=
  match s with
  | "" => None
  | String a s' => if decide (a = "."%char \/ a = ":"%char \/ a = "%"%char) then Some a else first_mark s'
  end.

(** The address and its zone. *)
Definition ParseAddr (s : string) : option (Z * string) :=
  match first_mark s with
  | Some m =>
      if decide (m = "."%char) then (fun x => (of4 x, "")) <$> parse_v4 s
      else if decide (m = ":"%char) then
        match cut "%"%char s with
        | (h, None) => (fun a => (a, "")) <$> parse_v6 h
        | (h, Some zone) => if decide (zone = "") then None else (fun a => (a, zone)) <$> parse_v6 h
        end
      else None
  | None => None
  end.

(** [net.ParseIP]: no zones. *)
Definition ParseIP (s : string) : option Z :=
  match ParseAddr s with Some (a, zone) => if decide (zone = "") then Some a else None | None => None end.

(** ** The modes *)

(** What the policies read of the environment. *)
Record ssrf_env := SsrfEnv {
  MOLECULE_DEPLOY_MODE : string; MOLECULE_ORG_ID : string; MOLECULE_ENV : string; MOLECULE_APP_DOMAIN : string
}.

Definition saasMode (e : ssrf_env) : bool :=
  let trimmed := TrimSpace (MOLECULE_DEPLOY_MODE e) in
  if decide (trimmed <> "") then bool_decide (str_lower trimmed = "saas")
  else negb (bool_decide (TrimSpace (MOLECULE_ORG_ID e) = "")).

Definition devModeAllowsLoopback (e : ssrf_env) : bool :=
  let env := str_lower (TrimSpace (MOLECULE_ENV e)) in bool_decide (env = "development" \/ env = "dev").

(** ** Dispatch: isSafeURL *)

Definition metadataV4 := net4 169 254 0 0 16.
Definition cgnatV4 := net4 100 64 0 0 10.
Definition privateV4 := [net4 10 0 0 0 8; net4 172 16 0 0 12; net4 192 168 0 0 16].
Definition docRangesV4 := [net4 192 0 2 0 24; net4 198 51 100 0 24; net4 203 0 113 0 24].
Definition ulaV6 := net6 64512 7.
Definition fd00V6 := net6 64768 8.

Definition isPrivateOrMetadataIP (e : ssrf_env) (a : Z) : bool :=
  let saas := saasMode e || devModeAllowsLoopback e in
  match To4 a with
  | Some _ =>
      if Contains metadataV4 a then true
      else if existsb (fun r => Contains r a) docRangesV4 then true
      else if Contains cgnatV4 a then true
      else if existsb (fun r => Contains r a) privateV4 then negb saas
      else false
  | None =>
      if IsLoopback a && negb (devModeAllowsLoopback e) then true
      else if IsLinkLocalUnicast a then true
      else if Contains ulaV6 a then negb (saas && Contains fd00V6 a)
      else false
  end.

(** The two checks on one address, in both branches of isSafeURL. *)
Definition safe_ip (e : ssrf_env) (a : Z) : bool :=
  negb ((IsLoopback a && negb (devModeAllowsLoopback e)) || IsUnspecified a || IsLinkLocalUnicast a ||
        IsLinkLocalMulticast a || IsInterfaceLocalMulticast a) &&
  negb (isPrivateOrMetadataIP e a).

(** ** Registration: validateAgentURL *)

Definition always_blocked : list cidr :=
  [metadataV4; net6 65152 10; net4 192 0 2 0 24; net4 198 51 100 0 24; net4 203 0 113 0 24; net4 100 64 0 0 10;
   net4 224 0 0 0 4; net6 64512 8; doc_v6].
Definition blockedRanges (e : ssrf_env) : list cidr :=
  always_blocked ++
  (if devModeAllowsLoopback e then [] else [net4 127 0 0 0 8; Cidr false 1 128]) ++
  (if saasMode e then [] else [net4 10 0 0 0 8; net4 172 16 0 0 12; net4 192 168 0 0 16; net6 64768 8]).

Definition checkIP (e : ssrf_env) (a : Z) : bool := negb (existsb (fun n => Contains n a) (blockedRanges e)).

(** [strings.TrimSuffix(h, ".")] and [strings.HasSuffix]. *)
Definition has_suffix (s p : string) : bool :=
  (String.length p <=? String.length s)%nat && bool_decide (str_drop (String.length s - String.length p) s = p).
Definition trim_dot (h : string) : string := if has_suffix h "." then str_take (String.length h - 1) h else h.

Definition isPlatformTunnelHostname (e : ssrf_env) (h : string) : bool :=
  let h := str_lower (trim_dot h) in
  if negb (has_prefix h "ws-") then false
  else let domain := str_lower (TrimSpace (MOLECULE_APP_DOMAIN e)) in
       let domain := if decide (domain = "") then "moleculesai.app" else domain in
       has_suffix h ("." +:+ str_lower (trim_dot domain)).

Section Urls.
(** Scheme and hostname of a URL, [None] when it does not parse. *)
Context (url_parse : string -> option (string * string)).

(** The addresses of a name that is not an address itself, with their zones. *)
Abbreviation resolver := (string -> option (list (Z * string))).

(** [net.LookupHost] and [net.LookupIP] return a literal, zone or not, as it is. *)
Definition lookup_host (dns : resolver) (host : string) : option (list (Z * string)) :=
  match ParseAddr host with Some az => Some [az] | None => dns host end.

(** [net.ParseIP] on the text of a looked-up address. *)
Definition parsed_ip (az : Z * string) : option Z := if decide (az.2 = "") then Some az.1 else None.

Definition isSafeURL (e : ssrf_env) (dns : resolver) (rawURL : string) : bool :=
  match url_parse rawURL with
  | None => false
  | Some (scheme, host) =>
      if decide (scheme <> "http" /\ scheme <> "https") then false
      else if decide (host = "") then false
      else match ParseIP host with
           | Some a => safe_ip e a
           | None =>
               match lookup_host dns host with
               | None | Some [] => false
               | Some addrs => forallb (fun az => match parsed_ip az with None => true | Some a => safe_ip e a end) addrs
               end
           end
  end.

Definition validateAgentURL (e : ssrf_env) (dns : resolver) (rawURL : string) : bool :=
  if decide (rawURL = "") then false
  else match url_parse rawURL with
       | None => false
       | Some (scheme, hostname) =>
           if decide (scheme <> "http" /\ scheme <> "https") then false
           else match ParseIP hostname with
                | Some a => checkIP e a
                | None =>
                    if decide (hostname = "localhost") then true
                    else match lookup_host dns hostname with
                         | None => saasMode e && isPlatformTunnelHostname e hostname
                         | Some ips => forallb (fun az => checkIP e az.1) ips
                         end
                end
       end.

(** The control the dialer runs on the address it is about to connect to: [host] is
    what it resolved, the zone included.  The URL it builds for isSafeURL holds the
    address itself, so the check is that of the address. *)
Definition safeDialControl (e : ssrf_env) (dns : resolver) (host : string) : bool :=
  match ParseIP host with
  | Some a => safe_ip e a
  | None => match lookup_host dns host with
            | None | Some [] => false
            | Some ips => forallb (fun az => safe_ip e az.1) ips
            end
  end.

(** ** Inbound authentication *)

Definition containerNameForWorkspace (workspaceID : string) : string := "ws-" +:+ workspaceID.
Definition legacyContainerNameForWorkspace (workspaceID : string) : string := "ws-" +:+ str_take 12 workspaceID.

Definition isExternalAgentURL (e : ssrf_env) (workspaceID agentURL : string) : bool :=
  match url_parse agentURL with
  | None => false
  | Some (_, host) =>
      if decide (host = "") then false
      else if decide (host = containerNameForWorkspace workspaceID \/ host = legacyContainerNameForWorkspace workspaceID)
      then false
      else if isPlatformTunnelHostname e host then false
      else match ParseIP host with
           | Some a => negb (IsLoopback a || IsUnspecified a || IsLinkLocalUnicast a || IsLinkLocalMulticast a ||
                             IsInterfaceLocalMulticast a || IsPrivate a || isPrivateOrMetadataIP e a)
           | None => true
           end
  end.

(** [read]: the secret and whether it was minted just now, [None] for an error.  The
    answer is the bearer, empty for none, or a 503. *)
Definition resolveA2AInboundSecret (e : ssrf_env) (workspaceID agentURL : string) (read : option (string * bool))
    (alwaysAuth : bool) : string + Z :=
  if isExternalAgentURL e workspaceID agentURL then
    match read with
    | None | Some (_, true) => inr 503
    | Some (secret, false) => inl secret
    end
  else if negb alwaysAuth then inl ""
  else match read with Some (secret, false) => inl secret | _ => inl "" end.
End Urls.

(** ** Blocks as intervals *)

Definition inside (lo hi a : Z) : bool := (lo <=? a) && (a <=? hi).
(** [a.b.c.d] to [a'.b'.c'.d'] as addresses. *)
Definition inside4 (lo hi a : Z) : bool := inside (of4 lo) (of4 hi) a.
(** The addresses whose leading sixteen bits lie between [g] and [h]. *)
Definition inside6 (g h a : Z) : bool := inside (v6_top g) (v6_top (h + 1) - 1) a.

Lemma same_prefix_interval w bits a b :
  0 <= bits <= w -> b mod 2 ^ (w - bits) = 0 -> same_prefix w bits a b = inside b (b + 2 ^ (w - bits) - 1) a.
Proof.
  intros Hb Hm. unfold same_prefix, inside. rewrite !Z.shiftr_div_pow2 by lia. set (m := 2 ^ (w - bits)) in *.
  assert (0 < m) by (apply Z.pow_pos_nonneg; lia). apply eq_true_iff_eq.
  rewrite andb_true_iff, Z.eqb_eq, !Z.leb_le. assert (Eb := Z.div_mod b m). assert (Ea := Z.div_mod a m).
  assert (Ha := Z.mod_pos_bound a m). split; intros H'; [nia|].
  symmetry. apply (Z.div_unique a m (b / m) (a - b)); lia.
Qed.

Lemma To4_block a : is_ip a -> To4 a = if inside v4_block (v4_block + 4294967295) a then Some (a - v4_block) else None.
Proof.
  intros Ha. unfold To4. assert (E := same_prefix_interval 128 96 a v4_block). unfold same_prefix in E.
  change (128 - 96) with 32 in E. change (Z.shiftr v4_block 32) with 65535 in E. rewrite E; [done|lia|reflexivity].
Qed.

Lemma Contains_v4 base bits a :
  is_ip a -> 0 <= bits <= 32 -> 0 <= base -> base + 2 ^ (32 - bits) <= 2 ^ 32 -> base mod 2 ^ (32 - bits) = 0 ->
  Contains (Cidr true base bits) a = inside4 base (base + 2 ^ (32 - bits) - 1) a.
Proof.
  intros Ha Hb H0 H1 Hm. unfold Contains. rewrite To4_block by done. cbn [c_v4 c_base c_bits].
  assert (0 < 2 ^ (32 - bits)) by (apply Z.pow_pos_nonneg; lia). unfold inside4, of4.
  destruct (inside v4_block _ a) eqn:E.
  - rewrite same_prefix_interval by done. unfold inside. cbn [andb]. apply eq_true_iff_eq. rewrite !andb_true_iff, !Z.leb_le. lia.
  - symmetry. unfold inside in *. apply andb_false_iff in E as [E|E]; apply Z.leb_gt in E; apply andb_false_iff;
      [left|right]; apply Z.leb_gt; lia.
Qed.

Lemma Contains_v6 base bits a :
  is_ip a -> 0 <= bits <= 128 -> base mod 2 ^ (128 - bits) = 0 ->
  (base + 2 ^ (128 - bits) <= v4_block \/ v4_block + 2 ^ 32 <= base) ->
  Contains (Cidr false base bits) a = inside base (base + 2 ^ (128 - bits) - 1) a.
Proof.
  intros Ha Hb Hm Hd. unfold Contains. rewrite To4_block by done. cbn [c_v4 c_base c_bits].
  destruct (inside v4_block _ a) eqn:E; [|by rewrite same_prefix_interval].
  unfold inside in *. apply andb_true_iff in E as [E1 E2]. apply Z.leb_le in E1, E2. symmetry. apply andb_false_iff.
  destruct Hd; [right|left]; apply Z.leb_gt; lia.
Qed.

(** Two tests of a byte that agree on all of them. *)
Lemma byte_tests (P Q : Z -> bool) :
  forallb (fun n => Bool.eqb (P (Z.of_nat n)) (Q (Z.of_nat n))) (seq 0 256) = true ->
  forall x, 0 <= x < 256 -> P x = Q x.
Proof.
  intros Hall x Hx. rewrite forallb_forall in Hall. specialize (Hall (Z.to_nat x)). rewrite Z2Nat.id in Hall by lia.
  apply eqb_prop, Hall, in_seq. lia.
Qed.

Lemma byte_range i a : 0 <= byte16 i a < 256.
Proof. unfold byte16. change 255 with (Z.ones 8). rewrite Z.land_ones by lia. apply Z.mod_pos_bound. lia. Qed.

Lemma top_byte a : is_ip a -> byte16 0 a = a / 2 ^ 120.
Proof.
  intros [H0 H1]. unfold byte16. change 255 with (Z.ones 8). rewrite Z.land_ones, Z.shiftr_div_pow2 by lia.
  apply Z.mod_small. split; [by apply Z.div_pos|]. apply Z.div_lt_upper_bound; lia.
Qed.
Lemma second_byte a : byte16 1 a = a / 2 ^ 112 - 256 * (a / 2 ^ 120).
Proof.
  unfold byte16. change 255 with (Z.ones 8). rewrite Z.land_ones, Z.shiftr_div_pow2 by lia.
  change (8 * (15 - 1)) with 112. rewrite Z.mod_eq by lia. rewrite Z.div_div by lia. change (2 ^ 112 * 2 ^ 8) with (2 ^ 120). lia.
Qed.

Lemma link_local_v6 a : is_ip a -> To4 a = None -> IsLinkLocalUnicast a = inside6 65152 65215 a.
Proof.
  intros Ha Hn. unfold IsLinkLocalUnicast, inside6, inside. rewrite Hn.
  rewrite (byte_tests (fun x => Z.land x 192 =? 128) (fun x => (128 <=? x) && (x <? 192)) eq_refl) by apply byte_range.
  rewrite second_byte, (top_byte a Ha). unfold v6_top. rewrite !Z.shiftl_mul_pow2 by lia.
  assert (H1 := Z.div_mod a (2 ^ 112)). assert (H2 := Z.mod_pos_bound a (2 ^ 112)).
  assert (H3 : a / 2 ^ 120 = a / 2 ^ 112 / 256) by (rewrite Z.div_div by lia; done). rewrite H3.
  set (q := a / 2 ^ 112) in *. assert (H4 := Z.div_mod q 256). assert (H5 := Z.mod_pos_bound q 256).
  apply eq_true_iff_eq. rewrite !andb_true_iff, Z.eqb_eq, !Z.leb_le, Z.ltb_lt. lia.
Qed.

(** The multicast groups of the link and of the interface, IPv6. *)
Lemma local_multicast_high a :
  is_ip a -> To4 a = None -> IsLinkLocalMulticast a || IsInterfaceLocalMulticast a = true -> v6_top 65280 <= a.
Proof.
  intros Ha Hn. unfold IsLinkLocalMulticast, IsInterfaceLocalMulticast. rewrite Hn, (top_byte a Ha).
  rewrite <- andb_orb_distrib_r. intros [H _]%andb_true_iff. apply Z.eqb_eq in H.
  assert (H1 := Z.div_mod a (2 ^ 120)). assert (H2 := Z.mod_pos_bound a (2 ^ 120)). unfold v6_top.
  rewrite Z.shiftl_mul_pow2 by lia. lia.
Qed.

Lemma interface_multicast_v4 a x : is_ip a -> To4 a = Some x -> IsInterfaceLocalMulticast a = false.
Proof.
  intros Ha. rewrite To4_block by done. destruct (inside _ _ a) eqn:E; [|done]. intros _.
  unfold inside in E. apply andb_true_iff in E as [_ E]. apply Z.leb_le in E.
  unfold IsInterfaceLocalMulticast. rewrite (top_byte a Ha), Z.div_small; [done|].
  unfold v4_block in E. rewrite Z.shiftl_mul_pow2 in E by lia. destruct Ha. lia.
Qed.


(** ** What dispatch refuses *)

(** The address blocks of the platform itself, of its network and of nobody: every
    mode refuses the first, a development host the second outside itself, and a
    host that is neither that nor managed the third. *)
Definition never_reached (a : Z) : bool :=
  inside4 (v4 0 0 0 0) (v4 0 0 0 0) a || (a =? 0) ||
  inside4 (v4 169 254 0 0) (v4 169 254 255 255) a || inside4 (v4 224 0 0 0) (v4 224 0 0 255) a ||
  inside4 (v4 192 0 2 0) (v4 192 0 2 255) a || inside4 (v4 198 51 100 0) (v4 198 51 100 255) a ||
  inside4 (v4 203 0 113 0) (v4 203 0 113 255) a || inside4 (v4 100 64 0 0) (v4 100 127 255 255) a ||
  inside6 65152 65215 a || inside6 64512 64767 a.
Definition own_host (a : Z) : bool := inside4 (v4 127 0 0 0) (v4 127 255 255 255) a || (a =? 1).
Definition own_network (a : Z) : bool :=
  inside4 (v4 10 0 0 0) (v4 10 255 255 255) a || inside4 (v4 172 16 0 0) (v4 172 31 255 255) a ||
  inside4 (v4 192 168 0 0) (v4 192 168 255 255) a || inside6 64768 65023 a.
Definition multicast_v6 (a : Z) : bool :=
  bool_decide (To4 a = None) && (IsLinkLocalMulticast a || IsInterfaceLocalMulticast a).

Definition internal (e : ssrf_env) (a : Z) : bool :=
  never_reached a || (negb (devModeAllowsLoopback e) && own_host a) ||
  (negb (saasMode e || devModeAllowsLoopback e) && own_network a).

Lemma loopback_block a : is_ip a -> IsLoopback a = own_host a.
Proof.
  intros Ha. unfold IsLoopback, own_host. destruct (To4 a) as [x|] eqn:E; rewrite To4_block in E by done.
  - destruct (inside v4_block _ a) eqn:Ei; [|done]. injection E as <-.
    assert (Es := same_prefix_interval 32 8 (a - v4_block) (v4 127 0 0 0)). unfold same_prefix in Es.
    change (32 - 8) with 24 in Es. change (Z.shiftr (v4 127 0 0 0) 24) with 127 in Es.
    rewrite Es by (done || lia). unfold inside4, inside, of4 in *. change (v4 127 0 0 0) with 2130706432.
    change (v4 127 255 255 255) with 2147483647. change v4_block with 281470681743360 in *. lia.
  - destruct (inside v4_block _ a) eqn:Ei; [done|]. unfold inside4, inside, of4 in *. change (v4 127 0 0 0) with 2130706432.
    change (v4 127 255 255 255) with 2147483647. change v4_block with 281470681743360 in *. lia.
Qed.

Lemma inside4_v6 lo hi a : is_ip a -> To4 a = None -> 0 <= lo -> hi < 2 ^ 32 -> inside4 lo hi a = false.
Proof.
  intros Ha E Hl Hh. rewrite To4_block in E by done. destruct (inside v4_block _ a) eqn:Ei; [done|].
  unfold inside4, inside, of4 in *. change v4_block with 281470681743360 in *. lia.
Qed.
Lemma inside6_v4 g h a x : is_ip a -> To4 a = Some x -> 1 <= g -> inside6 g h a = false.
Proof.
  intros Ha E Hg. rewrite To4_block in E by done. destruct (inside v4_block _ a) eqn:Ei; [|done].
  unfold inside6, inside, v6_top in *. rewrite !Z.shiftl_mul_pow2 by lia. change v4_block with 281470681743360 in *. lia.
Qed.
Lemma Contains_none n a : To4 a = None -> c_v4 n = true -> Contains n a = false.
Proof. intros E Hn. unfold Contains. by rewrite E, Hn. Qed.

(** The network [base/bits] is the interval up to [hi]. *)
Ltac block4 Ha := refine (Contains_v4 _ _ _ Ha _ _ _ _); [lia|vm_compute; congruence|vm_compute; congruence|reflexivity].
Ltac block6 Ha := refine (Contains_v6 _ _ _ Ha _ _ _); [lia|reflexivity|vm_compute; first [left; congruence|right; congruence]].

Section Blocks.
Context (a : Z) (Ha : is_ip a).

Lemma b_meta : Contains metadataV4 a = inside4 (v4 169 254 0 0) (v4 169 254 255 255) a.
Proof. block4 Ha. Qed.
Lemma b_mc0 : Contains (net4 224 0 0 0 24) a = inside4 (v4 224 0 0 0) (v4 224 0 0 255) a.
Proof. block4 Ha. Qed.
Lemma b_mc : Contains (net4 224 0 0 0 4) a = inside4 (v4 224 0 0 0) (v4 239 255 255 255) a.
Proof. block4 Ha. Qed.
Lemma b_doc1 : Contains (net4 192 0 2 0 24) a = inside4 (v4 192 0 2 0) (v4 192 0 2 255) a.
Proof. block4 Ha. Qed.
Lemma b_doc2 : Contains (net4 198 51 100 0 24) a = inside4 (v4 198 51 100 0) (v4 198 51 100 255) a.
Proof. block4 Ha. Qed.
Lemma b_doc3 : Contains (net4 203 0 113 0 24) a = inside4 (v4 203 0 113 0) (v4 203 0 113 255) a.
Proof. block4 Ha. Qed.
Lemma b_cgnat : Contains cgnatV4 a = inside4 (v4 100 64 0 0) (v4 100 127 255 255) a.
Proof. block4 Ha. Qed.
Lemma b_priv1 : Contains (net4 10 0 0 0 8) a = inside4 (v4 10 0 0 0) (v4 10 255 255 255) a.
Proof. block4 Ha. Qed.
Lemma b_priv2 : Contains (net4 172 16 0 0 12) a = inside4 (v4 172 16 0 0) (v4 172 31 255 255) a.
Proof. block4 Ha. Qed.
Lemma b_priv3 : Contains (net4 192 168 0 0 16) a = inside4 (v4 192 168 0 0) (v4 192 168 255 255) a.
Proof. block4 Ha. Qed.
Lemma b_loop4 : Contains (net4 127 0 0 0 8) a = inside4 (v4 127 0 0 0) (v4 127 255 255 255) a.
Proof. block4 Ha. Qed.
Lemma b_loop6 : Contains (Cidr false 1 128) a = (a =? 1).
Proof.
  rewrite (Contains_v6 1 128 a Ha); [|lia|reflexivity|left; vm_compute; congruence].
  change (1 + 2 ^ (128 - 128) - 1) with 1. unfold inside. lia.
Qed.
Lemma b_ll6 : Contains (net6 65152 10) a = inside6 65152 65215 a.
Proof. block6 Ha. Qed.
Lemma b_fc : Contains (net6 64512 8) a = inside6 64512 64767 a.
Proof. block6 Ha. Qed.
Lemma b_fd : Contains fd00V6 a = inside6 64768 65023 a.
Proof. block6 Ha. Qed.
Lemma b_ula : Contains ulaV6 a = inside6 64512 64767 a || inside6 64768 65023 a.
Proof.
  assert (E : Contains ulaV6 a = inside6 64512 65023 a) by block6 Ha. rewrite E.
  unfold inside6, inside, v6_top. rewrite !Z.shiftl_mul_pow2 by lia. lia.
Qed.
Lemma fc_fd : inside6 64512 64767 a && inside6 64768 65023 a = false.
Proof. unfold inside6, inside, v6_top. rewrite !Z.shiftl_mul_pow2 by lia. lia. Qed.
Lemma b_unspec : inside4 (v4 0 0 0 0) (v4 0 0 0 0) a = (a =? v4_block).
Proof. unfold inside4, inside, of4. change (v4 0 0 0 0) with 0. rewrite Z.add_0_r. lia. Qed.
End Blocks.

Ltac or_ifs := repeat match goal with |- context [if ?b then true else ?c] => change (if b then true else c) with (b || c) end;
  repeat match goal with |- context [if ?b then ?c else false] => change (if b then c else false) with (b && c) end.

(** What dispatch refuses, exactly. *)
Lemma safe_ip_exact e a : is_ip a -> safe_ip e a = negb (internal e a || multicast_v6 a).
Proof.
  intros Ha. unfold safe_ip, isPrivateOrMetadataIP, internal, never_reached, own_network, multicast_v6, IsUnspecified.
  rewrite loopback_block by done. rewrite b_unspec by done. destruct (To4 a) as [x|] eqn:E.
  - unfold IsLinkLocalUnicast, IsLinkLocalMulticast. rewrite (interface_multicast_v4 _ _ Ha E), E. cbn [existsb docRangesV4 privateV4].
    change (net4 169 254 0 0 16) with metadataV4.
    rewrite !(inside6_v4 _ _ _ _ Ha E), b_meta, b_mc0, b_doc1, b_doc2, b_doc3, b_cgnat, b_priv1, b_priv2, b_priv3 by (done || lia).
    or_ifs. change (bool_decide (Some x = None)) with false. Btauto.btauto.
  - rewrite (link_local_v6 _ Ha E), !(inside4_v6 _ _ _ Ha E) by (vm_compute; congruence).
    rewrite b_ula, b_fd by done. assert (H := fc_fd a). or_ifs. change (bool_decide (@None Z = None)) with true.
    assert (Hz : (a =? v4_block) = false).
    { rewrite <- b_unspec. apply inside4_v6; [done|done|vm_compute; congruence|vm_compute; congruence]. }
    rewrite Hz. destruct (inside6 64512 64767 a), (inside6 64768 65023 a); try done; Btauto.btauto.
Qed.

(** ** Where registering and dispatching differ *)

Definition group_v4 (a : Z) : bool := inside4 (v4 224 0 0 0) (v4 239 255 255 255) a.
Definition documentation_v6 (a : Z) : bool := inside (Z.shiftl 536939960 96) (Z.shiftl 536939961 96 - 1) a.

Lemma b_doc6 a : is_ip a -> Contains doc_v6 a = documentation_v6 a.
Proof.
  intros Ha. unfold documentation_v6. replace (Z.shiftl 536939961 96 - 1) with (Z.shiftl 536939960 96 + 2 ^ (128 - 32) - 1) by reflexivity.
  refine (Contains_v6 _ _ _ Ha _ _ _); [lia|reflexivity|right; vm_compute; congruence].
Qed.

(** What registering refuses. *)
Definition refused_v4 (a : Z) : bool :=
  inside4 (v4 169 254 0 0) (v4 169 254 255 255) a || group_v4 a ||
  inside4 (v4 192 0 2 0) (v4 192 0 2 255) a || inside4 (v4 198 51 100 0) (v4 198 51 100 255) a ||
  inside4 (v4 203 0 113 0) (v4 203 0 113 255) a || inside4 (v4 100 64 0 0) (v4 100 127 255 255) a.
Definition refused_v6 (a : Z) : bool := inside6 65152 65215 a || inside6 64512 64767 a || documentation_v6 a.

Lemma checkIP_exact e a :
  is_ip a ->
  checkIP e a = negb (match To4 a with Some _ => refused_v4 a | None => refused_v6 a end ||
                      (negb (devModeAllowsLoopback e) && own_host a) || (negb (saasMode e) && own_network a)).
Proof.
  intros Ha. unfold checkIP, blockedRanges. rewrite !existsb_app. f_equal.
  assert (E1 : existsb (fun n => Contains n a) (if devModeAllowsLoopback e then [] else [net4 127 0 0 0 8; Cidr false 1 128]) =
               negb (devModeAllowsLoopback e) && own_host a).
  { unfold own_host. destruct (devModeAllowsLoopback e); [done|]. cbn [existsb].
    rewrite b_loop4, b_loop6 by done. cbn [negb]. by rewrite orb_false_r. }
  assert (E2 : existsb (fun n => Contains n a)
                 (if saasMode e then [] else [net4 10 0 0 0 8; net4 172 16 0 0 12; net4 192 168 0 0 16; net6 64768 8]) =
               negb (saasMode e) && own_network a).
  { unfold own_network. destruct (saasMode e); [done|]. cbn [existsb].
    rewrite b_priv1, b_priv2, b_priv3 by done. assert (H := b_fd a Ha). unfold fd00V6 in H. rewrite H.
    cbn [negb]. Btauto.btauto. }
  rewrite E1, E2, orb_assoc. do 2 f_equal. unfold always_blocked. cbn [existsb]. unfold refused_v4, group_v4, refused_v6.
  change (net4 100 64 0 0 10) with cgnatV4.
  rewrite b_ll6, b_fc, b_meta, b_mc, b_doc1, b_doc2, b_doc3, b_cgnat, b_doc6 by done.
  destruct (To4 a) as [x|] eqn:E.
  - rewrite !(inside6_v4 _ _ _ _ Ha E) by lia. unfold documentation_v6. rewrite <- b_doc6 by done.
    unfold Contains at 1. rewrite E. cbn. Btauto.btauto.
  - rewrite !(inside4_v6 _ _ _ Ha E) by (vm_compute; congruence). Btauto.btauto.
Qed.

Ltac apart :=
  unfold documentation_v6, inside4, inside6, inside, of4, v4, v6_top in *; repeat rewrite Z.shiftl_mul_pow2 in * by lia;
  change v4_block with 281470681743360 in *; lia.

Lemma registered_v4 e a x :
  is_ip a -> To4 a = Some x -> (a =? v4_block) = false ->
  checkIP e a && negb (safe_ip e a) = false /\
  negb (checkIP e a) && safe_ip e a =
    (group_v4 a && negb (inside4 (v4 224 0 0 0) (v4 224 0 0 255) a)) ||
    (devModeAllowsLoopback e && negb (saasMode e) && own_network a).
Proof.
  intros Ha E Hu. rewrite checkIP_exact, safe_ip_exact, E by done. unfold internal, never_reached, multicast_v6, refused_v4.
  rewrite E, b_unspec, Hu by done. change (bool_decide (Some x = None)) with false.
  rewrite !(inside6_v4 _ _ _ _ Ha E) by lia.
  assert (Hz : (a =? 0) = false).
  { rewrite To4_block in E by done. destruct (inside v4_block _ a) eqn:Ei; [|done]. apart. }
  rewrite Hz. unfold own_network. rewrite !(inside6_v4 _ _ _ _ Ha E) by lia.
  unfold own_host. destruct (group_v4 a) eqn:Eg; unfold group_v4 in *.
  - assert (inside4 (v4 169 254 0 0) (v4 169 254 255 255) a = false /\ inside4 (v4 192 0 2 0) (v4 192 0 2 255) a = false /\
            inside4 (v4 198 51 100 0) (v4 198 51 100 255) a = false /\ inside4 (v4 203 0 113 0) (v4 203 0 113 255) a = false /\
            inside4 (v4 100 64 0 0) (v4 100 127 255 255) a = false /\ inside4 (v4 127 0 0 0) (v4 127 255 255 255) a = false /\
            inside4 (v4 10 0 0 0) (v4 10 255 255 255) a = false /\ inside4 (v4 172 16 0 0) (v4 172 31 255 255) a = false /\
            inside4 (v4 192 168 0 0) (v4 192 168 255 255) a = false /\ (a =? 1) = false) as (-> & -> & -> & -> & -> & -> & -> & -> & -> & ->).
    { split_and!; apart. }
    split; Btauto.btauto.
  - assert (inside4 (v4 224 0 0 0) (v4 224 0 0 255) a = false) as -> by apart.
    destruct (inside4 (v4 10 0 0 0) (v4 10 255 255 255) a || inside4 (v4 172 16 0 0) (v4 172 31 255 255) a ||
              inside4 (v4 192 168 0 0) (v4 192 168 255 255) a) eqn:Ep.
    + assert (inside4 (v4 169 254 0 0) (v4 169 254 255 255) a = false /\ inside4 (v4 192 0 2 0) (v4 192 0 2 255) a = false /\
            inside4 (v4 198 51 100 0) (v4 198 51 100 255) a = false /\ inside4 (v4 203 0 113 0) (v4 203 0 113 255) a = false /\
            inside4 (v4 100 64 0 0) (v4 100 127 255 255) a = false /\ inside4 (v4 127 0 0 0) (v4 127 255 255 255) a = false /\
            (a =? 1) = false) as (-> & -> & -> & -> & -> & -> & ->).
      { split_and!; apart. }
      rewrite ?Ep. split; destruct (devModeAllowsLoopback e), (saasMode e); reflexivity.
    + split; destruct (devModeAllowsLoopback e), (saasMode e); cbn; rewrite ?andb_false_r, ?orb_false_r; Btauto.btauto.
Qed.

Lemma registered_v6 e a :
  is_ip a -> To4 a = None ->
  checkIP e a && negb (safe_ip e a) = (a =? 0) || multicast_v6 a /\
  negb (checkIP e a) && safe_ip e a =
    documentation_v6 a || (devModeAllowsLoopback e && negb (saasMode e) && own_network a).
Proof.
  intros Ha E. rewrite checkIP_exact, safe_ip_exact, E by done. unfold internal, never_reached, refused_v6, own_host, own_network.
  rewrite !(inside4_v6 _ _ _ Ha E) by (vm_compute; congruence).
  destruct (a =? 0) eqn:E0.
  { apply Z.eqb_eq in E0 as ->. unfold multicast_v6. cbn. by destruct (devModeAllowsLoopback e), (saasMode e). }
  destruct (multicast_v6 a) eqn:Em.
  - unfold multicast_v6 in Em. apply andb_true_iff in Em as [_ Em]. apply local_multicast_high in Em; [|done..].
    assert (inside6 65152 65215 a = false /\ inside6 64512 64767 a = false /\ inside6 64768 65023 a = false /\
            documentation_v6 a = false /\ (a =? 1) = false) as (-> & -> & -> & -> & ->) by (split_and!; apart).
    split; destruct (devModeAllowsLoopback e), (saasMode e); reflexivity.
  - destruct (documentation_v6 a) eqn:Ed.
    { assert (inside6 65152 65215 a = false /\ inside6 64512 64767 a = false /\ inside6 64768 65023 a = false /\
              (a =? 1) = false) as (-> & -> & -> & ->) by (split_and!; apart).
      split; destruct (devModeAllowsLoopback e), (saasMode e); reflexivity. }
    destruct (inside6 64768 65023 a) eqn:Ef.
    { assert (inside6 65152 65215 a = false /\ inside6 64512 64767 a = false /\ (a =? 1) = false) as (-> & -> & ->)
        by (split_and!; apart).
      split; destruct (devModeAllowsLoopback e), (saasMode e); reflexivity. }
    split; destruct (devModeAllowsLoopback e), (saasMode e); cbn; rewrite ?andb_false_r, ?orb_false_r; Btauto.btauto.
Qed.

(** the address check of a registration and that of a dispatch differ on these
    addresses and on no others.  Registered and then refused by every dispatch: the
    unspecified addresses and the IPv6 multicast groups of a link or an interface.
    Refused at registration and fit for dispatch: the other IPv4 multicast groups, the
    IPv6 documentation block, and on a development host that is not managed its own
    private network. *)
Theorem validators_disagree_exactly e a :
  is_ip a ->
  (checkIP e a = true /\ safe_ip e a = false <-> IsUnspecified a = true \/ multicast_v6 a = true) /\
  (checkIP e a = false /\ safe_ip e a = true <->
     (group_v4 a = true /\ inside4 (v4 224 0 0 0) (v4 224 0 0 255) a = false) \/ documentation_v6 a = true \/
     (devModeAllowsLoopback e = true /\ saasMode e = false /\ own_network a = true)).
Proof.
  intros Ha.
  assert (Hb : checkIP e a && negb (safe_ip e a) = IsUnspecified a || multicast_v6 a /\
               negb (checkIP e a) && safe_ip e a =
                 (group_v4 a && negb (inside4 (v4 224 0 0 0) (v4 224 0 0 255) a)) || documentation_v6 a ||
                 (devModeAllowsLoopback e && negb (saasMode e) && own_network a)).
  { unfold IsUnspecified. destruct (To4 a) as [x|] eqn:E.
    - assert (Hm : multicast_v6 a = false) by (unfold multicast_v6; by rewrite E).
      assert (Hd : documentation_v6 a = false) by (rewrite <- b_doc6 by done; unfold Contains; by rewrite E).
      rewrite Hm, Hd. destruct (a =? v4_block) eqn:Eu.
      + apply Z.eqb_eq in Eu as ->. rewrite checkIP_exact, safe_ip_exact by done.
        split; destruct (devModeAllowsLoopback e) eqn:E1, (saasMode e) eqn:E2; unfold internal; rewrite E1, E2; reflexivity.
      + destruct (registered_v4 e a x Ha E Eu) as [-> ->]. rewrite !orb_false_r. split; [|done].
        rewrite To4_block in E by done. destruct (inside v4_block _ a) eqn:Ei; [|done]. apart.
    - destruct (registered_v6 e a Ha E) as [-> ->]. rewrite <- b_unspec by done. unfold group_v4.
      rewrite !(inside4_v6 _ _ _ Ha E) by (vm_compute; congruence). done. }
  destruct Hb as [H1 H2]. split.
  - rewrite <- orb_true_iff, <- H1, andb_true_iff, negb_true_iff. tauto.
  - assert (Hg : group_v4 a = true /\ inside4 (v4 224 0 0 0) (v4 224 0 0 255) a = false <->
                 group_v4 a && negb (inside4 (v4 224 0 0 0) (v4 224 0 0 255) a) = true)
      by by rewrite andb_true_iff, negb_true_iff.
    assert (Hd : devModeAllowsLoopback e = true /\ saasMode e = false /\ own_network a = true <->
                 devModeAllowsLoopback e && negb (saasMode e) && own_network a = true)
      by (rewrite !andb_true_iff, negb_true_iff; tauto).
    rewrite Hg, Hd. transitivity (negb (checkIP e a) && safe_ip e a = true); [rewrite andb_true_iff, negb_true_iff; tauto|].
    rewrite H2, !orb_true_iff. tauto.
Qed.

(** The witness: an address anybody may announce and nobody can reach. *)
Definition production : ssrf_env := SsrfEnv "" "" "production" "".

Lemma validators_disagree_exactly_witness :
  is_ip (of4 (v4 0 0 0 0)) /\
  checkIP production (of4 (v4 0 0 0 0)) = true /\ safe_ip production (of4 (v4 0 0 0 0)) = false.
Proof.
  assert (Ha : is_ip (of4 (v4 0 0 0 0))) by (vm_compute; intuition congruence). split; [done|].
  apply (validators_disagree_exactly production _ Ha). by left.
Defined.

(** ** Parsed addresses are addresses *)

Lemma octet_range s n : octet s = Some n -> 0 <= n <= 255.
Proof.
  unfold octet. destruct (digits s) as [m|] eqn:E; [|done]. destruct (_ && (m <=? 255)) eqn:Eb; [|done]. intros [= <-].
  apply andb_true_iff in Eb as [_ Eb]. apply Z.leb_le in Eb. split; [|done].
  unfold digits in E. destruct (decide _); [done|]. by apply digits_from_nonneg in E.
Qed.

Lemma parse_v4_range s x : parse_v4 s = Some x -> 0 <= x < 2 ^ 32.
Proof.
  unfold parse_v4. destruct (cut _ s) as [a [s1|]]; [|done]. destruct (cut _ s1) as [b [s2|]]; [|done].
  destruct (cut _ s2) as [c [d|]]; [|done]. destruct (octet a) as [a'|] eqn:Ea; [|done].
  destruct (octet b) as [b'|] eqn:Eb; [|done]. destruct (octet c) as [c'|] eqn:Ec; [|done].
  destruct (octet d) as [d'|] eqn:Ed; [|done]. intros [= <-].
  apply octet_range in Ea, Eb, Ec, Ed. unfold v4. lia.
Qed.

Lemma hex_value_range c v : hex_value c = Some v -> 0 <= v < 16.
Proof. unfold hex_value. repeat (destruct (_ && _) eqn:E; [intros [= <-]; lia|clear E]). done. Qed.

Lemma hex_run_range s : forall acc off v off' rest,
  hex_run acc off s = (v, off', rest) -> 0 <= acc < 16 ^ Z.of_nat off ->
  0 <= v < 16 ^ Z.of_nat off' /\ (off <= off')%nat.
Proof.
  induction s as [|c s IH]; intros acc off v off' rest; cbn; [intros [= <- <- <-] Ha; split; [done|lia]|].
  destruct (hex_value c) as [d|] eqn:E; [|intros [= <- <- <-] Ha; split; [done|lia]].
  intros Hr Ha. apply hex_value_range in E. apply IH in Hr as [Hv Ho].
  - split; [done|lia].
  - rewrite Nat2Z.inj_succ, Z.pow_succ_r by lia. lia.
Qed.

Definition group (g : Z) : Prop := 0 <= g < 65536.

Lemma group_run s v off rest : hex_run 0 0 s = (v, off, rest) -> (off <= 4)%nat -> group v.
Proof.
  intros Hr Ho. apply hex_run_range in Hr as [Hv _]; [|done]. unfold group.
  assert (16 ^ Z.of_nat off <= 16 ^ 4) by (apply Z.pow_le_mono_r; lia). lia.
Qed.

Lemma groups_loop_range fuel s gs ell gs' ell' :
  groups_loop fuel s gs ell = Some (gs', ell') -> Forall group gs -> Forall group gs'.
Proof.
  revert s gs ell. induction fuel as [|fuel IH]; intros s gs ell; cbn [groups_loop].
  { case_decide; [|done]. by intros [= <- <-]. }
  destruct (hex_run 0 0 s) as [[v off] rest] eqn:Er. destruct ((off =? 0) || (4 <? off))%nat eqn:Eo; [done|].
  assert (Hv : group v) by (apply orb_false_iff in Eo as [_ Eo]; apply Nat.ltb_ge in Eo; by eapply group_run).
  intros Hl Hgs. assert (Hg : Forall group (gs ++ [v])) by (apply Forall_app; split; [done|by constructor]).
  revert Hl. destruct rest as [|c rest']; [by intros [= <- <-]|]. case_decide.
  - destruct (_ && _); [done|]. destruct (6 <? length gs)%nat; [done|]. destruct (parse_v4 s) as [x|] eqn:Ex; [|done].
    intros [= <- <-]. apply parse_v4_range in Ex. apply Forall_app. split; [done|]. unfold group.
    repeat constructor.
    + apply Z.shiftr_nonneg. lia.
    + rewrite Z.shiftr_div_pow2 by lia. apply Z.div_lt_upper_bound; lia.
    + apply Z.land_nonneg. lia.
    + change 65535 with (Z.ones 16). rewrite Z.land_ones by lia. apply Z.mod_pos_bound. lia.
  - case_decide; [|done]. destruct rest' as [|c' rest'']; [done|]. case_decide; [|by intros Hl; eapply IH].
    destruct (bool_decide _); [done|]. case_decide; [by intros [= <- <-]|by intros Hl; eapply IH].
Qed.

Lemma join_groups_range gs acc n :
  Forall group gs -> 0 <= acc < 65536 ^ n -> 0 <= n ->
  0 <= fold_left (fun acc g => 65536 * acc + g) gs acc < 65536 ^ (n + Z.of_nat (length gs)).
Proof.
  intros Hg. revert acc n. induction Hg as [|g gs Hg Hgs IH]; intros acc n Ha Hn; cbn [fold_left length].
  - by rewrite Z.add_0_r.
  - replace (n + Z.of_nat (S (length gs))) with (n + 1 + Z.of_nat (length gs)) by lia.
    apply IH; [|lia]. unfold group in Hg. rewrite Z.pow_add_r, Z.pow_1_r by lia. lia.
Qed.

Lemma join_eight gs : Forall group gs -> length gs = 8%nat -> is_ip (join_groups gs).
Proof.
  intros Hg Hl. unfold is_ip, join_groups. assert (H := join_groups_range gs 0 0 Hg). rewrite Hl in H.
  change (2 ^ 128) with (65536 ^ (0 + Z.of_nat 8)). apply H; lia.
Qed.

Lemma groups_loop_length fuel s gs ell gs' k :
  groups_loop fuel s gs ell = Some (gs', Some k) -> (forall j, ell = Some j -> j <= length gs)%nat -> (k <= length gs')%nat.
Proof.
  revert s gs ell. induction fuel as [|fuel IH]; intros s gs ell; cbn [groups_loop].
  { case_decide; [|done]. intros [= <- ->] Hk. by apply Hk. }
  destruct (hex_run 0 0 s) as [[v off] rest]. destruct (_ || _)%nat; [done|]. intros Hl Hk.
  assert (Hk' : forall j, ell = Some j -> (j <= length (gs ++ [v]))%nat).
  { intros j Hj. rewrite length_app. apply Hk in Hj. lia. }
  revert Hl. destruct rest as [|c rest']; [intros [= <- ->]; by apply Hk'|]. case_decide.
  - destruct (_ && _); [done|]. destruct (6 <? length gs)%nat; [done|]. destruct (parse_v4 s) as [x|]; [|done].
    intros [= <- ->]. rewrite length_app. specialize (Hk k eq_refl). lia.
  - case_decide; [|done]. destruct rest' as [|c' rest'']; [done|]. case_decide; [|by intros Hl; eapply IH].
    destruct (bool_decide _); [done|].
    assert (Hs : forall j, Some (S (length gs)) = Some j -> (j <= length (gs ++ [v]))%nat).
    { intros j [= <-]. rewrite length_app. cbn. lia. }
    case_decide; [intros [= <- <-]; by apply Hs|by intros Hl; eapply IH].
Qed.

Lemma parse_v6_ip s a : parse_v6 s = Some a -> is_ip a.
Proof.
  unfold parse_v6.
  set (r := if has_prefix s "::" then _ else _).
  assert (Hr : forall gs ell, r = Some (gs, ell) -> Forall group gs /\ (forall k, ell = Some k -> (k <= length gs)%nat)).
  { intros gs ell. unfold r. destruct (has_prefix s "::"); [case_decide|].
    - intros [= <- <-]. split; [done|]. by intros k [= <-].
    - intros Hl. split; [by eapply groups_loop_range|]. intros k ->. eapply groups_loop_length; [done|]. by intros j [= <-].
    - intros Hl. split; [by eapply groups_loop_range|]. intros k ->. by eapply groups_loop_length. }
  clearbody r. destruct r as [[gs ell]|]; [|done]. destruct (Hr _ _ eq_refl) as [Hg Hk]. destruct ell as [k|].
  - specialize (Hk k eq_refl). destruct (_ <? 8)%nat eqn:E; [|done]. apply Nat.ltb_lt in E. intros [= <-]. apply join_eight.
    + rewrite <- (take_drop k gs) in Hg. apply Forall_app in Hg as [H1 H2]. repeat (apply Forall_app; split); try done.
      apply Forall_replicate. unfold group. lia.
    + rewrite !length_app, length_take, length_drop, length_replicate. lia.
  - destruct (_ =? 8)%nat eqn:E; [|done]. apply Nat.eqb_eq in E. intros [= <-]. by apply join_eight.
Qed.

Lemma ParseAddr_ip s a zone : ParseAddr s = Some (a, zone) -> is_ip a.
Proof.
  unfold ParseAddr. destruct (first_mark s); [|done]. case_decide.
  - destruct (parse_v4 s) as [x|] eqn:E; [|done]. intros [= <- <-]. apply parse_v4_range in E.
    unfold is_ip, of4. change v4_block with 281470681743360. lia.
  - case_decide; [|done]. destruct (cut _ s) as [h [z|]]; [case_decide; [done|]|];
      destruct (parse_v6 h) as [b|] eqn:E; try done; intros [= <- <-]; by apply parse_v6_ip in E.
Qed.

(** ** Connections stay outside *)

Section FrontDoor.
Context (url_parse : string -> option (string * string)).

(** C17: whatever the front door let through and whatever names resolve to since, the
    dialer connects to no address of the host itself, of its network (those of a
    managed or development host apart), of the metadata service, of documentation or
    of nobody, with or without a zone. *)
Theorem connections_stay_outside e dns host a zone :
  safeDialControl e dns host = true -> ParseAddr host = Some (a, zone) ->
  internal e a = false /\ multicast_v6 a = false.
Proof.
  intros Hc Hp. assert (Ha := ParseAddr_ip _ _ _ Hp).
  assert (Hs : safe_ip e a = true).
  { unfold safeDialControl, ParseIP, lookup_host in Hc. rewrite Hp in Hc. destruct (decide (zone = "")); [done|].
    cbn in Hc. by rewrite andb_true_r in Hc. }
  rewrite safe_ip_exact in Hs by done. by apply negb_true_iff, orb_false_iff in Hs.
Qed.

(** The front door looks at every address that carries no zone. *)
Lemma front_door e dns url scheme host :
  isSafeURL url_parse e dns url = true -> url_parse url = Some (scheme, host) ->
  exists addrs, lookup_host dns host = Some addrs /\ addrs <> [] /\
    forall a, (a, "") ∈ addrs -> is_ip a -> internal e a = false /\ multicast_v6 a = false.
Proof.
  unfold isSafeURL. intros Hs Hu. rewrite Hu in Hs. case_decide; [done|]. case_decide; [done|].
  assert (Hi : forall a, is_ip a -> safe_ip e a = true -> internal e a = false /\ multicast_v6 a = false).
  { intros a Ha Hsafe. rewrite safe_ip_exact in Hsafe by done. by apply negb_true_iff, orb_false_iff in Hsafe. }
  unfold ParseIP in Hs. destruct (ParseAddr host) as [[a zone]|] eqn:Ep; unfold lookup_host in *; rewrite Ep in *.
  - exists [(a, zone)]. split_and!; try done. intros b Hb Hip. apply list_elem_of_singleton in Hb as [= -> <-].
    rewrite decide_True in Hs by done. auto.
  - destruct (dns host) as [[|az addrs]|]; try done. exists (az :: addrs). split_and!; try done.
    intros b Hb Hip. rewrite forallb_forall in Hs. specialize (Hs (b, "")). apply list_elem_of_In in Hb.
    apply Hs in Hb. cbn in Hb. auto.
Qed.
End FrontDoor.

Definition no_dns (_ : string) : option (list (Z * string)) := None.

Lemma connections_stay_outside_witness :
  safeDialControl production no_dns "8.8.8.8" = true /\ internal production (of4 (v4 8 8 8 8)) = false.
Proof.
  assert (Hc : safeDialControl production no_dns "8.8.8.8" = true) by reflexivity. split; [done|].
  exact (proj1 (connections_stay_outside production no_dns "8.8.8.8" _ "" Hc eq_refl)).
Defined.

(** ** Where the two gates part *)

(** An IPv6 literal with a zone is not what [net.ParseIP] reads, so the front door
    skips it; the dialer refuses it. *)
Definition zoned_loopback (_ : string) : option (string * string) := Some ("http", "::1%lo").

Example zoned_loopback_passes_the_front_door :
  isSafeURL zoned_loopback production no_dns "http://[::1%25lo]:8080/" = true /\
  safeDialControl production no_dns "::1%lo" = false /\
  validateAgentURL zoned_loopback production no_dns "http://[::1%25lo]:8080/" = false.
Proof. by split_and!. Qed.

(** The unspecified address registers, and every dispatch to it is refused. *)
Definition unspecified_url (_ : string) : option (string * string) := Some ("http", "0.0.0.0").

Example unspecified_address_registers :
  validateAgentURL unspecified_url production no_dns "http://0.0.0.0:8000" = true /\
  isSafeURL unspecified_url production no_dns "http://0.0.0.0:8000" = false.
Proof. by split. Qed.

(** On a development host the address of a container may be dispatched to, and may
    not register. *)
Definition development : ssrf_env := SsrfEnv "" "" "development" "".
Definition bridge_url (_ : string) : option (string * string) := Some ("http", "172.18.0.5").

Example bridge_address_cannot_register :
  isSafeURL bridge_url development no_dns "http://172.18.0.5:8000" = true /\
  validateAgentURL bridge_url development no_dns "http://172.18.0.5:8000" = false.
Proof. by split. Qed.

(** A dispatch to an external agent carries the secret or does not happen. *)
Lemma external_dispatch_carries_the_secret parse e ws url read always :
  isExternalAgentURL parse e ws url = true ->
  resolveA2AInboundSecret parse e ws url read always = inr 503 \/
  exists secret, read = Some (secret, false) /\ resolveA2AInboundSecret parse e ws url read always = inl secret.
Proof.
  intros He. unfold resolveA2AInboundSecret. rewrite He. destruct read as [[secret []]|]; [by left| |by left].
  right. by exists secret.
Qed.
