(* ===== verification/Register.v ===== *)
(** * Registration

    internal/handlers/registry.go: Register and UpdateCard, with the checks they
    call.  The URL checks are those of Ssrf, the card's reconciliation that of
    AgentCard, the statements run in the monad of WorkspaceRow. *)

From Stdlib Require Import QArith.
From S2P Require Import Prelude Tree Json Tokens Budget McpSurface RuntimeOverrides WorkspaceRow Heartbeat AgentCard Ssrf.
#[local] Open Scope Z_scope.
#[local] Open Scope beat_scope.

(** ** The payload *)

Record RegisterPayload := RegPayload {
  rp_ID : string; rp_URL : string; rp_AgentCard : json; rp_DeliveryMode : string; rp_Kind : string;
  rp_MCPServerPresent : option bool
}.

Definition IsValidDeliveryMode (s : string) : bool := bool_decide (s = "push" \/ s = "poll").
Definition IsValidKind (s : string) : bool := bool_decide (s = "workspace" \/ s = "platform").
Definition isExternalLikeRuntime (runtime : string) : bool := bool_decide (runtime ∈ ["external"; "kimi"; "kimi-cli"]).

(** The two checks that come before anything is read; [true] is a refusal. *)
Definition malformed (p : RegisterPayload) : bool :=
  (negb (bool_decide (rp_DeliveryMode p = "")) && negb (IsValidDeliveryMode (rp_DeliveryMode p))) ||
  (negb (bool_decide (rp_Kind p = "")) && negb (IsValidKind (rp_Kind p))).

(** What the handler finds outside the row: the URL checks, the reconciliation of a
    card with the name and role on record, and whether the constraints on platform
    rows forbid this one to be a platform. *)
Record reg_env := RegEnv {
  r_safe : string -> bool;                 (* isSafeURL *)
  r_valid : string -> bool;                (* validateAgentURL *)
  r_card_url : json -> string;             (* agentCardURL *)
  r_reconcile : json -> string -> string -> string -> json * bool;
  r_conflict : bool
}.

Definition real_reg_env url_parse in_range float64 (s : ssrf_env) dns (conflict : bool) : reg_env :=
  RegEnv (isSafeURL url_parse s dns) (validateAgentURL url_parse s dns) (agentCardURL in_range float64)
    (reconcileAgentCardIdentity in_range float64) conflict.

Section Register.
Context (e : benv) (r : reg_env).

(** ** The steps *)

(** The kind on record, empty when there is none or the read failed. *)
Definition fetchExistingWorkspaceStateForDiagnostics (p : RegisterPayload) : M string :=
  if decide (rp_ID p = "") then ret ""
  else o <-- read e ;; ret (match o with Some (Some w) => h_kind w | _ => "" end).

(** Only the install path makes a platform agent. *)
Definition kind_precheck (p : RegisterPayload) : M (option Z) :=
  if negb (bool_decide (rp_Kind p = "platform")) then ret None
  else o <-- read e ;;
       ret (match o with
            | None => Some 500
            | Some None => Some 403
            | Some (Some w) => if decide (h_kind w = "platform") then None else Some 403
            end).

Definition mode_on_record (w : hrow) : string :=
  match delivery_mode (h_ident w) ≫= nullif_empty with
  | Some m => m
  | None => if some_and (i_runtime (h_ident w)) isExternalLikeRuntime then "poll" else "push"
  end.

(** [None] is an error. *)
Definition resolveDeliveryMode (payloadMode : string) : M (option string) :=
  if negb (bool_decide (payloadMode = "")) then ret (Some payloadMode)
  else o <-- read e ;;
       ret (match o with None => None | Some None => Some "push" | Some (Some w) => Some (mode_on_record w) end).

Definition reg_model_missing := "platform agent registered without a seeded MODEL secret; refusing online".
Definition reg_mcp_missing :=
  "platform agent registered without its management MCP server (mcp_server_present=false); refusing online".

(** The identity gate; [existing] is the kind the diagnostics read found. *)
Definition identity_gate (p : RegisterPayload) (existing : string) : M (option Z) :=
  if bool_decide (rp_Kind p = "platform") || bool_decide (existing = "platform") then
    m <-- platformAgentHasModelSecret e ;;
    match m with
    | None => ret (Some 500)
    | Some hasModel =>
        if negb hasModel then markWorkspaceFailed e reg_model_missing "model_missing" ;;; ret (Some 400)
        else if negb (platformAgentMCPServerPresent (rp_MCPServerPresent p)) then
          fireReconcileMCPRecovery e ;;; markWorkspaceFailed e reg_mcp_missing "mcp_server_missing" ;;; ret (Some 400)
        else ret None
    end
  else ret None.

(** The URL to store, [None] for a refusal. *)
Definition effective_url (p : RegisterPayload) (mode : string) : option string :=
  if negb (bool_decide (mode = "push")) then Some (rp_URL p)
  else let card := r_card_url r (rp_AgentCard p) in
       if negb (bool_decide (card = "")) && negb (r_safe r card) then None
       else let url := if decide (rp_URL p = "") then card else rp_URL p in
            if decide (url = "") then None
            else if r_valid r url then Some url else None.

Definition reconciled_card (p : RegisterPayload) : M json :=
  o <-- read e ;;
  ret (match o with
       | Some (Some w) =>
           fst (r_reconcile r (rp_AgentCard p) (rp_ID p) (default "" (i_name (h_ident w))) (default "" (i_role (h_ident w))))
       | _ => rp_AgentCard p
       end).

(** The status before the upsert, read only where somebody will use it. *)
Definition status_before : M string :=
  if e_reconcile e || e_greeter e then
    o <-- read e ;; ret (match o with Some (Some w) => h_status w | _ => "" end)
  else ret "".

(** *** The upsert *)

(** The columns a statement that names only some of them leaves to their defaults. *)
Definition inserted_row (p : RegisterPayload) (mode : string) (url : option string) (card : json) : hrow :=
  let kind := default "workspace" (nullif_empty (rp_Kind p)) in
  HRow (if decide (kind = "platform") then "provisioning" else "online")
    (Identity (Some (rp_ID p)) None (Some card) url (Some mode) (Some "hermes") kind)
    (Vitals 0 0 0 None 0 false) "" None None (Some (e_now e)) (e_now e) 1 None None 0 0 None.

Definition parked (w : hrow) : bool := bool_decide (h_status w ∈ ["removed"; "paused"; "hibernated"]).

Definition upserted_row (p : RegisterPayload) (mode : string) (url : option string) (card : json) (keep : bool) (w : hrow) : hrow :=
  let i := h_ident w in
  let kind := default (h_kind w) (nullif_empty (rp_Kind p)) in
  let i' := Identity (i_name i) (i_role i) (Some card) (if keep then i_url i else url) (Some mode) (i_runtime i) kind in
  touch (e_now e) (with_heartbeat (e_now e) (with_ident i'
    (if decide (h_kind w = "platform") then w else with_status "online" w))).

Inductive upsert_result := UpOk | UpViolation | UpErr.

(** A constraint that the new kind breaks, and a cast that overflows, undo the
    statement. *)
Definition upsert (p : RegisterPayload) (mode : string) (url : option string) (card : json) : M upsert_result :=
  u <-- statement e (fun o =>
    match o with
    | None =>
        let w := inserted_row p mode url card in
        if r_conflict r && bool_decide (h_kind w = "platform") then (None, UpViolation, [])
        else (Some w, UpOk, [Wrote (h_kind w) "" (h_status w)])
    | Some w =>
        if parked w then (o, UpOk, [])
        else match keeps_stored_url (i_url (h_ident w)) with
             | None => (o, UpErr, [])
             | Some keep =>
                 let w' := upserted_row p mode url card keep w in
                 if r_conflict r && bool_decide (h_kind w' = "platform") && negb (bool_decide (h_kind w = "platform"))
                 then (o, UpViolation, [])
                 else (Some w', UpOk, wrote w w')
             end
    end) ;;
  ret (default UpErr u).

(** *** After it *)

Definition cache_urls (p : RegisterPayload) (url : string) : M unit :=
  o <-- read e ;;
  let cached := match o with
                | Some (Some w) => let stored := default "" (i_url (h_ident w)) in
                                   if isProvisionerHostPortURL stored then stored else url
                | _ => url
                end in
  when (negb (bool_decide (cached = ""))) (emit (CacheURL cached)) ;;;
  when (negb (bool_decide (rp_URL p = ""))) (emit (CacheInternalURL (rp_URL p))).

Definition announce (prevStatus : string) : M unit :=
  o <-- read e ;;
  let hold := match o with
              | Some (Some w) => holdOnlineBroadcastForWarmingPlatform (h_kind w) (h_status w)
              | _ => false
              end in
  unless hold tt
    (emit (BroadcastOnline None) ;;;
     when (bool_decide (prevStatus = "provisioning")) (fireFirstBootGreeting e 0)).

(** From the token check to the announcement: the mode, or the refusal. *)
Definition admitted (p : RegisterPayload) (existing : string) : M (string + Z) :=
  c <-- kind_precheck p ;;
  match c with
  | Some code => ret (inr code)
  | None =>
      m <-- resolveDeliveryMode (rp_DeliveryMode p) ;;
      match m with
      | None => ret (inr 500)
      | Some mode =>
          g <-- identity_gate p existing ;;
          match g with
          | Some code => ret (inr code)
          | None =>
              match effective_url p mode with
              | None => ret (inr 400)
              | Some url =>
                  card <-- reconciled_card p ;;
                  prev <-- status_before ;;
                  u <-- upsert p mode (nullif_empty url) card ;;
                  match u with
                  | UpViolation => ret (inr 409)
                  | UpErr => ret (inr 500)
                  | UpOk =>
                      emit SetOnline ;;;
                      when (bool_decide (prev = "provisioning")) (fireReconcileOnline e) ;;;
                      cache_urls p url ;;;
                      announce prev ;;;
                      ret (inl mode)
                  end
              end
          end
      end
  end.

Definition stamp_failure : M unit := exec_ e (fun _ => true) (with_register_failure (Some (e_now e))).
Definition clear_failure : M unit := exec_ e (fun _ => true) (with_register_failure None).

(** The end of a registration: the inbound secret and the failure stamp. *)
Definition settle_registration : M (option string) :=
  secret <-- readOrLazyHealInboundSecret e ;; clear_failure ;;; ret secret.
End Register.

(** ** The request *)

Inductive reg_reply := RegOk (mode : string) (token secret : option string) | RegErr (code : Z).

(** What the token statements at the end meet: others first, then the check and the
    issue, each of which may fail. *)
Record issue_env := IssueEnv {
  ie_race : token_db -> token_db; ie_live_fails : bool; ie_issue_fails : bool; ie_plaintext : option string; ie_gen : string
}.

Definition first_token `{UuidCast} (sha256 : string -> string) (i : issue_env) (now : time) (ws : string) (db : token_db)
    : token_db * option string :=
  let db := ie_race i db in
  match HasLiveInstanceToken (ie_live_fails i) ws db with
  | Some false => IssueToken sha256 (ie_issue_fails i) (ie_plaintext i) (ie_gen i) now ws db
  | _ => (db, None)
  end.

(** [None] is a body that does not bind.  A refusal after the token check stamps the
    row. *)
Definition Register `{UuidCast} (sha256 : string -> string) (e : benv) (r : reg_env) (failClosed : bool) (a : auth_env)
    (i : issue_env) (header : string) (body : option RegisterPayload) (db : token_db) (s : hst) : token_db * hst * reg_reply :=
  match body with
  | None => (db, s, RegErr 400)
  | Some p =>
      if bool_decide (rp_ID p = "") || malformed p then (db, s, RegErr 400)
      else let '(s, existing) := fetchExistingWorkspaceStateForDiagnostics e p s in
           match requireWorkspaceToken sha256 failClosed a (e_now e) (rp_ID p) header db with
           | (db, Some code) => (db, s, RegErr code)
           | (db, None) =>
               match admitted e r p existing s with
               | (s, inr code) => let '(s, _) := stamp_failure e s in (db, s, RegErr code)
               | (s, inl mode) =>
                   let '(db, token) := first_token sha256 i (e_now e) (rp_ID p) db in
                   let '(s, secret) := settle_registration e s in
                   (db, s, RegOk mode token secret)
               end
           end
  end.

(** ** UpdateCard *)

(** The card's [url] when it decodes into the struct; no condition on the status. *)
Definition UpdateCard `{UuidCast} (sha256 : string -> string) (e : benv) (r : reg_env) (failClosed : bool) (a : auth_env)
    (header : string) (body : option (string * json)) (db : token_db) (s : hst) : token_db * hst * option Z :=
  match body with
  | None => (db, s, Some 400)
  | Some (ws, card) =>
      if decide (ws = "") then (db, s, Some 400)
      else match requireWorkspaceToken sha256 failClosed a (e_now e) ws header db with
           | (db, Some code) => (db, s, Some code)
           | (db, None) =>
               let '(url, bad) := get_string ["url"] card in
               if negb bad && negb (bool_decide (url = "")) && negb (r_safe r url) then (db, s, Some 400)
               else match exec e (fun _ => true) (fun w => touch (e_now e) (with_card card w)) s with
                    | (s, None) => (db, s, Some 500)
                    | (s, Some _) => let '(s, _) := emit (Announced "AGENT_CARD_UPDATED") s in (db, s, None)
                    end
           end
  end.
