(* ===== verification/RegisterSafety.v ===== *)
(** * What a registration may do to a row

    Its status writes under any failures and any other writers, the kind it leaves,
    and the row an undisturbed one ends in. *)

From Stdlib Require Import QArith.
From S2P Require Import Prelude Tree Tokens Budget McpSurface RuntimeOverrides WorkspaceRow Heartbeat HeartbeatSafety AgentCard Register.
#[local] Open Scope Z_scope.
#[local] Open Scope beat_scope.

(** ** The moves *)

Section Moves.
Context (e : benv) (r : reg_env).

(** The row is a gap ([before] is empty) or not parked; [concierge]: the identity
    gate is for this workspace. *)
Definition reg_move (concierge : Prop) (p : RegisterPayload) (o : hout) : Prop :=
  match o with
  | Wrote kind before after =>
      (after = "online" /\ kind <> "platform" /\ before <> "removed" /\ before <> "paused" /\ before <> "hibernated") \/
      (after = "provisioning" /\ kind = "platform" /\ before = "" /\ rp_Kind p = "platform") \/
      (after = "failed" /\ concierge /\ (e_model e = false \/ rp_MCPServerPresent p = Some false))
  | _ => True
  end.

Lemma reg_aside c p : forall o, match o with Wrote _ _ _ => True | _ => reg_move c p o end.
Proof. by intros []. Qed.

Lemma not_parked w : parked w = false -> h_status w <> "removed" /\ h_status w <> "paused" /\ h_status w <> "hibernated".
Proof. unfold parked. intros Hp. apply bool_decide_eq_false in Hp. split_and!; intros E; apply Hp; rewrite E; set_solver. Qed.

Lemma emits_upsert c p mode url card : Emits (reg_move c p) (upsert e r p mode url card).
Proof.
  unfold upsert. apply Emits_bind; [|intros; apply Emits_ret]. apply Emits_statement. intros [w|].
  - destruct (parked w) eqn:Epk; [by constructor|]. apply not_parked in Epk as (? & ? & ?).
    destruct (keeps_stored_url _) as [keep|]; [|by constructor]. destruct (_ && _ && _); [by constructor|].
    cbn [snd]. unfold wrote, upserted_row. destruct (decide (h_kind w = "platform")) as [Hk|Hk]; cbn.
    + rewrite decide_True by done. constructor.
    + case_decide; constructor; [|by constructor]. left. by split_and!.
  - destruct (_ && _); [by constructor|]. constructor; [|by constructor]. unfold inserted_row. cbn.
    destruct (decide (default "workspace" (nullif_empty (rp_Kind p)) = "platform")) as [Hk|Hk].
    + right; left. split_and!; try done. revert Hk. unfold nullif_empty. by case_decide.
    + left. by split_and!.
Qed.

Lemma emits_gate (c : Prop) p existing :
  (rp_Kind p = "platform" \/ existing = "platform" -> c) -> Emits (reg_move c p) (identity_gate e p existing).
Proof.
  intros Hc. unfold identity_gate. destruct (_ || _) eqn:Eg; [|apply Emits_ret].
  assert (Hg : c) by (apply Hc; apply orb_true_iff in Eg as [Eg|Eg]; b2p; auto).
  apply Emits_bind_read_other; [apply Emits_ret|]. destruct (e_model e) eqn:Em; cbn [negb].
  - destruct (platformAgentMCPServerPresent _) eqn:Epr; cbn [negb]; [apply Emits_ret|].
    assert (Hp : rp_MCPServerPresent p = Some false) by (by destruct (rp_MCPServerPresent p) as [[]|]).
    apply Emits_bind; [apply (emits_aside e (reg_move c p) (reg_aside c p))|]. intros _.
    apply Emits_bind; [|intros; apply Emits_ret]. apply emits_failed; [exact (reg_aside c p)|]. intros k b. right; right. auto.
  - apply Emits_bind; [|intros; apply Emits_ret]. apply emits_failed; [exact (reg_aside c p)|]. intros k b. right; right. auto.
Qed.

Lemma emits_admitted (c : Prop) p existing :
  (rp_Kind p = "platform" \/ existing = "platform" -> c) -> Emits (reg_move c p) (admitted e r p existing).
Proof.
  intros Hc.
  destruct (emits_aside e (reg_move c p) (reg_aside c p)) as (Ho & _ & Hg & _ & _ & Hb).
  unfold admitted, kind_precheck, resolveDeliveryMode, reconciled_card, status_before, cache_urls, announce.
  apply Emits_bind; [destruct (negb _); emits|]. intros [code|]; [apply Emits_ret|].
  apply Emits_bind; [destruct (negb _); emits|]. intros [mode|]; [|apply Emits_ret].
  apply Emits_bind; [by apply emits_gate|]. intros [code|]; [apply Emits_ret|].
  destruct (effective_url r p mode) as [url|]; [|apply Emits_ret]. emits; try (by apply Emits_emit); auto.
  - destruct (_ || _); emits.
  - apply emits_upsert.
  - destruct a1; emits; try (by apply Emits_emit); auto.
Qed.
End Moves.

(** The row the diagnostics read of a registration that starts in [s] finds. *)
Definition found (e : benv) (s : hst) : option hrow :=
  if e_fails e (x_k s) then None else e_others e (x_k s) (x_row s).
Definition concierge_of (e : benv) (p : RegisterPayload) (s : hst) : Prop :=
  rp_Kind p = "platform" \/ (h_kind <$> found e s) = Some "platform".

(** What the registration takes the stored kind to be. *)
Lemma diagnosed e p s :
  rp_Kind p = "platform" \/ (fetchExistingWorkspaceStateForDiagnostics e p s).2 = "platform" -> concierge_of e p s.
Proof.
  intros [Hp|Hp]; [by left|right]. revert Hp. unfold fetchExistingWorkspaceStateForDiagnostics, found, read, statement, bind.
  case_decide; [done|]. destruct (e_fails e (x_k s)); [done|]. cbn. destruct (e_others e _ _) as [w|]; [|done].
  cbn. by intros ->.
Qed.

(** C18: whatever fails and whoever else writes the row, a registration puts a row
    online only when it is an ordinary one and neither removed, paused nor
    hibernated, never a platform agent, which it can only leave provisioning; and it
    fails a row only for a registration as a platform agent, or of a row its first
    read found to be one, when the model or the management MCP is missing. *)
Theorem register_moves `{UuidCast} sha256 e r failClosed a i header p db s :
  let s' := snd (fst (Register sha256 e r failClosed a i header (Some p) db s)) in
  exists out, x_out s' = x_out s ++ out /\ Forall (reg_move e (concierge_of e p s) p) out.
Proof.
  set (Q := reg_move e (concierge_of e p s) p).
  assert (Hnil : forall st, exists out, x_out st = x_out st ++ out /\ Forall Q out)
    by (intros st; exists []; by rewrite app_nil_r).
  assert (Hcat : forall s1 s2 s3 : hst,
    (exists out, x_out s2 = x_out s1 ++ out /\ Forall Q out) ->
    (exists out, x_out s3 = x_out s2 ++ out /\ Forall Q out) ->
    exists out, x_out s3 = x_out s1 ++ out /\ Forall Q out).
  { intros s1 s2 s3 (o1 & E1 & H1) (o2 & E2 & H2). exists (o1 ++ o2). rewrite E2, E1, app_assoc. split; [done|].
    by apply Forall_app. }
  cbn zeta. unfold Register. destruct (_ || _); [apply Hnil|].
  assert (Hd : Emits Q (fetchExistingWorkspaceStateForDiagnostics e p)).
  { unfold fetchExistingWorkspaceStateForDiagnostics. case_decide; emits. }
  specialize (Hd s). pose proof (diagnosed e p s) as Hc.
  destruct (fetchExistingWorkspaceStateForDiagnostics e p s) as [s1 existing]. cbn in Hd, Hc.
  destruct (requireWorkspaceToken _ _ _ _ _ _ _) as [db1 [code|]]; [done|].
  assert (Ha := emits_admitted e r (concierge_of e p s) p existing Hc s1).
  destruct (admitted e r p existing s1) as [s2 [mode|code]]; cbn in Ha.
  - destruct (first_token _ _ _ _ _) as [db2 token].
    assert (Hs : Emits Q (settle_registration e)).
    { unfold settle_registration, clear_failure. emits; [apply emits_secret|by apply Emits_exec_still]. }
    specialize (Hs s2). destruct (settle_registration e s2) as [s3 secret]. cbn in *. eauto.
  - assert (Hs : Emits Q (stamp_failure e)) by (by apply Emits_exec_still).
    specialize (Hs s2). destruct (stamp_failure e s2) as [s3 u]. cbn in *. eauto.
Qed.

(** ** The kind *)

Section Kind.
Context (e : benv) (r : reg_env) (He : forall k o, ordinary o -> ordinary (e_others e k o)).

Lemma ordinary_precheck p : Holds ordinary (kind_precheck e p) (fun c => rp_Kind p = "platform" -> c <> None).
Proof.
  unfold kind_precheck. destruct (bool_decide (rp_Kind p = "platform")) eqn:E; cbn [negb]; b2p; [|by apply Holds_ret].
  eapply (Holds_bind _ _ _ (fun o => match o with Some (Some w) => h_kind w <> "platform" | _ => True end)).
  - apply Holds_read; [done|done|]. intros [w|] Hw; [by apply Hw|done].
  - intros o Ho. apply Holds_ret. intros _. destruct o as [[w|]|]; try done. by rewrite decide_False.
Qed.

Lemma ordinary_upsert p mode url card :
  rp_Kind p <> "platform" -> Holds ordinary (upsert e r p mode url card) (fun _ => True).
Proof.
  intros Hp. assert (Hn : forall d, d <> "platform" -> default d (nullif_empty (rp_Kind p)) <> "platform").
  { intros d Hd. unfold nullif_empty. by case_decide. }
  unfold upsert. eapply (Holds_bind _ _ _ (fun _ => True)); [|intros; by apply Holds_ret].
  apply Holds_statement; [done|done|]. intros [w|] Hw.
  - destruct (parked w); [done|]. destruct (keeps_stored_url _) as [keep|]; [|done]. destruct (_ && _ && _); [done|].
    split; [|done]. intros w' [= <-]. apply Hn. by apply Hw.
  - destruct (_ && _); [done|]. split; [|done]. intros w' [= <-]. by apply Hn.
Qed.

Lemma ordinary_admitted p existing : Holds ordinary (admitted e r p existing) (fun _ => True).
Proof.
  destruct (ordinary_hooks e) as (Ho & Hm & Hg). unfold admitted.
  eapply Holds_bind; [apply ordinary_precheck|]. intros [c|] Hc; [holds|].
  assert (Hp : rp_Kind p <> "platform") by (intros E; by apply Hc).
  unfold resolveDeliveryMode, identity_gate, reconciled_card, status_before, cache_urls, announce.
  eapply (Holds_bind _ _ _ (fun _ => True)); [destruct (negb _); holds|]. intros [mode|] _; [|holds].
  eapply (Holds_bind _ _ _ (fun _ => True)).
  { destruct (_ || _); [|holds]. eapply (Holds_bind _ _ _ (fun _ => True)); [by apply Holds_read_other|].
    intros [[]|] _; cbn [negb]; [destruct (negb _)| |]; holds; auto using ordinary_failed. }
  intros [c|] _; [holds|]. destruct (effective_url r p mode) as [url|]; [|holds].
  eapply (Holds_bind _ _ _ (fun _ => True)); [holds|]. intros card _.
  eapply (Holds_bind _ _ _ (fun _ => True)); [destruct (_ || _); holds|]. intros prev _.
  eapply (Holds_bind _ _ _ (fun _ => True)); [by apply ordinary_upsert|]. intros [] _; holds; auto.
  unfold unless. case_match; holds; auto.
Qed.
End Kind.

(** no registration makes a workspace a platform agent, whatever kind it declares
    and whatever fails: where nobody else does, the row stays an ordinary one, and one
    that did not exist becomes one. *)
Theorem register_never_promotes `{UuidCast} sha256 e r failClosed a i header body db s :
  (forall k o, ordinary o -> ordinary (e_others e k o)) -> ordinary (x_row s) ->
  ordinary (x_row (snd (fst (Register sha256 e r failClosed a i header body db s)))).
Proof.
  intros He Hs. unfold Register. destruct body as [p|]; [|done]. destruct (_ || _); [done|].
  assert (Hd : Holds ordinary (fetchExistingWorkspaceStateForDiagnostics e p) (fun _ => True)).
  { unfold fetchExistingWorkspaceStateForDiagnostics. case_decide; holds. }
  destruct (Hd s Hs) as [H1 _]. destruct (fetchExistingWorkspaceStateForDiagnostics e p s) as [s1 existing]. cbn in H1.
  destruct (requireWorkspaceToken _ _ _ _ _ _ _) as [db1 [code|]]; [done|].
  destruct (ordinary_admitted e r He p existing s1 H1) as [H2 _]. destruct (admitted e r p existing s1) as [s2 [mode|code]]; cbn in H2.
  - destruct (first_token _ _ _ _ _) as [db2 token].
    assert (Hset : Holds ordinary (settle_registration e) (fun _ => True)).
    { unfold settle_registration, clear_failure. eapply (Holds_bind _ _ _ (fun _ => True)); [by apply ordinary_secret|]. intros secret _.
      eapply (Holds_bind _ _ _ (fun _ => True)); [by apply ordinary_exec|]. intros. by apply Holds_ret. }
    destruct (Hset s2 H2) as [H3 _]. by destruct (settle_registration e s2).
  - assert (Hst : Holds ordinary (stamp_failure e) (fun _ => True)) by (by apply ordinary_exec).
    destruct (Hst s2 H2) as [H3 _]. by destruct (stamp_failure e s2).
Qed.

(** ** Undisturbed registrations *)

Section Outcome.
Context (e : benv) (r : reg_env) (Hq : quiet e) (ov : gmap string runtimeOverrideEntry).

(** A row the identity gate failed. *)
Definition gate_failed (p : RegisterPayload) (w w' : hrow) : Prop :=
  (e_model e = false \/ rp_MCPServerPresent p = Some false) /\ exists msg, w' = set_status_error e "failed" msg w.

(** The row a registration that was taken in leaves: a parked one as it was. *)
Definition taken_in (p : RegisterPayload) (mode : string) (w w' : hrow) : Prop :=
  if parked w then w' = w
  else exists url card keep, effective_url r p mode = Some url /\ keeps_stored_url (i_url (h_ident w)) = Some keep /\
                             w' = upserted_row e p mode (nullif_empty url) card keep w.

Lemma ends_recovery w (Q : hrow -> unit -> Prop) : Q w tt -> ends ov (fireReconcileMCPRecovery e) w Q.
Proof.
  apply ends_aside. intros s. unfold fireReconcileMCPRecovery, bind, get.
  destruct (negb _); [done|]. by destruct (some_and _ _).
Qed.

Lemma ends_failed msg reason w (Q : hrow -> unit -> Prop) :
  Q (set_status_error e "failed" msg w) tt -> ends ov (markWorkspaceFailed e msg reason) w Q.
Proof. intros HQ. unfold markWorkspaceFailed. by apply ends_bind, ends_emit, ends_exec_. Qed.

Lemma ends_gate p existing w (Q : hrow -> option Z -> Prop) :
  (forall code, Q w (Some code)) -> Q w None -> (forall w', gate_failed p w w' -> Q w' (Some 400)) ->
  ends ov (identity_gate e p existing) w Q.
Proof.
  intros Hc Hn Hf. unfold identity_gate. destruct (_ || _); [|by apply ends_ret].
  apply ends_bind, ends_read_other; [done|]. destruct (e_model e) eqn:Em; cbn [negb].
  - destruct (platformAgentMCPServerPresent _) eqn:Epr; cbn [negb]; [by apply ends_ret|].
    assert (Hp : rp_MCPServerPresent p = Some false) by (by destruct (rp_MCPServerPresent p) as [[]|]).
    apply ends_bind, ends_recovery, ends_bind, ends_failed, ends_ret, Hf. split; [by right|]. by eexists.
  - apply ends_bind, ends_failed, ends_ret, Hf. split; [by left|]. by eexists.
Qed.

Lemma ends_upsert p mode url card w (Q : hrow -> upsert_result -> Prop) :
  Q w UpErr -> Q w UpViolation -> (parked w = true -> Q w UpOk) ->
  (forall keep, parked w = false -> keeps_stored_url (i_url (h_ident w)) = Some keep ->
     Q (upserted_row e p mode url card keep w) UpOk) ->
  ends ov (upsert e r p mode url card) w Q.
Proof.
  intros He Hv Hp Hu. unfold upsert. apply ends_bind. intros s Hs Ho. unfold statement.
  rewrite (proj1 Hq), (proj2 Hq), Hs. destruct (parked w) eqn:Ep; [exists w; split_and!; try done; by apply ends_ret, Hp|].
  destruct (keeps_stored_url _) as [keep|] eqn:Ek; [|exists w; split_and!; try done; by apply ends_ret].
  cbn zeta. destruct (_ && _ && _); [exists w; split_and!; try done; by apply ends_ret|].
  eexists. split_and!; try done. by apply ends_ret, Hu.
Qed.

Lemma ends_when_emit b o w (Q : hrow -> unit -> Prop) : Q w tt -> ends ov (when b (emit o)) w Q.
Proof. intros HQ. apply ends_when; [|done]. intros _. by apply ends_emit. Qed.

Lemma ends_online w (Q : hrow -> unit -> Prop) : Q w tt -> ends ov (fireReconcileOnline e) w Q.
Proof. intros HQ. unfold fireReconcileOnline. by apply ends_bind, ends_when_emit, ends_when_emit. Qed.

Lemma ends_cache p url w (Q : hrow -> unit -> Prop) : Q w tt -> ends ov (cache_urls e p url) w Q.
Proof. intros HQ. unfold cache_urls. apply ends_bind, ends_read; [done|]. by apply ends_bind, ends_when_emit, ends_when_emit. Qed.

Lemma ends_announce prev w (Q : hrow -> unit -> Prop) : Q w tt -> ends ov (announce e prev) w Q.
Proof.
  intros HQ. unfold announce. apply ends_bind, ends_read; [done|]. unfold unless. case_match; [by apply ends_ret|].
  apply ends_bind, ends_emit, ends_when; [|done]. intros _. by apply ends_when_emit.
Qed.

Lemma ends_precheck p w (Q : hrow -> option Z -> Prop) : (forall c, Q w c) -> ends ov (kind_precheck e p) w Q.
Proof. intros HQ. unfold kind_precheck. destruct (negb _); [by apply ends_ret|]. by apply ends_bind, ends_read, ends_ret. Qed.

Lemma ends_mode m w (Q : hrow -> option string -> Prop) : (forall c, Q w c) -> ends ov (resolveDeliveryMode e m) w Q.
Proof. intros HQ. unfold resolveDeliveryMode. destruct (negb _); [by apply ends_ret|]. by apply ends_bind, ends_read, ends_ret. Qed.

Lemma ends_admitted p existing w :
  ends ov (admitted e r p existing) w
    (fun w' res => match res with
                   | inr code => w' = w \/ code = 400 /\ gate_failed p w w'
                   | inl mode => taken_in p mode w w'
                   end).
Proof.
  unfold admitted. apply ends_bind, ends_precheck. intros [c|]; [by apply ends_ret; left|].
  apply ends_bind, ends_mode. intros [mode|]; [|by apply ends_ret; left].
  apply ends_bind, ends_gate; [by intros code; apply ends_ret; left| |intros w' Hw'; apply ends_ret; by right].
  destruct (effective_url r p mode) as [url|] eqn:Eu; [|by apply ends_ret; left].
  unfold reconciled_card. apply ends_bind, ends_bind, ends_read; [done|]. apply ends_ret. apply ends_bind.
  assert (Hp : forall Q : hrow -> string -> Prop, (forall prev, Q w prev) -> ends ov (status_before e) w Q).
  { intros Q HQ. unfold status_before. destruct (_ || _); [|by apply ends_ret]. by apply ends_bind, ends_read, ends_ret. }
  apply Hp. intros prev. apply ends_bind, ends_upsert; [by apply ends_ret; left|by apply ends_ret; left| |].
  - intros Hpk. apply ends_bind, ends_emit, ends_bind, ends_when; intros _; [apply ends_online|];
      apply ends_bind, ends_cache, ends_bind, ends_announce, ends_ret; unfold taken_in; by rewrite Hpk.
  - intros keep Hpk Hk.
    assert (Ht : taken_in p mode w (upserted_row e p mode (nullif_empty url)
      (fst (r_reconcile r (rp_AgentCard p) (rp_ID p) (default "" (i_name (h_ident w))) (default "" (i_role (h_ident w))))) keep w)).
    { unfold taken_in. rewrite Hpk. by eexists _, _, _. }
    apply ends_bind, ends_emit, ends_bind, ends_when; intros _; [apply ends_online|];
      by apply ends_bind, ends_cache, ends_bind, ends_announce, ends_ret.
Qed.
End Outcome.

Section Settled.
Context (e : benv) (Hq : quiet e) (ov : gmap string runtimeOverrideEntry).

Lemma ends_column w (Q : hrow -> string + bool -> Prop) :
  (forall c, Q w c) -> ends ov (read_inbound_column e) w Q.
Proof.
  intros HQ. unfold read_inbound_column. apply ends_bind, ends_read; [done|]. destruct (h_inbound w) as [secret|]; [|by apply ends_ret].
  case_decide; [by apply ends_ret|]. apply ends_bind, ends_aside; [done|]. by apply ends_ret.
Qed.

(** A secret may be minted, and the stamp is cleared. *)
Lemma ends_settled w :
  ends ov (settle_registration e) w
    (fun w' _ => w' = with_register_failure None w \/ exists plaintext, w' = with_register_failure None (with_inbound (Some plaintext) w)).
Proof.
  unfold settle_registration, readOrLazyHealInboundSecret, clear_failure. apply ends_bind, ends_bind.
  assert (Hr : forall Q : hrow -> string + bool -> Prop, (forall c, Q w c) -> ends ov (ReadPlatformInboundSecret e) w Q).
  { intros Q HQ. unfold ReadPlatformInboundSecret. apply ends_get. intros s _ _.
    destruct (x_cached s) as [[secret expires]|]; [|by apply ends_column]. destruct (_ <? _); [by apply ends_ret|by apply ends_column]. }
  assert (Hc : forall o, ends ov (clear_failure e ;;; ret o) w
    (fun w' (_ : option string) => w' = with_register_failure None w \/ exists plaintext, w' = with_register_failure None (with_inbound (Some plaintext) w))).
  { intros o. apply ends_bind, ends_exec_; [done|]. apply ends_ret. by left. }
  apply Hr. intros [secret|[]]; [apply ends_ret, Hc|apply ends_ret, Hc|]. unfold IssuePlatformInboundSecret.
  destruct (e_minted e) as [plaintext|]; [|apply ends_ret, Hc]. apply ends_bind, ends_exec; [done|].
  apply ends_bind, ends_aside; [done|]. apply ends_ret. apply ends_bind, ends_exec_; [done|]. apply ends_ret. right. by eexists.
Qed.
End Settled.

(** how an undisturbed registration ends.  Refused by the token check, it leaves
    the row alone.  Refused later, it leaves the row with the failure stamp, and
    otherwise as it was, unless the identity gate failed it.  Taken in, it leaves the
    upserted row, or a parked one as it was, the stamp cleared. *)
Theorem register_outcome `{UuidCast} sha256 e r failClosed a i header p db s w :
  quiet e -> x_row s = Some w -> rp_ID p <> "" -> malformed p = false ->
  let '(_, s', reply) := Register sha256 e r failClosed a i header (Some p) db s in
  exists w', x_row s' = Some w' /\
  match snd (requireWorkspaceToken sha256 failClosed a (e_now e) (rp_ID p) header db), reply with
  | Some code, _ => reply = RegErr code /\ w' = w
  | None, RegErr code => exists w1, (w1 = w \/ code = 400 /\ gate_failed e p w w1) /\
                                    w' = with_register_failure (Some (e_now e)) w1
  | None, RegOk mode _ _ => exists w1, taken_in e r p mode w w1 /\
                                       (w' = with_register_failure None w1 \/
                                        exists plaintext, w' = with_register_failure None (with_inbound (Some plaintext) w1))
  end.
Proof.
  intros Hq Hs Hid Hm. unfold Register. rewrite Hm, bool_decide_false by done. cbn [orb].
  assert (Hd : forall ov, ends ov (fetchExistingWorkspaceStateForDiagnostics e p) w (fun w' _ => w' = w)).
  { intros ov. unfold fetchExistingWorkspaceStateForDiagnostics. case_decide; [by apply ends_ret|].
    by apply ends_bind, ends_read, ends_ret. }
  destruct (Hd _ s Hs eq_refl) as (w1 & H1 & _ & ->).
  destruct (fetchExistingWorkspaceStateForDiagnostics e p s) as [s1 existing]. cbn in H1.
  destruct (requireWorkspaceToken _ _ _ _ _ _ _) as [db1 [code|]]; cbn; [by exists w|].
  destruct (ends_admitted e r Hq _ p existing w s1 H1 eq_refl) as (w2 & H2 & _ & Hr).
  destruct (admitted e r p existing s1) as [s2 [mode|code]]; cbn in H2, Hr.
  - destruct (first_token _ _ _ _ _) as [db2 token].
    destruct (ends_settled e Hq _ w2 s2 H2 eq_refl) as (w3 & H3 & _ & Hw3).
    destruct (settle_registration e s2) as [s3 secret]. cbn in H3. exists w3. split; [done|]. by exists w2.
  - assert (Hst : forall ov, ends ov (stamp_failure e) w2 (fun w' _ => w' = with_register_failure (Some (e_now e)) w2))
      by (intros ov; by apply ends_exec_).
    destruct (Hst _ s2 H2 eq_refl) as (w3 & H3 & _ & Hw3). destruct (stamp_failure e s2) as [s3 u]. cbn in H3.
    exists w3. split; [done|]. by exists w2.
Qed.

(** ** What a registration does that it should not *)

(** An undisturbed host without hooks at instant 0. *)
Definition still : benv :=
  BEnv 0 (fun _ => false) (fun _ o => o) true [] [] false false false false false None.
Definition open_urls : reg_env := RegEnv (fun _ => true) (fun _ => true) (fun _ => "") (fun c _ _ _ => (c, false)) false.
Definition calm_auth : auth_env := AuthEnv false false false false id.
Definition no_issue : issue_env := IssueEnv id false false None "".
Definition no_tokens : token_db := TokenDb ∅ ∅.
Definition some_row (st kind url : string) : hrow :=
  HRow st (Identity (Some "agent") None None (Some url) (Some "push") (Some "hermes") kind)
    (Vitals 0 0 0 None 0 false) "" None None None 0 1 None None 0 0 None.
Definition card_payload (url kind : string) : RegisterPayload := RegPayload "ws" url JNull "" kind None.

Definition register_demo (e : benv) (i : issue_env) (p : RegisterPayload) (db : token_db) (w : hrow) : token_db * hst * reg_reply :=
  Register (H := plain_cast) id e open_urls false calm_auth i "" (Some p) db (begin_on (Some w)).

(** The upsert leaves a paused workspace alone, and it is announced online. *)
Example parked_workspace_is_announced :
  let '(_, s, reply) := register_demo still no_issue (card_payload "http://a:1" "") no_tokens (some_row "paused" "workspace" "") in
  reply = RegOk "push" None None /\ h_status <$> x_row s = Some "paused" /\ BroadcastOnline None ∈ x_out s.
Proof. vm_compute. split_and!; [done|done|]. apply list_elem_of_In. cbn. tauto. Qed.

(** The identity gate asks the read made before the token check for the kind; when it
    fails, a concierge without a model is let in. *)
Definition first_read_fails : benv :=
  BEnv 0 (fun k => (k =? 0)%nat) (fun _ o => o) false [] [] false false false false false None.
Example lost_read_opens_the_gate :
  let p := card_payload "http://a:1" "" in
  let '(_, _, reply) := register_demo first_read_fails no_issue p no_tokens (some_row "failed" "platform" "") in
  let '(_, _, reply') := register_demo (BEnv 0 (fun _ => false) (fun _ o => o) false [] [] false false false false false None)
                           no_issue p no_tokens (some_row "failed" "platform" "") in
  reply = RegOk "push" None None /\ reply' = RegErr 400.
Proof. by vm_compute. Qed.

(** A stored URL whose port does not fit an int fails every later registration. *)
Example large_port_locks_out :
  let '(_, _, reply) := register_demo still no_issue (card_payload "http://a:1" "") no_tokens
                          (some_row "online" "workspace" "http://localhost:99999999999") in
  reply = RegErr 500.
Proof. by vm_compute. Qed.

(** A container that is being stopped for its hibernation comes online. *)
Example hibernating_comes_online :
  let '(_, s, _) := register_demo still no_issue (card_payload "http://a:1" "") no_tokens (some_row "hibernating" "workspace" "") in
  h_status <$> x_row s = Some "online".
Proof. by vm_compute. Qed.

Lemma register_never_promotes_witness :
  ordinary None /\
  ordinary (x_row (snd (fst (Register (H := plain_cast) id still open_urls false calm_auth no_issue "" (Some (card_payload "http://a:1" "platform"))
                             no_tokens (begin_on None))))).
Proof.
  assert (H : ordinary None) by done. split; [done|].
  apply (@register_never_promotes plain_cast); [by intros k o Ho|done].
Defined.

Lemma register_outcome_witness :
  quiet still /\
  exists w', x_row (snd (fst (register_demo still no_issue (card_payload "http://a:1" "") no_tokens (some_row "paused" "workspace" "")))) = Some w'.
Proof.
  assert (Hq : quiet still) by by split. split; [done|].
  assert (H := @register_outcome plain_cast id still open_urls false calm_auth no_issue "" (card_payload "http://a:1" "") no_tokens
                 (begin_on (Some (some_row "paused" "workspace" ""))) (some_row "paused" "workspace" "") Hq eq_refl).
  unfold register_demo. destruct (Register _ _ _ _ _ _ _ _ _ _) as [[db s] reply].
  destruct H as (w' & H & _); [done|done|]. by exists w'.
Defined.
