(* ===== verification/Lifecycle.v ===== *)
(** * Pausing, hibernating, waking and restarting

    internal/handlers/workspace_restart.go, the stop and restart dispatchers of
    workspace_dispatchers.go, the breaker's halt of auto_restart_breaker.go, and the
    sweeps of internal/registry that take a workspace offline or to sleep.  What one
    workspace goes through runs in the monad of WorkspaceRow; a cascade or a sweep
    runs it on the rows of a fleet, one after the other. *)

From Stdlib Require Import QArith.
From S2P Require Import Prelude Tree RestartGuards AgentCard WorkspaceRow Heartbeat.
#[local] Open Scope Z_scope.
#[local] Open Scope beat_scope.

Definition with_url (u : option string) (w : hrow) : hrow :=
  let i := h_ident w in
  with_ident (Identity (i_name i) (i_role i) (agent_card i) u (delivery_mode i) (i_runtime i) (i_kind i)) w.
Definition with_active (n : Z) (w : hrow) : hrow :=
  let v := h_vitals w in
  with_vitals (Vitals (last_error_rate v) n (uptime_seconds v) (current_task v) (monthly_spend v) (is_busy v)) w.
Definition in_status (l : list string) (w : hrow) : bool := bool_decide (h_status w ∈ l).
(** [COALESCE(runtime, 'claude-code')]. *)
Definition runtime_of (w : hrow) : string := default "claude-code" (i_runtime (h_ident w)).

(** ** One workspace *)

(** The backends wired, and what they, the event log and the ancestors of the
    workspace answer. *)
Record life_env := LifeEnv {
  l_docker : bool; l_cp : bool;
  l_stops : bool;                          (* the backend stops the container *)
  l_recorded : bool;                       (* the INSERT of an event lands *)
  l_prewarmed : bool;                      (* the control plane has the pinned image ready in time *)
  l_parent_paused : bool;                  (* isParentPaused *)
  l_probe : option bool                    (* IsRunning, [None] for an error *)
}.

Section Operations.
Context (e : benv) (l : life_env).

Definition HasProvisioner : bool := l_docker l || l_cp l.

(** RecordAndBroadcast: nothing is broadcast when the INSERT fails. *)
Definition record_event (event : string) : M bool :=
  if l_recorded l then emit (Announced event) ;;; ret true else ret false.
Definition record_event_ (event : string) : M unit := _ <-- record_event event ;; ret tt.

(** Whether it went without error; without a backend nothing happens. *)
Definition StopWorkspaceAuto : M bool :=
  if HasProvisioner then emit (StopContainer (l_stops l)) ;;; ret (l_stops l) else ret true.

(** withStoredCompute, and storedWorkspaceTemplate on a tenant with a control plane:
    they only read. *)
Definition stored_compute : M unit := _ <-- read e ;; ret tt.
Definition stored_template : M unit := when (l_cp l) (_ <-- read e ;; ret tt).

(** *** Hibernation *)

Definition claimable (force : bool) (w : hrow) : bool :=
  in_status ["online"; "degraded"] w && (force || (active_tasks (h_vitals w) =? 0)).

Inductive hibernate_result := Hibernated | NotClaimed | HibernateErr.

Definition hibernateWorkspace (force : bool) : M hibernate_result :=
  claimed <-- exec e (claimable force) (fun w => touch (e_now e) (with_status "hibernating" w)) ;;
  match claimed with
  | None => ret HibernateErr
  | Some 0 => ret NotClaimed
  | Some _ =>
      _ <-- read e ;;
      StopWorkspaceAuto ;;;
      marked <-- exec e (fun _ => true)
                   (fun w => touch (e_now e) (with_active 0 (with_url (Some "") (with_status "hibernated" w)))) ;;
      match marked with
      | None => ret HibernateErr
      | Some _ => emit ClearKeys ;;; record_event_ "WORKSPACE_HIBERNATED" ;;; ret Hibernated
      end
  end.

Definition HibernateWorkspace : M unit := _ <-- hibernateWorkspace false ;; ret tt.

(** The status code. *)
Definition Hibernate (force : bool) : M Z :=
  o <-- read e ;;
  match o with
  | None => ret 500
  | Some None => ret 404
  | Some (Some w) =>
      if negb (in_status ["online"; "degraded"] w) then ret 404
      else if (0 <? active_tasks (h_vitals w)) && negb force then ret 409
      else r <-- hibernateWorkspace force ;;
           ret (match r with Hibernated => 200 | NotClaimed => 409 | HibernateErr => 500 end)
  end.

Definition WakeWorkspace : M unit :=
  if negb HasProvisioner then ret tt
  else claimed <-- exec e (has_status "hibernated")
                     (fun w => touch (e_now e) (with_url (Some "") (with_status "provisioning" w))) ;;
       match claimed with
       | None | Some 0 => ret tt
       | Some _ =>
           o <-- read e ;;
           match o with
           | Some (Some _) => record_event_ "WORKSPACE_PROVISIONING" ;;; stored_compute ;;; stored_template ;;; emit Provision
           | _ => ret tt
           end
       end.

(** *** One workspace of a pause or a resume *)

Inductive stage := SStop | SMark | SClaim | SBroadcast.
#[export] Instance stage_eq_dec : EqDecision stage.
Proof. solve_decision. Defined.

Definition pausable (status : string) : bool := negb (bool_decide (status ∈ ["removed"; "paused"])).

(** Whether it counts, and the stage that failed. *)
Definition pause_one : M (bool * option stage) :=
  stopped <-- StopWorkspaceAuto ;;
  if negb stopped then ret (false, Some SStop)
  else claimed <-- exec e (fun w => pausable (h_status w))
                     (fun w => touch (e_now e) (with_url (Some "") (with_status "paused" w))) ;;
       match claimed with
       | None => ret (false, Some SMark)
       | Some 0 => ret (false, Some SClaim)
       | Some _ =>
           emit ClearKeys ;;;
           recorded <-- record_event "WORKSPACE_PAUSED" ;;
           ret (true, if recorded then None else Some SBroadcast)
       end.

Definition resume_one : M (bool * option stage) :=
  claimed <-- exec e (has_status "paused")
                (fun w => touch (e_now e) (with_unloaded None (with_status "provisioning" w))) ;;
  match claimed with
  | None => ret (false, Some SMark)
  | Some 0 => ret (false, Some SClaim)
  | Some _ =>
      recorded <-- record_event "WORKSPACE_PROVISIONING" ;;
      stored_compute ;;;
      stored_template ;;;
      emit Provision ;;;
      ret (true, if recorded then None else Some SBroadcast)
  end.

(** *** Restart *)

Definition markProvisioningForRestart : M unit :=
  exec_ e (fun _ => true) (fun w => touch (e_now e) (with_unloaded None (with_status "provisioning" w))).

Definition clearWorkspaceRouting : M unit :=
  exec_ e (fun _ => true) (fun w => touch (e_now e) (with_url (Some "") w)) ;;; emit ClearKeys.

Definition declined_message (runtime : string) : string :=
  "restart declined — the pinned image for runtime=" +:+ runtime +:+
  " could not be made available, so the running container was left untouched (core#5019). " +:+
  "The workspace is still serving its previous version; it will retry on the next restart.".
Definition stranded_message (runtime : string) : string :=
  "first boot declined — the pinned image for runtime=" +:+ runtime +:+
  " could not be made available, so no container was ever started (core#5019). " +:+
  "This workspace has never had a running agent, so nothing is serving and no heartbeat " +:+
  "will arrive to change this status; marking failed rather than holding 'provisioning' " +:+
  "with no verdict (core#5136).".

Definition stranded (w : hrow) : bool := has_status "provisioning" w && bool_decide (h_heartbeat_at w = None).

Definition markRestartDeclined (runtime : string) : M unit :=
  n <-- exec e stranded
          (fun w => touch (e_now e) (with_sample_error (stranded_message runtime) (with_status "failed" w))) ;;
  match n with
  | Some (Zpos _) =>
      record_event_ "WORKSPACE_RESTART_DECLINED" ;;; record_event_ "WORKSPACE_PROVISION_FAILED"
  | _ =>
      record_event_ "WORKSPACE_RESTART_DECLINED" ;;;
      exec_ e (fun _ => true) (fun w => touch (e_now e) (with_sample_error (declined_message runtime) w))
  end.

(** Without a control plane there is nothing to ask. *)
Definition ensured : bool := negb (l_cp l) || l_prewarmed l.

(** [false]: declined. *)
Definition stopForRestart : M bool :=
  if negb ensured then ret false
  else when HasProvisioner (emit (StopContainer (l_stops l))) ;;; clearWorkspaceRouting ;;; ret true.

(** With a backend; the one without is never called here. *)
Definition RestartWorkspaceAutoOpts (runtime : string) : M unit :=
  if negb ensured then markRestartDeclined runtime
  else emit (StopContainer (l_stops l)) ;;; clearWorkspaceRouting ;;; emit Provision.

(** The status code, 0 standing for the reply [noop]; the dispatch runs detached and
    does not change it.  [body_ok]: the body binds. *)
Definition Restart (body_ok : bool) : M Z :=
  o <-- read e ;;
  match o with
  | None => ret 500
  | Some None => ret 404
  | Some (Some w) =>
      let runtime := runtime_of w in
      if has_status "removed" w then ret 404
      else if l_parent_paused l then ret 409
      else if isExternalLikeRuntime runtime || bool_decide (runtime = "mock") then ret 0
      else if negb HasProvisioner then ret 503
      else if negb body_ok then ret 400
      else markProvisioningForRestart ;;;
           record_event_ "WORKSPACE_PROVISIONING" ;;;
           stored_compute ;;;
           RestartWorkspaceAutoOpts runtime ;;;
           ret 200
  end.

Definition halted_message (trigger : string) : string :=
  "Automatic restarts stopped: 3 automatic restarts within 30m0s did not keep this workspace up (last trigger: " +:+
  trigger +:+ "). It will not be restarted automatically again until it is restarted manually.".

Definition haltAutoRestarts (trigger : string) : M unit :=
  n <-- exec e (fun w => negb (in_status ["removed"; "provisioning"; "paused"; "hibernated"; "failed"] w))
          (fun w => touch (e_now e) (with_sample_error (halted_message trigger) (with_status "failed" w))) ;;
  match n with
  | None | Some 0 => ret tt
  | Some _ => record_event_ "WORKSPACE_PROVISION_FAILED"
  end.

(** [halted]: the breaker has tripped.  A wait of ten seconds and the drain signal
    touch no row. *)
Definition runRestartCycle (autoTrigger : string) (halted : bool) : M unit :=
  o <-- read e ;;
  match o with
  | Some (Some w) =>
      if negb (cycle_proceeds (Some (CycleRow (h_status w) (runtime_of w) (h_kind w)))
                 (l_parent_paused l) HasProvisioner (default false (l_probe l)) (bool_decide (l_probe l = None)))
      then ret tt
      else if negb (bool_decide (autoTrigger = "")) && halted then haltAutoRestarts autoTrigger
      else stored_compute ;;;
           went <-- stopForRestart ;;
           if negb went then markRestartDeclined (runtime_of w)
           else exec_ e (fun _ => true)
                  (fun w => touch (e_now e) (with_unloaded None (with_url (Some "") (with_status "provisioning" w)))) ;;;
                record_event_ "WORKSPACE_PROVISIONING" ;;;
                stored_template ;;;
                emit Provision
  | _ => ret tt
  end.

(** *** Taken offline *)

(** One workspace of sweepOnlineWorkspaces. *)
Definition mark_gone : M unit :=
  match l_probe l with
  | None | Some true => ret tt
  | Some false =>
      n <-- exec e (fun w => negb (in_status ["removed"; "provisioning"; "paused"; "hibernated"; "hibernating"] w))
              (fun w => touch (e_now e) (with_status "offline" w)) ;;
      match n with None => ret tt | Some _ => emit ClearKeys ;;; emit Offline end
  end.

(** One workspace of sweepStaleRemoteWorkspaces. *)
Definition mark_stale : M unit :=
  n <-- exec e (fun w => negb (in_status ["removed"; "provisioning"; "paused"] w))
          (fun w => touch (e_now e) (with_status "awaiting_agent" w)) ;;
  match n with None => ret tt | Some _ => emit ClearKeys ;;; emit Offline end.

(** One expired liveness key. *)
Definition mark_expired : M unit :=
  n <-- exec e (fun w => negb (in_status ["removed"; "paused"; "hibernated"] w))
          (fun w => touch (e_now e)
                      (with_status (if decide (i_runtime (h_ident w) = Some "external") then "awaiting_agent" else "offline") w)) ;;
  match n with None => ret tt | Some _ => emit Offline end.
End Operations.

(** ** A fleet *)

Abbreviation fleet := (gmap string hst).
Definition state_of (t : fleet) (id : string) : hst := default (begin_on None) (t !! id).

(** One workspace after the other, with what each run returned. *)
Fixpoint each {A} (run : string -> M A) (ids : list string) (t : fleet) : fleet * list (string * A) :=
  match ids with
  | [] => (t, [])
  | id :: ids =>
      let '(s, a) := run id (state_of t id) in
      let '(t, rs) := each run ids (<[id := s]> t) in (t, (id, a) :: rs)
  end.

(** *** The recursive query

    The rows below [id] over rows that satisfy [P], generation by generation.  On a
    table whose [parent_id] has no cycle no chain is longer than the table. *)
Definition kids (P : string -> bool) (t : wstable) (id : string) : list string :=
  map fst (filter (fun kr => ws_parent kr.2 = Some id /\ P (ws_status kr.2) = true) (map_to_list t)).
Fixpoint generations (P : string -> bool) (t : wstable) (fuel : nat) (front : list string) : list string :=
  match fuel with
  | O => []
  | S fuel => front ++ generations P t fuel (flat_map (kids P t) front)
  end.
Definition subtree (P : string -> bool) (t : wstable) (id : string) : list string :=
  generations P t (size t) (kids P t id).

(** *** The handlers *)

(** The rows of a query that arrive: with [Some n] it breaks off after [n] of them,
    which is only logged; with 0 it failed. *)
Definition arriving (cut : option nat) (ids : list string) : list string :=
  match cut with Some n => take n ids | None => ids end.

(** What a cascade meets: the rows and the backends as each workspace finds them, and
    the tree as the recursive query finds it. *)
Record cascade_env := CascadeEnv {
  ce_row : string -> benv;
  ce_life : string -> life_env;
  ce_tree : wstable;
  ce_cut : option nat
}.

Definition cascade_ids (P : string -> bool) (c : cascade_env) (id : string) : list string :=
  arriving (ce_cut c) (subtree P (ce_tree c) id).

Inductive cascade_reply :=
| CascadeRefused (code : Z)                              (* 404, 409, 500 or 503, nothing done *)
| CascadeReport (code count : Z) (failures : list (string * stage)).

Definition failures_of (rs : list (string * (bool * option stage))) : list (string * stage) :=
  omap (fun r => (fun st => (fst r, st)) <$> snd (snd r)) rs.
Definition count_of (rs : list (string * (bool * option stage))) : Z :=
  Z.of_nat (length (filter (fun r => fst (snd r) = true) rs)).

Definition report (rs : list (string * (bool * option stage))) : cascade_reply :=
  let failures := failures_of rs in
  let n := count_of rs in
  CascadeReport (if decide (failures = []) then 200 else if n =? 0 then 500 else 207) n failures.

(** The row that the handler looks up first, under the environment [e]. *)
Definition lookup_root (e : benv) (wanted : string -> bool) : M (option Z) :=
  o <-- read e ;;
  ret (match o with
       | None => Some 500
       | Some None => Some 404
       | Some (Some w) => if wanted (h_status w) then None else Some 404
       end).

(** The descendants, [None] when there are some and [cascade] was not asked for. *)
Definition targets (P : string -> bool) (c : cascade_env) (cascade : bool) (id : string) : option (list string) :=
  let ds := cascade_ids P c id in
  if negb cascade && negb (bool_decide (ds = [])) then None else Some (id :: ds).

Definition Pause (e : benv) (c : cascade_env) (cascade : bool) (id : string) (t : fleet) : fleet * cascade_reply :=
  let '(s, refused) := lookup_root e pausable (state_of t id) in
  let t := <[id := s]> t in
  match refused with
  | Some code => (t, CascadeRefused code)
  | None =>
      match targets pausable c cascade id with
      | None => (t, CascadeRefused 409)
      | Some ids => let '(t, rs) := each (fun i => pause_one (ce_row c i) (ce_life c i)) ids t in (t, report rs)
      end
  end.

Definition is_paused (status : string) : bool := bool_decide (status = "paused").

Definition Resume (e : benv) (c : cascade_env) (cascade : bool) (id : string) (t : fleet) : fleet * cascade_reply :=
  let '(s, refused) := lookup_root e is_paused (state_of t id) in
  let t := <[id := s]> t in
  match refused with
  | Some code => (t, CascadeRefused code)
  | None =>
      if negb (HasProvisioner (ce_life c id)) then (t, CascadeRefused 503)
      else if l_parent_paused (ce_life c id) then (t, CascadeRefused 409)
      else match targets is_paused c cascade id with
           | None => (t, CascadeRefused 409)
           | Some ids => let '(t, rs) := each (fun i => resume_one (ce_row c i) (ce_life c i)) ids t in (t, report rs)
           end
  end.

(** *** The sweeps *)

Definition DefaultRemoteStaleAfter : Z := 180 * Second.
Definition remoteStaleAfter (v : string) : Z :=
  if decide (v = "") then DefaultRemoteStaleAfter
  else match Atoi v with
       | None => DefaultRemoteStaleAfter
       | Some n => if n <=? 0 then DefaultRemoteStaleAfter else seconds n
       end.

(** [int(staleAfter/time.Second)]: a division that truncates. *)
Definition staleAfterSec (v : string) : Z := Z.quot (remoteStaleAfter v) Second.

Definition contained (w : hrow) : bool :=
  in_status ["online"; "degraded"] w && negb (bool_decide (runtime_of w ∈ ["external"; "mock"])).
Definition remote_stale (now secs : Z) (w : hrow) : bool :=
  in_status ["online"; "degraded"] w && bool_decide (runtime_of w = "external") &&
  (default (h_updated_at w) (h_heartbeat_at w) <? now - secs * Second).
Definition idle_candidate (now : Z) (idle_minutes : option Z) (w : hrow) : bool :=
  match idle_minutes with
  | Some m =>
      (0 <? m) && in_status ["online"; "degraded"] w && (active_tasks (h_vitals w) =? 0) &&
      negb (bool_decide (runtime_of w = "external")) &&
      match h_heartbeat_at w with Some b => b <? now - m * Minute | None => false end
  | None => false
  end.

(** The ids a query over the fleet returns. *)
Definition selected (P : string -> hrow -> bool) (t : fleet) : list string :=
  map fst (filter (fun ks => match x_row ks.2 with Some w => P ks.1 w | None => false end = true) (map_to_list t)).

(** A broken query: the health sweeps go on with the rows they have, the hibernation
    monitor stops. *)
Section Sweeps.
Context (es : string -> benv) (ls : string -> life_env) (cut : option nat).

Definition sweep (P : string -> hrow -> bool) (run : string -> M unit) (t : fleet) : fleet :=
  fst (each run (arriving cut (selected P t)) t).

Definition sweepOnlineWorkspaces : fleet -> fleet := sweep (fun _ => contained) (fun i => mark_gone (es i) (ls i)).
Definition sweepStaleRemoteWorkspaces (now : Z) (v : string) : fleet -> fleet :=
  sweep (fun _ => remote_stale now (staleAfterSec v)) (fun i => mark_stale (es i)).
Definition hibernateIdleWorkspaces (now : Z) (idle_minutes : string -> option Z) (t : fleet) : fleet :=
  match cut with
  | Some _ => t
  | None => sweep (fun i => idle_candidate now (idle_minutes i)) (fun i => HibernateWorkspace (es i) (ls i)) t
  end.
End Sweeps.

(** The workspace whose liveness key expired: [ws:] and an id without a colon. *)
Definition expired_workspace (key : string) : option string :=
  if has_prefix key "ws:" then
    match after_last_colon (str_drop 3 key) with None => Some (str_drop 3 key) | Some _ => None end
  else None.

(** One message of StartLivenessMonitor. *)
Definition liveness_expiry (es : string -> benv) (key : string) (t : fleet) : fleet :=
  match expired_workspace key with
  | Some id => <[id := fst (mark_expired (es id) (state_of t id))]> t
  | None => t
  end.
