(* ===== verification/LifecycleSafety.v ===== *)
(** * What pausing, hibernating and waking guarantee

    The operations of Lifecycle under any failures and other writers: what a parked
    row can be moved by, what a hibernation, a wake and a pause answer, and what they
    leave when nothing disturbs them. *)

From Stdlib Require Import QArith.
From S2P Require Import Prelude Tree RestartGuards RuntimeOverrides WorkspaceRow Heartbeat Lifecycle.
#[local] Open Scope Z_scope.
#[local] Open Scope beat_scope.

(** ** The operations on one workspace *)

Inductive operation :=
| DoHibernate (force : bool) | DoWake | DoPause | DoResume | DoRestart (body_ok : bool)
| DoCycle (trigger : string) (halted : bool) | DoGone | DoStale | DoExpired.

Definition perform (e : benv) (l : life_env) (o : operation) : M unit :=
  match o with
  | DoHibernate force => _ <-- Hibernate e l force ;; ret tt
  | DoWake => WakeWorkspace e l
  | DoPause => _ <-- pause_one e l ;; ret tt
  | DoResume => _ <-- resume_one e l ;; ret tt
  | DoRestart body_ok => _ <-- Restart e l body_ok ;; ret tt
  | DoCycle trigger halted => runRestartCycle e l trigger halted
  | DoGone => mark_gone e l
  | DoStale => mark_stale e
  | DoExpired => mark_expired e
  end.

(** ** Rows that stay where they are

    From a row in [I], with other writers that keep [I], the operation leaves one in
    [I], returns a value in [Q] and adds outputs in [P] only. *)
Definition Rests {A} (I : option hrow -> Prop) (P : hout -> Prop) (m : M A) (Q : A -> Prop) : Prop :=
  forall s, I (x_row s) -> I (x_row (fst (m s))) /\ Q (snd (m s)) /\
                           exists out, x_out (fst (m s)) = x_out s ++ out /\ Forall P out.

Section Rests.
Context (I : option hrow -> Prop) (P : hout -> Prop).

(** What emits only [P] whatever happens needs no invariant for its outputs. *)
Lemma Rests_split {A} (m : M A) Q : Holds I m Q -> Emits P m -> Rests I P m Q.
Proof. intros Hh He s Hs. destruct (Hh s Hs). split_and!; [done|done|apply He]. Qed.

Lemma Rests_ret {A} (a : A) (Q : A -> Prop) : Q a -> Rests I P (ret a) Q.
Proof. intros HQ. apply Rests_split; [by apply Holds_ret|apply Emits_ret]. Qed.

Lemma Rests_emit o (Q : unit -> Prop) : P o -> Q tt -> Rests I P (emit o) Q.
Proof. intros Ho HQ. apply Rests_split; [by intros s Hs|by apply Emits_emit]. Qed.

Lemma Rests_bind {A B} (m : M A) (f : A -> M B) (Q : A -> Prop) R :
  Rests I P m Q -> (forall a, Q a -> Rests I P (f a) R) -> Rests I P (bind m f) R.
Proof.
  intros Hm Hf s Hs. destruct (Hm s Hs) as (H1 & H2 & o1 & E1 & F1).
  unfold bind. destruct (m s) as [s' a]. cbn in H1, H2, E1.
  destruct (Hf a H2 s' H1) as (H3 & H4 & o2 & E2 & F2). split_and!; [done|done|].
  exists (o1 ++ o2). rewrite E2, E1, app_assoc. split; [done|]. by apply Forall_app.
Qed.

Context (e : benv) (He : forall k r, I r -> I (e_others e k r)).

Lemma Rests_read (Q : option (option hrow) -> Prop) :
  Q None -> (forall r, I r -> Q (Some r)) -> Rests I P (read e) Q.
Proof. intros Hn Hr. apply Rests_split; [by apply Holds_read|apply Emits_read]. Qed.

(** A claim that no row of [I] satisfies. *)
Lemma Rests_missed (guard : hrow -> bool) upd (Q : option Z -> Prop) :
  (forall w, I (Some w) -> guard w = false) -> Q None -> Q (Some 0) -> Rests I P (exec e guard upd) Q.
Proof.
  intros Hg Hn Hz s Hs. unfold exec, statement. specialize (He (x_k s) _ Hs).
  destruct (e_fails e (x_k s)); [split_and!; [done|done|exists []; by rewrite app_nil_r]|].
  destruct (e_others e (x_k s) (x_row s)) as [w|]; cbn.
  - rewrite (Hg w He). cbn. split_and!; [done|done|exists []; by rewrite app_nil_r].
  - split_and!; [done|done|exists []; by rewrite app_nil_r].
Qed.
End Rests.

(** ** Parked rows *)

(** What takes a row out of [st] on purpose, and the sweep of remote workspaces. *)
Definition leaves (st : string) (o : operation) : bool :=
  match o with
  | DoWake => bool_decide (st = "hibernated")
  | DoResume => bool_decide (st = "paused")
  | DoRestart _ => bool_decide (st <> "removed")
  | DoPause | DoStale => bool_decide (st = "hibernated")
  | _ => false
  end.

Definition at_status (st : string) (r : option hrow) : Prop := exists w, r = Some w /\ h_status w = st.
(** Nothing is started, and no status written. *)
Definition dormant (o : hout) : Prop := match o with Provision | Wrote _ _ _ => False | _ => True end.

Section Parked.
Context (st : string) (e : benv) (l : life_env).
Context (Hst : st ∈ ["removed"; "paused"; "hibernated"]).
Context (He : forall k r, at_status st r -> at_status st (e_others e k r)).

(** The claim of an operation that has nothing to do here. *)
Lemma rests_claim {B} (guard : hrow -> bool) upd (f : option Z -> M B) R :
  (forall w, h_status w = st -> guard w = false) ->
  Rests (at_status st) dormant (f None) R -> Rests (at_status st) dormant (f (Some 0)) R ->
  Rests (at_status st) dormant (bind (exec e guard upd) f) R.
Proof.
  intros Hg Hn Hz. eapply (Rests_bind _ _ _ _ (fun n => n = None \/ n = Some 0)); [|by intros ? [->| ->]].
  apply Rests_missed; [done| |by left|by right]. intros w (w' & [= <-] & Hw). by apply Hg.
Qed.

Lemma rests_lookup {B} (f : option (option hrow) -> M B) R :
  Rests (at_status st) dormant (f None) R ->
  (forall w, h_status w = st -> Rests (at_status st) dormant (f (Some (Some w))) R) ->
  Rests (at_status st) dormant (bind (read e) f) R.
Proof.
  intros Hn Hw. eapply (Rests_bind _ _ _ _ (fun o => o = None \/ exists w, o = Some (Some w) /\ h_status w = st)).
  - apply Rests_read; [done|by left|]. intros r (w & -> & Hs). right. by exists w.
  - intros ? [->|(w & -> & Hs)]; auto.
Qed.

Lemma rests_ignore {A} (m : M A) :
  Rests (at_status st) dormant m (fun _ => True) -> Rests (at_status st) dormant (_ <-- m ;; ret tt) (fun _ => True).
Proof. intros Hm. eapply Rests_bind; [done|]. intros. by apply Rests_ret. Qed.

Lemma rests_stop (Q : bool -> Prop) : (forall b, Q b) -> Rests (at_status st) dormant (StopWorkspaceAuto l) Q.
Proof.
  intros HQ. unfold StopWorkspaceAuto. destruct (HasProvisioner l); [|by apply Rests_ret].
  eapply (Rests_bind _ _ _ _ (fun _ => True)); [by apply Rests_emit|]. intros. by apply Rests_ret.
Qed.

(** Decides what [st] is among the three, and a test of it. *)
Ltac parked :=
  intros; unfold in_status, has_status, pausable; repeat match goal with
  | H : h_status _ = st |- _ => rewrite H; clear H
  | H : ?x ∈ _ :: _ |- _ => apply elem_of_cons in H as [->|H]
  | H : _ ∈ [] |- _ => by apply not_elem_of_nil in H
  end; first [reflexivity | assumption | done].

Lemma rests_hibernate force : Rests (at_status st) dormant (Hibernate e l force) (fun _ => True).
Proof.
  apply rests_lookup; [by apply Rests_ret|]. intros w Hw.
  assert (Hin : in_status ["online"; "degraded"] w = false) by parked. rewrite Hin. by apply Rests_ret.
Qed.

Lemma rests_cycle trigger halted : Rests (at_status st) dormant (runRestartCycle e l trigger halted) (fun _ => True).
Proof.
  apply rests_lookup; [by apply Rests_ret|]. intros w Hw. unfold cycle_proceeds. cbn [c_status].
  rewrite Hw, bool_decide_true by done. by apply Rests_ret.
Qed.

Lemma rests_restart body_ok : st = "removed" -> Rests (at_status st) dormant (Restart e l body_ok) (fun _ => True).
Proof. intros Hr. apply rests_lookup; [by apply Rests_ret|]. intros w Hw. unfold has_status. rewrite Hw, Hr. by apply Rests_ret. Qed.

Lemma rests_parked o : leaves st o = false -> Rests (at_status st) dormant (perform e l o) (fun _ => True).
Proof.
  intros Hl. destruct o; cbn [perform leaves] in *; try (apply rests_ignore).
  - apply rests_hibernate.
  - unfold WakeWorkspace. destruct (negb _); [by apply Rests_ret|]. apply rests_claim; [parked|by apply Rests_ret..].
  - eapply (Rests_bind _ _ _ _ (fun _ => True)); [by apply rests_stop|]. intros stopped _.
    destruct (negb stopped); [by apply Rests_ret|]. apply rests_claim; [parked|by apply Rests_ret..].
  - apply rests_claim; [parked|by apply Rests_ret..].
  - apply bool_decide_eq_false in Hl. apply rests_restart. destruct (decide (st = "removed")); tauto.
  - apply rests_cycle.
  - unfold mark_gone. destruct (l_probe l) as [[]|]; [by apply Rests_ret| |by apply Rests_ret].
    apply rests_claim; [parked|by apply Rests_ret|]. eapply (Rests_bind _ _ _ _ (fun _ => True)); [|intros]; by apply Rests_emit.
  - apply rests_claim; [parked|by apply Rests_ret|]. eapply (Rests_bind _ _ _ _ (fun _ => True)); [|intros]; by apply Rests_emit.
  - apply rests_claim; [parked|by apply Rests_ret|]. by apply Rests_emit.
Qed.
End Parked.

(** C19: a parked row rests, whatever fails, as long as the other writers leave it
    parked: its status is not written and nothing is provisioned for it - a removed
    row through every operation, a paused one through every one but resume and
    restart, a hibernated one through every one but wake, restart, pause and the
    sweep of stale remote workspaces ([leaves]). The last does not mean to: it
    makes a hibernated row awaiting_agent (stale_sweep_loses_the_hibernated). *)
Theorem parked_rows_rest st e l o s :
  st ∈ ["removed"; "paused"; "hibernated"] -> leaves st o = false ->
  (forall k r, at_status st r -> at_status st (e_others e k r)) -> at_status st (x_row s) ->
  let s' := fst (perform e l o s) in
  at_status st (x_row s') /\ exists out, x_out s' = x_out s ++ out /\ Forall dormant out.
Proof. intros Hst Hl He Hs. destruct (rests_parked st e l Hst He o Hl s Hs) as (? & _ & ?). by split. Qed.

(** ** The run of an UPDATE

    It errs or matches nothing, and the row is as the others left it; or it takes one
    row. *)
Lemma run_exec e (guard : hrow -> bool) upd s :
  let w0 := e_others e (x_k s) (x_row s) in
  let r := exec e guard upd s in
  (snd r = None \/ snd r = Some 0) /\ x_row (fst r) = w0 /\ x_out (fst r) = x_out s \/
  exists w, w0 = Some w /\ guard w = true /\ snd r = Some 1 /\ x_row (fst r) = Some (upd w) /\
            x_out (fst r) = x_out s ++ wrote w (upd w).
Proof.
  cbn zeta. unfold exec, statement. destruct (e_fails e (x_k s)); [left; cbn; rewrite app_nil_r; auto|].
  destruct (e_others e (x_k s) (x_row s)) as [w|]; [|left; cbn; rewrite app_nil_r; auto].
  destruct (guard w) eqn:Eg; [|left; cbn; rewrite app_nil_r; auto]. right. by exists w.
Qed.

(** What an UPDATE to the status [to] writes of a row in another. *)
Lemma wrote_to to w w' : h_status w' = to -> h_status w <> to -> wrote w w' = [Wrote (h_kind w) (h_status w) to].
Proof. intros <- Hne. unfold wrote. by rewrite decide_False by congruence. Qed.

Lemma run_read e s : exists o, snd (read e s) = o /\ x_out (fst (read e s)) = x_out s.
Proof. unfold read, statement. destruct (e_fails e (x_k s)); cbn; rewrite app_nil_r; eauto. Qed.

(** ** Hibernation *)

Section Hibernation.
Context (e : benv) (l : life_env).

(** The output of a claim that took [w], and of the stop. *)
Definition claim_out (w : hrow) : hout := Wrote (h_kind w) (h_status w) "hibernating".
Definition stop_out : list hout := if HasProvisioner l then [StopContainer (l_stops l)] else [].

Lemma claimable_wrote force w :
  claimable force w = true -> wrote w (touch (e_now e) (with_status "hibernating" w)) = [claim_out w].
Proof. intros Hc. apply wrote_to; [done|]. intros Hs. unfold claimable, in_status in Hc. by rewrite Hs in Hc. Qed.

Lemma run_stop s : x_out (fst (StopWorkspaceAuto l s)) = x_out s ++ stop_out /\ x_k (fst (StopWorkspaceAuto l s)) = x_k s.
Proof. unfold StopWorkspaceAuto, stop_out. destruct (HasProvisioner l); cbn; [done|by rewrite app_nil_r]. Qed.

(** The row a finished hibernation leaves. *)
Definition asleep (r : option hrow) : Prop :=
  forall w, r = Some w -> h_status w = "hibernated" /\ i_url (h_ident w) = Some "" /\ active_tasks (h_vitals w) = 0.

Lemma run_mark s :
  let r := exec e (fun _ => true)
             (fun w => touch (e_now e) (with_active 0 (with_url (Some "") (with_status "hibernated" w)))) s in
  snd r = None /\ x_out (fst r) = x_out s \/
  (exists n, snd r = Some n) /\ asleep (x_row (fst r)) /\ exists out, x_out (fst r) = x_out s ++ out /\ forall b, StopContainer b ∉ out.
Proof.
  cbn zeta. unfold exec, statement. destruct (e_fails e (x_k s)); [left; cbn; by rewrite app_nil_r|]. right.
  destruct (e_others e (x_k s) (x_row s)) as [w|]; cbn; (split; [by eexists|]); (split; [by intros w' [= <-]|]); eexists;
    (split; [done|]); intros b.
  - unfold wrote. case_decide; [by apply not_elem_of_nil|]. by intros Hb%list_elem_of_singleton.
  - apply not_elem_of_nil.
Qed.

(** What a hibernation did, by what it answered. *)
Definition hibernate_trace (force : bool) (s s' : hst) (r : hibernate_result) : Prop :=
  let w0 := e_others e (x_k s) (x_row s) in
  let claimed w := w0 = Some w /\ claimable force w = true in
  match r with
  | NotClaimed => x_row s' = w0 /\ x_out s' = x_out s
  | HibernateErr => x_out s' = x_out s \/ exists w, claimed w /\ x_out s' = x_out s ++ claim_out w :: stop_out
  | Hibernated => exists w rest, claimed w /\ x_out s' = x_out s ++ claim_out w :: stop_out ++ rest /\
                                 ClearKeys ∈ rest /\ (forall b, StopContainer b ∉ rest) /\ asleep (x_row s')
  end.

Lemma hibernate_traced force s s' r : hibernateWorkspace e l force s = (s', r) -> hibernate_trace force s s' r.
Proof.
  unfold hibernateWorkspace, bind at 1.
  destruct (run_exec e (claimable force) (fun w => touch (e_now e) (with_status "hibernating" w)) s)
    as [(Hn & Hw & Ho)|(w & Hw & Hc & Hn & _ & Ho)]; destruct (exec e (claimable force) _ s) as [s1 n]; cbn in *.
  { destruct Hn as [-> | ->]; intros [= <- <-]; [by left|by split]. }
  rewrite (claimable_wrote _ _ Hc) in Ho. subst n. unfold bind at 1.
  destruct (run_read e s1) as (o & Eo & Hr). destruct (read e s1) as [s2 o']. cbn in Eo, Hr. unfold bind at 1.
  destruct (run_stop s2) as [Hs _]. destruct (StopWorkspaceAuto l s2) as [s3 b]. cbn in Hs. unfold bind at 1.
  assert (E3 : x_out s3 = x_out s ++ claim_out w :: stop_out) by (by rewrite Hs, Hr, Ho, <- app_assoc).
  destruct (run_mark s3) as [[Hm Hx]|([m Hm] & Ha & out & Hx & Hno)];
    destruct (exec e (fun _ => true) _ s3) as [s4 n]; cbn in Hm, Hx; subst n.
  - intros [= <- <-]. right. exists w. split; [done|]. by rewrite Hx.
  - pose (rest := out ++ ClearKeys :: (if l_recorded l then [Announced "WORKSPACE_HIBERNATED"] else [])).
    assert (Hrest : forall b, StopContainer b ∉ rest).
    { intros b' [Hb|Hb]%elem_of_app; [by destruct (Hno b')|]. apply elem_of_cons in Hb as [Hb|Hb]; [done|].
      destruct (l_recorded l); [by apply list_elem_of_singleton in Hb|by apply not_elem_of_nil in Hb]. }
    assert (E4 : x_out s4 ++ ClearKeys :: (if l_recorded l then [Announced "WORKSPACE_HIBERNATED"] else []) =
                 x_out s ++ claim_out w :: stop_out ++ rest).
    { unfold rest. rewrite Hx, E3. cbn. by rewrite <- ?app_assoc, <- ?app_comm_cons, <- ?app_assoc. }
    assert (Hk : ClearKeys ∈ rest) by (unfold rest; set_solver).
    unfold record_event_, record_event. destruct (l_recorded l); intros [= <- <-]; exists w, rest;
      (split; [done|]); (split; [|done]); rewrite <- E4; cbn; [by rewrite <- app_assoc|done].
Qed.

(** What the handler did, by its answer: [out] is what it added. *)
Definition honest (force : bool) (out : list hout) (r : option hrow) (code : Z) : Prop :=
  (code = 404 \/ code = 409 -> out = []) /\
  (code = 200 -> ClearKeys ∈ out /\ asleep r /\ (HasProvisioner l = true -> StopContainer (l_stops l) ∈ out)) /\
  (forall b, StopContainer b ∈ out -> exists w rest, claimable force w = true /\ out = claim_out w :: rest).

Lemma honest_nothing force r code : code <> 200 -> honest force [] r code.
Proof. intros Hc. split_and!; [done|done|]. intros b Hb. by apply not_elem_of_nil in Hb. Qed.

Lemma honest_trace force s s' r :
  hibernate_trace force s s' r ->
  exists out, x_out s' = x_out s ++ out /\
              honest force out (x_row s') (match r with Hibernated => 200 | NotClaimed => 409 | HibernateErr => 500 end).
Proof.
  destruct r; cbn.
  - intros (w & rest & [_ Hc] & E & Hk & Hno & Ha). exists (claim_out w :: stop_out ++ rest). split; [done|]. split_and!.
    + intros [H|H]; discriminate.
    + intros _. split_and!; [set_solver|done|]. intros Hp. unfold stop_out. rewrite Hp. set_solver.
    + intros b _. by exists w, (stop_out ++ rest).
  - intros [_ E]. exists []. rewrite app_nil_r. split; [done|]. by apply honest_nothing.
  - intros [E|(w & [_ Hc] & E)].
    + exists []. rewrite app_nil_r. split; [done|]. by apply honest_nothing.
    + exists (claim_out w :: stop_out). split; [done|]. split_and!; [by intros [|]|done|]. intros b _. by exists w, stop_out.
Qed.

(** whatever fails and whoever else writes the row, a hibernation stops a container
    only after it took the row from online or degraded to hibernating, without tasks
    unless it was forced; a 404 or 409 means it did nothing at all; and a 200 means
    that the container was asked to stop, the keys are cleared, and the row reads
    hibernated, without url and tasks. *)
Theorem hibernation_claims_first force s :
  let '(s', code) := Hibernate e l force s in
  exists out, x_out s' = x_out s ++ out /\ honest force out (x_row s') code.
Proof.
  unfold Hibernate, bind at 1. destruct (run_read e s) as (o & Eo & Hr).
  destruct (read e s) as [s1 o']. cbn in Eo, Hr. subst o'.
  assert (Hnil : forall code, code <> 200 -> exists out, x_out s1 = x_out s ++ out /\ honest force out (x_row s1) code).
  { intros code Hc. exists []. rewrite app_nil_r. split; [done|]. by apply honest_nothing. }
  destruct o as [[w|]|]; [|by apply Hnil|by apply Hnil].
  destruct (negb (in_status _ w)); [by apply Hnil|]. destruct ((0 <? _) && _); [by apply Hnil|].
  unfold bind. destruct (hibernateWorkspace e l force s1) as [s2 r] eqn:E.
  destruct (honest_trace _ _ _ _ (hibernate_traced _ _ _ _ E)) as (out & Eo & Hh).
  exists out. by rewrite Eo, Hr.
Qed.
End Hibernation.

(** ** Waking and resuming *)

Section Waking.
Context (e : benv) (l : life_env).

Definition provisioning_event : list hout := if l_recorded l then [Announced "WORKSPACE_PROVISIONING"] else [].

(** What an operation that claims rows of status [from] adds: nothing, or the claim and
    then at most one provision.  [cut]: it may stop after the claim. *)
Definition provisions_claimed (from : string) (cut : bool) (w0 : option hrow) (out : list hout) : Prop :=
  out = [] \/
  exists w, w0 = Some w /\ h_status w = from /\
    (out = Wrote (h_kind w) from "provisioning" :: provisioning_event ++ [Provision] \/
     cut = true /\ out = [Wrote (h_kind w) from "provisioning"]).

Lemma run_stored_compute s : x_out (fst (stored_compute e s)) = x_out s.
Proof. unfold stored_compute, bind. destruct (run_read e s) as (o & _ & Hr). by destruct (read e s). Qed.
Lemma run_stored_template s : x_out (fst (stored_template e l s)) = x_out s.
Proof. unfold stored_template. destruct (l_cp l); [apply run_stored_compute|done]. Qed.

Lemma run_provision {A} (a : A) s : exists s',
  (stored_compute e ;;; stored_template e l ;;; emit Provision ;;; ret a) s = (s', a) /\ x_out s' = x_out s ++ [Provision].
Proof.
  unfold bind. assert (H1 := run_stored_compute s). destruct (stored_compute e s) as [s1 u1]. cbn in H1.
  assert (H2 := run_stored_template s1). destruct (stored_template e l s1) as [s2 u2]. cbn in *.
  eexists. split; [done|]. cbn. by rewrite H2, H1.
Qed.

Lemma run_event s :
  record_event l "WORKSPACE_PROVISIONING" s =
  (HSt (x_row s) (x_events s) (x_out s ++ provisioning_event) (x_k s) (x_recovered s) (x_overrides s) (x_cached s), l_recorded l).
Proof. unfold record_event, provisioning_event. destruct (l_recorded l); [done|]. rewrite app_nil_r. by destruct s. Qed.

Lemma wake_claims s :
  exists out, x_out (fst (WakeWorkspace e l s)) = x_out s ++ out /\
              provisions_claimed "hibernated" true (e_others e (x_k s) (x_row s)) out.
Proof.
  unfold WakeWorkspace. destruct (negb (HasProvisioner l)); [exists []; rewrite app_nil_r; split; [done|by left]|].
  unfold bind at 1.
  destruct (run_exec e (has_status "hibernated") (fun w => touch (e_now e) (with_url (Some "") (with_status "provisioning" w))) s)
    as [(Hn & _ & Ho)|(w & Hw & Hs%bool_decide_eq_true & Hn & _ & Ho)]; destruct (exec e _ _ s) as [s1 n]; cbn in Hn, Ho;
    [|rewrite (wrote_to "provisioning"), Hs in Ho by (done || by rewrite Hs)].
  - exists []. rewrite app_nil_r. split; [by destruct Hn as [->| ->]|by left].
  - subst n. unfold bind at 1. destruct (run_read e s1) as (o & Eo & Hr). destruct (read e s1) as [s2 o']. cbn in Eo, Hr. subst o'.
    assert (Hcut : exists out, x_out s2 = x_out s ++ out /\ provisions_claimed "hibernated" true (e_others e (x_k s) (x_row s)) out).
    { exists [Wrote (h_kind w) "hibernated" "provisioning"]. rewrite Hr, Ho. split; [done|]. right. exists w. auto. }
    destruct o as [[w1|]|]; [|done|done]. unfold record_event_, bind at 1 2. rewrite run_event. cbn [ret].
    match goal with |- context [fst (_ ?s3)] => destruct (run_provision tt s3) as (s' & E & Hp) end.
    exists (Wrote (h_kind w) "hibernated" "provisioning" :: provisioning_event ++ [Provision]).
    split; [|right; exists w; auto].
    transitivity (x_out s'); [change s' with (fst (s', tt)); by rewrite <- E|]. rewrite Hp. cbn. by rewrite Hr, Ho, <- !app_assoc.
Qed.

Lemma resume_claims s s' r :
  resume_one e l s = (s', r) ->
  exists out, x_out s' = x_out s ++ out /\
              provisions_claimed "paused" false (e_others e (x_k s) (x_row s)) out /\ (fst r = true <-> out <> []).
Proof.
  unfold resume_one, bind at 1.
  destruct (run_exec e (has_status "paused") (fun w => touch (e_now e) (with_unloaded None (with_status "provisioning" w))) s)
    as [(Hn & _ & Ho)|(w & Hw & Hs%bool_decide_eq_true & Hn & _ & Ho)]; destruct (exec e _ _ s) as [s1 n]; cbn in Hn, Ho;
    [|rewrite (wrote_to "provisioning"), Hs in Ho by (done || by rewrite Hs)].
  - intros E. exists []. rewrite app_nil_r. destruct Hn as [-> | ->]; injection E as <- <-; (split; [done|]; split; [by left|]; split; done).
  - subst n. unfold bind at 1. rewrite run_event.
    match goal with |- context [(stored_compute e ;;; _) ?s3] =>
      destruct (run_provision (true, if l_recorded l then None else Some SBroadcast) s3) as (s4 & E4 & Hp) end.
    rewrite E4. intros [= <- <-]. exists (Wrote (h_kind w) "paused" "provisioning" :: provisioning_event ++ [Provision]).
    split; [|split; [right; exists w; auto|split; done]]. rewrite Hp. cbn. by rewrite Ho, <- !app_assoc.
Qed.
End Waking.

(** a wake or a resume provisions a container only after its own statement took the
    row out of the status it is for, hibernated or paused, and then exactly once; a
    resume counts the workspace exactly when it did. *)
Theorem provision_follows_claim e l s :
  (exists out, x_out (fst (WakeWorkspace e l s)) = x_out s ++ out /\
               provisions_claimed l "hibernated" true (e_others e (x_k s) (x_row s)) out) /\
  let '(s', r) := resume_one e l s in
  exists out, x_out s' = x_out s ++ out /\
              provisions_claimed l "paused" false (e_others e (x_k s) (x_row s)) out /\ (fst r = true <-> out <> []).
Proof. split; [apply wake_claims|]. destruct (resume_one e l s) as [s' r] eqn:E. by apply resume_claims. Qed.

(** ** Cascades *)

Lemma each_ids {A} (run : string -> M A) ids t : map fst (snd (each run ids t)) = ids.
Proof.
  revert t. induction ids as [|i ids IH]; intros t; [done|]. cbn [each]. destruct (run i (state_of t i)) as [s a].
  specialize (IH (<[i := s]> t)). destruct (each run ids _) as [t' rs]. cbn in *. by rewrite IH.
Qed.

Lemma state_of_insert t i s j : state_of (<[i := s]> t) j = if decide (i = j) then s else state_of t j.
Proof. unfold state_of. case_decide; subst; [by rewrite lookup_insert_eq|by rewrite lookup_insert_ne]. Qed.

Section Each.
Context {A : Type} (run : string -> M A).
Context (Hmono : forall i s, x_out s `prefix_of` x_out (fst (run i s))).

Lemma each_mono ids t j : x_out (state_of t j) `prefix_of` x_out (state_of (fst (each run ids t)) j).
Proof.
  revert t. induction ids as [|i ids IH]; intros t; [done|]. cbn [each].
  specialize (Hmono i (state_of t i)). destruct (run i (state_of t i)) as [s a]. cbn in Hmono.
  specialize (IH (<[i := s]> t)). destruct (each run ids _) as [t' rs]. cbn in *. etransitivity; [|exact IH].
  rewrite state_of_insert. case_decide; subst; done.
Qed.

(** Each result is that of a run, whose outputs are among the workspace's in the end. *)
Lemma each_runs ids t r :
  r ∈ snd (each run ids t) -> exists s, snd (run (fst r) s) = snd r /\
    x_out (state_of t (fst r)) `prefix_of` x_out s /\
    x_out (fst (run (fst r) s)) `prefix_of` x_out (state_of (fst (each run ids t)) (fst r)).
Proof.
  revert t. induction ids as [|i ids IH]; intros t; [by intros ?%not_elem_of_nil|]. cbn [each].
  assert (Hi := Hmono i (state_of t i)). destruct (run i (state_of t i)) as [s a] eqn:Er. cbn in Hi.
  assert (Hm := each_mono ids (<[i := s]> t)). specialize (IH (<[i := s]> t)).
  destruct (each run ids _) as [t' rs]. cbn in *. intros [->|Hr]%elem_of_cons.
  - exists (state_of t i). cbn. rewrite Er. cbn. split_and!; [done|done|]. specialize (Hm i).
    by rewrite state_of_insert, decide_True in Hm.
  - destruct (IH Hr) as (s' & E & H1 & H2). exists s'. split_and!; [done| |done]. etransitivity; [|exact H1].
    rewrite state_of_insert. case_decide; by subst.
Qed.
End Each.

(** *** Pausing *)

(** What pausing one workspace adds, by its result. *)
Definition pause_segment (l : life_env) (r : bool * option stage) (out : list hout) : Prop :=
  let stopped := if HasProvisioner l then [StopContainer true] else [] in
  match r with
  | (false, Some SStop) => HasProvisioner l = true /\ out = [StopContainer false]
  | (false, Some SMark) | (false, Some SClaim) => out = stopped
  | (true, None) => exists w, pausable (h_status w) = true /\
      out = stopped ++ [Wrote (h_kind w) (h_status w) "paused"; ClearKeys; Announced "WORKSPACE_PAUSED"]
  | (true, Some SBroadcast) => exists w, pausable (h_status w) = true /\
      out = stopped ++ [Wrote (h_kind w) (h_status w) "paused"; ClearKeys]
  | _ => False
  end.

Lemma pause_traced e l s s' r :
  pause_one e l s = (s', r) -> exists out, x_out s' = x_out s ++ out /\ pause_segment l r out.
Proof.
  unfold pause_one, bind at 1. destruct (run_stop l s) as [Hs _].
  assert (Hb : snd (StopWorkspaceAuto l s) = negb (HasProvisioner l) || l_stops l) by
    (unfold StopWorkspaceAuto; by destruct (HasProvisioner l)).
  unfold pause_segment. unfold stop_out in Hs. destruct (StopWorkspaceAuto l s) as [s1 b]. cbn in Hs, Hb. subst b.
  destruct (HasProvisioner l); [destruct (l_stops l)|]; cbn [negb orb];
    [|intros [= <- <-]; by eexists|]; unfold bind at 1;
    (destruct (run_exec e (fun w => pausable (h_status w)) (fun w => touch (e_now e) (with_url (Some "") (with_status "paused" w))) s1)
      as [(Hn & _ & Ho)|(w & Hw & Hg & Hn & _ & Ho)]; destruct (exec e _ _ s1) as [s2 n]; cbn in Hn, Ho;
      [destruct Hn as [-> | ->]; intros [= <- <-]; rewrite Ho, Hs; by eexists|]);
    (rewrite (wrote_to "paused") in Ho by (done || (intros E; by rewrite E in Hg))); subst n;
    unfold record_event; destruct (l_recorded l); intros [= <- <-]; cbn; rewrite Ho, Hs, <- !app_assoc; eexists;
    (split; [done|]); by exists w.
Qed.

Lemma pause_prefix e l s : x_out s `prefix_of` x_out (fst (pause_one e l s)).
Proof.
  destruct (pause_one e l s) as [s' r] eqn:E. destruct (pause_traced _ _ _ _ _ E) as (out & Ho & _). by exists out.
Qed.

(** The outputs of workspace [i] from [t] to [t'] have [seg] in them. *)
Definition did (t t' : fleet) (i : string) (seg : list hout) : Prop :=
  exists pre post, x_out (state_of t' i) = x_out (state_of t i) ++ pre ++ seg ++ post.

Lemma did_mono t0 t t' i seg :
  x_out (state_of t0 i) `prefix_of` x_out (state_of t i) -> did t t' i seg -> did t0 t' i seg.
Proof. intros [a E] (pre & post & E'). exists (a ++ pre), post. by rewrite E', E, <- !app_assoc. Qed.

Lemma paused_each c ids t r :
  r ∈ snd (each (fun i => pause_one (ce_row c i) (ce_life c i)) ids t) ->
  exists seg, did t (fst (each (fun i => pause_one (ce_row c i) (ce_life c i)) ids t)) (fst r) seg /\
              pause_segment (ce_life c (fst r)) (snd r) seg.
Proof.
  intros Hr. apply each_runs in Hr; [|intros; apply pause_prefix]. destruct Hr as (s & Er & [pre E1] & [post E2]).
  destruct (pause_one _ _ s) as [s' r'] eqn:Ep. cbn in Er, E2. subst r'.
  destruct (pause_traced _ _ _ _ _ Ep) as (seg & E3 & Hseg). exists seg. split; [|done]. exists pre, post.
  by rewrite E2, E3, E1, <- !app_assoc.
Qed.

(** *** What a report says *)

Lemma failures_nil rs : failures_of rs = [] <-> Forall (fun r => snd (snd r) = None) rs.
Proof.
  induction rs as [|[i [b [st|]]] rs IH]; cbn; [done|..].
  - split; [done|]. intros H. by inversion H.
  - rewrite IH. split; [by constructor|]. by inversion 1.
Qed.

Lemma count_zero rs : count_of rs = 0 <-> Forall (fun r => fst (snd r) = false) rs.
Proof.
  unfold count_of. transitivity (filter (fun r : string * (bool * option stage) => fst (snd r) = true) rs = []).
  { destruct (filter _ rs); [done|]. cbn [length]. split; [lia|done]. }
  induction rs as [|[i [b f]] rs IH]; [done|]. rewrite filter_cons. cbn [fst snd]. destruct b; cbn [decide].
  - rewrite decide_True by done. split; [done|]. intros H. by inversion H.
  - rewrite decide_False by done. rewrite IH. split; [by constructor|]. by inversion 1.
Qed.

Lemma report_codes rs :
  exists code, report rs = CascadeReport code (count_of rs) (failures_of rs) /\
  (code = 200 <-> Forall (fun r => snd (snd r) = None) rs) /\
  (code = 500 <-> failures_of rs <> [] /\ Forall (fun r => fst (snd r) = false) rs) /\ code ∈ [200; 207; 500].
Proof.
  unfold report. eexists. split; [done|]. rewrite <- failures_nil, <- count_zero.
  destruct (decide (failures_of rs = [])) as [Hf|Hf]; [|destruct (count_of rs =? 0) eqn:Ec].
  - split; [done|]. split; [|set_solver]. split; [done|]. by intros [H _].
  - apply Z.eqb_eq in Ec. split; [done|]. split; [by split|set_solver].
  - apply Z.eqb_neq in Ec. split; [done|]. split; [|set_solver]. split; [done|]. by intros [_ H].
Qed.

Lemma lookup_root_keeps e wanted s : x_out (fst (lookup_root e wanted s)) = x_out s.
Proof. unfold lookup_root, bind. destruct (run_read e s) as (o & _ & Hr). by destruct (read e s). Qed.

Lemma state_after_lookup e wanted id t i :
  x_out (state_of (<[id := fst (lookup_root e wanted (state_of t id))]> t) i) = x_out (state_of t i).
Proof. rewrite state_of_insert. case_decide; [subst; apply lookup_root_keeps|done]. Qed.

(** What a pause answers is what it did, whatever fails and whoever else writes.
    Refused, it did nothing.  Otherwise it went through the workspace and its
    descendants: 200 means that every one of them was stopped, and its row taken to
    paused by this call; 500 that it took no row to paused; the count is the number of
    rows it took; and each failure says how far that workspace got. *)
Lemma pause_reports_what_it_did e c cascade id t :
  match Pause e c cascade id t with
  | (t', CascadeRefused _) => forall i, x_out (state_of t' i) = x_out (state_of t i)
  | (t', CascadeReport code n fs) =>
      exists rs, map fst rs = id :: cascade_ids pausable c id /\ n = count_of rs /\ fs = failures_of rs /\
      (forall r, r ∈ rs -> exists seg, did t t' (fst r) seg /\ pause_segment (ce_life c (fst r)) (snd r) seg) /\
      (code = 200 <-> Forall (fun r => snd (snd r) = None) rs) /\
      (code = 500 -> Forall (fun r => fst (snd r) = false) rs) /\ code ∈ [200; 207; 500]
  end.
Proof.
  unfold Pause. assert (Hl := state_after_lookup e pausable id t).
  destruct (lookup_root e pausable (state_of t id)) as [s [code|]]; cbn [fst] in Hl; [done|].
  unfold targets. destruct (negb cascade && _); [done|].
  set (run := fun i => pause_one (ce_row c i) (ce_life c i)).
  assert (Hi := each_ids run (id :: cascade_ids pausable c id) (<[id := s]> t)).
  assert (Hp := paused_each c (id :: cascade_ids pausable c id) (<[id := s]> t)). fold run in Hp.
  destruct (each run _ _) as [t' rs]. cbn [fst snd] in Hi, Hp.
  destruct (report_codes rs) as (code & -> & H200 & H500 & Hc). exists rs. split_and!; try done.
  - intros r Hr. destruct (Hp r Hr) as (seg & Hd & Hseg). exists seg. split; [|done]. eapply did_mono; [|exact Hd]. by rewrite Hl.
  - intros E. by apply H500.
Qed.

(** ** The subtree of the recursive query *)

(** [c] hangs below [id] by rows that satisfy [P]. *)
Inductive Below (P : string -> bool) (t : wstable) (id : string) : string -> Prop :=
| below_kid c row : t !! c = Some row -> P (ws_status row) = true -> ws_parent row = Some id -> Below P t id c
| below_deeper c row p : t !! c = Some row -> P (ws_status row) = true -> ws_parent row = Some p ->
                         Below P t id p -> Below P t id c.

Section Subtree.
Context (P : string -> bool) (t : wstable) (id : string).

Lemma kids_spec w k : k ∈ kids P t w <-> exists row, t !! k = Some row /\ ws_parent row = Some w /\ P (ws_status row) = true.
Proof.
  unfold kids. rewrite list_elem_of_fmap. split.
  - intros ([k' row] & -> & (Hp & Hk)%list_elem_of_filter). apply elem_of_map_to_list in Hk. exists row. cbn in *. tauto.
  - intros (row & Hk & Hp). exists (k, row). split; [done|]. apply list_elem_of_filter. split; [done|].
    by apply elem_of_map_to_list.
Qed.

(** The chain from [c] up to a child of [id], [c] first. *)
Inductive chain : string -> list string -> Prop :=
| chain_kid c : c ∈ kids P t id -> chain c [c]
| chain_deeper c p l : c ∈ kids P t p -> chain p l -> chain c (c :: l).

Lemma below_chain c : Below P t id c -> exists l, chain c l.
Proof.
  induction 1 as [c row Hc Hs Hp|c row p Hc Hs Hp _ [l Hl]].
  - exists [c]. constructor. apply kids_spec. eauto.
  - exists (c :: l). econstructor; [|exact Hl]. apply kids_spec. eauto.
Qed.

(** A chain can be cut at any of its elements. *)
Lemma chain_suffix c l x : chain c l -> x ∈ l -> NoDup l -> exists l', chain x l' /\ NoDup l'.
Proof.
  induction 1 as [c Hc|c p l Hc Hl IH]; intros Hx Hn.
  - apply list_elem_of_singleton in Hx as ->. exists [c]. split; [by constructor|done].
  - apply NoDup_cons in Hn as [Hn1 Hn2]. apply elem_of_cons in Hx as [->|Hx]; [|by apply IH].
    exists (c :: l). split; [by econstructor|]. by apply NoDup_cons.
Qed.

Lemma chain_nodup c l : chain c l -> exists l', chain c l' /\ NoDup l'.
Proof.
  induction 1 as [c Hc|c p l Hc Hl (l' & Hl' & Hn)].
  - exists [c]. split; [by constructor|apply NoDup_singleton].
  - destruct (decide (c ∈ l')) as [Hin|Hin]; [by apply chain_suffix with p l'|].
    exists (c :: l'). split; [by econstructor|]. by apply NoDup_cons.
Qed.

Lemma chain_rows c l : chain c l -> forall x, x ∈ l -> x ∈ dom t.
Proof.
  induction 1 as [c Hc|c p l Hc Hl IH]; intros x Hx.
  - apply list_elem_of_singleton in Hx as ->. apply kids_spec in Hc as (row & Hc & _). by apply elem_of_dom_2 in Hc.
  - apply elem_of_cons in Hx as [->|Hx]; [|by apply IH]. apply kids_spec in Hc as (row & Hc & _). by apply elem_of_dom_2 in Hc.
Qed.

(** A chain of [n] rows ends in the [n]-th generation. *)
Definition next (front : list string) : list string := flat_map (kids P t) front.

Lemma generations_level n : forall fuel front c,
  c ∈ Nat.iter n next front -> (n < fuel)%nat -> c ∈ generations P t fuel front.
Proof.
  induction n as [|n IH]; intros [|fuel] front c Hc Hn; try lia; cbn [generations]; apply elem_of_app; [by left|].
  right. apply IH; [|lia]. by rewrite Nat.iter_succ_r in Hc.
Qed.

Lemma chain_level c l : chain c l -> c ∈ Nat.iter (pred (length l)) next (kids P t id).
Proof.
  induction 1 as [c Hc|c p l Hc Hl IH]; [done|]. cbn [length pred].
  assert (Hne : l <> []) by (by inversion Hl). destruct l as [|x l]; [done|]. cbn in *.
  apply list_elem_of_In, in_flat_map. exists p. split; by apply list_elem_of_In.
Qed.

(** The query finds everything below [id], whatever the depth. *)
Lemma subtree_complete c : Below P t id c -> c ∈ subtree P t id.
Proof.
  intros Hb. apply below_chain in Hb as [l0 Hl0]. apply chain_nodup in Hl0 as (l & Hl & Hn).
  apply generations_level with (pred (length l)); [by apply chain_level|].
  assert (Hsz : (length l <= size t)%nat).
  { rewrite <- size_dom, <- (size_list_to_set (C := gset string) l) by done.
    apply subseteq_size. intros x Hx%elem_of_list_to_set. by apply (chain_rows c l). }
  assert (Hne : l <> []) by (by inversion Hl). destruct l; [done|]. cbn in *. lia.
Qed.
End Subtree.

(** a cascade that was answered with 200, its query whole, left nothing behind:
    the workspace and everything that hung below it by rows neither removed nor paused
    had its container stopped and its row taken to paused, however deep. *)
Theorem cascade_pause_is_complete e c cascade id t t' n fs i :
  Pause e c cascade id t = (t', CascadeReport 200 n fs) -> ce_cut c = None ->
  i = id \/ Below pausable (ce_tree c) id i ->
  exists kind st, pausable st = true /\
    did t t' i ((if HasProvisioner (ce_life c i) then [StopContainer true] else []) ++ [Wrote kind st "paused"; ClearKeys]).
Proof.
  intros E Hcut Hi. assert (H := pause_reports_what_it_did e c cascade id t). rewrite E in H.
  destruct H as (rs & Hids & _ & _ & Hr & H200 & _). assert (Hall := proj1 H200 eq_refl). rewrite Forall_forall in Hall.
  assert (Hin : i ∈ map fst rs).
  { rewrite Hids. apply elem_of_cons. destruct Hi as [->|Hb]; [by left|]. right. unfold cascade_ids. rewrite Hcut.
    by apply subtree_complete. }
  apply list_elem_of_fmap in Hin as ([i' [counted f]] & -> & Hin). specialize (Hall _ Hin). cbn in Hall. subst f.
  destruct (Hr _ Hin) as (seg & (pre & post & Ed) & Hseg). cbn in *. destruct counted; [|done].
  destruct Hseg as (w & Hw & ->). exists (h_kind w), (h_status w). split; [done|].
  exists pre, (Announced "WORKSPACE_PAUSED" :: post). rewrite Ed, <- !app_assoc. done.
Qed.

(** ** Undisturbed *)

Section Undisturbed.
Context (ov : gmap string runtimeOverrideEntry) (l : life_env).

Lemma ends_stop w (Q : hrow -> bool -> Prop) : Q w (negb (HasProvisioner l) || l_stops l) -> ends ov (StopWorkspaceAuto l) w Q.
Proof. intros HQ. unfold StopWorkspaceAuto. destruct (HasProvisioner l); [by apply ends_bind, ends_emit, ends_ret|by apply ends_ret]. Qed.

Lemma ends_record ev w (Q : hrow -> bool -> Prop) : Q w (l_recorded l) -> ends ov (record_event l ev) w Q.
Proof. intros HQ. unfold record_event. destruct (l_recorded l); [by apply ends_bind, ends_emit, ends_ret|by apply ends_ret]. Qed.

Lemma ends_stored {A} e (m : M A) w Q : quiet e ->
  ends ov m w Q -> ends ov (stored_compute e ;;; stored_template e l ;;; m) w Q.
Proof.
  intros Hq Hm. apply ends_bind. unfold stored_compute. apply ends_bind, ends_read, ends_ret, ends_bind; [done|].
  unfold stored_template. apply ends_when; [|done]. intros _. by apply ends_bind, ends_read, ends_ret.
Qed.

Lemma ends_hibernate e force w : quiet e -> claimable force w = true ->
  ends ov (Hibernate e l force) w
    (fun w' code => code = 200 /\ w' = touch (e_now e) (with_active 0 (with_url (Some "") (with_status "hibernated" w)))).
Proof.
  intros Hq Hc. unfold Hibernate. apply ends_bind, ends_read; [done|].
  assert (Hs := Hc). unfold claimable in Hs. apply andb_true_iff in Hs as [Hs Ha]. rewrite Hs. cbn [negb].
  assert (Hnot : (0 <? active_tasks (h_vitals w)) && negb force = false).
  { destruct force; [apply andb_false_r|]. cbn in Ha. apply Z.eqb_eq in Ha. by rewrite Ha. }
  rewrite Hnot. apply ends_bind. unfold hibernateWorkspace. apply ends_bind, ends_exec; [done|]. rewrite Hc.
  apply ends_bind, ends_read; [done|]. apply ends_bind, ends_stop, ends_bind, ends_exec; [done|].
  apply ends_bind, ends_emit, ends_bind. unfold record_event_. by apply ends_bind, ends_record, ends_ret, ends_ret, ends_ret.
Qed.

Lemma ends_wake e w : quiet e -> HasProvisioner l = true -> h_status w = "hibernated" ->
  ends ov (WakeWorkspace e l) w (fun w' _ => w' = touch (e_now e) (with_url (Some "") (with_status "provisioning" w))).
Proof.
  intros Hq Hp Hs. unfold WakeWorkspace. rewrite Hp. cbn [negb]. apply ends_bind, ends_exec; [done|].
  unfold has_status. rewrite bool_decide_true by done. apply ends_bind, ends_read; [done|].
  apply ends_bind. unfold record_event_. by apply ends_bind, ends_record, ends_ret, ends_stored, ends_emit.
Qed.

Lemma ends_pause e w : quiet e -> negb (HasProvisioner l) || l_stops l = true -> pausable (h_status w) = true ->
  ends ov (pause_one e l) w
    (fun w' r => r.1 = true /\ w' = touch (e_now e) (with_url (Some "") (with_status "paused" w))).
Proof.
  intros Hq Hp Hs. unfold pause_one. apply ends_bind, ends_stop. rewrite Hp. cbn [negb]. apply ends_bind, ends_exec; [done|].
  rewrite Hs. by apply ends_bind, ends_emit, ends_bind, ends_record, ends_ret.
Qed.

Lemma ends_resume e w : quiet e -> h_status w = "paused" ->
  ends ov (resume_one e l) w (fun w' r => r.1 = true /\ w' = touch (e_now e) (with_unloaded None (with_status "provisioning" w))).
Proof.
  intros Hq Hs. unfold resume_one. apply ends_bind, ends_exec; [done|]. unfold has_status. rewrite bool_decide_true by done.
  by apply ends_bind, ends_record, ends_stored, ends_bind, ends_emit, ends_ret.
Qed.
End Undisturbed.

(** C20: a workspace put to sleep and woken up is the one it was.  Undisturbed, a
    hibernation and its wake, or a pause and its resume, leave a row that differs from
    the first only in its status, now provisioning, its empty url, its last update and,
    for a hibernation, the tasks that were ended, for a resume, the cleared stamp of
    the management MCP. *)
Theorem sleep_round_trip e e' l force s w :
  quiet e -> quiet e' -> HasProvisioner l = true -> l_stops l = true -> claimable force w = true -> x_row s = Some w ->
  x_row (fst (WakeWorkspace e' l (fst (Hibernate e l force s)))) =
    Some (touch (e_now e') (with_url (Some "") (with_status "provisioning" (with_active 0 w)))) /\
  x_row (fst (resume_one e' l (fst (pause_one e l s)))) =
    Some (touch (e_now e') (with_unloaded None (with_url (Some "") (with_status "provisioning" w)))).
Proof.
  intros Hq Hq' Hp Hst Hc Hs. split.
  - destruct (ends_hibernate _ l e force w Hq Hc s Hs eq_refl) as (w1 & H1 & Hov & _ & ->).
    match type of H1 with _ = Some ?w1 =>
      destruct (ends_wake _ l e' w1 Hq' Hp eq_refl _ H1 Hov) as (w2 & H2 & _ & ->) end. by rewrite H2.
  - assert (Hpa : pausable (h_status w) = true).
    { unfold claimable in Hc. apply andb_true_iff in Hc as [Hc _]. apply bool_decide_eq_true in Hc. unfold pausable.
      apply elem_of_cons in Hc as [->|Hc]; [done|]. by apply list_elem_of_singleton in Hc as ->. }
    assert (Hstop : negb (HasProvisioner l) || l_stops l = true) by (by rewrite Hst, orb_true_r).
    destruct (ends_pause _ l e w Hq Hstop Hpa s Hs eq_refl) as (w1 & H1 & Hov & _ & ->).
    match type of H1 with _ = Some ?w1 =>
      destruct (ends_resume _ l e' w1 Hq' eq_refl _ H1 Hov) as (w2 & H2 & _ & _ & ->) end. by rewrite H2.
Qed.

(** ** Concrete runs *)

Module LifecycleDemo.
Definition calm (now : time) : benv := BEnv now (fun _ => false) (fun _ r => r) false [] [] false false false false false None.
(** Others set the status before statement [k]. *)
Definition meddled (k : nat) (st : string) (now : time) : benv :=
  BEnv now (fun _ => false) (fun k' r => if (k' =? k)%nat then with_status st <$> r else r)
    false [] [] false false false false false None.
Definition wired : life_env := LifeEnv true false true true true false (Some true).
Definition unstoppable : life_env := LifeEnv true false false true true false (Some false).
Definition some_row (st : string) : hrow :=
  HRow st (Identity (Some "agent") None None (Some "http://a:1") (Some "push") None "workspace")
    (Vitals 0 0 0 None 0 false) "" None (Some 5) (Some 7) 7 1 None None 0 0 None.
Definition on (st : string) : hst := begin_on (Some (some_row st)).
Definition status_of (s : hst) : option string := h_status <$> x_row s.

Lemma parked_rows_rest_witness :
  leaves "paused" (DoCycle "liveness-monitor" false) = false /\
  at_status "paused" (x_row (fst (perform (calm 9) wired (DoCycle "liveness-monitor" false) (on "paused")))).
Proof.
  split; [reflexivity|].
  refine (proj1 (parked_rows_rest "paused" (calm 9) wired (DoCycle "liveness-monitor" false) (on "paused") _ eq_refl _ _)).
  - apply elem_of_cons. right. apply elem_of_cons. by left.
  - intros k r Hr. exact Hr.
  - by exists (some_row "paused").
Defined.

(** A root, its child and a grandchild behind a child that was removed. *)
Definition tree : wstable :=
  {[ "root" := WsRow "root" None "online" None None; "kid" := WsRow "kid" (Some "root") "online" None None;
     "gone" := WsRow "gone" (Some "root") "removed" None None; "deep" := WsRow "deep" (Some "kid") "degraded" None None ]}.
Definition rows3 : fleet := {[ "root" := on "online"; "kid" := on "online"; "deep" := on "degraded" ]}.
Definition cascade_of (cut : option nat) : cascade_env := CascadeEnv (fun _ => calm 9) (fun _ => wired) tree cut.

Example whole_cascade : snd (Pause (calm 9) (cascade_of None) true "root" rows3) = CascadeReport 200 3 [].
Proof. vm_compute. reflexivity. Qed.

Lemma below_root_deep : Below pausable tree "root" "deep".
Proof.
  eapply below_deeper; [reflexivity|reflexivity|reflexivity|]. eapply below_kid; reflexivity.
Qed.

Lemma cascade_pause_is_complete_witness :
  exists kind st, pausable st = true /\
    did rows3 (fst (Pause (calm 9) (cascade_of None) true "root" rows3)) "deep" [StopContainer true; Wrote kind st "paused"; ClearKeys].
Proof.
  assert (E : Pause (calm 9) (cascade_of None) true "root" rows3 =
              (fst (Pause (calm 9) (cascade_of None) true "root" rows3), CascadeReport 200 3 [])).
  { rewrite <- whole_cascade. apply surjective_pairing. }
  exact (cascade_pause_is_complete _ _ _ _ _ _ _ _ "deep" E eq_refl (or_intror below_root_deep)).
Defined.

(** When the query for the descendants fails, only the workspace itself is paused, and
    the answer is 200. *)
Example lost_query_pauses_the_root_alone :
  let '(t, reply) := Pause (calm 9) (cascade_of (Some O)) true "root" rows3 in
  reply = CascadeReport 200 1 [] /\ status_of (state_of t "kid") = Some "online".
Proof. vm_compute. by split. Qed.

Lemma sleep_round_trip_witness :
  quiet (calm 9) /\
  x_row (fst (WakeWorkspace (calm 10) wired (fst (Hibernate (calm 9) wired false (on "online"))))) =
    Some (touch 10 (with_url (Some "") (with_status "provisioning" (with_active 0 (some_row "online"))))).
Proof.
  assert (Hq : forall now, quiet (calm now)) by (intros now; by split). split; [done|].
  exact (proj1 (sleep_round_trip (calm 9) (calm 10) wired false (on "online") (some_row "online") (Hq 9) (Hq 10) eq_refl eq_refl eq_refl eq_refl)).
Defined.

(** *** What goes wrong *)

(** A workspace that is deleted while its container is being stopped comes back
    hibernated, and the next message wakes it. *)
Example deleted_workspace_hibernates :
  let '(s, code) := Hibernate (meddled 3 "removed" 9) wired false (on "online") in
  (code, status_of s, status_of (fst (WakeWorkspace (calm 10) wired s))) = (200, Some "hibernated", Some "provisioning").
Proof. vm_compute. reflexivity. Qed.

(** One that is deleted while an automatic restart waits is provisioned again. *)
Example deleted_workspace_is_restarted :
  let s := fst (runRestartCycle (meddled 2 "removed" 9) wired "" false (on "online")) in
  status_of s = Some "provisioning" /\ Provision ∈ x_out s.
Proof. vm_compute. split; [done|]. apply list_elem_of_In. cbn. tauto. Qed.

(** A container that does not stop is reported as hibernated. *)
Example running_container_reads_hibernated :
  let '(s, code) := Hibernate (calm 9) unstoppable false (on "online") in
  code = 200 /\ status_of s = Some "hibernated" /\ StopContainer false ∈ x_out s.
Proof. vm_compute. split_and!; [done|done|]. apply list_elem_of_In. cbn. tauto. Qed.

(** The sweep of remote workspaces takes a hibernated one, after which no message wakes it. *)
Example stale_sweep_loses_the_hibernated :
  let s := fst (mark_stale (calm 9) (on "hibernated")) in
  status_of s = Some "awaiting_agent" /\ x_out (fst (WakeWorkspace (calm 10) wired s)) = x_out s.
Proof. vm_compute. by split. Qed.

(** The health sweep leaves a paused row alone, and announces it offline. *)
Example paused_workspace_is_announced_offline :
  let s := fst (mark_gone (calm 9) unstoppable (on "paused")) in (status_of s, x_out s) = (Some "paused", [ClearKeys; Offline]).
Proof. vm_compute. reflexivity. Qed.

(** A wake keeps the stamp of the management MCP; a resume clears it. *)
Example wake_keeps_the_stamp :
  h_unloaded <$> x_row (fst (WakeWorkspace (calm 9) wired (on "hibernated"))) = Some (Some 5) /\
  h_unloaded <$> x_row (fst (resume_one (calm 9) wired (on "paused"))) = Some None.
Proof. vm_compute. by split. Qed.

(** A workspace without tasks for a day is no candidate while it beats, and one that
    never beat is none at all. *)
Example beating_workspace_never_sleeps :
  let day := 86400 * Second in
  idle_candidate day (Some 5) (with_heartbeat (day - 30 * Second) (some_row "online")) = false /\
  idle_candidate day (Some 5) (some_row "online") = true.
Proof. vm_compute. by split. Qed.
Lemma silent_workspace_never_sleeps now m w : h_heartbeat_at w = None -> idle_candidate now m w = false.
Proof. intros Hb. unfold idle_candidate. rewrite Hb. destruct m; [apply andb_false_r|done]. Qed.

(** A freshness window too long for a duration turns negative, and every remote
    workspace is stale. *)
Example long_window_is_negative :
  staleAfterSec "9223372037" = -9223372036 /\
  remote_stale 100 (staleAfterSec "9223372037")
    (with_ident (Identity None None None None None (Some "external") "workspace") (some_row "online")) = true.
Proof. vm_compute. by split. Qed.
End LifecycleDemo.
