(* ===== verification/OrgTokens.v ===== *)
(** * Organization tokens

    internal/orgtoken and internal/handlers/org_tokens.go: bearers that open every
    workspace of an org, of which the database keeps the SHA-256, with their audit
    trail, the credential of the concierge in platform_agent.go, and the handlers that
    mint and revoke.  The random plaintext, the drawn id, the hash and uuid.Parse are
    arguments. *)

From S2P Require Import Prelude Tree RateLimit AgentCard Tokens.

Record org_row := OrgRow {
  ot_hash : string; ot_prefix : string; ot_name : option string; ot_by : option string;
  ot_org : option string; ot_created : time; ot_last_used : option time; ot_revoked : option time; ot_expires : option time
}.

Record audit := Audit { au_token : option string; au_action : string; au_actor : string; au_org : option string }.

(** The tokens by id, the ids in workspaces, and the audit trail. *)
Record org_db := OrgDb { od_tokens : gmap string org_row; od_workspaces : gset string; od_audit : list audit }.

Definition with_tokens (t : gmap string org_row) (db : org_db) : org_db := OrgDb t (od_workspaces db) (od_audit db).
Definition set_org_used (now : time) (r : org_row) : org_row :=
  OrgRow (ot_hash r) (ot_prefix r) (ot_name r) (ot_by r) (ot_org r) (ot_created r) (Some now) (ot_revoked r) (ot_expires r).
Definition set_org_revoked (now : time) (r : org_row) : org_row :=
  OrgRow (ot_hash r) (ot_prefix r) (ot_name r) (ot_by r) (ot_org r) (ot_created r) (ot_last_used r) (Some now) (ot_expires r).
Definition set_org_anchor (o : option string) (r : org_row) : org_row :=
  OrgRow (ot_hash r) (ot_prefix r) (ot_name r) (ot_by r) o (ot_created r) (ot_last_used r) (ot_revoked r) (ot_expires r).

Definition org_live (r : org_row) : bool := bool_decide (ot_revoked r = None).

(** ON DELETE SET NULL, when the row of [ws] is deleted. *)
Definition purge_workspace (ws : string) (db : org_db) : org_db :=
  OrgDb ((fun r => if decide (ot_org r = Some ws) then set_org_anchor None r else r) <$> od_tokens db)
    (od_workspaces db ∖ {[ ws ]}) (od_audit db).

Definition listMax : nat := 500.
Definition defaultMintCeiling : Z := 100.
(** ORG_TOKEN_MINT_CEILING, read once. *)
Definition mintCeiling (v : string) : Z :=
  if decide (v = "") then defaultMintCeiling else default defaultMintCeiling (Atoi v).

(** Best effort. *)
Definition LogAuditEvent (fails : bool) (a : audit) (db : org_db) : org_db :=
  if fails then db else OrgDb (od_tokens db) (od_workspaces db) (od_audit db ++ [a]).

Section OrgTokens.
Context `{UuidCast}.
Context (sha256 : string -> string).

(** ** Issue *)

Definition not_expired (now : time) (r : org_row) : bool :=
  match ot_expires r with None => true | Some t => now <? t end.
Definition counted (now : time) (org : string) (r : org_row) : bool :=
  bool_decide (ot_org r = Some org) && org_live r && not_expired now r.
Definition count_live (now : time) (org : string) (db : org_db) : Z :=
  Z.of_nat (size (filter (fun kr => counted now org kr.2 = true) (od_tokens db))).

Inductive mint_error := PastExpiry | CeilingExceeded | MintFailed.

(** What comes before the INSERT, [None] to go on.  The zero time counts as no
    expiry. *)
Definition mint_check (fails : bool) (ceiling : Z) (now : time) (orgID : string) (expires : option time) (db : org_db)
    : option mint_error :=
  if match expires with Some t => t <? now | None => false end then Some PastExpiry
  else if (0 <? ceiling) && negb (bool_decide (orgID = "")) then
    match fails, canon orgID with
    | false, Some org => if ceiling <=? count_live now org db then Some CeilingExceeded else None
    | _, _ => Some MintFailed
    end
  else None.

(** The anchor the column takes: a uuid that names a workspace. *)
Definition anchor_of (orgID : string) (db : org_db) : option (option string) :=
  if decide (orgID = "") then Some None
  else match canon orgID with
       | Some o => if decide (o ∈ od_workspaces db) then Some (Some o) else None
       | None => None
       end.

Definition hash_taken (hash : string) (db : org_db) : bool :=
  existsb (fun kr => bool_decide (ot_hash kr.2 = hash)) (map_to_list (od_tokens db)).

Definition mint_insert (fails : bool) (plaintext gen : string) (now : time) (name createdBy orgID : string)
    (expires : option time) (db : org_db) : option org_db :=
  if fails || bool_decide (is_Some (od_tokens db !! gen)) || hash_taken (sha256 plaintext) db then None
  else match anchor_of orgID db with
       | Some org =>
           Some (with_tokens (<[gen := OrgRow (sha256 plaintext) (str_take tokenPrefixLen plaintext) (nullif_empty name)
                                         (nullif_empty createdBy) org now None None expires]> (od_tokens db)) db)
       | None => None
       end.

(** What a mint meets: the faults of its three statements, the others before its
    INSERT, the encoded random bytes - [None] when the generator errors - and the id. *)
Record mint_env := MintEnv {
  m_count_fails : bool; m_insert_fails : bool; m_audit_fails : bool; m_others : org_db -> org_db;
  m_plaintext : option string; m_gen : string
}.

Definition IssueWithExpiry (m : mint_env) (ceiling : Z) (now : time) (name createdBy orgID : string) (expires : option time)
    (db : org_db) : org_db * (string * string + mint_error) :=
  match mint_check (m_count_fails m) ceiling now orgID expires db with
  | Some err => (db, inr err)
  | None =>
      let db := m_others m db in
      match m_plaintext m with
      | None => (db, inr MintFailed)
      | Some p =>
          match mint_insert (m_insert_fails m) p (m_gen m) now name createdBy orgID expires db with
          | None => (db, inr MintFailed)
          | Some db => (LogAuditEvent (m_audit_fails m) (Audit (Some (m_gen m)) "mint" createdBy (nullif_empty orgID)) db,
                        inl (p, m_gen m))
          end
      end
  end.

Definition Issue (m : mint_env) (ceiling : Z) (now : time) (name createdBy orgID : string) (db : org_db)
    : org_db * (string * string + mint_error) :=
  IssueWithExpiry m ceiling now name createdBy orgID None db.

(** ** Validate *)

Definition org_lookup (hash : string) (db : org_db) : option (string * org_row) :=
  head (filter (fun kr => (bool_decide (ot_hash kr.2 = hash) && org_live kr.2) = true) (map_to_list (od_tokens db))).

(** The actor of a failed validation. *)
Definition fail_actor (actor plaintext : string) : string :=
  if negb (bool_decide (actor = "")) then actor
  else if (tokenPrefixLen <=? String.length plaintext)%nat then "org-token:" +:+ str_take tokenPrefixLen plaintext
       else "org-token:<short>".

(** What a validation meets. *)
Record valid_env := ValidEnv { v_fails : bool; v_bump_fails : bool; v_audit_fails : bool }.

(** The id, the prefix and the org, empty for none; [None] is ErrInvalidToken, which is
    also what a failed SELECT gives. *)
Definition Validate (v : valid_env) (now : time) (plaintext actor : string) (auditInvalid : bool) (db : org_db)
    : org_db * option (string * string * string) :=
  if decide (plaintext = "") then (db, None)
  else if v_fails v then (db, None)
  else match org_lookup (sha256 plaintext) db with
       | None =>
           (if auditInvalid then LogAuditEvent (v_audit_fails v) (Audit None "validate_fail" (fail_actor actor plaintext) None) db
            else db, None)
       | Some (id, r) =>
           if match ot_expires r with Some t => t <? now | None => false end then (db, None)
           else (if v_bump_fails v then db else with_tokens (alter (set_org_used now) id (od_tokens db)) db,
                 Some (id, ot_prefix r, default "" (ot_org r)))
       end.

(** ** List, revoke, look up *)

(** [ORDER BY created_at DESC]. *)
Fixpoint insert_newest (x : string * org_row) (l : list (string * org_row)) : list (string * org_row) :=
  match l with
  | [] => [x]
  | y :: l' => if ot_created y.2 <=? ot_created x.2 then x :: l else y :: insert_newest x l'
  end.

(** [None] is an error. *)
Definition List (fails : bool) (db : org_db) : option (list (string * org_row)) :=
  if fails then None
  else Some (take listMax (foldr insert_newest [] (filter (fun kr => org_live kr.2 = true) (map_to_list (od_tokens db))))).

(** [None] is an error; whether a live row was revoked. *)
Definition Revoke (fails audit_fails : bool) (now : time) (id actor : string) (db : org_db) : org_db * option bool :=
  match fails, canon id with
  | false, Some i =>
      match od_tokens db !! i with
      | Some r =>
          if org_live r
          then (LogAuditEvent audit_fails (Audit (Some i) "revoke" actor None)
                  (with_tokens (<[i := set_org_revoked now r]> (od_tokens db)) db), Some true)
          else (db, Some false)
      | None => (db, Some false)
      end
  | _, _ => (db, None)
  end.

Definition OrgIDByTokenID (fails : bool) (tokenID : string) (db : org_db) : option string :=
  match fails, canon tokenID with
  | false, Some i => (fun r => default "" (ot_org r)) <$> od_tokens db !! i
  | _, _ => None
  end.

(** *** The credential of the concierge *)

Section Concierge.
Context (uuid_ok : string -> bool) (list_fails : bool) (revoke_fails : string -> bool).

Definition revoke_stale (now : time) (owner newID : string) (l : list (string * org_row)) (db : org_db) : org_db :=
  foldl (fun db kr => if decide (ot_by kr.2 = Some owner /\ kr.1 <> newID)
                      then fst (Revoke (revoke_fails kr.1) false now kr.1 owner db) else db) db l.

Definition resolveConciergeAdminCredential (m : mint_env) (ceiling : Z) (now : time) (adminToken MOLECULE_ORG_ID workspaceID : string)
    (db : org_db) : org_db * string :=
  let orgID := TrimSpace MOLECULE_ORG_ID in
  if negb (uuid_ok orgID) then (db, adminToken)
  else let owner := "system:concierge:" +:+ workspaceID in
       match Issue m ceiling now "concierge (auto-rotated)" owner orgID db with
       | (db, inr _) => (db, adminToken)
       | (db, inl (plaintext, newID)) =>
           match List list_fails db with
           | Some toks => (revoke_stale now owner newID toks db, plaintext)
           | None => (db, plaintext)
           end
       end.
End Concierge.

(** ** The handlers *)

(** What the middleware has set for a request. *)
Record caller := Caller {
  c_org_token : option (string * string);  (* org_token_id and org_token_prefix *)
  c_org : option string;                   (* org_id *)
  c_admin : bool;                          (* caller_is_admin_token *)
  c_session : option (string * string);    (* cp_session_actor and cp_session_user_id *)
  c_workspace : option string;             (* authenticated_workspace_id *)
  c_class : string                         (* caller_credential_class *)
}.

(** The faults of the two lookups of the token's org. *)
Definition callerOrg (fails : bool) (c : caller) (db : org_db) : string :=
  match c_org_token c with
  | Some (id, _) => if decide (id = "") then "" else default "" (OrgIDByTokenID fails id db)
  | None => ""
  end.

Definition callerVerifiedSessionActor (c : caller) : string := match c_session c with Some (actor, _) => actor | None => "" end.

Definition approvalAnchorForGate (fails : bool) (platformWorkspace : string) (c : caller) (db : org_db) : string :=
  let org := callerOrg fails c db in
  if negb (bool_decide (org = "")) then org else if c_admin c then platformWorkspace else "".

(** The prefix of the caller's org token, empty for none. *)
Definition caller_prefix (c : caller) : string := match c_org_token c with Some (_, prefix) => prefix | None => "" end.

Definition orgTokenActorClass (c : caller) : string :=
  if negb (bool_decide (c_class c = "")) then c_class c
  else if negb (bool_decide (caller_prefix c = "")) then "org-token:" +:+ caller_prefix c
  else if negb (bool_decide (callerVerifiedSessionActor c = "")) then "session" else "admin-token".

Definition orgTokenActor (fails : bool) (c : caller) (db : org_db) : string * string :=
  if negb (bool_decide (caller_prefix c = "")) then ("org-token:" +:+ caller_prefix c, callerOrg fails c db)
  else match c_session c with
       | Some (actor, user) => if decide (actor = "") then ("admin-token", "")
                               else (if decide (user = "") then actor else "session:" +:+ user, "")
       | None => ("admin-token", "")
       end.

Inductive create_reply := OrgMinted (id prefix plaintext : string) | OrgRefused (code : Z) | OrgGated.

(** [gate]: whether gateDestructive lets the mint through on that anchor. *)
Definition CreateOrgToken (anchor_fails actor_fails : bool) (gate : string -> bool) (platformWorkspace : string) (m : mint_env)
    (ceiling : Z) (now : time) (c : caller) (body : option (string * option time)) (db : org_db) : org_db * create_reply :=
  match body with
  | None => (db, OrgRefused 400)
  | Some (name, expires) =>
      if (100 <? String.length name)%nat then (db, OrgRefused 400)
      else
        let anchor := approvalAnchorForGate anchor_fails platformWorkspace c db in
        let human := negb (bool_decide (callerVerifiedSessionActor c = "")) in
        if negb human && bool_decide (anchor = "") then (db, OrgRefused 400)
        else if negb human && negb (gate anchor) then (db, OrgGated)
        else let '(createdBy, orgID) := orgTokenActor actor_fails c db in
             match IssueWithExpiry m ceiling now name createdBy orgID expires db with
             | (db, inl (p, id)) => (db, OrgMinted id (str_take 8 p) p)
             | (db, inr PastExpiry) => (db, OrgRefused 400)
             | (db, inr CeilingExceeded) => (db, OrgRefused 429)
             | (db, inr MintFailed) => (db, OrgRefused 500)
             end
  end.

Definition RevokeOrgToken (fails audit_fails actor_fails : bool) (now : time) (c : caller) (id : string) (db : org_db)
    : org_db * Z :=
  if decide (id = "") then (db, 400)
  else match Revoke fails audit_fails now id (fst (orgTokenActor actor_fails c db)) db with
       | (db, None) => (db, 500)
       | (db, Some false) => (db, 404)
       | (db, Some true) => (db, 200)
       end.
End OrgTokens.
