(* ===== verification/Auth.v ===== *)
(** * Who a request comes from

    internal/middleware/wsauth_middleware.go, session_auth.go and tenant_guard.go: the
    middleware in front of the routes, over the workspace tokens of Tokens, the org
    tokens of OrgTokens, the workspace tree, and the sessions the control plane
    confirms.  What the control plane answers, the hashes and the derivation of the
    platform agent's id are arguments. *)

From S2P Require Import Prelude Tree RateLimit Tokens OrgTokens.

(** ** Caches of what the control plane said

    sessionCache and identityCache: entries with an expiry, bounded by throwing out
    some when full. *)
Section Cache.
Context {V : Type}.

Record entry := Entry { en_expires : time; en_ok : bool; en_value : V }.

Definition ttl_ok : Z := 30 * Second.
Definition ttl_fail : Z := 5 * Second.
Definition cache_max : Z := 10000.
Definition evict_batch : nat := 128.

(** A stale entry is dropped by the look at it. *)
Definition cache_get (now : time) (key : string) (m : gmap string entry) : gmap string entry * option entry :=
  match m !! key with
  | None => (m, None)
  | Some e => if en_expires e <? now then (delete key m, None) else (m, Some e)
  end.

(** [order]: the order in which the map is walked. *)
Definition evict (order : gmap string entry -> list string) (m : gmap string entry) : gmap string entry :=
  if cache_max <=? Z.of_nat (size m) then foldr delete m (take evict_batch (order m)) else m.
Definition cache_put (order : gmap string entry -> list string) (now : time) (key : string) (ok : bool) (v : V)
    (m : gmap string entry) : gmap string entry :=
  <[key := Entry (now + (if ok then ttl_ok else ttl_fail)) ok v]> (evict order m).
Definition cache_sweep (now : time) (m : gmap string entry) : gmap string entry :=
  filter (fun ke => (en_expires ke.2 <? now) = false) m.
End Cache.
Arguments entry : clear implicits.

(** What the control plane answers: no response, a status other than 200, or a body,
    [None] when it does not decode. *)
Inductive cp_answer (B : Type) := CpUnreachable | CpStatus | CpBody (body : option B).
Arguments CpUnreachable {B}.
Arguments CpStatus {B}.
Arguments CpBody {B} _.

Abbreviation session_cache := (gmap string (entry string)).
Abbreviation identity_cache := (gmap string (entry (string * string))).

Section Sessions.
(** SHA-256 in hexadecimal. *)
Context (sha256_hex : string -> string).
Context (order : session_cache -> list string) (order_id : identity_cache -> list string).

Definition NUL : string := String (Ascii.ascii_of_nat 0) "".
Definition cacheKey (slug cookie : string) : string := sha256_hex (slug +:+ NUL +:+ cookie).
Definition cpSessionActor (slug cookie : string) : string := "session:" +:+ str_take 16 (sha256_hex (slug +:+ NUL +:+ cookie)).

(** [slug]: MOLECULE_ORG_SLUG; [configured]: CP_UPSTREAM_URL is set. *)
Record tenant := Tenant { t_slug : string; t_configured : bool }.
Definition tenantSlug (t : tenant) : string := TrimSpace (t_slug t).

(** The user, [None] for no session. *)
Definition VerifiedCPSession (t : tenant) (now : time) (cookieHeader : string) (answer : cp_answer (bool * string))
    (m : session_cache) : session_cache * option string :=
  let slug := tenantSlug t in
  if decide (cookieHeader = "") then (m, None)
  else if decide (slug = "") then (m, None)
  else if negb (t_configured t) then (m, None)
  else
    let key := cacheKey slug cookieHeader in
    match cache_get now key m with
    | (m, Some e) => (m, if en_ok e then Some (en_value e) else None)
    | (m, None) =>
        match answer with
        | CpUnreachable => (m, None)
        | CpStatus | CpBody None => (cache_put order now key false "" m, None)
        | CpBody (Some (member, user)) =>
            if negb member || bool_decide (user = "") then (cache_put order now key false "" m, None)
            else (cache_put order now key true user m, Some user)
        end
    end.

Definition VerifiedCPIdentity (t : tenant) (now : time) (cookieHeader : string) (answer : cp_answer (string * string))
    (m : identity_cache) : identity_cache * option (string * string) :=
  let slug := tenantSlug t in
  if decide (cookieHeader = "") then (m, None)
  else if decide (slug = "") then (m, None)
  else if negb (t_configured t) then (m, None)
  else
    let key := cacheKey slug cookieHeader in
    match cache_get now key m with
    | (m, Some e) => (m, if en_ok e then Some (en_value e) else None)
    | (m, None) =>
        match answer with
        | CpUnreachable | CpStatus | CpBody None => (cache_put order_id now key false ("", "") m, None)
        | CpBody (Some (user, email)) =>
            if bool_decide (user = "") || bool_decide (email = "") then (cache_put order_id now key false ("", "") m, None)
            else (cache_put order_id now key true (user, email) m, Some (user, email))
        end
    end.
End Sessions.

(** ** The org of a token *)

Section Orgs.
Context `{UuidCast}.
(** uuid.NewSHA1 over the name of the platform agent of an org. *)
Context (deterministicPlatformAgentID : string -> string).

(** [None]: the query failed; empty: no row, or no root.  Without a bound on the
    depth; a chain without a cycle is no longer than the table. *)
Definition workspaceOrgRoot (fails : bool) (t : wstable) (workspaceID : string) : option string :=
  if decide (workspaceID = "") then Some ""
  else match fails, canon workspaceID with
       | false, Some w => Some (default "" (first_parentless (chain_rows t (size t) w)))
       | _, _ => None
       end.

Definition orgAnchorMatchesRoot (orgAnchor wsRoot : string) : bool :=
  if decide (orgAnchor = "" \/ wsRoot = "") then false
  else bool_decide (orgAnchor = wsRoot) || bool_decide (deterministicPlatformAgentID orgAnchor = wsRoot).

(** The faults of its two queries. *)
Definition orgTokenConfirmedCrossOrg (ws_fails anchor_fails : bool) (t : wstable) (anchor workspaceID : string) : bool :=
  match workspaceOrgRoot ws_fails t workspaceID with
  | None => false
  | Some wsRoot =>
      if decide (wsRoot = "") then false
      else if orgAnchorMatchesRoot anchor wsRoot then false
      else match workspaceOrgRoot anchor_fails t anchor with
           | None => false
           | Some anchorRoot => if decide (anchorRoot = "") then false else negb (bool_decide (anchorRoot = wsRoot))
           end
  end.
End Orgs.

(** ** The middleware *)

Inductive verdict := Admit (c : caller) | Refuse (code : Z).

Definition nobody : caller := Caller None None false None None "".
Definition as_admin (class : string) : caller := Caller None None true None None class.
(** [class]: what the route records; [AdminAuth] records none. *)
Definition as_org_token (id prefix org class : string) : caller :=
  Caller (Some (id, prefix)) (nullif_empty org) false None None class.
Definition as_session (actor user class : string) : caller := Caller None None false (Some (actor, user)) None class.
Definition as_workspace (ws : string) : caller := Caller None None false None (Some ws) "workspace-token".

(** The three stores a request reads. *)
Record stores := Stores { s_org : org_db; s_tokens : token_db; s_sessions : session_cache }.

(** What the statements of a request meet. *)
Record auth_faults := AuthFaults {
  af_org : valid_env; af_root : bool; af_anchor : bool; af_ws : bool; af_bump : bool; af_probe : bool
}.

Section Middleware.
Context `{UuidCast}.
Context (sha256 sha256_hex deterministicPlatformAgentID : string -> string) (order : session_cache -> list string).
(** The environment of the process. *)
Context (ADMIN_TOKEN : string) (ten : tenant) (f : auth_faults) (now : time) (t : wstable).

(** A request: the Authorization and Cookie headers, and what the control plane says
    of the cookie. *)
Record request := Request { q_auth : string; q_cookie : string; q_answer : cp_answer (bool * string) }.

Definition session_of (q : request) (s : stores) : stores * option string :=
  let '(m, user) := VerifiedCPSession sha256_hex order ten now (q_cookie q) (q_answer q) (s_sessions s) in
  (Stores (s_org s) (s_tokens s) m, user).

Definition WorkspaceAuth (workspaceID : string) (q : request) (s : stores) : stores * verdict :=
  if decide (workspaceID = "") then (s, Refuse 401)
  else
    let tok := BearerTokenFromHeader (q_auth q) in
    if negb (bool_decide (tok = "")) then
      if negb (bool_decide (ADMIN_TOKEN = "")) && bool_decide (tok = ADMIN_TOKEN) then (s, Admit (as_admin "admin-token"))
      else match Validate sha256 (af_org f) now tok "" false (s_org s) with
           | (o, Some (id, prefix, orgID)) =>
               let s := Stores o (s_tokens s) (s_sessions s) in
               if negb (bool_decide (orgID = "")) &&
                  orgTokenConfirmedCrossOrg deterministicPlatformAgentID (af_root f) (af_anchor f) t orgID workspaceID
               then (s, Refuse 403)
               else (s, Admit (as_org_token id prefix orgID "org-token"))
           | (o, None) =>
               let '(w, ok) := ValidateToken sha256 (af_ws f) (af_bump f) now workspaceID tok (s_tokens s) in
               (Stores o w (s_sessions s), if ok then Admit (as_workspace workspaceID) else Refuse 401)
           end
    else match session_of q s with
         | (s, Some user) => (s, Admit (as_session (cpSessionActor sha256_hex (tenantSlug ten) (q_cookie q)) user "cp-session"))
         | (s, None) => (s, Refuse 401)
         end.

Definition AdminAuth (q : request) (s : stores) : stores * verdict :=
  match HasAnyLiveTokenGlobal (af_probe f) (s_tokens s) with
  | None => (s, Refuse 503)
  | Some _ =>
      match session_of q s with
      | (s, Some user) => (s, Admit (as_session (cpSessionActor sha256_hex (tenantSlug ten) (q_cookie q)) user ""))
      | (s, None) =>
          let tok := BearerTokenFromHeader (q_auth q) in
          if decide (tok = "") then (s, Refuse 401)
          else match Validate sha256 (af_org f) now tok "" false (s_org s) with
               | (o, Some (id, prefix, orgID)) =>
                   (Stores o (s_tokens s) (s_sessions s), Admit (as_org_token id prefix orgID ""))
               | (o, None) =>
                   let s := Stores o (s_tokens s) (s_sessions s) in
                   if negb (bool_decide (ADMIN_TOKEN = "")) then
                     (s, if decide (tok = ADMIN_TOKEN) then Admit (as_admin "admin-token") else Refuse 401)
                   else let '(w, ok) := ValidateAnyToken sha256 (af_ws f) (af_bump f) now tok (s_tokens s) in
                        (Stores (s_org s) w (s_sessions s),
                         if ok then Admit (as_admin "admin-token-tier3-fallback") else Refuse 401)
               end
      end
  end.

(** *** Requests from the canvas *)

(** The Host, Referer and Origin of a request; [canvasProxyActive]: CANVAS_PROXY_URL is
    set. *)
Record origin := Origin { o_host : string; o_referer : string; o_origin : string }.

Definition isSameOriginCanvas (canvasProxyActive : bool) (o : origin) : bool :=
  let h := o_host o in
  if negb canvasProxyActive || bool_decide (h = "") then false
  else (negb (bool_decide (o_referer o = "")) &&
        (has_prefix (o_referer o) ("https://" +:+ h +:+ "/") || has_prefix (o_referer o) ("http://" +:+ h +:+ "/") ||
         bool_decide (o_referer o = "https://" +:+ h) || bool_decide (o_referer o = "http://" +:+ h))) ||
       bool_decide (o_origin o = "https://" +:+ h) || bool_decide (o_origin o = "http://" +:+ h).

Definition CanvasOrBearer (canvasProxyActive : bool) (o : origin) (q : request) (s : stores) : stores * verdict :=
  match HasAnyLiveTokenGlobal (af_probe f) (s_tokens s) with
  | None => (s, Refuse 503)
  | Some _ =>
      let tok := BearerTokenFromHeader (q_auth q) in
      if negb (bool_decide (tok = "")) then
        if negb (bool_decide (ADMIN_TOKEN = "")) && bool_decide (tok = ADMIN_TOKEN) then (s, Admit nobody)
        else let '(w, ok) := ValidateAnyToken sha256 (af_ws f) (af_bump f) now tok (s_tokens s) in
             (Stores (s_org s) w (s_sessions s), if ok then Admit nobody else Refuse 401)
      else (s, if isSameOriginCanvas canvasProxyActive o then Admit nobody else Refuse 401)
  end.

Definition IsVerifiedCanvasSession (q : request) (s : stores) : stores * bool :=
  let '(s, user) := session_of q s in (s, bool_decide (is_Some user)).
End Middleware.

(** ** The tenant guard *)

Definition tenantGuardAllowlist : list string :=
  ["/health"; "/buildinfo"; "/metrics"; "/registry/register"; "/registry/heartbeat"].

(** [strings.Split(header, ";")]. *)
Fixpoint split_semicolons (acc : string) (s : string) : list string :=
  match s with
  | "" => [acc]
  | String a s' => if decide (Ascii.nat_of_ascii a = 59)%nat then acc :: split_semicolons "" s'
                   else split_semicolons (acc +:+ String a "") s'
  end.

Definition orgIDFromReplaySrc (header : string) : string :=
  if decide (header = "") then ""
  else match filter (fun seg => has_prefix seg "state=" = true) (map TrimSpace (split_semicolons "" header)) with
       | seg :: _ => str_drop 6 seg
       | [] => ""
       end.

(** [None] lets the request through; otherwise the status code. *)
Definition TenantGuardWithOrgID (configuredOrgID path orgHeader replaySrc : string) (canvasProxyActive : bool) (o : origin)
    : option Z :=
  if decide (configuredOrgID = "") then None
  else if bool_decide (path ∈ tenantGuardAllowlist) then None
  else if has_prefix path "/cp/" then None
  else if decide (orgHeader = configuredOrgID) then None
  else if decide (orgIDFromReplaySrc replaySrc = configuredOrgID) then None
  else if isSameOriginCanvas canvasProxyActive o then None
  else if decide (orgHeader = "" /\ replaySrc = "") then Some 400 else Some 404.
