(* ===== verification/AuthSafety.v ===== *)
(** * What the middleware lets through

    The sessions of the control plane over any history of a cache, the credentials
    behind every admitted request, the org a token is bound to, and the ceiling on
    minting. *)

From S2P Require Import Prelude Tree RateLimit Tokens TokensSafety OrgTokens Auth.

(** ** Sessions *)

Section Sessions.
Context (sha256_hex : string -> string) (order : session_cache -> list string) (ten : tenant).

Inductive session_event := SVerify (now : time) (cookie : string) (answer : cp_answer (bool * string)) | SSweep (now : time).

Definition session_step (ev : session_event) (m : session_cache) : session_cache :=
  match ev with
  | SVerify now cookie answer => fst (VerifiedCPSession sha256_hex order ten now cookie answer m)
  | SSweep now => cache_sweep now m
  end.
Definition session_history (evs : list session_event) : session_cache := foldl (fun m ev => session_step ev m) ∅ evs.

Definition key_of (cookie : string) : string := cacheKey sha256_hex (tenantSlug ten) cookie.

(** [ev] is the confirmation, at [t0], that [user] is a member with a cookie of key
    [key]. *)
Definition confirms (ev : session_event) (t0 : time) (key user : string) : Prop :=
  exists cookie, ev = SVerify t0 cookie (CpBody (Some (true, user))) /\ key_of cookie = key.

(** Every good entry goes back to a confirmation. *)
Definition confirmed (evs : list session_event) (m : session_cache) : Prop :=
  forall key e, m !! key = Some e -> en_ok e = true ->
    exists ev t0, ev ∈ evs /\ confirms ev t0 key (en_value e) /\ en_expires e = t0 + ttl_ok.

Lemma confirmed_sub evs m m' : (forall k e, m' !! k = Some e -> m !! k = Some e) -> confirmed evs m -> confirmed evs m'.
Proof. intros Hs Hc k e Hk Ho. by apply (Hc k e); [apply Hs|]. Qed.

Lemma confirmed_more evs evs' m : (forall ev, ev ∈ evs -> ev ∈ evs') -> confirmed evs m -> confirmed evs' m.
Proof. intros Hs Hc k e Hk Ho. destruct (Hc k e Hk Ho) as (ev & t0 & Hin & H). exists ev, t0. auto. Qed.

Lemma foldr_delete_sub {V} (ks : list string) (m : gmap string V) k e : foldr delete m ks !! k = Some e -> m !! k = Some e.
Proof. induction ks as [|k' ks IH]; cbn; [done|]. intros [_ Hk]%lookup_delete_Some. auto. Qed.

Lemma evict_sub {V} (o : gmap string (entry V) -> list string) m k e : evict o m !! k = Some e -> m !! k = Some e.
Proof. unfold evict. destruct (_ <=? _); [|done]. apply foldr_delete_sub. Qed.

Lemma cache_get_sub {V} now key (m : gmap string (entry V)) k e : fst (cache_get now key m) !! k = Some e -> m !! k = Some e.
Proof.
  unfold cache_get. destruct (m !! key); [|done]. destruct (_ <? _); [|done]. cbn. by intros [_ Hk]%lookup_delete_Some.
Qed.

Lemma cache_get_hit {V} now key (m : gmap string (entry V)) e : snd (cache_get now key m) = Some e -> m !! key = Some e /\ now <= en_expires e.
Proof.
  unfold cache_get. destruct (m !! key) as [e'|] eqn:E; [|done]. destruct (en_expires e' <? now) eqn:El; [done|].
  intros [= ->]. split; [done|]. by apply Z.ltb_ge in El.
Qed.

Lemma cache_put_lookup {V} (o : gmap string (entry V) -> list string) now key ok v m k e :
  cache_put o now key ok v m !! k = Some e ->
  (k = key /\ e = Entry (now + (if ok then ttl_ok else ttl_fail)) ok v) \/ m !! k = Some e.
Proof.
  unfold cache_put. destruct (decide (key = k)) as [->|Hne].
  - rewrite lookup_insert_eq. intros [= <-]. by left.
  - rewrite lookup_insert_ne by done. right. by eapply evict_sub.
Qed.

Lemma confirmed_put evs now key ok user m :
  (ok = true -> exists ev, ev ∈ evs /\ confirms ev now key user) -> confirmed evs m ->
  confirmed evs (cache_put order now key ok user m).
Proof.
  intros Hok Hc k e [(-> & ->)|Hk]%cache_put_lookup; [|by apply Hc].
  cbn. intros ->. destruct (Hok eq_refl) as (ev & Hin & Hev). by exists ev, now.
Qed.

(** One request: the cache stays confirmed, and a session it answers was. *)
Lemma verify_confirmed evs now cookie answer m :
  confirmed evs m ->
  let ev := SVerify now cookie answer in
  let '(m', user) := VerifiedCPSession sha256_hex order ten now cookie answer m in
  confirmed (evs ++ [ev]) m' /\
  forall u, user = Some u -> exists ev0 t0, ev0 ∈ evs ++ [ev] /\ confirms ev0 t0 (key_of cookie) u /\ now <= t0 + ttl_ok.
Proof.
  intros Hc. assert (Hc' : confirmed (evs ++ [SVerify now cookie answer]) m).
  { apply (confirmed_more evs); [|done]. intros ev Hin. apply elem_of_app. by left. }
  cbn zeta. unfold VerifiedCPSession. repeat (case_decide; [done|]). destruct (negb (t_configured ten)); [done|].
  fold (key_of cookie). assert (Hg := cache_get_sub now (key_of cookie) m).
  assert (Hh := cache_get_hit now (key_of cookie) m). destruct (cache_get now (key_of cookie) m) as [m1 [e|]]; cbn in Hg, Hh.
  - destruct (Hh e eq_refl) as [He Hn]. split; [by apply (confirmed_sub _ m)|]. destruct (en_ok e) eqn:Eo; [|done].
    intros u [= <-]. destruct (Hc' _ _ He Eo) as (ev & t0 & Hin & Hev & Hx). exists ev, t0. split_and!; [done|done|lia].
  - assert (Hc1 := confirmed_sub _ _ _ Hg Hc'). destruct answer as [| |[[member user]|]].
    + by split.
    + split; [by apply confirmed_put|done].
    + destruct member; [|split; [by apply confirmed_put|done]]. cbn [negb orb].
      destruct (bool_decide (user = "")); [split; [by apply confirmed_put|done]|].
      assert (Hin : SVerify now cookie (CpBody (Some (true, user))) ∈ evs ++ [SVerify now cookie (CpBody (Some (true, user)))])
        by (apply elem_of_app; right; by apply list_elem_of_singleton).
      assert (Hev : confirms (SVerify now cookie (CpBody (Some (true, user)))) now (key_of cookie) user) by (by exists cookie).
      split; [apply confirmed_put; [|done]; intros _; eauto|]. intros u [= <-].
      exists (SVerify now cookie (CpBody (Some (true, user)))), now. split_and!; [exact Hin|done|].
      unfold ttl_ok, Second. lia.
    + split; [by apply confirmed_put|done].
Qed.

Lemma history_confirmed evs : confirmed evs (session_history evs).
Proof.
  induction evs as [|ev evs IH] using rev_ind; [done|]. unfold session_history. rewrite foldl_app. cbn.
  fold (session_history evs). destruct ev as [now cookie answer|now]; cbn.
  - assert (H := verify_confirmed evs now cookie answer _ IH). cbn zeta in H. destruct (VerifiedCPSession _ _ _ _ _ _ _). by destruct H.
  - apply (confirmed_sub _ (session_history evs)); [by intros k e [Hk _]%map_lookup_filter_Some|].
    apply (confirmed_more evs); [|done]. intros ev Hin. apply elem_of_app. by left.
Qed.

(** a session is trusted for thirty seconds.  Over any history of requests, sweeps
    and evictions, in whatever order the clock puts them, a request is taken for a
    user's only if the control plane, asked now or at most thirty seconds before about
    a cookie with the same key, confirmed that user as a member of this tenant. *)
Theorem session_was_confirmed evs now cookie answer user :
  snd (VerifiedCPSession sha256_hex order ten now cookie answer (session_history evs)) = Some user ->
  exists ev t0, ev ∈ evs ++ [SVerify now cookie answer] /\ confirms ev t0 (key_of cookie) user /\ now <= t0 + 30 * Second.
Proof.
  assert (H := verify_confirmed evs now cookie answer _ (history_confirmed evs)). cbn zeta in H.
  destruct (VerifiedCPSession _ _ _ _ _ _ _) as [m u]. cbn. intros ->. by apply H.
Qed.

(** *** Its size *)

Context (Hord : forall m : session_cache, m <> ∅ -> exists k, k ∈ take evict_batch (order m) /\ is_Some (m !! k)).

Lemma foldr_delete_size {V} (ks : list string) (m : gmap string V) : (size (foldr delete m ks) <= size m)%nat.
Proof.
  induction ks as [|k ks IH]; cbn; [lia|]. destruct (foldr delete m ks !! k) as [v|] eqn:E.
  - rewrite map_size_delete, E. lia.
  - by rewrite delete_id.
Qed.

Lemma foldr_delete_removes {V} (ks : list string) (m : gmap string V) k :
  k ∈ ks -> is_Some (m !! k) -> (size (foldr delete m ks) < size m)%nat.
Proof.
  intros Hk [v Hv]. induction ks as [|k' ks IH]; [by apply not_elem_of_nil in Hk|]. cbn.
  destruct (decide (k ∈ ks)) as [Hin|Hin].
  - specialize (IH Hin). rewrite map_size_delete. destruct (_ !! k'); cbn; lia.
  - apply elem_of_cons in Hk as [->|Hk]; [|done].
    assert (E : foldr delete m ks !! k' = Some v).
    { clear IH. induction ks as [|k2 ks IH2]; cbn; [done|]. apply not_elem_of_cons in Hin as [Hne Hin].
      rewrite lookup_delete_ne by done. auto. }
    rewrite map_size_delete, E. assert (Hs := foldr_delete_size ks m).
    assert (size (foldr delete m ks) <> 0%nat) by (intros Hz; apply map_size_empty_iff in Hz; rewrite Hz in E; by rewrite lookup_empty in E).
    lia.
Qed.

Lemma map_size_ne_0 {V} (m : gmap string V) : size m <> 0%nat -> m <> ∅.
Proof. intros Hs ->. by rewrite map_size_empty in Hs. Qed.

Lemma put_size {V} key (v : V) (m : gmap string V) : (size (<[key := v]> m) <= S (size m))%nat.
Proof. rewrite map_size_insert. destruct (_ !! key); cbn; lia. Qed.

Lemma cache_put_size {V} (o : gmap string (entry V) -> list string) now key ok v m :
  (forall m', m' <> ∅ -> exists k, k ∈ take evict_batch (o m') /\ is_Some (m' !! k)) ->
  Z.of_nat (size m) <= 10000 -> Z.of_nat (size (cache_put o now key ok v m)) <= 10000.
Proof.
  intros Ho Hm. unfold cache_put, evict, cache_max. destruct (10000 <=? Z.of_nat (size m)) eqn:E.
  - apply Z.leb_le in E. destruct (Ho m) as (k & Hk & Hs).
    { apply map_size_ne_0. lia. }
    assert (Hd := foldr_delete_removes _ m k Hk Hs). match goal with |- context [<[?k0 := ?v0]> ?m0] => assert (Hp := put_size k0 v0 m0) end. lia.
  - apply Z.leb_gt in E. match goal with |- context [<[?k0 := ?v0]> ?m0] => assert (Hp := put_size k0 v0 m0) end. lia.
Qed.

Lemma cache_get_size {V} now key (m : gmap string (entry V)) : (size (fst (cache_get now key m)) <= size m)%nat.
Proof.
  unfold cache_get. destruct (m !! key) eqn:E; cbn; [|done]. destruct (_ <? _); cbn; [|done].
  rewrite map_size_delete, E. cbn. lia.
Qed.

Lemma session_step_size ev (m : gmap string (entry string)) :
  Z.of_nat (size m) <= 10000 -> Z.of_nat (size (session_step ev m)) <= 10000.
Proof.
  intros Hm. destruct ev as [now cookie answer|now]; cbn.
  - unfold VerifiedCPSession. repeat (case_decide; [done|]). destruct (negb _); [done|].
    assert (Hg := cache_get_size now (cacheKey sha256_hex (tenantSlug ten) cookie) m).
    destruct (cache_get _ _ _) as [m1 [e|]]; cbn in Hg; assert (Hm1 : Z.of_nat (size m1) <= 10000) by lia; [exact Hm1|].
    destruct answer as [| |[[member user]|]]; [exact Hm1|by apply cache_put_size| |by apply cache_put_size].
    destruct (negb member || bool_decide (user = "")); by apply cache_put_size.
  - unfold cache_sweep. match goal with |- context [filter ?P m] => assert (Hf := map_subseteq_size _ _ (map_filter_subseteq P m)) end. lia.
Qed.

(** the session cache never holds more than ten thousand entries, whatever the
    requests, the answers and the clock: a full map is walked first, and at least one
    of the entries thrown out was there. *)
Theorem session_cache_bounded evs : Z.of_nat (size (session_history evs)) <= 10000.
Proof.
  induction evs as [|ev evs IH] using rev_ind; [done|]. unfold session_history. rewrite foldl_app. cbn.
  by apply session_step_size.
Qed.
End Sessions.


(** ** The org of a token *)

Section Orgs.
Context `{UuidCast} (det : string -> string).

(** The nodes of a walk that ends are different rows. *)
Lemma RootAt_path t n w r :
  RootAt t n w r ->
  exists l, length l = S n /\ NoDup l /\ forall x, x ∈ l -> x ∈ dom t /\ exists k, (k <= n)%nat /\ RootAt t k x r.
Proof.
  revert w. induction n as [|n IH]; intros w [Hu Hr].
  - inversion Hu; subst. exists [r]. split_and!; [done|apply NoDup_singleton|]. intros x ->%list_elem_of_singleton.
    split; [destruct Hr as (row & Hrow & _); by eapply elem_of_dom_2|]. by exists 0%nat.
  - assert (Hroot : RootAt t (S n) w r) by done. inversion Hu; subst. destruct (IH p) as (l & Hl & Hnd & Hin); [done|].
    exists (w :: l). split_and!; [cbn; by rewrite Hl| |].
    + apply NoDup_cons. split; [|done]. intros (_ & k & Hk & Hw)%Hin. destruct (RootAt_fun _ _ _ _ _ _ Hw Hroot). lia.
    + intros x [->|Hx]%elem_of_cons; [split; [by eapply elem_of_dom_2|by exists (S n)]|].
      destruct (Hin x Hx) as (Hd & k & Hk & Hx'). split; [done|]. exists k. split; [lia|done].
Qed.

Lemma RootAt_bound t n w r : RootAt t n w r -> (n < size t)%nat.
Proof.
  intros Hr. destruct (RootAt_path t n w r Hr) as (l & Hl & Hnd & Hin).
  assert (Hs : list_to_set l ⊆ dom t) by (intros x Hx%elem_of_list_to_set; by apply Hin).
  apply subseteq_size in Hs. rewrite size_list_to_set, size_dom in Hs by done. lia.
Qed.

Lemma workspaceOrgRoot_root t w r : canon w = Some w -> Root t w r -> workspaceOrgRoot false t w = Some r.
Proof.
  intros Hw [n Hn]. unfold workspaceOrgRoot. destruct (decide (w = "")) as [->|_]; [by destruct (canon_nonempty "")|].
  rewrite Hw. replace (first_parentless _) with (Some r); [done|]. symmetry. apply first_parentless_spec.
  exists n. split; [|done]. apply RootAt_bound in Hn. lia.
Qed.

Lemma Root_self t w r : Root t w r -> Root t r r.
Proof. intros (n & _ & Hr). exists 0%nat. split; [constructor|done]. Qed.

(** when both ends have a root, a token is refused as foreign exactly when the two
    queries answered, the roots differ and the anchor is not the control plane's name
    of the workspace's org. *)
Theorem cross_org_exactly fw fa t w a rw ra
    (Hw : canon w = Some w) (Ha : canon a = Some a) (Hne : rw <> "") (Hna : ra <> "")
    (Hrw : Root t w rw) (Hra : Root t a ra) :
  orgTokenConfirmedCrossOrg det fw fa t a w = true <-> fw = false /\ fa = false /\ ra <> rw /\ det a <> rw.
Proof.
  assert (Ha0 : a <> "") by (intros ->; by destruct (canon_nonempty "")).
  assert (Hw0 : w <> "") by (intros ->; by destruct (canon_nonempty "")).
  unfold orgTokenConfirmedCrossOrg. destruct fw.
  { unfold workspaceOrgRoot. rewrite decide_False by done. split; [done|by intros []]. }
  rewrite (workspaceOrgRoot_root t w rw Hw Hrw), decide_False by done. unfold orgAnchorMatchesRoot.
  rewrite decide_False by (intros [|]; contradiction).
  destruct (decide (a = rw)) as [->|Hd]; [rewrite bool_decide_eq_true_2 by done; cbn|rewrite bool_decide_eq_false_2 by done; cbn].
  { split; [done|]. intros (_ & _ & Hx & _). destruct Hx. exact (Root_fun _ _ _ _ Hra (Root_self _ _ _ Hrw)). }
  case_bool_decide as Hdet; [split; [done|by intros (_ & _ & _ & Hx)]|]. destruct fa.
  { unfold workspaceOrgRoot. rewrite decide_False by done. split; [done|by intros (_ & ? & _)]. }
  rewrite (workspaceOrgRoot_root t a ra Ha Hra), decide_False by done. split.
  - intros Hb%negb_true_iff. b2p. done.
  - intros (_ & _ & Hr & _). by rewrite bool_decide_eq_false_2.
Qed.
End Orgs.

(** ** The requests that pass *)

Section Middleware.
Context `{UuidCast}.
Context (sha256 sha256_hex det : string -> string) (order : session_cache -> list string).
Context (ADMIN_TOKEN : string) (ten : tenant) (f : auth_faults) (now : time) (t : wstable).

(** The bearer of the request. *)
Definition bearer_of (q : request) : string := BearerTokenFromHeader (q_auth q).
Definition is_admin_token (q : request) : Prop := bearer_of q = ADMIN_TOKEN /\ ADMIN_TOKEN <> "".

(** [p] is the text of the row [id], which is not revoked and not expired. *)
Definition org_opens (db : org_db) (p id : string) (r : org_row) : Prop :=
  od_tokens db !! id = Some r /\ ot_hash r = sha256 p /\ ot_revoked r = None /\
  forall e, ot_expires r = Some e -> now <= e.

Lemma Validate_opens v actor ai p db db' id prefix org :
  Validate sha256 v now p actor ai db = (db', Some (id, prefix, org)) ->
  p <> "" /\ v_fails v = false /\ exists r, org_opens db p id r /\ prefix = ot_prefix r /\ org = default "" (ot_org r).
Proof.
  unfold Validate. case_decide as Hp; [done|]. destruct (v_fails v); [done|].
  destruct (org_lookup (sha256 p) db) as [[i r]|] eqn:El; [|done].
  destruct (match ot_expires r with Some _ => _ | None => _ end) eqn:Ee; [done|]. intros [= _ <- <- <-].
  split_and!; [done|done|]. exists r. split; [|done]. unfold org_lookup in El. apply head_Some_elem_of in El.
  apply list_elem_of_filter in El as [Hb Hin]. apply elem_of_map_to_list in Hin. cbn in Hb. unfold org_live in Hb. b2p.
  split_and!; [done|done|done|]. intros e He. rewrite He in Ee. by apply Z.ltb_ge in Ee.
Qed.

(** The user the request's cookie is taken for. *)
Definition session_user (q : request) (s : stores) : option string :=
  snd (VerifiedCPSession sha256_hex order ten now (q_cookie q) (q_answer q) (s_sessions s)).

Lemma session_of_user q s s' user :
  session_of sha256_hex order ten now q s = (s', Some user) -> session_user q s = Some user.
Proof. unfold session_of, session_user. destruct (VerifiedCPSession _ _ _ _ _ _ _) as [m u]. cbn. by intros [= _ ->]. Qed.

(** The credentials that open the routes of a workspace, with what the route is told. *)
Inductive opens_workspace (ws : string) (q : request) (s : stores) : caller -> Prop :=
| ByAdminToken : is_admin_token q -> opens_workspace ws q s (as_admin "admin-token")
| ByOrgToken id r :
    org_opens (s_org s) (bearer_of q) id r ->
    (forall a, ot_org r = Some a -> a <> "" -> orgTokenConfirmedCrossOrg det (af_root f) (af_anchor f) t a ws = false) ->
    opens_workspace ws q s (as_org_token id (ot_prefix r) (default "" (ot_org r)) "org-token")
| ByWorkspaceToken id r : TokensSafety.opens sha256 (s_tokens s) (bearer_of q) ws id r -> opens_workspace ws q s (as_workspace ws)
| BySession user :
    bearer_of q = "" -> session_user q s = Some user ->
    opens_workspace ws q s (as_session (cpSessionActor sha256_hex (tenantSlug ten) (q_cookie q)) user "cp-session").

(** C21: every request that reaches a route of a workspace brought ADMIN_TOKEN, a live
    and unexpired org token not confirmed to be of another org, a live token of that
    very workspace, or - with no bearer at all - a verified session; and the route is
    told which. *)
Theorem workspace_auth_admits ws q s s' c :
  WorkspaceAuth sha256 sha256_hex det order ADMIN_TOKEN ten f now t ws q s = (s', Admit c) -> opens_workspace ws q s c.
Proof.
  unfold WorkspaceAuth. case_decide as Hw; [done|]. fold (bearer_of q).
  case_bool_decide as Ht; cbn [negb].
  { destruct (session_of sha256_hex order ten now q s) as [s1 [user|]] eqn:E; [|done]. intros [= _ <-].
    apply session_of_user in E. by apply BySession. }
  destruct (negb (bool_decide (ADMIN_TOKEN = "")) && bool_decide (bearer_of q = ADMIN_TOKEN)) eqn:Ea.
  { intros [= _ <-]. b2p. by apply ByAdminToken. }
  destruct (Validate sha256 (af_org f) now (bearer_of q) "" false (s_org s)) as [o [[[id prefix] org]|]] eqn:Ev.
  - apply Validate_opens in Ev as (_ & _ & r & Ho & -> & ->).
    destruct (negb (bool_decide (default "" (ot_org r) = "")) && _) eqn:Ec; [done|]. intros [= _ <-].
    apply ByOrgToken; [done|]. intros a Ha Hne. rewrite Ha in Ec. cbn in Ec. by rewrite bool_decide_eq_false_2 in Ec.
  - assert (Hv := ValidateToken_opens sha256 (af_ws f) (af_bump f) now ws (bearer_of q) (s_tokens s)).
    destruct (ValidateToken sha256 (af_ws f) (af_bump f) now ws (bearer_of q) (s_tokens s)) as [w [|]]; [|done].
    destruct (Hv eq_refl) as (_ & _ & id & r & Ho). intros [= _ <-]. by eapply ByWorkspaceToken.
Qed.

(** with ADMIN_TOKEN set, an admin route is reached only by that very text, by an
    org token that is live and not expired, or by a verified session: the token of a
    workspace opens none. *)
Theorem admin_auth_admits q s s' c (Hset : ADMIN_TOKEN <> "") :
  AdminAuth sha256 sha256_hex order ADMIN_TOKEN ten f now q s = (s', Admit c) ->
  bearer_of q = ADMIN_TOKEN \/ (exists id r, org_opens (s_org s) (bearer_of q) id r) \/ is_Some (session_user q s).
Proof.
  unfold AdminAuth. destruct (HasAnyLiveTokenGlobal _ _) as [b|]; [|done].
  destruct (session_of sha256_hex order ten now q s) as [s1 [user|]] eqn:E.
  { intros _. right. right. apply session_of_user in E. by exists user. }
  assert (Ho : s_org s1 = s_org s).
  { unfold session_of in E. destruct (VerifiedCPSession _ _ _ _ _ _ _). by injection E as <- _. }
  fold (bearer_of q). case_decide; [done|]. rewrite Ho.
  destruct (Validate sha256 (af_org f) now (bearer_of q) "" false (s_org s)) as [o [[[id prefix] org]|]] eqn:Ev.
  { intros _. right. left. apply Validate_opens in Ev as (_ & _ & r & Hr & _). by exists id, r. }
  rewrite bool_decide_eq_false_2 by done. cbn [negb]. case_decide; [|done]. auto.
Qed.
End Middleware.

(** ** Minting and revoking org tokens *)

Section Minting.
Context `{UuidCast} (sha256 : string -> string).

Lemma IssueWithExpiry_mints m ceiling now name by_ org expires db db' p id :
  IssueWithExpiry sha256 m ceiling now name by_ org expires db = (db', inl (p, id)) ->
  mint_check (m_count_fails m) ceiling now org expires db = None /\ m_gen m = id /\ m_plaintext m = Some p /\
  od_tokens (m_others m db) !! id = None /\ exists a,
    anchor_of org (m_others m db) = Some a /\
    od_tokens db' = <[id := OrgRow (sha256 p) (str_take tokenPrefixLen p) (nullif_empty name) (nullif_empty by_) a now None None expires]>
                      (od_tokens (m_others m db)).
Proof.
  unfold IssueWithExpiry. destruct (mint_check _ _ _ _ _ _); [done|]. destruct (m_plaintext m) as [p'|]; [|done].
  unfold mint_insert. destruct (m_insert_fails m || _ || _) eqn:Eb; [done|].
  destruct (anchor_of org (m_others m db)) as [a|]; [|done]. intros [= <- <- <-].
  apply orb_false_iff in Eb as [Eb _]. apply orb_false_iff in Eb as [_ Eb]. apply bool_decide_eq_false in Eb.
  split_and!; [done|done|done|by apply eq_None_not_Some|]. exists a. split; [done|]. unfold LogAuditEvent. by destruct (m_audit_fails m).
Qed.

(** a token is minted for a user in a verified session, or past the approval gate
    on a non-empty anchor, and never otherwise; it carries the hash of the text handed
    out, the caller as its author, and the anchor of the caller as read at that
    moment. *)
Theorem org_token_is_minted af cf gate pw m ceiling now c body db db' id pre p :
  CreateOrgToken sha256 af cf gate pw m ceiling now c body db = (db', OrgMinted id pre p) ->
  (callerVerifiedSessionActor c <> "" \/
   exists anchor, anchor = approvalAnchorForGate af pw c db /\ anchor <> "" /\ gate anchor = true) /\
  pre = str_take 8 p /\ exists r, od_tokens db' !! id = Some r /\ ot_hash r = sha256 p /\ ot_revoked r = None /\
    ot_by r = nullif_empty (fst (orgTokenActor cf c db)) /\
    anchor_of (snd (orgTokenActor cf c db)) (m_others m db) = Some (ot_org r).
Proof.
  unfold CreateOrgToken. destruct body as [[name expires]|]; [|done]. destruct (100 <? _)%nat; [done|].
  destruct (negb (negb (bool_decide (callerVerifiedSessionActor c = ""))) && _) eqn:E1; [done|].
  destruct (negb (negb (bool_decide (callerVerifiedSessionActor c = ""))) && negb _) eqn:E2; [done|].
  destruct (orgTokenActor cf c db) as [by_ org].
  destruct (IssueWithExpiry _ _ _ _ _ _ _ _ _) as [db1 [[p' id']|[]]] eqn:Ei; try done.
  intros [= <- <- <- <-]. apply IssueWithExpiry_mints in Ei as (_ & _ & _ & _ & a & Ha & Ht). split; [|split; [done|]].
  - destruct (decide (callerVerifiedSessionActor c = "")) as [He|He]; [right|by left].
    rewrite bool_decide_eq_true_2 in E1, E2 by done. cbn in E1, E2. apply bool_decide_eq_false in E1.
    eexists. split; [done|]. split; [done|]. by apply negb_false_iff.
  - rewrite Ht. eexists. split; [apply lookup_insert_eq|]. done.
Qed.

Lemma count_live_insert now o id r db db' :
  od_tokens db !! id = None -> od_tokens db' = <[id := r]> (od_tokens db) -> count_live now o db' <= count_live now o db + 1.
Proof.
  intros Hid Ht. unfold count_live. rewrite Ht.
  destruct (decide (counted now o r = true)) as [Hc|Hc].
  - rewrite map_filter_insert_True by done.
    match goal with |- context [<[?k0 := ?v0]> ?m0] => assert (Hp := put_size k0 v0 m0) end. lia.
  - rewrite map_filter_insert_False by done. rewrite delete_id by done. lia.
Qed.

(** under the ceiling, a mint that nothing interleaves leaves an org with at most
    the ceiling of live tokens. *)
Theorem mint_within_ceiling m ceiling now name by_ org o expires db db' p id
    (Hc : 0 < ceiling) (Hne : org <> "") (Ho : canon org = Some o) (Hatomic : m_others m db = db) :
  IssueWithExpiry sha256 m ceiling now name by_ org expires db = (db', inl (p, id)) ->
  count_live now o db' <= ceiling.
Proof.
  intros (Hk & _ & _ & Hid & a & _ & Ht)%IssueWithExpiry_mints. rewrite Hatomic in Hid, Ht.
  unfold mint_check in Hk. destruct (match expires with Some _ => _ | None => _ end); [done|].
  assert (Hb : (0 <? ceiling) = true) by (by apply Z.ltb_lt). rewrite Hb, bool_decide_eq_false_2 in Hk by done. cbn in Hk.
  destruct (m_count_fails m); [done|]. rewrite Ho in Hk. destruct (ceiling <=? count_live now o db) eqn:El; [done|].
  apply Z.leb_gt in El. assert (Hl := count_live_insert now o _ _ _ _ Hid Ht). lia.
Qed.

(** *** Histories *)

Inductive org_event :=
| OMint (m : mint_env) (ceiling : Z) (now : time) (name by_ org : string) (expires : option time)
| OValidate (v : valid_env) (now : time) (p actor : string) (ai : bool)
| ORevoke (fails af : bool) (now : time) (id actor : string)
| OPurge (ws : string)
| OWorkspace (ws : string).

(** The others of a mint are the other events. *)
Definition org_step (db : org_db) (ev : org_event) : org_db :=
  match ev with
  | OMint m ceiling now name by_ org expires =>
      fst (IssueWithExpiry sha256 (MintEnv (m_count_fails m) (m_insert_fails m) (m_audit_fails m) (fun db => db)
                                     (m_plaintext m) (m_gen m)) ceiling now name by_ org expires db)
  | OValidate v now p actor ai => fst (Validate sha256 v now p actor ai db)
  | ORevoke fails af now id actor => fst (Revoke fails af now id actor db)
  | OPurge ws => purge_workspace ws db
  | OWorkspace ws => OrgDb (od_tokens db) (od_workspaces db ∪ {[ ws ]}) (od_audit db)
  end.

(** A revoked row. *)
Definition dead (id : string) (db : org_db) : Prop :=
  exists r, od_tokens db !! id = Some r /\ ot_revoked r <> None.

Lemma dead_audit id fails a db : dead id (LogAuditEvent fails a db) <-> dead id db.
Proof. unfold LogAuditEvent. by destruct fails. Qed.

Lemma dead_fmap id (g : org_row -> org_row) db w a :
  (forall r, ot_revoked r <> None -> ot_revoked (g r) <> None) ->
  dead id db -> dead id (OrgDb (g <$> od_tokens db) w a).
Proof. intros Hg (r & Hr & Hd). exists (g r). cbn. rewrite lookup_fmap, Hr. auto. Qed.

Lemma org_step_dead id db ev : dead id db -> dead id (org_step db ev).
Proof.
  intros Hd. destruct ev as [m ceiling now name by_ org expires|v now p actor ai|fails af now id' actor|ws|ws]; cbn.
  - match goal with |- dead _ (fst ?x) => destruct x as [db1 [[p i]|err]] eqn:E end; cbn.
    + apply IssueWithExpiry_mints in E as (_ & _ & _ & Hn & a & _ & Ht). cbn in Hn, Ht. destruct Hd as (r & Hr & Hv).
      exists r. split; [|done]. rewrite Ht, lookup_insert_ne; [done|]. congruence.
    + unfold IssueWithExpiry in E. cbn in E. destruct (mint_check _ _ _ _ _ _); [by injection E as <- _|].
      destruct (m_plaintext m); [|by injection E as <- _]. destruct (mint_insert _ _ _ _ _ _ _ _ _); [done|by injection E as <- _].
  - unfold Validate. case_decide; [done|]. destruct (v_fails v); [done|].
    destruct (org_lookup _ _) as [[i r]|]; cbn; [|destruct ai; [by apply dead_audit|done]].
    destruct (match ot_expires r with Some _ => _ | None => _ end); [done|]. cbn. destruct (v_bump_fails v); [done|].
    destruct Hd as (r0 & Hr0 & Hv). unfold dead. cbn. destruct (decide (i = id)) as [->|Hne].
    + exists (set_org_used now r0). by rewrite lookup_alter_eq, Hr0.
    + exists r0. by rewrite lookup_alter_ne.
  - unfold Revoke. destruct fails; [done|]. destruct (canon id') as [i|]; [|done].
    destruct (od_tokens db !! i) as [r|] eqn:Er; [|done]. destruct (org_live r); [|done]. cbn. apply dead_audit.
    destruct Hd as (r0 & Hr0 & Hv). unfold dead. cbn. destruct (decide (i = id)) as [->|Hne].
    + exists (set_org_revoked now r). by rewrite lookup_insert_eq.
    + exists r0. by rewrite lookup_insert_ne.
  - apply dead_fmap; [|done]. intros r Hr. by case_decide.
  - done.
Qed.

Lemma history_dead id evs db : dead id db -> dead id (foldl org_step db evs).
Proof. revert db. induction evs as [|ev evs IH]; intros db Hd; [done|]. cbn. by apply IH, org_step_dead. Qed.

Lemma Revoke_dead af now id i actor db b :
  canon id = Some i -> snd (Revoke false af now id actor db) = Some b -> is_Some (od_tokens db !! i) ->
  dead i (fst (Revoke false af now id actor db)).
Proof.
  intros Hi Hb [r Hr]. unfold Revoke in *. rewrite Hi in *. rewrite Hr in *.
  destruct (org_live r) eqn:El; cbn.
  - apply dead_audit. exists (set_org_revoked now r). cbn. by rewrite lookup_insert_eq.
  - exists r. split; [done|]. unfold org_live in El. by b2p.
Qed.

(** C22: a revoked org token is dead for good.  Once a revocation has answered without
    an error, no history of mints, validations, purges and further revocations brings
    it back: no text is ever accepted as that token. *)
Theorem revoked_org_token_is_dead evs af now id i actor db v now' p actor' ai db' prefix org
    (Hi : canon id = Some i) (Hrow : is_Some (od_tokens db !! i)) :
  Validate sha256 v now' p actor' ai (foldl org_step (fst (Revoke false af now id actor db)) evs) <>
  (db', Some (i, prefix, org)).
Proof.
  intros (_ & _ & r & (Hr & _ & Hn & _) & _)%Validate_opens.
  assert (Hb : exists b, snd (Revoke false af now id actor db) = Some b).
  { destruct Hrow as [r0 Hr0]. unfold Revoke. rewrite Hi, Hr0. destruct (org_live r0); eauto. }
  destruct Hb as [b Hb]. destruct (history_dead i evs _ (Revoke_dead _ _ _ _ _ _ _ Hi Hb Hrow)) as (r' & Hr' & Hd).
  congruence.
Qed.
End Minting.

(** ** A small deployment *)

Module AuthDemo.
#[local] Existing Instance plain_cast.

Definition hash (s : string) : string := "#" +:+ s.
Definition det (org : string) : string := "pa:" +:+ org.
Definition ten : tenant := Tenant "acme" true.
Definition ord (m : session_cache) : list string := (map_to_list m).*1.
Definition row (p : option string) : wsrow := WsRow "w" p "online" None None.

(** Two orgs: [a], and [b] with [c] below it. *)
Definition tree : wstable := <["a" := row None]> (<["b" := row None]> (<["c" := row (Some "b")]> ∅)).
(** Two org tokens: one anchored in [a], one in [b]. *)
Definition tok (p : string) (org : option string) : org_row := OrgRow (hash p) (str_take 8 p) None None org 0 None None None.
Definition orgs : org_db := OrgDb (<["t1" := tok "secret-of-a" (Some "a")]> (<["t2" := tok "secret-of-b" (Some "b")]> ∅)) {[ "a"; "b"; "c" ]} [].
Definition st : stores := Stores orgs (TokenDb ∅ ∅) ∅.
Definition calm : auth_faults := AuthFaults (ValidEnv false false false) false false false false false.
Definition ask (tok : string) : request := Request ("Bearer " +:+ tok) "" CpUnreachable.
Definition gate_ws (f : auth_faults) := WorkspaceAuth hash hash det ord "admin" ten f 0 tree.

Example own_org : snd (gate_ws calm "c" (ask "secret-of-b") st) = Admit (as_org_token "t2" "secret-o" "b" "org-token").
Proof. vm_compute. reflexivity. Qed.
Example foreign_org : snd (gate_ws calm "c" (ask "secret-of-a") st) = Refuse 403.
Proof. vm_compute. reflexivity. Qed.

(** An unanswered query about the tree lets the foreign token in. *)
Example lookup_error_admits :
  snd (gate_ws (AuthFaults (ValidEnv false false false) true false false false false) "c" (ask "secret-of-a") st) =
  Admit (as_org_token "t1" "secret-o" "a" "org-token").
Proof. vm_compute. reflexivity. Qed.

(** An outage of the database is answered as a wrong token. *)
Example outage_is_401 :
  snd (gate_ws (AuthFaults (ValidEnv true false false) false false true false false) "c" (ask "secret-of-b") st) = Refuse 401.
Proof. vm_compute. reflexivity. Qed.

(** Once the root of [a] is purged, its token opens the workspaces of [b]. *)
Example purged_anchor_opens_all :
  snd (gate_ws calm "c" (ask "secret-of-a") (Stores (purge_workspace "a" orgs) (TokenDb ∅ ∅) ∅)) =
  Admit (as_org_token "t1" "secret-o" "" "org-token").
Proof. vm_compute. reflexivity. Qed.

(** On the admin routes a token of an org meets no binding at all. *)
Example admin_takes_any_org :
  snd (AdminAuth hash hash ord "admin" ten calm 0 (ask "secret-of-a") st) = Admit (as_org_token "t1" "secret-o" "a" "").
Proof. vm_compute. reflexivity. Qed.

Definition mint (others : org_db -> org_db) (p gen : string) : mint_env := MintEnv false false false others (Some p) gen.
Definition by_token : caller := Caller (Some ("t1", "secret-o")) (Some "a") false None None "org-token".
Definition approve (anchor : string) : bool := true.

(** The second lookup of the caller's org fails: the new token is bound to none. *)
Example mint_loses_anchor :
  match CreateOrgToken hash false true approve "pw" (mint (fun db => db) "new-secret" "t3") 100 0 by_token (Some ("ci", None)) orgs with
  | (db, OrgMinted id _ p) => ot_org <$> od_tokens db !! id
  | _ => None
  end = Some None.
Proof. vm_compute. reflexivity. Qed.

(** Two mints at once go past the ceiling. *)
Example ceiling_is_raced :
  let inner db := fst (IssueWithExpiry hash (mint (fun db => db) "s3" "t3") 2 0 "" "u" "a" None db) in
  count_live 0 "a" (fst (IssueWithExpiry hash (mint inner "s4" "t4") 2 0 "" "u" "a" None orgs)) = 3.
Proof. vm_compute. reflexivity. Qed.

(** The control plane's uuid of the org names no workspace: the concierge gets the
    ADMIN_TOKEN. *)
Example concierge_gets_admin_token :
  snd (resolveConciergeAdminCredential hash (fun _ => true) false (fun _ => false) (mint (fun db => db) "s3" "t3") 100 0
         "admin" "acme-uuid" "a" orgs) = "admin".
Proof. vm_compute. reflexivity. Qed.

Lemma session_was_confirmed_witness :
  exists ev t0, ev ∈ [] ++ [SVerify 5 "cookie" (CpBody (Some (true, "u")))] /\
    confirms hash ten ev t0 (key_of hash ten "cookie") "u" /\ 5 <= t0 + 30 * Second.
Proof. apply (session_was_confirmed hash ord ten []). vm_compute. reflexivity. Defined.

Lemma ord_walks (m : session_cache) : m <> ∅ -> exists k, k ∈ take evict_batch (ord m) /\ is_Some (m !! k).
Proof.
  intros Hm. unfold ord. destruct (map_to_list m) as [|[k v] l] eqn:E; [by apply map_to_list_empty_iff in E|].
  exists k. split; [cbn; by left|]. exists v. apply elem_of_map_to_list. rewrite E. by left.
Qed.

Lemma session_cache_bounded_witness :
  Z.of_nat (size (session_history hash ord ten [SVerify 5 "cookie" (CpBody (Some (true, "u")))])) <= 10000.
Proof. apply session_cache_bounded. exact ord_walks. Defined.

Lemma cross_org_exactly_witness :
  orgTokenConfirmedCrossOrg det false false tree "a" "c" = true <-> false = false /\ false = false /\ "a" <> "b" /\ det "a" <> "b".
Proof.
  apply cross_org_exactly; try done.
  - exists 1%nat. split; [|exists (row None); done]. eapply Up_S; [reflexivity|reflexivity|constructor].
  - exists 0%nat. split; [constructor|exists (row None); done].
Defined.

Lemma workspace_auth_admits_witness :
  opens_workspace hash hash det ord "admin" ten calm 0 tree "c" (ask "secret-of-b") st (as_org_token "t2" "secret-o" "b" "org-token").
Proof.
  apply (workspace_auth_admits hash hash det ord "admin" ten calm 0 tree "c" (ask "secret-of-b") st
           (fst (gate_ws calm "c" (ask "secret-of-b") st))).
  vm_compute. reflexivity.
Defined.

Lemma admin_auth_admits_witness :
  bearer_of (ask "admin") = "admin" \/ (exists id r, org_opens hash 0 orgs (bearer_of (ask "admin")) id r) \/
  is_Some (session_user hash ord ten 0 (ask "admin") st).
Proof.
  apply (admin_auth_admits hash hash ord "admin" ten calm 0 (ask "admin") st
           (fst (AdminAuth hash hash ord "admin" ten calm 0 (ask "admin") st)) (as_admin "admin-token")); [done|].
  vm_compute. reflexivity.
Defined.

Definition minted : org_db * create_reply :=
  CreateOrgToken hash false false approve "pw" (mint (fun db => db) "new-secret" "t3") 100 0 by_token (Some ("ci", None)) orgs.

Lemma org_token_is_minted_witness :
  exists r, od_tokens (fst minted) !! "t3" = Some r /\ ot_hash r = hash "new-secret" /\ ot_org r = Some "a".
Proof.
  assert (E : minted = (fst minted, OrgMinted "t3" "new-secr" "new-secret")) by (vm_compute; reflexivity).
  destruct (org_token_is_minted hash _ _ _ _ _ _ _ _ _ _ _ _ _ _ E) as (_ & _ & r & Hr & Hh & _ & _ & Ha).
  exists r. split; [exact Hr|]. split; [exact Hh|]. change (Some (Some "a") = Some (ot_org r)) in Ha. congruence.
Defined.

Lemma mint_within_ceiling_witness :
  count_live 0 "a" (fst (IssueWithExpiry hash (mint (fun db => db) "s3" "t3") 2 0 "" "u" "a" None orgs)) <= 2.
Proof.
  apply (mint_within_ceiling hash (mint (fun db => db) "s3" "t3") 2 0 "" "u" "a" "a" None orgs _ "s3" "t3"); try done.
Defined.

Lemma revoked_org_token_is_dead_witness :
  Validate hash (ValidEnv false false false) 9 "secret-of-a" "" false
    (foldl (org_step hash) (fst (Revoke false false 1 "t1" "u" orgs)) [OPurge "a"; OWorkspace "a"]) <>
  (orgs, Some ("t1", "secret-o", "")).
Proof. apply revoked_org_token_is_dead; [done|by eexists]. Defined.
End AuthDemo.
