(* ===== verification/A2APayload.v ===== *)
(** * The body of an A2A message

    normalizeA2APayload, ensureCanvasSessionContextID and injectCanvasUserIdentity of
    internal/handlers/a2a_proxy.go and a2a_proxy_helpers.go, and what the server reads
    from a body or a reply.  A document decoded into a [map[string]interface{}] is a
    finite map, as in AgentCard; float64 arithmetic, the text [json.Marshal] writes and
    the drawn uuids are arguments. *)

From S2P Require Import Prelude Json RateLimit A2AQueue AgentCard.

(** [m[k].(map[string]interface{})]. *)
Definition member_map (m : members) (k : string) : option members :=
  match m !! k with Some (JObj l) => Some (to_members l) | _ => None end.

(** Set unless present. *)
Definition with_default (k : string) (v : json) (m : members) : members :=
  match m !! k with Some _ => m | None => <[k := v]> m end.

Section Body.
Context (in_range : Z -> positive -> bool) (float64 : Z -> positive -> Z * positive).
(** [json.Marshal]. *)
Context (render : json -> string).

Definition encode (m : members) : payload := Payload (render (marshal_map m)) (Some (marshal_map m)).

(** [None] for an error, [Some None] for the nil map of a null. *)
Definition decode_body (body : payload) : option (option members) :=
  match parsed body with
  | Some JNull => Some None
  | Some j => Some <$> unmarshal_map in_range float64 j
  | None => None
  end.

(** ** Normalizing *)

Definition envelope (gen : string) (m : members) : members :=
  match m !! "jsonrpc" with
  | Some _ => m
  | None => <["jsonrpc" := JStr "2.0"]> (<["id" := JStr gen]> (<["method" := default JNull (m !! "method")]>
              (<["params" := default JNull (m !! "params")]> ∅)))
  end.

Definition text_part (s : string) : json := marshal_map (<["kind" := JStr "text"]> (<["text" := JStr s]> ∅)).

(** [None] is the 400. *)
Definition with_parts (msg : members) : option members :=
  match msg !! "parts" with
  | Some _ => Some msg
  | None => match msg !! "content" with
            | Some (JStr s) => Some (delete "content" (<["parts" := JArr [text_part s]]> msg))
            | Some (JArr l) => Some (delete "content" (<["parts" := JArr l]> msg))
            | _ => None
            end
  end.

(** The legacy key of a part's kind. *)
Definition tag_part (p : json) : json :=
  match p with
  | JObj l =>
      let part := to_members l in
      match part !! "kind", part !! "type" with
      | None, Some t => marshal_map (delete "type" (<["kind" := t]> part))
      | _, _ => p
      end
  | _ => p
  end.
Definition tag_parts (msg : members) : members :=
  match msg !! "parts" with Some (JArr l) => <["parts" := JArr (map tag_part l)]> msg | _ => msg end.

Definition normal_message (gen : string) (msg : members) : option members :=
  tag_parts <$> with_parts (with_default "role" (JStr "user") (with_default "messageId" (JStr gen) msg)).

Definition normal_envelope (gen_id gen_msg : string) (m : members) : option members :=
  let env := envelope gen_id m in
  match member_map env "params" with
  | None => Some env
  | Some params =>
      match member_map params "message" with
      | None => Some env
      | Some msg =>
          (fun msg' => <["params" := marshal_map (<["message" := marshal_map msg']> params)]> env) <$>
          normal_message gen_msg msg
      end
  end.

(** The body to send and its method, or the status of the refusal. *)
Definition normalizeA2APayload (gen_id gen_msg : string) (body : payload) : payload * string + Z :=
  match decode_body body with
  | None => inr 400
  | Some m =>
      match normal_envelope gen_id gen_msg (default ∅ m) with
      | None => inr 400
      | Some env => inl (encode env, string_at env "method")
      end
  end.

(** ** The session of a canvas turn *)

Definition canvasSessionContextID (workspaceID : string) : string := "canvas-" +:+ workspaceID.

Definition ensureCanvasSessionContextID (body : payload) (workspaceID : string) : payload * bool :=
  if decide (workspaceID = "") then (body, false)
  else match decode_body body with
       | Some (Some m) =>
           match member_map m "params" with
           | None => (body, false)
           | Some params =>
               match member_map params "message" with
               | None => (body, false)
               | Some msg =>
                   if decide (TrimSpace (string_at msg "contextId") <> "") then (body, false)
                   else (encode (<["params" := marshal_map (<["message" := marshal_map
                           (<["contextId" := JStr (canvasSessionContextID workspaceID)]> msg)]> params)]> m), true)
               end
           end
       | _ => (body, false)
       end.

(** ** Who the human is *)

(** [None]: UNAUTHENTICATED; otherwise the user and the e-mail. *)
Definition canvasIdentity := option (string * string).

Definition stamp_identity (ident : canvasIdentity) (meta : members) : members :=
  let meta := <["source" := JStr "canvas_user"]> meta in
  match ident with
  | None => <["user_identity_status" := JStr "UNAUTHENTICATED"]> meta
  | Some (user, email) =>
      <["username" := JStr email]> (<["email" := JStr email]> (<["user_id" := JStr user]>
        (<["user_identity_status" := JStr "AUTHENTICATED"]> meta)))
  end.

(** A body of null leaves a nil map, and writing to it panics. *)
Inductive injected := Injected (body : payload) | InjectErr | InjectPanic.

Definition injectCanvasUserIdentity (body : payload) (ident : canvasIdentity) : injected :=
  match decode_body body with
  | None => InjectErr
  | Some None => InjectPanic
  | Some (Some env) =>
      let params := default ∅ (member_map env "params") in
      let meta := default ∅ (member_map params "metadata") in
      Injected (encode (<["params" := marshal_map (<["metadata" := marshal_map (stamp_identity ident meta)]> params)]> env))
  end.

(** ** What is read from a body *)

Definition extractMessageIdFromA2ABody (body : payload) : string :=
  match parsed body with
  | None => ""
  | Some j => let '(s, err) := get_string ["params"; "message"; "messageId"] j in if err : bool then "" else s
  end.

(** The number of a size, to int64. *)
Definition numericSizeFromAny (v : option json) : option Z :=
  match v with Some (JNum n d) => Some (trunc_num n d) | _ => None end.

Definition non_empty_string (m : members) (k : string) : option string :=
  let s := string_at m k in if decide (s = "") then None else Some s.

(** name, mimeType, uri and size.  A file without a uri is kept: a missing key of the
    map is nil, which differs from the empty string it is compared with. *)
Record attachment := Attachment { at_name : string; at_mime : option string; at_uri : option string; at_size : option Z }.

Definition part_kind (p : members) : string :=
  let kind := string_at p "kind" in if decide (kind = "") then string_at p "type" else kind.

Definition attachment_of (p : members) : attachment :=
  let file := default ∅ (member_map p "file") in
  Attachment (default "file" (non_empty_string file "name")) (non_empty_string file "mimeType")
    (non_empty_string file "uri") (numericSizeFromAny (file !! "size")).

Definition scan_part (acc : string * list attachment) (p : members) : string * list attachment :=
  let '(text, atts) := acc in
  let kind := part_kind p in
  if decide (kind = "text") then ((if decide (text = "") then string_at p "text" else text), atts)
  else if decide (kind = "file") then (text, atts ++ [attachment_of p])
  else acc.

(** A [[]map[string]interface{}] field: an element that is null stays nil and is
    skipped, another that is no object is an error. *)
Definition leaf_parts (j : json) (cur : list members * bool) : list members * bool :=
  match j with
  | JArr l => (omap (fun p => match p with JObj _ => unmarshal_map in_range float64 p | _ => None end) l,
               cur.2 || existsb (fun p => match p with JObj _ => negb (decodable in_range p) | JNull => false | _ => true end) l)
  | JNull => ([], cur.2)
  | _ => (cur.1, true)
  end.

Definition extractUserTextAndAttachments (body : payload) : string * list attachment :=
  match parsed body with
  | None => ("", [])
  | Some j => let '(parts, err) := walk leaf_parts ["params"; "message"; "parts"] j ([], false) in
              if err : bool then ("", []) else foldl scan_part ("", []) parts
  end.
End Body.

(** ** What is read from a reply *)

(** A [map[string]json.RawMessage]. *)
Definition raw_members (j : json) : option members :=
  match j with JObj l => Some (to_members l) | JNull => Some ∅ | _ => None end.

(** metadata.tool_trace of the result.  The text is compared with null and []: an empty
    list with a space inside is taken for one without here. *)
Definition extractToolTrace (resp : payload) : option json :=
  match parsed resp with
  | None => None
  | Some j =>
      let member (k : string) (o : option json) : option json :=
        match o with
        | Some j => match raw_members j with Some m => m !! k | None => None end
        | None => None
        end in
      match member "tool_trace" (member "metadata" (member "result" (Some j))) with
      | None | Some JNull | Some (JArr []) => None
      | Some trace => Some trace
      end
  end.

Definition in_int64 (n : Z) : bool := (- 2 ^ 63 <=? n) && (n <? 2 ^ 63).
Definition leaf_int64 (j : json) (cur : Z * bool) : Z * bool :=
  match j with
  | JNum n 1 => if in_int64 n then (n, cur.2) else (cur.1, true)
  | JNull => cur
  | _ => (cur.1, true)
  end.

Definition readUsageMap (m : members) : option (Z * Z) :=
  match m !! "usage" with
  | None => None
  | Some usage =>
      let '(i, e1) := walk leaf_int64 ["input_tokens"] usage (0, false) in
      let '(o, e2) := walk leaf_int64 ["output_tokens"] usage (0, false) in
      if (e1 || e2)%bool then None else if (i =? 0) && (o =? 0) then None else Some (i, o)
  end.

Definition usage_of_result (top : members) : option (Z * Z) :=
  match top !! "result" with
  | Some j => match raw_members j with Some result => readUsageMap result | None => None end
  | None => None
  end.

Definition parseUsageFromA2AResponse (resp : payload) : Z * Z :=
  match parsed resp with
  | None => (0, 0)
  | Some j =>
      match raw_members j with
      | None => (0, 0)
      | Some top =>
          match usage_of_result top with
          | Some io => io
          | None => default (0, 0) (readUsageMap top)
          end
      end
  end.

(** ** Normal forms *)

Section NormalForms.
Context (in_range : Z -> positive -> bool) (float64 : Z -> positive -> Z * positive) (render : json -> string).
(** A float64 is read back as it was written. *)
Context (Hfix : forall n d, float64 (fst (float64 n d)) (snd (float64 n d)) = float64 n d).
Context (Hrange : forall n d, in_range n d = true -> in_range (fst (float64 n d)) (snd (float64 n d)) = true).

(** A value that decoding leaves as it is. *)
Definition clean (j : json) : Prop := as_any float64 j = j /\ decodable in_range j = true.
Definition clean_map (m : members) : Prop := forall k v, m !! k = Some v -> clean v.

Lemma to_members_fmap (f : json -> json) l : to_members (map (fun kv => (kv.1, f kv.2)) l) = f <$> to_members l.
Proof. unfold to_members. rewrite <- map_rev. rewrite <- list_to_map_fmap. f_equal. Qed.

Lemma of_members_elem m kv : kv ∈ of_members m <-> m !! kv.1 = Some kv.2.
Proof. unfold of_members. rewrite sort_members_perm. destruct kv. apply elem_of_map_to_list. Qed.

Lemma to_members_elem l k v : to_members l !! k = Some v -> (k, v) ∈ l.
Proof. unfold to_members. intros H%elem_of_list_to_map_2. by rewrite <- Permutation_rev in H. Qed.

Lemma clean_marshal m : clean_map m -> clean (marshal_map m).
Proof.
  intros Hm. assert (Hl : map (fun kv : string * json => match kv with (k, v) => (k, as_any float64 v) end) (of_members m) = of_members m).
  { rewrite <- (map_id (of_members m)) at 2. apply map_ext_in. intros [k v] Hin.
    apply list_elem_of_In, of_members_elem in Hin. cbn in Hin. by destruct (Hm k v Hin) as [-> _]. }
  split; cbn [marshal_map as_any decodable].
  - unfold marshal_map. cbn. rewrite Hl. by rewrite to_of_members.
  - apply forallb_forall. intros [k v] Hin. apply list_elem_of_In, of_members_elem in Hin. by apply (Hm k v).
Qed.

Lemma unmarshal_marshal m : clean_map m -> unmarshal_map in_range float64 (marshal_map m) = Some m.
Proof.
  intros Hm. destruct (clean_marshal m Hm) as [_ Hd]. unfold unmarshal_map, marshal_map in *. rewrite Hd, to_of_members.
  f_equal. apply map_eq. intros k. rewrite lookup_fmap. destruct (m !! k) as [v|] eqn:E; [|done]. cbn.
  by destruct (Hm k v E) as [-> _].
Qed.

Lemma clean_string s : clean (JStr s).
Proof. by split. Qed.
Lemma clean_null : clean JNull.
Proof. by split. Qed.

Lemma clean_insert k v m : clean v -> clean_map m -> clean_map (<[k := v]> m).
Proof. intros Hv Hm k' v' [[_ <-]|[_ Hl]]%lookup_insert_Some; [done|by apply (Hm k')]. Qed.
Lemma clean_delete k m : clean_map m -> clean_map (delete k m).
Proof. intros Hm k' v' [_ Hl]%lookup_delete_Some. by apply (Hm k'). Qed.
Lemma clean_empty : clean_map ∅.
Proof. intros k v. by rewrite lookup_empty. Qed.

Lemma clean_array l : Forall clean l -> clean (JArr l).
Proof.
  intros Hl. split; cbn.
  - f_equal. rewrite <- (map_id l) at 2. apply map_ext_in. intros j Hin. apply list_elem_of_In in Hin.
    rewrite Forall_forall in Hl. by destruct (Hl j Hin).
  - apply forallb_forall. intros j Hin. apply list_elem_of_In in Hin. rewrite Forall_forall in Hl. by destruct (Hl j Hin).
Qed.

Lemma clean_array_inv l : clean (JArr l) -> Forall clean l.
Proof.
  intros [Ha Hd]. cbn in Ha, Hd. injection Ha as Ha. rewrite forallb_forall in Hd. apply Forall_forall. intros j Hin.
  split; [|by apply Hd, list_elem_of_In]. apply list_elem_of_lookup_1 in Hin as [i Hi].
  assert (Hm := f_equal (fun l => l !! i) Ha). cbn in Hm. rewrite list_lookup_fmap, Hi in Hm. cbn in Hm. congruence.
Qed.

(** The induction on a document. *)
Lemma json_rect_deep (P : json -> Prop) :
  P JNull -> (forall b, P (JBool b)) -> (forall n d, P (JNum n d)) -> (forall s, P (JStr s)) ->
  (forall l, Forall P l -> P (JArr l)) -> (forall l, Forall (fun kv => P kv.2) l -> P (JObj l)) -> forall j, P j.
Proof.
  intros Hn Hb Hm Hs Ha Ho. fix IH 1. intros [| | | |l|l]; [done|done|done|done| |].
  - apply Ha. induction l as [|j l IHl]; constructor; [apply IH|exact IHl].
  - apply Ho. induction l as [|[k j] l IHl]; constructor; [apply IH|exact IHl].
Qed.

Lemma as_any_members l :
  as_any float64 (JObj l) = marshal_map (as_any float64 <$> to_members l).
Proof.
  cbn. unfold marshal_map. rewrite <- to_members_fmap. do 3 f_equal. apply map_ext. by intros [].
Qed.

Lemma as_any_clean j : decodable in_range j = true -> clean (as_any float64 j).
Proof.
  induction j as [| | | |l IH|l IH] using json_rect_deep; [by split|by split| |by split| |].
  - cbn. intros Hd. specialize (Hfix n d). specialize (Hrange n d Hd). destruct (float64 n d) as [n' d']. cbn in *.
    split; cbn; [by rewrite Hfix|done].
  - cbn [decodable]. intros Hd. rewrite forallb_forall in Hd. cbn [as_any]. apply clean_array. rewrite Forall_map.
    rewrite Forall_forall in IH |- *. intros j Hin. apply IH; [done|]. by apply Hd, list_elem_of_In.
  - intros Hd. rewrite as_any_members. apply clean_marshal. intros k v Hv. rewrite lookup_fmap in Hv.
    destruct (to_members l !! k) as [j|] eqn:E; [|done]. injection Hv as <-. apply to_members_elem in E.
    cbn [decodable] in Hd. rewrite forallb_forall in Hd. rewrite Forall_forall in IH.
    apply (IH (k, j)); [done|]. apply list_elem_of_In in E. by specialize (Hd (k, j) E).
Qed.

Lemma unmarshal_clean j m : unmarshal_map in_range float64 j = Some m -> clean_map m.
Proof.
  destruct j as [| | | | |l]; try done. cbn [unmarshal_map]. destruct (decodable in_range (JObj l)) eqn:Hd; [|done]. intros [= <-].
  intros k v Hv. rewrite lookup_fmap in Hv. destruct (to_members l !! k) as [j|] eqn:E; [|done]. injection Hv as <-.
  apply as_any_clean. apply to_members_elem, list_elem_of_In in E. cbn in Hd. rewrite forallb_forall in Hd. by specialize (Hd (k, j) E).
Qed.

Lemma clean_object_inv l : clean (JObj l) -> clean_map (to_members l) /\ marshal_map (to_members l) = JObj l.
Proof.
  intros [Ha Hd]. rewrite as_any_members in Ha.
  assert (Hu : unmarshal_map in_range float64 (JObj l) = Some (as_any float64 <$> to_members l)) by (cbn [unmarshal_map]; by rewrite Hd).
  assert (Hc := unmarshal_clean _ _ Hu).
  assert (He : to_members l = as_any float64 <$> to_members l).
  { rewrite <- (to_of_members (as_any float64 <$> to_members l)). unfold marshal_map in Ha. injection Ha as Ha. by rewrite Ha. }
  rewrite <- He in Hc, Ha. done.
Qed.

Lemma member_map_clean m k m' : clean_map m -> member_map m k = Some m' -> clean_map m' /\ m !! k = Some (marshal_map m').
Proof.
  intros Hm. unfold member_map. destruct (m !! k) as [[| | | | |l]|] eqn:E; try done. intros [= <-].
  destruct (clean_object_inv l (Hm k _ E)) as [Hc ->]. done.
Qed.

Lemma member_map_put m k m' : member_map (<[k := marshal_map m']> m) k = Some m'.
Proof. unfold member_map. rewrite lookup_insert_eq. unfold marshal_map. by rewrite to_of_members. Qed.
End NormalForms.

(** ** What normalizing does *)

Lemma with_default_lookup k v m k' :
  with_default k v m !! k' = if decide (k = k') then Some (default v (m !! k)) else m !! k'.
Proof.
  unfold with_default. destruct (m !! k) as [v'|] eqn:E; destruct (decide (k = k')) as [<-|Hk]; cbn; try done.
  - by rewrite lookup_insert_eq.
  - by rewrite lookup_insert_ne.
Qed.

Lemma with_default_here k v m : is_Some (m !! k) -> with_default k v m = m.
Proof. intros [v' Hv]. unfold with_default. by rewrite Hv. Qed.

Lemma tag_part_idem p : tag_part (tag_part p) = tag_part p.
Proof.
  destruct p as [| | | | |l]; try done. cbn. destruct (to_members l !! "kind") as [k|] eqn:Ek; cbn.
  - by rewrite Ek.
  - destruct (to_members l !! "type") as [t|] eqn:Et; cbn; [|by rewrite Ek, Et].
    rewrite to_of_members. rewrite lookup_delete_ne, lookup_insert_eq by done. done.
Qed.

Lemma tag_parts_other k msg : k <> "parts" -> tag_parts msg !! k = msg !! k.
Proof. intros Hk. unfold tag_parts. destruct (msg !! "parts") as [[]|]; try done. by rewrite lookup_insert_ne. Qed.

Lemma tag_parts_some msg : is_Some (msg !! "parts") -> is_Some (tag_parts msg !! "parts").
Proof.
  intros [v Hv]. unfold tag_parts. rewrite Hv. destruct v; rewrite ?Hv; eauto. rewrite lookup_insert_eq. eauto.
Qed.

Lemma tag_parts_idem msg : tag_parts (tag_parts msg) = tag_parts msg.
Proof.
  unfold tag_parts at 2 3. destruct (msg !! "parts") as [[| | | |l|]|] eqn:E; try (unfold tag_parts; by rewrite E).
  unfold tag_parts. rewrite lookup_insert_eq, insert_insert_eq. f_equal. f_equal. rewrite map_map. apply map_ext. intros p. apply tag_part_idem.
Qed.

Lemma with_parts_some msg msg' : with_parts msg = Some msg' ->
  is_Some (msg' !! "parts") /\ forall k, k <> "parts" -> k <> "content" -> msg' !! k = msg !! k.
Proof.
  unfold with_parts. destruct (msg !! "parts") as [v|] eqn:E; [intros [= <-]; split; [by rewrite E|done]|].
  destruct (msg !! "content") as [[| | |s|l|]|]; try done; intros [= <-]; split.
  all: try (rewrite lookup_delete_ne, lookup_insert_eq by done; eauto).
  all: intros k H1 H2; by rewrite lookup_delete_ne, lookup_insert_ne.
Qed.

Lemma with_parts_here msg : is_Some (msg !! "parts") -> with_parts msg = Some msg.
Proof. intros [v Hv]. unfold with_parts. by rewrite Hv. Qed.

Lemma normal_message_members gen msg msg' : normal_message gen msg = Some msg' ->
  is_Some (msg' !! "parts") /\ tag_parts msg' = msg' /\
  msg' !! "messageId" = Some (default (JStr gen) (msg !! "messageId")) /\
  msg' !! "role" = Some (default (JStr "user") (msg !! "role")) /\
  forall k, k ∉ ["parts"; "content"; "messageId"; "role"] -> msg' !! k = msg !! k.
Proof.
  unfold normal_message. destruct (with_parts _) as [msg1|] eqn:E; [|done]. intros [= <-].
  apply with_parts_some in E as [Hp Ho]. split_and!; [by apply tag_parts_some|apply tag_parts_idem| | |].
  - rewrite tag_parts_other, Ho, !with_default_lookup by done. by rewrite decide_False, decide_True by done.
  - rewrite tag_parts_other, Ho, !with_default_lookup by done. by rewrite decide_True, decide_False by done.
  - intros k Hk. rewrite !not_elem_of_cons in Hk. destruct Hk as (H1 & H2 & H3 & H4 & _).
    rewrite tag_parts_other, Ho, !with_default_lookup by done. by rewrite !decide_False by auto.
Qed.

Lemma normal_message_stable gen gen' msg msg' :
  normal_message gen msg = Some msg' -> normal_message gen' msg' = Some msg'.
Proof.
  intros (Hp & Ht & Hi & Hr & _)%normal_message_members. unfold normal_message.
  rewrite (with_default_here "messageId") by (rewrite Hi; eauto). rewrite (with_default_here "role") by (rewrite Hr; eauto).
  rewrite with_parts_here by done. cbn. by rewrite Ht.
Qed.

Lemma envelope_jsonrpc gen m : is_Some (envelope gen m !! "jsonrpc").
Proof. unfold envelope. destruct (m !! "jsonrpc") as [v|] eqn:E; [by rewrite E|]. rewrite lookup_insert_eq. eauto. Qed.

Lemma envelope_here gen m : is_Some (m !! "jsonrpc") -> envelope gen m = m.
Proof. intros [v Hv]. unfold envelope. by rewrite Hv. Qed.

Lemma envelope_params gen m : member_map (envelope gen m) "params" = member_map m "params".
Proof.
  unfold member_map, envelope. destruct (m !! "jsonrpc"); [done|].
  rewrite !lookup_insert_ne, lookup_insert_eq by done. by destruct (m !! "params").
Qed.

Lemma normal_envelope_stable gen_id gen_msg gen_id' gen_msg' m e :
  normal_envelope gen_id gen_msg m = Some e -> normal_envelope gen_id' gen_msg' e = Some e.
Proof.
  unfold normal_envelope. rewrite envelope_params. destruct (member_map m "params") as [params|] eqn:Ep.
  - destruct (member_map params "message") as [msg|] eqn:Em.
    + destruct (normal_message gen_msg msg) as [msg'|] eqn:En; [|done]. intros [= <-].
      rewrite envelope_here by (rewrite lookup_insert_ne by done; apply envelope_jsonrpc).
      rewrite !member_map_put. rewrite (normal_message_stable _ _ _ _ En). cbn. by rewrite !insert_insert_eq.
    + intros [= <-]. rewrite envelope_here by apply envelope_jsonrpc. by rewrite envelope_params, Ep, Em.
  - intros [= <-]. rewrite envelope_here by apply envelope_jsonrpc. by rewrite envelope_params, Ep.
Qed.

Section Normalizing.
Context (in_range : Z -> positive -> bool) (float64 : Z -> positive -> Z * positive) (render : json -> string).
Context (Hfix : forall n d, float64 (fst (float64 n d)) (snd (float64 n d)) = float64 n d).
Context (Hrange : forall n d, in_range n d = true -> in_range (fst (float64 n d)) (snd (float64 n d)) = true).

Abbreviation clean_map := (clean_map in_range float64).
Abbreviation clean := (clean in_range float64).

Lemma clean_tag_part p : clean p -> clean (tag_part p).
Proof.
  intros Hp. destruct p as [| | | | |l]; try done. cbn. destruct (to_members l !! "kind") eqn:Ek; [done|].
  destruct (to_members l !! "type") as [t|] eqn:Et; [|done].
  destruct (clean_object_inv _ _ Hfix Hrange l Hp) as [Hc _]. apply clean_marshal, clean_delete, clean_insert; [by apply (Hc "type")|done].
Qed.

Lemma clean_text_part s : clean (text_part s).
Proof. apply clean_marshal. repeat apply clean_insert; try apply clean_string. apply clean_empty. Qed.

Lemma clean_with_default k v m : clean v -> clean_map m -> clean_map (with_default k v m).
Proof. intros Hv Hm. unfold with_default. destruct (m !! k); [done|by apply clean_insert]. Qed.

Lemma clean_normal_message gen msg msg' : clean_map msg -> normal_message gen msg = Some msg' -> clean_map msg'.
Proof.
  intros Hm. unfold normal_message. destruct (with_parts _) as [msg1|] eqn:E; [|done]. intros [= <-].
  assert (H1 : clean_map msg1).
  { set (msg0 := with_default "role" _ _) in E.
    assert (H0 : clean_map msg0) by (repeat apply clean_with_default; try apply clean_string; done).
    clearbody msg0. unfold with_parts in E. destruct (msg0 !! "parts"); [by injection E as <-|].
    destruct (msg0 !! "content") as [[| | |s|l|]|] eqn:Ec; try done; injection E as <-; apply clean_delete, clean_insert; try done.
    all: first [by apply (H0 "content") | apply clean_array; constructor; [apply clean_text_part|constructor]]. }
  unfold tag_parts. destruct (msg1 !! "parts") as [[| | | |l|]|] eqn:Ep; try done.
  apply clean_insert; [|done]. apply clean_array. rewrite Forall_map.
  assert (Hl := clean_array_inv _ _ l (H1 "parts" _ Ep)). eapply Forall_impl; [exact Hl|]. intros p. apply clean_tag_part.
Qed.

Lemma clean_envelope gen m : clean_map m -> clean_map (envelope gen m).
Proof.
  intros Hm. unfold envelope. destruct (m !! "jsonrpc"); [done|].
  assert (Hd : forall k, clean (default JNull (m !! k))) by (intros k; destruct (m !! k) eqn:E; [by apply (Hm k)|apply clean_null]).
  repeat apply clean_insert; try apply clean_string; try apply Hd. apply clean_empty.
Qed.

Lemma clean_normal_envelope gen_id gen_msg m e : clean_map m -> normal_envelope gen_id gen_msg m = Some e -> clean_map e.
Proof.
  intros Hm. assert (He := clean_envelope gen_id m Hm). unfold normal_envelope.
  destruct (member_map (envelope gen_id m) "params") as [params|] eqn:Ep; [|by intros [= <-]].
  destruct (member_map_clean _ _ Hfix Hrange _ _ _ He Ep) as [Hp _].
  destruct (member_map params "message") as [msg|] eqn:Em; [|by intros [= <-]].
  destruct (member_map_clean _ _ Hfix Hrange _ _ _ Hp Em) as [Hmsg _].
  destruct (normal_message gen_msg msg) as [msg'|] eqn:En; [|done]. intros [= <-].
  apply clean_insert; [|done]. apply clean_marshal, clean_insert; [|done].
  apply clean_marshal. by apply (clean_normal_message gen_msg msg).
Qed.

Lemma decode_clean body m : decode_body in_range float64 body = Some m -> clean_map (default ∅ m).
Proof.
  unfold decode_body. destruct (parsed body) as [j|]; [|done].
  destruct j; try done; try (intros [= <-]; apply clean_empty).
  destruct (unmarshal_map _ _ _) as [m'|] eqn:E; [|done]. intros [= <-]. by apply unmarshal_clean in E.
Qed.

Lemma decode_encode m : clean_map m -> decode_body in_range float64 (encode render m) = Some (Some m).
Proof.
  intros Hm. unfold decode_body, encode. cbn [parsed]. unfold marshal_map at 1.
  change (Some <$> unmarshal_map in_range float64 (marshal_map m) = Some (Some m)). by rewrite unmarshal_marshal.
Qed.

(** normalizing settles a body.  What was normalized once - to be sent, stored in
    the queue and sent again - is left as it is by every later pass, ids included,
    whatever uuids are drawn then. *)
Theorem normalizing_settles gen_id gen_msg gen_id' gen_msg' body p m :
  normalizeA2APayload in_range float64 render gen_id gen_msg body = inl (p, m) ->
  normalizeA2APayload in_range float64 render gen_id' gen_msg' p = inl (p, m).
Proof.
  unfold normalizeA2APayload. destruct (decode_body in_range float64 body) as [m0|] eqn:Ed; [|done].
  destruct (normal_envelope gen_id gen_msg (default ∅ m0)) as [e|] eqn:Ee; [|done]. intros [= <- <-].
  assert (Hc : clean_map e) by (eapply clean_normal_envelope; [by eapply decode_clean|done]).
  rewrite decode_encode by done. cbn [default from_option id]. by rewrite (normal_envelope_stable _ _ _ _ _ _ Ee).
Qed.
(** The message of a body. *)
Definition message_in (body : payload) : option members :=
  match decode_body in_range float64 body with
  | Some (Some m) => match member_map m "params" with Some params => member_map params "message" | None => None end
  | _ => None
  end.

Definition untagged (p : json) : Prop :=
  exists l, p = JObj l /\ to_members l !! "kind" = None /\ is_Some (to_members l !! "type").

Lemma tag_part_tagged p : ~ untagged (tag_part p).
Proof.
  intros (l & E & Hk & [t Ht]). assert (Hi := tag_part_idem p). rewrite E in Hi. cbn in Hi. rewrite Hk, Ht in Hi.
  assert (Hm : to_members (of_members (delete "type" (<["kind" := t]> (to_members l)))) = to_members l)
    by (unfold marshal_map in Hi; injection Hi as Hi; by rewrite Hi).
  rewrite to_of_members in Hm. rewrite <- Hm in Hk. by rewrite lookup_delete_ne, lookup_insert_eq in Hk.
Qed.

Lemma message_in_normal gen_id gen_msg body p m :
  normalizeA2APayload in_range float64 render gen_id gen_msg body = inl (p, m) ->
  message_in p = match message_in body with Some msg => normal_message gen_msg msg | None => None end.
Proof.
  unfold normalizeA2APayload, message_in. destruct (decode_body in_range float64 body) as [m0|] eqn:Ed; [|done].
  destruct (normal_envelope gen_id gen_msg (default ∅ m0)) as [e|] eqn:Ee; [|done]. intros [= <- _].
  assert (Hc : clean_map e) by (eapply clean_normal_envelope; [by eapply decode_clean|done]).
  rewrite decode_encode by done. unfold normal_envelope in Ee. rewrite envelope_params in Ee.
  destruct m0 as [m0|]; cbn [default from_option id] in Ee.
  - revert Ee. destruct (member_map m0 "params") as [params|] eqn:Ep; [|intros [= <-]; by rewrite envelope_params, Ep].
    destruct (member_map params "message") as [msg|] eqn:Em; [|intros [= <-]; by rewrite envelope_params, Ep].
    destruct (normal_message gen_msg msg) as [msg'|] eqn:En; [|done]. cbn. intros [= <-]. by rewrite !member_map_put.
  - revert Ee. unfold member_map at 1. rewrite lookup_empty. cbn. intros [= <-]. rewrite envelope_params.
    unfold member_map. by rewrite lookup_empty.
Qed.

(** a message that goes out is complete: it has an id, a role and parts, none of
    the parts keeps its kind under the old key, and what the sender gave as id and role
    is what goes out. *)
Theorem sent_message_is_complete gen_id gen_msg body p m msg :
  normalizeA2APayload in_range float64 render gen_id gen_msg body = inl (p, m) -> message_in p = Some msg ->
  exists msg0, message_in body = Some msg0 /\
    msg !! "messageId" = Some (default (JStr gen_msg) (msg0 !! "messageId")) /\
    msg !! "role" = Some (default (JStr "user") (msg0 !! "role")) /\
    is_Some (msg !! "parts") /\ (forall l, msg !! "parts" = Some (JArr l) -> Forall (fun q => ~ untagged q) l) /\
    forall k, k ∉ ["parts"; "content"; "messageId"; "role"] -> msg !! k = msg0 !! k.
Proof.
  intros ->%message_in_normal. destruct (message_in body) as [msg0|]; [|done].
  intros (Hp & Ht & Hi & Hr & Ho)%normal_message_members. exists msg0. split_and!; try done.
  intros l Hl. unfold tag_parts in Ht. rewrite Hl in Ht. assert (Hl' := f_equal (lookup "parts") Ht).
  rewrite lookup_insert_eq, Hl in Hl'. injection Hl' as Hl'. rewrite <- Hl'. rewrite Forall_map. apply Forall_forall. intros q _.
  apply tag_part_tagged.
Qed.

Lemma normal_message_refused gen msg :
  normal_message gen msg = None <->
  msg !! "parts" = None /\ (forall s, msg !! "content" <> Some (JStr s)) /\ (forall l, msg !! "content" <> Some (JArr l)).
Proof.
  unfold normal_message, with_parts.
  assert (Hd : forall k, k = "parts" \/ k = "content" ->
    with_default "role" (JStr "user") (with_default "messageId" (JStr gen) msg) !! k = msg !! k).
  { intros k Hk. rewrite !with_default_lookup. destruct Hk as [-> | ->]; done. }
  rewrite !Hd by auto. destruct (msg !! "parts") as [v|]; cbn; [split; [done|by intros [? _]]|].
  destruct (msg !! "content") as [[| | |s|l|]|]; cbn; split; try done.
  - intros (_ & Hs & _). by destruct (Hs s).
  - intros (_ & _ & Hl). by destruct (Hl l).
Qed.

(** a body is refused, with 400, exactly when it is no JSON object (nor null) or
    its message has neither parts nor a text or a list as content. *)
Theorem refused_bodies gen_id gen_msg body code :
  normalizeA2APayload in_range float64 render gen_id gen_msg body = inr code <->
  code = 400 /\ (decode_body in_range float64 body = None \/
    exists msg, message_in body = Some msg /\ msg !! "parts" = None /\
      (forall s, msg !! "content" <> Some (JStr s)) /\ (forall l, msg !! "content" <> Some (JArr l))).
Proof.
  unfold normalizeA2APayload, message_in, normal_envelope.
  destruct (decode_body in_range float64 body) as [m0|]; [|split; [by intros [= <-]; auto|by intros [-> _]]].
  rewrite envelope_params. destruct m0 as [m0|]; cbn [default from_option id].
  - destruct (member_map m0 "params") as [params|]; [|split; [done|by intros (_ & [?|(? & ? & _)])]].
    destruct (member_map params "message") as [msg|]; [|split; [done|by intros (_ & [?|(? & ? & _)])]].
    assert (Hn := normal_message_refused gen_msg msg). destruct (normal_message gen_msg msg) as [msg'|]; cbn.
    + split; [done|]. intros (_ & [?|(msg2 & [= <-] & H2)]); [done|]. by apply Hn in H2.
    + split; [|by intros [-> _]]. intros [= <-]. split; [done|]. right. exists msg. split; [done|]. by apply Hn.
  - unfold member_map at 1. rewrite lookup_empty. split; [done|by intros (_ & [?|(? & ? & _)])].
Qed.

(** the belt for sessions: a canvas turn that names a session keeps it, and one
    that does not gets that of the workspace; nothing else of the message changes. *)
Theorem canvas_turn_has_a_session body ws msg (Hws : ws <> "") (Hm : message_in body = Some msg) :
  exists msg', message_in (fst (ensureCanvasSessionContextID in_range float64 render body ws)) = Some msg' /\
    (if decide (TrimSpace (string_at msg "contextId") = "")
     then msg' = <["contextId" := JStr ("canvas-" +:+ ws)]> msg else msg' = msg).
Proof.
  assert (Hm' := Hm). unfold message_in in Hm'. unfold ensureCanvasSessionContextID. rewrite decide_False by done.
  destruct (decode_body in_range float64 body) as [[m|]|] eqn:Ed; try done.
  destruct (member_map m "params") as [params|] eqn:Ep; [|done]. rewrite Hm'.
  assert (Hc : clean_map m) by (by apply decode_clean in Ed). destruct (member_map_clean _ _ Hfix Hrange _ _ _ Hc Ep) as [Hp _].
  destruct (member_map_clean _ _ Hfix Hrange _ _ _ Hp Hm') as [Hcm _].
  destruct (decide (TrimSpace (string_at msg "contextId") = "")) as [Ht|Ht].
  - rewrite decide_False by auto. eexists. split; [|reflexivity]. cbn [fst]. unfold message_in. rewrite decode_encode.
    + by rewrite !member_map_put.
    + apply clean_insert; [|done]. apply clean_marshal, clean_insert; [|done]. apply clean_marshal.
      apply clean_insert; [apply clean_string|done].
  - rewrite decide_True by done. cbn [fst]. by exists msg.
Qed.
End Normalizing.

(** ** Concrete bodies *)

Module PayloadDemo.
Definition any_number (_ : Z) (_ : positive) : bool := true.
Definition exact (n : Z) (d : positive) : Z * positive := (n, d).
Definition silent (_ : json) : string := "".
Definition doc (j : json) : payload := Payload "" (Some j).
Definition send (msg : list (string * json)) : payload :=
  doc (JObj [("method", JStr "message/send"); ("params", JObj [("message", JObj msg)])]).
Definition legacy : payload := send [("content", JStr "hello")].
Definition normalized : payload * string + Z := normalizeA2APayload any_number exact silent "i" "m" legacy.

(** A message of the old protocol. *)
Example legacy_is_wrapped :
  match normalized with
  | inl (p, meth) => parsed p = Some (JObj [("id", JStr "i"); ("jsonrpc", JStr "2.0"); ("method", JStr "message/send");
      ("params", JObj [("message", JObj [("messageId", JStr "m");
        ("parts", JArr [JObj [("kind", JStr "text"); ("text", JStr "hello")]]); ("role", JStr "user")])])]) /\ meth = "message/send"
  | inr _ => False
  end.
Proof. vm_compute. auto. Qed.

(** A body of null panics where the identity is written. *)
Example null_body_panics : injectCanvasUserIdentity any_number exact silent (doc JNull) None = InjectPanic.
Proof. reflexivity. Qed.

(** A file without a uri is broadcast all the same. *)
Example file_without_uri_is_kept :
  extractUserTextAndAttachments any_number exact (send [("parts", JArr [JObj [("kind", JStr "file")]])]) =
  ("", [Attachment "file" None None None]).
Proof. vm_compute. reflexivity. Qed.

Definition sent : payload := match normalized with inl (p, _) => p | inr _ => legacy end.
Definition sent_message : members := default ∅ (message_in any_number exact sent).
Definition legacy_message : members := <["content" := JStr "hello"]> ∅.

Lemma normalizing_settles_witness :
  normalizeA2APayload any_number exact silent "other" "ids" sent = inl (sent, "message/send").
Proof.
  assert (E : normalizeA2APayload any_number exact silent "i" "m" legacy = inl (sent, "message/send")) by (vm_compute; reflexivity).
  exact (normalizing_settles any_number exact silent (fun _ _ => eq_refl) (fun _ _ H => H) "i" "m" "other" "ids" legacy sent _ E).
Defined.

Lemma sent_message_is_complete_witness :
  exists msg0, message_in any_number exact legacy = Some msg0 /\
    sent_message !! "messageId" = Some (default (JStr "m") (msg0 !! "messageId")).
Proof.
  assert (E : normalizeA2APayload any_number exact silent "i" "m" legacy = inl (sent, "message/send")) by (vm_compute; reflexivity).
  assert (Em : message_in any_number exact sent = Some sent_message) by (vm_compute; reflexivity).
  destruct (sent_message_is_complete any_number exact silent (fun _ _ => eq_refl) (fun _ _ H => H) "i" "m" legacy sent _ _ E Em)
    as (msg0 & H0 & Hi & _). exact (ex_intro _ msg0 (conj H0 Hi)).
Defined.

Lemma canvas_turn_has_a_session_witness :
  exists msg', message_in any_number exact (fst (ensureCanvasSessionContextID any_number exact silent legacy "w")) = Some msg' /\
    (if decide (TrimSpace (string_at legacy_message "contextId") = "")
     then msg' = <["contextId" := JStr ("canvas-" +:+ "w")]> legacy_message else msg' = legacy_message).
Proof.
  assert (E : message_in any_number exact legacy = Some legacy_message) by (vm_compute; reflexivity).
  assert (Hw : "w" <> "") by discriminate.
  exact (canvas_turn_has_a_session any_number exact silent (fun _ _ => eq_refl) (fun _ _ H => H) legacy "w" legacy_message Hw E).
Defined.
End PayloadDemo.
