(* ===== verification/ActivityLog.v ===== *)
(** * The activity log

    LogActivity of internal/handlers/activity.go and what the A2A proxy writes with it
    (a2a_proxy_helpers.go).  The table is the list of its rows by insertion; a row with
    a message id is the only one of its workspace with that id, and a later write of the
    same message updates it. *)

From S2P Require Import Prelude Json Tree A2AQueue AgentCard A2APayload.

Record act := Act {
  a_workspace : string;
  a_type : string;
  a_source : option string;
  a_target : option string;
  a_method : option string;
  a_summary : option string;
  a_request : option json;         (* [Some JNull] is a JSON null, [None] an SQL one *)
  a_response : option json;
  a_trace : option json;
  a_duration : option Z;
  a_status : string;
  a_error : option string;
  a_message : option string
}.

(** ActivityParams; a body is nil or bytes. *)
Record activity_params := ActivityParams {
  p_workspace : string;
  p_type : string;
  p_source : option string;
  p_target : option string;
  p_method : option string;
  p_summary : option string;
  p_request : option payload;
  p_response : option payload;
  p_trace : option json;
  p_duration : option Z;
  p_status : string;
  p_message : string;
  p_error : option string
}.

(** [json.Marshal] of a RawMessage that is no JSON fails, and null is written. *)
Definition jsonb_of (body : option payload) : option json := (fun p => default JNull (parsed p)) <$> body.

Definition attach (new old : act) : act :=
  let kept := bool_decide (is_Some (a_response old)) && bool_decide (a_status new = "error") in
  Act (a_workspace old) (a_type old) (a_source old) (a_target old) (a_method old) (a_summary old) (a_request old)
    (coalesce (a_response new) (a_response old))
    (coalesce (a_trace new) (a_trace old))
    (if kept then a_duration old else coalesce (a_duration new) (a_duration old))
    (if kept then a_status old else a_status new)
    (if kept then a_error old else a_error new)
    (a_message old).

Definition same_message (ws : string) (msg : option string) (a : act) : bool :=
  bool_decide (a_workspace a = ws) && bool_decide (a_message a = msg) && bool_decide (is_Some msg).

Definition upsert (new : act) (log : list act) : list act :=
  if existsb (same_message (a_workspace new) (a_message new)) log
  then map (fun a => if same_message (a_workspace new) (a_message new) a then attach new a else a) log
  else log ++ [new].

Section Log.
Context `{UuidCast}.

(** A nullable uuid parameter: [None] when the cast fails. *)
Definition cast_uuid (o : option string) : option (option string) :=
  match o with None => Some None | Some s => Some <$> canon s end.

(** Whether the statement went through. *)
Definition logActivityExec (fails : bool) (p : activity_params) (log : list act) : list act * bool :=
  match fails, canon (p_workspace p), cast_uuid (p_source p), cast_uuid (p_target p) with
  | false, Some ws, Some source, Some target =>
      (upsert (Act ws (p_type p) source target (p_method p) (p_summary p) (jsonb_of (p_request p)) (jsonb_of (p_response p))
                 (p_trace p) (p_duration p) (p_status p) (p_error p) (nullif_empty (p_message p))) log, true)
  | _, _, _, _ => (log, false)
  end.

Definition LogActivity (fails : bool) (p : activity_params) (log : list act) : list act := fst (logActivityExec fails p log).

(** ** What the proxy writes *)

Definition callerIDToSourceID (callerID : string) : option string :=
  if bool_decide (callerID = "") || isSystemCaller callerID then None else Some callerID.
Definition isChatHistoryVisible (callerID : string) : bool := bool_decide (callerIDToSourceID callerID = None).

(** [name]: what the SELECT of the name gave, empty for none; [message]: the error. *)
Definition ws_label (ws name : string) : string := if decide (name = "") then ws else name.

Definition receive (ws callerID summary : string) (body : payload) (resp : option payload) (trace : option json)
    (duration : option Z) (meth status : string) (msg : string) (err : option string) : activity_params :=
  ActivityParams ws "a2a_receive" (callerIDToSourceID callerID) (Some ws) (Some meth) (Some summary)
    (Some body) resp trace duration status msg err.

Definition failure_params (ws callerID name : string) (body : payload) (meth err : string) (duration : Z) : activity_params :=
  receive ws callerID ("A2A request to " +:+ ws_label ws name +:+ " failed: " +:+ err) body None None (Some duration) meth "error"
    (extractMessageIdFromA2ABody body) (Some err).

(** The text between method and name is an arrow. *)
Context (arrow : string).

Definition busy_params (ws callerID name : string) (body : payload) (meth : string) (duration : Z) : activity_params :=
  receive ws callerID (meth +:+ arrow +:+ ws_label ws name +:+ " (queued: target busy)") body None None (Some duration) meth "ok" "" None.

Definition success_params (ws callerID name : string) (body resp : payload) (trace : option json) (meth : string)
    (status duration : Z) : activity_params :=
  receive ws callerID (meth +:+ arrow +:+ ws_label ws name) body (Some resp) trace (Some duration) meth
    (if 400 <=? status then "error" else "ok") (extractMessageIdFromA2ABody body) None.

Definition poll_params (ws callerID name : string) (body : payload) (meth : string) : activity_params :=
  receive ws callerID (meth +:+ arrow +:+ ws_label ws name +:+ " (queued for poll)") body None None None meth "ok"
    (extractMessageIdFromA2ABody body) None.

Definition ingest_params (ws callerID name : string) (body : payload) (meth : string) : activity_params :=
  receive ws callerID (meth +:+ arrow +:+ ws_label ws name +:+ " (ingest)") body None None None meth "ok"
    (extractMessageIdFromA2ABody body) None.

(** persistUserMessageAtIngest: the log, and whether the message is announced to the
    other devices. *)
Definition persistUserMessageAtIngest (fails : bool) (ws callerID name : string) (body : payload) (meth : string) (log : list act)
    : list act * bool :=
  if decide (extractMessageIdFromA2ABody body = "") then (log, false)
  else let '(log', ok) := logActivityExec fails (ingest_params ws callerID name body meth) log in
       (log', ok && isChatHistoryVisible callerID).

(** ** The table over time *)

(** One row per message. *)
Definition one_row_each (log : list act) : Prop :=
  forall i j a b, log !! i = Some a -> log !! j = Some b ->
    a_workspace a = a_workspace b -> a_message a = a_message b -> is_Some (a_message a) -> i = j.

Lemma same_message_true ws msg a :
  same_message ws msg a = true <-> a_workspace a = ws /\ a_message a = msg /\ is_Some msg.
Proof. unfold same_message. rewrite !andb_true_iff, !bool_decide_eq_true. tauto. Qed.

Lemma attach_key new old : a_workspace (attach new old) = a_workspace old /\ a_message (attach new old) = a_message old.
Proof. done. Qed.

Lemma upsert_lookup new log i a :
  upsert new log !! i = Some a ->
  (exists old, log !! i = Some old /\
     a = if same_message (a_workspace new) (a_message new) old then attach new old else old) \/
  (i = length log /\ a = new /\ forall old, old ∈ log -> same_message (a_workspace new) (a_message new) old = false).
Proof.
  unfold upsert. destruct (existsb _ _) eqn:E.
  - rewrite list_lookup_fmap. destruct (log !! i) as [old|]; [|done]. intros [= <-]. left. eauto.
  - rewrite lookup_app. destruct (log !! i) as [old|] eqn:Ei.
    + intros [= <-]. left. exists old. split; [done|]. destruct (same_message _ _ old) eqn:Em; [|done].
      assert (existsb (same_message (a_workspace new) (a_message new)) log = true); [|congruence].
      apply existsb_exists. exists old. split; [|done]. apply list_elem_of_In. by eapply list_elem_of_lookup_2.
    + apply lookup_ge_None in Ei. intros Hl. right. destruct (i - length log)%nat eqn:En; [|done]. injection Hl as <-.
      split_and!; [lia|done|]. intros old Hold. destruct (same_message _ _ old) eqn:Em; [|done].
      assert (existsb (same_message (a_workspace new) (a_message new)) log = true); [|congruence].
      apply existsb_exists. exists old. split; [by apply list_elem_of_In|done].
Qed.

(** The row keeps its key. *)
Lemma upsert_key new log i a old :
  upsert new log !! i = Some a -> log !! i = Some old -> a_workspace a = a_workspace old /\ a_message a = a_message old.
Proof.
  intros [(old' & Ho & ->)|(-> & _)]%upsert_lookup Hi; [|by rewrite lookup_ge_None_2 in Hi by lia].
  simplify_eq. by destruct (same_message _ _ _).
Qed.

Lemma upsert_one_row new log : one_row_each log -> one_row_each (upsert new log).
Proof.
  intros Hu i j a b Hi Hj Hw Hm Hs.
  destruct (upsert_lookup _ _ _ _ Hi) as [(a0 & Ha0 & Ea)|(Ei & Ea & Hna)]; destruct (upsert_lookup _ _ _ _ Hj) as [(b0 & Hb0 & Eb)|(Ej & Eb & Hnb)].
  - destruct (upsert_key _ _ _ _ _ Hi Ha0) as [H1 H2]. destruct (upsert_key _ _ _ _ _ Hj Hb0) as [H3 H4].
    apply (Hu i j a0 b0); congruence.
  - destruct (upsert_key _ _ _ _ _ Hi Ha0) as [H1 H2]. subst b.
    assert (same_message (a_workspace new) (a_message new) a0 = false) by (apply Hnb; by eapply list_elem_of_lookup_2).
    assert (same_message (a_workspace new) (a_message new) a0 = true); [|congruence]. apply same_message_true. split_and!; congruence.
  - destruct (upsert_key _ _ _ _ _ Hj Hb0) as [H1 H2]. subst a.
    assert (same_message (a_workspace new) (a_message new) b0 = false) by (apply Hna; by eapply list_elem_of_lookup_2).
    assert (same_message (a_workspace new) (a_message new) b0 = true); [|congruence]. apply same_message_true. split_and!; congruence.
  - lia.
Qed.

(** What a row keeps once it has a reply. *)
Definition keeps (old new : act) : Prop :=
  a_request new = a_request old /\ a_source new = a_source old /\ a_method new = a_method old /\
  (is_Some (a_response old) -> is_Some (a_response new)).

Lemma attach_keeps new old : keeps old (attach new old).
Proof. split_and!; try done. intros [r Hr]. cbn. rewrite Hr. destruct (a_response new); cbn; eauto. Qed.

Lemma upsert_keeps new log i old :
  log !! i = Some old -> exists a, upsert new log !! i = Some a /\ keeps old a.
Proof.
  intros Hi. destruct (upsert new log !! i) as [a|] eqn:E.
  - exists a. split; [done|]. apply upsert_lookup in E as [(o & Ho & ->)|(-> & _)]; [|by rewrite lookup_ge_None_2 in Hi by lia].
    simplify_eq. destruct (same_message _ _ _); [apply attach_keeps|]. by split_and!.
  - exfalso. apply lookup_ge_None in E. apply lookup_lt_Some in Hi. unfold upsert in E. destruct (existsb _ _).
    + rewrite length_map in E. lia.
    + rewrite length_app in E. cbn in E. lia.
Qed.

Definition history (ps : list (bool * activity_params)) : list act := foldl (fun log fp => LogActivity fp.1 fp.2 log) [] ps.

Lemma LogActivity_cases fails p log :
  LogActivity fails p log = log \/ exists new, LogActivity fails p log = upsert new log /\
    a_status new = p_status p /\ a_response new = jsonb_of (p_response p) /\ a_error new = p_error p.
Proof.
  unfold LogActivity, logActivityExec. destruct fails; [by left|]. destruct (canon (p_workspace p)) as [ws|]; [|by left].
  destruct (cast_uuid (p_source p)) as [s|]; [|by left]. destruct (cast_uuid (p_target p)) as [t|]; [|by left].
  right. eexists. split; [reflexivity|done].
Qed.

(** a message has one row, whoever writes it and how often: over any sequence of
    writes, failed ones included, two rows never share a workspace and a message id. *)
Theorem message_has_one_row ps : one_row_each (history ps).
Proof.
  unfold history. induction ps as [|[f p] ps IH] using rev_ind; [done|]. rewrite foldl_app. cbn.
  destruct (LogActivity_cases f p (foldl (fun log fp => LogActivity fp.1 fp.2 log) [] ps)) as [-> | (new & -> & _)]; [done|].
  by apply upsert_one_row.
Qed.

(** what a row holds of the question never changes, and once it holds a reply it
    always holds one; and a failure reported after the reply changes neither the
    status, nor the error, nor the reply. *)
Theorem reply_survives ps fails p i old (Hrow : history ps !! i = Some old) :
  exists new, LogActivity fails p (history ps) !! i = Some new /\ keeps old new /\
    (is_Some (a_response old) -> p_status p = "error" -> p_response p = None ->
     a_status new = a_status old /\ a_error new = a_error old /\ a_response new = a_response old).
Proof.
  destruct (LogActivity_cases fails p (history ps)) as [-> | (n & -> & Hs & Hr & He)].
  { exists old. split; [done|]. by split_and!. }
  destruct (upsert_keeps n _ i old Hrow) as (a & Ha & Hk). exists a. split; [done|]. split; [done|].
  intros Hold Hst Hno. destruct (upsert_lookup _ _ _ _ Ha) as [(o & Ho & ->)|(-> & _)]; [|by rewrite lookup_ge_None_2 in Hrow by lia].
  simplify_eq. destruct (same_message _ _ _); [|done]. cbn. rewrite Hs, Hst, (bool_decide_eq_true_2 (is_Some _)) by done.
  cbn. rewrite Hr. unfold jsonb_of. by rewrite Hno.
Qed.
End Log.

(** ** Concrete writes *)

Module LogDemo.
#[local] Existing Instance plain_cast.
Definition msg : payload :=
  Payload "" (Some (JObj [("params", JObj [("message", JObj [("messageId", JStr "m1")])])])).
Definition reply : payload := Payload "" (Some (JObj [("result", JStr "done")])).
Definition broken : payload := Payload "{" None.
Definition ingested : bool * activity_params := (false, ingest_params " > " "w" "" "" msg "message/send").
Definition answered : bool * activity_params := (false, success_params " > " "w" "" "" msg reply None "message/send" 200 7).

Example ingest_and_answer_are_one_row :
  match history [ingested; answered] with [a] => a_response a = parsed reply /\ a_status a = "ok" | _ => False end.
Proof. vm_compute. auto. Qed.

(** A queued turn has two rows: the one of its receipt and one without the id. *)
Example busy_turn_has_two_rows :
  length (history [ingested; (false, busy_params " > " "w" "" "" msg "message/send" 3)]) = 2%nat.
Proof. vm_compute. reflexivity. Qed.

(** A second answer that is cut off puts null over the reply. *)
Example broken_reply_erases :
  match history [ingested; answered; (false, success_params " > " "w" "" "" msg broken None "message/send" 200 7)] with
  | [a] => a_response a = Some JNull | _ => False end.
Proof. vm_compute. auto. Qed.

(** A turn that ended in an error reads ok again as soon as it is tried again. *)
Example retry_hides_the_error :
  match history [ingested; (false, failure_params "w" "" "" msg "message/send" "refused" 3); ingested] with
  | [a] => a_status a = "ok" /\ a_error a = None | _ => False end.
Proof. vm_compute. auto. Qed.

Definition settled : list act := history [ingested; answered].
Definition settled_row : act := default (Act "" "" None None None None None None None None "" None None) (head settled).

Lemma reply_survives_witness :
  exists new, LogActivity false (failure_params "w" "" "" msg "message/send" "refused" 3) settled !! 0%nat = Some new /\
    a_response new = a_response settled_row.
Proof.
  assert (E : settled !! 0%nat = Some settled_row) by (vm_compute; reflexivity).
  assert (Hs : is_Some (a_response settled_row)) by (vm_compute; eexists; reflexivity).
  destruct (reply_survives [ingested; answered] false (failure_params "w" "" "" msg "message/send" "refused" 3) 0 settled_row E)
    as (new & Hn & _ & Hk). exists new. split; [exact Hn|]. by apply Hk.
Defined.
End LogDemo.
