(* ===== verification/Proxy.v ===== *)
(** * The A2A proxy

    proxyA2ARequest of internal/handlers/a2a_proxy.go and the helpers it runs, in their
    order: who may send, whether the target can pay, the body, the deferrals, the
    durable record, the queue, the address and the dispatch, and what a failed dispatch
    turns into.  The transport, the name server, the probes of a container and the reads
    of the row are fields of [proxy_env]; every write goes through the state. *)

From S2P Require Import Prelude Json Tree RateLimit Access A2AQueue QueueDrain Restart RestartGuards Budget Ssrf AgentCard A2APayload ActivityLog.

(** ** Failures of the transport

    What errors.Is finds in the chain, and the text. *)
Record transport_error := TransportError {
  te_deadline : bool; te_canceled : bool; te_eof : bool; te_refused : bool; te_msg : string
}.

Definition dropped_text (e : transport_error) : bool :=
  str_contains (te_msg e) "EOF" || str_contains (te_msg e) "connection reset".
Definition isUpstreamBusyError (e : transport_error) : bool :=
  te_deadline e || te_canceled e || te_eof e || dropped_text e.
Definition isAgentConnectionDroppedError (e : transport_error) : bool := te_eof e || dropped_text e.
Definition isAgentRestartingError (e : transport_error) : bool := te_refused e || str_contains (te_msg e) "connection refused".

(** What [Do] and the read of the body gave. *)
Inductive read_result := ReadOk | ReadFailed | ReadTooLarge.
Inductive do_result :=
| DoBuildErr
| DoErr (e : transport_error)
| DoResp (status : Z) (body : payload) (r : read_result).

(** ** Deadlines *)

Definition agentCeiling : time := 30 * Minute.
(** The deadline of a context; [WithoutCancel] drops it. *)
Definition WithoutCancel (ctx : option time) : option time := None.
Definition handler_deadline (xTimeout : string) (now : time) : option time :=
  if decide (xTimeout = "") then None
  else match Atoi xTimeout with Some n => if 0 <? n then Some (now + seconds n) else None | None => None end.
(** The deadline of the request dispatchA2A makes, the idle timer apart. *)
Definition forward_deadline (ctx : option time) (callerID : string) (now : time) : option time :=
  let fwd := WithoutCancel ctx in
  match ctx with
  | Some _ => fwd
  | None => if decide (callerID <> "") then Some (now + agentCeiling) else fwd
  end.

Definition defaultIdleTimeoutDuration : time := 30 * Minute.
Definition parseIdleTimeoutEnv (v : string) : time :=
  if decide (v = "") then defaultIdleTimeoutDuration
  else match Atoi v with
       | Some n => if n <=? 0 then defaultIdleTimeoutDuration else seconds n
       | None => defaultIdleTimeoutDuration
       end.

(** The instant the idle timer fires, armed at [armed], [None] while an event comes in
    time: [events] are those of the workspace, in order. *)
Fixpoint idle_expiry (idle : time) (armed : time) (events : list time) : time :=
  match events with
  | [] => armed + idle
  | t :: rest => if t <? armed + idle then idle_expiry idle t rest else armed + idle
  end.

(** ** The environment of a request *)

Inductive mode_read := ModeRow (mode : option string) | ModeNoRow | ModeContextErr | ModeErr.
Definition lookupDeliveryMode (r : mode_read) : option string :=
  match r with
  | ModeContextErr => None
  | ModeRow (Some m) => Some (if decide (m = "push" \/ m = "poll") then m else "push")
  | _ => Some "push"
  end.

Record proxy_env := ProxyEnv {
  x_now : time;
  x_db : wsdb;                                 (* the tree the access checks read *)
  x_budgets : budget_db; x_budget_fails : bool; x_spend_fails : bool;
  x_can_delegate : option bool;                (* of the caller; [None]: an error *)
  x_kind_status : option (string * string);    (* of the target; [None]: an error or no row *)
  x_mode : mode_read;
  x_boot_turn : bool;                          (* restartContextInFlight *)
  x_runtime : option string;                   (* lookupRuntime *)
  x_cached_url : option string;
  x_row : dbres (option string * string);      (* url and status *)
  x_platform_in_docker : bool;
  x_docker : bool;                             (* the Docker provisioner is wired *)
  x_runtime_row : option string;               (* COALESCE(runtime, ...); [None]: an error *)
  x_ssrf : ssrf_env;
  x_dns : nat -> string -> option (list (Z * string));   (* at each look *)
  x_restarting : bool;                         (* at the pre-flight *)
  x_running : bool + unit;                     (* the pre-flight probe *)
  x_secret : option (string * bool); x_always_auth : bool;
  x_do : do_result;
  x_duration : Z;
  x_dead : dead_env;                           (* maybeMarkContainerDead *)
  x_offline_fails : bool;
  x_wake_fails : bool;                         (* the claim of WakeWorkspace *)
  x_known : wstable;                           (* the rows a queue row may refer to *)
  x_enqueue : nat -> enqueue_faults; x_gen : nat -> string;   (* by place of the enqueue *)
  x_log_fails : nat -> bool; x_name : string   (* by kind of the record *)
}.

(** ** State *)

Inductive pout :=
| Dispatched (url secret : string) (body : payload)
| Announced (message_id content : string) (attachments : list attachment) (notice : bool)   (* USER_MESSAGE *)
| Woken                                        (* WakeWorkspace *)
| CachedURL (url : string)
| KeysCleared
| OfflineAnnounced
| RestartTriggered (reason : string)
| ReplyAnnounced                               (* A2A_RESPONSE *)
| OutboundStamped (caller : string)
| UsageRecorded (input output : Z).

Record pstate := PState {
  ps_queue : queue; ps_log : list act; ps_probe : option deadProbeRecord;
  ps_status : option string;                   (* the status of the row, [None] without one *)
  ps_out : list pout
}.

Definition put_queue (q : queue) (s : pstate) : pstate := PState q (ps_log s) (ps_probe s) (ps_status s) (ps_out s).
Definition put_log (l : list act) (s : pstate) : pstate := PState (ps_queue s) l (ps_probe s) (ps_status s) (ps_out s).
Definition put_probe (r : option deadProbeRecord) (s : pstate) : pstate := PState (ps_queue s) (ps_log s) r (ps_status s) (ps_out s).
Definition put_status (st : option string) (s : pstate) : pstate := PState (ps_queue s) (ps_log s) (ps_probe s) st (ps_out s).
Definition out (o : pout) (s : pstate) : pstate := PState (ps_queue s) (ps_log s) (ps_probe s) (ps_status s) (ps_out s ++ [o]).

(** What comes back: a status with a body, or a proxyA2AError, with the status and the
    bytes that came with it. *)
Inductive reply := Bytes (b : payload) | QueuedBusy (id : string) (depth : Z) | QueuedBoot (id : string) (depth : Z) | QueuedForPoll.
Inductive answer := Reply (status : Z) (b : reply) | Failed (status : Z) (b : option payload) (e : proxyA2AError).

Definition refuse (status : Z) (msg : string) : answer := Failed 0 None (ProxyA2AError status (Some msg) "").

Section Proxy.
Context `{UuidCast}.
Context (in_range : Z -> positive -> bool) (float64 : Z -> positive -> Z * positive) (render : json -> string).
(** Scheme and hostname of a URL and whether it carries a user; [None] when it does not
    parse. *)
Context (url_parse : string -> option (string * string)) (url_user : string -> bool).
(** The reply of a mock workspace: its number among the canned ones, and the text of a
    JSON number. *)
Context (sha1_u32 : string -> Z) (number_text : Z -> positive -> string) (uuid : string).
Context (arrow : string).
(** molecontracts.IsSelfSourceType. *)
Context (IsSelfSourceType : string -> bool).
(** The call: its environment, the target, the caller, whether to record it, and whether
    a canvas user made it. *)
Context (x : proxy_env) (workspaceID callerID : string) (logActivity isCanvasUser : bool).

Definition peer : bool :=
  negb (bool_decide (callerID = "")) && negb (bool_decide (callerID = workspaceID)) && negb (isSystemCaller callerID) && negb isCanvasUser.
Definition from_canvas : bool := bool_decide (callerID = "") || isCanvasUser.

(** ** Records *)

Definition record_failure (meth : string) (body : payload) (err : string) (s : pstate) : pstate :=
  if logActivity
  then put_log (LogActivity (x_log_fails x 3) (failure_params workspaceID callerID (x_name x) body meth err (x_duration x)) (ps_log s)) s
  else s.
Definition record_busy (meth : string) (body : payload) (duration : Z) (s : pstate) : pstate :=
  if logActivity
  then put_log (LogActivity (x_log_fails x 2) (busy_params arrow workspaceID callerID (x_name x) body meth duration) (ps_log s)) s
  else s.
Definition record_success (meth : string) (body resp : payload) (status duration : Z) (s : pstate) : pstate :=
  let s := if negb (bool_decide (callerID = "")) && negb (isSystemCaller callerID) && (status <? 400)
           then out (OutboundStamped callerID) s else s in
  let s := put_log (LogActivity (x_log_fails x 4)
                      (success_params arrow workspaceID callerID (x_name x) body resp (extractToolTrace resp) meth status duration) (ps_log s)) s in
  if from_canvas && (status <? 400) then out ReplyAnnounced s else s.

(** ** The queue *)

(** [k]: where the enqueue stands. *)
Definition enqueue (k : nat) (meth : string) (body : payload) (key : string) (expires : option time) (s : pstate)
    : pstate * option (string * Z) :=
  let '(q, r) := EnqueueA2A (x_enqueue x k) (x_gen x k) (x_known x) (ps_queue s) (x_now x) workspaceID callerID PriorityTask
                   body meth key expires in
  (put_queue q s, r).

Definition expiry_of (body : payload) : option time :=
  let secs := extractExpiresInSeconds body in if 0 <? secs then Some (x_now x + seconds secs) else None.

Definition enqueueBusyA2A (k : nat) (meth : string) (body : payload) (duration : Z) (s : pstate) : pstate * option answer :=
  let '(s, r) := enqueue k meth body (extractIdempotencyKey body) (expiry_of body) s in
  match r with
  | Some (id, depth) => (record_busy meth body duration s, Some (Reply 202 (QueuedBusy id depth)))
  | None => (s, None)
  end.

(** ** A container found dead *)

Definition dormant : list string := ["removed"; "provisioning"; "paused"; "hibernated"].
Definition mark_offline (s : pstate) : pstate :=
  if x_offline_fails x then s
  else match ps_status s with
       | Some st => if bool_decide (st ∈ dormant) then s else put_status (Some "offline") s
       | None => s
       end.
Definition declare_dead (reason : string) (s : pstate) : pstate :=
  out (RestartTriggered reason) (out OfflineAnnounced (out KeysCleared (mark_offline s))).

(** Whether it is dead, or an answer to give right away. *)
Definition probe_dead (meth : string) (body : payload) (s : pstate) : pstate * (bool * option answer) :=
  let '(v, rec) := maybeMarkContainerDead (x_dead x) (ps_probe s) in
  let s := put_probe rec s in
  match v with
  | DeclaredDead => (declare_dead "a2a-dead-container" s, (true, None))
  | Enqueued => let '(s, r) := enqueueBusyA2A 2 meth body (x_duration x) s in (s, (false, r))
  | _ => (s, (false, None))
  end.

Definition containerLivenessIsVerifiable : bool :=
  de_has_provisioner (x_dead x) &&
  match x_runtime_row x with Some r => negb (isExternalLikeRuntime r) | None => false end.

Definition busyRetryAfterSeconds : Z := 30.

Definition handleA2ADispatchError (meth : string) (body : payload) (err : option transport_error) (s : pstate) : pstate * answer :=
  match err with
  | None => (s, refuse 500 "failed to create proxy request")
  | Some e =>
      match probe_dead meth body s with
      | (s, (_, Some a)) => (s, a)
      | (s, (true, None)) =>
          (record_failure meth body (te_msg e) s,
           Failed 0 None (ProxyA2AError 503 (Some "workspace agent unreachable — container restart triggered") "upstream_dead"))
      | (s, (false, None)) =>
          let restarting := (isAgentRestartingError e || isAgentConnectionDroppedError e) && containerLivenessIsVerifiable in
          if isUpstreamBusyError e || restarting then
            if restarting then
              (record_failure meth body (te_msg e) s,
               Failed 0 None (ProxyA2AError 503 (Some "workspace agent restarting — retry after a short backoff") classWorkspaceSettling))
            else match enqueueBusyA2A 3 meth body (x_duration x) s with
                 | (s, Some a) => (s, a)
                 | (s, None) =>
                     (record_failure meth body (te_msg e) s,
                      Failed 0 None (ProxyA2AError 503 (Some "workspace agent busy — retry after a short backoff") "busy_retryable"))
                 end
          else (record_failure meth body (te_msg e) s, refuse 502 "failed to reach workspace agent")
      end
  end.

(** ** The address *)

Definition isLoopbackHTTPURL (url : string) : bool :=
  match url_parse url with
  | Some (scheme, host) =>
      bool_decide (scheme = "http") && negb (url_user url) &&
      (bool_decide (str_lower host = "localhost") || match ParseIP host with Some a => IsLoopback a | None => false end)
  | None => false
  end.

Definition InternalURL : string := "http://" +:+ containerNameForWorkspace workspaceID +:+ ":8000".

(** [None]: the runtime could not be read. *)
Definition rewriteForDocker (url : string) : option string :=
  if negb (x_platform_in_docker x) || negb (x_docker x) || negb (isLoopbackHTTPURL url) then Some url
  else match x_runtime_row x with
       | None => None
       | Some r => Some (if isExternalLikeRuntime r then url else InternalURL)
       end.

(** isDNSResolutionError of what isSafeURL returned: the name did not resolve. *)
Definition dns_failed (k : nat) (url : string) : bool :=
  match url_parse url with
  | Some (scheme, host) =>
      (bool_decide (scheme = "http") || bool_decide (scheme = "https")) && negb (bool_decide (host = "")) &&
      bool_decide (ParseIP host = None) && bool_decide (lookup_host (x_dns x k) host = None)
  | None => false
  end.
Definition safe_at (k : nat) (url : string) : bool := isSafeURL url_parse (x_ssrf x) (x_dns x k) url.

Definition dockerDNSSettleAttempts : nat := 5.
(** Looks [k], [k + 1] and so on. *)
Fixpoint settle_loop (left k : nat) (url : string) : bool :=
  match left with
  | O => false
  | S left' => if safe_at k url then true else if negb (dns_failed k url) then false else settle_loop left' (S k) url
  end.
Definition settleDockerInternalDNS (url : string) : bool := settle_loop dockerDNSSettleAttempts 1 url.

Definition url_is_safe (url : string) : bool :=
  safe_at 0 url ||
  (devModeAllowsLoopback (x_ssrf x) && x_platform_in_docker x && bool_decide (url = InternalURL) && dns_failed 0 url &&
   settleDockerInternalDNS url).

Definition isRecoverableSettlingStatus (status : string) : bool := bool_decide (status ∈ ["provisioning"; "awaiting_agent"]).

(** WakeWorkspace up to its claim, which is all it does to the status; it runs by
    itself, and the request writes no status after it. *)
Definition wake (s : pstate) : pstate :=
  let s := out Woken s in
  if negb (de_has_provisioner (x_dead x)) || x_wake_fails x then s
  else if decide (ps_status s = Some "hibernated") then put_status (Some "provisioning") s else s.

(** The stored address, or the failure. *)
Definition stored_url (s : pstate) : pstate * (string + proxyA2AError) :=
  match x_cached_url x with
  | Some url => (s, inl url)
  | None =>
      match x_row x with
      | DbNoRows => (s, inr (ProxyA2AError 404 (Some "workspace not found") ""))
      | DbErr => (s, inr (ProxyA2AError 500 (Some "lookup failed") ""))
      | DbOk (url, status) =>
          match url ≫= nullif_empty with
          | Some url => (out (CachedURL url) s, inl url)
          | None =>
              if decide (status = "hibernated")
              then (wake s, inr (ProxyA2AError 503 (Some "workspace is waking from hibernation — retry in ~15 seconds") ""))
              else (s, inr (ProxyA2AError 503 (Some "workspace has no URL")
                              (if isRecoverableSettlingStatus status then classWorkspaceSettling else "")))
          end
      end
  end.

Definition resolveAgentURL (s : pstate) : pstate * (string + proxyA2AError) :=
  match stored_url s with
  | (s, inr e) => (s, inr e)
  | (s, inl url) =>
      match rewriteForDocker url with
      | None => (s, inr (ProxyA2AError 500 (Some "failed to resolve workspace route") ""))
      | Some url => if url_is_safe url then (s, inl url)
                    else (s, inr (ProxyA2AError 502 (Some "workspace URL is not publicly routable") ""))
      end
  end.

Definition preflightContainerHealth (s : pstate) : pstate * option answer :=
  if x_restarting x then (s, None)
  else match x_running x with
       | inr _ | inl true => (s, None)
       | inl false =>
           (declare_dead "a2a-preflight" s,
            Some (Failed 0 None (ProxyA2AError 503 (Some "workspace container not running — restart triggered") "upstream_dead")))
       end.

(** ** Mock workspaces *)

Definition mockReplyVariants : list string :=
  ["On it!"; "Got it, on it now."; "On it, boss."; "Working on it."; "Acknowledged — on it."; "On it, will report back.";
   "Roger that, on it."; "Copy that. On it."; "On it — ETA shortly."; "On it. Standby for update."].
Definition pickMockReply (ws requestID : string) : string :=
  if decide (ws = "" /\ requestID = "") then "On it!"
  else default "On it!" (mockReplyVariants !! Z.to_nat (sha1_u32 (ws +:+ ":" +:+ requestID) mod 10)).

Definition extractRequestID (body : payload) : string :=
  match parsed body with
  | Some (JObj l) => match to_members l !! "id" with
                     | Some (JStr s) => s
                     | Some (JNum n d) => number_text n d
                     | _ => ""
                     end
  | _ => ""
  end.

Definition mock_part (text : string) : json := JObj [("kind", JStr "text"); ("text", JStr text)].
Definition buildMockA2AResponse (requestID text : string) : payload :=
  let id := if decide (requestID = "") then uuid else requestID in
  let doc := JObj [("id", JStr id); ("jsonrpc", JStr "2.0"); ("result", JObj [("parts", JArr [mock_part text])])] in
  Payload (render doc) (Some doc).

Definition handleMockA2A (meth : string) (body : payload) (s : pstate) : pstate * option answer :=
  if decide (default "" (x_runtime x) = "mock") then
    let id := extractRequestID body in
    let resp := buildMockA2AResponse id (pickMockReply workspaceID id) in
    (if logActivity then record_success meth body resp 200 0 s else s, Some (Reply 200 (Bytes resp)))
  else (s, None).

(** ** The reply of the agent *)

Definition agent_error (resp : payload) (status : Z) : string :=
  let msg := match parsed resp with
             | Some j => match raw_members j with
                         | Some top => match top !! "error" with Some (JStr e) => e | _ => "" end
                         | None => ""
                         end
             | None => ""
             end in
  if decide (msg = "") then StatusText status else msg.

Definition record_usage (resp : payload) (s : pstate) : pstate :=
  let '(i, o) := parseUsageFromA2AResponse resp in if (0 <? i) || (0 <? o) then out (UsageRecorded i o) s else s.

Definition settle_response (meth : string) (body : payload) (status : Z) (resp : payload) (r : read_result) (s : pstate)
    : pstate * answer :=
  let nonempty := negb (bool_decide (raw resp = "")) in
  match r with
  | ReadFailed | ReadTooLarge =>
      let confirmed := (200 <=? status) && (status <? 400) in
      let s := if logActivity && confirmed then record_success meth body resp status (x_duration x) s else s in
      let msg := match r with ReadTooLarge => "response body exceeds 67108864 byte limit: A2A body exceeds size limit"
                            | _ => "failed to read agent response" end in
      (s, Failed status (Some resp) (ProxyA2AError (if 300 <=? status then status else 502) (Some msg)
                                       (classificationFromDeliveryConfirmed status nonempty)))
  | ReadOk =>
      if (200 <=? status) && (status <? 300) && negb nonempty
      then (s, Failed status (Some resp) (ProxyA2AError status (Some "agent returned empty response body") ""))
      else
        let s := if logActivity then record_success meth body resp status (x_duration x) s else s in
        let s := record_usage resp s in
        if 300 <=? status then
          let plain := Failed status (Some resp) (ProxyA2AError status (Some (agent_error resp status)) "") in
          if isUpstreamDeadStatus status then
            match probe_dead meth body s with
            | (s, (_, Some a)) => (s, a)
            | (s, (true, None)) =>
                (s, Failed 0 None (ProxyA2AError 503 (Some "workspace agent unreachable — container restart triggered") "upstream_dead"))
            | (s, (false, None)) => (s, plain)
            end
          else (s, plain)
        else (s, Reply status (Bytes resp))
  end.

(** dispatchA2A and what follows; it looks at the address once more. *)
Definition dispatch (meth url secret : string) (body : payload) (s : pstate) : pstate * answer :=
  if negb (safe_at (S dockerDNSSettleAttempts) url) then handleA2ADispatchError meth body None s
  else
    match x_do x with
    | DoBuildErr => handleA2ADispatchError meth body None s
    | DoErr e => handleA2ADispatchError meth body (Some e) (out (Dispatched url secret body) s)
    | DoResp status resp r => settle_response meth body status resp r (out (Dispatched url secret body) s)
    end.

(** ** The request *)

Definition access_check : option answer :=
  if negb peer then None
  else if negb (CanCommunicate (x_db x) callerID workspaceID)
  then Some (refuse 403 "access denied: workspaces cannot communicate per hierarchy rules")
  else match sameOrg (x_db x) callerID workspaceID with
       | DbOk true => None
       | DbOk false => Some (refuse 403 "access denied: target workspace is in a different org")
       | _ => Some (refuse 403 "access denied: org isolation check failed")
       end.

Definition budget_check : option answer :=
  match checkWorkspaceBudget (x_budget_fails x) (x_spend_fails x) (x_now x) workspaceID (x_budgets x) with
  | Some _ => Some (refuse 402 "workspace budget limit exceeded")
  | None => None
  end.

Definition delegation_check (meth : string) : option answer :=
  if peer && bool_decide (meth = "message/send") && bool_decide (x_can_delegate x = Some false)
  then Some (refuse 403 "tool call failed") else None.

Definition conciergeWarmingGate : option answer :=
  if decide (x_kind_status x = Some ("platform", "provisioning"))
  then Some (refuse 503 "concierge is warming up (verifying management tools) — retry shortly") else None.
Definition warming_check : option answer :=
  if isSystemCaller callerID || bool_decide (callerID = workspaceID) then None else conciergeWarmingGate.

(** The checks that come before anything is written. *)
Definition gates (body : payload) : payload * string + answer :=
  match access_check with
  | Some a => inr a
  | None =>
      match budget_check with
      | Some a => inr a
      | None =>
          match normalizeA2APayload in_range float64 render (x_gen x 10) (x_gen x 11) body with
          | inr code => inr (refuse code "invalid JSON")
          | inl (body, meth) =>
              let body := if bool_decide (meth = "message/send") && from_canvas
                          then fst (ensureCanvasSessionContextID in_range float64 render body workspaceID) else body in
              match delegation_check meth with
              | Some a => inr a
              | None => match warming_check with Some a => inr a | None => inl (body, meth) end
              end
          end
      end
  end.

Definition ingest (meth : string) (body : payload) (s : pstate) : pstate :=
  if bool_decide (meth = "message/send") && negb (isSystemCaller callerID) then
    let '(l, announced) := persistUserMessageAtIngest arrow (x_log_fails x 0) workspaceID callerID (x_name x) body meth (ps_log s) in
    let '(text, atts) := extractUserTextAndAttachments in_range float64 body in
    let s := put_log l s in
    if announced && (negb (bool_decide (text = "")) || negb (bool_decide (atts = [])))
    then out (Announced (extractMessageIdFromA2ABody body) text atts (IsSelfSourceType (RequestSourceType body))) s else s
  else s.

Definition deliver (meth : string) (body : payload) (s : pstate) : pstate * answer :=
  match handleMockA2A meth body s with
  | (s, Some a) => (s, a)
  | (s, None) =>
      match resolveAgentURL s with
      | (s, inr e) =>
          if decide (pe_classification e = classWorkspaceSettling) then
            match enqueueBusyA2A 1 meth body 0 s with
            | (s, Some a) => (s, a)
            | (s, None) => (s, Failed 0 None e)
            end
          else (s, Failed 0 None e)
      | (s, inl url) =>
          let managed := x_docker x && x_platform_in_docker x && has_prefix url ("http://" +:+ containerNameForWorkspace workspaceID +:+ ":") in
          match (if managed then preflightContainerHealth s else (s, None)) with
          | (s, Some a) => (s, a)
          | (s, None) =>
              match resolveA2AInboundSecret url_parse (x_ssrf x) workspaceID url (x_secret x) (x_always_auth x) with
              | inr code => (s, refuse code "workspace not enrolled in inbound auth or re-registering")
              | inl secret => dispatch meth url secret body s
              end
          end
      end
  end.

Definition route (meth : string) (body : payload) (s : pstate) : pstate * answer :=
  match lookupDeliveryMode (x_mode x) with
  | None => (s, refuse 503 "delivery-mode lookup failed; refusing to dispatch to avoid silent misrouting")
  | Some mode =>
      if decide (mode = "poll") then
        (if logActivity
         then put_log (LogActivity (x_log_fails x 1) (poll_params arrow workspaceID callerID (x_name x) body meth) (ps_log s)) s
         else s, Reply 200 QueuedForPoll)
      else if bool_decide (meth = "message/send") && x_boot_turn x && negb (isSystemCaller callerID) then
        match enqueue 0 meth body "" None s with
        | (s, Some (id, depth)) => (s, Reply 200 (QueuedBoot id depth))
        | (s, None) => deliver meth body s
        end
      else deliver meth body s
  end.

Definition proxyA2ARequest (body : payload) (s : pstate) : pstate * answer :=
  match gates body with
  | inr a => (s, a)
  | inl (body, meth) => route meth body (ingest meth body s)
  end.

(** ** The handler *)

Definition maxProxyRequestBody : Z := 16 * 2 ^ 20.

(** [body]: what was read, [None] for a read error. *)
Inductive http_answer := HttpReply (a : answer) | HttpQueuedAsync | HttpError (code : Z) | HttpPanic.

(** The environment of the handler: the identity of the human, whether the asynchronous
    path is off, the budget, and whether the turn outlives it. *)
Definition ProxyA2A (identity : canvasIdentity) (async_off : bool) (budget : time) (outlives : bool) (body : payload)
    (s : pstate) : pstate * http_answer :=
  let body := if isCanvasUser then injectCanvasUserIdentity in_range float64 render body identity else Injected body in
  match body with
  | InjectErr => (s, HttpError 400)
  | InjectPanic => (s, HttpPanic)
  | Injected body =>
      let '(s, a) := proxyA2ARequest body s in
      if negb async_off && (0 <? budget) && from_canvas && outlives then (s, HttpQueuedAsync) else (s, HttpReply a)
  end.
End Proxy.
