(* ===== verification/ProxySafety.v ===== *)
(** * What the proxy lets through, and what becomes of a turn

    Every write of one request, who may cause it, which addresses are dialled, and where
    an accepted turn is to be found afterwards. *)

From S2P Require Import Prelude Json Tree RateLimit Access A2AQueue QueueSafety QueueDrain Restart RestartGuards Budget Ssrf AgentCard A2APayload ActivityLog Proxy.

(** ** The dispatches and the restarts of a request *)

Definition dispatch_of (o : pout) : option (string * string * payload) :=
  match o with Dispatched url secret body => Some (url, secret, body) | _ => None end.
Definition dispatches (s : pstate) : list (string * string * payload) := omap dispatch_of (ps_out s).

Definition taken_down (s s' : pstate) : Prop :=
  ps_status s' = Some "offline" /\ (exists st, ps_status s = Some st /\ st ∉ dormant) /\ (exists r, RestartTriggered r ∈ ps_out s').

Definition woken_up (s s' : pstate) : Prop :=
  ps_status s = Some "hibernated" /\ ps_status s' = Some "provisioning" /\ Woken ∈ ps_out s'.

(** From [s] to [s']: the dispatches [ds] are made, nothing announced is taken back, and
    the row changes only for a restart, never out of a dormant status, or for a wake. *)
Record evolves (ds : list (string * string * payload)) (s s' : pstate) : Prop := Evolves {
  ev_dispatch : dispatches s' = dispatches s ++ ds;
  ev_status : ps_status s' = ps_status s \/ taken_down s s' \/ woken_up s s';
  ev_out : forall o, o ∈ ps_out s -> o ∈ ps_out s'
}.

Lemma evolves_nothing s : evolves [] s s.
Proof. split; [by rewrite app_nil_r | by left | done]. Qed.

Lemma evolves_trans ds1 ds2 s1 s2 s3 : evolves ds1 s1 s2 -> evolves ds2 s2 s3 -> evolves (ds1 ++ ds2) s1 s3.
Proof.
  intros [D1 S1 O1] [D2 S2 O2]. split.
  - by rewrite D2, D1, app_assoc.
  - destruct S1 as [E1|[(E1 & Hst & r & Hr)|(E1 & F1 & W1)]], S2 as [E2|[(E2 & (st & Hst2 & Hd) & r2 & Hr2)|(E2 & F2 & W2)]].
    + left. congruence.
    + right; left. split_and!; [done| |eauto]. exists st. by rewrite <- E1.
    + right; right. split_and!; [congruence|done|done].
    + right; left. split_and!; [congruence|done|eauto].
    + right; left. split_and!; [done|done|eauto].
    + congruence.
    + right; right. split_and!; [done|congruence|auto].
    + exfalso. rewrite F1 in Hst2. injection Hst2 as <-. apply Hd. unfold dormant. set_solver.
    + congruence.
  - auto.
Qed.

Lemma evolves_then s1 s2 s3 : evolves [] s1 s2 -> evolves [] s2 s3 -> evolves [] s1 s3.
Proof. exact (evolves_trans [] [] s1 s2 s3). Qed.

Lemma evolves_out o s : evolves (match dispatch_of o with Some d => [d] | None => [] end) s (out o s).
Proof.
  split; [|by left|intros o' Ho; cbn; set_solver].
  unfold dispatches. cbn. rewrite omap_app. cbn. by destruct (dispatch_of o).
Qed.

Lemma evolves_same s s' : ps_out s' = ps_out s -> ps_status s' = ps_status s -> evolves [] s s'.
Proof. intros Ho Hs. split; unfold dispatches; rewrite ?Ho, ?app_nil_r; auto. Qed.

(** ** One enqueue *)

Section EnqueueTurn.
Context `{UuidCast}.



End EnqueueTurn.

Section Evolving.
Context `{UuidCast}.
Context (in_range : Z -> positive -> bool) (float64 : Z -> positive -> Z * positive) (render : json -> string).
Context (url_parse : string -> option (string * string)) (url_user : string -> bool).
Context (sha1_u32 : string -> Z) (number_text : Z -> positive -> string) (uuid : string).
Context (arrow : string) (IsSelfSourceType : string -> bool).
Context (x : proxy_env) (workspaceID callerID : string) (logActivity isCanvasUser : bool).

Abbreviation enqueue := (enqueue x workspaceID callerID).
Abbreviation enqueueBusyA2A := (enqueueBusyA2A arrow x workspaceID callerID logActivity).
Abbreviation probe_dead := (probe_dead arrow x workspaceID callerID logActivity).
Abbreviation handleA2ADispatchError := (handleA2ADispatchError arrow x workspaceID callerID logActivity).
Abbreviation record_failure := (record_failure x workspaceID callerID logActivity).
Abbreviation record_success := (record_success arrow x workspaceID callerID isCanvasUser).
Abbreviation settle_response := (settle_response arrow x workspaceID callerID logActivity isCanvasUser).
Abbreviation handleMockA2A :=
  (handleMockA2A render sha1_u32 number_text uuid arrow x workspaceID callerID logActivity isCanvasUser).
Abbreviation resolveAgentURL := (resolveAgentURL url_parse url_user x workspaceID).
Abbreviation dispatch := (dispatch url_parse arrow x workspaceID callerID logActivity isCanvasUser).
Abbreviation deliver :=
  (deliver render url_parse url_user sha1_u32 number_text uuid arrow x workspaceID callerID logActivity isCanvasUser).
Abbreviation route :=
  (route render url_parse url_user sha1_u32 number_text uuid arrow x workspaceID callerID logActivity isCanvasUser).
Abbreviation proxyA2ARequest :=
  (proxyA2ARequest in_range float64 render url_parse url_user sha1_u32 number_text uuid arrow IsSelfSourceType x workspaceID callerID logActivity isCanvasUser).
Abbreviation safe_at := (safe_at url_parse x).

Lemma record_failure_evolves meth body err s : evolves [] s (record_failure meth body err s).
Proof. unfold Proxy.record_failure. destruct logActivity; by apply evolves_same. Qed.

Lemma out_evolves o s s' : dispatch_of o = None -> evolves [] s s' -> evolves [] s (out o s').
Proof. intros Ho Hs. eapply evolves_then; [exact Hs|]. pose proof (evolves_out o s') as E. by rewrite Ho in E. Qed.

Lemma record_success_evolves meth body resp status duration s : evolves [] s (record_success meth body resp status duration s).
Proof.
  unfold Proxy.record_success.
  assert (Hlog : forall s1 s2 l, evolves [] s1 s2 -> evolves [] s1 (put_log l s2)).
  { intros s1 s2 l Hs. eapply evolves_then; [exact Hs|by apply evolves_same]. }
  destruct (_ && _ && _), (_ && _); repeat first [apply out_evolves; [done|] | apply Hlog | apply evolves_nothing].
Qed.

Lemma enqueue_evolves k meth body key e s : evolves [] s (enqueue k meth body key e s).1.
Proof. unfold Proxy.enqueue. destruct (EnqueueA2A _ _ _ _ _ _ _ _ _ _ _ _). by apply evolves_same. Qed.

Lemma enqueueBusyA2A_evolves k meth body d s : evolves [] s (enqueueBusyA2A k meth body d s).1.
Proof.
  unfold Proxy.enqueueBusyA2A. pose proof (enqueue_evolves k meth body (extractIdempotencyKey body) (expiry_of x body) s) as E.
  destruct (Proxy.enqueue _ _ _ _ _ _ _ _ _) as [s1 [[id n]|]]; [|exact E]. cbn in *.
  eapply evolves_then; [exact E|]. unfold record_busy. destruct logActivity; by apply evolves_same.
Qed.

Lemma mark_offline_status s : ps_status (mark_offline x s) = ps_status s \/
  (ps_status (mark_offline x s) = Some "offline" /\ exists st, ps_status s = Some st /\ st ∉ dormant).
Proof.
  unfold mark_offline. destruct (x_offline_fails x); [by left|]. destruct (ps_status s) as [st|] eqn:E; [|by left].
  case_bool_decide; [by left|]. right. cbn. eauto.
Qed.
Lemma mark_offline_out s : ps_out (mark_offline x s) = ps_out s.
Proof. unfold mark_offline. destruct (x_offline_fails x), (ps_status s); [done..| |done]. by case_bool_decide. Qed.

Lemma declare_dead_evolves r s : evolves [] s (declare_dead x r s).
Proof.
  unfold declare_dead. split.
  - unfold dispatches. cbn. rewrite mark_offline_out, !omap_app. cbn. by rewrite !app_nil_r.
  - cbn. destruct (mark_offline_status s) as [E|[E Hst]]; [by left|]. right; left. split_and!; [done|done|]. exists r. cbn. set_solver.
  - intros o Ho. cbn. rewrite mark_offline_out. set_solver.
Qed.

Lemma probe_dead_evolves meth body s : evolves [] s (probe_dead meth body s).1.
Proof.
  unfold Proxy.probe_dead. destruct (maybeMarkContainerDead _ _) as [v rec].
  assert (Hp : evolves [] s (put_probe rec s)) by (by apply evolves_same).
  destruct v; [exact Hp| |exact Hp|].
  - pose proof (enqueueBusyA2A_evolves 2 meth body (x_duration x) (put_probe rec s)) as E.
    destruct (Proxy.enqueueBusyA2A _ _ _ _ _ _ _ _ _ _). eapply evolves_then; [exact Hp|exact E].
  - eapply evolves_then; [exact Hp|apply declare_dead_evolves].
Qed.

Lemma handleA2ADispatchError_evolves meth body err s : evolves [] s (handleA2ADispatchError meth body err s).1.
Proof.
  unfold Proxy.handleA2ADispatchError. destruct err as [e|]; [|apply evolves_nothing].
  pose proof (probe_dead_evolves meth body s) as P. destruct (Proxy.probe_dead _ _ _ _ _ _ _ _) as [s1 [dead [a|]]]; [by destruct dead|].
  cbn in P. assert (F : forall m, evolves [] s (record_failure meth body m s1)).
  { intros m. eapply evolves_then; [exact P|apply record_failure_evolves]. }
  destruct dead; [apply F|]. destruct (_ || _); [|apply F]. destruct (_ && _); [apply F|].
  pose proof (enqueueBusyA2A_evolves 3 meth body (x_duration x) s1) as Q.
  destruct (Proxy.enqueueBusyA2A _ _ _ _ _ _ _ _ _ _) as [s2 [a|]]; cbn in *; [by eapply evolves_then|].
  eapply evolves_then; [by eapply evolves_then|]. apply record_failure_evolves.
Qed.

Lemma settle_response_evolves meth body status resp r s : evolves [] s (settle_response meth body status resp r s).1.
Proof.
  assert (L : forall b, evolves [] s (if (b : bool) then record_success meth body resp status (x_duration x) s else s)).
  { intros []; [apply record_success_evolves|apply evolves_nothing]. }
  unfold Proxy.settle_response. destruct r; [|apply L..].
  destruct (_ && _ && _); [apply evolves_nothing|].
  assert (U : evolves [] s (record_usage resp (if logActivity then record_success meth body resp status (x_duration x) s else s))).
  { unfold record_usage. destruct (parseUsageFromA2AResponse resp). destruct (_ || _); [apply out_evolves; [done|]|]; apply L. }
  destruct (300 <=? status); [|exact U]. destruct (isUpstreamDeadStatus status); [|exact U].
  match goal with |- context [Proxy.probe_dead _ _ _ _ _ _ _ ?s1] => pose proof (probe_dead_evolves meth body s1) as P end.
  destruct (Proxy.probe_dead _ _ _ _ _ _ _ _) as [s2 [dead [a|]]]; destruct dead; by eapply evolves_then.
Qed.

Lemma handleMockA2A_evolves meth body s : evolves [] s (handleMockA2A meth body s).1.
Proof.
  unfold Proxy.handleMockA2A. case_decide; [|apply evolves_nothing]. cbn. destruct logActivity; [apply record_success_evolves|apply evolves_nothing].
Qed.

Lemma wake_evolves s : evolves [] s (wake x s).
Proof.
  assert (E : evolves [] s (out Woken s)) by (apply out_evolves; [done|apply evolves_nothing]).
  unfold wake. destruct (_ || _); [exact E|]. cbn. case_decide as Hst; [|exact E]. destruct E as [D S O].
  split; [exact D| |exact O]. right; right. split_and!; [done|done|]. cbn. set_solver.
Qed.

Lemma resolveAgentURL_evolves s : evolves [] s (resolveAgentURL s).1.
Proof.
  assert (E : evolves [] s (stored_url x s).1).
  { unfold stored_url. destruct (x_cached_url x); [apply evolves_nothing|].
    destruct (x_row x) as [[url st]| |]; [|apply evolves_nothing..].
    destruct (url ≫= nullif_empty); [apply out_evolves; [done|apply evolves_nothing]|].
    case_decide; cbn; [apply wake_evolves|apply evolves_nothing]. }
  unfold Proxy.resolveAgentURL. destruct (stored_url x s) as [s1 [url|e]]; [|exact E].
  destruct (rewriteForDocker _ _ _ _ _) as [u|]; [|exact E]. by destruct (url_is_safe _ _ _ _).
Qed.

Lemma ingest_evolves meth body s : evolves [] s (ingest in_range float64 arrow IsSelfSourceType x workspaceID callerID meth body s).
Proof.
  unfold ingest. destruct (_ && _); [|apply evolves_nothing].
  destruct (persistUserMessageAtIngest _ _ _ _ _ _ _ _) as [l a]. destruct (extractUserTextAndAttachments _ _ _) as [t atts].
  destruct (_ && _); [apply out_evolves; [done|]|]; by apply evolves_same.
Qed.

(** ** Dispatches *)

Lemma dispatch_evolves meth url secret body s :
  exists ds, evolves ds s (dispatch meth url secret body s).1 /\
    (ds = [] \/ ds = [(url, secret, body)] /\ safe_at (S dockerDNSSettleAttempts) url = true).
Proof.
  unfold Proxy.dispatch. destruct (Proxy.safe_at _ _ _ _) eqn:E; cbn [negb].
  2:{ exists []. split; [apply handleA2ADispatchError_evolves|by left]. }
  pose proof (evolves_out (Dispatched url secret body) s) as D. cbn in D.
  destruct (x_do x) as [|e|st resp r].
  - exists []. split; [apply handleA2ADispatchError_evolves|by left].
  - exists [(url, secret, body)]. split; [|by right].
    eapply (evolves_trans [_] []); [exact D|apply handleA2ADispatchError_evolves].
  - exists [(url, secret, body)]. split; [|by right].
    eapply (evolves_trans [_] []); [exact D|apply settle_response_evolves].
Qed.

Lemma preflight_evolves s : evolves [] s (preflightContainerHealth x s).1.
Proof.
  unfold preflightContainerHealth. destruct (x_restarting x); [apply evolves_nothing|].
  destruct (x_running x) as [[]|]; [apply evolves_nothing|apply declare_dead_evolves|apply evolves_nothing].
Qed.

(** A dispatch of [sent], and what it took. *)
Definition earned (sent : payload) (d : string * string * payload) : Prop :=
  exists url secret, d = (url, secret, sent) /\ lookupDeliveryMode (x_mode x) = Some "push" /\ x_runtime x <> Some "mock" /\
    safe_at (S dockerDNSSettleAttempts) url = true /\
    resolveA2AInboundSecret url_parse (x_ssrf x) workspaceID url (x_secret x) (x_always_auth x) = inl secret.

Lemma deliver_evolves meth body s : lookupDeliveryMode (x_mode x) = Some "push" ->
  exists ds, evolves ds s (deliver meth body s).1 /\ (ds = [] \/ exists d, ds = [d] /\ earned body d).
Proof.
  intros Hmode.
  assert (Hno : forall s', evolves [] s s' -> exists ds, evolves ds s s' /\ (ds = [] \/ exists d, ds = [d] /\ earned body d)).
  { intros s' Hs. exists []. auto. }
  unfold Proxy.deliver. pose proof (handleMockA2A_evolves meth body s) as M.
  destruct (Proxy.handleMockA2A _ _ _ _ _ _ _ _ _ _ _ _ _) as [s1 [a|]] eqn:Emock; [by apply Hno|].
  assert (Hreal : x_runtime x <> Some "mock").
  { unfold Proxy.handleMockA2A in Emock. case_decide as Hm; [done|]. by intros Hr; rewrite Hr in Hm. }
  cbn in M. pose proof (resolveAgentURL_evolves s1) as R.
  destruct (Proxy.resolveAgentURL _ _ _ _ _) as [s2 [url|e]]; cbn in R.
  2:{ apply Hno. case_decide; [|by eapply evolves_then].
      pose proof (enqueueBusyA2A_evolves 1 meth body 0 s2) as Q.
      destruct (Proxy.enqueueBusyA2A _ _ _ _ _ _ _ _ _ _) as [s3 [a|]]; cbn in *; (eapply evolves_then; [exact M|]); by eapply evolves_then. }
  match goal with |- context [if ?c then preflightContainerHealth x s2 else _] =>
    assert (P : evolves [] s (if c then preflightContainerHealth x s2 else (s2, None)).1)
  end.
  { destruct (_ && _ && _); [|by eapply evolves_then].
    eapply evolves_then; [exact M|]. eapply evolves_then; [exact R|apply preflight_evolves]. }
  match type of P with evolves _ _ (?t).1 => destruct t as [s3 [a|]] end; cbn in P; [by apply Hno|].
  destruct (resolveA2AInboundSecret _ _ _ _ _ _) as [secret|code] eqn:Es; [|by apply Hno].
  destruct (dispatch_evolves meth url secret body s3) as (ds & D & Hds).
  exists ds. split; [by apply (evolves_trans [] ds s s3)|].
  destruct Hds as [->|[-> Hsafe]]; [by left|right]. eexists. split; [done|]. exists url, secret. auto.
Qed.

Lemma mode_cases m : lookupDeliveryMode (x_mode x) = Some m -> m = "push" \/ m = "poll".
Proof. unfold lookupDeliveryMode. destruct (x_mode x) as [[md|]| | |]; [|naive_solver..]. case_decide; naive_solver. Qed.

Lemma route_evolves meth body s :
  exists ds, evolves ds s (route meth body s).1 /\ (ds = [] \/ exists d, ds = [d] /\ earned body d).
Proof.
  unfold Proxy.route. destruct (lookupDeliveryMode _) as [m|] eqn:Em; [|exists []; split; [apply evolves_nothing|by left]].
  destruct (mode_cases _ Em) as [->| ->]; cbn.
  - destruct (_ && _); [|by apply deliver_evolves].
    pose proof (enqueue_evolves 0 meth body "" None s) as Q.
    destruct (Proxy.enqueue _ _ _ _ _ _ _ _ _) as [s1 [[id n]|]]; cbn in Q; [exists []; split; [exact Q|by left]|].
    destruct (deliver_evolves meth body s1 Em) as (ds & D & Hds). exists ds. split; [|done]. by apply (evolves_trans [] ds s s1).
  - exists []. split; [|by left]. destruct logActivity; by apply evolves_same.
Qed.

(** ** Where a turn is *)























(** ** The request *)

Abbreviation gates := (gates in_range float64 render x workspaceID callerID isCanvasUser).
Abbreviation peer := (peer workspaceID callerID isCanvasUser).

(** What lets a call through, with the body that is sent on and its method. *)
Record admitted (body sent : payload) (meth : string) : Prop := Admitted_ {
  ad_hierarchy : peer = true -> CanCommunicate (x_db x) callerID workspaceID = true;
  ad_org : peer = true -> sameOrg (x_db x) callerID workspaceID = DbOk true;
  ad_budget : checkWorkspaceBudget (x_budget_fails x) (x_spend_fails x) (x_now x) workspaceID (x_budgets x) = None;
  ad_delegate : peer = true -> meth = "message/send" -> x_can_delegate x <> Some false;
  ad_warm : isSystemCaller callerID = false -> callerID <> workspaceID -> x_kind_status x <> Some ("platform", "provisioning");
  ad_body : exists norm, normalizeA2APayload in_range float64 render (x_gen x 10) (x_gen x 11) body = inl (norm, meth) /\
    sent = (if bool_decide (meth = "message/send") && from_canvas callerID isCanvasUser
            then fst (ensureCanvasSessionContextID in_range float64 render norm workspaceID) else norm)
}.

Lemma gates_admit body sent meth : gates body = inl (sent, meth) -> admitted body sent meth.
Proof.
  unfold Proxy.gates.
  assert (A : access_check x workspaceID callerID isCanvasUser = None -> peer = true ->
    CanCommunicate (x_db x) callerID workspaceID = true /\ sameOrg (x_db x) callerID workspaceID = DbOk true).
  { unfold access_check. intros Ha Hp. rewrite Hp in Ha. cbn in Ha. destruct (CanCommunicate _ _ _); [|done]. cbn in Ha.
    by destruct (sameOrg _ _ _) as [[]| |]. }
  destruct (access_check _ _ _ _); [done|]. specialize (A eq_refl).
  unfold budget_check. destruct (checkWorkspaceBudget _ _ _ _ _) eqn:Eb; [done|].
  destruct (normalizeA2APayload _ _ _ _ _ _) as [[norm m]|code] eqn:En; [|done].
  unfold delegation_check. destruct (Proxy.peer _ _ _ && _ && _) eqn:Ed; [done|].
  unfold warming_check, conciergeWarmingGate.
  assert (W : forall o : option answer, (if isSystemCaller callerID || bool_decide (callerID = workspaceID) then None
      else if decide (x_kind_status x = Some ("platform", "provisioning")) then o else None) = None -> is_Some o ->
      isSystemCaller callerID = false -> callerID <> workspaceID -> x_kind_status x <> Some ("platform", "provisioning")).
  { intros o Hw Ho Hs Hne. rewrite Hs, bool_decide_false in Hw by done. cbn in Hw. case_decide; [|done]. by destruct Ho; subst. }
  destruct (if isSystemCaller callerID || _ then None else _) eqn:Ew; [done|]. intros [= <- <-]. split.
  - intros Hp. by apply A.
  - intros Hp. by apply A.
  - done.
  - intros Hp Hm Hc. rewrite Hp, Hm, Hc in Ed. vm_compute in Ed. done.
  - by apply (W _ Ew).
  - exists norm. done.
Qed.

Lemma gates_refuse body e : gates body = inr e -> exists c, e = Failed 0 None c.
Proof.
  unfold Proxy.gates, access_check, budget_check, delegation_check, warming_check, conciergeWarmingGate, refuse.
  repeat (case_match; try done); intros; simplify_eq; eauto.
Qed.

(** Anything that a call to the proxy changes, and any reply that accepts it, comes
    after every check: a workspace that calls another one may talk to it by the
    hierarchy, is of the same org, and may delegate when it sends a message; the target
    is within its budget; the body was normalised; and a concierge that warms up is
    spared, except from itself and from the system. *)
Theorem proxied_call_is_admitted body s s' a (Hrun : proxyA2ARequest body s = (s', a))
    (Hact : s' <> s \/ exists st b, a = Reply st b) :
  exists sent meth, admitted body sent meth.
Proof.
  unfold Proxy.proxyA2ARequest in Hrun. destruct (Proxy.gates _ _ _ _ _ _ _ _) as [[sent meth]|e] eqn:G.
  - exists sent, meth. by apply gates_admit.
  - injection Hrun as <- <-. destruct (gates_refuse _ _ G) as (c & ->). by destruct Hact as [|(st & b & ?)].
Qed.

(** C23: A request dispatches at most once, to an address that passed the check of
    addresses a second time right before, with the credential of that very address,
    after the admission of the call, and only to a workspace with a runtime that is
    real whose mode was read as push - which is also what a mode that cannot be read
    is taken for.  Whatever else happens, the row of the workspace keeps its status,
    unless it goes offline with a restart or a hibernated one is woken and becomes
    provisioning; a removed, provisioning or paused row always keeps it. *)
Theorem dispatch_is_earned body s :
  exists ds, evolves ds s (proxyA2ARequest body s).1 /\
    (ds = [] \/ exists d sent meth, ds = [d] /\ admitted body sent meth /\ earned sent d).
Proof.
  unfold Proxy.proxyA2ARequest. destruct (Proxy.gates _ _ _ _ _ _ _ _) as [[sent meth]|e] eqn:G.
  2:{ exists []. split; [apply evolves_nothing|by left]. }
  pose proof (ingest_evolves meth sent s) as I.
  destruct (route_evolves meth sent (ingest in_range float64 arrow IsSelfSourceType x workspaceID callerID meth sent s)) as (ds & D & Hds).
  exists ds. split; [by eapply (evolves_trans [])|]. destruct Hds as [->|(d & -> & He)]; [by left|].
  right. exists d, sent, meth. split_and!; [done|by apply gates_admit|done].
Qed.


(** ** A dispatch that failed *)






(** ** The name server *)

Lemma settle_loop_iff url : forall left k, settle_loop url_parse x left k url = true <->
  exists i, (i < left)%nat /\ safe_at (k + i) url = true /\
    forall j, (j < i)%nat -> safe_at (k + j) url = false /\ dns_failed url_parse x (k + j) url = true.
Proof.
  induction left as [|left IH]; intros k; cbn; [split; [done|intros (i & Hi & _); lia]|].
  destruct (Proxy.safe_at url_parse x k url) eqn:Es.
  - split; [|done]. intros _. exists 0%nat. rewrite Nat.add_0_r. split_and!; [lia|done|lia].
  - destruct (dns_failed url_parse x k url) eqn:Ed; cbn.
    + rewrite IH. split; intros (i & Hi & Hs & Hj).
      * exists (S i). rewrite Nat.add_succ_r. split_and!; [lia|exact Hs|]. intros [|j] Hlt; [by rewrite Nat.add_0_r|].
        rewrite Nat.add_succ_r. apply Hj. lia.
      * destruct i as [|i]; [rewrite Nat.add_0_r in Hs; congruence|]. exists i. rewrite Nat.add_succ_r in Hs.
        split_and!; [lia|exact Hs|]. intros j Hlt. specialize (Hj (S j)). rewrite Nat.add_succ_r in Hj. apply Hj. lia.
    + split; [done|]. intros (i & Hi & Hs & Hj). destruct i as [|i]; [rewrite Nat.add_0_r in Hs; congruence|].
      destruct (Hj 0%nat) as [_ Hd]; [lia|]. rewrite Nat.add_0_r in Hd. congruence.
Qed.

(** An address that is used passed a look at the names, the first one, or, for the
    container's own name under a platform in Docker and in development, one of the five
    that follow while the name does not resolve. *)
Theorem resolved_address_was_seen_safe s s' url (Hrun : resolveAgentURL s = (s', inl url)) :
  safe_at 0 url = true \/
  (devModeAllowsLoopback (x_ssrf x) = true /\ x_platform_in_docker x = true /\ url = InternalURL workspaceID /\
   exists i, (i < dockerDNSSettleAttempts)%nat /\ safe_at (S i) url = true).
Proof.
  unfold Proxy.resolveAgentURL in Hrun. destruct (stored_url x s) as [s1 [u|e]]; [|done].
  destruct (rewriteForDocker _ _ _ _ _) as [u'|]; [|done]. destruct (url_is_safe _ _ _ _) eqn:E; [|done].
  injection Hrun as <- ->. unfold url_is_safe in E. apply orb_true_iff in E as [E|E]; [by left|right].
  rewrite !andb_true_iff, bool_decide_eq_true in E. destruct E as [[[[Hd Hp] Hu] _] Hs].
  apply settle_loop_iff in Hs as (i & Hi & Hsafe & _). split_and!; [done..|]. exists i. auto.
Qed.

(** A route inside Docker is never made for a workspace that runs elsewhere. *)
Lemma external_route_is_kept url u r : x_runtime_row x = Some r -> isExternalLikeRuntime r = true ->
  rewriteForDocker url_parse url_user x workspaceID url = Some u -> u = url.
Proof. unfold rewriteForDocker. intros -> Hr. rewrite Hr. case_match; congruence. Qed.
End Evolving.

(** ** Deadlines *)

(** A dispatch on behalf of a workspace ends within the ceiling, unless the caller had
    set a limit of its own, which lifts it. *)
Lemma ceiling_holds caller now : caller <> "" -> forward_deadline None caller now = Some (now + agentCeiling).
Proof. intros Hc. unfold forward_deadline. by rewrite decide_True. Qed.
Lemma a_limit_lifts_the_ceiling t caller now : forward_deadline (Some t) caller now = None.
Proof. reflexivity. Qed.

(** The idle timer: it fires [idle] after an arming, the first one or that of an event,
    and no event came in that time. *)
Theorem idle_timer_fires_after_silence idle : forall events armed, 0 <= idle -> Sorted Z.le (armed :: events) ->
  exists last, idle_expiry idle armed events = last + idle /\ last ∈ armed :: events /\
    forall t, t ∈ events -> t < last + idle -> t <= last.
Proof.
  intros events. induction events as [|t rest IH]; intros armed Hidle Hsorted; cbn.
  - exists armed. split_and!; [done|set_solver|]. intros t Ht. by apply elem_of_nil in Ht.
  - destruct (t <? armed + idle) eqn:E.
    + apply Sorted_inv in Hsorted as [Hs _]. destruct (IH t Hidle Hs) as (last & -> & Hin & Hq). exists last.
      split_and!; [done|set_solver|]. intros u Hu Hlt. apply elem_of_cons in Hu as [->|Hu]; [|by apply Hq].
      apply elem_of_cons in Hin as [->|Hin]; [done|]. apply Sorted_StronglySorted in Hs; [|intros ?; lia].
      apply StronglySorted_inv in Hs as [_ Hs]. rewrite Forall_forall in Hs. by apply Hs.
    + exists armed. split_and!; [done|set_solver|]. intros u Hu Hlt. apply Sorted_StronglySorted in Hsorted; [|intros ?; lia].
      apply StronglySorted_inv in Hsorted as [Hs _]. apply StronglySorted_inv in Hs as [_ Hs]. rewrite Forall_forall in Hs.
      apply elem_of_cons in Hu as [->|Hu]; [lia|]. specialize (Hs u Hu). lia.
Qed.

(** ** Mock workspaces *)

Lemma mock_reply_is_canned sha ws id : pickMockReply sha ws id ∈ mockReplyVariants.
Proof.
  unfold pickMockReply. case_decide; [apply elem_of_cons; by left|].
  pose proof (Z.mod_pos_bound (sha (ws +:+ ":" +:+ id)) 10 eq_refl) as Hb.
  destruct (lookup_lt_is_Some_2 mockReplyVariants (Z.to_nat (sha (ws +:+ ":" +:+ id) mod 10))) as [r Hr].
  { change (length mockReplyVariants) with 10%nat. lia. }
  rewrite Hr. by eapply list_elem_of_lookup_2.
Qed.

Module ProxyDemo.
Import PayloadDemo.
#[local] Existing Instance plain_cast.

Definition parse (url : string) : option (string * string) := if decide (url = "https://agent.example") then Some ("https", "8.8.8.8") else None.
Definition no_user (_ : string) : bool := false.
Definition zero (_ : string) : Z := 0.
Definition no_self (_ : string) : bool := false.
Definition no_text (_ : Z) (_ : positive) : string := "".
Definition online : wstable := {["pm" := WsRow "PM" None "online" None None]} ∪ {["sec" := WsRow "Sec" (Some "pm") "online" None None]}.
Definition world_with (do : do_result) (mode : mode_read) (log_fails : nat -> bool) : proxy_env :=
  ProxyEnv 0 (WsDb online (fun _ => false)) (BudgetDb ∅ []) false false (Some true) None mode false (Some "claude-code") None
    (DbOk (Some "https://agent.example", "online")) false false None production (fun _ _ => None) false (inl true)
    (Some ("s3cret", false)) false do 7
    (DeadEnv "claude-code" false (fun _ => zero_state) 0 false (fun _ => false) (inl true) (inl true) 0)
    false false online (fun _ => no_enqueue_fault) (fun _ => "gen") log_fails "PM".
Definition world (do : do_result) (mode : mode_read) : proxy_env := world_with do mode (fun _ => false).
Definition start : pstate := PState ∅ [] None (Some "online") [].
Definition call (x : proxy_env) (caller : string) : pstate * answer :=
  proxyA2ARequest any_number exact silent parse no_user zero no_text "u" " > " no_self x "pm" caller true false legacy start.
Definition answered : payload := doc (JObj [("result", JStr "done")]).
Definition ok_reply : payload := Payload "{}" (parsed answered).
Definition eof : transport_error := TransportError false false true false "EOF".

Example pm_answers : (call (world (DoResp 200 ok_reply ReadOk) (ModeRow (Some "push"))) "sec").2 = Reply 200 (Bytes ok_reply).
Proof. vm_compute. reflexivity. Qed.
Example stranger_is_refused : (call (world (DoResp 200 ok_reply ReadOk) (ModeRow (Some "push"))) "other").2 =
  refuse 403 "access denied: workspaces cannot communicate per hierarchy rules".
Proof. vm_compute. reflexivity. Qed.
Example poll_is_recorded : length (ps_log (call (world DoBuildErr (ModeRow (Some "poll"))) "sec").1) = 1%nat.
Proof. vm_compute. reflexivity. Qed.
(** The INSERT of a turn for a workspace that polls fails: the answer is the same, and
    the turn is neither in the log nor in the queue nor with an agent. *)
Example poll_turn_is_lost :
  let x := world_with DoBuildErr (ModeRow (Some "poll")) (fun _ => true) in
  (call x "sec").2 = Reply 200 QueuedForPoll /\ ps_log (call x "sec").1 = [] /\ ps_queue (call x "sec").1 = ∅ /\
  dispatches (call x "sec").1 = [].
Proof. by vm_compute. Qed.
Example dropped_is_queued : (call (world (DoErr eof) (ModeRow (Some "push"))) "sec").2 = Reply 202 (QueuedBusy "gen" 1).
Proof. vm_compute. reflexivity. Qed.

(** A limit the canvas sets lifts every limit. *)
Example a_caller_limit_is_lost : forward_deadline (handler_deadline "5" 0) "sec" 0 = None /\ forward_deadline None "sec" 0 = Some agentCeiling.
Proof. done. Qed.

Definition mail : proxy_env := world (DoErr eof) (ModeRow (Some "push")).
Definition after_eof : pstate := (call mail "sec").1.
Lemma after_eof_run : call mail "sec" = (after_eof, Reply 202 (QueuedBusy "gen" 1)).
Proof. vm_compute. reflexivity. Qed.

Lemma proxied_call_is_admitted_witness :
  CanCommunicate (x_db mail) "sec" "pm" = true /\ sameOrg (x_db mail) "sec" "pm" = DbOk true.
Proof.
  destruct (proxied_call_is_admitted any_number exact silent parse no_user zero no_text "u" " > " no_self mail "pm" "sec" true false
    legacy start after_eof (Reply 202 (QueuedBusy "gen" 1)) after_eof_run
    (or_intror (ex_intro _ 202 (ex_intro _ (QueuedBusy "gen" 1) eq_refl)))) as (sent & meth & A).
  split; [exact (ad_hierarchy _ _ _ _ _ _ _ _ _ _ A eq_refl)|exact (ad_org _ _ _ _ _ _ _ _ _ _ A eq_refl)].
Defined.


End ProxyDemo.
