(* ===== verification/InboundSecret.v ===== *)
(** * The secret the platform shows a workspace

    internal/wsauth/platform_inbound.go, with its cache, and readOrLazyHealInboundSecret
    of internal/handlers/workspace_provision_shared.go.  The state is the column of the
    workspaces table and the cache of the process; the operator writes the column too. *)

From S2P Require Import Prelude Tree.

Definition inboundSecretCacheTTL : time := 5 * Minute.

(** The column by canonical id, a NULL as [None]; the cache by the text it is asked for. *)
Record secret_store := SecretStore { ss_column : gmap string (option string); ss_cache : gmap string (string * time) }.

Inductive secret_read := SecretIs (s : string) | NoInboundSecret | SecretErr.

Section Secrets.
Context `{UuidCast}.

Definition remember (now : time) (ws s : string) (st : secret_store) : secret_store :=
  SecretStore (ss_column st) (<[ws := (s, now + inboundSecretCacheTTL)]> (ss_cache st)).

(** [plaintext]: what was drawn, [None] when the random source fails.  The rows the
    UPDATE met are not counted. *)
Definition IssuePlatformInboundSecret (fails : bool) (plaintext : option string) (now : time) (ws : string) (st : secret_store)
    : secret_store * option string :=
  if decide (ws = "") then (st, None)
  else match plaintext, fails, canon ws with
       | Some p, false, Some id =>
           (remember now ws p (SecretStore (alter (fun _ => Some p) id (ss_column st)) (ss_cache st)), Some p)
       | _, _, _ => (st, None)
       end.

Definition cached (now : time) (ws : string) (st : secret_store) : option string :=
  match ss_cache st !! ws with Some (s, expires) => if now <? expires then Some s else None | None => None end.

Definition ReadPlatformInboundSecret (fails : bool) (now : time) (ws : string) (st : secret_store) : secret_store * secret_read :=
  if decide (ws = "") then (st, SecretErr)
  else match cached now ws st with
       | Some s => (st, SecretIs s)
       | None =>
           match fails, canon ws with
           | false, Some id =>
               match ss_column st !! id with
               | Some (Some s) => if decide (s = "") then (st, NoInboundSecret) else (remember now ws s st, SecretIs s)
               | _ => (st, NoInboundSecret)
               end
           | _, _ => (st, SecretErr)
           end
       end.

(** The secret, and whether it was minted just now; [None] is an error. *)
Definition readOrLazyHealInboundSecret (read_fails fails : bool) (plaintext : option string) (now : time) (ws : string)
    (st : secret_store) : secret_store * option (string * bool) :=
  match ReadPlatformInboundSecret read_fails now ws st with
  | (st, SecretIs s) => (st, Some (s, false))
  | (st, SecretErr) => (st, None)
  | (st, NoInboundSecret) =>
      match IssuePlatformInboundSecret fails plaintext now ws st with
      | (st, Some p) => (st, Some (p, true))
      | (st, None) => (st, None)
      end
  end.

(** ** Histories

    Reads, mints and lazy heals of the process, and what others do to the column. *)
Inductive secret_event :=
| EvRead (fails : bool) (ws : string)
| EvIssue (fails : bool) (plaintext : option string) (ws : string)
| EvHeal (read_fails fails : bool) (plaintext : option string) (ws : string)
| EvColumn (id : string) (value : option (option string)).        (* an outer [None]: the row goes *)

Definition secret_step (e : time * secret_event) (st : secret_store) : secret_store :=
  match e.2 with
  | EvRead fails ws => fst (ReadPlatformInboundSecret fails e.1 ws st)
  | EvIssue fails p ws => fst (IssuePlatformInboundSecret fails p e.1 ws st)
  | EvHeal rf fails p ws => fst (readOrLazyHealInboundSecret rf fails p e.1 ws st)
  | EvColumn id v => SecretStore (partial_alter (fun _ => v) id (ss_column st)) (ss_cache st)
  end.
Definition secrets_after (st : secret_store) (evs : list (time * secret_event)) : secret_store :=
  foldl (fun st e => secret_step e st) st evs.
Definition cold (column : gmap string (option string)) : secret_store := SecretStore column ∅.

(** [e], met with the column [col], shows that [s] is the secret of [ws]: it reads it in
    the column, or mints it. *)
Definition shows (e : secret_event) (col : gmap string (option string)) (ws s : string) : Prop :=
  match e with
  | EvRead false w => w = ws /\ exists id, canon ws = Some id /\ col !! id = Some (Some s)
  | EvIssue false p w => w = ws /\ p = Some s
  | EvHeal rf f p w => w = ws /\ ((rf = false /\ exists id, canon ws = Some id /\ col !! id = Some (Some s)) \/ (f = false /\ p = Some s))
  | _ => False
  end.
(** Somewhere in [evs], from [st] on, at time [t0]. *)
Definition shown (st : secret_store) (evs : list (time * secret_event)) (t0 : time) (ws s : string) : Prop :=
  exists pre e post, evs = pre ++ (t0, e) :: post /\ shows e (ss_column (secrets_after st pre)) ws s.

Lemma secrets_after_app st e1 e2 : secrets_after st (e1 ++ e2) = secrets_after (secrets_after st e1) e2.
Proof. apply foldl_app. Qed.

Lemma shown_more st evs evs' t0 ws s : shown st evs t0 ws s -> shown st (evs ++ evs') t0 ws s.
Proof. intros (pre & e & post & -> & Hs). exists pre, e, (post ++ evs'). by rewrite <- app_assoc. Qed.

Lemma shown_last st evs t0 e ws s : shows e (ss_column (secrets_after st evs)) ws s -> shown st (evs ++ [(t0, e)]) t0 ws s.
Proof. intros Hs. by exists evs, e, []. Qed.

(** Every entry of the cache was shown, five minutes before it expires. *)
Definition faithful (st0 : secret_store) (evs : list (time * secret_event)) (cache : gmap string (string * time)) : Prop :=
  forall ws s expires, cache !! ws = Some (s, expires) -> shown st0 evs (expires - inboundSecretCacheTTL) ws s.

Lemma faithful_remember st0 evs now ws s st :
  shown st0 evs now ws s -> faithful st0 evs (ss_cache st) -> faithful st0 evs (ss_cache (remember now ws s st)).
Proof.
  intros Hs Hf w t e. cbn. destruct (decide (w = ws)) as [->|Hne].
  - rewrite lookup_insert_eq. intros [= <- <-]. by replace (now + inboundSecretCacheTTL - inboundSecretCacheTTL) with now by lia.
  - rewrite lookup_insert_ne by done. apply Hf.
Qed.

Lemma cached_shown st0 evs now ws s st : faithful st0 evs (ss_cache st) -> cached now ws st = Some s ->
  exists t0, shown st0 evs t0 ws s /\ now < t0 + inboundSecretCacheTTL.
Proof.
  unfold cached. intros Hf Hc. destruct (ss_cache st !! ws) as [[s' e]|] eqn:E; [|done]. destruct (now <? e) eqn:El; [|done].
  injection Hc as ->. exists (e - inboundSecretCacheTTL). split; [by apply Hf|]. lia.
Qed.

(** A read: the cache stays faithful, and the answer was shown. *)
Lemma read_faithful st0 evs ev fails now ws st :
  faithful st0 evs (ss_cache st) ->
  (forall s, fails = false -> (exists id, canon ws = Some id /\ ss_column st !! id = Some (Some s)) -> shown st0 (evs ++ [(now, ev)]) now ws s) ->
  faithful st0 (evs ++ [(now, ev)]) (ss_cache (ReadPlatformInboundSecret fails now ws st).1) /\
  forall s, (ReadPlatformInboundSecret fails now ws st).2 = SecretIs s -> exists t0, shown st0 (evs ++ [(now, ev)]) t0 ws s /\ now < t0 + inboundSecretCacheTTL.
Proof.
  intros Hf Hshow. assert (Hf' : faithful st0 (evs ++ [(now, ev)]) (ss_cache st)).
  { intros w s e Hc. apply shown_more. by apply Hf. }
  unfold ReadPlatformInboundSecret. case_decide; [done|]. destruct (cached now ws st) as [s|] eqn:Ec.
  - split; [done|]. intros ? [= <-]. destruct (cached_shown _ _ _ _ _ _ Hf Ec) as (t0 & Hs & Ht).
    exists t0. split; [by apply shown_more|done].
  - destruct fails; [done|]. destruct (canon ws) as [id|] eqn:Ew; [|done].
    destruct (ss_column st !! id) as [[s|]|] eqn:Es; [|done..]. case_decide; [done|].
    assert (Hs : shown st0 (evs ++ [(now, ev)]) now ws s) by (apply Hshow; eauto).
    split; [by apply faithful_remember|]. intros ? [= <-]. exists now. split; [done|].
    unfold inboundSecretCacheTTL, Minute, Second. lia.
Qed.

Lemma issue_faithful st0 evs fails p now ws st :
  (forall s, fails = false -> p = Some s -> shown st0 evs now ws s) -> faithful st0 evs (ss_cache st) ->
  faithful st0 evs (ss_cache (IssuePlatformInboundSecret fails p now ws st).1).
Proof.
  intros Hs Hf. unfold IssuePlatformInboundSecret. case_decide; [done|]. destruct p as [p|], fails, (canon ws); try done.
  cbn [fst]. apply (faithful_remember st0 evs now ws p (SecretStore _ (ss_cache st))); [by apply Hs|done].
Qed.

Lemma history_faithful col evs : faithful (cold col) evs (ss_cache (secrets_after (cold col) evs)).
Proof.
  induction evs as [|[now ev] evs IH] using rev_ind; [by intros ws s e|].
  rewrite secrets_after_app. cbn. set (st := secrets_after (cold col) evs) in *. unfold secret_step. cbn.
  assert (Hmore : faithful (cold col) (evs ++ [(now, ev)]) (ss_cache st)).
  { intros w s e Hc. apply shown_more. by apply IH. }
  destruct ev as [fails ws|fails p ws|rf fails p ws|id v]; cbn.
  - apply (read_faithful (cold col) evs (EvRead fails ws) fails now ws st IH).
    intros s Hfail He. subst fails. apply shown_last. by split.
  - apply issue_faithful; [|done]. intros s -> ->. by apply shown_last.
  - destruct (read_faithful (cold col) evs (EvHeal rf fails p ws) rf now ws st IH) as [Hf _].
    { intros s Hfail He. subst rf. apply shown_last. split; [done|]. by left. }
    unfold readOrLazyHealInboundSecret. destruct (ReadPlatformInboundSecret rf now ws st) as [st' r].
    destruct r; [exact Hf| |exact Hf].
    assert (I := issue_faithful (cold col) (evs ++ [(now, EvHeal rf fails p ws)]) fails p now ws st').
    destruct (IssuePlatformInboundSecret fails p now ws st') as [st'' [q|]]; cbn in *; apply I; try done;
      intros s -> ->; apply shown_last; (split; [done|]); by right.
  - exact Hmore.
Qed.

(** The secret that the platform shows a workspace, or asks of a caller, is never one
    that was out of date for five minutes: over any history of reads, mints, heals and
    changes of the column by others, from an empty cache, a read that answers a secret
    comes less than five minutes after that secret was read in the column of the
    workspace or minted for it. *)
Theorem secret_is_recent col evs fails now ws s
    (Hread : (ReadPlatformInboundSecret fails now ws (secrets_after (cold col) evs)).2 = SecretIs s) :
  exists t0, shown (cold col) (evs ++ [(now, EvRead fails ws)]) t0 ws s /\ now < t0 + 5 * Minute.
Proof.
  apply (read_faithful (cold col) evs (EvRead fails ws) fails now ws _ (history_faithful col evs)); [|exact Hread].
  intros s0 Hfail He. subst fails. apply shown_last. by split.
Qed.

(** What was minted is what is read, for five minutes, whatever happens to the column. *)
Lemma minted_is_read fails p now ws st st' fails' later col :
  IssuePlatformInboundSecret fails (Some p) now ws st = (st', Some p) -> later < now + inboundSecretCacheTTL ->
  (ReadPlatformInboundSecret fails' later ws (SecretStore col (ss_cache st'))).2 = SecretIs p.
Proof.
  unfold IssuePlatformInboundSecret, ReadPlatformInboundSecret. case_decide; [done|]. destruct fails, (canon ws); try done.
  intros [= <-] Hl. unfold cached. cbn. rewrite lookup_insert_eq. by rewrite (proj2 (Z.ltb_lt _ _) Hl).
Qed.
End Secrets.

Module SecretDemo.
#[local] Existing Instance plain_cast.

(** A heal for a workspace that has no row answers a secret that is nowhere, and goes on
    doing so for five minutes. *)
Example heal_without_a_row :
  let '(st, r) := readOrLazyHealInboundSecret false false (Some "new") 0 "w" (cold ∅) in
  r = Some ("new", true) /\ ss_column st = ∅ /\ (ReadPlatformInboundSecret false 1 "w" st).2 = SecretIs "new" /\
  (ReadPlatformInboundSecret false inboundSecretCacheTTL "w" st).2 = NoInboundSecret.
Proof. vm_compute. auto. Qed.

Definition column : gmap string (option string) := {["w" := Some "old"]}.
Definition past : list (time * secret_event) := [(0, EvRead false "w"); (1, EvColumn "w" (Some (Some "rotated")))].

Lemma secret_is_recent_witness :
  exists t0, shown (cold column) (past ++ [(2, EvRead false "w")]) t0 "w" "old" /\ 2 < t0 + 5 * Minute.
Proof.
  assert (E : (ReadPlatformInboundSecret false 2 "w" (secrets_after (cold column) past)).2 = SecretIs "old") by (vm_compute; reflexivity).
  exact (secret_is_recent column past false 2 "w" "old" E).
Defined.
End SecretDemo.
