(* ===== verification/A2AAuth.v ===== *)
(** * Who calls the A2A endpoints

    authenticateA2AHTTPCaller and validateCallerToken of
    internal/handlers/a2a_proxy_helpers.go, the front of ProxyA2A and ReceiveA2AInbound of
    a2a_proxy.go, and the status of a queue row (a2a_queue_status.go).  None of these
    routes has the workspace middleware in front of it. *)

From S2P Require Import Prelude Json Tree RateLimit Access A2AQueue Tokens OrgTokens Auth A2APayload ActivityLog Proxy InboundSecret.

(** The caller and whether it is a human's; or the status of the refusal. *)
Definition a2a_verdict := (string * bool + Z)%type.

Section Callers.
Context `{UuidCast}.
Context (sha256 sha256_hex deterministicPlatformAgentID : string -> string) (order : session_cache -> list string)
  (order_id : identity_cache -> list string).
(** The environment of the process. *)
Context (ADMIN_TOKEN : string) (ten : tenant) (canvasProxyActive : bool) (f : auth_faults) (now : time) (db : wsdb).

(** orgAnchorMatchesRoot of the handlers is the one of the middleware. *)
Definition org_token_reaches (tokenOrgID workspaceID : string) : bool :=
  match orgRootID db workspaceID with
  | DbOk targetRoot =>
      orgAnchorMatchesRoot deterministicPlatformAgentID tokenOrgID targetRoot ||
      match orgRootID db tokenOrgID with DbOk anchorRoot => bool_decide (anchorRoot = targetRoot) | _ => false end
  | _ => false
  end.

(** [target]: the :id of the route; [inbound]: the mark ReceiveA2AInbound leaves. *)
Definition authenticateA2AHTTPCaller (target : string) (inbound : bool) (claimedCallerID : string) (o : origin) (q : request)
    (s : stores) : stores * a2a_verdict :=
  if inbound then (s, inl (claimedCallerID, false))
  else match IsVerifiedCanvasSession sha256_hex order ten now q s with
  | (s, true) => (s, inl (claimedCallerID, true))
  | (s, false) =>
      if negb (t_configured ten) && isSameOriginCanvas canvasProxyActive o then (s, inl (claimedCallerID, true))
      else
        let tok := BearerTokenFromHeader (q_auth q) in
        if decide (tok = "") then (s, inr 401)
        else if negb (bool_decide (ADMIN_TOKEN = "")) && bool_decide (tok = ADMIN_TOKEN) then (s, inl (claimedCallerID, true))
        else match WorkspaceFromToken sha256 (af_probe f) tok (s_tokens s) with
             | Some workspaceID =>
                 if negb (bool_decide (claimedCallerID = "")) && negb (bool_decide (claimedCallerID = workspaceID)) then (s, inr 401)
                 else let '(w, ok) := ValidateToken sha256 (af_ws f) (af_bump f) now workspaceID tok (s_tokens s) in
                      (Stores (s_org s) w (s_sessions s), if ok then inl (workspaceID, false) else inr 401)
             | None =>
                 match Validate sha256 (af_org f) now tok "" false (s_org s) with
                 | (o', Some (_, _, tokenOrgID)) =>
                     let s := Stores o' (s_tokens s) (s_sessions s) in
                     if decide (tokenOrgID = "") then (s, inl ("", true))
                     else (s, if org_token_reaches tokenOrgID target then inl ("", true) else inr 403)
                 | (o', None) => (Stores o' (s_tokens s) (s_sessions s), inr 401)
                 end
             end
  end.

Definition validateCallerToken (target : string) (inbound : bool) (callerID : string) (o : origin) (q : request) (s : stores)
    : stores * (bool + Z) :=
  match authenticateA2AHTTPCaller target inbound callerID o q s with
  | (s, inr code) => (s, inr code)
  | (s, inl (caller, isCanvasUser)) =>
      (s, if negb isCanvasUser && negb (bool_decide (caller = callerID)) then inr 401 else inl isCanvasUser)
  end.

(** ** The handlers *)

(** The body as it is read, up to the limit and one byte more. *)
Inductive body_read := BodyRead (b : payload) | BodyUnreadable | BodyTooLarge.

(** [serve caller canvas identity body]: what ProxyA2A goes on with, and what comes of
    it; [identities] is the cache of identities. *)
Section Serving.
Context (St : Type) (serve : string -> bool -> canvasIdentity -> payload -> St -> St * http_answer).

Definition resolveCanvasIdentity (q : request) (answer : cp_answer (string * string)) (m : identity_cache) : identity_cache * canvasIdentity :=
  if decide (q_cookie q = "") then (m, None) else VerifiedCPIdentity sha256_hex order_id ten now (q_cookie q) answer m.

Definition ProxyA2A_http (target : string) (inbound : bool) (claimedCallerID : string) (o : origin) (q : request)
    (answer : cp_answer (string * string)) (body : body_read) (s : stores) (m : identity_cache) (st : St)
    : stores * identity_cache * St * http_answer :=
  match body with
  | BodyTooLarge => (s, m, st, HttpError 413)
  | BodyUnreadable => (s, m, st, HttpError 400)
  | BodyRead b =>
      if isSystemCaller claimedCallerID then (s, m, st, HttpError 403)
      else match authenticateA2AHTTPCaller target inbound claimedCallerID o q s with
           | (s, inr code) => (s, m, st, HttpError code)
           | (s, inl (caller, canvas)) =>
               let '(m, ident) := if canvas : bool then resolveCanvasIdentity q answer m else (m, None) in
               let '(st, r) := serve caller canvas ident b st in (s, m, st, r)
           end
  end.

(** The secret is read through the cache of the process; the header that names the
    caller is dropped before the proxy runs. *)
Definition ReceiveA2AInbound (secret_fails : bool) (target : string) (o : origin) (q : request)
    (answer : cp_answer (string * string)) (body : body_read) (s : stores) (m : identity_cache) (sec : secret_store) (st : St)
    : stores * identity_cache * secret_store * St * http_answer :=
  let bearer := BearerTokenFromHeader (q_auth q) in
  if decide (bearer = "") then (s, m, sec, st, HttpError 401)
  else match ReadPlatformInboundSecret secret_fails now target sec with
       | (sec, NoInboundSecret) => (s, m, sec, st, HttpError 401)
       | (sec, SecretErr) => (s, m, sec, st, HttpError 503)
       | (sec, SecretIs secret) =>
           if decide (bearer = secret) then
             let '(s, m, st, r) := ProxyA2A_http target true "" o (Request "" (q_cookie q) (q_answer q)) answer body s m st in
             (s, m, sec, st, r)
           else (s, m, sec, st, HttpError 403)
       end.
End Serving.

(** ** The status of a queue row *)

Record queue_status := QueueStatus {
  qs_id : string; qs_workspace : string; qs_status : string; qs_priority : Z; qs_attempts : Z;
  qs_last_error : option string; qs_enqueued : time; qs_dispatched : option time; qs_completed : option time;
  qs_expires : option time; qs_response : option json
}.

(** [->>] of a string member; other members give their text. *)
Context (json_text : json -> string).
Definition arrow_text (k : string) (j : json) : option string :=
  match j with
  | JObj l => match map_get k l with
              | Some (JStr s) => Some s | Some JNull => None | Some j' => Some (json_text j') | None => None
              end
  | _ => None
  end.
Definition arrow (k : string) (j : json) : option json := match j with JObj l => map_get k l | _ => None end.

(** The delegation a stored body belongs to. *)
Definition delegation_of (body : payload) : option string :=
  match parsed body with
  | Some j => match arrow "params" j with
              | Some p => match arrow "message" p with
                          | Some msg => match arrow "metadata" msg with Some md => arrow_text "delegation_id" md | None => None end
                          | None => None
                          end
              | None => None
              end
  | None => None
  end.

(** The result of the delegation, the last one logged. *)
Definition stitched (log : list act) (r : qrow) : option json :=
  match delegation_of (q_body r), q_caller r with
  | Some d, Some caller =>
      match last (filter (fun a => bool_decide (a_type a = "delegation") && bool_decide (a_method a = Some "delegate_result") &&
                                   bool_decide (a_target a = Some (q_workspace r)) && bool_decide (a_workspace a = caller) &&
                                   bool_decide (match a_response a with Some j => arrow_text "delegation_id" j | None => None end = Some d)) log) with
      | Some a => a_response a
      | None => None
      end
  | _, _ => None
  end.

Definition QueueStatusByID (fails : bool) (log : list act) (q : queue) (queueID : string) : dbres queue_status :=
  match fails, canon queueID with
  | false, Some id =>
      match q !! id with
      | None => DbNoRows
      | Some r =>
          DbOk (QueueStatus id (q_workspace r) (q_status r) (q_priority r) (q_attempts r) (q_last_error r ≫= nullif_empty)
                  (q_enqueued r) (q_dispatched r) (q_completed r) (q_expires r)
                  (if decide (q_status r = "completed")
                   then coalesce (q_response r ≫= parsed) (stitched log r) else None))
      end
  | _, _ => DbErr
  end.

Definition queueRowAuthFields (fails : bool) (q : queue) (queueID : string) : dbres (string * string) :=
  match fails, canon queueID with
  | false, Some id => match q !! id with None => DbNoRows | Some r => DbOk (default "" (q_caller r), q_workspace r) end
  | _, _ => DbErr
  end.

Inductive status_reply := StatusOk (st : queue_status) | StatusMissing | StatusErr (code : Z).

Definition GetA2AQueueStatus (row_fails status_fails : bool) (log : list act) (qu : queue) (target queueID claimed : string)
    (o : origin) (q : request) (s : stores) : stores * status_reply :=
  if decide (queueID = "") then (s, StatusErr 400)
  else match authenticateA2AHTTPCaller target false claimed o q s with
       | (s, inr code) => (s, StatusErr code)
       | (s, inl (caller, privileged)) =>
           match queueRowAuthFields row_fails qu queueID with
           | DbNoRows => (s, StatusMissing)
           | DbErr => (s, StatusErr 500)
           | DbOk (row_caller, row_workspace) =>
               if negb privileged && negb (bool_decide (caller = row_caller)) && negb (bool_decide (caller = row_workspace))
               then (s, StatusErr 403)
               else match QueueStatusByID status_fails log qu queueID with
                    | DbOk st => (s, StatusOk st)
                    | DbNoRows => (s, StatusMissing)
                    | DbErr => (s, StatusErr 500)
                    end
           end
       end.
End Callers.
