(* ===== verification/A2AAuthSafety.v ===== *)
(** * Whose call the proxy serves

    The credential behind every caller of the A2A endpoints, what it takes for a call
    over HTTP to change anything, and who may see a row of the queue. *)

From S2P Require Import Prelude Json Tree RateLimit Access A2AQueue Tokens TokensSafety OrgTokens Auth AuthSafety AgentCard A2APayload ActivityLog Proxy ProxySafety InboundSecret A2AAuth.

Section Callers.
Context `{UuidCast}.
Context (sha256 sha256_hex det : string -> string) (order : session_cache -> list string) (order_id : identity_cache -> list string).
Context (ADMIN_TOKEN : string) (ten : tenant) (canvasProxyActive : bool) (f : auth_faults) (now : time) (db : wsdb).

Abbreviation authenticate := (authenticateA2AHTTPCaller sha256 sha256_hex det order ADMIN_TOKEN ten canvasProxyActive f now db).

(** What a call of the A2A endpoints is let in by, with the caller it makes, and whether
    that is a human.  All but [ByOwnCanvas] are credentials; that one is the headers of a
    page of the same origin, which the code believes where there is no control plane. *)
Inductive a2a_credential (target claimed : string) (o : origin) (q : request) (s : stores) : string -> bool -> Prop :=
| ByHumanSession user : session_user sha256_hex order ten now q s = Some user -> a2a_credential target claimed o q s claimed true
| ByOwnCanvas : t_configured ten = false -> isSameOriginCanvas canvasProxyActive o = true -> a2a_credential target claimed o q s claimed true
| ByAdmin : is_admin_token ADMIN_TOKEN q -> a2a_credential target claimed o q s claimed true
| ByOwnToken ws id r :
    opens sha256 (s_tokens s) (bearer_of q) ws id r -> claimed = "" \/ claimed = ws -> a2a_credential target claimed o q s ws false
| ByOrg id r :
    org_opens sha256 now (s_org s) (bearer_of q) id r ->
    default "" (ot_org r) = "" \/ org_token_reaches det db (default "" (ot_org r)) target = true ->
    a2a_credential target claimed o q s "" true.

(** The bearer is the inbound secret of the workspace it calls: the one in its row, or
    the one the process read less than the life of its cache ago. *)
Definition is_inbound_secret (target : string) (q : request) (sec : secret_store) : Prop :=
  bearer_of q <> "" /\
  (cached now target sec = Some (bearer_of q) \/
   exists id, canon target = Some id /\ ss_column sec !! id = Some (Some (bearer_of q))).

Lemma session_of_tokens q s s' u : session_of sha256_hex order ten now q s = (s', u) -> s_tokens s' = s_tokens s /\ s_org s' = s_org s.
Proof. unfold session_of. destruct (VerifiedCPSession _ _ _ _ _ _ _). by intros [= <- _]. Qed.

(** The caller of an A2A endpoint is who its credential says.  The header that names
    the caller is believed of a human - a session the control plane confirmed,
    ADMIN_TOKEN, or the canvas of a deployment with no control plane -; of a workspace
    it is checked against the owner of a live token, and that owner is the caller; an
    org token is a human's call, names no workspace, and is live and either anchored in
    no org or in the one of the workspace it calls. *)
Lemma a2a_credential_of target claimed o q s s' caller canvas
    (Hrun : authenticate target false claimed o q s = (s', inl (caller, canvas))) :
  a2a_credential target claimed o q s caller canvas.
Proof.
  revert Hrun. unfold authenticateA2AHTTPCaller.
  unfold IsVerifiedCanvasSession. destruct (session_of sha256_hex order ten now q s) as [s1 u] eqn:Es.
  destruct (session_of_tokens _ _ _ _ Es) as [Et Eo].
  destruct u as [user|]; [rewrite bool_decide_true by eauto|rewrite (bool_decide_false _ is_Some_None)].
  { intros [= _ <- <-]. apply session_of_user in Es. by eapply ByHumanSession. }
  destruct (negb (t_configured ten) && _) eqn:Ec.
  { intros [= _ <- <-]. apply andb_true_iff in Ec as [Hc Ho]. apply negb_true_iff in Hc. by apply ByOwnCanvas. }
  fold (bearer_of q). destruct (decide (bearer_of q = "")) as [Ht|Ht]; [done|].
  destruct (negb (bool_decide (ADMIN_TOKEN = "")) && _) eqn:Ea.
  { intros [= _ <- <-]. b2p. by apply ByAdmin. }
  rewrite Et, Eo. destruct (WorkspaceFromToken _ _ _ _) as [ws|].
  - destruct (negb (bool_decide (claimed = "")) && negb (bool_decide (claimed = ws))) eqn:Ecl; [done|].
    assert (V := ValidateToken_opens sha256 (af_ws f) (af_bump f) now ws (bearer_of q) (s_tokens s)).
    destruct (ValidateToken _ _ _ _ _ _ _) as [w [|]]; [|done]. destruct (V eq_refl) as (_ & _ & id & r & Ho).
    intros [= _ <- <-]. eapply ByOwnToken; [exact Ho|].
    apply andb_false_iff in Ecl as [E|E]; apply negb_false_iff, bool_decide_eq_true in E; auto.
  - destruct (Validate sha256 (af_org f) now (bearer_of q) "" false (s_org s)) as [o' [[[id prefix] org]|]] eqn:Ev; [|done].
    apply Validate_opens in Ev as (_ & _ & r & Hr & -> & ->).
    destruct (decide (default "" (ot_org r) = "")) as [Ho|Ho]; [intros [= _ <- <-]; eapply ByOrg; eauto|].
    destruct (org_token_reaches _ _ _ _) eqn:Er; [|done]. intros [= _ <- <-]. eapply ByOrg; eauto.
Qed.

(** ** What a call over HTTP takes *)

Section Serving.
Context (in_range : Z -> positive -> bool) (float64 : Z -> positive -> Z * positive) (render : json -> string).
Context (url_parse : string -> option (string * string)) (url_user : string -> bool).
Context (sha1_u32 : string -> Z) (number_text : Z -> positive -> string) (uuid arrow : string) (IsSelfSourceType : string -> bool).
(** What the proxy meets when this caller calls; whether the asynchronous path is off, its
    budget, and whether the turn outlives it. *)
Context (env : string -> proxy_env) (async_off : bool) (budget : time) (outlives : bool).

Definition serve (target caller : string) (canvas : bool) (ident : canvasIdentity) (b : payload) (st : pstate) : pstate * http_answer :=
  Proxy.ProxyA2A in_range float64 render url_parse url_user sha1_u32 number_text uuid arrow IsSelfSourceType (env caller) target caller true canvas
    ident async_off budget outlives b st.

Abbreviation serve_http target := (ProxyA2A_http sha256 sha256_hex det order order_id ADMIN_TOKEN ten canvasProxyActive f now db pstate (serve target) target).

Lemma serve_admitted target caller canvas ident b st st' r :
  serve target caller canvas ident b st = (st', r) -> st' <> st ->
  exists b' sent meth, admitted in_range float64 render (env caller) target caller canvas b' sent meth.
Proof.
  unfold serve, Proxy.ProxyA2A. destruct (if canvas then _ else _) as [b'| |]; [|by intros [= <- _]..].
  unfold Proxy.proxyA2ARequest.
  destruct (Proxy.gates in_range float64 render (env caller) target caller canvas b') as [[sent meth]|e] eqn:G.
  - intros _ _. exists b', sent, meth. by apply gates_admit.
  - by destruct (_ && _ && _ && _); intros [= <- _].
Qed.

(** The two endpoints: POST /workspaces/:id/a2a, with the header that names the caller,
    and the inbound endpoint, with the store it reads the secret of the target from. *)
Inductive a2a_route := AtA2A (claimed : string) | AtInbound (secret_fails : bool) (sec : secret_store).

Definition a2a_call (target : string) (rt : a2a_route) (o : origin) (q : request) (answer : cp_answer (string * string))
    (body : body_read) (s : stores) (m : identity_cache) (st : pstate) : pstate * http_answer :=
  match rt with
  | AtA2A claimed => let '(_, _, st, r) := serve_http target false claimed o q answer body s m st in (st, r)
  | AtInbound secret_fails sec =>
      let '(_, _, _, st, r) := ReceiveA2AInbound sha256 sha256_hex det order order_id ADMIN_TOKEN ten canvasProxyActive f now db pstate
                                 (serve target) secret_fails target o q answer body s m sec st in (st, r)
  end.

(** The caller of a call that was let in. *)
Definition entitled (target : string) (rt : a2a_route) (o : origin) (q : request) (s : stores) (caller : string) (canvas : bool) : Prop :=
  match rt with
  | AtA2A claimed => isSystemCaller claimed = false /\ a2a_credential target claimed o q s caller canvas
  | AtInbound _ sec => is_inbound_secret target q sec /\ caller = "" /\ canvas = false
  end.

Lemma secret_read secret_fails target sec p :
  (ReadPlatformInboundSecret secret_fails now target sec).2 = SecretIs p ->
  cached now target sec = Some p \/ exists id, canon target = Some id /\ ss_column sec !! id = Some (Some p).
Proof.
  unfold ReadPlatformInboundSecret. case_decide; [done|]. destruct (cached now target sec) as [c|]; [cbn; intros [= ->]; by left|].
  destruct secret_fails; [done|]. destruct (canon target) as [id|]; [|done].
  destruct (ss_column sec !! id) as [[c|]|] eqn:E; try done. case_decide; [done|]. cbn. intros [= ->]. right. eauto.
Qed.

(** C26: A call over HTTP changes nothing - no log, no queue, no dispatch - unless it is let
    in, and passes every check of the proxy as the caller it then is.  At the inbound
    endpoint it brings the inbound secret of the workspace it calls, and names no caller.
    At the other it does not claim the name of a system caller, and brings a session the
    control plane confirmed, ADMIN_TOKEN, a live org token of no org or of the target's, or
    a live token of a workspace, which is then the caller; or, on a deployment without a
    control plane, the headers of a same-origin page, which anyone can send. *)
Theorem http_call_is_authorised target rt o q answer body s m st st' r
    (Hrun : a2a_call target rt o q answer body s m st = (st', r)) (Hact : st' <> st) :
  exists caller canvas b sent meth,
    entitled target rt o q s caller canvas /\
    admitted in_range float64 render (env caller) target caller canvas b sent meth.
Proof.
  assert (Hserve : forall inbound claimed q' s1 m1 st1 r1,
    serve_http target inbound claimed o q' answer body s m st = (s1, m1, st1, r1) -> st1 <> st ->
    isSystemCaller claimed = false /\
    exists caller canvas b sent meth s2,
      authenticate target inbound claimed o q' s = (s2, inl (caller, canvas)) /\
      admitted in_range float64 render (env caller) target caller canvas b sent meth).
  { intros inbound claimed q' s1 m1 st1 r1 Hs Hne. unfold ProxyA2A_http in Hs. destruct body as [b| |]; [|by simplify_eq..].
    destruct (isSystemCaller claimed); [by simplify_eq|]. split; [done|].
    destruct (authenticateA2AHTTPCaller _ _ _ _ _ _ _ _ _ _ _ _ _ _ _ _) as [s2 [[caller canvas]|code]] eqn:Ea; [|by simplify_eq].
    destruct (if canvas then _ else _) as [m2 ident]. destruct (serve target caller canvas ident b st) as [st2 r2] eqn:Es.
    simplify_eq. destruct (serve_admitted _ _ _ _ _ _ _ _ Es Hne) as (b' & sent & meth & A).
    exists caller, canvas, b', sent, meth. eexists. by split. }
  destruct rt as [claimed|secret_fails sec]; unfold a2a_call in Hrun.
  - destruct (serve_http target false claimed o q answer body s m st) as [[[s1 m1] st1] r1] eqn:E. simplify_eq.
    apply Hserve in E as (Hsys & caller & canvas & b & sent & meth & s2 & Ea & A); [|done].
    apply a2a_credential_of in Ea. exists caller, canvas, b, sent, meth. by split.
  - unfold ReceiveA2AInbound in Hrun. fold (bearer_of q) in Hrun. case_decide as Hb; [by simplify_eq|].
    pose proof (secret_read secret_fails target sec) as Hsec.
    destruct (ReadPlatformInboundSecret secret_fails now target sec) as [sec1 [p| |]]; [|by simplify_eq..].
    case_decide as Hp; [|by simplify_eq]. subst p.
    destruct (serve_http target true "" o (Request "" (q_cookie q) (q_answer q)) answer body s m st) as [[[s1 m1] st1] r1] eqn:E.
    simplify_eq. apply Hserve in E as (_ & caller & canvas & b & sent & meth & s2 & Ea & A); [|done].
    unfold authenticateA2AHTTPCaller in Ea. injection Ea as <- <- <-.
    exists "", false, b, sent, meth. split; [|done]. split_and!; [|done|done]. split; [done|]. by apply Hsec.
Qed.
End Serving.

(** ** Who sees a row of the queue *)

(** The status of a queue row goes to a human, to the workspace that sent the turn and
    to the one it is for, and to no other workspace; the reply of the agent is in it only
    once the row is completed. *)
Theorem queue_status_is_entitled json_text row_fails status_fails log qu target queueID claimed o q s s' st
    (Hrun : GetA2AQueueStatus sha256 sha256_hex det order ADMIN_TOKEN ten canvasProxyActive f now db json_text row_fails status_fails
              log qu target queueID claimed o q s = (s', StatusOk st)) :
  exists id row caller canvas,
    canon queueID = Some id /\ qu !! id = Some row /\ qs_id st = id /\ qs_workspace st = q_workspace row /\
    a2a_credential target claimed o q s caller canvas /\
    (canvas = false -> caller = q_workspace row \/ caller = default "" (q_caller row)) /\
    (is_Some (qs_response st) -> q_status row = "completed").
Proof.
  unfold GetA2AQueueStatus in Hrun. case_decide; [done|].
  destruct (authenticateA2AHTTPCaller _ _ _ _ _ _ _ _ _ _ _ _ _ _ _ _) as [s1 [[caller canvas]|code]] eqn:Ea; [|done].
  apply a2a_credential_of in Ea. unfold queueRowAuthFields, QueueStatusByID in Hrun.
  destruct row_fails; [done|]. destruct (canon queueID) as [id|]; [|done]. destruct (qu !! id) as [row|] eqn:Er; [|done].
  destruct (negb canvas && _ && _) eqn:Eacc; [done|]. destruct status_fails; [done|]. simplify_eq.
  exists id, row, caller, canvas. do 5 (split; [done|]). split.
  - intros ->. cbn in Eacc. apply andb_false_iff in Eacc as [E|E]; apply negb_false_iff, bool_decide_eq_true in E; auto.
  - cbn. destruct (decide (q_status row = "completed")); [done|]. by intros [].
Qed.
End Callers.

Module A2ADemo.
Import PayloadDemo AuthDemo.
#[local] Existing Instance plain_cast.

Definition orgs_db : wsdb := WsDb tree (fun _ => false).
Definition oid (m : identity_cache) : list string := (map_to_list m).*1.
Definition nowhere : origin := Origin "" "" "".
Definition who (t : tenant) (claimed : string) (o : origin) (q : request) : a2a_verdict :=
  (authenticateA2AHTTPCaller hash hash det ord "admin" t false calm 0 orgs_db "c" false claimed o q st).2.

(** An org token that names a workspace is taken for a human, not for the workspace. *)
Example org_token_names_none : who ten "a" nowhere (ask "secret-of-b") = inl ("", true).
Proof. vm_compute. reflexivity. Qed.
Example org_token_of_another_org : who ten "" nowhere (ask "secret-of-a") = inr 403.
Proof. vm_compute. reflexivity. Qed.

(** A row of org [a], seen with the token of org [b] through a workspace of [b]. *)
Definition row_of_a : qrow :=
  QRow "a" None PriorityTask legacy None None 0 None (Some 9) None 1 "completed" None (Some (doc (JStr "secret answer"))) None None.
Definition peek : stores * status_reply :=
  GetA2AQueueStatus hash hash det ord "admin" ten false calm 0 orgs_db (fun _ => "") false false [] {["q1" := row_of_a]}
    "c" "q1" "" nowhere (ask "secret-of-b") st.
Definition peeked : queue_status := QueueStatus "q1" "a" "completed" PriorityTask 1 None 0 None (Some 9) None (Some (JStr "secret answer")).
Example status_crosses_orgs : peek.2 = StatusOk peeked.
Proof. vm_compute. reflexivity. Qed.

Lemma queue_status_is_entitled_witness : exists row, ({["q1" := row_of_a]} : queue) !! "q1" = Some row /\ q_status row = "completed".
Proof.
  assert (E : peek = (peek.1, StatusOk peeked)) by (vm_compute; reflexivity).
  destruct (queue_status_is_entitled hash hash det ord "admin" ten false calm 0 orgs_db (fun _ => "") false false []
    {["q1" := row_of_a]} "c" "q1" "" nowhere (ask "secret-of-b") st _ _ E)
    as (id & row & caller & canvas & Hid & Hr & _ & _ & _ & _ & Hc).
  injection Hid as <-. exists row. split; [exact Hr|]. apply Hc. eexists. reflexivity.
Defined.

(** A human of org [b] calls [sec] through the demonstration environment. *)
Definition world : proxy_env := ProxyDemo.world (DoResp 200 ProxyDemo.ok_reply ReadOk) (ModeRow (Some "push")).
Definition call_http : stores * identity_cache * pstate * http_answer :=
  ProxyA2A_http hash hash det ord oid "admin" ten false calm 0 orgs_db pstate
    (serve any_number exact silent ProxyDemo.parse ProxyDemo.no_user ProxyDemo.zero ProxyDemo.no_text "u" " > " ProxyDemo.no_self 
       (fun _ => world) true 0 false "pm") "pm" false "" nowhere (ask "admin") CpUnreachable (BodyRead legacy) st ∅ ProxyDemo.start.
Definition after_call : pstate := call_http.1.2.

Example admin_is_answered : match call_http.2 with HttpReply (Reply 200 (Bytes _)) => True | _ => False end.
Proof. vm_compute. exact I. Qed.

(** The same through the inbound endpoint, with the secret of the row. *)
Definition sealed : secret_store := SecretStore {["pm" := Some "s3cret"]} ∅.
Definition called (rt : a2a_route) (bearer : string) : pstate * http_answer :=
  a2a_call hash hash det ord oid "admin" ten false calm 0 orgs_db any_number exact silent ProxyDemo.parse ProxyDemo.no_user
    ProxyDemo.zero ProxyDemo.no_text "u" " > " ProxyDemo.no_self (fun _ => world) true 0 false "pm" rt nowhere (ask bearer) CpUnreachable
    (BodyRead legacy) st ∅ ProxyDemo.start.
Example wrong_secret_is_refused : called (AtInbound false sealed) "secret-of-a" = (ProxyDemo.start, HttpError 403).
Proof. vm_compute. reflexivity. Qed.

Lemma http_call_is_authorised_witness :
  cached 0 "pm" sealed = Some "s3cret" \/ exists id, @canon plain_cast "pm" = Some id /\ ss_column sealed !! id = Some (Some "s3cret").
Proof.
  assert (Hne : (called (AtInbound false sealed) "s3cret").1 <> ProxyDemo.start).
  { intros E. assert (L : length (dispatches (called (AtInbound false sealed) "s3cret").1) = 1%nat) by (vm_compute; reflexivity).
    rewrite E in L. discriminate. }
  destruct (http_call_is_authorised hash hash det ord oid "admin" ten false calm 0 orgs_db any_number exact silent ProxyDemo.parse
    ProxyDemo.no_user ProxyDemo.zero ProxyDemo.no_text "u" " > " ProxyDemo.no_self (fun _ => world) true 0 false
    "pm" (AtInbound false sealed) nowhere (ask "s3cret") CpUnreachable (BodyRead legacy) st ∅ ProxyDemo.start _ _
    (surjective_pairing _) Hne) as (caller & canvas & b & sent & meth & ((_ & Hs) & _) & _).
  exact Hs.
Defined.
End A2ADemo.
