(* ===== verification/UserTasks.v ===== *)
(** * User tasks

    internal/handlers/user_task_store.go and user_tasks.go: what an agent asks of the
    human, in a table of its own.  A title or detail the binding let through is any text;
    a body that does not bind is [None]. *)

From S2P Require Import Prelude Tree.

Record UserTaskRow := MkTask {
  ut_workspace : string; ut_title : string; ut_detail : option string; ut_status : string;
  ut_created : time; ut_resolved_at : option time; ut_resolved_by : option string
}.
Abbreviation task_table := (gmap string UserTaskRow).

Inductive task_event := TaskRequested (ws id title : string) | TaskResolved (ws id status by_ : string).
Record task_store := TaskStore { ts_tasks : task_table; ts_events : list task_event }.

Inductive task_err := ErrUserTaskNotFound | ErrInvalidUserTaskStatus | ErrTaskDatabase.

Definition task_statuses : list string := ["pending"; "done"; "dismissed"].
Definition validateUserTaskStatusPtr (status : option string) : bool :=
  match status with None => true | Some s => bool_decide (s ∈ task_statuses) end.

Section Store.
Context `{UuidCast}.

Definition with_tasks (t : task_table) (s : task_store) : task_store := TaskStore t (ts_events s).
Definition announce (e : task_event) (s : task_store) : task_store := TaskStore (ts_tasks s) (ts_events s ++ [e]).

(** [known]: the workspaces, for the foreign key; [gen]: the drawn id. *)
Definition CreateTask (fails : bool) (known : gset string) (gen : string) (now : time) (workspaceID title detail : string)
    (s : task_store) : task_store * option string :=
  match fails, canon workspaceID with
  | false, Some ws =>
      if decide (ws ∈ known)
      then (announce (TaskRequested workspaceID gen title)
              (with_tasks (<[gen := MkTask ws title (nullif_empty detail) "pending" now None None]> (ts_tasks s)) s), Some gen)
      else (s, None)
  | _, _ => (s, None)
  end.

(** Newest first. *)
Definition newest (l : list (string * UserTaskRow)) : list (string * UserTaskRow) := take 50 (sort_by (fun kr => - ut_created kr.2) l).
(** [read]: the rows the scan and the iteration get to. *)
Definition ListTasks (fails : bool) (read : string -> bool) (workspaceID : string) (s : task_store) : option (list (string * UserTaskRow)) :=
  match fails, canon workspaceID with
  | false, Some ws => Some (filter (fun kr => read kr.1 = true) (newest (filter (fun kr => ut_workspace kr.2 = ws) (map_to_list (ts_tasks s)))))
  | _, _ => None
  end.

(** A statement on the row [taskID] of [workspaceID], which [ok] lets through; the table,
    and [None], or the error its answer gives. *)
Definition on_row (f : exec_fault) (workspaceID taskID : string) (ok : UserTaskRow -> bool) (u : UserTaskRow -> option UserTaskRow)
    (s : task_store) : task_store * option task_err :=
  match f, canon workspaceID, canon taskID with
  | ExecErr, _, _ | _, None, _ | _, _, None => (s, Some ErrTaskDatabase)
  | _, Some ws, Some id =>
      let hit := match ts_tasks s !! id with Some r => bool_decide (ut_workspace r = ws) && ok r | None => false end in
      let s' := if hit then with_tasks (partial_alter (fun o => o ≫= u) id (ts_tasks s)) s else s in
      match f with
      | RowsAffectedErr => (s', Some ErrTaskDatabase)
      | _ => (s', if hit then None else Some ErrUserTaskNotFound)
      end
  end.

Definition patched (title detail status : option string) (r : UserTaskRow) : UserTaskRow :=
  MkTask (ut_workspace r) (default (ut_title r) title) (coalesce detail (ut_detail r)) (default (ut_status r) status)
    (ut_created r) (ut_resolved_at r) (ut_resolved_by r).

Definition UpdateTask (f : exec_fault) (workspaceID taskID : string) (title detail status : option string) (s : task_store)
    : task_store * option task_err :=
  if negb (validateUserTaskStatusPtr status) then (s, Some ErrInvalidUserTaskStatus)
  else on_row f workspaceID taskID (fun _ => true) (fun r => Some (patched title detail status r)) s.

Definition DeleteTask (f : exec_fault) (workspaceID taskID : string) (s : task_store) : task_store * option task_err :=
  on_row f workspaceID taskID (fun _ => true) (fun _ => None) s.

Definition resolved (now : time) (status by_ : string) (r : UserTaskRow) : UserTaskRow :=
  MkTask (ut_workspace r) (ut_title r) (ut_detail r) status (ut_created r) (Some now) (Some by_).

(** The resolver, or the error. *)
Definition ResolveTask (f : exec_fault) (now : time) (workspaceID taskID status resolvedBy : string) (s : task_store)
    : task_store * (string + task_err) :=
  if negb (bool_decide (status = "done")) && negb (bool_decide (status = "dismissed")) then (s, inr ErrInvalidUserTaskStatus)
  else
    let by_ := if decide (resolvedBy = "") then "human" else resolvedBy in
    match on_row f workspaceID taskID (fun r => bool_decide (ut_status r = "pending")) (fun r => Some (resolved now status by_ r)) s with
    | (s, Some e) => (s, inr e)
    | (s, None) => (announce (TaskResolved workspaceID taskID status by_) s, inl by_)
    end.

(** ** The handlers *)

Definition err_code (e : task_err) : Z :=
  match e with ErrUserTaskNotFound => 404 | ErrInvalidUserTaskStatus => 400 | ErrTaskDatabase => 500 end.

(** The title is required, so an empty one does not bind. *)
Definition PostTask (fails : bool) (known : gset string) (gen : string) (now : time) (workspaceID : string)
    (body : option (string * string)) (s : task_store) : task_store * (string + Z) :=
  match body with
  | None => (s, inr 400)
  | Some (title, detail) =>
      if decide (title = "") then (s, inr 400)
      else match CreateTask fails known gen now workspaceID title detail s with
           | (s, Some id) => (s, inl id)
           | (s, None) => (s, inr 500)
           end
  end.
Definition PostResolve (f : exec_fault) (now : time) (workspaceID taskID : string) (body : option (string * string)) (s : task_store)
    : task_store * Z :=
  match body with
  | None => (s, 400)
  | Some (status, by_) =>
      if decide (status = "") then (s, 400)
      else match ResolveTask f now workspaceID taskID status by_ s with (s, inl _) => (s, 200) | (s, inr e) => (s, err_code e) end
  end.
Definition PatchTask (f : exec_fault) (workspaceID taskID : string) (body : option (option string * option string * option string))
    (s : task_store) : task_store * Z :=
  match body with
  | None => (s, 400)
  | Some (title, detail, status) =>
      match UpdateTask f workspaceID taskID title detail status s with (s, None) => (s, 200) | (s, Some e) => (s, err_code e) end
  end.
Definition RemoveTask (f : exec_fault) (workspaceID taskID : string) (s : task_store) : task_store * Z :=
  match DeleteTask f workspaceID taskID s with (s, None) => (s, 200) | (s, Some e) => (s, err_code e) end.

(** The pending tasks of every workspace there is. *)
Definition ListAllTasks (fails : bool) (read : string -> bool) (names : gmap string string) (s : task_store) : option (list (string * UserTaskRow * string)) :=
  if fails then None
  else Some (omap (fun kr => if read kr.1 then (fun name => (kr, name)) <$> names !! ut_workspace kr.2 else None)
               (newest (filter (fun kr => ut_status kr.2 = "pending" /\ is_Some (names !! ut_workspace kr.2)) (map_to_list (ts_tasks s))))).

(** ** Histories

    The calls, and the removal of a workspace, which takes its tasks along. *)
Inductive task_call :=
| CallCreate (fails : bool) (gen ws title detail : string)
| CallUpdate (f : exec_fault) (ws id : string) (title detail status : option string)
| CallDelete (f : exec_fault) (ws id : string)
| CallResolve (f : exec_fault) (ws id status by_ : string)
| CallPurge (ws : string).

Definition task_step (known : gset string) (now : time) (c : task_call) (s : task_store) : task_store :=
  match c with
  | CallCreate fails gen ws title detail => (CreateTask fails known gen now ws title detail s).1
  | CallUpdate f ws id title detail status => (UpdateTask f ws id title detail status s).1
  | CallDelete f ws id => (DeleteTask f ws id s).1
  | CallResolve f ws id status by_ => (ResolveTask f now ws id status by_ s).1
  | CallPurge ws => with_tasks (filter (fun kr => ut_workspace kr.2 <> ws) (ts_tasks s)) s
  end.

(** A well-typed row: its status is one of the three, and what resolved it is there once
    it has been. *)
Definition task_ok (r : UserTaskRow) : Prop :=
  ut_status r ∈ task_statuses /\ (is_Some (ut_resolved_at r) <-> is_Some (ut_resolved_by r)).

Lemma on_row_frame f ws id ok u s :
  ts_events (on_row f ws id ok u s).1 = ts_events s /\
  forall i, ts_tasks (on_row f ws id ok u s).1 !! i = ts_tasks s !! i \/
    exists r, canon id = Some i /\ ts_tasks s !! i = Some r /\ canon ws = Some (ut_workspace r) /\ ok r = true /\
      ts_tasks (on_row f ws id ok u s).1 !! i = u r.
Proof.
  unfold on_row. destruct f, (canon ws) as [w|], (canon id) as [j|]; cbn; auto.
  all: destruct (ts_tasks s !! j) as [r|] eqn:E; cbn; auto.
  all: destruct (bool_decide (ut_workspace r = w) && ok r) eqn:Eh; cbn; auto.
  all: apply andb_true_iff in Eh as [Hw Hok]; apply bool_decide_eq_true in Hw; split; [done|]; intros i;
    (destruct (decide (i = j)) as [->|Hne];
     [right; exists r; rewrite lookup_partial_alter_eq, E; cbn; split_and!; congruence
     |left; by rewrite lookup_partial_alter_ne]).
Qed.

Definition tasks_ok (s : task_store) : Prop := forall id r, ts_tasks s !! id = Some r -> task_ok r.

Lemma on_row_ok f ws id ok u s :
  (forall r r', task_ok r -> ok r = true -> u r = Some r' -> task_ok r') -> tasks_ok s -> tasks_ok (on_row f ws id ok u s).1.
Proof.
  intros Hu Hs i r Hi. destruct (on_row_frame f ws id ok u s) as [_ Hf].
  destruct (Hf i) as [E|(r0 & _ & H0 & _ & Hok & E)]; rewrite E in Hi; [by eapply Hs|]. eapply Hu; [by eapply Hs|done|done].
Qed.

Lemma task_step_ok known now c s : tasks_ok s -> tasks_ok (task_step known now c s).
Proof.
  intros Hs. destruct c as [fails gen ws title detail|f ws id title detail status|f ws id|f ws id status by_|ws]; cbn.
  - unfold CreateTask. destruct fails, (canon ws); try done. case_decide; [|done]. intros i r. cbn.
    intros [[<- <-]|[_ Hi]]%lookup_insert_Some; [|by eapply Hs]. split; cbn; [set_solver|split; intros []; done].
  - unfold UpdateTask. destruct (validateUserTaskStatusPtr status) eqn:E; [|done]. apply on_row_ok; [|done].
    intros r r' [H1 H2] _ [= <-]. split; [|done]. cbn. destruct status; cbn in *; [by apply bool_decide_eq_true in E|done].
  - apply on_row_ok; [done|done].
  - unfold ResolveTask. destruct (negb _ && negb _) eqn:E; [done|].
    match goal with |- context [on_row f ws id ?ok ?u s] => assert (R : tasks_ok (on_row f ws id ok u s).1) end.
    { apply on_row_ok; [|done]. intros r r' [H1 H2] _ [= <-]. split; cbn; [|by split].
      apply andb_false_iff in E as [E|E]; apply negb_false_iff, bool_decide_eq_true in E; subst; set_solver. }
    match goal with |- context [on_row f ws id ?ok ?u s] => destruct (on_row f ws id ok u s) as [s' [e|]] end; exact R.
  - intros i r [Hi _]%map_lookup_filter_Some. by eapply Hs.
Qed.

(** The table over any history of calls, each at its time: a task is of one of the three
    statuses, names who resolved it if it was, and belongs for ever to the workspace
    that raised it. *)
Theorem user_tasks_well_typed known (calls : list (time * task_call)) s :
  tasks_ok s -> tasks_ok (foldl (fun s c => task_step known c.1 c.2 s) s calls).
Proof. revert s. induction calls as [|[now c] calls IH]; intros s Hs; [done|]. cbn. apply IH. by apply task_step_ok. Qed.

(** The workspace a call is made for. *)
Definition call_workspace (c : task_call) : string :=
  match c with CallCreate _ _ ws _ _ | CallUpdate _ ws _ _ _ _ | CallDelete _ ws _ | CallResolve _ ws _ _ _ | CallPurge ws => ws end.

(** A workspace touches its own tasks only.  A call for a workspace leaves every task
    of another one, and every event, as it was, whatever id it names; so nobody edits,
    resolves or deletes what another workspace asked. *)
Theorem calls_stay_in_their_workspace known now c s id r
    (Hrow : ts_tasks s !! id = Some r)
    (Hother : canon (call_workspace c) <> Some (ut_workspace r)) (Hpurge : call_workspace c <> ut_workspace r)
    (Hfresh : match c with CallCreate _ gen _ _ _ => gen <> id | _ => True end) :
  ts_tasks (task_step known now c s) !! id = Some r.
Proof.
  assert (Frame : forall f ws i ok u, canon ws <> Some (ut_workspace r) -> ts_tasks (on_row f ws i ok u s).1 !! id = Some r).
  { intros f ws i ok u Hne. destruct (on_row_frame f ws i ok u s) as [_ Hf].
    destruct (Hf id) as [E|(r0 & _ & H0 & Hw & _)]; [congruence|]. rewrite Hrow in H0. injection H0 as <-. by destruct Hne. }
  destruct c as [fails gen ws title detail|f ws i title detail status|f ws i|f ws i status by_|ws]; cbn in *.
  - unfold CreateTask. destruct fails, (canon ws); try done. case_decide; [|done]. cbn. by rewrite lookup_insert_ne.
  - unfold UpdateTask. destruct (negb _); [done|]. by apply Frame.
  - by apply Frame.
  - unfold ResolveTask. destruct (_ && _); [done|].
    match goal with |- context [on_row f ws i ?ok ?u s] => assert (R := Frame f ws i ok u Hother); destruct (on_row f ws i ok u s) as [s' [e|]] end;
      exact R.
  - apply map_lookup_filter_Some. split; [done|]. cbn. congruence.
Qed.

(** A task is resolved at most once as long as nobody sets its status by hand. *)
Lemma resolve_once f f' now now' ws id st st' b b' s s1 s2 by1 r2 :
  ResolveTask f now ws id st b s = (s1, inl by1) -> ResolveTask f' now' ws id st' b' s1 = (s2, r2) -> forall by2, r2 <> inl by2.
Proof.
  unfold ResolveTask. destruct (negb (bool_decide (st = "done")) && _) eqn:Est; [done|].
  assert (Hst : st <> "pending").
  { apply andb_false_iff in Est as [E|E]; apply negb_false_iff, bool_decide_eq_true in E; by subst. }
  destruct (negb (bool_decide (st' = "done")) && _); [by intros _ [= <- <-]|].
  unfold on_row. destruct f; try done; destruct (canon ws) as [w|]; try done; destruct (canon id) as [i|]; try done.
  destruct (ts_tasks s !! i) as [r|] eqn:Er; cbn; [|done]. destruct (bool_decide (ut_workspace r = w) && _); cbn; [|done].
  intros [= <- <-]. cbn. rewrite lookup_partial_alter_eq, Er. cbn. rewrite (bool_decide_false (st = "pending")) by done.
  rewrite andb_false_r. cbn. destruct f'; intros [= <- <-]; done.
Qed.
End Store.

Module TaskDemo.
#[local] Existing Instance plain_cast.
Definition empty : task_store := TaskStore ∅ [].
Definition raised : task_store := (CreateTask false {["w"]} "t1" 1 "w" "review" "" empty).1.
Definition settled : task_store := (ResolveTask ExecOk 2 "w" "t1" "done" "" raised).1.

Example human_by_default : ts_tasks settled !! "t1" = Some (MkTask "w" "review" None "done" 1 (Some 2) (Some "human")).
Proof. vm_compute. reflexivity. Qed.

(** An edit of the status reopens a task that still says who resolved it, or closes one
    that nobody did, without an event. *)
Example reopened_task_stays_resolved :
  ts_tasks (UpdateTask ExecOk "w" "t1" None None (Some "pending") settled).1 !! "t1" =
    Some (MkTask "w" "review" None "pending" 1 (Some 2) (Some "human")) /\
  ts_tasks (UpdateTask ExecOk "w" "t1" None None (Some "done") raised).1 !! "t1" = Some (MkTask "w" "review" None "done" 1 None None) /\
  ts_events (UpdateTask ExecOk "w" "t1" None None (Some "done") raised).1 = ts_events raised.
Proof. vm_compute. auto. Qed.

(** The detail of a task cannot be taken away. *)
Example detail_is_not_cleared :
  ut_detail <$> ts_tasks (UpdateTask ExecOk "w" "t1" None None None (CreateTask false {["w"]} "t1" 1 "w" "t" "d" empty).1).1 !! "t1" =
  Some (Some "d").
Proof. vm_compute. reflexivity. Qed.

Lemma calls_stay_in_their_workspace_witness :
  ts_tasks (task_step {["w"; "v"]} 3 (CallDelete ExecOk "v" "t1") settled) !! "t1" = Some (MkTask "w" "review" None "done" 1 (Some 2) (Some "human")).
Proof.
  assert (E : ts_tasks settled !! "t1" = Some (MkTask "w" "review" None "done" 1 (Some 2) (Some "human"))) by (vm_compute; reflexivity).
  assert (N : call_workspace (CallDelete ExecOk "v" "t1") <> "w") by (vm_compute; discriminate).
  assert (M : canon (call_workspace (CallDelete ExecOk "v" "t1")) <> Some "w") by (vm_compute; discriminate).
  exact (calls_stay_in_their_workspace {["w"; "v"]} 3 (CallDelete ExecOk "v" "t1") settled "t1" _ E M N I).
Defined.
End TaskDemo.
