(* ===== verification/PendingUploads.v ===== *)
(** * Files that wait for their workspace

    internal/pendinguploads (storage.go, sweeper.go) and the two routes of
    internal/handlers/pending_uploads.go: a file sent to a workspace that polls is a row,
    fetched and acknowledged by the workspace, and swept in the end. *)

From S2P Require Import Prelude Tree.

Definition MaxFileBytes : Z := 100 * 1024 * 1024.
Definition DefaultAckRetention : time := Hour.
Definition hard_ttl : time := 24 * Hour.

Record upload := Upload {
  up_workspace : string; up_content : string; up_filename : string; up_mimetype : string;
  up_created : time; up_fetched : option time; up_acked : option time; up_expires : time
}.
Abbreviation uploads := (gmap string upload).

Record put_item := PutItem { pi_content : string; pi_filename : string; pi_mimetype : string }.
Inductive put_err := EmptyContent | ErrTooLarge | EmptyFilename | LongFilename | PutFailed.

(** What Put and the batches check first; the length of the name is in bytes. *)
Definition put_check (it : put_item) : option put_err :=
  if decide (pi_content it = "") then Some EmptyContent
  else if MaxFileBytes <? Z.of_nat (String.length (pi_content it)) then Some ErrTooLarge
  else if decide (pi_filename it = "") then Some EmptyFilename
  else if (100 <? String.length (pi_filename it))%nat then Some LongFilename else None.

Definition new_upload (now : time) (ws : string) (it : put_item) : upload :=
  Upload ws (pi_content it) (pi_filename it) (pi_mimetype it) now None None (now + hard_ttl).

Definition Put (fails : bool) (gen : string) (now : time) (ws : string) (it : put_item) (t : uploads) : uploads * (string + put_err) :=
  match put_check it with
  | Some e => (t, inr e)
  | None => if fails then (t, inr PutFailed) else (<[gen := new_upload now ws it]> t, inl gen)
  end.

(** The first error of the items. *)
Fixpoint validatePutBatchItems (items : list put_item) : option put_err :=
  match items with
  | [] => None
  | it :: rest => match put_check it with Some e => Some e | None => validatePutBatchItems rest end
  end.

(** The rows as the transaction sees them; [fails] and [gen] by place. *)
Fixpoint putBatchInsertRows (fails : nat -> bool) (gen : nat -> string) (i : nat) (now : time) (ws : string) (items : list put_item)
    (t : uploads) : option (uploads * list string) :=
  match items with
  | [] => Some (t, [])
  | it :: rest =>
      if fails i then None
      else match putBatchInsertRows fails gen (S i) now ws rest (<[gen i := new_upload now ws it]> t) with
           | Some (t', ids) => Some (t', gen i :: ids)
           | None => None
           end
  end.

(** In a transaction of the caller's: [None] is an error, and the caller rolls back. *)
Definition PutBatchTx (fails : nat -> bool) (gen : nat -> string) (now : time) (ws : string) (items : list put_item) (t : uploads)
    : option (uploads * list string) :=
  match items with
  | [] => Some (t, [])
  | _ => match validatePutBatchItems items with Some _ => None | None => putBatchInsertRows fails gen 0 now ws items t end
  end.
Definition PutBatch (begin_fails commit_fails : bool) (fails : nat -> bool) (gen : nat -> string) (now : time) (ws : string)
    (items : list put_item) (t : uploads) : uploads * option (list string) :=
  match items with
  | [] => (t, Some [])
  | _ =>
      match validatePutBatchItems items with
      | Some _ => (t, None)
      | None =>
          if begin_fails then (t, None)
          else match putBatchInsertRows fails gen 0 now ws items t with
               | Some (t', ids) => if commit_fails then (t, None) else (t', Some ids)
               | None => (t, None)
               end
      end
  end.

Definition fresh (now : time) (u : upload) : bool := now <? up_expires u.

Inductive upload_err := UploadNotFound | UploadFailed.

Definition Get (fails : bool) (now : time) (id : string) (t : uploads) : upload + upload_err :=
  if fails then inr UploadFailed
  else match t !! id with
       | Some u => if fresh now u then inl u else inr UploadNotFound
       | None => inr UploadNotFound
       end.

Definition set_fetched (now : time) (u : upload) : upload :=
  Upload (up_workspace u) (up_content u) (up_filename u) (up_mimetype u) (up_created u) (Some now) (up_acked u) (up_expires u).
Definition set_acked (now : time) (u : upload) : upload :=
  Upload (up_workspace u) (up_content u) (up_filename u) (up_mimetype u) (up_created u) (up_fetched u) (Some now) (up_expires u).

(** The row an UPDATE meets. *)
Definition meets (ok : upload -> bool) (id : string) (t : uploads) : bool := match t !! id with Some u => ok u | None => false end.

Definition MarkFetched (f : exec_fault) (now : time) (id : string) (t : uploads) : uploads * option upload_err :=
  match f with
  | ExecErr => (t, Some UploadFailed)
  | _ =>
      let hit := meets (fresh now) id t in
      let t' := if hit then alter (set_fetched now) id t else t in
      match f with
      | RowsAffectedErr => (t', Some UploadFailed)
      | _ => (t', if hit then None else Some UploadNotFound)
      end
  end.

Definition unacked (u : upload) : bool := bool_decide (up_acked u = None).

(** [race]: what happens to the table between the UPDATE and the second look. *)
Definition Ack (f : exec_fault) (reread_fails : bool) (race : uploads -> uploads) (now : time) (id : string) (t : uploads)
    : uploads * option upload_err :=
  match f with
  | ExecErr => (t, Some UploadFailed)
  | _ =>
      let hit := meets (fun u => unacked u && fresh now u) id t in
      let t' := if hit then alter (set_acked now) id t else t in
      match f with
      | RowsAffectedErr => (t', Some UploadFailed)
      | _ =>
          if hit then (t', None)
          else let t' := race t' in
               if reread_fails then (t', Some UploadFailed)
               else (t', if meets (fresh now) id t' then None else Some UploadNotFound)
      end
  end.

(** The retention is cut to whole seconds; a float64 keeps the fraction of one below
    about three months. *)
Definition retention (ackRetention : time) : time := Z.quot (Z.max ackRetention 0) Second * Second.
Definition sweepable (now r : time) (u : upload) : bool :=
  match up_acked u with Some a => a <? now - r | None => up_expires u <? now end.

(** The table, and how many rows went that were acked and that were not. *)
Definition Sweep (fails : bool) (now ackRetention : time) (t : uploads) : uploads * option (nat * nat) :=
  if fails then (t, None)
  else
    let gone := filter (fun kr => sweepable now (retention ackRetention) kr.2 = true) t in
    (filter (fun kr => sweepable now (retention ackRetention) kr.2 = false) t,
     Some (size (filter (fun kr => unacked kr.2 = false) gone), size (filter (fun kr => unacked kr.2 = true) gone))).

(** The retention the sweeper runs with. *)
Definition sweeper_retention (configured : time) : time := if configured =? 0 then DefaultAckRetention else configured.
Definition sweepOnce (fails : bool) (now configured : time) (t : uploads) : uploads :=
  fst (Sweep fails now (sweeper_retention configured) t).

(** ** The routes *)

Section Routes.
Context `{UuidCast}.

Inductive content_reply := Content (mimetype content : string) | ContentErr (code : Z).

(** The row's workspace is compared as text with the path.  A connection cut while the
    bytes are written skips the stamp, as a failed statement does. *)
Definition GetContent (fails : bool) (f : exec_fault) (now : time) (workspaceID fileID : string) (t : uploads) : uploads * content_reply :=
  match canon workspaceID, canon fileID with
  | None, _ | _, None => (t, ContentErr 400)
  | Some _, Some id =>
      match Get fails now id t with
      | inr UploadNotFound => (t, ContentErr 404)
      | inr UploadFailed => (t, ContentErr 500)
      | inl u =>
          if decide (up_workspace u = workspaceID)
          then (fst (MarkFetched f now id t),
                Content (if decide (up_mimetype u = "") then "application/octet-stream" else up_mimetype u) (up_content u))
          else (t, ContentErr 404)
      end
  end.

Inductive ack_reply := Acked (raced : bool) | AckErr (code : Z).

(** [race0]: what happens between the look and the statement. *)
Definition PostAck (fails : bool) (f : exec_fault) (reread_fails : bool) (race0 race : uploads -> uploads) (now : time)
    (workspaceID fileID : string) (t : uploads) : uploads * ack_reply :=
  match canon workspaceID, canon fileID with
  | None, _ | _, None => (t, AckErr 400)
  | Some _, Some id =>
      match Get fails now id t with
      | inr UploadNotFound => (t, AckErr 404)
      | inr UploadFailed => (t, AckErr 500)
      | inl u =>
          if decide (up_workspace u = workspaceID)
          then match Ack f reread_fails race now id (race0 t) with
               | (t, None) => (t, Acked false)
               | (t, Some UploadNotFound) => (t, Acked true)
               | (t, Some UploadFailed) => (t, AckErr 500)
               end
          else (t, AckErr 404)
      end
  end.
End Routes.

(** ** Histories *)

Inductive upload_op :=
| OpPut (fails : bool) (gen ws : string) (it : put_item)
| OpPutBatch (begin_fails commit_fails : bool) (fails : nat -> bool) (gen : nat -> string) (ws : string) (items : list put_item)
| OpFetch (f : exec_fault) (id : string)
| OpAck (f : exec_fault) (reread_fails : bool) (id : string)
| OpSweep (fails : bool) (ackRetention : time).

Definition upload_step (now : time) (op : upload_op) (t : uploads) : uploads :=
  match op with
  | OpPut fails gen ws it => fst (Put fails gen now ws it t)
  | OpPutBatch bf cf fails gen ws items => fst (PutBatch bf cf fails gen now ws items t)
  | OpFetch f id => fst (MarkFetched f now id t)
  | OpAck f rf id => fst (Ack f rf (fun t => t) now id t)
  | OpSweep fails r => fst (Sweep fails now r t)
  end.
Definition upload_history (ops : list (time * upload_op)) (t : uploads) : uploads := foldl (fun t op => upload_step op.1 op.2 t) t ops.

(** A row lives a day from its creation, and is acknowledged before the day is over. *)
Definition upload_ok (u : upload) : Prop :=
  up_expires u = up_created u + hard_ttl /\ (forall a, up_acked u = Some a -> a < up_expires u).
Definition uploads_ok (t : uploads) : Prop := forall id u, t !! id = Some u -> upload_ok u.

Lemma new_upload_ok now ws it : upload_ok (new_upload now ws it).
Proof. by split. Qed.

Lemma uploads_ok_insert id u t : upload_ok u -> uploads_ok t -> uploads_ok (<[id := u]> t).
Proof. intros Hu Ht i v [[_ <-]|[_ Hi]]%lookup_insert_Some; [done|by eapply Ht]. Qed.

Lemma batch_ok fails gen ws now items : forall i t t' ids,
  uploads_ok t -> putBatchInsertRows fails gen i now ws items t = Some (t', ids) -> uploads_ok t'.
Proof.
  induction items as [|it items IH]; intros i t t' ids Ht; cbn; [by intros [= <- _]|].
  destruct (fails i); [done|]. destruct (putBatchInsertRows _ _ _ _ _ _ _) as [[t1 l]|] eqn:E; [|done].
  intros [= <- _]. eapply IH; [|exact E]. apply uploads_ok_insert; [apply new_upload_ok|done].
Qed.

Lemma alter_ok g id t :
  (forall u, t !! id = Some u -> upload_ok u -> upload_ok (g u)) -> uploads_ok t -> uploads_ok (alter g id t).
Proof.
  intros Hg Ht i u Hi. destruct (decide (i = id)) as [->|Hne].
  - rewrite lookup_alter_eq in Hi. destruct (t !! id) as [v|] eqn:E; [|done]. injection Hi as <-. apply Hg; [done|by eapply Ht].
  - rewrite lookup_alter_ne in Hi by done. by eapply Ht.
Qed.

Lemma meets_true ok id t : meets ok id t = true -> exists u, t !! id = Some u /\ ok u = true.
Proof. unfold meets. destruct (t !! id); [eauto|done]. Qed.

Lemma MarkFetched_ok f now id t : uploads_ok t -> uploads_ok (MarkFetched f now id t).1.
Proof.
  intros Ht. assert (A : uploads_ok (if meets (fresh now) id t then alter (set_fetched now) id t else t)).
  { destruct (meets _ _ _); [|done]. apply alter_ok; [|done]. by intros u _. }
  unfold MarkFetched. destruct f; done.
Qed.

Lemma Ack_ok f rf now id t : uploads_ok t -> uploads_ok (Ack f rf (fun t => t) now id t).1.
Proof.
  intros Ht. set (hit := meets (fun u => unacked u && fresh now u) id t).
  assert (A : uploads_ok (if hit then alter (set_acked now) id t else t)).
  { subst hit. destruct (meets _ id t) eqn:E; [|done]. apply meets_true in E as (u & Hu & Hf). apply alter_ok; [|done].
    intros v Hv [H1 H2]. rewrite Hu in Hv. injection Hv as <-. split; [done|]. cbn. intros a [= <-].
    apply andb_true_iff in Hf as [_ Hf]. unfold fresh in Hf. lia. }
  unfold Ack. fold hit. destruct f; [|done|done]. destruct hit; [done|]. by destruct rf.
Qed.

Lemma upload_step_ok now op t : uploads_ok t -> uploads_ok (upload_step now op t).
Proof.
  intros Ht. destruct op as [fails gen ws it|bf cf fails gen ws items|f id|f rf id|fails r]; cbn.
  - unfold Put. destruct (put_check it); [done|]. destruct fails; [done|]. apply uploads_ok_insert; [apply new_upload_ok|done].
  - unfold PutBatch. destruct items as [|it items]; [done|]. destruct (validatePutBatchItems _); [done|]. destruct bf; [done|].
    destruct (putBatchInsertRows _ _ _ _ _ _ _) as [[t' ids]|] eqn:E; [|done]. destruct cf; [done|]. by eapply batch_ok.
  - by apply MarkFetched_ok.
  - by apply Ack_ok.
  - unfold Sweep. destruct fails; [done|]. intros i u [Hi _]%map_lookup_filter_Some. by eapply Ht.
Qed.

Lemma upload_history_ok ops t : uploads_ok t -> uploads_ok (upload_history ops t).
Proof. revert t. induction ops as [|[now op] ops IH]; intros t Ht; [done|]. cbn. apply IH. by apply upload_step_ok. Qed.

(** C27: How long a file is kept.  After any history, a sweep that goes through leaves
    exactly the rows that are due longer - unacknowledged and not expired, or
    acknowledged within the retention -, unchanged, and counts the ones it takes; so
    nothing is older than a day and the retention, and nothing is taken that the
    workspace may still fetch and has not acknowledged. *)
Theorem uploads_are_swept_in_time ops now r t counts
    (Hrun : Sweep false now r (upload_history ops ∅) = (t, Some counts)) :
  (forall id u, t !! id = Some u <-> upload_history ops ∅ !! id = Some u /\
     match up_acked u with Some a => now <= a + retention r | None => now <= up_expires u end) /\
  (size t + counts.1 + counts.2 = size (upload_history ops ∅))%nat /\
  (forall id u, t !! id = Some u -> now <= up_created u + hard_ttl + retention r).
Proof.
  assert (Hok : uploads_ok (upload_history ops ∅)) by (by apply upload_history_ok).
  set (t0 := upload_history ops ∅) in *. clearbody t0. unfold Sweep in Hrun. injection Hrun as <- <-. cbn.
  assert (Hkeep : forall u, sweepable now (retention r) u = false <->
     match up_acked u with Some a => now <= a + retention r | None => now <= up_expires u end).
  { intros u. unfold sweepable. destruct (up_acked u); rewrite Z.ltb_ge; lia. }
  assert (H1 : forall id u, filter (fun kr => sweepable now (retention r) kr.2 = false) t0 !! id = Some u <-> t0 !! id = Some u /\
     match up_acked u with Some a => now <= a + retention r | None => now <= up_expires u end).
  { intros id u. rewrite map_lookup_filter_Some. cbn. by rewrite Hkeep. }
  assert (Hsplit : forall (P : upload -> bool) (m : uploads),
     (size (filter (fun kr => P kr.2 = false) m) + size (filter (fun kr => P kr.2 = true) m) = size m)%nat).
  { intros P m. rewrite <- (map_filter_union_complement (fun kr => P kr.2 = false) m) at 3.
    rewrite map_size_disj_union by apply map_disjoint_filter_complement. f_equal. f_equal. apply map_filter_ext.
    intros i x _. cbn. by rewrite not_false_iff_true. }
  split_and!; [done| |].
  - pose proof (Hsplit (sweepable now (retention r)) t0) as S1.
    pose proof (Hsplit unacked (filter (fun kr => sweepable now (retention r) kr.2 = true) t0)) as S2. lia.
  - intros id u Hu. apply H1 in Hu as [Hu Hd]. destruct (Hok _ _ Hu) as [He Ha].
    assert (0 <= retention r).
    { unfold retention. assert (0 <= Z.quot (Z.max r 0) Second) by (apply Z.quot_pos; unfold Second; lia). unfold Second in *. lia. }
    destruct (up_acked u) as [a|]; [specialize (Ha a eq_refl); lia|lia].
Qed.

(** An acknowledgement keeps its first time, whatever follows, as long as the row is there. *)
Lemma ack_is_kept now op t id u a :
  t !! id = Some u -> up_acked u = Some a ->
  match op with OpPut _ gen _ _ => gen <> id | OpPutBatch _ _ _ gen _ _ => forall i, gen i <> id | _ => True end ->
  forall u', upload_step now op t !! id = Some u' -> up_acked u' = Some a /\ up_content u' = up_content u.
Proof.
  intros Hu Ha Hgen u'. assert (Keep : t !! id = Some u' -> up_acked u' = Some a /\ up_content u' = up_content u) by (intros; by simplify_eq).
  destruct op as [fails gen ws it|bf cf fails gen ws items|f i|f rf i|fails r]; cbn in *.
  - unfold Put. destruct (put_check it); [done|]. destruct fails; [done|]. cbn. by rewrite lookup_insert_ne.
  - unfold PutBatch. destruct items as [|it items]; [done|]. destruct (validatePutBatchItems _); [done|]. destruct bf; [done|].
    assert (B : forall l k m m' ids, m !! id = t !! id -> putBatchInsertRows fails gen k now ws l m = Some (m', ids) -> m' !! id = t !! id).
    { induction l as [|it' l IH]; intros k m m' ids Hm; cbn; [by intros [= <- _]|]. destruct (fails k); [done|].
      destruct (putBatchInsertRows _ _ _ _ _ _ _) as [[m1 ids1]|] eqn:E; [|done]. intros [= <- _].
      eapply IH; [|exact E]. by rewrite lookup_insert_ne. }
    destruct (putBatchInsertRows _ _ _ _ _ _ _) as [[t' ids]|] eqn:E; [|done]. destruct cf; [done|]. cbn. by rewrite (B _ _ _ _ _ eq_refl E).
  - assert (A : forall t', t' = (if meets (fresh now) i t then alter (set_fetched now) i t else t) -> t' !! id = Some u' ->
      up_acked u' = Some a /\ up_content u' = up_content u).
    { intros t' ->. destruct (meets _ _ _); [|done]. destruct (decide (i = id)) as [->|Hne].
      - rewrite lookup_alter_eq, Hu. cbn. by intros [= <-].
      - by rewrite lookup_alter_ne. }
    unfold MarkFetched. destruct f; [by apply A|done|by apply A].
  - assert (A : forall t', t' = (if meets (fun u => unacked u && fresh now u) i t then alter (set_acked now) i t else t) -> t' !! id = Some u' ->
      up_acked u' = Some a /\ up_content u' = up_content u).
    { intros t' ->. destruct (meets _ i t) eqn:E; [|done]. destruct (decide (i = id)) as [->|Hne].
      - apply meets_true in E as (v & Hv & Hn). simplify_eq. unfold unacked in Hn. by rewrite Ha in Hn.
      - by rewrite lookup_alter_ne. }
    unfold Ack. destruct f; [|done|by apply A]. specialize (A _ eq_refl). destruct (meets _ i t); [done|]. by destruct rf.
  - unfold Sweep. destruct fails; [done|]. cbn. intros [Hu' _]%map_lookup_filter_Some. by apply Keep.
Qed.

(** A file is handed only to the workspace it was sent to. *)
Lemma content_of_its_workspace `{UuidCast} fails f now ws id t t' mime content :
  GetContent fails f now ws id t = (t', Content mime content) ->
  exists i u, canon id = Some i /\ t !! i = Some u /\ up_workspace u = ws /\ up_content u = content /\ now < up_expires u.
Proof.
  unfold GetContent. destruct (canon ws); [|done]. destruct (canon id) as [i|]; [|done].
  unfold Get. destruct fails; [done|]. destruct (t !! i) as [u|] eqn:E; [|done]. destruct (fresh now u) eqn:Ef; [|done].
  case_decide; [|done]. intros [= _ _ <-]. exists i, u. unfold fresh in Ef. split_and!; auto. lia.
Qed.

(** A batch is stored whole or not at all. *)
Lemma batch_is_atomic bf cf fails gen now ws items t :
  match PutBatch bf cf fails gen now ws items t with
  | (t', None) => t' = t
  | (t', Some ids) => ids = gen <$> seq 0 (length items) /\ forall id, id ∉ ids -> t' !! id = t !! id
  end.
Proof.
  assert (B : forall l k m m' ids, putBatchInsertRows fails gen k now ws l m = Some (m', ids) ->
     ids = gen <$> seq k (length l) /\ forall id, id ∉ ids -> m' !! id = m !! id).
  { induction l as [|it' l IH]; intros k m m' ids; cbn; [by intros [= <- <-]|]. destruct (fails k); [done|].
    destruct (putBatchInsertRows _ _ _ _ _ _ _) as [[m1 ids1]|] eqn:E; [|done]. intros [= <- <-].
    destruct (IH _ _ _ _ E) as [-> Hk]. split; [done|]. intros id [Hne Hn]%not_elem_of_cons. rewrite Hk by done.
    by rewrite lookup_insert_ne. }
  unfold PutBatch. destruct items as [|it items]; [done|]. destruct (validatePutBatchItems _); [done|]. destruct bf; [done|].
  destruct (putBatchInsertRows _ _ _ _ _ _ _) as [[t' ids]|] eqn:E; [|done]. destruct cf; [done|]. by eapply B.
Qed.

Module UploadDemo.
#[local] Existing Instance plain_cast.
Definition file : put_item := PutItem "bytes" "a.txt" "".
Definition day : list (time * upload_op) := [(0, OpPut false "f1" "w" file); (23 * Hour + 30 * Minute, OpAck ExecOk false "f1")].

(** An acknowledged file is still served, and outlives its day by the retention. *)
Example acked_file_is_served :
  (GetContent false ExecOk (24 * Hour - 1) "w" "f1" (upload_history day ∅)).2 = Content "application/octet-stream" "bytes" /\
  is_Some ((Sweep false (24 * Hour + 1) DefaultAckRetention (upload_history day ∅)).1 !! "f1").
Proof. split; [vm_compute; reflexivity|]. vm_compute. eexists. reflexivity. Qed.

(** A retention under a second is none. *)
Example short_retention_is_none : retention (Second - 1) = 0.
Proof. reflexivity. Qed.

Lemma uploads_are_swept_in_time_witness : exists u, (Sweep false (24 * Hour) DefaultAckRetention (upload_history day ∅)).1 !! "f1" = Some u /\
  24 * Hour <= up_created u + hard_ttl + retention DefaultAckRetention.
Proof.
  assert (E : Sweep false (24 * Hour) DefaultAckRetention (upload_history day ∅) =
    ((Sweep false (24 * Hour) DefaultAckRetention (upload_history day ∅)).1, Some (0%nat, 0%nat))) by (vm_compute; reflexivity).
  destruct (uploads_are_swept_in_time day (24 * Hour) DefaultAckRetention _ _ E) as (_ & _ & H).
  assert (S : is_Some ((Sweep false (24 * Hour) DefaultAckRetention (upload_history day ∅)).1 !! "f1")) by (vm_compute; eauto).
  destruct S as [u Hu]. exists u. split; [exact Hu|exact (H "f1" u Hu)].
Defined.
End UploadDemo.
