(* ===== verification/InstanceReconcile.v ===== *)
(** * Instances that are gone

    internal/registry/cp_instance_reconciler.go: one pass over the online workspaces that
    have an instance, asking the control plane about each.  Other writers act between
    the list and each second look. *)

From S2P Require Import Prelude.

Record instance_row := InstanceRow { ir_status : string; ir_instance : option string; ir_runtime : option string; ir_updated : time }.
Abbreviation instances := (gmap string instance_row).

Definition CPInstanceReconcileLimit : nat := 200.

Definition up (status : string) : bool := bool_decide (status = "online") || bool_decide (status = "degraded").
Definition in_scope (r : instance_row) : bool :=
  up (ir_status r) && bool_decide (is_Some (ir_instance r)) && negb (bool_decide (ir_instance r = Some "")) &&
  negb (bool_decide (default "" (ir_runtime r) = "external")).

(** The list: the newest first, each with its instance. *)
Definition listed (t : instances) : list (string * instance_row) :=
  take CPInstanceReconcileLimit (sort_by (fun kr => - ir_updated kr.2) (filter (fun kr => in_scope kr.2 = true) (map_to_list t))).

Record reconcile_env := ReconcileEnv {
  rc_query_fails : bool;
  rc_scan_fails : string -> bool;
  rc_rows_err : bool;
  rc_deadline : nat -> bool;                 (* over before the candidate at this place *)
  rc_running : string -> bool + unit;        (* IsRunning; [inr] is an error *)
  rc_reread_fails : string -> bool;
  rc_later : nat -> instances                (* the table at the second look *)
}.

Definition candidates (e : reconcile_env) (t : instances) : list (string * string) :=
  if rc_query_fails e then []
  else
    let rows := filter (fun kr => rc_scan_fails e kr.1 = false) (listed t) in
    if rc_rows_err e then [] else map (fun kr => (kr.1, default "" (ir_instance kr.2))) rows.

Definition reconfirmStillOfflineCandidate (e : reconcile_env) (i : nat) (c : string * string) : bool :=
  if rc_reread_fails e c.1 then false
  else match rc_later e i !! c.1 with
       | None => false
       | Some r => up (ir_status r) && negb (bool_decide (default "" (ir_instance r) = "")) && bool_decide (default "" (ir_instance r) = c.2)
       end.

(** The workspaces onOffline is called for. *)
Fixpoint reconcile_loop (e : reconcile_env) (i : nat) (cs : list (string * string)) : list string :=
  match cs with
  | [] => []
  | c :: rest =>
      if rc_deadline e i then []
      else match rc_running e c.1 with
           | inr _ | inl true => reconcile_loop e (S i) rest
           | inl false => if reconfirmStillOfflineCandidate e i c then c.1 :: reconcile_loop e (S i) rest
                          else reconcile_loop e (S i) rest
           end
  end.
Definition reconcileOnce (e : reconcile_env) (t : instances) : list string := reconcile_loop e 0 (candidates e t).

Lemma reconcile_loop_elem e cs id : forall i, id ∈ reconcile_loop e i cs ->
  exists j inst, (i <= j)%nat /\ cs !! (j - i)%nat = Some (id, inst) /\ rc_deadline e j = false /\ rc_running e id = inl false /\
    reconfirmStillOfflineCandidate e j (id, inst) = true.
Proof.
  induction cs as [|c cs IH]; intros i; cbn; [intros Hn; by apply elem_of_nil in Hn|].
  destruct (rc_deadline e i) eqn:Ed; [intros Hn; by apply elem_of_nil in Hn|].
  assert (Step : id ∈ reconcile_loop e (S i) cs -> exists j inst, (i <= j)%nat /\ (c :: cs) !! (j - i)%nat = Some (id, inst) /\
      rc_deadline e j = false /\ rc_running e id = inl false /\ reconfirmStillOfflineCandidate e j (id, inst) = true).
  { intros Hin. destruct (IH _ Hin) as (j & inst & Hj & Hc & H). exists j, inst. split; [lia|].
    replace (j - i)%nat with (S (j - S i)) by lia. done. }
  destruct (rc_running e c.1) as [[]|] eqn:Er; [exact Step| |exact Step].
  destruct (reconfirmStillOfflineCandidate e i c) eqn:Ec; [|exact Step].
  intros [->|Hin]%elem_of_cons; [|by apply Step]. destruct c as [id inst]. exists i, inst. rewrite Nat.sub_diag. cbn in *. auto.
Qed.

Lemma candidates_scope e t id inst : (id, inst) ∈ candidates e t ->
  exists r, t !! id = Some r /\ up (ir_status r) = true /\ ir_instance r = Some inst /\ inst <> "" /\ ir_runtime r <> Some "external".
Proof.
  unfold candidates. destruct (rc_query_fails e); [intros Hn; by apply elem_of_nil in Hn|].
  destruct (rc_rows_err e); [intros Hn; by apply elem_of_nil in Hn|].
  rewrite list_elem_of_In, in_map_iff. intros ([k r] & E & Hin). cbn in E. injection E as <- <-.
  apply list_elem_of_In, list_elem_of_filter in Hin as [_ Hin]. unfold listed in Hin.
  apply elem_of_take in Hin as (j & Hj & _). apply list_elem_of_lookup_2 in Hj.
  rewrite sort_by_perm in Hj. apply list_elem_of_filter in Hj as [Hs Hj]. apply elem_of_map_to_list in Hj.
  cbn in Hs. unfold in_scope in Hs. rewrite !andb_true_iff, !negb_true_iff, !bool_decide_eq_false, bool_decide_eq_true in Hs.
  destruct Hs as [[[Hup [v Hv]] Hne] Hext]. exists r. rewrite Hv. cbn. split_and!; [done|done|done|congruence|].
  intros Hr. rewrite Hr in Hext. done.
Qed.

(** A workspace is taken offline by this pass only on evidence.  It was online or
    degraded with an instance, and not external, when the pass listed it; the control
    plane said without an error that the instance does not run; and a second look, after
    whatever others did meanwhile, found the row online or degraded with that same
    instance. *)
Theorem offline_is_confirmed e t id (Hin : id ∈ reconcileOnce e t) :
  exists i r inst,
    t !! id = Some r /\ up (ir_status r) = true /\ ir_instance r = Some inst /\ inst <> "" /\ ir_runtime r <> Some "external" /\
    rc_running e id = inl false /\
    exists r', rc_later e i !! id = Some r' /\ up (ir_status r') = true /\ ir_instance r' = Some inst.
Proof.
  destruct (reconcile_loop_elem _ _ _ _ Hin) as (i & inst & _ & Hc & _ & Hrun & Hre). apply list_elem_of_lookup_2 in Hc.
  destruct (candidates_scope _ _ _ _ Hc) as (r & Hr & Hup & Hi & Hne & Hext). exists i, r, inst. split_and!; [done..|].
  unfold reconfirmStillOfflineCandidate in Hre. destruct (rc_reread_fails e _); [done|]. cbn in Hre.
  destruct (rc_later e i !! id) as [r'|]; [|done]. exists r'. rewrite !andb_true_iff, bool_decide_eq_true in Hre.
  destruct Hre as [[Hup' Hn] E]. split_and!; [done|done|]. destruct (ir_instance r'); cbn in E; [by subst|by subst].
Qed.

(** ** Who is never looked at

    The list is cut at 200 with the newest rows first, and a row whose agent is gone is
    not written to: while 200 rows in scope are newer, it is on no list. *)
Lemma sorted_take_drop {A} (key : A -> Z) (l : list A) n x y :
  Sorted (fun a b => key a <= key b) l -> x ∈ take n l -> y ∈ drop n l -> key x <= key y.
Proof.
  intros Hs Hx Hy. apply Sorted_StronglySorted in Hs; [|intros a b c ? ?; lia]. revert l Hs Hx Hy.
  induction n as [|n IH]; intros [|a l] Hs Hx Hy; cbn in *; try (by apply elem_of_nil in Hx || by apply elem_of_nil in Hy).
  apply StronglySorted_inv in Hs as [Hs Ha]. rewrite Forall_forall in Ha.
  apply elem_of_cons in Hx as [->|Hx]; [|by eapply IH].
  apply Ha. rewrite <- (take_drop n l). apply elem_of_app. by right.
Qed.

Lemma newer_rows_come_first t id r : t !! id = Some r -> id ∈ (listed t).*1 ->
  forall k s, t !! k = Some s -> in_scope s = true -> ir_updated r < ir_updated s -> k ∈ (listed t).*1.
Proof.
  intros Hr Hin k s Hk Hsc Hlt. unfold listed in *.
  set (l := filter (fun kr => in_scope kr.2 = true) (map_to_list t)) in *.
  set (key := fun kr : string * instance_row => - ir_updated kr.2) in *.
  assert (Hks : (k, s) ∈ sort_by key l).
  { rewrite sort_by_perm. apply list_elem_of_filter. split; [done|]. by apply elem_of_map_to_list. }
  rewrite <- (take_drop CPInstanceReconcileLimit (sort_by key l)) in Hks. apply elem_of_app in Hks as [Hks|Hks].
  - apply list_elem_of_fmap. by exists (k, s).
  - apply list_elem_of_fmap in Hin as ([id' r'] & -> & Hin). cbn in *.
    assert (r' = r) as ->.
    { apply elem_of_take in Hin as (j & Hj & _). apply list_elem_of_lookup_2 in Hj. rewrite sort_by_perm in Hj.
      apply list_elem_of_filter in Hj as [_ Hj]. apply elem_of_map_to_list in Hj. congruence. }
    assert (key (id', r) <= key (k, s)) by (eapply sorted_take_drop; [apply sort_by_sorted|exact Hin|exact Hks]).
    subst key. cbn in *. lia.
Qed.

Lemma listed_length t : (length (listed t) <= 200)%nat.
Proof. unfold listed. rewrite length_take. unfold CPInstanceReconcileLimit. lia. Qed.

Lemma list_to_set_size (l : list string) : (size (list_to_set l : gset string) <= length l)%nat.
Proof.
  induction l as [|x l IH]; [done|]. cbn. rewrite size_union_alt, size_singleton.
  assert (size ((list_to_set l : gset string) ∖ {[x]}) <= size (list_to_set l : gset string))%nat by (apply subseteq_size; set_solver). lia.
Qed.

Theorem stale_row_is_never_checked t id r (newer : gset string) :
  t !! id = Some r -> (200 <= size newer)%nat ->
  (forall k, k ∈ newer -> k <> id /\ exists s, t !! k = Some s /\ in_scope s = true /\ ir_updated r < ir_updated s) ->
  id ∉ (listed t).*1.
Proof.
  intros Hr Hsize Hnew Hin.
  assert (Hsub : {[id]} ∪ newer ⊆ (list_to_set (listed t).*1 : gset string)).
  { intros k [->%elem_of_singleton|Hk]%elem_of_union; apply elem_of_list_to_set; [done|].
    destruct (Hnew k Hk) as (_ & s & Hs & Hsc & Hlt). by eapply (newer_rows_come_first t id r). }
  apply subseteq_size in Hsub. rewrite size_union in Hsub by (intros x; rewrite elem_of_singleton; intros -> Hx; by destruct (Hnew _ Hx)).
  rewrite size_singleton in Hsub.
  assert (Hl : (size (list_to_set (listed t).*1 : gset string) <= 200)%nat).
  { etransitivity; [apply list_to_set_size|]. rewrite length_fmap. apply listed_length. }
  lia.
Qed.

Module ReconcileDemo.
Definition gone : instance_row := InstanceRow "online" (Some "i-1") (Some "claude-code") 5.
Definition before : instances := {["w" := gone]}.
Definition dead_env (later : instances) : reconcile_env :=
  ReconcileEnv false (fun _ => false) false (fun _ => false) (fun _ => inl false) (fun _ => false) (fun _ => later).

(** A reprovision in between is not undone. *)
Example replaced_instance_is_spared :
  reconcileOnce (dead_env before) before = ["w"] /\
  reconcileOnce (dead_env {["w" := InstanceRow "online" (Some "i-2") (Some "claude-code") 6]}) before = [].
Proof. vm_compute. auto. Qed.

Lemma offline_is_confirmed_witness : exists r, before !! "w" = Some r /\ ir_instance r = Some "i-1".
Proof.
  assert (E : "w" ∈ reconcileOnce (dead_env before) before) by (vm_compute; left).
  destruct (offline_is_confirmed (dead_env before) before "w" E) as (i & r & inst & Hr & _). exists r. split; [exact Hr|].
  vm_compute in Hr. injection Hr as <-. reflexivity.
Defined.
End ReconcileDemo.
