(* ===== verification/Providers.v ===== *)
(** * The provider registry

    internal/providers (providers.go, derive_provider.go): the catalog of LLM providers
    with the native arms of each runtime, its validation, and the resolution of a model
    to the one provider that owns it.  What yaml.Unmarshal read is the argument of
    [parseManifest]; compiling and matching a pattern are [re_ok] and [re_match]. *)

From S2P Require Import Prelude RateLimit.

Definition schemaVersion : Z := 1.
Definition PlatformProviderName : string := "platform".

Record Provider := MkProvider {
  p_name : string; p_display_name : string; p_protocol : string; p_auth_mode : string;
  p_base_url_template : string; p_base_url_anthropic : string;
  p_auth_env : list string; p_auth_token_env : string;
  p_model_prefix_match : string; p_deprecated : bool; p_upstream_vendor : string
}.
Definition zero_provider : Provider := MkProvider "" "" "" "" "" "" [] "" "" false "".

Record RuntimeProviderRef := Ref { ref_name : string; ref_models : list string }.
Record RuntimeNativeSet := NativeSet { rt_display_name : string; rt_providers : list RuntimeProviderRef }.
Record Manifest := MkManifest { m_providers : list Provider; m_runtimes : gmap string RuntimeNativeSet }.
Record raw_manifest := RawManifest { raw_schema : Z; raw_providers : list Provider; raw_runtimes : gmap string RuntimeNativeSet }.

Definition IsPlatform (p : Provider) : bool := bool_decide (p_name p = PlatformProviderName).

Section Registry.
Context (re_ok : string -> bool) (re_match : string -> string -> bool).

(** ** Validation *)

Inductive load_err :=
| BadYAML | BadSchema | NoProviders | BadEntry (name : string) | DuplicateName (name : string) | BadPattern (name : string)
| DuplicateVendor (vendor : string) | NoRuntimes | EmptyRuntime (rt : string) | UnknownRef (rt name : string) | DuplicateRef (rt name : string).

Definition validate (p : Provider) : bool :=
  negb (bool_decide (p_name p = "")) &&
  (bool_decide (p_protocol p = "openai") || bool_decide (p_protocol p = "anthropic")) &&
  negb (bool_decide (p_auth_mode p = "")) && negb (bool_decide (p_auth_env p = [])) &&
  negb (bool_decide (p_display_name p = "")) && negb (bool_decide (p_model_prefix_match p = "")).

(** The entries in order; [seen] holds the names so far. *)
Fixpoint check_entries (seen : gset string) (ps : list Provider) : option load_err :=
  match ps with
  | [] => None
  | p :: rest =>
      if negb (validate p) then Some (BadEntry (p_name p))
      else if decide (p_name p ∈ seen) then Some (DuplicateName (p_name p))
      else if negb (re_ok (p_model_prefix_match p)) then Some (BadPattern (p_name p))
      else check_entries ({[p_name p]} ∪ seen) rest
  end.
Fixpoint check_vendors (owned : gset string) (ps : list Provider) : option load_err :=
  match ps with
  | [] => None
  | p :: rest =>
      let v := p_upstream_vendor p in
      if decide (v = "") then check_vendors owned rest
      else if decide (v ∈ owned) then Some (DuplicateVendor v)
      else check_vendors ({[v]} ∪ owned) rest
  end.
Fixpoint check_refs (names seen : gset string) (rt : string) (refs : list RuntimeProviderRef) : option load_err :=
  match refs with
  | [] => None
  | r :: rest =>
      if negb (bool_decide (ref_name r ∈ names)) then Some (UnknownRef rt (ref_name r))
      else if decide (ref_name r ∈ seen) then Some (DuplicateRef rt (ref_name r))
      else check_refs names ({[ref_name r]} ∪ seen) rt rest
  end.
Fixpoint check_runtimes (names : gset string) (rts : list (string * RuntimeNativeSet)) : option load_err :=
  match rts with
  | [] => None
  | (rt, native) :: rest =>
      match rt_providers native with
      | [] => Some (EmptyRuntime rt)
      | refs => match check_refs names ∅ rt refs with Some e => Some e | None => check_runtimes names rest end
      end
  end.

Definition name_set (ps : list Provider) : gset string := list_to_set (map p_name ps).

Definition parseManifest (raw : option raw_manifest) : Manifest + load_err :=
  match raw with
  | None => inr BadYAML
  | Some m =>
      if negb (raw_schema m =? schemaVersion) then inr BadSchema
      else if decide (raw_providers m = []) then inr NoProviders
      else match check_entries ∅ (raw_providers m) with
           | Some e => inr e
           | None =>
               match check_vendors ∅ (raw_providers m) with
               | Some e => inr e
               | None =>
                   if decide (raw_runtimes m = ∅) then inr NoRuntimes
                   else match check_runtimes (name_set (raw_providers m)) (map_to_list (raw_runtimes m)) with
                        | Some e => inr e
                        | None => inl (MkManifest (raw_providers m) (raw_runtimes m))
                        end
               end
           end
  end.

(** ** Resolution *)

(** An entry that was not loaded compiles its pattern here; one that was has a pattern
    that compiles. *)
Definition MatchesModel (p : Provider) (slug : string) : bool :=
  negb (bool_decide (p_model_prefix_match p = "")) && re_ok (p_model_prefix_match p) && re_match (p_model_prefix_match p) slug.

(** The last entry of a name. *)
Definition byName (ps : list Provider) : gmap string Provider := foldl (fun acc p => <[p_name p := p]> acc) ∅ ps.

Definition authEnvMatches (candidates : list Provider) (availableAuthEnv : list string) : list Provider :=
  match availableAuthEnv with
  | [] => []
  | _ => filter (fun p => existsb (fun want => bool_decide (want ∈ availableAuthEnv)) (p_auth_env p) = true) candidates
  end.
Definition disambiguateByAuthEnv (candidates : list Provider) (availableAuthEnv : list string) : option Provider :=
  match authEnvMatches candidates availableAuthEnv with [p] => Some p | _ => None end.

Inductive derive_err := ModelRequired | UnknownRuntime (rt : string) | NoOwner | Overlap (names : list string).

Definition exact_arms (m : Manifest) (native : RuntimeNativeSet) (model : string) : list Provider :=
  omap (fun r => if decide (model ∈ ref_models r) then byName (m_providers m) !! ref_name r else None) (rt_providers native).
Definition prefix_arms (m : Manifest) (native : RuntimeNativeSet) (model : string) : list Provider :=
  omap (fun r => match byName (m_providers m) !! ref_name r with
                 | Some p => if MatchesModel p model then Some p else None
                 | None => None
                 end) (rt_providers native).

(** The names of an overlap in the order of declaration; the message sorts them. *)
Definition DeriveProvider (m : Manifest) (runtime model : string) (availableAuthEnv : list string) : Provider + derive_err :=
  let model := TrimSpace model in
  if decide (model = "") then inr ModelRequired
  else match m_runtimes m !! runtime with
       | None => inr (UnknownRuntime runtime)
       | Some native =>
           match exact_arms m native model with
           | [p] => inl p
           | (p :: _) as exact => match disambiguateByAuthEnv exact availableAuthEnv with Some q => inl q | None => inl p end
           | [] =>
               match prefix_arms m native model with
               | [p] => inl p
               | [] => inr NoOwner
               | matched =>
                   match disambiguateByAuthEnv matched availableAuthEnv with
                   | Some p => inl p
                   | None =>
                       let narrowed := authEnvMatches matched availableAuthEnv in
                       inr (Overlap (map p_name (if (1 <? length narrowed)%nat then narrowed else matched)))
                   end
               end
           end
       end.

Record Upstream := MkUpstream { us_vendor : string; us_model : string; us_provider : Provider }.

Definition vendor_entry (m : Manifest) (v : string) : option Provider :=
  List.find (fun p => negb (bool_decide (p_upstream_vendor p = "")) && bool_decide (p_upstream_vendor p = v)) (m_providers m).

Fixpoint resolve_seps (m : Manifest) (model : string) (seps : list Ascii.ascii) : option Upstream :=
  match seps with
  | [] => None
  | sep :: rest =>
      match str_cut sep model with
      | Some (before, after) =>
          match vendor_entry m before with
          | Some p => Some (MkUpstream before after p)
          | None => resolve_seps m model rest
          end
      | None => resolve_seps m model rest
      end
  end.
Definition slash : Ascii.ascii := Ascii.ascii_of_nat 47.
Definition colon : Ascii.ascii := Ascii.ascii_of_nat 58.
Definition ResolveUpstream (m : Manifest) (model : string) : option Upstream :=
  if decide (model = "") then None else resolve_seps m model [slash; colon].

Definition ProvidersForRuntime (m : Manifest) (rt : string) : option (list Provider) :=
  match m_runtimes m !! rt with
  | None => None
  | Some native => Some (omap (fun r => byName (m_providers m) !! ref_name r) (rt_providers native))
  end.

(** The first of each id. *)
Fixpoint dedup_onto (seen : gset string) (l : list string) : list string :=
  match l with
  | [] => []
  | x :: rest => if decide (x ∈ seen) then dedup_onto seen rest else x :: dedup_onto ({[x]} ∪ seen) rest
  end.
Definition ModelsForRuntime (m : Manifest) (rt : string) : option (list string) :=
  match m_runtimes m !! rt with
  | None => None
  | Some native => Some (dedup_onto ∅ (concat (map ref_models (rt_providers native))))
  end.

(** ** What validation leaves *)

Lemma check_entries_ok ps : forall seen, check_entries seen ps = None ->
  NoDup (map p_name ps) /\ Forall (fun p => p_name p ∉ seen) ps /\ Forall (fun p => validate p = true /\ re_ok (p_model_prefix_match p) = true) ps.
Proof.
  induction ps as [|p ps IH]; intros seen; cbn; [intros _; split_and!; constructor|].
  destruct (validate p) eqn:Ev; cbn; [|done]. case_decide; [done|]. destruct (re_ok _) eqn:Er; cbn; [|done].
  intros (Hnd & Hseen & Hv)%IH. split_and!.
  - constructor; [|done]. rewrite list_elem_of_In, in_map_iff. intros (q & E & Hq). apply list_elem_of_In in Hq.
    rewrite Forall_forall in Hseen. apply Hseen in Hq. set_solver.
  - constructor; [done|]. eapply Forall_impl; [exact Hseen|]. cbn. set_solver.
  - constructor; auto.
Qed.

Lemma check_vendors_ok ps : forall owned, check_vendors owned ps = None ->
  Forall (fun p => p_upstream_vendor p = "" \/ p_upstream_vendor p ∉ owned) ps /\
  forall p q i j, ps !! i = Some p -> ps !! j = Some q -> p_upstream_vendor p = p_upstream_vendor q -> p_upstream_vendor p <> "" -> i = j.
Proof.
  induction ps as [|p ps IH]; intros owned; cbn; [intros _; split; [constructor|]; intros ? ? [] ?; done|].
  case_decide as Hv.
  - intros [Ho Hu]%IH. split; [constructor; auto|]. intros a b [|i] [|j]; cbn; intros Ha Hb E Hne; simplify_eq.
    all: try congruence. f_equal. by eapply Hu.
  - case_decide as Ho; [done|]. intros [Hn Hu]%IH. split.
    + constructor; [by right|]. eapply Forall_impl; [exact Hn|]. cbn. set_solver.
    + assert (N : forall q k, ps !! k = Some q -> p_upstream_vendor q <> p_upstream_vendor p).
      { intros q k Hq E. apply list_elem_of_lookup_2 in Hq. rewrite Forall_forall in Hn. destruct (Hn _ Hq) as [E'|E']; [congruence|set_solver]. }
      intros a b [|i] [|j]; cbn; intros Ha Hb E Hne; simplify_eq; [done|by destruct (N _ _ Hb)|by destruct (N _ _ Ha)|f_equal; by eapply Hu].
Qed.

Lemma check_refs_ok names rt refs : forall seen, check_refs names seen rt refs = None ->
  NoDup (map ref_name refs) /\ Forall (fun r => (ref_name r ∉ seen) /\ (ref_name r ∈ names)) refs.
Proof.
  induction refs as [|r refs IH]; intros seen; cbn; [intros _; split; constructor|].
  case_bool_decide as Hn; cbn; [|done]. case_decide; [done|]. intros [Hnd Hf]%IH. split.
  - constructor; [|done]. rewrite list_elem_of_In, in_map_iff. intros (q & E & Hq). apply list_elem_of_In in Hq.
    rewrite Forall_forall in Hf. apply Hf in Hq as [Hq _]. set_solver.
  - constructor; [done|]. eapply Forall_impl; [exact Hf|]. cbn. set_solver.
Qed.

Lemma check_runtimes_ok names rts : check_runtimes names rts = None -> forall rt native, (rt, native) ∈ rts ->
  rt_providers native <> [] /\ NoDup (map ref_name (rt_providers native)) /\ Forall (fun r => ref_name r ∈ names) (rt_providers native).
Proof.
  induction rts as [|[rt0 native0] rts IH]; cbn [check_runtimes]; [intros _ ? ? Hn; by apply elem_of_nil in Hn|].
  destruct (rt_providers native0) as [|r refs] eqn:E; [done|]. destruct (check_refs _ _ _ _) eqn:Ec; [done|].
  intros Hrest rt native [[= -> ->]|Hin]%elem_of_cons; [|by eapply IH]. rewrite E. apply check_refs_ok in Ec as [Hnd Hf].
  split_and!; [done|done|]. eapply Forall_impl; [exact Hf|]. by intros ? [].
Qed.

Record manifest_ok (m : Manifest) : Prop := {
  names_unique : NoDup (map p_name (m_providers m));
  entries_valid : Forall (fun p => validate p = true /\ re_ok (p_model_prefix_match p) = true) (m_providers m);
  vendors_unique : forall p q i j, m_providers m !! i = Some p -> m_providers m !! j = Some q ->
    p_upstream_vendor p = p_upstream_vendor q -> p_upstream_vendor p <> "" -> i = j;
  runtimes_resolve : forall rt native, m_runtimes m !! rt = Some native ->
    rt_providers native <> [] /\ NoDup (map ref_name (rt_providers native)) /\
    Forall (fun r => ref_name r ∈ name_set (m_providers m)) (rt_providers native)
}.

Lemma parseManifest_ok raw m : parseManifest raw = inl m -> manifest_ok m.
Proof.
  unfold parseManifest. destruct raw as [raw|]; [|done]. destruct (negb _); [done|]. case_decide; [done|].
  destruct (check_entries ∅ _) eqn:Ee; [done|]. destruct (check_vendors ∅ _) eqn:Ev; [done|]. case_decide; [done|].
  destruct (check_runtimes _ _) eqn:Er; [done|]. intros [= <-].
  apply check_entries_ok in Ee as (H1 & _ & H2). apply check_vendors_ok in Ev as [_ H3]. split; cbn; [done|done|done|].
  intros rt native Hrt. eapply check_runtimes_ok; [exact Er|]. by apply elem_of_map_to_list.
Qed.

Lemma byName_lookup ps n p : byName ps !! n = Some p -> p ∈ ps /\ p_name p = n.
Proof.
  unfold byName. assert (G : forall l (acc : gmap string Provider), foldl (fun acc p => <[p_name p := p]> acc) acc l !! n = Some p ->
    acc !! n = Some p \/ (p ∈ l /\ p_name p = n)).
  { induction l as [|q l IH]; intros acc; cbn; [by left|]. intros [Ha|[Hin Hn]]%IH.
    - apply lookup_insert_Some in Ha as [[<- ->]|[_ Ha]]; [right; split; [left|done]|by left].
    - right. split; [by right|done]. }
  intros [H|H]%G; [by rewrite lookup_empty in H|done].
Qed.

Lemma byName_is_Some ps n : n ∈ name_set ps -> is_Some (byName ps !! n).
Proof.
  unfold byName, name_set. assert (G : forall l (acc : gmap string Provider), (is_Some (acc !! n) \/ n ∈ map p_name l) ->
    is_Some (foldl (fun acc p => <[p_name p := p]> acc) acc l !! n)).
  { induction l as [|q l IH]; intros acc; cbn; [intros [H|H]; [done|by apply elem_of_nil in H]|].
    intros H. apply IH. destruct (decide (p_name q = n)) as [<-|Hne]; [left; rewrite lookup_insert_eq; by eexists|].
    rewrite lookup_insert_ne by done. destruct H as [H|[H|H]%elem_of_cons]; [by left|congruence|by right]. }
  rewrite elem_of_list_to_set. intros H. apply G. by right.
Qed.

(** ** What a resolution gives *)

Lemma exact_arms_elem m native model p : p ∈ exact_arms m native model <->
  exists r, r ∈ rt_providers native /\ model ∈ ref_models r /\ byName (m_providers m) !! ref_name r = Some p.
Proof.
  unfold exact_arms. rewrite list_elem_of_omap. split.
  - intros (r & Hr & H). case_decide; [|done]. eauto.
  - intros (r & Hr & Hm & H). exists r. split; [done|]. by rewrite decide_True.
Qed.

Lemma prefix_arms_elem m native model p : p ∈ prefix_arms m native model <->
  exists r, r ∈ rt_providers native /\ byName (m_providers m) !! ref_name r = Some p /\ MatchesModel p model = true.
Proof.
  unfold prefix_arms. rewrite list_elem_of_omap. split.
  - intros (r & Hr & H). destruct (byName _ !! _) as [q|] eqn:E; [|done]. destruct (MatchesModel q model) eqn:Em; [|done].
    injection H as ->. eauto.
  - intros (r & Hr & H & Hm). exists r. by rewrite H, Hm.
Qed.

Lemma disambiguate_elem l env p : disambiguateByAuthEnv l env = Some p ->
  p ∈ l /\ exists e, e ∈ env /\ e ∈ p_auth_env p.
Proof.
  unfold disambiguateByAuthEnv, authEnvMatches. destruct env as [|e0 env]; [done|].
  set (f := filter _ l). destruct f as [|q [|]] eqn:Ef; try done. intros [= <-].
  assert (Hq : q ∈ f) by (rewrite Ef; left). apply list_elem_of_filter in Hq as [Hq Hin]. split; [done|].
  apply existsb_exists in Hq as (e & He & Hd). apply bool_decide_eq_true in Hd. exists e. split; [done|]. by apply list_elem_of_In.
Qed.

(** How a model was resolved: by the arms that list it, or, when none does, by the ones
    whose pattern matches. *)
Lemma derive_cases m rt model env p : DeriveProvider m rt model env = inl p ->
  TrimSpace model <> "" /\ exists native, m_runtimes m !! rt = Some native /\
    (p ∈ exact_arms m native (TrimSpace model) \/ (exact_arms m native (TrimSpace model) = [] /\ p ∈ prefix_arms m native (TrimSpace model))).
Proof.
  unfold DeriveProvider. case_decide as Hm; [done|]. destruct (m_runtimes m !! rt) as [native|]; [|done].
  intros H. split; [done|]. exists native. split; [done|]. revert H. set (ex := exact_arms _ _ _). set (pr := prefix_arms _ _ _).
  destruct ex as [|q [|q' ex']].
  - destruct pr as [|r [|r' pr']]; [done|intros [= ->]; right; split; [done|left]|].
    destruct (disambiguateByAuthEnv (r :: r' :: pr') env) as [s|] eqn:E; [|done]. intros [= ->].
    apply disambiguate_elem in E as [E _]. auto.
  - intros [= ->]. left. left.
  - destruct (disambiguateByAuthEnv _ _) as [s|] eqn:E; intros [= ->]; left; [by apply disambiguate_elem in E as [E _]|left].
Qed.

(** The other way round: a listed model resolves. *)
Lemma listed_model_derives m rt native model env : m_runtimes m !! rt = Some native -> TrimSpace model <> "" ->
  exact_arms m native (TrimSpace model) <> [] -> exists p, DeriveProvider m rt model env = inl p.
Proof.
  intros Hrt Hm Hex. unfold DeriveProvider. rewrite decide_False by done. rewrite Hrt.
  destruct (exact_arms _ _ _) as [|q [|q' l]]; [done|eauto|]. destruct (disambiguateByAuthEnv _ _); eauto.
Qed.
End Registry.
