(* ===== verification/Base64.v ===== *)
(** * Base64

    What encoding/base64 does with the two encodings the code uses: StdEncoding (padded)
    and RawURLEncoding (not padded).  Decoding skips carriage returns and line feeds and
    ignores the bits after the last byte, as the library does. *)

From S2P Require Import Prelude.
From Stdlib Require Import NArith Wf_nat.

Record encoding := Encoding { enc_62 : N; enc_63 : N; enc_padded : bool }.
Definition StdEncoding : encoding := Encoding 43 47 true.
Definition RawURLEncoding : encoding := Encoding 45 95 false.
Definition pad_char : Ascii.ascii := Ascii.ascii_of_N 61.

Definition digit_char (e : encoding) (v : N) : Ascii.ascii :=
  Ascii.ascii_of_N (if (v <? 26)%N then 65 + v
                    else if (v <? 52)%N then 71 + v
                    else if (v <? 62)%N then v - 4
                    else if (v =? 62)%N then enc_62 e else enc_63 e).
Definition char_digit (e : encoding) (a : Ascii.ascii) : option N :=
  let n := Ascii.N_of_ascii a in
  if ((65 <=? n) && (n <=? 90))%N then Some (n - 65)%N
  else if ((97 <=? n) && (n <=? 122))%N then Some (n - 71)%N
  else if ((48 <=? n) && (n <=? 57))%N then Some (n + 4)%N
  else if (n =? enc_62 e)%N then Some 62%N
  else if (n =? enc_63 e)%N then Some 63%N else None.

(** ** Encoding *)

Abbreviation val := Ascii.N_of_ascii.
Abbreviation chr := Ascii.ascii_of_N.

Definition pads (e : encoding) (n : nat) : string := if enc_padded e then String.concat "" (repeat (String pad_char "") n) else "".

Fixpoint encode (e : encoding) (s : string) : string :=
  match s with
  | String a (String b (String c rest)) =>
      String (digit_char e (val a / 4)) (String (digit_char e ((val a mod 4) * 16 + val b / 16))
        (String (digit_char e ((val b mod 16) * 4 + val c / 64)) (String (digit_char e (val c mod 64)) (encode e rest))))
  | String a (String b "") =>
      String (digit_char e (val a / 4)) (String (digit_char e ((val a mod 4) * 16 + val b / 16))
        (String (digit_char e ((val b mod 16) * 4)) (pads e 1)))
  | String a "" => String (digit_char e (val a / 4)) (String (digit_char e ((val a mod 4) * 16)) (pads e 2))
  | "" => ""
  end.

(** ** Decoding *)

Fixpoint skip_newlines (s : string) : string :=
  match s with
  | "" => ""
  | String a rest => if (val a =? 10)%N || (val a =? 13)%N then skip_newlines rest else String a (skip_newlines rest)
  end.

Definition byte1 (a b : N) : string := String (chr (a * 4 + b / 16)) "".
Definition byte2 (a b c : N) : string := byte1 a b +:+ String (chr ((b mod 16) * 16 + c / 4)) "".
Definition byte3 (a b c d : N) : string := byte2 a b c +:+ String (chr ((c mod 4) * 64 + d)) "".

Definition last2 (e : encoding) (a b : Ascii.ascii) : option string :=
  match char_digit e a, char_digit e b with Some x, Some y => Some (byte1 x y) | _, _ => None end.
Definition last3 (e : encoding) (a b c : Ascii.ascii) : option string :=
  match char_digit e a, char_digit e b, char_digit e c with Some x, Some y, Some z => Some (byte2 x y z) | _, _, _ => None end.

Fixpoint decode_quanta (e : encoding) (s : string) : option string :=
  match s with
  | "" => Some ""
  | String a (String b (String c (String d rest))) =>
      if enc_padded e && bool_decide (d = pad_char)
      then match rest with
           | "" => if decide (c = pad_char) then last2 e a b else last3 e a b c
           | _ => None
           end
      else match char_digit e a, char_digit e b, char_digit e c, char_digit e d, decode_quanta e rest with
           | Some w, Some x, Some y, Some z, Some t => Some (byte3 w x y z +:+ t)
           | _, _, _, _, _ => None
           end
  | String a (String b (String c "")) => if enc_padded e then None else last3 e a b c
  | String a (String b "") => if enc_padded e then None else last2 e a b
  | String _ "" => None
  end.
Definition decode (e : encoding) (s : string) : option string := decode_quanta e (skip_newlines s).

(** ** Round trip *)

Definition standard (e : encoding) : Prop := e = StdEncoding \/ e = RawURLEncoding.

(** What one digit is: it decodes to itself, and is neither padding nor a line break. *)
Definition digit_good (e : encoding) (v : N) : bool :=
  bool_decide (char_digit e (digit_char e v) = Some v) && negb (bool_decide (digit_char e v = pad_char)) &&
  negb ((val (digit_char e v) =? 10)%N || (val (digit_char e v) =? 13)%N).

Lemma digits_good e v : standard e -> (v < 64)%N -> digit_good e v = true.
Proof.
  intros He Hv. assert (H : forallb (digit_good e) (map N.of_nat (seq 0 64)) = true) by (destruct He as [-> | ->]; vm_compute; reflexivity).
  rewrite forallb_forall in H. apply H. apply in_map_iff. exists (N.to_nat v). split; [lia|]. apply in_seq. lia.
Qed.

#[local] Ltac Zify.zify_post_hook ::= Z.to_euclidean_division_equations.

Section RoundTrip.
Context (e : encoding) (He : standard e).

Lemma digit_decodes v : (v < 64)%N -> char_digit e (digit_char e v) = Some v.
Proof. intros Hv. pose proof (digits_good e v He Hv) as H. unfold digit_good in H. b2p. tauto. Qed.
Lemma digit_no_pad v : (v < 64)%N -> digit_char e v <> pad_char.
Proof. intros Hv. pose proof (digits_good e v He Hv) as H. unfold digit_good in H. b2p. tauto. Qed.
Lemma digit_kept v s : (v < 64)%N -> skip_newlines (String (digit_char e v) s) = String (digit_char e v) (skip_newlines s).
Proof.
  intros Hv. pose proof (digits_good e v He Hv) as H. unfold digit_good in H. apply andb_true_iff in H as [_ H].
  apply negb_true_iff in H. cbn. by rewrite H.
Qed.

Lemma val_lt a : (val a < 256)%N.
Proof. apply Ascii.N_ascii_bounded. Qed.
Lemma chr_val a : chr (val a) = a.
Proof. apply Ascii.ascii_N_embedding. Qed.

Lemma chr_is a n : n = val a -> chr n = a.
Proof. intros ->. apply Ascii.ascii_N_embedding. Qed.

Lemma byte_1 a y : (y < 16)%N -> byte1 (val a / 4) ((val a mod 4) * 16 + y) = String a "".
Proof. intros Hy. pose proof (val_lt a). unfold byte1. f_equal. apply chr_is. lia. Qed.
Lemma byte_2 a b z : (z < 4)%N ->
  byte2 (val a / 4) ((val a mod 4) * 16 + val b / 16) ((val b mod 16) * 4 + z) = String a (String b "").
Proof.
  intros Hz. pose proof (val_lt b). unfold byte2. rewrite byte_1 by lia. cbn. do 2 f_equal. apply chr_is. lia.
Qed.
Lemma byte_3 a b c :
  byte3 (val a / 4) ((val a mod 4) * 16 + val b / 16) ((val b mod 16) * 4 + val c / 64) (val c mod 64) = String a (String b (String c "")).
Proof.
  pose proof (val_lt c). unfold byte3. rewrite byte_2 by lia. change (String a (String b "") +:+ ?t) with (String a (String b t)). do 3 f_equal. apply chr_is. lia.
Qed.

Lemma pads_kept n : (n <= 2)%nat -> skip_newlines (pads e n) = pads e n.
Proof. intros Hn. unfold pads. destruct (enc_padded e); [|done]. destruct n as [|[|[|n]]]; [done|done|done|lia]. Qed.

Lemma skip_encode s : skip_newlines (encode e s) = encode e s.
Proof.
  induction s as [s IH] using (induction_ltof1 _ String.length). unfold ltof in IH.
  destruct s as [|a [|b [|c rest]]]; cbn [encode]; [done|..]; pose proof (val_lt a).
  - rewrite !digit_kept by lia. by rewrite pads_kept by lia.
  - pose proof (val_lt b). rewrite !digit_kept by lia. by rewrite pads_kept by lia.
  - pose proof (val_lt b). pose proof (val_lt c). rewrite !digit_kept by lia. rewrite IH by (cbn; lia). done.
Qed.

Lemma decode_quanta_encode s : decode_quanta e (encode e s) = Some s.
Proof.
  induction s as [s IH] using (induction_ltof1 _ String.length). unfold ltof in IH.
  destruct s as [|a [|b [|c rest]]]; cbn [encode]; [done|..]; pose proof (val_lt a).
  - unfold pads. destruct (enc_padded e) eqn:Ep; cbn; rewrite Ep; cbn; unfold last2; rewrite !digit_decodes by lia;
      rewrite <- (N.add_0_r (val a mod 4 * 16)), byte_1 by lia; reflexivity.
  - pose proof (val_lt b). unfold pads. destruct (enc_padded e) eqn:Ep; cbn; rewrite Ep; cbn.
    + rewrite bool_decide_true by done. rewrite decide_False by (apply digit_no_pad; lia). unfold last3.
      rewrite !digit_decodes by lia. rewrite <- (N.add_0_r (val b mod 16 * 4)), byte_2 by lia. reflexivity.
    + unfold last3. rewrite !digit_decodes by lia. rewrite <- (N.add_0_r (val b mod 16 * 4)), byte_2 by lia. reflexivity.
  - pose proof (val_lt b). pose proof (val_lt c). cbn [decode_quanta].
    rewrite (bool_decide_false (_ = pad_char)) by (apply digit_no_pad; lia). rewrite andb_false_r.
    rewrite !digit_decodes by lia. rewrite IH by (cbn; lia). by rewrite byte_3.
Qed.

Theorem base64_round_trip s : decode e (encode e s) = Some s.
Proof. unfold decode. rewrite skip_encode. apply decode_quanta_encode. Qed.
End RoundTrip.

Definition dot_char : Ascii.ascii := Ascii.ascii_of_nat 46.

(** No encoded text holds a dot. *)
Lemma digit_no_dot v : (v < 64)%N -> digit_char RawURLEncoding v <> dot_char.
Proof.
  intros Hv. assert (H : forallb (fun v => negb (bool_decide (digit_char RawURLEncoding v = dot_char))) (map N.of_nat (seq 0 64)) = true) by (vm_compute; reflexivity).
  rewrite forallb_forall in H. specialize (H v). rewrite negb_true_iff, bool_decide_eq_false in H. apply H.
  apply in_map_iff. exists (N.to_nat v). split; [lia|]. apply in_seq. lia.
Qed.

Lemma encode_no_dot s : str_cut dot_char (encode RawURLEncoding s) = None.
Proof.
  assert (D : forall v t, (v < 64)%N -> str_cut dot_char t = None -> str_cut dot_char (String (digit_char RawURLEncoding v) t) = None).
  { intros v t Hv Ht. cbn [str_cut]. rewrite decide_False by (by apply digit_no_dot). by rewrite Ht. }
  induction s as [s IH] using (Wf_nat.induction_ltof1 _ String.length). unfold Wf_nat.ltof in IH.
  destruct s as [|a [|b [|c rest]]]; cbn [encode]; [done|..]; pose proof (val_lt a).
  - repeat apply D; [lia|lia|done].
  - pose proof (val_lt b). repeat apply D; [lia|lia|lia|done].
  - pose proof (val_lt b). pose proof (val_lt c). repeat apply D; [lia|lia|lia|lia|]. apply IH. cbn. lia.
Qed.
