(* ===== verification/SecretStore.v ===== *)
(** * Secrets

    internal/crypto/aes.go, loadWorkspaceSecrets of
    internal/handlers/workspace_provision.go, and internal/handlers/provider_defaults.go:
    how a value is kept, and what a workspace gets of the organisation's secrets and of its
    own.  AES-GCM is [seal] and [open_]; a byte string is a [string]. *)

From S2P Require Import Prelude RateLimit Base64.

(** ** Letters

    The letters whose upper or lower case is ASCII change; the others stay, since these
    texts are only compared with ASCII ones. *)
Definition byte_of (n : nat) : Ascii.ascii := Ascii.ascii_of_nat n.
Definition ascii_upper (b : Ascii.ascii) : Ascii.ascii :=
  let n := Ascii.nat_of_ascii b in if decide (97 <= n <= 122)%nat then byte_of (n - 32) else b.
Fixpoint ToUpper (s : string) : string :=
  match s with
  | String a (String b rest as tail) =>
      if decide (a = byte_of 196 /\ b = byte_of 177) then String (byte_of 73) (ToUpper rest)
      else if decide (a = byte_of 197 /\ b = byte_of 191) then String (byte_of 83) (ToUpper rest)
      else String (ascii_upper a) (ToUpper tail)
  | String a "" => String (ascii_upper a) ""
  | "" => ""
  end.
Fixpoint ToLower (s : string) : string :=
  match s with
  | String a (String b rest as tail) =>
      if decide (a = byte_of 196 /\ b = byte_of 176) then String (byte_of 105) (ToLower rest)
      else match rest with
           | String c rest' =>
               if decide (a = byte_of 226 /\ b = byte_of 132 /\ c = byte_of 170) then String (byte_of 107) (ToLower rest')
               else String (ascii_lower a) (ToLower tail)
           | "" => String (ascii_lower a) (ToLower tail)
           end
  | String a "" => String (ascii_lower a) ""
  | "" => ""
  end.

(** ** Encryption *)

Definition EncryptionVersionPlaintext : Z := 0.
Definition EncryptionVersionAESGCM : Z := 1.
Definition key_size : nat := 32.
Definition nonce_size : nat := 12.

(** The key in force; nothing is the empty one. *)
Definition IsEnabled (key : string) : bool := bool_decide (String.length key = key_size).

(** The key, and whether there was nothing wrong. *)
Definition loadKeyFromEnv (SECRETS_ENCRYPTION_KEY : string) : string * bool :=
  if decide (SECRETS_ENCRYPTION_KEY = "") then ("", true)
  else match decode StdEncoding SECRETS_ENCRYPTION_KEY with
       | None => if decide (String.length SECRETS_ENCRYPTION_KEY = key_size) then (SECRETS_ENCRYPTION_KEY, true) else ("", false)
       | Some decoded => if decide (String.length decoded = key_size) then (decoded, true) else ("", false)
       end.

Definition isProdEnv (MOLECULE_ENV : string) : bool :=
  let v := ToLower (TrimSpace MOLECULE_ENV) in bool_decide (v = "prod") || bool_decide (v = "production").

(** Whether the server may boot, and with which key. *)
Definition initKeyStrict (MOLECULE_ENV SECRETS_ENCRYPTION_KEY : string) : option string :=
  let key := fst (loadKeyFromEnv SECRETS_ENCRYPTION_KEY) in
  if isProdEnv MOLECULE_ENV && negb (IsEnabled key) then None else Some key.

Definition CurrentEncryptionVersion (key : string) : Z :=
  if IsEnabled key then EncryptionVersionAESGCM else EncryptionVersionPlaintext.

Section Crypto.
Context (seal : string -> string -> string -> string) (open_ : string -> string -> string -> option string).

(** [nonce]: the random bytes, [None] when there are none. *)
Definition Encrypt (key : string) (nonce : option string) (plaintext : string) : option string :=
  if negb (IsEnabled key) then Some plaintext
  else match nonce with None => None | Some n => Some (n +:+ seal key n plaintext) end.

Definition Decrypt (key ciphertext : string) : option string :=
  if negb (IsEnabled key) then Some ciphertext
  else if (String.length ciphertext <? nonce_size)%nat then None
  else open_ key (str_take nonce_size ciphertext) (str_drop nonce_size ciphertext).

Definition DecryptVersioned (key value : string) (version : Z) : option string :=
  if version =? EncryptionVersionPlaintext then Some value
  else if version =? EncryptionVersionAESGCM then (if negb (IsEnabled key) then None else Decrypt key value)
  else None.
End Crypto.

(** ** The tables *)

Record secret_row := SecretRow { sr_value : string; sr_version : Z; sr_created : time; sr_updated : time }.
Record secrets := Secrets { ws_secrets : gmap (string * string) secret_row; global_secrets : gmap string secret_row }.

Definition with_ws (t : gmap (string * string) secret_row) (s : secrets) : secrets := Secrets t (global_secrets s).
Definition with_globals (t : gmap string secret_row) (s : secrets) : secrets := Secrets (ws_secrets s) t.

(** The upserts keep the time of creation. *)
Definition upserted (now : time) (value : string) (version : Z) (old : option secret_row) : option secret_row :=
  Some (SecretRow value version (match old with Some r => sr_created r | None => now end) now).
Definition upsert_ws (now : time) (ws k value : string) (version : Z) (s : secrets) : secrets :=
  with_ws (partial_alter (upserted now value version) (ws, k) (ws_secrets s)) s.
Definition upsert_global (now : time) (k value : string) (version : Z) (s : secrets) : secrets :=
  with_globals (partial_alter (upserted now value version) k (global_secrets s)) s.

(** What a SELECT over rows answers: nothing when the query fails, and otherwise the rows
    that scan before the iteration ends. *)
Record read_fault := ReadFault { rf_query : bool; rf_lost : string -> bool }.
Definition no_fault : read_fault := ReadFault false (fun _ => false).

Definition rows_of (ws : string) (s : secrets) : list (string * secret_row) :=
  omap (fun kr => if decide (kr.1.1 = ws) then Some (kr.1.2, kr.2) else None) (map_to_list (ws_secrets s)).
Definition read_rows (f : read_fault) (rows : list (string * secret_row)) : list (string * secret_row) :=
  if rf_query f then [] else filter (fun kr => rf_lost f kr.1 = false) rows.
Definition read_globals (f : read_fault) (s : secrets) : list (string * secret_row) := read_rows f (map_to_list (global_secrets s)).
Definition read_workspace (f : read_fault) (ws : string) (s : secrets) : list (string * secret_row) := read_rows f (rows_of ws s).

(** ** The environment of a workspace *)

Abbreviation env := (gmap string string).

Definition ProviderBaseURLDefaults : list (string * string) :=
  [("OPENAI_BASE_URL", "https://api.openai.com/v1"); ("GROQ_BASE_URL", "https://api.groq.com/openai/v1");
   ("OPENROUTER_BASE_URL", "https://openrouter.ai/api/v1"); ("QIANFAN_BASE_URL", "https://qianfan.baidubce.com/v2");
   ("MINIMAX_BASE_URL", "https://api.minimax.io/v1"); ("MOONSHOT_BASE_URL", "https://api.moonshot.ai/v1")].
Definition baseSuffix : string := "_BASE_URL".
Definition api_key_of (baseURLKey : string) : string :=
  str_take (String.length baseURLKey - String.length baseSuffix) baseURLKey +:+ "_API_KEY".
Definition base_url_default (envVars : env) (kv : string * string) : env :=
  if decide (default "" (envVars !! api_key_of kv.1) = "") then envVars
  else if decide (default "" (envVars !! kv.1) = "") then <[kv.1 := kv.2]> envVars else envVars.
Definition applyProviderBaseURLDefaults (envVars : env) : env := foldl base_url_default envVars ProviderBaseURLDefaults.

Record loaded := Loaded { ld_env : env; ld_global : gset string; ld_workspace : gset string }.

Section Load.
Context (open_ : string -> string -> string -> option string).

(** [None]: a value that does not decrypt. *)
Definition load_global (key : string) (kr : string * secret_row) (l : loaded) : option loaded :=
  if decide (kr.1 = "LLM_PROVIDER") then Some l
  else match DecryptVersioned open_ key (sr_value kr.2) (sr_version kr.2) with
       | None => None
       | Some v => Some (Loaded (<[kr.1 := v]> (ld_env l)) ({[kr.1]} ∪ ld_global l) (ld_workspace l))
       end.
Definition load_own (key : string) (kr : string * secret_row) (l : loaded) : option loaded :=
  if decide (kr.1 = "LLM_PROVIDER") then Some l
  else match DecryptVersioned open_ key (sr_value kr.2) (sr_version kr.2) with
       | None => None
       | Some v => Some (Loaded (<[kr.1 := v]> (ld_env l)) (ld_global l ∖ {[kr.1]}) ({[kr.1]} ∪ ld_workspace l))
       end.
Fixpoint load_rows (f : string * secret_row -> loaded -> option loaded) (rows : list (string * secret_row)) (l : loaded) : option loaded :=
  match rows with [] => Some l | kr :: rest => match f kr l with None => None | Some l' => load_rows f rest l' end end.

Definition loadWorkspaceSecrets (fg fw : read_fault) (key workspaceID : string) (s : secrets) : loaded + string :=
  match load_rows (load_global key) (read_globals fg s) (Loaded ∅ ∅ ∅) with
  | None => inr "failed to decrypt global secret"
  | Some l =>
      match load_rows (load_own key) (read_workspace fw workspaceID s) l with
      | None => inr "failed to decrypt workspace secret"
      | Some l => inl (Loaded (applyProviderBaseURLDefaults (ld_env l)) (ld_global l) (ld_workspace l))
      end
  end.
End Load.

(** ** What is kept comes back *)

Section RoundTrip.
Context (seal : string -> string -> string -> string) (open_ : string -> string -> string -> option string).
Context (Hopen : forall k n p, String.length k = key_size -> String.length n = nonce_size -> open_ k n (seal k n p) = Some p).

Lemma encrypted_opens key nonce p ct r : Encrypt seal key nonce p = Some ct -> (forall n, nonce = Some n -> String.length n = nonce_size) ->
  sr_value r = ct -> sr_version r = CurrentEncryptionVersion key -> DecryptVersioned open_ key (sr_value r) (sr_version r) = Some p.
Proof.
  intros He Hn -> ->. unfold Encrypt in He. unfold DecryptVersioned, CurrentEncryptionVersion.
  destruct (IsEnabled key) eqn:E; cbn in *; [|by injection He as <-]. destruct nonce as [n|]; [|done]. injection He as <-. specialize (Hn n eq_refl).
  unfold Decrypt. rewrite E. cbn [negb]. rewrite str_length_app, Hn, (proj2 (Nat.ltb_ge _ _)) by lia. rewrite <- Hn at 1 2.
  rewrite str_take_app_le, str_take_all, str_drop_app_ge, Nat.sub_diag by lia. apply Hopen; [by apply bool_decide_eq_true in E|done].
Qed.

(** A secret survives the life of the key.  What was encrypted under one key setting,
    and is read with its version under another, is the value again when the setting was
    plain text or the key is the same, and is refused when encryption has been switched
    off since; it is never handed out as something else without the cipher's consent.
    AES-GCM is assumed to open what it sealed. *)
Theorem secret_survives key0 key1 nonce p ct
    (Henc : Encrypt seal key0 nonce p = Some ct) (Hnonce : forall n, nonce = Some n -> String.length n = nonce_size) :
  (IsEnabled key0 = false \/ key1 = key0 -> DecryptVersioned open_ key1 ct (CurrentEncryptionVersion key0) = Some p) /\
  (IsEnabled key0 = true -> IsEnabled key1 = false -> DecryptVersioned open_ key1 ct (CurrentEncryptionVersion key0) = None) /\
  (forall v, DecryptVersioned open_ key1 ct (CurrentEncryptionVersion key0) = Some v ->
     v = p \/ exists n, open_ key1 n (seal key0 n p) = Some v).
Proof.
  unfold Encrypt in Henc. unfold DecryptVersioned, CurrentEncryptionVersion.
  destruct (IsEnabled key0) eqn:E0; cbn in *; [|injection Henc as <-; split_and!; [done|done|intros v [= ->]; by left]].
  destruct nonce as [n|]; [|done]. injection Henc as <-. specialize (Hnonce n eq_refl).
  assert (Hs : forall k, IsEnabled k = true -> Decrypt open_ k (n +:+ seal key0 n p) = open_ k n (seal key0 n p)).
  { intros k Hk. unfold Decrypt. rewrite Hk. cbn [negb]. rewrite str_length_app, Hnonce, (proj2 (Nat.ltb_ge _ _)) by lia.
    rewrite <- Hnonce at 1 2. rewrite str_take_app_le, str_take_all, str_drop_app_ge by lia. by rewrite Nat.sub_diag. }
  split_and!.
  - intros [Hf|Hk]; [done|]. rewrite Hk, E0. cbn. rewrite Hs by done. apply Hopen; [|done].
    unfold IsEnabled in E0. by apply bool_decide_eq_true in E0.
  - intros _ E1. by rewrite E1.
  - intros v. destruct (IsEnabled key1) eqn:E1; cbn; [|done]. rewrite Hs by done. intros H. right. by exists n.
Qed.
End RoundTrip.

(** In production the server does not run without a key. *)
Lemma production_encrypts menv raw key : isProdEnv menv = true -> initKeyStrict menv raw = Some key ->
  IsEnabled key = true /\ CurrentEncryptionVersion key = EncryptionVersionAESGCM.
Proof.
  intros Hp. unfold initKeyStrict. rewrite Hp. destruct (IsEnabled _) eqn:E; cbn; [|done]. intros [= <-].
  split; [done|]. unfold CurrentEncryptionVersion. by rewrite E.
Qed.

(** ** The defaults of the providers *)

Lemma base_url_defaults_lookup l : forall e k,
  NoDup l.*1 -> (forall kv kv', kv ∈ l -> kv' ∈ l -> api_key_of kv.1 <> kv'.1) ->
  foldl base_url_default e l !! k =
    match list_find (fun kv => kv.1 = k) l with
    | Some (_, kv) => if decide (default "" (e !! api_key_of k) <> "" /\ default "" (e !! k) = "") then Some kv.2 else e !! k
    | None => e !! k
    end.
Proof.
  induction l as [|kv l IH]; intros e k Hnd Hapi; [done|]. cbn [foldl list_find]. apply NoDup_cons in Hnd as [Hni Hnd].
  rewrite IH by (try done; intros; apply Hapi; by right).
  assert (Hother : forall i, i <> kv.1 -> base_url_default e kv !! i = e !! i).
  { intros i Hi. unfold base_url_default. case_decide; [done|]. case_decide; [|done]. by rewrite lookup_insert_ne. }
  destruct (decide (kv.1 = k)) as [<-|Hne].
  - destruct (list_find _ l) as [[i kv']|] eqn:Ef.
    { apply list_find_Some in Ef as (Hi & Hk & _). destruct Hni. rewrite <- Hk. apply list_elem_of_fmap. exists kv'. split; [done|].
      by eapply list_elem_of_lookup_2. }
    unfold base_url_default. repeat case_decide; try tauto; by rewrite lookup_insert_eq.
  - rewrite (Hother k) by done. destruct (list_find _ l) as [[i kv']|] eqn:Ef; cbn; [|done].
    apply list_find_Some in Ef as (Hi & <- & _). apply list_elem_of_lookup_2 in Hi. rewrite Hother; [done|].
    apply Hapi; [by right|left].
Qed.

(** The canonical URL of a key that has none. *)
Definition url_default (e : env) (k : string) : option string :=
  match list_find (fun kv => kv.1 = k) ProviderBaseURLDefaults with
  | Some (_, kv) => if decide (default "" (e !! api_key_of k) <> "" /\ default "" (e !! k) = "") then Some kv.2 else e !! k
  | None => e !! k
  end.
Lemma applyProviderBaseURLDefaults_lookup e k : applyProviderBaseURLDefaults e !! k = url_default e k.
Proof.
  apply base_url_defaults_lookup.
  - vm_compute. repeat (constructor; [set_solver|]). constructor.
  - assert (H : forallb (fun kv => forallb (fun kv' => negb (bool_decide (api_key_of kv.1 = kv'.1))) ProviderBaseURLDefaults) ProviderBaseURLDefaults = true)
      by (vm_compute; reflexivity).
    intros kv kv' Hk Hk'. rewrite forallb_forall in H. specialize (H kv ltac:(by apply list_elem_of_In)).
    rewrite forallb_forall in H. specialize (H kv' ltac:(by apply list_elem_of_In)). by apply negb_true_iff, bool_decide_eq_false in H.
Qed.

Lemma url_default_alt e k : url_default e k = if decide (k ∈ ProviderBaseURLDefaults.*1)
  then (if decide (default "" (e !! api_key_of k) <> "" /\ default "" (e !! k) = "")
        then list_to_map (M := gmap string string) ProviderBaseURLDefaults !! k else e !! k)
  else e !! k.
Proof.
  unfold url_default. destruct (list_find _ _) as [[i kv]|] eqn:Ef.
  - apply list_find_Some in Ef as (Hi & <- & _). apply list_elem_of_lookup_2 in Hi.
    rewrite (decide_True (P := kv.1 ∈ _)) by (apply list_elem_of_fmap; eauto). case_decide; [|done]. symmetry.
    apply elem_of_list_to_map_1; [|by destruct kv]. vm_compute. repeat (constructor; [set_solver|]). constructor.
  - apply list_find_None in Ef. rewrite decide_False; [done|]. intros (kv & -> & Hin)%list_elem_of_fmap.
    rewrite Forall_forall in Ef. by apply (Ef _ Hin).
Qed.

(** ** What a workspace gets *)

Section Merge.
Context (open_ : string -> string -> string -> option string).

(** The value a readable row contributes. *)
Definition row_value (key : string) (f : read_fault) (k : string) (row : option secret_row) : option string :=
  if decide (k = "LLM_PROVIDER") then None
  else if rf_query f || rf_lost f k then None
  else match row with Some r => DecryptVersioned open_ key (sr_value r) (sr_version r) | None => None end.
Definition own_value (key : string) (f : read_fault) (ws k : string) (s : secrets) : option string :=
  row_value key f k (ws_secrets s !! (ws, k)).
Definition global_value (key : string) (f : read_fault) (k : string) (s : secrets) : option string :=
  row_value key f k (global_secrets s !! k).

Lemma rows_of_elem ws s k r : (k, r) ∈ rows_of ws s <-> ws_secrets s !! (ws, k) = Some r.
Proof.
  unfold rows_of. rewrite list_elem_of_omap. split.
  - intros ([[w k'] r'] & Hin & H). cbn in H. case_decide as Hw; [|done]. injection H as -> ->. subst w. by apply elem_of_map_to_list.
  - intros H. exists ((ws, k), r). split; [by apply elem_of_map_to_list|]. cbn. by rewrite decide_True.
Qed.

Lemma rows_of_NoDup ws s : NoDup (rows_of ws s).*1.
Proof.
  unfold rows_of. pose proof (NoDup_fst_map_to_list (ws_secrets s)) as Hnd. revert Hnd.
  generalize (map_to_list (ws_secrets s)). intros l. induction l as [|[[w k] r] l IH]; cbn; [constructor|].
  intros [Hni Hnd]%NoDup_cons. case_decide as Hw; cbn; [|by apply IH]. subst w. constructor; [|by apply IH].
  intros ([k' r'] & E & Hin)%list_elem_of_fmap. cbn in E. subst k'. apply Hni. apply list_elem_of_omap in Hin as ([[w' k''] r''] & Hin & H).
  cbn in H. case_decide; [|done]. injection H as -> ->. subst w'. apply list_elem_of_fmap. by exists ((ws, k), r').
Qed.

(** Both loads, as one: [mark] is what a row does to the origins. *)
Lemma load_rows_spec key (f : string * secret_row -> loaded -> option loaded) (mark : string -> loaded -> loaded)
    (Hf : forall kr l, f kr l = if decide (kr.1 = "LLM_PROVIDER") then Some l
       else match DecryptVersioned open_ key (sr_value kr.2) (sr_version kr.2) with
            | None => None | Some v => Some (mark kr.1 (Loaded (<[kr.1 := v]> (ld_env l)) (ld_global l) (ld_workspace l))) end)
    (Hmark : forall k l, ld_env (mark k l) = ld_env l) rows : forall l l',
  NoDup rows.*1 -> load_rows f rows l = Some l' ->
  (forall k, ld_env l' !! k = match list_to_map (M := gmap string secret_row) rows !! k with
     | Some r => if decide (k = "LLM_PROVIDER") then ld_env l !! k else DecryptVersioned open_ key (sr_value r) (sr_version r)
     | None => ld_env l !! k end) /\
  (forall k r, (k, r) ∈ rows -> k <> "LLM_PROVIDER" -> is_Some (DecryptVersioned open_ key (sr_value r) (sr_version r))).
Proof.
  induction rows as [|[k0 r0] rows IH]; intros l l' Hnd; cbn.
  - intros [= <-]. split; [done|]. intros k r Hn. by apply elem_of_nil in Hn.
  - apply NoDup_cons in Hnd as [Hni Hnd]. cbn in Hni. rewrite Hf. cbn [fst snd].
    assert (Hnone : list_to_map (M := gmap string secret_row) rows !! k0 = None) by (by apply not_elem_of_list_to_map).
    destruct (decide (k0 = "LLM_PROVIDER")) as [Hl|Hl].
    + intros (He & Hd)%IH; [|done]. split.
      * intros k. rewrite He. destruct (decide (k = k0)) as [->|Hne]; [by rewrite lookup_insert_eq, Hnone, decide_True|by rewrite lookup_insert_ne].
      * intros k r [[= -> ->]|Hin]%elem_of_cons Hk; [done|by eapply Hd].
    + destruct (DecryptVersioned _ _ _ _) as [v|] eqn:Ed; [|done]. intros (He & Hd)%IH; [|done]. split.
      * intros k. rewrite He, Hmark. cbn [ld_env]. destruct (decide (k = k0)) as [->|Hne].
        -- rewrite Hnone, !lookup_insert_eq. by rewrite decide_False.
        -- by rewrite !lookup_insert_ne.
      * intros k r [[= -> ->]|Hin]%elem_of_cons Hk; [by rewrite Ed|by eapply Hd].
Qed.
Lemma load_rows_global key rows : forall l l', load_rows (load_global open_ key) rows l = Some l' ->
  ld_global l' = list_to_set (filter (fun k => k <> "LLM_PROVIDER") rows.*1) ∪ ld_global l /\ ld_workspace l' = ld_workspace l.
Proof.
  induction rows as [|[k0 r0] rows IH]; intros l l'; [intros [= <-]; split; [set_solver|done]|].
  cbn [load_rows]. unfold load_global at 1. rewrite fmap_cons. cbn [fst snd]. destruct (decide (k0 = "LLM_PROVIDER")) as [Hl|Hl].
  - intros H. rewrite filter_cons_False by (by intros ?). by apply IH.
  - destruct (DecryptVersioned _ _ _ _); [|done]. intros [-> ->]%IH. rewrite filter_cons_True by done. cbn. split; [set_solver|done].
Qed.

Lemma load_rows_own key rows : forall l l', load_rows (load_own open_ key) rows l = Some l' ->
  let ks := list_to_set (filter (fun k => k <> "LLM_PROVIDER") rows.*1) in
  ld_global l' = ld_global l ∖ ks /\ ld_workspace l' = ks ∪ ld_workspace l.
Proof.
  induction rows as [|[k0 r0] rows IH]; intros l l'; [intros [= <-]; split; set_solver|].
  cbn [load_rows]. unfold load_own at 1. rewrite fmap_cons. cbn [fst snd]. destruct (decide (k0 = "LLM_PROVIDER")) as [Hl|Hl].
  - intros H. rewrite filter_cons_False by (by intros ?). by apply IH.
  - destruct (DecryptVersioned _ _ _ _); [|done]. intros [-> ->]%IH. rewrite filter_cons_True by done. cbn. split; set_solver.
Qed.

(** The rows that were read, as a map. *)
Lemma read_rows_map f rows k : NoDup rows.*1 ->
  list_to_map (M := gmap string secret_row) (read_rows f rows) !! k =
    if rf_query f || rf_lost f k then None else list_to_map (M := gmap string secret_row) rows !! k.
Proof.
  unfold read_rows. destruct (rf_query f); [done|]. cbn [orb]. induction rows as [|[k0 r0] rows IH]; [by destruct (rf_lost f k)|].
  rewrite fmap_cons. intros [Hni Hnd]%NoDup_cons. cbn [fst] in Hni. rewrite (list_to_map_cons rows k0 r0). destruct (rf_lost f k0) eqn:El.
  - rewrite filter_cons_False by (cbn; congruence). rewrite IH by done. destruct (decide (k = k0)) as [->|Hne]; [by rewrite El|].
    destruct (rf_lost f k); [done|]. by rewrite lookup_insert_ne.
  - rewrite filter_cons_True by done. rewrite list_to_map_cons. destruct (decide (k = k0)) as [->|Hne]; [by rewrite El, !lookup_insert_eq|].
    rewrite lookup_insert_ne, IH by done. destruct (rf_lost f k); [done|]. by rewrite lookup_insert_ne.
Qed.
Lemma read_rows_NoDup f rows : NoDup rows.*1 -> NoDup (read_rows f rows).*1.
Proof.
  intros Hnd. unfold read_rows. destruct (rf_query f); [constructor|]. eapply sublist_NoDup; [exact Hnd|].
  apply (fmap_sublist fst), filter_is_sublist.
Qed.
Lemma rows_of_map ws s k : list_to_map (M := gmap string secret_row) (rows_of ws s) !! k = ws_secrets s !! (ws, k).
Proof.
  destruct (ws_secrets s !! (ws, k)) as [r|] eqn:E.
  - apply elem_of_list_to_map_1; [apply rows_of_NoDup|by apply rows_of_elem].
  - apply not_elem_of_list_to_map_1. intros ([k' r] & -> & Hin)%list_elem_of_fmap. apply rows_of_elem in Hin. cbn in E. congruence.
Qed.

Lemma read_keys f rows k : NoDup rows.*1 ->
  (k ∈ filter (fun k => k <> "LLM_PROVIDER") (read_rows f rows).*1 <->
   k <> "LLM_PROVIDER" /\ rf_query f || rf_lost f k = false /\ is_Some (list_to_map (M := gmap string secret_row) rows !! k)).
Proof.
  intros Hnd. rewrite list_elem_of_filter. split.
  - intros [Hk Hin]. split; [done|]. destruct (list_to_map (M := gmap string secret_row) (read_rows f rows) !! k) as [r|] eqn:E.
    + rewrite read_rows_map in E by done. destruct (rf_query f || rf_lost f k); [done|]. by rewrite E.
    + apply not_elem_of_list_to_map_2 in E. done.
  - intros (Hk & Hf & Hs). split; [done|]. destruct (decide (k ∈ (read_rows f rows).*1)) as [|Hn]; [done|].
    apply not_elem_of_list_to_map_1 in Hn. rewrite read_rows_map, Hf in Hn by done. rewrite Hn in Hs. by destruct Hs.
Qed.

(** What the rows of a table contribute, once they all decrypt. *)
Definition decrypts (key : string) (rows : list (string * secret_row)) : Prop :=
  forall k r, (k, r) ∈ rows -> k <> "LLM_PROVIDER" -> is_Some (DecryptVersioned open_ key (sr_value r) (sr_version r)).

Lemma read_elem f rows (m : gmap string secret_row) k r : (forall k r, (k, r) ∈ rows <-> m !! k = Some r) -> m !! k = Some r ->
  rf_query f || rf_lost f k = false -> (k, r) ∈ read_rows f rows.
Proof.
  intros Hm Hr Hf. unfold read_rows. apply orb_false_iff in Hf as [-> Hf]. apply list_elem_of_filter. split; [done|]. by apply Hm.
Qed.

Lemma rows_map rows (m : gmap string secret_row) k : NoDup rows.*1 -> (forall k r, (k, r) ∈ rows <-> m !! k = Some r) ->
  list_to_map (M := gmap string secret_row) rows !! k = m !! k.
Proof.
  intros Hnd Hm. destruct (m !! k) as [r|] eqn:E; [apply elem_of_list_to_map_1; [done|by apply Hm]|].
  apply not_elem_of_list_to_map_1. intros ([k' r] & -> & Hin)%list_elem_of_fmap. apply Hm in Hin. cbn in E. congruence.
Qed.

Lemma contributed_keys key f rows (m : gmap string secret_row) k : NoDup rows.*1 -> (forall k r, (k, r) ∈ rows <-> m !! k = Some r) ->
  decrypts key (read_rows f rows) ->
  (is_Some (row_value key f k (m !! k)) <-> k ∈ filter (fun k => k <> "LLM_PROVIDER") (read_rows f rows).*1).
Proof.
  intros Hnd Hm Hd. rewrite read_keys, (rows_map _ m) by done. unfold row_value.
  destruct (decide (k = "LLM_PROVIDER")) as [Hl|Hl]; [split; [by intros []|tauto]|].
  destruct (rf_query f || rf_lost f k) eqn:Ef; [split; [by intros []|by intros (_ & ? & _)]|].
  destruct (m !! k) as [r|] eqn:Er; [|split; [by intros []|by intros (_ & _ & [])]].
  split; [done|]. intros _. eapply Hd; [by eapply read_elem|done].
Qed.

Lemma contributed_value key f rows (m : gmap string secret_row) k d : NoDup rows.*1 -> (forall k r, (k, r) ∈ rows <-> m !! k = Some r) ->
  decrypts key (read_rows f rows) ->
  match list_to_map (M := gmap string secret_row) (read_rows f rows) !! k with
  | Some r => if decide (k = "LLM_PROVIDER") then d else DecryptVersioned open_ key (sr_value r) (sr_version r)
  | None => d
  end = match row_value key f k (m !! k) with Some v => Some v | None => d end.
Proof.
  intros Hnd Hm Hd. rewrite read_rows_map, (rows_map _ m) by done. unfold row_value.
  destruct (decide (k = "LLM_PROVIDER")) as [Hl|Hl]; [by destruct (rf_query f || rf_lost f k), (m !! k)|].
  destruct (rf_query f || rf_lost f k) eqn:Ef; [done|]. destruct (m !! k) as [r|] eqn:Er; [|done].
  destruct (Hd k r) as [v ->]; [by eapply read_elem|done|done].
Qed.
End Merge.

(** The environment before the addresses are filled in, and the origins. *)
Lemma load_merges open_ fg fw key ws s l : loadWorkspaceSecrets open_ fg fw key ws s = inl l ->
  let own k := own_value open_ key fw ws k s in
  let glob k := global_value open_ key fg k s in
  (exists m, ld_env l = applyProviderBaseURLDefaults m /\ forall k, m !! k = match own k with Some v => Some v | None => glob k end) /\
  (forall k, k ∈ ld_workspace l <-> is_Some (own k)) /\
  (forall k, k ∈ ld_global l <-> own k = None /\ is_Some (glob k)) /\
  (forall k r, ws_secrets s !! (ws, k) = Some r -> k <> "LLM_PROVIDER" -> rf_query fw || rf_lost fw k = false -> is_Some (own k)).
Proof.
  intros Hload own glob. unfold loadWorkspaceSecrets in Hload.
  destruct (load_rows (load_global open_ key) _ _) as [l1|] eqn:E1; [|done].
  destruct (load_rows (load_own open_ key) _ l1) as [l2|] eqn:E2; [|done]. injection Hload as <-. cbn [ld_env ld_global ld_workspace].
  assert (Hgn := NoDup_fst_map_to_list (global_secrets s)). assert (Hwn := rows_of_NoDup ws s).
  assert (Hgm : forall k r, (k, r) ∈ map_to_list (global_secrets s) <-> global_secrets s !! k = Some r) by (intros; apply elem_of_map_to_list).
  set (wm := list_to_map (M := gmap string secret_row) (rows_of ws s)).
  assert (Hwm : forall k r, (k, r) ∈ rows_of ws s <-> wm !! k = Some r) by (intros; unfold wm; rewrite rows_of_map; apply rows_of_elem).
  assert (Hown : forall k, own k = row_value open_ key fw k (wm !! k)) by (intros k; unfold own, own_value, wm; by rewrite rows_of_map).
  destruct (load_rows_spec open_ key (load_global open_ key) (fun k l => Loaded (ld_env l) ({[k]} ∪ ld_global l) (ld_workspace l))
    (fun _ _ => eq_refl) (fun _ _ => eq_refl) _ _ _ (read_rows_NoDup fg _ Hgn) E1) as [Ge Gd].
  destruct (load_rows_spec open_ key (load_own open_ key) (fun k l => Loaded (ld_env l) (ld_global l ∖ {[k]}) ({[k]} ∪ ld_workspace l))
    (fun _ _ => eq_refl) (fun _ _ => eq_refl) _ _ _ (read_rows_NoDup fw _ Hwn) E2) as [We Wd].
  apply load_rows_global in E1 as [G1 G2]. apply load_rows_own in E2 as [W1 W2].
  assert (Own := fun k => contributed_keys open_ key fw _ wm k Hwn Hwm Wd).
  assert (Glob := fun k => contributed_keys open_ key fg _ _ k Hgn Hgm Gd).
  assert (Merged : forall k, ld_env l2 !! k = match own k with Some v => Some v | None => glob k end).
  { intros k. rewrite We, Ge. rewrite Hown. etransitivity; [by apply (contributed_value open_ key fw _ wm)|].
    rewrite (contributed_value open_ key fg _ _ k _ Hgn Hgm Gd). unfold glob, global_value. cbn. by destruct (row_value open_ key fw k (wm !! k)), (row_value open_ key fg k (global_secrets s !! k)). }
  split_and!.
  - by exists (ld_env l2).
  - intros k. rewrite W2, G2, Hown, Own. cbn. rewrite elem_of_union, elem_of_list_to_set. set_solver.
  - intros k. rewrite W1, G1, Hown. unfold glob, global_value. rewrite Glob. cbn.
    rewrite elem_of_difference, elem_of_union, !elem_of_list_to_set, <- Own, eq_None_not_Some. set_solver.
  - intros k r Hr Hk Hf. rewrite Hown. unfold row_value. rewrite decide_False, Hf by done. unfold wm. rewrite rows_of_map, Hr.
    eapply Wd; [|done]. eapply read_elem; [exact Hwm| |done]. unfold wm. by rewrite rows_of_map.
Qed.

(** What a workspace is given.  When its secrets load, every name holds the value of
    its own row if that is there and was read, else that of the organisation's row, and
    where both leave a provider's URL open while its key is set, the canonical one; the
    origins say which of the two it was, so that an own row is never taken for the
    organisation's.  The retired LLM_PROVIDER is in neither. *)
Theorem loaded_env_is_merged open_ fg fw key ws s l
    (Hload : loadWorkspaceSecrets open_ fg fw key ws s = inl l) :
  let own k := own_value open_ key fw ws k s in
  let glob k := global_value open_ key fg k s in
  let merged k := match own k with Some v => Some v | None => glob k end in
  (forall k, ld_env l !! k = if decide (k ∈ ProviderBaseURLDefaults.*1)
     then (if decide (default "" (merged (api_key_of k)) <> "" /\ default "" (merged k) = "")
           then list_to_map (M := gmap string string) ProviderBaseURLDefaults !! k else merged k)
     else merged k) /\
  (forall k, k ∈ ld_workspace l <-> is_Some (own k)) /\
  (forall k, k ∈ ld_global l <-> own k = None /\ is_Some (glob k)).
Proof.
  intros own glob merged. destruct (load_merges _ _ _ _ _ _ _ Hload) as ((m & -> & Hm) & Hw & Hg & _). split; [|by split].
  intros k. rewrite applyProviderBaseURLDefaults_lookup, url_default_alt, !Hm. done.
Qed.

Module SecretDemo.
Definition seal (k n p : string) : string := p.
Definition open_ (k n c : string) : option string := Some c.
Definition key : string := "0123456789abcdef0123456789abcde!".
Definition row (v : string) : secret_row := SecretRow v 0 0 0.
Definition store : secrets :=
  Secrets {[("w", "API_KEY") := row "own"]} (<["API_KEY" := row "org"]> (<["MINIMAX_API_KEY" := row "m"]> (<["LLM_PROVIDER" := row "p"]> ∅))).

(** A raw key of 32 letters and digits is read as base64 first, decodes to 24 bytes, and
    is refused; in production the server does not start with it. *)
Example raw_hex_key_is_refused :
  loadKeyFromEnv "0123456789abcdef0123456789abcdef" = ("", false) /\
  initKeyStrict "prod" "0123456789abcdef0123456789abcdef" = None /\ loadKeyFromEnv key = (key, true).
Proof. vm_compute. auto. Qed.

(** When the query of the own secrets fails, the organisation's value is used in place of
    the workspace's, and the load succeeds. *)
Example lost_override_uses_global :
  match loadWorkspaceSecrets open_ no_fault (ReadFault true (fun _ => false)) key "w" store with
  | inl l => ld_env l !! "API_KEY" = Some "org" | inr _ => False end /\
  match loadWorkspaceSecrets open_ no_fault no_fault key "w" store with
  | inl l => ld_env l !! "API_KEY" = Some "own" /\ ld_env l !! "MINIMAX_BASE_URL" = Some "https://api.minimax.io/v1" | inr _ => False end.
Proof. vm_compute. auto. Qed.

Lemma secret_survives_witness : DecryptVersioned open_ key ("123456789012" +:+ "value") (CurrentEncryptionVersion key) = Some "value".
Proof.
  assert (H : forall k n p, String.length k = key_size -> String.length n = nonce_size -> open_ k n (seal k n p) = Some p) by (intros; reflexivity).
  assert (E : Encrypt seal key (Some "123456789012") "value" = Some ("123456789012" +:+ "value")) by (vm_compute; reflexivity).
  assert (N : forall n, Some "123456789012" = Some n -> String.length n = nonce_size) by (intros n [= <-]; reflexivity).
  apply (proj1 (secret_survives seal open_ H key key _ _ _ E N)). right. reflexivity.
Defined.

Lemma loaded_env_is_merged_witness : exists l, loadWorkspaceSecrets open_ no_fault no_fault key "w" store = inl l /\ "API_KEY" ∉ ld_global l.
Proof.
  assert (E : is_Some (match loadWorkspaceSecrets open_ no_fault no_fault key "w" store with inl l => Some l | inr _ => None end)) by (vm_compute; eauto).
  destruct (loadWorkspaceSecrets open_ no_fault no_fault key "w" store) as [l|] eqn:El; [|destruct E as [? [=]]].
  exists l. split; [reflexivity|]. destruct (loaded_env_is_merged open_ no_fault no_fault key "w" store l El) as (_ & _ & H).
  rewrite H. vm_compute. intros [[=] _].
Defined.
End SecretDemo.
