(* ===== verification/ModelChoice.v ===== *)
(** * Which models may be chosen

    internal/handlers: model_registry_validation.go, provider_derive_helpers.go,
    offered_models.go, templates_registry.go, the vendor-key gate of secrets.go and the
    provider of a generated config in workspace_provision.go.  The registry in force is
    [reg]; [None] is one that did not load. *)

From S2P Require Import Prelude RateLimit SecretStore Providers.

Definition platformManagedDirectLLMBypassKeys : list string :=
  ["AI_GATEWAY_API_KEY"; "ANTHROPIC_API_KEY"; "ANTHROPIC_AUTH_TOKEN"; "ARCEEAI_API_KEY"; "CLAUDE_CODE_OAUTH_TOKEN"; "CODEX_AUTH_JSON";
   "DASHSCOPE_API_KEY"; "DEEPSEEK_API_KEY"; "GEMINI_API_KEY"; "GLM_API_KEY"; "HERMES_CUSTOM_API_KEY"; "HERMES_CUSTOM_BASE_URL"; "HF_TOKEN";
   "KIMI_API_KEY"; "KIMI_CN_API_KEY"; "MINIMAX_API_KEY"; "MINIMAX_CN_API_KEY"; "NOUS_API_KEY"; "OPENAI_API_KEY"; "OPENAI_BASE_URL";
   "OPENROUTER_API_KEY"; "XAI_API_KEY"; "ZAI_API_KEY"].
Definition isPlatformManagedDirectLLMBypassKey (key : string) : bool :=
  bool_decide (ToUpper (TrimSpace key) ∈ platformManagedDirectLLMBypassKeys).

Definition bareCreateDefaultRuntimeFallback : string := "hermes".
Definition bareCreateDefaultRuntime (isKnownRuntime : string -> bool) (MOLECULE_DEFAULT_RUNTIME : string) : string :=
  if negb (bool_decide (MOLECULE_DEFAULT_RUNTIME = "")) && isKnownRuntime MOLECULE_DEFAULT_RUNTIME
  then MOLECULE_DEFAULT_RUNTIME else bareCreateDefaultRuntimeFallback.

Section Choice.
Context (re_ok : string -> bool) (re_match : string -> string -> bool) (reg : option Manifest).
#[local] Abbreviation derive := (DeriveProvider re_ok re_match).

(** ** What a workspace brings *)

Definition authEnvNameSet : gset string :=
  match reg with None => ∅ | Some m => list_to_set (concat (map p_auth_env (m_providers m))) end.
Definition availableAuthEnvNames (envVars : env) : list string :=
  omap (fun kv => if decide (kv.2 <> "" /\ kv.1 ∈ authEnvNameSet) then Some kv.1 else None) (map_to_list envVars).

Section Stored.
Context (open_ : string -> string -> string -> option string) (default_runtime : string).

(** [rt]: the answer for the runtime column.  The runtime, the model, and the names. *)
Definition readWorkspaceDeriveInputs (rt : dbres (option string)) (f : read_fault) (key workspaceID : string) (s : secrets)
    : string * string * list string :=
  let runtime := match rt with DbOk (Some r) => r | _ => "" end in
  let runtime := if decide (runtime = "") then default_runtime else runtime in
  let rows := read_workspace f workspaceID s in
  let model := foldl (fun model kr => if decide (kr.1 = "MODEL")
                                      then match DecryptVersioned open_ key (sr_value kr.2) (sr_version kr.2) with Some v => v | None => model end
                                      else model) "" rows in
  (runtime, model, filter (fun k => k <> "MODEL" /\ k ∈ authEnvNameSet) rows.*1).

Definition platformManagedLLMModeForWorkspace (rt : dbres (option string)) (f : read_fault) (key workspaceID : string) (s : secrets) : bool :=
  let '(runtime, model, authEnv) := readWorkspaceDeriveInputs rt f key workspaceID s in
  match reg with
  | None => true
  | Some m => match derive m runtime model authEnv with inr _ => true | inl p => IsPlatform p end
  end.
(** Whether the write of [k] is answered 400. *)
Definition rejectPlatformManagedDirectLLMBypassForWorkspace (rt : dbres (option string)) (f : read_fault) (key workspaceID k : string) (s : secrets) : bool :=
  platformManagedLLMModeForWorkspace rt f key workspaceID s && isPlatformManagedDirectLLMBypassKey k.
End Stored.

(** ** The checks of a choice *)

Definition validateRegisteredModelForRuntime (runtime model : string) : bool :=
  let model := TrimSpace model in
  if decide (model = "") then true
  else match reg with
       | None => true
       | Some m =>
           match ModelsForRuntime m runtime with
           | None => true
           | Some models =>
               if decide (model ∈ models) then true
               else match derive m runtime model [] with inl _ => true | inr _ => false end
           end
       end.

Definition validateDerivedProviderInRegistry (runtime model : string) : bool :=
  let model := TrimSpace model in
  if decide (model = "") then true
  else match reg with
       | None => true
       | Some m => match derive m runtime model [] with
                   | inr _ => true
                   | inl p => existsb (fun c => bool_decide (p_name c = p_name p)) (m_providers m)
                   end
       end.

Definition accepts (p : Provider) (names : list string) : bool := existsb (fun want => bool_decide (want ∈ names)) (p_auth_env p).

(** [globals]: the names of the organisation's secrets, when they could all be read. *)
Definition validateBYOKCredentialSatisfiable (globals : option (list string)) (runtime model : string) (payloadSecretKeys : list string) : bool :=
  let model := TrimSpace model in
  if decide (model = "") then true
  else match reg with
       | None => true
       | Some m =>
           match derive m runtime model payloadSecretKeys with
           | inr _ => true
           | inl prov =>
               if IsPlatform prov || accepts prov payloadSecretKeys then true
               else match globals with
                    | None => true
                    | Some globalKeys =>
                        let avail := payloadSecretKeys ++ globalKeys in
                        match derive m runtime model avail with
                        | inr _ => true
                        | inl prov => IsPlatform prov || accepts prov avail
                        end
                    end
           end
       end.

Definition globalSecretKeyNames (fails : bool) (s : secrets) : option (list string) :=
  if fails then None else Some (map_to_list (global_secrets s)).*1.

Definition defaultModelForRuntime (runtime : string) : option string :=
  match reg with
  | None => None
  | Some m => match ModelsForRuntime m runtime with Some (x :: _) => Some x | _ => None end
  end.

(** ** What is offered *)

Record OfferedModel := Offered { of_model : string; of_provider : string; of_platform_billed : bool; of_auth_env : list string }.
Inductive offer_reply := OfferedModels (runtime : string) (models : list OfferedModel) | NoRegistry | NoSuchRuntime (runtime : string).

Definition offered_entry (m : Manifest) (runtime id : string) : option OfferedModel :=
  match derive m runtime id [] with
  | inr _ => None
  | inl p => Some (Offered id (p_name p) (IsPlatform p) (if IsPlatform p then [] else p_auth_env p))
  end.
(** The answer lists the models by their id; here they are in the order of the registry. *)
Definition ListOfferedModels (default_runtime query : string) : offer_reply :=
  let runtime := if decide (query = "") then default_runtime else query in
  match reg with
  | None => NoRegistry
  | Some m => match ModelsForRuntime m runtime with
              | None => NoSuchRuntime runtime
              | Some models => OfferedModels runtime (omap (offered_entry m runtime) models)
              end
  end.

Definition requiredEnvForRegistryProvider (p : Provider) : list string := if IsPlatform p then [] else p_auth_env p.

Record provider_view := ProviderView { pv_name : string; pv_display_name : string; pv_auth_env : list string; pv_deprecated : bool }.
Record model_spec := ModelSpec { ms_id : string; ms_provider : string; ms_required_env : list string }.
Record registry_block := RegistryBlock { rb_display_name : string; rb_providers : list provider_view; rb_models : list model_spec }.

Definition served_model (proxyOn : bool) (m : Manifest) (runtime id : string) : option model_spec :=
  match derive m runtime id [] with
  | inr _ => Some (ModelSpec id "" [])
  | inl p => if negb proxyOn && IsPlatform p then None else Some (ModelSpec id (p_name p) (requiredEnvForRegistryProvider p))
  end.
(** [None]: the fields of the template stand. *)
Definition enrichFromRegistry (proxyOn : bool) (runtime : string) : option registry_block :=
  match reg with
  | None => None
  | Some m =>
      match ProvidersForRuntime m runtime, ModelsForRuntime m runtime with
      | Some provs, Some models =>
          Some (RegistryBlock (match m_runtimes m !! runtime with Some n => rt_display_name n | None => "" end)
                  (map (fun p => ProviderView (p_name p) (p_display_name p) (p_auth_env p) (p_deprecated p))
                     (filter (fun p => negb proxyOn && IsPlatform p = false) provs))
                  (omap (served_model proxyOn m runtime) models))
      | _, _ => None
      end
  end.

(** The provider of a generated config: none, one, or an error that blocks. *)
Definition deriveDefaultConfigProvider (runtime model : string) : option string + unit :=
  if decide (TrimSpace model = "") then inl None
  else match reg with
       | None => inr tt
       | Some m =>
           match m_runtimes m !! runtime with
           | None => inl None
           | Some native =>
               match derive m runtime model [] with
               | inl p => inl (Some (p_name p))
               | inr _ =>
                   if existsb (fun r => bool_decide (model ∈ ref_models r) ||
                                 match byName (m_providers m) !! ref_name r with Some p => MatchesModel re_ok re_match p model | None => false end)
                        (rt_providers native)
                   then inr tt else inl None
               end
           end
       end.
End Choice.

(** ** The menu and its enforcement *)

Section Menu.
Context (re_ok : string -> bool) (re_match : string -> string -> bool).
#[local] Abbreviation derive := (DeriveProvider re_ok re_match).

(** How a listed model resolves. *)
Lemma derive_exact m rt native id p l env : m_runtimes m !! rt = Some native -> TrimSpace id = id -> id <> "" ->
  exact_arms m native id = p :: l ->
  derive m rt id env = inl (match l with [] => p | _ => default p (disambiguateByAuthEnv (p :: l) env) end).
Proof.
  intros Hrt Ht Hne Hex. unfold DeriveProvider. rewrite Ht, (decide_False _ _ Hne), Hrt, Hex.
  destruct l; [done|]. by destruct (disambiguateByAuthEnv _ _).
Qed.

Lemma dedup_onto_elem l : forall seen x, x ∈ dedup_onto seen l <-> x ∈ l /\ x ∉ seen.
Proof.
  induction l as [|y l IH]; intros seen x; cbn; [set_solver|]. case_decide as Hy.
  - rewrite IH. set_solver.
  - rewrite elem_of_cons, IH. destruct (decide (x = y)); set_solver.
Qed.
Lemma dedup_onto_NoDup l : forall seen, NoDup (dedup_onto seen l).
Proof.
  induction l as [|y l IH]; intros seen; cbn; [constructor|]. case_decide; [apply IH|]. constructor; [|apply IH].
  rewrite dedup_onto_elem. set_solver.
Qed.

Lemma menu_elem m rt native : m_runtimes m !! rt = Some native ->
  (exists models, ModelsForRuntime m rt = Some models /\ NoDup models /\
     forall id, id ∈ models <-> exists r, r ∈ rt_providers native /\ id ∈ ref_models r).
Proof.
  intros Hrt. unfold ModelsForRuntime. rewrite Hrt. eexists. split_and!; [done|apply dedup_onto_NoDup|]. intros i.
  rewrite dedup_onto_elem. split.
  - intros [Hin _]. apply list_elem_of_In, in_concat in Hin as (l & Hl & Hi). apply in_map_iff in Hl as (r & <- & Hr).
    exists r. split; by apply list_elem_of_In.
  - intros (r & Hr & Hi). split; [|set_solver]. apply list_elem_of_In, in_concat. exists (ref_models r).
    split; [apply in_map|]; by apply list_elem_of_In.
Qed.

Lemma listed_has_arm m rt native id : manifest_ok re_ok m -> m_runtimes m !! rt = Some native ->
  (exists r, r ∈ rt_providers native /\ id ∈ ref_models r) -> exists p l, exact_arms m native id = p :: l.
Proof.
  intros Hok Hrt (r & Hr & Hi). destruct (runtimes_resolve _ _ Hok _ _ Hrt) as (_ & _ & Hf). rewrite Forall_forall in Hf.
  destruct (byName_is_Some _ _ (Hf _ Hr)) as [p Hp].
  assert (Hin : p ∈ exact_arms m native id) by (apply exact_arms_elem; eauto).
  destruct (exact_arms m native id) as [|q l]; [by apply elem_of_nil in Hin|eauto].
Qed.

Lemma exact_arm_native m native id p : p ∈ exact_arms m native id ->
  p ∈ m_providers m /\ exists r, r ∈ rt_providers native /\ ref_name r = p_name p /\ id ∈ ref_models r.
Proof.
  intros (r & Hr & Hi & Hp)%exact_arms_elem. apply byName_lookup in Hp as [Hin Hn]. split; [done|]. by exists r.
Qed.

Lemma derive_listed_elem m native id p l env : exact_arms m native id = p :: l ->
  match l with [] => p | _ => default p (disambiguateByAuthEnv (p :: l) env) end ∈ exact_arms m native id.
Proof.
  intros ->. destruct l as [|q l]; [left|]. destruct (disambiguateByAuthEnv _ _) as [s|] eqn:E; [|left].
  by apply disambiguate_elem in E as [E _].
Qed.

(** What is offered is what is enforced.  In a registry that loaded, whose ids carry no
    space around them, the offer for a runtime names every model of its menu once, with a
    native provider of the runtime that lists it.  Each passes both checks of a choice;
    without any credential the credential check passes exactly the ones said to be billed
    to the platform, and with one of the names the offer lists it passes the others. *)
Theorem menu_is_enforced raw m d query rt offers
    (Hload : parseManifest re_ok raw = inl m)
    (Hclean : forall native r id, m_runtimes m !! rt = Some native -> r ∈ rt_providers native -> id ∈ ref_models r ->
       TrimSpace id = id /\ id <> "")
    (Hoffer : ListOfferedModels re_ok re_match (Some m) d query = OfferedModels rt offers) :
  exists native, m_runtimes m !! rt = Some native /\
  NoDup (map of_model offers) /\
  (forall id, id ∈ map of_model offers <-> exists r, r ∈ rt_providers native /\ id ∈ ref_models r) /\
  forall o, o ∈ offers ->
    (exists p r, p ∈ m_providers m /\ r ∈ rt_providers native /\ ref_name r = p_name p /\ of_model o ∈ ref_models r /\
       of_provider o = p_name p /\ of_platform_billed o = IsPlatform p /\ of_auth_env o = requiredEnvForRegistryProvider p) /\
    validateRegisteredModelForRuntime re_ok re_match (Some m) rt (of_model o) = true /\
    validateDerivedProviderInRegistry re_ok re_match (Some m) rt (of_model o) = true /\
    validateBYOKCredentialSatisfiable re_ok re_match (Some m) (Some []) rt (of_model o) [] = of_platform_billed o /\
    forall e globals, e ∈ of_auth_env o -> validateBYOKCredentialSatisfiable re_ok re_match (Some m) globals rt (of_model o) [e] = true.
Proof.
  assert (Hok : manifest_ok re_ok m) by (by eapply parseManifest_ok). unfold ListOfferedModels in Hoffer.
  destruct (ModelsForRuntime m _) as [models|] eqn:Emenu; [|done]. injection Hoffer as Hrt <-. rewrite Hrt in *.
  assert (Hnat : exists native, m_runtimes m !! rt = Some native).
  { unfold ModelsForRuntime in Emenu. destruct (m_runtimes m !! rt); [eauto|done]. }
  destruct Hnat as [native Hnat]. exists native. split; [done|].
  destruct (menu_elem m rt native Hnat) as (models' & E & Hnd & Hmenu). rewrite Emenu in E. injection E as <-.
  assert (Hres : forall id, id ∈ models -> TrimSpace id = id /\ id <> "" /\ exists p l, exact_arms m native id = p :: l).
  { intros id (r & Hr & Hi)%Hmenu. destruct (Hclean _ _ _ Hnat Hr Hi). split_and!; [done|done|]. eapply listed_has_arm; eauto. }
  assert (Hent : forall id, id ∈ models -> exists o, offered_entry re_ok re_match m rt id = Some o /\ of_model o = id).
  { intros id Hid. destruct (Hres _ Hid) as (Ht & Hne & p & l & Hex). unfold offered_entry.
    rewrite (derive_exact _ _ _ _ _ _ [] Hnat Ht Hne Hex). eauto. }
  assert (Hids : map of_model (omap (offered_entry re_ok re_match m rt) models) = models).
  { clear -Hent. induction models as [|x models IH]; [done|]. cbn. destruct (Hent x) as (o & -> & Ho); [left|]. cbn. rewrite Ho, IH; [done|].
    intros id Hid. apply Hent. by right. }
  rewrite Hids. split; [done|]. split; [done|]. intros o Ho.
  apply list_elem_of_omap in Ho as (id & Hid & Ho). destruct (Hres _ Hid) as (Ht & Hne & p & l & Hex).
  pose proof (derive_exact _ _ _ _ _ _ [] Hnat Ht Hne Hex) as Hd.
  set (p0 := match l with [] => p | _ => _ end) in Hd. unfold offered_entry in Ho. rewrite Hd in Ho. injection Ho as <-.
  cbn [of_model of_provider of_platform_billed of_auth_env]. assert (Hp0 : p0 ∈ exact_arms m native id) by (by apply (derive_listed_elem m native id p l [])).
  apply exact_arm_native in Hp0 as (Hin0 & r & Hr & Hn & Hi). split_and!.
  - exists p0, r. split_and!; try done. 
  - unfold validateRegisteredModelForRuntime. rewrite Ht, (decide_False _ _ Hne), Emenu. by rewrite decide_True.
  - unfold validateDerivedProviderInRegistry. rewrite Ht, (decide_False _ _ Hne), Hd.
    apply existsb_exists. exists p0. split; [by apply list_elem_of_In|by apply bool_decide_eq_true].
  - unfold validateBYOKCredentialSatisfiable. rewrite Ht, (decide_False _ _ Hne), Hd.
    assert (Ha : accepts p0 [] = false).
    { unfold accepts. induction (p_auth_env p0) as [|e es IHe]; [done|]. cbn. by rewrite bool_decide_false by (intros Hn'; by apply elem_of_nil in Hn'). }
    cbn [app]. rewrite Hd, Ha. by destruct (IsPlatform p0).
  - intros e globals He. unfold validateBYOKCredentialSatisfiable.
    rewrite Ht, (decide_False _ _ Hne), (derive_exact _ _ _ _ _ _ [e] Hnat Ht Hne Hex).
    set (p1 := match l with [] => p | _ => _ end). assert (Ha : accepts p1 [e] = true); [|by rewrite Ha, orb_true_r].
    assert (He0 : e ∈ p_auth_env p0) by (destruct (IsPlatform p0); [by apply elem_of_nil in He|done]).
    assert (Hacc : e ∈ p_auth_env p1).
    { unfold p0, p1 in *. destruct l as [|q l]; [done|]. destruct (disambiguateByAuthEnv (p :: q :: l) [e]) as [s|] eqn:E; [|exact He0].
      apply disambiguate_elem in E as (_ & e' & He' & Hs). apply list_elem_of_singleton in He' as ->. done. }
    unfold accepts. apply existsb_exists. exists e. split; [by apply list_elem_of_In|by apply bool_decide_eq_true; left].
Qed.

(** Without a proxy no model and no provider of the platform is served. *)
Lemma selfhost_hides_platform m rt b : enrichFromRegistry re_ok re_match (Some m) false rt = Some b ->
  (forall v, v ∈ rb_providers b -> pv_name v <> PlatformProviderName) /\ (forall s, s ∈ rb_models b -> ms_provider s <> PlatformProviderName).
Proof.
  unfold enrichFromRegistry. destruct (ProvidersForRuntime m rt) as [provs|]; [|done]. destruct (ModelsForRuntime m rt) as [models|]; [|done].
  intros [= <-]. cbn [rb_providers rb_models]. split.
  - intros v Hv. apply list_elem_of_In, in_map_iff in Hv as (p & <- & Hp). apply list_elem_of_In, list_elem_of_filter in Hp as [Hp _].
    cbn in *. unfold IsPlatform in Hp. by apply bool_decide_eq_false in Hp.
  - intros s (id & _ & Hs)%list_elem_of_omap. unfold served_model in Hs. destruct (derive m rt id []) as [p|]; [|by injection Hs as <-].
    cbn in Hs. destruct (IsPlatform p) eqn:E; [done|]. injection Hs as <-. cbn. by apply bool_decide_eq_false in E.
Qed.
End Menu.

Module ModelDemo.
Definition re_ok (_ : string) : bool := true.
Definition re_match (p s : string) : bool := has_prefix s p.
Definition arm (name prefix : string) (auth : list string) (tokenEnv anthropicURL : string) : Provider :=
  MkProvider name name "anthropic" "anthropic_api" "" anthropicURL auth tokenEnv prefix false "".
Definition platform : Provider := arm "platform" "none!" ["MOLECULE_LLM_USAGE_TOKEN"] "ANTHROPIC_API_KEY" "".
Definition minimax : Provider := arm "minimax" "MiniMax" ["MINIMAX_API_KEY"] "ANTHROPIC_AUTH_TOKEN" "https://api.minimax.io/anthropic/v1".
Definition groq : Provider := arm "groq" "groq:" ["GROQ_API_KEY"] "" "".
Definition raw : raw_manifest := RawManifest 1 [platform; minimax; groq]
  {["claude-code" := NativeSet "Claude Code" [Ref "platform" ["minimax/M2"]; Ref "minimax" ["MiniMax-M2"]; Ref "groq" []]]}.
Definition registry : Manifest := MkManifest (raw_providers raw) (raw_runtimes raw).

Example registry_loads : parseManifest re_ok (Some raw) = inl registry.
Proof. vm_compute. reflexivity. Qed.

(** An id with a space around it is on the menu, and no choice of it resolves. *)
Example spaced_id_is_not_offered :
  let m := MkManifest [platform] {["rt" := NativeSet "" [Ref "platform" [" m "]]]} in
  ModelsForRuntime m "rt" = Some [" m "] /\ ListOfferedModels re_ok re_match (Some m) "" "rt" = OfferedModels "rt" [].
Proof. vm_compute. auto. Qed.

Definition offers : list OfferedModel :=
  [Offered "minimax/M2" "platform" true []; Offered "MiniMax-M2" "minimax" false ["MINIMAX_API_KEY"]].
Lemma menu_is_enforced_witness :
  validateBYOKCredentialSatisfiable re_ok re_match (Some registry) (Some []) "claude-code" "MiniMax-M2" [] = false.
Proof.
  assert (Ho : ListOfferedModels re_ok re_match (Some registry) "hermes" "claude-code" = OfferedModels "claude-code" offers) by (vm_compute; reflexivity).
  assert (Hc : forall native r id, m_runtimes registry !! "claude-code" = Some native -> r ∈ rt_providers native -> id ∈ ref_models r ->
    TrimSpace id = id /\ id <> "").
  { intros native r id Hn. vm_compute in Hn. injection Hn as <-. cbn. rewrite !elem_of_cons, elem_of_nil.
    intros [->|[->|[->|[]]]]; cbn; rewrite ?elem_of_cons, elem_of_nil; intros Hi; try tauto;
      destruct Hi as [->|[]]; split; [vm_compute; reflexivity|discriminate|vm_compute; reflexivity|discriminate]. }
  destruct (menu_is_enforced re_ok re_match (Some raw) registry "hermes" "claude-code" "claude-code" offers registry_loads Hc Ho)
    as (native & _ & _ & _ & H).
  destruct (H (Offered "MiniMax-M2" "minimax" false ["MINIMAX_API_KEY"])) as (_ & _ & _ & Hb & _); [right; left|exact Hb].
Defined.
End ModelDemo.
