(* ===== verification/LlmEnv.v ===== *)
(** * Who pays for a model

    internal/handlers/workspace_provision.go, applyPlatformManagedLLMEnv and what it calls:
    whether a workspace runs on the proxy of the platform or on its own key, and what its
    environment holds in either case.  [os] is the environment of the server, [reg] the
    registry in force, [rootEnv] the secrets of the platform agent. *)

From S2P Require Import Prelude RateLimit SecretStore Providers ModelChoice.

Definition firstNonEmptyEnv (os : string -> string) (names : list string) : string :=
  default "" (List.find (fun v => negb (bool_decide (v = ""))) (map (fun n => TrimSpace (os n)) names)).
Definition llm_base_url (os : string -> string) : string := firstNonEmptyEnv os ["MOLECULE_LLM_BASE_URL"; "OPENAI_BASE_URL"].
Definition llm_anthropic_url (os : string -> string) : string := firstNonEmptyEnv os ["MOLECULE_LLM_ANTHROPIC_BASE_URL"; "ANTHROPIC_BASE_URL"].
Definition llm_token (os : string -> string) : string := firstNonEmptyEnv os ["MOLECULE_LLM_USAGE_TOKEN"; "OPENAI_API_KEY"].
Definition PlatformManagedProxyConfigured (os : string -> string) : bool :=
  negb (bool_decide (llm_base_url os = "")) && negb (bool_decide (llm_token os = "")).

Definition runtimeUsesAnthropicNativeProxy (runtime : string) : bool := bool_decide (str_lower (TrimSpace runtime) = "claude-code").

Definition get (e : env) (k : string) : string := default "" (e !! k).

(** The model a workspace will run. *)
Definition effectiveModelForBilling (model : string) (envVars : env) : string :=
  if negb (bool_decide (model = "")) then model
  else if negb (bool_decide (get envVars "MOLECULE_MODEL" = "")) then get envVars "MOLECULE_MODEL" else get envVars "MODEL".

Definition applyRuntimeModelEnv (runtime model : string) (envVars : env) : env :=
  let model := effectiveModelForBilling model envVars in
  if decide (model = "") then envVars
  else
    let e := <["MODEL" := model]> (<["MOLECULE_MODEL" := model]> envVars) in
    if decide (runtime = "hermes")
    then <["HERMES_DEFAULT_MODEL" := if has_prefix model "minimax:" then "minimax/" +:+ str_drop 8 model else model]> e
    else e.

(** ** Credentials *)

Definition canonical_name (k : string) : string := ToUpper (TrimSpace k).
Definition accepted_names (p : Provider) : list string := map canonical_name (p_auth_env p).

Definition hasAnyPlatformManagedLLMKey (p : Provider) (envVars : env) : bool :=
  existsb (fun key => bool_decide (canonical_name key ∈ accepted_names p) && negb (bool_decide (TrimSpace (get envVars key) = "")))
    platformManagedDirectLLMBypassKeys.

Definition remove_keys (ks : list string) (e : env) : env := foldr (fun k e => base.delete k e) e ks.
Definition stripPlatformManagedLLMBypassEnv (e : env) : env := remove_keys platformManagedDirectLLMBypassKeys e.

Section Env.
Context (re_ok : string -> bool) (re_match : string -> string -> bool) (os : string -> string) (reg : option Manifest).
#[local] Abbreviation derive := (DeriveProvider re_ok re_match).

(** A credential of the organisation the provider [p] does not take. *)
Definition stray (p : Provider) (key : string) : bool :=
  bool_decide (canonical_name key ∈ platformManagedDirectLLMBypassKeys) && negb (bool_decide (canonical_name key ∈ accepted_names p)).
Definition stripNonMatchingGlobalOriginLLMCreds (globalKeys : gset string) (runtime model : string) (authEnv : list string) (e : env) : env :=
  match reg with
  | None => e
  | Some m => match derive m runtime model authEnv with
              | inr _ => e
              | inl p => remove_keys (filter (fun k => stray p k = true) (elements globalKeys)) e
              end
  end.

(** The text after the last occurrence of a byte, if there is some. *)
Fixpoint after_last (sep : Ascii.ascii) (s : string) : option string :=
  match s with
  | "" => None
  | String a rest => match after_last sep rest with Some t => Some t | None => if decide (a = sep) then Some rest else None end
  end.
Definition non_empty (o : option string) : list string := match o with Some "" | None => [] | Some s => [s] end.
Definition onboardingModelCandidates (rootModel : string) : list string :=
  if decide (rootModel = "") then []
  else rootModel :: non_empty (snd <$> str_cut colon rootModel) ++ non_empty (after_last slash rootModel).

Definition usable_candidate (m : Manifest) (runtime : string) (authEnv : list string) (envVars : env) (cand : string) : option (string * Provider) :=
  match derive m runtime cand authEnv with
  | inr _ => None
  | inl p => if IsPlatform p then None else if hasAnyPlatformManagedLLMKey p envVars then Some (cand, p) else None
  end.
Definition onboardingSelectedFallback (rootEnv : env) (m : Manifest) (runtime : string) (envVars : env) : option (string * Provider) :=
  let rootModel := TrimSpace (get rootEnv "MODEL") in
  if decide (rootModel = "") then None
  else head (omap (usable_candidate m runtime (availableAuthEnvNames reg envVars) envVars) (onboardingModelCandidates rootModel)).

(** ** The route *)

Record route := Route {
  ro_platform : bool; ro_provider : Provider; ro_resolved : string; ro_model : string; ro_substituted : string; ro_env : env
}.

Definition first_platform (m : Manifest) (p : Provider) : Provider := default p (List.find IsPlatform (m_providers m)).

Definition choose_route (rootEnv : env) (runtime model : string) (envVars : env) : route :=
  let effective := effectiveModelForBilling model envVars in
  let proxy := PlatformManagedProxyConfigured os in
  let unknown := Route proxy zero_provider "" effective "" envVars in
  match reg with
  | None => unknown
  | Some m =>
      match derive m runtime effective (availableAuthEnvNames reg envVars) with
      | inr _ => unknown
      | inl p =>
          let flip := negb (IsPlatform p) && proxy && negb (hasAnyPlatformManagedLLMKey p envVars) in
          let r := if flip then Route true (first_platform m p) PlatformProviderName effective "" envVars
                   else Route (IsPlatform p) p (p_name p) effective "" envVars in
          if ro_platform r && negb proxy
          then match onboardingSelectedFallback rootEnv m runtime envVars with
               | Some (ob, q) => Route false q (p_name q) ob ob (<["MOLECULE_MODEL" := ob]> (<["MODEL" := ob]> envVars))
               | None => r
               end
          else r
      end
  end.

Record llm_result := LlmResult { RoutedToPlatform : bool; HasUsableLLMCred : bool; SubstitutedModel : string }.

Definition publish (r : route) : env :=
  let name := if decide (ro_resolved r = "") then (if ro_platform r then PlatformProviderName else "") else ro_resolved r in
  if decide (name = "") then ro_env r else <["MOLECULE_RESOLVED_PROVIDER" := name]> (ro_env r).

(** What the Anthropic adapter reads, from the workspace's own credential. *)
Fixpoint trim_slashes (fuel : nat) (s : string) : string :=
  match fuel with
  | O => s
  | S f => let n := (String.length s - 1)%nat in
           if decide (str_drop n s = "/") then trim_slashes f (str_take n s) else s
  end.
Definition trim_v1 (s : string) : string :=
  let n := (String.length s - 3)%nat in if decide (str_drop n s = "/v1") then str_take n s else s.
Definition adapter_base (url : string) : string := trim_v1 (trim_slashes (String.length url) url).

Definition first_credential (p : Provider) (e : env) : string :=
  default "" (List.find (fun v => negb (bool_decide (v = ""))) (map (fun a => TrimSpace (get e a)) (p_auth_env p))).
Definition project_token (p : Provider) (e : env) : env :=
  if decide (is_Some (e !! p_auth_token_env p)) then e
  else if decide (first_credential p e = "") then e else <[p_auth_token_env p := first_credential p e]> e.
Definition project_base (p : Provider) (e : env) : env :=
  if decide (is_Some (e !! "ANTHROPIC_BASE_URL")) then e
  else if decide (p_base_url_anthropic p = "") then e else <["ANTHROPIC_BASE_URL" := adapter_base (p_base_url_anthropic p)]> e.

Definition byok_provider (r : route) (runtime : string) (authEnv : list string) : Provider :=
  if negb (bool_decide (p_name (ro_provider r) = "")) || bool_decide (ro_model r = "") then ro_provider r
  else match reg with
       | None => ro_provider r
       | Some m => match derive m runtime (ro_model r) authEnv with inl p => p | inr _ => ro_provider r end
       end.
Definition project (r : route) (runtime : string) (authEnv : list string) (e : env) : env :=
  if negb (runtimeUsesAnthropicNativeProxy runtime) then e
  else let p := byok_provider r runtime authEnv in
       if decide (p_auth_token_env p = "") then e else project_base p (project_token p e).

(** The environment on the platform's proxy. *)
Definition proxied_env (workspaceID runtime : string) (p : Provider) (e : env) : env :=
  let e := stripPlatformManagedLLMBypassEnv e in
  let e := <["MOLECULE_LLM_USAGE_TOKEN" := llm_token os]> (<["MOLECULE_LLM_BASE_URL" := llm_base_url os]> e) in
  let e := if decide (llm_anthropic_url os = "") then e else <["MOLECULE_LLM_ANTHROPIC_BASE_URL" := llm_anthropic_url os]> e in
  let usage := TrimSpace (os "MOLECULE_LLM_USAGE_URL") in
  let e := if decide (usage = "") then e else <["MOLECULE_LLM_USAGE_URL" := usage]> e in
  if negb (runtimeUsesAnthropicNativeProxy runtime)
  then <["OPENAI_BASE_URL" := llm_base_url os]> (<["OPENAI_API_KEY" := llm_token os]> e)
  else if decide (llm_anthropic_url os = "") then e
       else
         let tokenEnv := if decide (p_auth_token_env p = "") then "ANTHROPIC_API_KEY" else p_auth_token_env p in
         <["ANTHROPIC_CUSTOM_HEADERS" := "X-Molecule-Workspace-Id: " +:+ workspaceID]>
           (<["ANTHROPIC_BASE_URL" := llm_anthropic_url os]> (<[tokenEnv := llm_token os]> e)).

Definition applyPlatformManagedLLMEnv (rootEnv : env) (workspaceID runtime model : string) (globalKeys : gset string) (envVars : env) : env * llm_result :=
  let authEnv := availableAuthEnvNames reg envVars in
  let r := choose_route rootEnv runtime model envVars in
  let e := publish r in
  if negb (ro_platform r)
  then
    let e := if decide (globalKeys = ∅) then e else stripNonMatchingGlobalOriginLLMCreds globalKeys runtime (ro_model r) authEnv e in
    let e := project r runtime authEnv e in
    (e, LlmResult false (hasAnyPlatformManagedLLMKey (ro_provider r) e) (ro_substituted r))
  else if bool_decide (llm_base_url os = "") || bool_decide (llm_token os = "") then (e, LlmResult true false "")
  else (proxied_env workspaceID runtime (ro_provider r) e, LlmResult true true "").
End Env.

(** ** Removal *)


Lemma has_key_spec p e : hasAnyPlatformManagedLLMKey p e = true ->
  exists key, key ∈ platformManagedDirectLLMBypassKeys /\ canonical_name key ∈ accepted_names p /\ TrimSpace (get e key) <> "".
Proof.
  unfold hasAnyPlatformManagedLLMKey. intros (key & Hin & H)%existsb_exists. apply andb_true_iff in H as [Ha Hv].
  apply bool_decide_eq_true in Ha. apply negb_true_iff, bool_decide_eq_false in Hv. exists key. split_and!; [by apply list_elem_of_In|done|done].
Qed.

Section Pays.
Context (re_ok : string -> bool) (re_match : string -> string -> bool) (os : string -> string) (reg : option Manifest).
#[local] Abbreviation derive := (DeriveProvider re_ok re_match).
#[local] Abbreviation apply_llm := (applyPlatformManagedLLMEnv re_ok re_match os reg).

(** The rule: a proxy is there, and the model is the platform's, or nobody's, or one whose
    key the workspace does not have. *)
Definition platform_pays (runtime model : string) (envVars : env) : bool :=
  PlatformManagedProxyConfigured os &&
  match reg with
  | None => true
  | Some m => match derive m runtime (effectiveModelForBilling model envVars) (availableAuthEnvNames reg envVars) with
              | inr _ => true
              | inl p => IsPlatform p || negb (hasAnyPlatformManagedLLMKey p envVars)
              end
  end.

Lemma usable_candidate_Some m runtime authEnv envVars cand ob q :
  usable_candidate re_ok re_match m runtime authEnv envVars cand = Some (ob, q) ->
  ob = cand /\ derive m runtime ob authEnv = inl q /\ IsPlatform q = false /\ hasAnyPlatformManagedLLMKey q envVars = true.
Proof.
  unfold usable_candidate. destruct (derive m runtime cand authEnv) as [p|] eqn:E; [|done]. destruct (IsPlatform p) eqn:Ep; [done|].
  destruct (hasAnyPlatformManagedLLMKey p envVars) eqn:Eh; [|done]. by intros [= -> ->].
Qed.

Lemma fallback_Some rg rootEnv m runtime envVars ob q :
  onboardingSelectedFallback re_ok re_match rg rootEnv m runtime envVars = Some (ob, q) ->
  derive m runtime ob (availableAuthEnvNames rg envVars) = inl q /\ IsPlatform q = false /\ ob <> "".
Proof.
  unfold onboardingSelectedFallback. destruct (decide _) as [|Hne]; [done|]. set (cs := onboardingModelCandidates _).
  intros H. destruct (omap _ cs) as [|x l] eqn:Eo; [done|]. cbn in H. injection H as ->.
  assert (Hin : (ob, q) ∈ omap (usable_candidate re_ok re_match m runtime (availableAuthEnvNames rg envVars) envVars) cs) by (rewrite Eo; left).
  apply list_elem_of_omap in Hin as (cand & _ & Hc). apply usable_candidate_Some in Hc as (_ & Hd & Hp & _). split_and!; [done|done|].
  intros ->. unfold DeriveProvider in Hd. by rewrite decide_True in Hd by (vm_compute; reflexivity).
Qed.

(** What a route is. *)
Lemma choose_route_spec rootEnv runtime model envVars :
  let r := choose_route re_ok re_match os reg rootEnv runtime model envVars in
  let eff := effectiveModelForBilling model envVars in
  let authEnv := availableAuthEnvNames reg envVars in
  (ro_substituted r = "" /\ ro_model r = eff /\ ro_env r = envVars /\
     ((PlatformManagedProxyConfigured os = true /\ ro_platform r = platform_pays runtime model envVars) \/
      (PlatformManagedProxyConfigured os = false)) /\
     (ro_platform r = false -> (ro_provider r = zero_provider /\ forall m p, reg = Some m -> derive m runtime eff authEnv <> inl p) \/
        exists m p, reg = Some m /\ derive m runtime eff authEnv = inl p /\ ro_provider r = p /\ IsPlatform p = false)) \/
  (PlatformManagedProxyConfigured os = false /\ ro_platform r = false /\ ro_substituted r <> "" /\ ro_model r = ro_substituted r /\
     ro_env r = <["MOLECULE_MODEL" := ro_substituted r]> (<["MODEL" := ro_substituted r]> envVars) /\
     IsPlatform (ro_provider r) = false /\ exists m, reg = Some m /\ derive m runtime (ro_model r) authEnv = inl (ro_provider r)).
Proof.
  intros r eff authEnv. unfold r, choose_route, platform_pays. fold eff. fold authEnv.
  destruct (PlatformManagedProxyConfigured os) eqn:Eproxy.
  - left. destruct reg as [m|]; [|by split_and!; auto]. fold authEnv.
    destruct (derive m runtime eff authEnv) as [p|] eqn:Ed; [|by split_and!; auto].
    rewrite andb_true_r. destruct (IsPlatform p) eqn:Ep; [|destruct (hasAnyPlatformManagedLLMKey p envVars) eqn:Eh]; cbn.
    + split_and!; auto. done.
    + split_and!; auto. intros _. right. eauto 10.
    + split_and!; auto. done.
  - destruct reg as [m|]; [|left; split_and!; auto; intros _; left; by split]. fold authEnv.
    destruct (derive m runtime eff authEnv) as [p|] eqn:Ed; [|left; split_and!; auto; intros _; left; split; [done|]; intros ? ? [= <-]; by rewrite Ed].
    rewrite andb_false_r. cbn. destruct (IsPlatform p) eqn:Ep; cbn.
    + destruct (onboardingSelectedFallback _ _ _ _ _ _ _) as [[ob q]|] eqn:Eo.
      * right. apply fallback_Some in Eo as (Hd & Hp & Hne). split_and!; eauto.
      * left. cbn. split_and!; auto. done.
    + left. split_and!; auto. intros _. right. eauto 10.
Qed.


(** C28: Who pays.  A workspace that starts on the platform's proxy is exactly one for which
    the rule says so; one that is routed there and cannot start has no proxy to run on.  One
    that starts on its own key runs a model the registry gives to a provider that is not the
    platform, with a key that provider takes; it runs another model than the one asked for
    only when there is no proxy. *)
Theorem who_pays rootEnv workspaceID runtime model globalKeys envVars :
  let '(e, res) := apply_llm rootEnv workspaceID runtime model globalKeys envVars in
  let ran := if decide (SubstitutedModel res = "") then effectiveModelForBilling model envVars else SubstitutedModel res in
  (RoutedToPlatform res = true /\ HasUsableLLMCred res = true <-> platform_pays runtime model envVars = true) /\
  (RoutedToPlatform res = true -> HasUsableLLMCred res = PlatformManagedProxyConfigured os) /\
  (SubstitutedModel res <> "" -> PlatformManagedProxyConfigured os = false) /\
  (RoutedToPlatform res = false -> HasUsableLLMCred res = true -> exists m p key,
     reg = Some m /\ derive m runtime ran (availableAuthEnvNames reg envVars) = inl p /\ IsPlatform p = false /\
     key ∈ platformManagedDirectLLMBypassKeys /\ canonical_name key ∈ accepted_names p /\ TrimSpace (get e key) <> "").
Proof.
  pose proof (choose_route_spec rootEnv runtime model envVars) as Hr. cbv zeta in Hr. unfold applyPlatformManagedLLMEnv.
  set (r := choose_route _ _ _ _ _ _ _ _) in *. destruct (ro_platform r) eqn:Epf; cbn [negb].
  - destruct Hr as [(_ & _ & _ & Hpay & _)|(_ & Hf & _)]; [|done].
    destruct (PlatformManagedProxyConfigured os) eqn:Eproxy.
    + assert (E := Eproxy). unfold PlatformManagedProxyConfigured in E. apply andb_true_iff in E as [->%negb_true_iff ->%negb_true_iff]. cbn.
      destruct Hpay as [[_ Hpay]|]; [|done]. rewrite <- Hpay. by split_and!.
    + assert (E := Eproxy). unfold PlatformManagedProxyConfigured in E.
      assert (bool_decide (llm_base_url os = "") || bool_decide (llm_token os = "") = true) as -> by (by destruct (bool_decide (llm_base_url os = "")), (bool_decide (llm_token os = ""))).
      cbn. unfold platform_pays. rewrite Eproxy. cbn. split_and!; try done. split; [by intros []|done].
  - set (e := project _ _ _ _ _ _ _). cbn [RoutedToPlatform HasUsableLLMCred SubstitutedModel]. split_and!.
    + split; [by intros []|]. intros Hp. destruct Hr as [(_ & _ & _ & [[_ Hpay]|Hn] & _)|(Hn & _)]; [congruence| |];
        unfold platform_pays in Hp; by rewrite Hn in Hp.
    + done.
    + intros Hs. destruct Hr as [(Hs' & _)|(Hn & _)]; [by rewrite Hs' in Hs|done].
    + intros _ Hcred. apply has_key_spec in Hcred as (key & Hk & Ha & Hv).
      destruct Hr as [(Hs & _ & _ & _ & Hprov)|(_ & _ & Hs & Hm & _ & Hp & m & Hreg & Hd)].
      * rewrite decide_True by done. destruct (Hprov eq_refl) as [[Hz _]|(m & p & Hreg & Hd & Hrp & Hp)].
        -- rewrite Hz in Ha. cbn in Ha. by apply elem_of_nil in Ha.
        -- exists m, p, key. rewrite <- Hrp. rewrite Hrp in *. split_and!; try done.
      * rewrite decide_False by done. exists m, (ro_provider r), key. rewrite <- Hm. split_and!; done.
Qed.

(** ** What an environment holds afterwards *)
















End Pays.

Module LlmDemo.
Import ModelDemo.
Definition saas (k : string) : string :=
  if decide (k = "MOLECULE_LLM_BASE_URL") then "https://proxy" else if decide (k = "MOLECULE_LLM_USAGE_TOKEN") then "usage" else "".
Definition selfhost (k : string) : string := "".
Definition run (os : string -> string) (model : string) (e : env) : env * llm_result :=
  applyPlatformManagedLLMEnv re_ok re_match os (Some registry) ∅ "w" "claude-code" model ∅ e.

(** The creation of a workspace whose model needs a key that is nowhere is refused, as one
    that could only fail; provisioning would run it on the proxy. *)
Example create_refuses_what_would_run :
  validateBYOKCredentialSatisfiable re_ok re_match (Some registry) (Some []) "claude-code" "MiniMax-M2" [] = false /\
  (run saas "MiniMax-M2" ∅).2 = LlmResult true true "".
Proof. vm_compute. auto. Qed.

(** A key that is not on the fixed list of vendor keys does not count: the check at creation
    takes it, and then the workspace is billed to the platform, or without a proxy not
    started. *)
Example unlisted_key_does_not_count :
  let e : env := {["GROQ_API_KEY" := "k"]} in
  validateBYOKCredentialSatisfiable re_ok re_match (Some registry) (Some []) "claude-code" "groq:x" ["GROQ_API_KEY"] = true /\
  (run saas "groq:x" e).2 = LlmResult true true "" /\ (run selfhost "groq:x" e).2 = LlmResult false false "".
Proof. vm_compute. auto. Qed.

(** The gate of the vendor keys reads the model from another place than provisioning: with
    a MOLECULE_MODEL of its own the workspace runs on its key, and may not store it. *)
Example gate_reads_another_model :
  let s := Secrets (<[("w", "MODEL") := SecretRow "minimax/M2" 0 0 0]> {[("w", "MOLECULE_MODEL") := SecretRow "MiniMax-M2" 0 0 0]}) ∅ in
  rejectPlatformManagedDirectLLMBypassForWorkspace re_ok re_match (Some registry) (fun _ _ _ => None) "hermes" (DbOk (Some "claude-code"))
    no_fault "" "w" "MINIMAX_API_KEY" s = true /\
  (run saas "" (<["MODEL" := "minimax/M2"]> (<["MOLECULE_MODEL" := "MiniMax-M2"]> {["MINIMAX_API_KEY" := "k"]}))).2 = LlmResult false true "".
Proof. vm_compute. auto. Qed.

(** An empty token variable keeps the key from being projected to the adapter. *)
Example empty_token_blocks_projection :
  (run selfhost "MiniMax-M2" (<["ANTHROPIC_AUTH_TOKEN" := ""]> {["MINIMAX_API_KEY" := "k"]})).1 !! "ANTHROPIC_AUTH_TOKEN" = Some "" /\
  (run selfhost "MiniMax-M2" {["MINIMAX_API_KEY" := "k"]}).1 !! "ANTHROPIC_AUTH_TOKEN" = Some "k".
Proof. vm_compute. auto. Qed.
End LlmDemo.
