(* ===== verification/BootToken.v ===== *)
(** * Boot tokens

    internal/boottoken (token.go, restore.go): the signed token a box shows before it is
    registered.  HMAC-SHA256 is [mac]; the JSON of the claims is [marshal] and
    [unmarshal]. *)

From S2P Require Import Prelude Base64.

Record Claims := MkClaims { cl_workspace : string; cl_org : string; cl_expiry : Z; cl_scopes : list string }.
Inductive boot_err := ErrMalformed | ErrBadSig | ErrExpired | ErrNoKey | ErrScope | ErrWorkspaceMismatch.

Definition ScopeBootEvent : string := "boot-event".
Definition ScopeRestore : string := "restore".
Definition HasScope (c : Claims) (s : string) : bool := bool_decide (s ∈ cl_scopes c).

Definition dot : Ascii.ascii := Ascii.ascii_of_nat 46.
(** The two sides of the only dot. *)
Definition split (token : string) : option (string * string) :=
  match str_cut dot token with
  | Some (p, sig) =>
      if decide (p = "" \/ sig = "") then None
      else match str_cut dot sig with Some _ => None | None => Some (p, sig) end
  | None => None
  end.
Definition LooksLike (token : string) : bool :=
  match split token with Some (p, sig) => negb (bool_decide (p = "")) && negb (bool_decide (sig = "")) | None => false end.

Section Tokens.
Context (mac : string -> string -> string) (marshal : Claims -> option string) (unmarshal : string -> option Claims).

Definition sign (key p : string) : string := encode RawURLEncoding (mac key p).

Definition Mint (key : string) (c : Claims) : string + boot_err :=
  if decide (key = "") then inr ErrBadSig
  else match marshal c with
       | None => inr ErrMalformed
       | Some payload => let p := encode RawURLEncoding payload in inl (p +:+ String dot (sign key p))
       end.

Definition decode_claims (p : string) : Claims + boot_err :=
  match decode RawURLEncoding p with
  | None => inr ErrMalformed
  | Some raw => match unmarshal raw with None => inr ErrMalformed | Some c => inl c end
  end.
Definition ParseUnverified (token : string) : Claims + boot_err :=
  match split token with None => inr ErrMalformed | Some (p, _) => decode_claims p end.

(** [now.Unix()]. *)
Definition unix (now : time) : Z := now / Second.

Definition Verify (token key : string) (now : time) : Claims + boot_err :=
  match split token with
  | None => inr ErrMalformed
  | Some (p, sig) =>
      if decide (key = "") then inr ErrBadSig
      else if negb (bool_decide (sig = sign key p)) then inr ErrBadSig
      else match decode_claims p with
           | inr e => inr e
           | inl c => if cl_expiry c <? unix now then inr ErrExpired else inl c
           end
  end.

Definition VerifyRestore (ADMIN_TOKEN token wsID : string) (now : time) (keyOverride : string) : Claims + boot_err :=
  let key := if decide (keyOverride = "") then ADMIN_TOKEN else keyOverride in
  if decide (key = "") then inr ErrNoKey
  else match Verify token key now with
       | inr e => inr e
       | inl c =>
           if negb (HasScope c ScopeRestore) then inr ErrScope
           else if decide (wsID = "" \/ cl_workspace c <> wsID) then inr ErrWorkspaceMismatch
           else inl c
       end.
End Tokens.

Lemma split_Some token p sig : split token = Some (p, sig) <->
  token = (p +:+ String dot sig) /\ p <> "" /\ sig <> "" /\ str_cut dot p = None /\ str_cut dot sig = None.
Proof.
  unfold split. split.
  - destruct (str_cut dot token) as [[b a]|] eqn:E; [|done]. case_decide as Hne; [done|].
    destruct (str_cut dot a) eqn:Ea; [done|]. intros [= <- <-]. apply str_cut_Some in E as [-> Hb]. split_and!; tauto || auto.
  - intros (-> & Hp & Hs & Hcp & Hcs). rewrite str_cut_app by done. rewrite decide_False by tauto. by rewrite Hcs.
Qed.

Lemma encode_empty e s : encode e s = "" <-> s = "".
Proof. split; [by destruct s as [|a [|b [|c rest]]]|by intros ->]. Qed.

Section Guarantees.
Context (mac : string -> string -> string) (marshal : Claims -> option string) (unmarshal : string -> option Claims).

(** What a boot token opens.  A token minted for some claims is accepted for a restore
    with the same key exactly until its second of expiry, for its own workspace and with
    the restore scope, and every other use of it fails with the error that says why; and
    whatever text is accepted is a payload under the signature of the key, whose claims
    name the workspace and the scope.  Of the JSON of the claims it is assumed that these
    claims are read back, of the signature that it is not empty. *)
Theorem boot_token_opens key c token ws now
    (Hmint : Mint mac marshal key c = inl token)
    (Hjson : forall raw, marshal c = Some raw -> raw <> "" /\ unmarshal raw = Some c)
    (Hmac : forall p, mac key p <> "") :
  VerifyRestore mac unmarshal key token ws now "" =
    (if cl_expiry c <? unix now then inr ErrExpired
     else if negb (HasScope c ScopeRestore) then inr ErrScope
     else if decide (ws = "" \/ cl_workspace c <> ws) then inr ErrWorkspaceMismatch
     else inl c) /\
  (forall token' c', VerifyRestore mac unmarshal key token' ws now "" = inl c' ->
     cl_workspace c' = ws /\ ScopeRestore ∈ cl_scopes c' /\ unix now <= cl_expiry c' /\
     exists p, token' = (p +:+ String dot (sign mac key p)) /\ decode_claims unmarshal p = inl c').
Proof.
  unfold Mint in Hmint. destruct (decide (key = "")) as [|Hk]; [done|]. destruct (marshal c) as [raw|] eqn:Em; [|done]. injection Hmint as <-.
  destruct (Hjson _ eq_refl) as [Hraw Hun]. split.
  - unfold VerifyRestore, Verify. rewrite (decide_True _ _ eq_refl), (decide_False _ _ Hk). set (p := encode RawURLEncoding raw). set (sig := sign mac key p).
    assert (Hs : split (p +:+ String dot sig) = Some (p, sig)).
    { apply split_Some. split_and!; [done|unfold p; by rewrite encode_empty| |apply encode_no_dot|apply encode_no_dot]. unfold sig, sign. by rewrite encode_empty. }
    rewrite Hs, (decide_False _ _ Hk), bool_decide_true by done. cbn. unfold decode_claims, p. rewrite base64_round_trip by (by right).
    rewrite Hun. by destruct (_ <? _).
  - intros token' c' H. unfold VerifyRestore, Verify in H. rewrite (decide_True _ _ eq_refl), (decide_False _ _ Hk) in H.
    destruct (split token') as [[p sig]|] eqn:Es; [|done]. rewrite (decide_False _ _ Hk) in H. destruct (decide (sig = sign mac key p)) as [Hsig|Hsig]; [|by rewrite bool_decide_false in H]. rewrite bool_decide_true in H by done. cbn in H.
    destruct (decode_claims unmarshal p) as [c0|] eqn:Ed; [|done]. destruct (_ <? _) eqn:Ex; [done|].
    destruct (HasScope c0 ScopeRestore) eqn:Esc; [|done]. cbn in H. destruct (decide (ws = "" \/ cl_workspace c0 <> ws)) as [|Hws]; [done|]. injection H as <-.
    apply split_Some in Es as (-> & _). apply bool_decide_eq_true in Esc. apply Z.ltb_ge in Ex. subst sig.
    split_and!; [destruct (decide (cl_workspace c0 = ws)); tauto|done|done|]. by exists p.
Qed.

(** Without a key, or with another one whose signature differs, nothing is accepted. *)
Lemma wrong_key_refused key key' c token ws now :
  Mint mac marshal key c = inl token -> (forall p, mac key' p <> mac key p) ->
  forall c', VerifyRestore mac unmarshal key' token ws now "" <> inl c'.
Proof.
  intros Hm Hmac c' H. unfold VerifyRestore in H. rewrite (decide_True _ _ eq_refl) in H. destruct (decide (key' = "")) as [|Hk']; [done|].
  unfold Mint in Hm. destruct (decide (key = "")) as [|Hk]; [done|]. destruct (marshal c) as [raw|]; [|done]. injection Hm as <-.
  unfold Verify in H. set (p := encode RawURLEncoding raw) in *.
  destruct (split _) as [[p' sig]|] eqn:Es; [|done]. rewrite (decide_False _ _ Hk') in H. case_bool_decide as Hsig; [|done].
  apply split_Some in Es as (E & _ & _ & Hp' & _).
  assert (C : Some (p, sign mac key p) = Some (p', sig)).
  { rewrite <- (str_cut_app dot p' sig Hp'), <- E. symmetry. apply str_cut_app. apply encode_no_dot. }
  injection C as <- <-. unfold sign in Hsig. apply (f_equal (decode RawURLEncoding)) in Hsig.
  rewrite !base64_round_trip in Hsig by (by right). injection Hsig as Hsig. by apply (Hmac p).
Qed.
End Guarantees.

Module BootDemo.
Definition mac (k p : string) : string := k +:+ p.
Definition claims : Claims := MkClaims "w1" "org" 100 ["restore"].
Definition marshal (c : Claims) : option string := Some (cl_workspace c).
Definition unmarshal (s : string) : option Claims := if decide (s = "w1") then Some claims else None.
Definition token : string := match Mint mac marshal "k" claims with inl t => t | inr _ => "" end.

(** The second of the expiry still counts. *)
Example expiry_is_inclusive :
  VerifyRestore mac unmarshal "k" token "w1" (101 * Second - 1) "" = inl claims /\
  VerifyRestore mac unmarshal "k" token "w1" (101 * Second) "" = inr ErrExpired.
Proof. vm_compute. auto. Qed.

Lemma boot_token_opens_witness : VerifyRestore mac unmarshal "k" token "w2" 0 "" = inr ErrWorkspaceMismatch.
Proof.
  assert (Hm : Mint mac marshal "k" claims = inl token) by (vm_compute; reflexivity).
  assert (Hj : forall raw, marshal claims = Some raw -> raw <> "" /\ unmarshal raw = Some claims).
  { intros raw [= <-]. split; [discriminate|reflexivity]. }
  assert (Hn : forall p, mac "k" p <> "") by (intros p; discriminate).
  rewrite (proj1 (boot_token_opens mac marshal unmarshal "k" claims token "w2" 0 Hm Hj Hn)). vm_compute. reflexivity.
Defined.
End BootDemo.
