(* ===== verification/SecretsApi.v ===== *)
(** * The routes of the secrets

    internal/handlers/secrets.go: reading, writing and deleting the secrets of a workspace
    and of the organisation, the model of a workspace, and who is restarted for it.  The
    binding of a body is a parameter: [None] is one that does not bind. *)

From S2P Require Import Prelude RateLimit Json Tree Tokens Approvals SecretStore Providers ModelChoice.

(** ** Ids *)

Definition hex_digit (a : Ascii.ascii) : bool :=
  let n := Ascii.nat_of_ascii a in ((48 <=? n) && (n <=? 57) || (97 <=? n) && (n <=? 102))%nat.
Fixpoint hex_run (n : nat) (s : string) : option string :=
  match n, s with
  | O, _ => Some s
  | S n', String a s' => if hex_digit a then hex_run n' s' else None
  | S _, "" => None
  end.
(** The groups, with a dash between two of them. *)
Fixpoint hex_groups (ns : list nat) (s : string) : bool :=
  match ns with
  | [] => bool_decide (s = "")
  | n :: ns' => match hex_run n s with
                | None => false
                | Some t => match ns' with
                            | [] => bool_decide (t = "")
                            | _ => has_prefix t "-" && hex_groups ns' (str_drop 1 t)
                            end
                end
  end.
Definition uuidRegex (s : string) : bool := hex_groups [8; 4; 4; 4; 12]%nat s.

(** ** State *)

Record ws_info := WsInfo { wi_kind : option string; wi_runtime : option string; wi_status : string }.

Inductive audit_entry :=
| AuditSet (workspace : option string) (key value_hash : string)
| AuditDelete (workspace : option string) (key : string)
| AuditRefused (workspace key : string).
(** The goroutines the handlers leave behind. *)
Inductive task := RestartOne (workspace : string) | FanOut (key exclude : string).

Record api := Api { a_secrets : secrets; a_tokens : token_db; a_approvals : approvals; a_audit : list audit_entry; a_tasks : list task }.
Definition with_secrets (s : secrets) (st : api) : api := Api s (a_tokens st) (a_approvals st) (a_audit st) (a_tasks st).
Definition with_token_db (t : token_db) (st : api) : api := Api (a_secrets st) t (a_approvals st) (a_audit st) (a_tasks st).
Definition with_approvals (t : approvals) (st : api) : api := Api (a_secrets st) (a_tokens st) t (a_audit st) (a_tasks st).
Definition log_audit (x : audit_entry) (st : api) : api := Api (a_secrets st) (a_tokens st) (a_approvals st) (a_audit st ++ [x]) (a_tasks st).
Definition spawn (x : task) (st : api) : api := Api (a_secrets st) (a_tokens st) (a_approvals st) (a_audit st) (a_tasks st ++ [x]).

(** The request: its two headers and what the middleware put in the context. *)
Record request := Request { rq_authorization : string; rq_workspace_id : string; rq_caller : caller }.

(** How the statements of a call go. *)
Record api_env := ApiEnv {
  ae_now : time;
  ae_workspaces : gmap string ws_info;
  ae_owner_fails : bool;                  (* WorkspaceFromToken *)
  ae_live_fails : bool; ae_validate_fails : bool; ae_bump_fails : bool;
  ae_guard_fails : bool; ae_restart_fails : bool; ae_runtime_fails : bool;  (* the lookups of the row *)
  ae_derive : read_fault; ae_own : read_fault; ae_global : read_fault;
  ae_nonce : option string;
  ae_write : exec_fault;
  ae_gate : gate_env
}.

(** One entry of a list, and the answers. *)
Record listed := Listed { li_key : string; li_scope : string; li_created : time; li_updated : time }.
Inductive api_reply :=
| Refused (code : Z)
| Gated (g : gate_reply)
| ListOf (l : list listed)
| Values_ (m : env)
| PartialBundle (failed : list string)      (* 500 *)
| SavedSecret (key : string)
| DeletedSecret (key : string)
| ModelIs (model source : string)
| Unregistered (code : string)              (* 422 *)
| ModelSaved (model : string)
| ModelCleared.

Section Api.
Context `{UuidCast} (re_ok : string -> bool) (re_match : string -> string -> bool) (reg : option Manifest).
Context (seal : string -> string -> string -> string) (open_ : string -> string -> string -> option string).
Context (sha256 : string -> string) (marshal : json -> string) (sha256_hex : string -> string) (HashValuePrefix : string -> string).
(** The key in force, the environment of the process, the default runtime, and whether a
    restart function is wired. *)
Context (key : string) (getenv : string -> string) (default_runtime : string) (restartFunc : bool).

Definition callerWorkspaceID (e : api_env) (rq : request) (st : api) : string :=
  let tok := BearerTokenFromHeader (rq_authorization rq) in
  match (if decide (tok = "") then None else WorkspaceFromToken sha256 (ae_owner_fails e) tok (a_tokens st)) with
  | Some ws => ws
  | None => rq_workspace_id rq
  end.

Definition kind_of (fails : bool) (e : api_env) (ws : string) : option string :=
  if fails then None else (fun i => default "workspace" (wi_kind i)) <$> ae_workspaces e !! ws.

Definition conciergeSelfSecretWriteBlocked (e : api_env) (c : caller) (target : string) : bool :=
  if negb (callerIsAdminToken c) then false
  else match kind_of (ae_guard_fails e) e target with None => true | Some k => bool_decide (k = "platform") end.

Definition autoRestartAllowed (e : api_env) (callerID workspaceID : string) : bool :=
  if decide (callerID = workspaceID) then false
  else match kind_of (ae_restart_fails e) e workspaceID with None => false | Some k => negb (bool_decide (k = "platform")) end.

(** ** Reading *)


Definition entry (scope : string) (kr : string * secret_row) : listed := Listed kr.1 scope (sr_created kr.2) (sr_updated kr.2).

(** The answers are ordered by key; here they are in the order of the table. *)
Definition List_ (e : api_env) (workspaceID : string) (st : api) : api_reply :=
  if negb (uuidRegex workspaceID) then Refused 400
  else if rf_query (ae_own e) then Refused 500
  else
    let own := read_workspace (ae_own e) workspaceID (a_secrets st) in
    let globals := filter (fun kr => kr.1 ∉ own.*1) (read_globals (ae_global e) (a_secrets st)) in
    ListOf (map (entry "workspace") own ++ map (entry "global") globals).

Definition ListGlobal (e : api_env) (st : api) : api_reply :=
  if rf_query (ae_global e) then Refused 500 else ListOf (map (entry "global") (read_globals (ae_global e) (a_secrets st))).

(** The values of a table over [m], and the keys that do not decrypt. *)
Fixpoint add_values (scope : string) (rows : list (string * secret_row)) (acc : env * list string) : env * list string :=
  match rows with
  | [] => acc
  | kr :: rest =>
      add_values scope rest
        (match DecryptVersioned open_ key (sr_value kr.2) (sr_version kr.2) with
         | None => (acc.1, acc.2 ++ [scope +:+ kr.1])
         | Some v => (<[kr.1 := v]> acc.1, acc.2)
         end)
  end.
Definition bundle (e : api_env) (workspaceID : string) (s : secrets) : env * list string :=
  add_values "workspace:" (read_workspace (ae_own e) workspaceID s) (add_values "global:" (read_globals (ae_global e) s) (∅, [])).
Definition answer_bundle (e : api_env) (workspaceID : string) (s : secrets) : api_reply :=
  let '(m, failed) := bundle e workspaceID s in match failed with [] => Values_ m | _ => PartialBundle failed end.

Definition Values (e : api_env) (rq : request) (workspaceID : string) (st : api) : api * api_reply :=
  if negb (uuidRegex workspaceID) then (st, Refused 400)
  else match HasAnyLiveToken (ae_live_fails e) workspaceID (a_tokens st) with
       | None => (st, Refused 500)
       | Some false => (st, answer_bundle e workspaceID (a_secrets st))
       | Some true =>
           let tok := BearerTokenFromHeader (rq_authorization rq) in
           if decide (tok = "") then (st, Refused 401)
           else
             let '(t, ok) := ValidateToken sha256 (ae_validate_fails e) (ae_bump_fails e) (ae_now e) workspaceID tok (a_tokens st) in
             let st := with_token_db t st in
             if ok then (st, answer_bundle e workspaceID (a_secrets st)) else (st, Refused 401)
       end.

(** ** Writing *)

(** A body binds when both fields are there. *)
Definition bound (body : option (string * string)) : option (string * string) :=
  match body with Some (k, v) => if bool_decide (k = "") || bool_decide (v = "") then None else Some (k, v) | None => None end.

Definition runtime_row (e : api_env) (ws : string) : dbres (option string) :=
  if ae_runtime_fails e then DbErr else match ae_workspaces e !! ws with Some i => DbOk (wi_runtime i) | None => DbNoRows end.

Definition exec_fails (f : exec_fault) : bool := match f with ExecErr => true | _ => false end.

(** A write without a fault, and the restart of its workspace. *)
Definition self_restart (e : api_env) (rq : request) (workspaceID : string) (st : api) : api :=
  if restartFunc && autoRestartAllowed e (callerWorkspaceID e rq st) workspaceID then spawn (RestartOne workspaceID) st else st.

(** json.Marshal sorts the keys of a map. *)
Definition write_context (workspaceID k : string) : json := JObj [("key", JStr k); ("workspace_id", JStr workspaceID)].

Definition SetSecret (e : api_env) (rq : request) (workspaceID : string) (body : option (string * string)) (st : api) : api * api_reply :=
  if negb (uuidRegex workspaceID) then (st, Refused 400)
  else match bound body with
  | None => (st, Refused 400)
  | Some (k, v) =>
      if rejectPlatformManagedDirectLLMBypassForWorkspace re_ok re_match reg open_ default_runtime (runtime_row e workspaceID)
           (ae_derive e) key workspaceID k (a_secrets st)
      then (st, Refused 400)
      else if conciergeSelfSecretWriteBlocked e (rq_caller rq) workspaceID then (log_audit (AuditRefused workspaceID k) st, Refused 403)
      else
        let '(ap, g) := gateDestructive marshal sha256_hex getenv (rq_caller rq) (ae_gate e) workspaceID ActionSecretWrite
                          ("write secret " +:+ k) (write_context workspaceID k) (a_approvals st) in
        let st := with_approvals ap st in
        match g with
        | Proceed =>
            match Encrypt seal key (ae_nonce e) v with
            | None => (st, Refused 500)
            | Some enc =>
                if exec_fails (ae_write e) then (st, Refused 500)
                else
                  let st := with_secrets (upsert_ws (ae_now e) workspaceID k enc (CurrentEncryptionVersion key) (a_secrets st)) st in
                  (self_restart e rq workspaceID (log_audit (AuditSet (Some workspaceID) k (HashValuePrefix v)) st), SavedSecret k)
            end
        | _ => (st, Gated g)
        end
  end.

Definition deleted_ws (ws k : string) (s : secrets) : secrets := with_ws (base.delete (ws, k) (ws_secrets s)) s.
Definition deleted_global (k : string) (s : secrets) : secrets := with_globals (base.delete k (global_secrets s)) s.

Definition DeleteSecret (e : api_env) (rq : request) (workspaceID k : string) (st : api) : api * api_reply :=
  if negb (uuidRegex workspaceID) then (st, Refused 400)
  else match ae_write e with
  | ExecErr => (st, Refused 500)
  | RowsAffectedErr => (with_secrets (deleted_ws workspaceID k (a_secrets st)) st, Refused 500)
  | ExecOk =>
      if decide (is_Some (ws_secrets (a_secrets st) !! (workspaceID, k)))
      then (self_restart e rq workspaceID (log_audit (AuditDelete (Some workspaceID) k)
              (with_secrets (deleted_ws workspaceID k (a_secrets st)) st)), DeletedSecret k)
      else (st, Refused 404)
  end.

Definition SetGlobal (e : api_env) (rq : request) (body : option (string * string)) (st : api) : api * api_reply :=
  match bound body with
  | None => (st, Refused 400)
  | Some (k, v) =>
      match Encrypt seal key (ae_nonce e) v with
      | None => (st, Refused 500)
      | Some enc =>
          if exec_fails (ae_write e) then (st, Refused 500)
          else
            let st := with_secrets (upsert_global (ae_now e) k enc (CurrentEncryptionVersion key) (a_secrets st)) st in
            let st := spawn (FanOut k (callerWorkspaceID e rq st)) st in
            (log_audit (AuditSet None k (HashValuePrefix v)) st, SavedSecret k)
      end
  end.

Definition DeleteGlobal (e : api_env) (rq : request) (k : string) (st : api) : api * api_reply :=
  match ae_write e with
  | ExecErr => (st, Refused 500)
  | RowsAffectedErr => (with_secrets (deleted_global k (a_secrets st)) st, Refused 500)
  | ExecOk =>
      if decide (is_Some (global_secrets (a_secrets st) !! k))
      then
        let st := with_secrets (deleted_global k (a_secrets st)) st in
        let st := spawn (FanOut k (callerWorkspaceID e rq st)) st in
        (log_audit (AuditDelete None k) st, DeletedSecret k)
      else (st, Refused 404)
  end.

(** The workspaces a change of the organisation's secret [k] restarts.  [lost]: a row that
    does not scan, or comes after the iteration ended. *)
Definition affected (s : secrets) (k : string) (ws : string) (i : ws_info) : bool :=
  bool_decide (wi_status i ∉ ["removed"; "paused"]) && negb (bool_decide (default "" (wi_runtime i) = "external")) &&
  negb (bool_decide (default "workspace" (wi_kind i) = "platform")) && bool_decide (ws_secrets s !! (ws, k) = None).
Definition restartAllAffectedByGlobalKey (query_fails : bool) (lost : string -> bool) (workspaces : gmap string ws_info) (s : secrets) (k exclude : string)
    : list string :=
  if negb restartFunc || query_fails then []
  else omap (fun wi => if affected s k wi.1 wi.2 && negb (lost wi.1) && negb (bool_decide (wi.1 = exclude)) then Some wi.1 else None)
         (map_to_list workspaces).

(** ** The model *)

Definition GetModel (fails : bool) (workspaceID : string) (st : api) : api_reply :=
  if fails then Refused 500
  else match ws_secrets (a_secrets st) !! (workspaceID, "MODEL") with
       | None => ModelIs "" "unresolved"
       | Some r => match DecryptVersioned open_ key (sr_value r) (sr_version r) with
                   | None => Refused 500
                   | Some m => ModelIs m "workspace_secrets"
                   end
       end.

(** [None]: an error, and nothing is written. *)
Definition setModelSecretExec (e : api_env) (workspaceID model : string) (s : secrets) : option secrets :=
  if decide (model = "") then (if exec_fails (ae_write e) then None else Some (deleted_ws workspaceID "MODEL" s))
  else match Encrypt seal key (ae_nonce e) model with
       | None => None
       | Some enc => if exec_fails (ae_write e) then None
                     else Some (upsert_ws (ae_now e) workspaceID "MODEL" enc (CurrentEncryptionVersion key) s)
       end.

(** The checks of a model for the runtime of the row, which must scan into a string. *)
Definition check_model (e : api_env) (workspaceID model : string) : option api_reply :=
  if decide (model = "") then None
  else match runtime_row e workspaceID with
       | DbNoRows => Some (Refused 404)
       | DbErr | DbOk None => Some (Refused 500)
       | DbOk (Some runtime) =>
           if negb (validateRegisteredModelForRuntime re_ok re_match reg runtime model) then Some (Unregistered "UNREGISTERED_MODEL_FOR_RUNTIME")
           else if negb (validateDerivedProviderInRegistry re_ok re_match reg runtime model) then Some (Unregistered "DERIVED_PROVIDER_NOT_IN_REGISTRY")
           else None
       end.

Definition SetModel (e : api_env) (workspaceID : string) (body : option string) (st : api) : api * api_reply :=
  if negb (uuidRegex workspaceID) then (st, Refused 400)
  else match body with
  | None => (st, Refused 400)
  | Some model =>
      match check_model e workspaceID model with
      | Some r => (st, r)
      | None =>
          match setModelSecretExec e workspaceID model (a_secrets st) with
          | None => (st, Refused 500)
          | Some s =>
              let st := with_secrets s st in
              let st := if restartFunc then spawn (RestartOne workspaceID) st else st in
              (st, if decide (model = "") then ModelCleared else ModelSaved model)
          end
      end
  end.

(** ** A call *)

Inductive call :=
| CallList (ws : string) | CallValues (ws : string) | CallSet (ws : string) (body : option (string * string)) | CallDelete (ws k : string)
| CallListGlobal | CallSetGlobal (body : option (string * string)) | CallDeleteGlobal (k : string)
| CallGetModel (fails : bool) (ws : string) | CallSetModel (ws : string) (body : option string).

Definition serve (e : api_env) (rq : request) (c : call) (st : api) : api * api_reply :=
  match c with
  | CallList ws => (st, List_ e ws st)
  | CallValues ws => Values e rq ws st
  | CallSet ws body => SetSecret e rq ws body st
  | CallDelete ws k => DeleteSecret e rq ws k st
  | CallListGlobal => (st, ListGlobal e st)
  | CallSetGlobal body => SetGlobal e rq body st
  | CallDeleteGlobal k => DeleteGlobal e rq k st
  | CallGetModel fails ws => (st, GetModel fails ws st)
  | CallSetModel ws body => SetModel e ws body st
  end.
End Api.
