(* ===== verification/SecretsSafety.v ===== *)
(** * What the routes of the secrets may do

    Who changes a secret and who is restarted for it; that a rotated secret reaches every
    workspace whose environment it changes; that what a remote agent reads is what a local
    container gets. *)

From S2P Require Import Prelude RateLimit Json Tree Tokens Approvals ApprovalsSafety SecretStore Providers ModelChoice SecretsApi.

Section Secrets.
Context `{UuidCast} (re_ok : string -> bool) (re_match : string -> string -> bool) (reg : option Manifest).
Context (seal : string -> string -> string -> string) (open_ : string -> string -> string -> option string).
Context (sha256 : string -> string) (marshal : json -> string) (sha256_hex : string -> string) (HashValuePrefix : string -> string).
Context (key : string) (getenv : string -> string) (default_runtime : string) (restartFunc : bool).
#[local] Abbreviation run := (serve re_ok re_match reg seal open_ sha256 marshal sha256_hex HashValuePrefix key getenv default_runtime restartFunc).
#[local] Abbreviation opens r v := (DecryptVersioned open_ key (sr_value r) (sr_version r) = Some v).

(** ** Admission *)

(** The model of the workspace is one of a provider that is not the platform. *)
Definition own_key_model (e : api_env) (ws : string) (s : secrets) : Prop :=
  exists m p runtime model authEnv, reg = Some m /\
    readWorkspaceDeriveInputs reg open_ default_runtime (runtime_row e ws) (ae_derive e) key ws s = (runtime, model, authEnv) /\
    DeriveProvider re_ok re_match m runtime model authEnv = inl p /\ IsPlatform p = false.

(** An approval of this write by a human, used up by it. *)
Definition approval_used (e : api_env) (ws k : string) (before after : approvals) : Prop :=
  exists id r u, canon ws = Some u /\ ap_rows before !! id = Some r /\
    usable u ActionSecretWrite (approvalRequestHash marshal sha256_hex ws ActionSecretWrite (write_context ws k)) r = true /\
    after = put_approval id (set_consumed (Some (ge_now (ae_gate e))) r) before.

(** What may become of the row of [k] in a workspace. *)
Inductive own_change (e : api_env) (rq : request) (st st' : api) (ws k : string) : call -> option secret_row -> Prop :=
| own_set v r :
    (isPlatformManagedDirectLLMBypassKey k = true -> own_key_model e ws (a_secrets st)) ->
    (callerIsAdminToken (rq_caller rq) = true ->
       (exists i, ae_workspaces e !! ws = Some i /\ wi_kind i <> Some "platform") /\ approval_used e ws k (a_approvals st) (a_approvals st')) ->
    k <> "" -> v <> "" -> opens r v -> own_change e rq st st' ws k (CallSet ws (Some (k, v))) (Some r)
| own_delete : own_change e rq st st' ws k (CallDelete ws k) None
| own_model m r : k = "MODEL" -> m <> "" -> check_model re_ok re_match reg e ws m = None -> opens r m ->
    own_change e rq st st' ws k (CallSetModel ws (Some m)) (Some r)
| own_no_model : k = "MODEL" -> own_change e rq st st' ws k (CallSetModel ws (Some "")) None.

Lemma own_change_set e rq st st' ws k k' v o : own_change e rq st st' ws k (CallSet ws (Some (k', v))) o -> exists r, o = Some r /\ opens r v.
Proof. inversion 1; subst. eauto. Qed.

Inductive global_change (k : string) : call -> option secret_row -> Prop :=
| global_set v r : k <> "" -> v <> "" -> opens r v -> global_change k (CallSetGlobal (Some (k, v))) (Some r)
| global_delete : global_change k (CallDeleteGlobal k) None.

Lemma gate_spends c ge ws action reason ctx ap ap' : IsGated action = true -> callerIsAdminToken c = true ->
  gateDestructive marshal sha256_hex getenv c ge ws action reason ctx ap = (ap', Proceed) ->
  exists id r u, canon ws = Some u /\ ap_rows ap !! id = Some r /\
    usable u action (approvalRequestHash marshal sha256_hex ws action ctx) r = true /\
    ap' = put_approval id (set_consumed (Some (ge_now ge)) r) ap.
Proof.
  intros Hg Ha. unfold gateDestructive, callerIsPrivileged, requireApproval. rewrite Hg, Ha. cbn [negb orb andb].
  destruct (consume _ _ _ _ _ _ _) as [ap1 [id| |]] eqn:E.
  - intros [= <-]. apply consume_ok in E as (r & u & Hu & Hr & Hus & ->). by exists id, r, u.
  - destruct (create_or_reuse _ _ _ _ _ _ _ _ _ _) as [ap2 [?| |]]; intros [=].
  - intros [=].
Qed.

Lemma concierge_guard e c ws : conciergeSelfSecretWriteBlocked e c ws = false -> callerIsAdminToken c = true ->
  exists i, ae_workspaces e !! ws = Some i /\ wi_kind i <> Some "platform".
Proof.
  unfold conciergeSelfSecretWriteBlocked, kind_of. intros Hb Ha. rewrite Ha in Hb. cbn in Hb.
  destruct (ae_guard_fails e); [done|]. destruct (ae_workspaces e !! ws) as [i|]; [|done]. cbn in Hb. exists i. split; [done|].
  intros E. rewrite E in Hb. by apply bool_decide_eq_false in Hb.
Qed.

Lemma bypass_guard e ws k s : rejectPlatformManagedDirectLLMBypassForWorkspace re_ok re_match reg open_ default_runtime (runtime_row e ws) (ae_derive e) key ws k s = false ->
  isPlatformManagedDirectLLMBypassKey k = true -> own_key_model e ws s.
Proof.
  unfold rejectPlatformManagedDirectLLMBypassForWorkspace, platformManagedLLMModeForWorkspace, own_key_model. intros Hr Hk. rewrite Hk, andb_true_r in Hr.
  destruct (readWorkspaceDeriveInputs _ _ _ _ _ _ _ _) as [[runtime model] authEnv]. destruct reg as [m|]; [|done].
  destruct (DeriveProvider _ _ m runtime model authEnv) as [p|] eqn:Ed; [|done]. eauto 12.
Qed.

Lemma bound_Some body k v : bound body = Some (k, v) -> body = Some (k, v) /\ k <> "" /\ v <> "".
Proof.
  destruct body as [[k' v']|]; [|done]. cbn. destruct (bool_decide (k' = "")) eqn:Ek, (bool_decide (v' = "")) eqn:Ev; try done.
  intros [= -> ->]. apply bool_decide_eq_false in Ek, Ev. done.
Qed.

(** *** One row at a time *)

Lemma upsert_ws_cases now ws0 k0 v n s ws k :
  ws_secrets (upsert_ws now ws0 k0 v n s) !! (ws, k) = ws_secrets s !! (ws, k) \/
  ((ws, k) = (ws0, k0) /\ exists r, ws_secrets (upsert_ws now ws0 k0 v n s) !! (ws, k) = Some r /\ sr_value r = v /\ sr_version r = n).
Proof.
  unfold upsert_ws. cbn. destruct (decide ((ws, k) = (ws0, k0))) as [E|Hne].
  - right. split; [done|]. rewrite E, lookup_partial_alter_eq. by eexists.
  - left. by rewrite lookup_partial_alter_ne.
Qed.
Lemma upsert_global_cases now k0 v n s k :
  global_secrets (upsert_global now k0 v n s) !! k = global_secrets s !! k \/
  (k = k0 /\ exists r, global_secrets (upsert_global now k0 v n s) !! k = Some r /\ sr_value r = v /\ sr_version r = n).
Proof.
  unfold upsert_global. cbn. destruct (decide (k = k0)) as [->|Hne].
  - right. split; [done|]. rewrite lookup_partial_alter_eq. by eexists.
  - left. by rewrite lookup_partial_alter_ne.
Qed.
Lemma deleted_ws_cases ws0 k0 s ws k :
  ws_secrets (deleted_ws ws0 k0 s) !! (ws, k) = ws_secrets s !! (ws, k) \/ ((ws, k) = (ws0, k0) /\ ws_secrets (deleted_ws ws0 k0 s) !! (ws, k) = None).
Proof.
  unfold deleted_ws. cbn. destruct (decide ((ws, k) = (ws0, k0))) as [E|Hne]; [right; by rewrite E, lookup_delete_eq|left; by rewrite lookup_delete_ne].
Qed.
Lemma deleted_global_cases k0 s k :
  global_secrets (deleted_global k0 s) !! k = global_secrets s !! k \/ (k = k0 /\ global_secrets (deleted_global k0 s) !! k = None).
Proof.
  unfold deleted_global. cbn. destruct (decide (k = k0)) as [->|Hne]; [right; by rewrite lookup_delete_eq|left; by rewrite lookup_delete_ne].
Qed.

Lemma self_restart_secrets e rq ws st : a_secrets (self_restart sha256 restartFunc e rq ws st) = a_secrets st.
Proof. unfold self_restart. by destruct (_ && _). Qed.
Lemma self_restart_approvals e rq ws st : a_approvals (self_restart sha256 restartFunc e rq ws st) = a_approvals st.
Proof. unfold self_restart. by destruct (_ && _). Qed.


(** *** One handler at a time *)

Definition unsaved (r : api_reply) : Prop :=
  match r with SavedSecret _ | DeletedSecret _ | ModelSaved _ | ModelCleared => False | _ => True end.
#[local] Ltac kept := left; split; [try reflexivity | exact I].

Lemma Values_keeps e rq ws st st' r : Values open_ sha256 key e rq ws st = (st', r) -> a_secrets st' = a_secrets st /\ unsaved r.
Proof.
  assert (Hans : forall s, unsaved (answer_bundle open_ key e ws s)) by (intros s; unfold answer_bundle; by destruct (bundle _ _ _ _ _) as [m []]).
  unfold Values. destruct (negb _); [by intros [= <- <-]|]. destruct (HasAnyLiveToken _ _ _) as [[]|]; [| |by intros [= <- <-]].
  - destruct (decide _); [by intros [= <- <-]|]. destruct (ValidateToken _ _ _ _ _ _ _) as [t []]; by intros [= <- <-].
  - intros [= <- <-]. auto.
Qed.

Lemma SetSecret_spec e rq ws body st st' r : run e rq (CallSet ws body) st = (st', r) ->
  (a_secrets st' = a_secrets st /\ unsaved r) \/
  exists k v enc, body = Some (k, v) /\ k <> "" /\ v <> "" /\ uuidRegex ws = true /\ Encrypt seal key (ae_nonce e) v = Some enc /\
    (isPlatformManagedDirectLLMBypassKey k = true -> own_key_model e ws (a_secrets st)) /\
    (callerIsAdminToken (rq_caller rq) = true ->
       (exists i, ae_workspaces e !! ws = Some i /\ wi_kind i <> Some "platform") /\ approval_used e ws k (a_approvals st) (a_approvals st')) /\
    a_secrets st' = upsert_ws (ae_now e) ws k enc (CurrentEncryptionVersion key) (a_secrets st) /\ r = SavedSecret k.
Proof.
  cbn [serve]. unfold SetSecret. destruct (uuidRegex ws) eqn:Eu; cbn [negb]; [|intros [= <- <-]; by left].
  destruct (bound body) as [[k v]|] eqn:Eb; [|intros [= <- <-]; by left]. apply bound_Some in Eb as (-> & Hk & Hv).
  destruct (rejectPlatformManagedDirectLLMBypassForWorkspace _ _ _ _ _ _ _ _ _ _ _) eqn:Er; [intros [= <- <-]; by left|].
  destruct (conciergeSelfSecretWriteBlocked _ _ _) eqn:Ec; [intros [= <- <-]; by left|].
  destruct (gateDestructive _ _ _ _ _ _ _ _ _ _) as [ap g] eqn:Eg. destruct g; try (intros [= <- <-]; by left).
  destruct (Encrypt _ _ _ _) as [enc|] eqn:Ee; [|intros [= <- <-]; by left]. destruct (exec_fails _); [intros [= <- <-]; by left|].
  intros [= <- <-]. right. exists k, v, enc. rewrite self_restart_secrets, self_restart_approvals. cbn [a_secrets a_approvals log_audit with_secrets with_approvals].
  split_and!; try done; [intros Hb; by apply (bypass_guard _ _ _ _ Er)|].
  intros Ha. split; [by apply (concierge_guard _ _ _ Ec)|]. by apply (gate_spends (rq_caller rq) (ae_gate e) ws ActionSecretWrite _ (write_context ws k) (a_approvals st) ap eq_refl Ha Eg).
Qed.

Lemma DeleteSecret_spec e rq ws k st st' r : run e rq (CallDelete ws k) st = (st', r) ->
  (a_secrets st' = a_secrets st /\ unsaved r) \/
  (uuidRegex ws = true /\ a_secrets st' = deleted_ws ws k (a_secrets st) /\ (r = DeletedSecret k \/ r = Refused 500)).
Proof.
  cbn [serve]. unfold DeleteSecret. destruct (uuidRegex ws) eqn:Eu; cbn [negb]; [|intros [= <- <-]; by left].
  destruct (ae_write e); [|intros [= <- <-]; by left|intros [= <- <-]; right; auto].
  destruct (decide _); [|intros [= <- <-]; by left]. intros [= <- <-]. right. rewrite self_restart_secrets. auto.
Qed.

Lemma SetGlobal_spec e rq body st st' r : run e rq (CallSetGlobal body) st = (st', r) ->
  (a_secrets st' = a_secrets st /\ unsaved r) \/
  exists k v enc, body = Some (k, v) /\ k <> "" /\ v <> "" /\ Encrypt seal key (ae_nonce e) v = Some enc /\
    a_secrets st' = upsert_global (ae_now e) k enc (CurrentEncryptionVersion key) (a_secrets st) /\
    FanOut k (callerWorkspaceID sha256 e rq st) ∈ a_tasks st' /\ r = SavedSecret k.
Proof.
  cbn [serve]. unfold SetGlobal. destruct (bound body) as [[k v]|] eqn:Eb; [|intros [= <- <-]; by left]. apply bound_Some in Eb as (-> & Hk & Hv).
  destruct (Encrypt _ _ _ _) as [enc|] eqn:Ee; [|intros [= <- <-]; by left]. destruct (exec_fails _); [intros [= <- <-]; by left|].
  intros [= <- <-]. right. exists k, v, enc. cbn. rewrite elem_of_app, list_elem_of_singleton. split_and!; auto.
Qed.

Lemma DeleteGlobal_spec e rq k st st' r : run e rq (CallDeleteGlobal k) st = (st', r) ->
  (a_secrets st' = a_secrets st /\ unsaved r) \/
  (a_secrets st' = deleted_global k (a_secrets st) /\
     ((r = DeletedSecret k /\ FanOut k (callerWorkspaceID sha256 e rq st) ∈ a_tasks st') \/ (r = Refused 500 /\ ae_write e = RowsAffectedErr))).
Proof.
  cbn [serve]. unfold DeleteGlobal. destruct (ae_write e); [|intros [= <- <-]; by left|intros [= <- <-]; right; auto].
  destruct (decide _); [|intros [= <- <-]; by left]. intros [= <- <-]. right. cbn. rewrite elem_of_app, list_elem_of_singleton. auto.
Qed.

Lemma SetModel_spec e rq ws body st st' r : run e rq (CallSetModel ws body) st = (st', r) ->
  (a_secrets st' = a_secrets st /\ unsaved r) \/
  (uuidRegex ws = true /\ body = Some "" /\ a_secrets st' = deleted_ws ws "MODEL" (a_secrets st) /\ r = ModelCleared) \/
  exists m enc, uuidRegex ws = true /\ body = Some m /\ m <> "" /\ check_model re_ok re_match reg e ws m = None /\
    Encrypt seal key (ae_nonce e) m = Some enc /\
    a_secrets st' = upsert_ws (ae_now e) ws "MODEL" enc (CurrentEncryptionVersion key) (a_secrets st) /\ r = ModelSaved m.
Proof.
  cbn [serve]. unfold SetModel. destruct (uuidRegex ws) eqn:Eu; cbn [negb]; [|intros [= <- <-]; by left].
  destruct body as [m|]; [|intros [= <- <-]; by left]. destruct (check_model _ _ _ _ _ _) as [rr|] eqn:Ec.
  { intros [= <- <-]. left. split; [done|]. unfold check_model in Ec. destruct (decide _); [done|].
    destruct (runtime_row _ _) as [[rt|]| |]; [|by injection Ec as <-..]. repeat (case_match; simplify_eq; try exact I). }
  unfold setModelSecretExec. destruct (decide (m = "")) as [->|Hm].
  { destruct (exec_fails _); [intros [= <- <-]; by left|]. intros [= <- <-]. right. left. by destruct restartFunc. }
  destruct (Encrypt _ _ _ _) as [enc|] eqn:Ee; [|intros [= <- <-]; by left]. destruct (exec_fails _); [intros [= <- <-]; by left|].
  intros [= <- <-]. right. right. exists m, enc. by destruct restartFunc.
Qed.

Section Sealed.
Context (Hopen : forall k n p, String.length k = key_size -> String.length n = nonce_size -> open_ k n (seal k n p) = Some p).

(** C30: Every row of a secret that a call changed is one the call was let to change: [own_change]
    and [global_change] say on which grounds, and what the row holds.  A call that is refused
    changes none. *)
Theorem changed_secret_was_admitted e rq c st (Hnonce : forall n, ae_nonce e = Some n -> String.length n = nonce_size) :
  let '(st', r) := run e rq c st in
  (forall ws k, ws_secrets (a_secrets st') !! (ws, k) = ws_secrets (a_secrets st) !! (ws, k) \/
     (uuidRegex ws = true /\ own_change e rq st st' ws k c (ws_secrets (a_secrets st') !! (ws, k)))) /\
  (forall k, global_secrets (a_secrets st') !! k = global_secrets (a_secrets st) !! k \/
     global_change k c (global_secrets (a_secrets st') !! k)) /\
  (unsaved r -> r <> Refused 500 -> a_secrets st' = a_secrets st).
Proof.
  assert (Henc : forall v enc r0, Encrypt seal key (ae_nonce e) v = Some enc -> sr_value r0 = enc /\ sr_version r0 = CurrentEncryptionVersion key -> opens r0 v).
  { intros v enc r0 He [? ?]. by eapply (encrypted_opens seal open_ Hopen key (ae_nonce e)). }
  destruct (run e rq c st) as [st' r] eqn:E.
  assert (Hkept : a_secrets st' = a_secrets st ->
    (forall ws k, ws_secrets (a_secrets st') !! (ws, k) = ws_secrets (a_secrets st) !! (ws, k) \/
     (uuidRegex ws = true /\ own_change e rq st st' ws k c (ws_secrets (a_secrets st') !! (ws, k)))) /\
    (forall k, global_secrets (a_secrets st') !! k = global_secrets (a_secrets st) !! k \/
     global_change k c (global_secrets (a_secrets st') !! k)) /\
    (unsaved r -> r <> Refused 500 -> a_secrets st' = a_secrets st)) by (intros ->; auto).
  destruct c as [ws0|ws0|ws0 body|ws0 k0| |body|k0|fails ws0|ws0 body].
  - injection E as <- <-. auto.
  - by apply Values_keeps in E as [? _]; auto.
  - apply SetSecret_spec in E as [[? _]|(k0 & v & enc & -> & Hk0 & Hv & Hu & He & Hb & Ha & Hs & ->)]; [auto|]. split_and!; [| |done].
    + intros ws k. rewrite Hs. destruct (upsert_ws_cases (ae_now e) ws0 k0 enc (CurrentEncryptionVersion key) (a_secrets st) ws k) as [|([= -> ->] & r0 & -> & Hr)]; [by left|right].
      split; [done|]. constructor; eauto.
    + intros k. left. by rewrite Hs.
  - apply DeleteSecret_spec in E as [[? _]|(Hu & Hs & Hr)]; [auto|]. split_and!.
    + intros ws k. rewrite Hs. destruct (deleted_ws_cases ws0 k0 (a_secrets st) ws k) as [|([= -> ->] & ->)]; [by left|right]. split; [done|constructor].
    + intros k. left. by rewrite Hs.
    + by destruct Hr as [-> | ->].
  - injection E as <- <-. auto.
  - apply SetGlobal_spec in E as [[? _]|(k0 & v & enc & -> & Hk0 & Hv & He & Hs & _ & ->)]; [auto|]. split_and!; [| |done].
    + intros ws k. left. by rewrite Hs.
    + intros k. rewrite Hs. destruct (upsert_global_cases (ae_now e) k0 enc (CurrentEncryptionVersion key) (a_secrets st) k) as [|(-> & r0 & -> & Hr)]; [by left|right].
      constructor; eauto.
  - apply DeleteGlobal_spec in E as [[? _]|(Hs & Hr)]; [auto|]. split_and!.
    + intros ws k. left. by rewrite Hs.
    + intros k. rewrite Hs. destruct (deleted_global_cases k0 (a_secrets st) k) as [|(-> & ->)]; [by left|right]. constructor.
    + by destruct Hr as [[-> _]|[-> _]].
  - injection E as <- <-. auto.
  - apply SetModel_spec in E as [[? _]|[(Hu & -> & Hs & ->)|(m & enc & Hu & -> & Hm & Hc & He & Hs & ->)]]; [auto| |]; (split_and!; [| |done]).
    + intros ws k. rewrite Hs. destruct (deleted_ws_cases ws0 "MODEL" (a_secrets st) ws k) as [|([= -> ->] & ->)]; [by left|right]. split; [done|by constructor].
    + intros k. left. by rewrite Hs.
    + intros ws k. rewrite Hs. destruct (upsert_ws_cases (ae_now e) ws0 "MODEL" enc (CurrentEncryptionVersion key) (a_secrets st) ws k) as [|([= -> ->] & r0 & -> & Hr)]; [by left|right].
      split; [done|]. constructor; eauto.
    + intros k. left. by rewrite Hs.
Qed.
End Sealed.

(** ** Who is restarted *)

(** The restarts a call may leave behind: of the workspace it is about, and, but for a change
    of the model, neither of the caller nor of a platform workspace; or of the workspaces the
    organisation's secret reaches, without the caller. *)
Definition spares (e : api_env) (rq : request) (c : call) (st : api) (t : task) : Prop :=
  let caller := callerWorkspaceID sha256 e rq st in
  match t with
  | FanOut k x => x = caller /\ (c = CallDeleteGlobal k \/ exists v, c = CallSetGlobal (Some (k, v)))
  | RestartOne ws =>
      (exists m, c = CallSetModel ws m) \/
      (((exists b, c = CallSet ws b) \/ (exists k, c = CallDelete ws k)) /\ ws <> caller /\
         exists i, ae_workspaces e !! ws = Some i /\ wi_kind i <> Some "platform")
  end.
Definition leaves (e : api_env) (rq : request) (c : call) (st st' : api) : Prop :=
  exists l, a_tasks st' = a_tasks st ++ l /\ forall t, t ∈ l -> spares e rq c st t.

Lemma leaves_nothing e rq c st st' : a_tasks st' = a_tasks st -> leaves e rq c st st'.
Proof. intros E. exists []. rewrite app_nil_r. split; [done|]. by intros t Ht%elem_of_nil. Qed.
Lemma leaves_one e rq c st st' t : a_tasks st' = a_tasks st ++ [t] -> spares e rq c st t -> leaves e rq c st st'.
Proof. intros E Ht. exists [t]. split; [done|]. by intros ? ->%list_elem_of_singleton. Qed.

Lemma self_restart_leaves e rq c st st1 ws : a_tasks st1 = a_tasks st -> a_tokens st1 = a_tokens st -> (exists b, c = CallSet ws b) \/ (exists k, c = CallDelete ws k) ->
  leaves e rq c st (self_restart sha256 restartFunc e rq ws st1).
Proof.
  intros Ht Htok Hc. unfold self_restart. destruct (restartFunc && _) eqn:E; [|by apply leaves_nothing].
  apply (leaves_one _ _ _ _ _ (RestartOne ws)); [by cbn; rewrite Ht|]. right. split; [done|].
  apply andb_true_iff in E as [_ E]. unfold autoRestartAllowed in E.
  assert (Hcid : callerWorkspaceID sha256 e rq st1 = callerWorkspaceID sha256 e rq st) by (unfold callerWorkspaceID; by rewrite Htok).
  rewrite Hcid in E. destruct (decide _) as [|Hne]; [done|]. split; [done|].
  unfold kind_of in E. destruct (ae_restart_fails e); [done|]. destruct (ae_workspaces e !! ws) as [i|]; [|done]. cbn in E. exists i. split; [done|].
  intros Ek. rewrite Ek in E. cbn in E. by apply negb_true_iff, bool_decide_eq_false in E.
Qed.

#[local] Ltac early := repeat (case_match; simplify_eq; try (intros [= <- <-]; by apply leaves_nothing)).

Lemma restarts_spare_caller_and_root e rq c st st' r : run e rq c st = (st', r) -> leaves e rq c st st'.
Proof.
  destruct c as [ws|ws|ws body|ws k| |body|k|fails ws|ws body]; cbn [serve]; try (intros [= <- <-]; by apply leaves_nothing).
  - unfold Values. early.
  - unfold SetSecret. early. intros [= <- <-]. apply self_restart_leaves; [done|done|eauto].
  - unfold DeleteSecret. early. intros [= <- <-]. apply self_restart_leaves; [done|done|eauto].
  - unfold SetGlobal. destruct (bound body) as [[k v]|] eqn:Eb; [|intros [= <- <-]; by apply leaves_nothing]. apply bound_Some in Eb as (-> & _ & _).
    early. intros [= <- <-]. eapply leaves_one; [done|]. cbn. eauto.
  - unfold DeleteGlobal. early. intros [= <- <-]. eapply leaves_one; [done|]. cbn. eauto.
  - unfold SetModel. early; intros [= <- <-]; (eapply leaves_one; [done|]); left; eauto.
Qed.

Lemma fan_out_elem fails lost workspaces s k x ws : restartFunc = true ->
  ws ∈ restartAllAffectedByGlobalKey restartFunc fails lost workspaces s k x <->
  fails = false /\ exists i, workspaces !! ws = Some i /\ affected s k ws i = true /\ lost ws = false /\ ws <> x.
Proof.
  intros Hrf. unfold restartAllAffectedByGlobalKey. rewrite Hrf. cbn.
  destruct fails; cbn; [split; [by intros ?%elem_of_nil|by intros [? _]]|]. rewrite list_elem_of_omap. split.
  - intros ([w i] & Hin & Hc). split; [done|]. apply elem_of_map_to_list in Hin. cbn in Hc. destruct (affected s k w i) eqn:Ea; [|done].
    destruct (lost w) eqn:El; [done|]. destruct (bool_decide (w = x)) eqn:Ex; [done|]. injection Hc as ->. apply bool_decide_eq_false in Ex. eauto.
  - intros (_ & i & Hi & Ha & Hl & Hne). exists (ws, i). split; [by apply elem_of_map_to_list|]. cbn. by rewrite Ha, Hl, bool_decide_false.
Qed.

(** C31: Rotation arrives.  When a write or delete of one of the organisation's secrets is answered
    as done, and it changes what the environment of a workspace holds, then the call starts a
    fan-out, and that workspace is among the ones it restarts exactly when the SELECT of the
    fan-out succeeds and does not lose its row: unless it is removed, paused, external, a
    platform agent, or the caller.  A call that is answered 500 after its DELETE was
    committed starts none. *)
Theorem rotation_reaches_whom_it_changes e rq c st st' r ws i l l' name
    (Hglobal : (exists b, c = CallSetGlobal b) \/ exists k, c = CallDeleteGlobal k)
    (Hrun : run e rq c st = (st', r)) (Hdone : unsaved r -> r <> Refused 500)
    (Hbefore : loadWorkspaceSecrets open_ no_fault no_fault key ws (a_secrets st) = inl l)
    (Hafter : loadWorkspaceSecrets open_ no_fault no_fault key ws (a_secrets st') = inl l')
    (Hchanged : ld_env l !! name <> ld_env l' !! name)
    (Hwired : restartFunc = true) (Hrow : ae_workspaces e !! ws = Some i) (Hstatus : wi_status i ∉ ["removed"; "paused"])
    (Hruntime : wi_runtime i <> Some "external") (Hkind : wi_kind i <> Some "platform") (Hcaller : ws <> callerWorkspaceID sha256 e rq st) :
  exists k, FanOut k (callerWorkspaceID sha256 e rq st) ∈ a_tasks st' /\
    forall fails lost, ws ∈ restartAllAffectedByGlobalKey restartFunc fails lost (ae_workspaces e) (a_secrets st') k (callerWorkspaceID sha256 e rq st) <->
                       fails = false /\ lost ws = false.
Proof.
  destruct (load_merges _ _ _ _ _ _ _ Hbefore) as ((m & Em & Hm) & _ & _ & Hown).
  destruct (load_merges _ _ _ _ _ _ _ Hafter) as ((m' & Em' & Hm') & _ & _ & Hown').
  assert (Hkey : exists k, FanOut k (callerWorkspaceID sha256 e rq st) ∈ a_tasks st' /\ ws_secrets (a_secrets st') = ws_secrets (a_secrets st) /\
    forall k', k' <> k -> global_secrets (a_secrets st') !! k' = global_secrets (a_secrets st) !! k').
  { assert (Hsame : a_secrets st' = a_secrets st -> False).
    { intros E. rewrite E, Hbefore in Hafter. injection Hafter as <-. done. }
    destruct Hglobal as [[b ->]|[k ->]].
    - apply SetGlobal_spec in Hrun as [[? _]|(k & v & enc & -> & _ & _ & _ & Hs & Ht & _)]; [done|]. exists k. split; [done|]. rewrite Hs. split; [done|].
      intros k' Hne. cbn. by rewrite lookup_partial_alter_ne.
    - apply DeleteGlobal_spec in Hrun as [[? _]|(Hs & [[_ Ht]|[-> _]])]; [done| |by destruct Hdone]. exists k. split; [done|]. rewrite Hs. split; [done|].
      intros k' Hne. cbn. by rewrite lookup_delete_ne. }
  destruct Hkey as (k & Ht & Hws & Hg). exists k. split; [done|].
  assert (Haff : affected (a_secrets st') k ws i = true);
    [|intros fails lost; rewrite fan_out_elem by done; split; [by intros (? & j & _ & _ & ? & _)|intros []; split; [done|by exists i]]].
  unfold affected.
  rewrite (bool_decide_true _ Hstatus). rewrite !bool_decide_false by (destruct (wi_runtime i), (wi_kind i); cbn; congruence). cbn [negb andb].
  apply bool_decide_eq_true. destruct (ws_secrets (a_secrets st') !! (ws, k)) as [row|] eqn:Erow; [|done]. destruct Hchanged.
  assert (Emm : m = m'); [|by rewrite Em, Em', Emm].
  apply map_eq. intros k'. rewrite Hm, Hm'. unfold own_value, global_value. rewrite Hws.
  destruct (decide (k' = k)) as [->|Hne]; [|by rewrite Hg].
  destruct (decide (k = "LLM_PROVIDER")) as [->|Hl]; [done|].
  specialize (Hown' k row Erow Hl eq_refl). unfold own_value in Hown'. rewrite Hws in Hown'. by destruct Hown' as [v ->].
Qed.

(** ** What a remote agent reads *)

Lemma add_values_failed scope rows : forall acc, exists f, (add_values open_ key scope rows acc).2 = acc.2 ++ f.
Proof.
  induction rows as [|kr rows IH]; intros acc; cbn; [exists []; by rewrite app_nil_r|].
  match goal with |- context [add_values _ _ _ _ ?a] => destruct (IH a) as [f ->] end. destruct (DecryptVersioned _ _ _ _); cbn; [by exists f|].
  exists ((scope +:+ kr.1) :: f). by rewrite <- app_assoc.
Qed.

(** Where no value fails, the two read the same, but for the retired name. *)
Lemma add_values_load (f : string * secret_row -> loaded -> option loaded) (mark : string -> loaded -> loaded) scope
    (Hf : forall kr l, f kr l = if decide (kr.1 = "LLM_PROVIDER") then Some l
       else match DecryptVersioned open_ key (sr_value kr.2) (sr_version kr.2) with
            | None => None | Some v => Some (mark kr.1 (Loaded (<[kr.1 := v]> (ld_env l)) (ld_global l) (ld_workspace l))) end)
    (Hmark : forall k l, ld_env (mark k l) = ld_env l) rows : forall m m' l,
  add_values open_ key scope rows (m, []) = (m', []) -> ld_env l = base.delete "LLM_PROVIDER" m ->
  exists l', load_rows f rows l = Some l' /\ ld_env l' = base.delete "LLM_PROVIDER" m'.
Proof.
  induction rows as [|kr rows IH]; intros m m' l; cbn [add_values load_rows]; [intros [= <-]; eauto|].
  rewrite Hf. destruct (DecryptVersioned open_ key (sr_value kr.2) (sr_version kr.2)) as [v|] eqn:Ed; cbn [fst snd app].
  - intros Hadd Hl. destruct (decide (kr.1 = "LLM_PROVIDER")) as [E|Hne].
    + apply (IH _ _ l Hadd). by rewrite Hl, E, delete_insert_eq.
    + apply (IH _ _ _ Hadd). rewrite Hmark. cbn. by rewrite Hl, delete_insert_ne.
  - intros Hadd. destruct (add_values_failed scope rows (m, [scope +:+ kr.1])) as [f' Hf']. by rewrite Hadd in Hf'.
Qed.

(** A remote agent gets what a local container gets: when the bundle is answered, the load
    of a provision under the same reads succeeds, and its environment is the bundle without
    LLM_PROVIDER and with the addresses of the providers filled in. *)
Theorem remote_bundle_is_local_env e rq ws st st' m (Hanswer : run e rq (CallValues ws) st = (st', Values_ m)) :
  exists l, loadWorkspaceSecrets open_ (ae_global e) (ae_own e) key ws (a_secrets st) = inl l /\
    ld_env l = applyProviderBaseURLDefaults (base.delete "LLM_PROVIDER" m).
Proof.
  assert (Hb : answer_bundle open_ key e ws (a_secrets st) = Values_ m).
  { cbn [serve] in Hanswer. unfold Values in Hanswer. destruct (negb _); [by injection Hanswer as _|].
    destruct (HasAnyLiveToken _ _ _) as [[]|]; [|by injection Hanswer|by injection Hanswer].
    destruct (decide _); [by injection Hanswer as _|]. destruct (ValidateToken _ _ _ _ _ _ _) as [t []]; by injection Hanswer. }
  unfold answer_bundle, bundle in Hb. destruct (add_values open_ key "global:" _ _) as [mg fg] eqn:Eg.
  destruct (add_values open_ key "workspace:" _ _) as [mw fw] eqn:Ew. destruct fw; [|done]. injection Hb as ->.
  destruct (add_values_failed "workspace:" (read_workspace (ae_own e) ws (a_secrets st)) (mg, fg)) as [f Hf]. rewrite Ew in Hf. cbn in Hf.
  symmetry in Hf. apply app_eq_nil in Hf as [-> _].
  destruct (add_values_load (load_global open_ key) (fun k l => Loaded (ld_env l) ({[k]} ∪ ld_global l) (ld_workspace l)) "global:"
    (fun _ _ => eq_refl) (fun _ _ => eq_refl) _ _ _ (Loaded ∅ ∅ ∅) Eg) as (l1 & E1 & H1); [by rewrite delete_empty|].
  destruct (add_values_load (load_own open_ key) (fun k l => Loaded (ld_env l) (ld_global l ∖ {[k]}) ({[k]} ∪ ld_workspace l)) "workspace:"
    (fun _ _ => eq_refl) (fun _ _ => eq_refl) _ _ _ l1 Ew H1) as (l2 & E2 & H2).
  unfold loadWorkspaceSecrets. rewrite E1, E2. eexists. split; [done|]. cbn. by rewrite H2.
Qed.
End Secrets.

Module SecretsDemo.
Import SecretDemo ModelDemo.
#[local] Existing Instance plain_cast.
Definition w : string := "0b50c38e-4b73-4a5a-9f5e-d3ce7a1c2f01".
Definition nobody : caller := Caller None None.
Definition asks : request := Request "" "caller" nobody.
Definition sha (s : string) : string := s.
Definition mar (_ : json) : string := "{}".
Definition gate : gate_env := GateEnv false (fun _ => false) false "g1" false 1 ∅ (fun a => a) false.
Definition quiet : api_env :=
  ApiEnv 9 {[w := WsInfo None (Some "claude-code") "online"]} false false false false false false false no_fault no_fault no_fault
    (Some "123456789012") ExecOk gate.
Definition start : api := Api (Secrets ∅ {["ORG_KEY" := row "org"]}) (TokenDb ∅ ∅) (Approvals ∅ []) [] [].
Definition run (c : call) (st : api) : api * api_reply :=
  serve re_ok re_match (Some registry) seal open_ sha mar sha sha "" (fun _ => "") "hermes" true quiet asks c st.
Definition after (cs : list call) : api := foldl (fun st c => (run c st).1) start cs.

Lemma changed_secret_was_admitted_witness :
  exists r, ws_secrets (a_secrets (after [CallSet w (Some ("API_KEY", "v"))])) !! (w, "API_KEY") = Some r /\ DecryptVersioned open_ "" (sr_value r) (sr_version r) = Some "v".
Proof.
  assert (H : forall k n p, String.length k = key_size -> String.length n = nonce_size -> open_ k n (seal k n p) = Some p) by (intros; reflexivity).
  assert (N : forall n, ae_nonce quiet = Some n -> String.length n = nonce_size) by (intros n [= <-]; reflexivity).
  set (c := CallSet w (Some ("API_KEY", "v"))). set (res := run c start).
  pose proof (changed_secret_was_admitted re_ok re_match (Some registry) seal open_ sha mar sha sha "" (fun _ => "") "hermes" true H quiet asks c start N) as T.
  assert (E : run c start = (res.1, res.2)) by (vm_compute; reflexivity). unfold run in E. rewrite E in T. destruct T as (T & _).
  assert (D : ws_secrets (a_secrets res.1) !! (w, "API_KEY") <> ws_secrets (a_secrets start) !! (w, "API_KEY")) by (vm_compute; discriminate).
  destruct (T w "API_KEY") as [C|[_ C]]; [destruct (D C)|]. apply own_change_set in C as (r & Hr & Ho). exists r. split; [exact Hr|exact Ho].
Defined.

Lemma rotation_reaches_whom_it_changes_witness : exists k,
  FanOut k (callerWorkspaceID sha quiet asks start) ∈ a_tasks (run (CallSetGlobal (Some ("ORG_KEY", "new"))) start).1 /\
  forall fails lost, w ∈ restartAllAffectedByGlobalKey true fails lost (ae_workspaces quiet)
    (a_secrets (run (CallSetGlobal (Some ("ORG_KEY", "new"))) start).1) k (callerWorkspaceID sha quiet asks start) <-> fails = false /\ lost w = false.
Proof.
  set (c := CallSetGlobal (Some ("ORG_KEY", "new"))). set (res := run c start).
  assert (Hrun : run c start = (res.1, res.2)) by (vm_compute; reflexivity).
  set (load s := match loadWorkspaceSecrets open_ no_fault no_fault "" w s with inl l => l | inr _ => Loaded ∅ ∅ ∅ end).
  assert (Hb : loadWorkspaceSecrets open_ no_fault no_fault "" w (a_secrets start) = inl (load (a_secrets start))) by (vm_compute; reflexivity).
  assert (Ha : loadWorkspaceSecrets open_ no_fault no_fault "" w (a_secrets res.1) = inl (load (a_secrets res.1))) by (vm_compute; reflexivity).
  assert (Hc : ld_env (load (a_secrets start)) !! "ORG_KEY" <> ld_env (load (a_secrets res.1)) !! "ORG_KEY") by (vm_compute; discriminate).
  assert (Hd : unsaved res.2 -> res.2 <> Refused 500) by (vm_compute; intros []).
  assert (Hs : "online" ∉ ["removed"; "paused"]) by (apply (bool_decide_unpack _); vm_compute; exact I).
  apply (rotation_reaches_whom_it_changes re_ok re_match (Some registry) seal open_ sha mar sha sha "" (fun _ => "") "hermes" true quiet asks c start
    res.1 res.2 w (WsInfo None (Some "claude-code") "online") _ _ "ORG_KEY" (or_introl (ex_intro _ _ eq_refl)) Hrun Hd Hb Ha Hc eq_refl);
    [vm_compute; reflexivity|exact Hs|discriminate|discriminate|vm_compute; discriminate].
Defined.

Lemma remote_bundle_is_local_env_witness : exists l m, loadWorkspaceSecrets open_ no_fault no_fault "" w (a_secrets start) = inl l /\
  ld_env l = applyProviderBaseURLDefaults (base.delete "LLM_PROVIDER" m) /\ m !! "ORG_KEY" = Some "org".
Proof.
  set (m := match (run (CallValues w) start).2 with Values_ m => m | _ => ∅ end).
  assert (E : run (CallValues w) start = ((run (CallValues w) start).1, Values_ m)) by (vm_compute; reflexivity).
  destruct (remote_bundle_is_local_env re_ok re_match (Some registry) seal open_ sha mar sha sha "" (fun _ => "") "hermes" true quiet asks w start _ m E) as (l & Hl & He).
  exists l, m. split; [exact Hl|split; [exact He|vm_compute; reflexivity]].
Defined.

(** A change of the model restarts also its caller, which a change of a secret does not. *)
Example model_change_restarts_its_caller :
  let asks := Request "" w nobody in
  let go c := a_tasks (serve re_ok re_match (Some registry) seal open_ sha mar sha sha "" (fun _ => "") "hermes" true quiet asks c start).1 in
  go (CallSet w (Some ("MODEL", "minimax/M2"))) = [] /\ go (CallSetModel w (Some "minimax/M2")) = [RestartOne w].
Proof. vm_compute. auto. Qed.

(** The route of the secrets stores a model the route of the model refuses. *)
Example secret_route_skips_model_check :
  (run (CallSetModel w (Some "no-such-model")) start).2 = Unregistered "UNREGISTERED_MODEL_FOR_RUNTIME" /\
  (run (CallSet w (Some ("MODEL", "no-such-model"))) start).2 = SavedSecret "MODEL".
Proof. vm_compute. auto. Qed.

(** A vendor key that is refused beside a model of the platform stays when the model becomes
    one. *)
Example platform_model_hosts_vendor_key :
  let st := after [CallSetModel w (Some "MiniMax-M2"); CallSet w (Some ("MINIMAX_API_KEY", "k")); CallSetModel w (Some "minimax/M2")] in
  (run (CallSet w (Some ("MINIMAX_API_KEY", "k"))) st).2 = Refused 400 /\
  is_Some (ws_secrets (a_secrets st) !! (w, "MINIMAX_API_KEY")).
Proof. vm_compute. eauto. Qed.

(** An approval of a write is for its key, whatever is written; and it is gone when the
    write then fails. *)
Definition admin : request := Request "" "caller" (Caller None (Some (CtxBool true))).
Definition granted : api :=
  Api (a_secrets start) (a_tokens start)
    (Approvals {["g1" := MkApprovalRow (Some w) None ActionSecretWrite None JNull "approved" (Some "human") (Some 1) 0 None
                           (Some (approvalRequestHash mar sha w ActionSecretWrite (write_context w "ORG_KEY")))]} []) [] [].
Definition as_admin (f : exec_fault) (v : string) : api * api_reply :=
  serve re_ok re_match (Some registry) seal open_ sha mar sha sha "" (fun _ => "") "hermes" true
    (ApiEnv 9 (ae_workspaces quiet) false false false false false false false no_fault no_fault no_fault None f gate) admin (CallSet w (Some ("ORG_KEY", v))) granted.
Example approval_is_for_any_value : (as_admin ExecOk "what was meant").2 = SavedSecret "ORG_KEY" /\ (as_admin ExecOk "anything else").2 = SavedSecret "ORG_KEY".
Proof. vm_compute. auto. Qed.
Example failed_write_spends_the_approval :
  (as_admin ExecErr "v").2 = Refused 500 /\ ap_consumed_at <$> (ap_rows (a_approvals (as_admin ExecErr "v").1) !! "g1") = Some (Some 1).
Proof. vm_compute. auto. Qed.
End SecretsDemo.
