(* ===== verification/ProvisionEnv.v ===== *)
(** * What a workspace is started with

    internal/handlers/workspace_provision_shared.go (prepareProvisionContext),
    workspace_provision_forbidden_env.go, agent_git_identity.go, workspace_preflight.go,
    the provisioning hook of platform_agent.go, the chain of pkg/provisionhook/mutator.go, and
    buildContainerEnv with the mounts of internal/provisioner/provisioner.go.  [os] is the
    environment of the server. *)

From stdpp Require Import pretty.
From S2P Require Import Prelude RateLimit SecretStore Providers ModelChoice LlmEnv.

(** ** Names a workspace may not be given *)

Definition forbiddenTenantEnvKeys : list string :=
  ["GITEA_TOKEN"; "GITEA_PAT"; "GITHUB_TOKEN"; "GITHUB_PAT"; "GH_TOKEN"; "GITLAB_TOKEN"; "GL_TOKEN"; "BITBUCKET_TOKEN";
   "CP_ADMIN_API_TOKEN"; "CP_PROMOTE_PROD_API_TOKEN"; "CP_ADMIN_TOKEN"; "ADMIN_TOKEN"; "MOLECULE_ADMIN_TOKEN";
   "PROVISION_SHARED_SECRET"; "MOLECULE_CP_SHARED_SECRET"; "SECRETS_ENCRYPTION_KEY"; "MOLECULE_TEMPLATE_REPO_TOKEN";
   "AWS_ACCESS_KEY_ID"; "AWS_SECRET_ACCESS_KEY"; "AWS_SESSION_TOKEN"; "GHCR_PULL_TOKEN";
   "INFISICAL_OPERATOR_TOKEN"; "INFISICAL_BOOTSTRAP_TOKEN"; "INFISICAL_CLIENT_ID"; "INFISICAL_CLIENT_SECRET";
   "RAILWAY_TOKEN"; "RAILWAY_PERSONAL_API_TOKEN"; "HETZNER_TOKEN"; "HETZNER_API_TOKEN"].
Definition forbiddenTenantEnvPrefixes : list string := ["MOLECULE_OPERATOR_"].
Definition isForbiddenTenantEnvKey (key : string) : bool :=
  bool_decide (key ∈ forbiddenTenantEnvKeys) || existsb (has_prefix key) forbiddenTenantEnvPrefixes.
(** The lists of names are sorted in the code; here they are in the order of the map. *)
Definition findForbiddenTenantEnvKeys (envVars : env) : list string :=
  filter (fun k => isForbiddenTenantEnvKey k = true) (map_to_list envVars).*1.
Definition privilegedTenantAdminEnvKeys : list string :=
  ["ADMIN_TOKEN"; "MOLECULE_ADMIN_TOKEN"; "CP_ADMIN_API_TOKEN"; "CP_ADMIN_TOKEN"; "CP_PROMOTE_PROD_API_TOKEN"].
Definition findPrivilegedTenantAdminEnvKeys (envVars : env) : list string :=
  filter (fun k => is_Some (envVars !! k)) privilegedTenantAdminEnvKeys.
Definition findForbiddenTenantEnvKeysFromGlobals (envVars : env) (globalSecretKeys : gset string) : list string :=
  filter (fun k => is_Some (envVars !! k) /\ isForbiddenTenantEnvKey k = true) (elements globalSecretKeys).

(** ** The identity of an agent towards git *)

Definition setIfEmpty (k v : string) (m : env) : env := if decide (is_Some (m !! k)) then m else <[k := v]> m.

Definition slug_char (a : Ascii.ascii) : bool :=
  let n := Ascii.nat_of_ascii a in ((97 <=? n) && (n <=? 122) || (48 <=? n) && (n <=? 57))%nat.
Definition dash : Ascii.ascii := Ascii.ascii_of_nat 45.
(** Runs of other bytes become one dash, but at the two ends: [pending] is a run, [started]
    that something came before it. *)
Fixpoint slugify (started pending : bool) (s : string) : string :=
  match s with
  | "" => ""
  | String a rest =>
      if slug_char a then (if started && pending then String dash (String a (slugify true false rest)) else String a (slugify true false rest))
      else slugify started true rest
  end.
Definition slugifyForEmail (name : string) : string := slugify false false (ToLower name).

Definition gitIdentityEmailDomain : string := "agents.moleculesai.app".
Definition gitAskpassHelperPath : string := "/usr/local/bin/molecule-askpass".
Definition applyGitAskpass (m : env) : env := setIfEmpty "GIT_ASKPASS" gitAskpassHelperPath m.
Definition applyAgentGitIdentity (workspaceName : string) (m : env) : env :=
  let name := TrimSpace workspaceName in
  if decide (name = "") then m
  else
    let authorName := "Molecule AI " +:+ name in
    let authorEmail := slugifyForEmail name +:+ ("@" +:+ gitIdentityEmailDomain) in
    applyGitAskpass (setIfEmpty "GIT_COMMITTER_EMAIL" authorEmail (setIfEmpty "GIT_COMMITTER_NAME" authorName
      (setIfEmpty "GIT_AUTHOR_EMAIL" authorEmail (setIfEmpty "GIT_AUTHOR_NAME" authorName m)))).

Definition role_char (a : Ascii.ascii) : bool :=
  let n := Ascii.nat_of_ascii a in
  ((97 <=? n) && (n <=? 122) || (65 <=? n) && (n <=? 90) || (48 <=? n) && (n <=? 57) || (n =? 45) || (n =? 95))%nat.
Definition isSafeRoleName (s : string) : bool :=
  negb (bool_decide (s ∈ [""; "."; ".."])) && forallb role_char (String.list_ascii_of_string s).
(** [persona]: the token file of a persona, [None] when it cannot be read. *)
Definition applyAgentGitHTTPCreds (persona : string -> option string) (personaKey : string) (m : env) : env :=
  let key := TrimSpace personaKey in
  if negb (isSafeRoleName key) then m
  else match persona key with
       | None => m
       | Some data =>
           let token := TrimSpace data in
           if decide (token = "") then m
           else setIfEmpty "GITEA_TOKEN" token (setIfEmpty "GITEA_USER" key (setIfEmpty "GIT_HTTP_PASSWORD" token (setIfEmpty "GIT_HTTP_USERNAME" key m)))
       end.

(** ** What a template asks for *)

Abbreviation files := (gmap string string).
Definition config_yaml : string := "config.yaml".

Section Preflight.
(** The names under runtime_config.required_env of a document, [None] when it does not parse. *)
Context (required_env : string -> option (list string)).

Definition missingRequiredEnv (configFiles : files) (envVars : env) : list string :=
  match configFiles !! config_yaml with
  | None | Some "" => []
  | Some raw => match required_env raw with
                | None => []
                | Some names => filter (fun n => default "" (envVars !! n) = "") names
                end
  end.

Definition provisionInjectedEnvPrefixes : list string := ["MOLECULE_"; "GIT_"; "GITHUB_"; "GITEA_"; "GH_"; "ANTHROPIC_"; "OPENAI_"; "CLAUDE_"].
Definition provisionInjectedEnvKeys : list string := ["MODEL"; "MODEL_PROVIDER"; "LLM_PROVIDER"; "HERMES_DEFAULT_MODEL"; "PARENT_ID"; "TZ"].
Definition isProvisionInjectedEnv (name : string) : bool :=
  bool_decide (name ∈ provisionInjectedEnvKeys) || existsb (has_prefix name) provisionInjectedEnvPrefixes.
(** [disk]: the config.yaml of the template directory, if there is a path and it reads. *)
Definition createBoundaryMissingRequiredEnv (configFiles : option files) (disk : option string) (envVars : env) : list string :=
  let src := match configFiles with
             | Some fs => if decide (is_Some (fs !! config_yaml)) then Some fs else None
             | None => None
             end in
  let src := match src with Some fs => Some fs | None => (fun b => {[config_yaml := b]} : files) <$> disk end in
  match src with
  | None => []
  | Some fs => filter (fun n => isProvisionInjectedEnv n = false) (missingRequiredEnv fs envVars)
  end.
End Preflight.

(** *** Tenant identity without a tenant *)

Definition two_digits (n : Z) : string := if n <? 10 then "0" +:+ pretty n else pretty n.
(** [TZ] of the environment, the name of the local zone, and its offset in seconds. *)
Definition systemTimezoneName (tz local : string) (offset : Z) : string :=
  if negb (bool_decide (TrimSpace tz = "")) then TrimSpace tz
  else if str_contains local "/" then local
  else if offset =? 0 then "UTC"
  else
    let o := Z.abs offset in
    "UTC" +:+ ((if offset <? 0 then "-" else "+") +:+ (two_digits (o / 3600) +:+ (":" +:+ two_digits (o mod 3600 / 60)))).
Definition tenant_default (timezone key : string) : string :=
  if decide (key = "TENANT_DOMAIN" \/ key = "TENANT_DOMAIN_APEX") then "enteros.local"
  else if decide (key = "TENANT_DOMAIN_FULL") then "https://enteros.local"
  else if decide (key = "TENANT_TIMEZONE") then timezone
  else "Enter OS".
Definition fill_tenant (timezone : string) (m : env) (key : string) : env :=
  if has_prefix key "TENANT_" then <[key := tenant_default timezone key]> m else m.
Definition applySelfHostTenantDefaults (timezone : string) (missing : list string) (m : env) : env := foldl (fill_tenant timezone) m missing.

(** *** The runtime a config names *)

Definition newline : Ascii.ascii := Ascii.ascii_of_nat 10.
Fixpoint lines_of (acc : string) (s : string) : list string :=
  match s with
  | "" => [acc]
  | String a rest => if decide (a = newline) then acc :: lines_of "" rest else lines_of (acc +:+ String a "") rest
  end.
Definition blank (a : Ascii.ascii) : bool := bool_decide (a = Ascii.ascii_of_nat 32 \/ a = Ascii.ascii_of_nat 9).
Definition quote (a : Ascii.ascii) : bool := bool_decide (a = Ascii.ascii_of_nat 34 \/ a = Ascii.ascii_of_nat 39).
Fixpoint drop_while (p : Ascii.ascii -> bool) (s : string) : string :=
  match s with "" => "" | String a rest => if p a then drop_while p rest else s end.
Fixpoint drop_while_end (p : Ascii.ascii -> bool) (s : string) : string :=
  match s with
  | "" => ""
  | String a rest => match drop_while_end p rest with "" => if p a then "" else String a "" | t => String a t end
  end.
Definition trim_quotes (s : string) : string := drop_while_end quote (drop_while quote s).

Definition runtime_line (raw : string) : option string :=
  let trimmed := drop_while blank raw in
  if (String.length trimmed <? String.length raw)%nat then None
  else if has_prefix trimmed "runtime:" && negb (has_prefix trimmed "runtime_config")
       then Some (trim_quotes (TrimSpace (str_drop 8 trimmed))) else None.
Definition parseTopLevelRuntime (data : string) : string := default "" (head (omap runtime_line (lines_of "" data))).
Definition seededConfigRuntime (configFiles : option files) (disk : option string) : string :=
  match default ∅ configFiles !! config_yaml with
  | Some data => parseTopLevelRuntime data
  | None => match disk with Some data => parseTopLevelRuntime data | None => "" end
  end.
(** The runtime the config declares, when it contradicts the one asked for. *)
Definition runtimeSeedMismatchAbort (requested : string) (configFiles : option files) (disk : option string) : option string :=
  if decide (requested = "") then None
  else let seeded := seededConfigRuntime configFiles disk in
       if decide (seeded = "" \/ seeded = requested) then None else Some seeded.

(** ** The concierge *)

(** platformRuntimeAllowed of platform_agent_flow.go. *)
Definition platformRuntimeAllowed (isKnownRuntime isExternalLikeRuntime : string -> bool) (runtime : string) : bool :=
  let rt := TrimSpace runtime in
  bool_decide (rt = "") || (isKnownRuntime rt && negb (isExternalLikeRuntime rt) && negb (bool_decide (rt = "mock"))).
Definition conciergeDefaultRuntime (isKnownRuntime isExternalLikeRuntime : string -> bool) (MOLECULE_DEFAULT_RUNTIME : string) : string :=
  let v := TrimSpace MOLECULE_DEFAULT_RUNTIME in
  if negb (bool_decide (v = "")) && platformRuntimeAllowed isKnownRuntime isExternalLikeRuntime v then v else "hermes".
Definition platformDefaultModelFallback : string := "minimax/MiniMax-M3".
(** [cp]: the answer of the control plane, [None] when it cannot be had. *)
Definition defaultResolveConciergeModel (os : string -> string) (cp : option string) : option string :=
  if decide (os "MOLECULE_ORG_ID" = "" \/ os "ADMIN_TOKEN" = "")
  then let v := TrimSpace (os "MOLECULE_LLM_DEFAULT_MODEL") in Some (if decide (v = "") then platformDefaultModelFallback else v)
  else match cp with None => None | Some "" => Some platformDefaultModelFallback | Some m => Some m end.

Definition setIfAbsent (k v : string) (m : env) : env := if decide (v = "") then m else setIfEmpty k v m.
Definition pluginRegistryBase (os : string -> string) : string :=
  let v := TrimSpace (os "MOLECULE_PLUGIN_REGISTRY") in
  let w := TrimSpace (os "MOLECULE_GITEA_BASE_URL") in
  if negb (bool_decide (v = "")) then v else if negb (bool_decide (w = "")) then w else "https://git.moleculesai.app".
Definition conciergePlatformMCPEnv (os : string -> string) (workspaceID orgAdminCred : string) (m : env) : env :=
  let apiURL := if decide (os "MOLECULE_API_URL" = "") then os "PLATFORM_URL" else os "MOLECULE_API_URL" in
  let tok := TrimSpace (os "MOLECULE_TEMPLATE_REPO_TOKEN") in
  let m := setIfAbsent "MOLECULE_PLATFORM_AGENT_IMAGE_BAKED" "1" m in
  let m := setIfAbsent "MOLECULE_WORKSPACE_ID" workspaceID m in
  let m := setIfAbsent "MOLECULE_API_KEY" orgAdminCred m in
  let m := setIfAbsent "MOLECULE_ORG_API_KEY" orgAdminCred m in
  let m := setIfAbsent "MOLECULE_API_URL" apiURL m in
  let m := setIfAbsent "MOLECULE_ORG_ID" (os "MOLECULE_ORG_ID") m in
  let m := if decide (tok = "") then m else setIfAbsent "GIT_HTTP_PASSWORD" "x-oauth-basic" (setIfAbsent "GIT_HTTP_USERNAME" tok m) in
  setIfAbsent "MOLECULE_PLUGIN_REGISTRY" (pluginRegistryBase os) m.

(** What the hook of the concierge meets: the kind and runtime of the row ([None]: no answer),
    the failures of its reads and writes, the random bytes, the model of the control plane, and
    the credential (resolveConciergeAdminCredential, in OrgTokens). *)
Record hook_env := HookEnv {
  he_row : option (string * string); he_now : time;
  he_read_model_fails : bool; he_read_provider_fails : bool; he_write_model_fails : bool; he_write_provider_fails : bool;
  he_nonce_model : option string; he_nonce_provider : option string;
  he_cp_model : option string; he_credential : string
}.

Section Provision.
Context (re_ok : string -> bool) (re_match : string -> string -> bool) (os : string -> string) (reg : option Manifest).
Context (seal : string -> string -> string -> string) (open_ : string -> string -> string -> option string) (key : string).
Context (required_env : string -> option (list string)).

(** [None]: the row is there and cannot be read. *)
Definition readStoredSecret (fails : bool) (workspaceID k : string) (s : secrets) : option string :=
  if fails then None
  else match ws_secrets s !! (workspaceID, k) with
       | None => Some ""
       | Some r => DecryptVersioned open_ key (sr_value r) (sr_version r)
       end.
(** A failed write is logged; the environment of this provision has the value. *)
Definition storeSecret (now : time) (nonce : option string) (fails : bool) (workspaceID k v : string) (s : secrets) : secrets :=
  match Encrypt seal key nonce v with
  | Some enc => if fails then s else upsert_ws now workspaceID k enc (CurrentEncryptionVersion key) s
  | None => s
  end.

Definition conciergeModelIsPlatformManaged (runtime model : string) : bool :=
  let model := TrimSpace model in
  if decide (model = "") then true
  else match reg with
       | None => false
       | Some m => match DeriveProvider re_ok re_match m runtime model [] with inl p => IsPlatform p | inr _ => false end
       end.
Definition registered (runtime model : string) : bool :=
  validateRegisteredModelForRuntime re_ok re_match reg runtime model && validateDerivedProviderInRegistry re_ok re_match reg runtime model.

Definition seed_model (h : hook_env) (workspaceID runtime model : string) (se : secrets * env) : secrets * env :=
  (storeSecret (he_now h) (he_nonce_model h) (he_write_model_fails h) workspaceID "MODEL" model se.1, applyRuntimeModelEnv runtime model se.2).

Definition reconcileExistingConciergeModel (h : hook_env) (workspaceID runtime existing : string) (se : secrets * env) : secrets * env :=
  if negb (conciergeModelIsPlatformManaged runtime existing) then se
  else match defaultResolveConciergeModel os (he_cp_model h) with
       | None => se
       | Some resolved =>
           if decide (resolved = "" \/ resolved = existing) then se
           else if registered runtime resolved then seed_model h workspaceID runtime resolved se else se
       end.

Definition ensureConciergeModel (h : hook_env) (workspaceID runtime : string) (se : secrets * env) : secrets * env :=
  match readStoredSecret (he_read_model_fails h) workspaceID "MODEL" se.1 with
  | None => se
  | Some existing =>
      if negb (bool_decide (existing = "")) then reconcileExistingConciergeModel h workspaceID runtime existing se
      else match defaultResolveConciergeModel os (he_cp_model h) with
           | None => se
           | Some model => if decide (model = "") then se
                           else if registered runtime model then seed_model h workspaceID runtime model se else se
           end
  end.

Definition conciergeProvider : string := "platform".
Definition ensureConciergeProvider (h : hook_env) (workspaceID runtime : string) (se : secrets * env) : secrets * env :=
  match readStoredSecret (he_read_provider_fails h) workspaceID "LLM_PROVIDER" se.1 with
  | None => se
  | Some existing =>
      if negb (bool_decide (existing = "")) then se
      else if negb (conciergeModelIsPlatformManaged runtime (TrimSpace (get se.2 "MODEL"))) then se
      else (storeSecret (he_now h) (he_nonce_provider h) (he_write_provider_fails h) workspaceID "LLM_PROVIDER" conciergeProvider se.1,
            <["LLM_PROVIDER" := conciergeProvider]> se.2)
  end.

(** The pin of a workspace that was just created. *)
Definition ensureCreatedWorkspaceProviderPin (now : time) (nonce : option string) (fails : bool) (workspaceID runtime model : string)
    (secretKeys : list string) (s : secrets) : secrets :=
  let model := TrimSpace model in
  if decide (model = "") then s
  else match reg with
       | None => s
       | Some m => match DeriveProvider re_ok re_match m runtime model secretKeys with
                   | inl p => if IsPlatform p then storeSecret now nonce fails workspaceID "LLM_PROVIDER" PlatformProviderName s else s
                   | inr _ => s
                   end
       end.

(** [compose]: the files of a concierge, from its runtime, its name and the delivered ones. *)
Definition applyConciergeProvisionConfig (default_runtime : string) (compose : string -> string -> files -> files) (h : hook_env)
    (workspaceID name : string) (configFiles : option files) (se : secrets * env) : (secrets * env) * option files :=
  match he_row h with
  | None => (se, configFiles)
  | Some (kind, runtime) =>
      if negb (bool_decide (kind = "platform")) then (se, configFiles)
      else
        let runtime := if decide (TrimSpace runtime = "") then default_runtime else runtime in
        let se := ensureConciergeModel h workspaceID runtime se in
        let se := ensureConciergeProvider h workspaceID runtime se in
        ((se.1, conciergePlatformMCPEnv os workspaceID (he_credential h) se.2), Some (compose runtime name (default ∅ configFiles)))
  end.

(** ** The preparation *)

(** A mutator of a plugin: what it makes of the environment, and whether it fails. *)
Definition mutator : Type := string -> env -> env * bool.
Fixpoint run_mutators (ms : list mutator) (workspaceID : string) (m : env) : env * bool :=
  match ms with
  | [] => (m, true)
  | f :: rest => let '(m, ok) := f workspaceID m in if ok then run_mutators rest workspaceID m else (m, false)
  end.

Inductive provisionAbort :=
| DecryptAbort (msg : string)
| ForbiddenKeys (keys : list string) (source : string)
| MissingBYOKCredential
| MissingPlatformProxy
| MutatorFailed
| MissingModel
| MissingEnv (missing : list string)
| SeedMismatch (requested seeded : string).

Record payload := Payload { pl_name : string; pl_role : string; pl_runtime : string; pl_model : string; pl_parent : option string }.

(** What a preparation meets: the reads of the secrets, also of the platform agent's
    ([rootID]), the persona files, the plugins, the template on disk, the zone, the hook. *)
Record prep_env := PrepEnv {
  pp_global : read_fault; pp_own : read_fault; pp_root_global : read_fault; pp_root_own : read_fault; pp_root : string;
  pp_persona : string -> option string; pp_mutators : list mutator; pp_disk : option string; pp_timezone : string;
  pp_default_runtime : string; pp_compose : string -> string -> files -> files; pp_hook : hook_env
}.

Definition root_env (p : prep_env) (s : secrets) : env :=
  match loadWorkspaceSecrets open_ (pp_root_global p) (pp_root_own p) key (pp_root p) s with inl l => ld_env l | inr _ => ∅ end.

(** After the model is routed: the model, the role and the parent. *)
Definition identity_env (pl : payload) (substituted : string) (m : env) : env :=
  let m := applyRuntimeModelEnv (pl_runtime pl) (if decide (substituted = "") then pl_model pl else substituted) m in
  let m := if decide (pl_role pl = "") then m else <["MOLECULE_AGENT_ROLE" := pl_role pl]> m in
  match pl_parent pl with None | Some "" => m | Some parent => <["PARENT_ID" := parent]> m end.

Definition self_host_defaults (p : prep_env) (configFiles : option files) (m : env) : env :=
  if PlatformManagedProxyConfigured os then m
  else
    let src := match configFiles with Some fs => Some fs | None => (fun b => {[config_yaml := b]} : files) <$> pp_disk p end in
    match src with
    | None => m
    | Some fs => applySelfHostTenantDefaults (pp_timezone p) (missingRequiredEnv required_env fs m) m
    end.

(** The checks of the finished environment. *)
Definition final_checks (p : prep_env) (pl : payload) (configFiles : option files) (m : env) : provisionAbort + env :=
  match findPrivilegedTenantAdminEnvKeys m with
  | (_ :: _) as ks => inl (ForbiddenKeys ks "final_env")
  | [] =>
      if decide (TrimSpace (get m "MOLECULE_MODEL") = "" /\ TrimSpace (get m "MODEL") = "") then inl MissingModel
      else
        let m := self_host_defaults p configFiles m in
        match (match configFiles with None => [] | Some fs => missingRequiredEnv required_env fs m end) with
        | (_ :: _) as missing => inl (MissingEnv missing)
        | [] => match runtimeSeedMismatchAbort (pl_runtime pl) configFiles (pp_disk p) with
                | Some seeded => inl (SeedMismatch (pl_runtime pl) seeded)
                | None => inr m
                end
        end
  end.

Definition prepareProvisionContext (p : prep_env) (workspaceID : string) (pl : payload) (configFiles : option files) (s : secrets)
    : secrets * (provisionAbort + env * option files) :=
  match loadWorkspaceSecrets open_ (pp_global p) (pp_own p) key workspaceID s with
  | inr msg => (s, inl (DecryptAbort msg))
  | inl l =>
      match findForbiddenTenantEnvKeysFromGlobals (ld_env l) (ld_global l) with
      | (_ :: _) as ks => (s, inl (ForbiddenKeys ks "global_secrets"))
      | [] =>
          let m := applyAgentGitHTTPCreds (pp_persona p) (pl_role pl) (applyAgentGitIdentity (pl_name pl) (ld_env l)) in
          let '(m, res) := applyPlatformManagedLLMEnv re_ok re_match os reg (root_env p s) workspaceID (pl_runtime pl) (pl_model pl) (ld_global l) m in
          if negb (HasUsableLLMCred res) then (s, inl (if RoutedToPlatform res then MissingPlatformProxy else MissingBYOKCredential))
          else
            let '(m, ok) := run_mutators (pp_mutators p) workspaceID (identity_env pl (SubstitutedModel res) m) in
            if negb ok then (s, inl MutatorFailed)
            else
              let '((s, m), configFiles) := applyConciergeProvisionConfig (pp_default_runtime p) (pp_compose p) (pp_hook p) workspaceID (pl_name pl) configFiles (s, m) in
              match final_checks p pl configFiles m with
              | inl a => (s, inl a)
              | inr m => (s, inr (m, configFiles))
              end
      end
  end.
End Provision.

(** ** The environment of a container *)

Definition scmWriteTokenKeys : list string := ["GITEA_TOKEN"; "GITHUB_TOKEN"; "GH_TOKEN"; "GITLAB_TOKEN"; "GL_TOKEN"; "BITBUCKET_TOKEN"].
Definition isSCMWriteTokenKey (k : string) : bool := bool_decide (k ∈ scmWriteTokenKeys).
Definition privilegedWorkspaceEnvKeys : list string :=
  ["ADMIN_TOKEN"; "MOLECULE_ADMIN_TOKEN"; "CP_ADMIN_API_TOKEN"; "CP_ADMIN_TOKEN"; "CP_PROMOTE_PROD_API_TOKEN"].
Definition isPrivilegedWorkspaceEnvKey (k : string) : bool := bool_decide (k ∈ privilegedWorkspaceEnvKeys).

Record box := Box { bx_id : string; bx_platform_url : string; bx_tier : Z; bx_kind : string; bx_env : env }.

(** [isLoopbackHostURL]: whether a URL names the host itself. *)
Definition appendWorkspaceLangfuseEnv (os : string -> string) (isLoopbackHostURL : string -> bool) (m : env) : list (string * string) :=
  let pk := os "LANGFUSE_PUBLIC_KEY" in
  let sk := os "LANGFUSE_SECRET_KEY" in
  if decide (pk = "" \/ sk = "") then []
  else
    let usable := match m !! "LANGFUSE_HOST" with Some e => negb (bool_decide (TrimSpace e = "")) && negb (isLoopbackHostURL e) | None => false end in
    let host := TrimSpace (os "MOLECULE_WORKSPACE_LANGFUSE_HOST") in
    let keys := (if decide (TrimSpace (get m "LANGFUSE_PUBLIC_KEY") = "") then [("LANGFUSE_PUBLIC_KEY", pk)] else []) ++
                (if decide (TrimSpace (get m "LANGFUSE_SECRET_KEY") = "") then [("LANGFUSE_SECRET_KEY", sk)] else []) in
    if usable then keys else if decide (host = "") then [] else ("LANGFUSE_HOST", host) :: keys.

(** What a variable of the workspace becomes; the two GitHub names come later. *)
Definition carried (k : string) : bool :=
  negb (isPrivilegedWorkspaceEnvKey k) && negb (bool_decide (k ∈ ["GH_TOKEN"; "GITHUB_TOKEN"])) && negb (isSCMWriteTokenKey k).
Definition github_alias (m : env) (k : string) : list (string * string) :=
  if negb (bool_decide (get m k = "")) then [(k, get m k)]
  else if negb (bool_decide (get m "GH_PAT" = "")) then [(k, get m "GH_PAT")] else [].

(** The variables of a workspace in the order of the map. *)
Definition buildContainerEnv (os : string -> string) (isLoopbackHostURL : string -> bool) (b : box) : list (string * string) :=
  [("WORKSPACE_ID", bx_id b); ("WORKSPACE_CONFIG_PATH", "/configs"); ("PLATFORM_URL", bx_platform_url b); ("MOLECULE_URL", bx_platform_url b);
   ("TIER", pretty (bx_tier b)); ("PLUGINS_DIR", "/plugins"); ("PYTHONPATH", "/app")] ++
  filter (fun kv => carried kv.1 = true) (map_to_list (bx_env b)) ++
  github_alias (bx_env b) "GH_TOKEN" ++ github_alias (bx_env b) "GITHUB_TOKEN" ++
  (if decide (bx_kind b = "platform" /\ os "ADMIN_TOKEN" <> "") then [("ADMIN_TOKEN", os "ADMIN_TOKEN")] else []) ++
  appendWorkspaceLangfuseEnv os isLoopbackHostURL (bx_env b).

(** ** Mounts *)

Definition WorkspaceAccessNone : string := "none".
Definition WorkspaceAccessReadOnly : string := "read_only".
Definition WorkspaceAccessReadWrite : string := "read_write".
Definition buildWorkspaceMount (volume path access : string) : string :=
  if decide (path = "" \/ access = WorkspaceAccessNone) then volume +:+ ":/workspace"
  else if decide (access = WorkspaceAccessReadOnly) then path +:+ ":/workspace:ro" else path +:+ ":/workspace".
Definition ValidateWorkspaceAccess (access path : string) : bool :=
  if decide (access = "" \/ access = WorkspaceAccessNone) then true
  else if decide (access = WorkspaceAccessReadOnly \/ access = WorkspaceAccessReadWrite) then negb (bool_decide (path = ""))
  else false.

(** ** Lemmas *)

Lemma ValidateWorkspaceAccess_read_only volume path : ValidateWorkspaceAccess WorkspaceAccessReadOnly path = true ->
  buildWorkspaceMount volume path WorkspaceAccessReadOnly = path +:+ ":/workspace:ro".
Proof. cbn. intros Hp%negb_true_iff%bool_decide_eq_false. unfold buildWorkspaceMount. rewrite decide_False; [done|]. by intros [?|?]. Qed.

Lemma filter_nil {A} (P : A -> Prop) `{!forall x, Decision (P x)} (l : list A) : filter P l = [] -> forall x, x ∈ l -> ~ P x.
Proof. intros E x Hx HP. assert (Hin : x ∈ filter P l) by (by apply list_elem_of_filter). rewrite E in Hin. by apply elem_of_nil in Hin. Qed.

Lemma setIfEmpty_is_Some k v m k' : is_Some (m !! k') -> is_Some (setIfEmpty k v m !! k').
Proof. intros H. unfold setIfEmpty. case_decide; [done|]. apply lookup_insert_is_Some'. by right. Qed.

Lemma tenant_defaults_other timezone missing m k : has_prefix k "TENANT_" = false -> applySelfHostTenantDefaults timezone missing m !! k = m !! k.
Proof.
  intros Hk. unfold applySelfHostTenantDefaults. revert m. induction missing as [|n missing IH]; intros m; [done|]. cbn [foldl]. rewrite IH.
  unfold fill_tenant. destruct (has_prefix n "TENANT_") eqn:E; [|done]. rewrite lookup_insert_ne; [done|]. intros ->. congruence.
Qed.

Section Guarantees.
Context (re_ok : string -> bool) (re_match : string -> string -> bool) (os : string -> string) (reg : option Manifest).
Context (seal : string -> string -> string -> string) (open_ : string -> string -> string -> option string) (key : string).
Context (required_env : string -> option (list string)).
#[local] Abbreviation prepare := (prepareProvisionContext re_ok re_match os reg seal open_ key required_env).

Lemma self_host_defaults_other p fs m k : has_prefix k "TENANT_" = false -> self_host_defaults os required_env p fs m !! k = m !! k.
Proof.
  intros Hk. unfold self_host_defaults. destruct (PlatformManagedProxyConfigured os); [done|]. destruct fs as [f|]; [by apply tenant_defaults_other|].
  destruct (pp_disk p); cbn; [by apply tenant_defaults_other|done].
Qed.

Lemma missing_none fs m raw names n : missingRequiredEnv required_env fs m = [] -> fs !! config_yaml = Some raw -> raw <> "" ->
  required_env raw = Some names -> n ∈ names -> get m n <> "".
Proof.
  intros E Hf Hr Hn Hin. unfold missingRequiredEnv in E. rewrite Hf in E. destruct raw; [done|]. rewrite Hn in E. by apply (filter_nil _ _ E).
Qed.

(** What a finished environment is. *)
Lemma final_checks_ok p pl fs m m' : final_checks os required_env p pl fs m = inr m' ->
  (forall k, k ∈ privilegedTenantAdminEnvKeys -> m' !! k = None) /\
  (TrimSpace (get m' "MOLECULE_MODEL") <> "" \/ TrimSpace (get m' "MODEL") <> "") /\
  (forall raw names n, default ∅ fs !! config_yaml = Some raw -> raw <> "" -> required_env raw = Some names -> n ∈ names -> get m' n <> "") /\
  runtimeSeedMismatchAbort (pl_runtime pl) fs (pp_disk p) = None.
Proof.
  unfold final_checks. destruct (findPrivilegedTenantAdminEnvKeys m) eqn:Ep; [|done]. destruct (decide _) as [|Hm]; [done|].
  set (m1 := self_host_defaults _ _ _ _ _). destruct (match fs with None => [] | Some _ => _ end) eqn:Emiss; [|done].
  destruct (runtimeSeedMismatchAbort _ _ _) eqn:Es; [done|]. intros [= <-].
  assert (Ho : forall k, has_prefix k "TENANT_" = false -> m1 !! k = m !! k) by (intros; by apply self_host_defaults_other).
  split_and!; [| | |done].
  - intros k Hk. rewrite Ho.
    + destruct (m !! k) eqn:E; [|done]. exfalso. apply (filter_nil _ _ Ep k Hk). by rewrite E.
    + repeat (apply elem_of_cons in Hk as [->|Hk]; [reflexivity|]). by apply elem_of_nil in Hk.
  - unfold get. rewrite !Ho by reflexivity. fold (get m "MOLECULE_MODEL"). fold (get m "MODEL").
    destruct (decide (TrimSpace (get m "MOLECULE_MODEL") = "")); [right|by left]. intros E. by destruct Hm.
  - intros raw names n Hf. destruct fs as [f|]; [|by cbn in Hf]. by eapply missing_none.
Qed.

(** What a container may be given: no name of an admin, and of the tokens that write to a
    repository only the two of GitHub, with a value the workspace has. *)
Definition admissible (m : env) (k v : string) : Prop :=
  (k ∉ privilegedWorkspaceEnvKeys) /\
  (k ∈ scmWriteTokenKeys -> k ∈ ["GH_TOKEN"; "GITHUB_TOKEN"] /\ v <> "" /\ (m !! k = Some v \/ m !! "GH_PAT" = Some v)).

Lemma plain_name_admissible l m k v : forallb (fun n => bool_decide (n ∉ privilegedWorkspaceEnvKeys) && bool_decide (n ∉ scmWriteTokenKeys)) l = true ->
  k ∈ l -> admissible m k v.
Proof. intros Hl Hk. rewrite forallb_forall in Hl. apply list_elem_of_In in Hk. apply Hl, andb_true_iff in Hk as [?%bool_decide_eq_true ?%bool_decide_eq_true]. done. Qed.

Lemma get_Some m n : get m n <> "" -> m !! n = Some (get m n).
Proof. unfold get. by destruct (m !! n). Qed.

Lemma github_alias_admissible m n k v : n ∈ ["GH_TOKEN"; "GITHUB_TOKEN"] -> n ∉ privilegedWorkspaceEnvKeys -> (k, v) ∈ github_alias m n -> admissible m k v.
Proof.
  intros Hn Hp. unfold github_alias. destruct (bool_decide (get m n = "")) eqn:E1; cbn [negb].
  - destruct (bool_decide (get m "GH_PAT" = "")) eqn:E2; cbn [negb]; [by intros ?%elem_of_nil|]. intros [= -> ->]%list_elem_of_singleton.
    apply bool_decide_eq_false in E2. apply get_Some in E2 as E3. split; [done|]. auto.
  - intros [= -> ->]%list_elem_of_singleton. apply bool_decide_eq_false in E1. apply get_Some in E1 as E3. split; [done|]. auto.
Qed.

Lemma langfuse_names loopback m : forallb (fun kv => bool_decide (kv.1 ∈ ["LANGFUSE_HOST"; "LANGFUSE_PUBLIC_KEY"; "LANGFUSE_SECRET_KEY"]))
  (appendWorkspaceLangfuseEnv os loopback m) = true.
Proof.
  unfold appendWorkspaceLangfuseEnv. destruct (decide _); [done|]. cbv zeta.
  destruct (match m !! "LANGFUSE_HOST" with Some _ => _ | None => _ end); [|destruct (decide (TrimSpace (os _) = "")); [done|]];
    destruct (decide (TrimSpace (get m "LANGFUSE_PUBLIC_KEY") = "")), (decide (TrimSpace (get m "LANGFUSE_SECRET_KEY") = "")); reflexivity.
Qed.

Lemma container_env_admissible loopback b k v : (k, v) ∈ buildContainerEnv os loopback b ->
  admissible (bx_env b) k v \/ (bx_kind b = "platform" /\ k = "ADMIN_TOKEN" /\ v = os "ADMIN_TOKEN").
Proof.
  intros Hin. unfold buildContainerEnv in Hin. rewrite !elem_of_app in Hin. destruct Hin as [Hin|[Hin|[Hin|[Hin|[Hin|Hin]]]]].
  - left. apply (plain_name_admissible ["WORKSPACE_ID"; "WORKSPACE_CONFIG_PATH"; "PLATFORM_URL"; "MOLECULE_URL"; "TIER"; "PLUGINS_DIR"; "PYTHONPATH"]); [vm_compute; reflexivity|].
    apply (list_elem_of_fmap_2 fst) in Hin. exact Hin.
  - left. apply list_elem_of_filter in Hin as [Hc _]. cbn in Hc. unfold carried, isPrivilegedWorkspaceEnvKey, isSCMWriteTokenKey in Hc.
    apply andb_true_iff in Hc as [Hc Hs]. apply andb_true_iff in Hc as [Hp _].
    apply negb_true_iff, bool_decide_eq_false in Hp, Hs. done.
  - left. apply (github_alias_admissible _ "GH_TOKEN"); [left|by apply (bool_decide_unpack _); vm_compute|done].
  - left. apply (github_alias_admissible _ "GITHUB_TOKEN"); [right; left|by apply (bool_decide_unpack _); vm_compute|done].
  - destruct (decide _) as [[Hk _]|] in Hin; [|by apply elem_of_nil in Hin]. apply list_elem_of_singleton in Hin as [= -> ->]. by right.
  - left. pose proof (langfuse_names loopback (bx_env b)) as Hl. rewrite forallb_forall in Hl. apply list_elem_of_In, Hl, bool_decide_eq_true in Hin.
    eapply plain_name_admissible; [|exact Hin]. vm_compute. reflexivity.
Qed.

Lemma loaded_global_present fg fw ws s l k : loadWorkspaceSecrets open_ fg fw key ws s = inl l -> k ∈ ld_global l -> is_Some (ld_env l !! k).
Proof.
  intros Hl Hk. destruct (load_merges _ _ _ _ _ _ _ Hl) as ((m & -> & Hm) & _ & Hg & _). apply Hg in Hk as [Ho [v Hv]].
  assert (Hmk : m !! k = Some v) by (by rewrite Hm, Ho). rewrite applyProviderBaseURLDefaults_lookup. unfold url_default.
  destruct (list_find _ _) as [[i kv]|]; [|by rewrite Hmk]. case_decide; [done|by rewrite Hmk].
Qed.

(** *** The concierge's secrets *)





Section Sealed.
Context (Hopen : forall k n p, String.length k = key_size -> String.length n = nonce_size -> open_ k n (seal k n p) = Some p).






End Sealed.

(** C32: What is started is sound.  A workspace that passes the preparation was given by the
    organisation none of the forbidden names ([isForbiddenTenantEnvKey]; values under other
    names are not looked at), has a usable credential for its model and a model, every
    variable its config asks for, and a config for the runtime it asked for; its environment
    holds none of the names of an admin; and so does its container, but for the ADMIN_TOKEN
    of the server that a concierge is given, and no token that writes to a repository but
    GitHub's, from a value the workspace has. *)
Theorem prepared_box_is_sound p ws pl fs s s' m fs' (Hprep : prepare p ws pl fs s = (s', inr (m, fs'))) :
  (exists l, loadWorkspaceSecrets open_ (pp_global p) (pp_own p) key ws s = inl l /\ (forall k, k ∈ ld_global l -> isForbiddenTenantEnvKey k = false) /\
     HasUsableLLMCred (applyPlatformManagedLLMEnv re_ok re_match os reg (root_env open_ key p s) ws (pl_runtime pl) (pl_model pl) (ld_global l)
       (applyAgentGitHTTPCreds (pp_persona p) (pl_role pl) (applyAgentGitIdentity (pl_name pl) (ld_env l)))).2 = true) /\
  (TrimSpace (get m "MOLECULE_MODEL") <> "" \/ TrimSpace (get m "MODEL") <> "") /\
  (forall raw names n, default ∅ fs' !! config_yaml = Some raw -> raw <> "" -> required_env raw = Some names -> n ∈ names -> get m n <> "") /\
  (pl_runtime pl = "" \/ seededConfigRuntime fs' (pp_disk p) = "" \/ seededConfigRuntime fs' (pp_disk p) = pl_runtime pl) /\
  (forall k, k ∈ privilegedTenantAdminEnvKeys -> m !! k = None) /\
  (forall loopback b k v, bx_env b = m -> (k, v) ∈ buildContainerEnv os loopback b ->
     admissible m k v \/ (bx_kind b = "platform" /\ k = "ADMIN_TOKEN" /\ v = os "ADMIN_TOKEN")).
Proof.
  unfold prepareProvisionContext in Hprep. destruct (loadWorkspaceSecrets _ _ _ _ _ _) as [l|] eqn:El; [|done].
  destruct (findForbiddenTenantEnvKeysFromGlobals _ _) eqn:Eforb; [|done]. destruct (applyPlatformManagedLLMEnv _ _ _ _ _ _ _ _ _ _) as [m0 res] eqn:Ellm.
  destruct (negb (HasUsableLLMCred res)) eqn:Ecred; [done|]. apply negb_false_iff in Ecred. destruct (run_mutators _ _ _) as [m1 ok]. destruct (negb ok); [done|].
  destruct (applyConciergeProvisionConfig _ _ _ _ _ _ _ _ _ _ _ _ _ _) as [[s2 m2] fs2].
  destruct (final_checks _ _ _ _ _ _) as [|m3] eqn:Ef; [done|]. injection Hprep as _ -> ->. apply final_checks_ok in Ef as (Hp & Hm & Hr & Hs). split_and!.
  - exists l. split; [done|]. split; [|by rewrite Ellm]. intros k Hk. destruct (isForbiddenTenantEnvKey k) eqn:E; [|done]. exfalso.
    apply (filter_nil _ _ Eforb k); [by apply elem_of_elements|]. split; [by eapply loaded_global_present|done].
  - done.
  - done.
  - unfold runtimeSeedMismatchAbort in Hs. destruct (decide (pl_runtime pl = "")); [by left|right]. by destruct (decide _).
  - done.
  - intros loopback b k v <- Hin. by eapply container_env_admissible.
Qed.
End Guarantees.

Module ProvisionDemo.
Import SecretDemo ModelDemo.
Definition required (doc : string) : option (list string) := if decide (doc = "needs") then Some ["SITE"] else Some [].
Definition saas (k : string) : string := if decide (k = "MOLECULE_LLM_BASE_URL") then "https://proxy" else if decide (k = "MOLECULE_LLM_USAGE_TOKEN") then "usage" else "".
Definition selfhost (k : string) : string := "".
Definition no_hook : hook_env := HookEnv None 0 false false false false (Some "123456789012") (Some "123456789012") None "".
Definition hook : hook_env := HookEnv (Some ("platform", "claude-code")) 0 false false false false (Some "123456789012") (Some "123456789012") None "cred".
Definition prep (h : hook_env) : prep_env :=
  PrepEnv no_fault no_fault no_fault no_fault "root" (fun _ => None) [] None "UTC" "claude-code" (fun _ _ fs => fs) h.
Definition run (os : string -> string) (h : hook_env) (pl : payload) (s : secrets) :=
  prepareProvisionContext re_ok re_match os (Some registry) seal open_ "" required (prep h) "w" pl None s.
Definition worker : payload := Payload "Ada" "" "claude-code" "minimax/M2" None.
Definition env_of {A} (r : provisionAbort + env * A) : env := match r with inr (m, _) => m | inl _ => ∅ end.

Definition worker_env : env := env_of (run saas no_hook worker (Secrets ∅ ∅)).2.
Lemma worker_starts : run saas no_hook worker (Secrets ∅ ∅) = ((run saas no_hook worker (Secrets ∅ ∅)).1, inr (worker_env, None)).
Proof. vm_cast_no_check (eq_refl (run saas no_hook worker (Secrets ∅ ∅))). Qed.

Lemma prepared_box_is_sound_witness : exists m fs, (run saas no_hook worker (Secrets ∅ ∅)).2 = inr (m, fs) /\
  forall k v, (k, v) ∈ buildContainerEnv saas (fun _ => false) (Box "w" "http://platform" 2 "workspace" m) -> admissible m k v.
Proof.
  exists worker_env, None. split; [rewrite worker_starts; reflexivity|]. intros k v Hin.
  destruct (prepared_box_is_sound re_ok re_match saas (Some registry) seal open_ "" required (prep no_hook) "w" worker None (Secrets ∅ ∅) _ worker_env None worker_starts) as (_ & _ & _ & _ & _ & H).
  destruct (H (fun _ => false) (Box "w" "http://platform" 2 "workspace" worker_env) k v eq_refl Hin) as [Ha|[Hk _]]; [exact Ha|discriminate].
Defined.

Definition concierge : payload := Payload "Concierge" "" "claude-code" "" None.

(** A customer who picks a model of the platform that is not the default loses it: the
    code takes it for an older default. *)
Definition two_models : Manifest :=
  MkManifest [platform] {["claude-code" := NativeSet "Claude Code" [Ref "platform" ["minimax/M2"; "minimax/M3"]]]}.
Definition defaults_to_m3 (k : string) : string := if decide (k = "MOLECULE_LLM_DEFAULT_MODEL") then "minimax/M3" else saas k.
Example platform_pick_is_replaced :
  sr_value <$> (ws_secrets (prepareProvisionContext re_ok re_match defaults_to_m3 (Some two_models) seal open_ "" required (prep hook) "w" concierge None
    (Secrets {[("w", "MODEL") := row "minimax/M2"]} ∅)).1 !! ("w", "MODEL")) = Some "minimax/M3".
Proof. vm_compute. reflexivity. Qed.

(** The pin of the concierge's provider is in the environment of the provision that stores
    it, and in none after: what is stored stops the hook, and the load drops the name. *)
Definition first_boot := run saas hook concierge (Secrets {[("w", "MODEL") := row "minimax/M2"]} ∅).
Example provider_pin_lasts_one_provision :
  env_of first_boot.2 !! "LLM_PROVIDER" = Some "platform" /\
  sr_value <$> (ws_secrets first_boot.1 !! ("w", "LLM_PROVIDER")) = Some "platform" /\
  let again := run saas hook concierge first_boot.1 in
  env_of again.2 !! "MODEL" = Some "minimax/M2" /\ env_of again.2 !! "LLM_PROVIDER" = None.
Proof. vm_compute. auto. Qed.

(** A concierge without a model is not started on a server without a proxy: the check of its
    credentials comes before the model the server would resolve for it is seeded. *)
Example self_host_concierge_is_not_seeded :
  defaultResolveConciergeModel selfhost None = Some platformDefaultModelFallback /\
  (run selfhost hook concierge (Secrets ∅ ∅)).2 = inl MissingBYOKCredential.
Proof. vm_compute. auto. Qed.

(** A GH_PAT of the organisation passes the check of the operator's names and is handed to
    every container under the two names that are on it. *)
Example organisation_pat_reaches_every_box :
  let m := env_of (run saas no_hook worker (Secrets ∅ {["GH_PAT" := row "pat"]})).2 in
  let b := buildContainerEnv saas (fun _ => false) (Box "w" "http://platform" 2 "workspace" m) in
  isForbiddenTenantEnvKey "GITHUB_TOKEN" = true /\ ("GITHUB_TOKEN", "pat") ∈ b /\ ("GH_TOKEN", "pat") ∈ b.
Proof. cbv zeta. split; [reflexivity|]. split; (apply (bool_decide_unpack _); vm_compute; exact I). Qed.

(** A token for Gitea that a workspace was given as its own is stripped. *)
Example own_gitea_token_is_stripped :
  let m := env_of (run saas no_hook worker (Secrets {[("w", "GITEA_TOKEN") := row "t"]} ∅)).2 in
  m !! "GITEA_TOKEN" = Some "t" /\
  "GITEA_TOKEN" ∉ (buildContainerEnv saas (fun _ => false) (Box "w" "http://platform" 2 "workspace" m)).*1.
Proof. cbv zeta. split; [vm_compute; reflexivity|]. apply (bool_decide_unpack _). vm_compute. exact I. Qed.

Example tests_of_the_parts :
  slugifyForEmail "Frontend  Engineer!" = "frontend-engineer" /\ parseTopLevelRuntime ("name: x" +:+ String newline ("runtime: hermes" +:+ String newline "")) = "hermes" /\
  systemTimezoneName "" "Local" (-16200) = "UTC-04:30" /\ findForbiddenTenantEnvKeys {["MOLECULE_OPERATOR_HOST" := "h"]} = ["MOLECULE_OPERATOR_HOST"].
Proof. vm_compute. auto. Qed.
End ProvisionDemo.
