(* ===== verification/JsonText.v ===== *)
(** * What Go prints

    The parts of the Go library whose output the code signs or stores: strings as
    json.Marshal writes them (HTML characters escaped, as it does by default),
    hex.EncodeToString, and Time.Format with the layout 2006-01-02T15:04:05Z.  A document
    that begins with a printed string determines it: json_string_inj. *)

From S2P Require Import Prelude Truncate.

Definition ascii (n : Z) : Ascii.ascii := Ascii.ascii_of_N (Z.to_N n).
Definition hex_digit (n : Z) : Ascii.ascii := if n <? 10 then ascii (48 + n) else ascii (87 + n).

(** ** encoding/hex *)

Definition hex_byte (b : Ascii.ascii) : string :=
  String (hex_digit (byte_val b / 16)) (String (hex_digit (byte_val b mod 16)) "").
Fixpoint hex_encode (s : string) : string :=
  match s with "" => "" | String b rest => hex_byte b +:+ hex_encode rest end.

(** ** encoding/json *)

Definition backslash : Ascii.ascii := ascii 92.
Definition quote : Ascii.ascii := ascii 34.
Definition quote_s : string := String quote "".

(** [htmlSafeSet], below [utf8.RuneSelf]. *)
Definition html_safe (b : Ascii.ascii) : bool :=
  let v := byte_val b in
  (0x20 <=? v) && (v <? 0x80) && negb (existsb (Z.eqb v) [34; 92; 60; 62; 38]).
Definition short_escape (v : Z) : option Ascii.ascii :=
  if v =? 34 then Some quote else if v =? 92 then Some backslash
  else if v =? 8 then Some (ascii 98) else if v =? 12 then Some (ascii 102)
  else if v =? 10 then Some (ascii 110) else if v =? 13 then Some (ascii 114)
  else if v =? 9 then Some (ascii 116) else None.
Definition escape_byte (b : Ascii.ascii) : string :=
  if html_safe b then String b ""
  else match short_escape (byte_val b) with
       | Some c => String backslash (String c "")
       | None => String backslash ("u00" +:+ hex_byte b)
       end.

Definition line_sep : string := String (ascii 0xE2) (String (ascii 0x80) (String (ascii 0xA8) "")).
Definition par_sep : string := String (ascii 0xE2) (String (ascii 0x80) (String (ascii 0xA9) "")).

(** What one rune becomes; a byte that starts none becomes the replacement character. *)
Definition escape_rune (r : string) : string :=
  if negb (is_rune r) then String backslash "ufffd"
  else match r with
       | String b "" => escape_byte b
       | _ => if decide (r = line_sep) then String backslash "u2028"
              else if decide (r = par_sep) then String backslash "u2029" else r
       end.

(** [fuel]: the bytes left, since a step consumes one or more. *)
Fixpoint escape_loop (fuel : nat) (s : string) : string :=
  match fuel, s with
  | O, _ | _, "" => ""
  | S fuel', _ => let w := rune_width s in escape_rune (str_take w s) +:+ escape_loop fuel' (str_drop w s)
  end.
Definition json_escape (s : string) : string := escape_loop (String.length s) s.
Definition json_string (s : string) : string := quote_s +:+ (json_escape s +:+ quote_s).
Definition json_bool (b : bool) : string := if b then "true" else "false".
(** A nil pointer is [null]. *)
Definition json_nullable (o : option string) : string := match o with Some s => json_string s | None => "null" end.

(** ** Time.Format *)

Definition digit (n : Z) : Ascii.ascii := ascii (48 + n mod 10).
(** At least [w] digits. *)
Fixpoint digits (fuel w : nat) (n : Z) : string :=
  match fuel with
  | O => ""
  | S f => match w with
           | O => if n =? 0 then "" else digits f 0 (n / 10) +:+ String (digit n) ""
           | S w' => digits f w' (n / 10) +:+ String (digit n) ""
           end
  end.
Definition pad (w : nat) (n : Z) : string := digits (S w + Z.to_nat (Z.log2 n)) w n.

(** The Gregorian date of a day since 1970-01-01. *)
Definition civil (days : Z) : Z * Z * Z :=
  let z := days + 719468 in
  let era := z / 146097 in
  let doe := z - era * 146097 in
  let yoe := (doe - doe / 1460 + doe / 36524 - doe / 146096) / 365 in
  let doy := doe - (365 * yoe + yoe / 4 - yoe / 100) in
  let mp := (5 * doy + 2) / 153 in
  let m := if mp <? 10 then mp + 3 else mp - 9 in
  (yoe + era * 400 + (if m <=? 2 then 1 else 0), m, doy - (153 * mp + 2) / 5 + 1).

Definition format_year (y : Z) : string := if y <? 0 then "-" +:+ pad 4 (- y) else pad 4 y.
(** [t.UTC().Format("2006-01-02T15:04:05Z")]: whole seconds. *)
Definition format_seconds (t : time) : string :=
  let secs := t / Second in
  let '(y, m, d) := civil (secs / 86400) in
  let r := secs mod 86400 in
  format_year y +:+ ("-" +:+ (pad 2 m +:+ ("-" +:+ (pad 2 d +:+ ("T" +:+ (pad 2 (r / 3600) +:+ (":" +:+
    (pad 2 (r / 60 mod 60) +:+ (":" +:+ (pad 2 (r mod 60) +:+ "Z")))))))))).

(** ** Strings can be read back *)

Lemma common_prefix (a b x y : string) : (a +:+ x) = (b +:+ y) -> has_prefix b a = true \/ has_prefix a b = true.
Proof.
  revert b. induction a as [|c a IH]; intros [|d b]; rewrite ?str_app_nil, ?str_app_cons; [auto..|].
  intros [= -> E]. cbn. rewrite !decide_True by done. exact (IH b E).
Qed.

Lemma escape_loop_rune fuel r s :
  is_rune r = true -> (String.length (r +:+ s) <= fuel)%nat ->
  escape_loop fuel (r +:+ s) = (escape_rune r +:+ escape_loop (fuel - 1) s).
Proof.
  intros Hr Hf. pose proof (rune_nonempty _ Hr). rewrite str_length_app in Hf. destruct fuel as [|fuel]; [lia|].
  destruct r as [|b t] eqn:Er; [by cbn in Hr|]. rewrite str_app_cons. cbn [escape_loop]. rewrite <- str_app_cons, rune_width_rune by done.
  rewrite str_take_app_le, str_take_all, str_drop_app by done. by replace (S fuel - 1)%nat with fuel by lia.
Qed.

Lemma escape_loop_fuel n s f1 f2 :
  Runes n s -> (String.length s <= f1)%nat -> (String.length s <= f2)%nat -> escape_loop f1 s = escape_loop f2 s.
Proof.
  intros Hr. revert f1 f2. induction Hr as [|n r s Hr Hs IH]; intros f1 f2 H1 H2; [by destruct f1, f2|].
  rewrite !escape_loop_rune by done. rewrite str_length_app in H1, H2. pose proof (rune_nonempty _ Hr). f_equal. apply IH; lia.
Qed.

Lemma json_escape_rune r n s : is_rune r = true -> Runes n s -> json_escape (r +:+ s) = (escape_rune r +:+ json_escape s).
Proof.
  intros Hr Hs. unfold json_escape. rewrite escape_loop_rune by done. f_equal.
  pose proof (rune_nonempty _ Hr). apply (escape_loop_fuel n); [done| |done]. rewrite str_length_app. lia.
Qed.

(** The runes that are not printed as they are, with the other ASCII ones. *)
Definition special_runes : list string :=
  map (fun n => String (Ascii.ascii_of_nat n) "") (seq 0 128) ++ [line_sep; par_sep].
Definition separated (r1 r2 : string) : bool :=
  bool_decide (r1 = r2) || negb (has_prefix (escape_rune r1) (escape_rune r2)).
Definition first_low (s : string) : bool := match s with String b _ => negb (byte_val b =? 34) && (byte_val b <? 0x80) | "" => false end.
Lemma specials_separated : forallb (fun r1 => forallb (separated r1) special_runes) special_runes = true.
Proof. vm_compute. reflexivity. Qed.
Lemma specials_low : forallb (fun r => first_low (escape_rune r)) special_runes = true.
Proof. vm_compute. reflexivity. Qed.

Definition first_high (s : string) : Prop := match s with String b _ => 0x80 <= byte_val b | "" => False end.

(** A rune is special, or printed as it is with a first byte above ASCII. *)
Lemma rune_cases r : is_rune r = true -> r ∈ special_runes \/ escape_rune r = r /\ first_high r.
Proof.
  intros Hr. unfold escape_rune. rewrite Hr. cbn [negb]. destruct r as [|b [|b' t]]; [done| |].
  - left. apply elem_of_app. left. apply list_elem_of_In, in_map_iff. exists (Ascii.nat_of_ascii b). rewrite Ascii.ascii_nat_embedding. split; [done|].
    cbn in Hr. unfold in_range, byte_val in Hr. b2p. apply in_seq. unfold Ascii.nat_of_ascii. lia.
  - destruct (decide _) as [->|]; [left; by repeat constructor|]. destruct (decide _) as [->|]; [left; apply elem_of_app; right; by repeat constructor|].
    right. split; [done|]. cbn. destruct t as [|? [|? [|]]]; cbn in Hr; unfold in_range in Hr;
    repeat match goal with
    | H : _ && _ = true |- _ => apply andb_true_iff in H as [? ?]
    | H : _ || _ = true |- _ => apply orb_true_iff in H as [?|?]
    end; b2p; try lia; done.
Qed.

Lemma special_low r : r ∈ special_runes -> first_low (escape_rune r) = true.
Proof. intros H. apply (proj1 (forallb_forall _ _) specials_low r). by apply list_elem_of_In. Qed.

Lemma low_high (a x b y : string) : first_low a = true -> first_high b -> (a +:+ x) = (b +:+ y) -> False.
Proof.
  destruct a as [|c a], b as [|d b]; cbn; try done. rewrite !str_app_cons. intros H1 H2 [= <- _]. apply andb_true_iff in H1 as [_ H1]. apply Z.ltb_lt in H1. lia.
Qed.

Lemma escape_rune_prefix_free r r' x y :
  is_rune r = true -> is_rune r' = true -> (escape_rune r +:+ x) = (escape_rune r' +:+ y) -> r = r' /\ x = y.
Proof.
  intros Hr Hr' E. destruct (rune_cases _ Hr) as [Hs|[Hs Hh]], (rune_cases _ Hr') as [Hs'|[Hs' Hh']].
  - assert (Hsep : forall a b, a ∈ special_runes -> b ∈ special_runes -> separated a b = true).
    { intros a b Ha%list_elem_of_In Hb%list_elem_of_In. exact (proj1 (forallb_forall _ _) (proj1 (forallb_forall _ _) specials_separated a Ha) b Hb). }
    assert (r = r') as <-.
    { pose proof (Hsep _ _ Hs Hs') as H1. pose proof (Hsep _ _ Hs' Hs) as H2. unfold separated in *.
      destruct (bool_decide (r = r')) eqn:Er; [by apply bool_decide_eq_true in Er|]. rewrite (bool_decide_ext (r' = r) (r = r')) in H2 by done. rewrite Er in H2. cbn in H1, H2.
      destruct (common_prefix _ _ _ _ E) as [Hp|Hp]; rewrite Hp in *; done. }
    split; [done|]. by apply str_app_inj_l in E.
  - rewrite Hs' in E. exfalso. eapply low_high; [by apply special_low|exact Hh'|exact E].
  - rewrite Hs in E. exfalso. eapply low_high; [by apply special_low|exact Hh|symmetry; exact E].
  - rewrite Hs, Hs' in E. by eapply rune_prefix_free.
Qed.

Lemma escape_rune_no_quote r x y : is_rune r = true -> (escape_rune r +:+ x) = (quote_s +:+ y) -> False.
Proof.
  intros Hr E. destruct (rune_cases _ Hr) as [Hs%special_low|[Hs Hh]].
  - destruct (escape_rune r) as [|c t]; [done|]. unfold quote_s in E. rewrite !str_app_cons in E. injection E as -> _. done.
  - rewrite Hs in E. destruct r; [done|]. unfold quote_s in E. rewrite !str_app_cons in E. injection E as -> _. by cbn in Hh.
Qed.

Lemma json_escape_inj n n' s s' x y : Runes n s -> Runes n' s' ->
  (json_escape s +:+ (quote_s +:+ x)) = (json_escape s' +:+ (quote_s +:+ y)) -> s = s' /\ x = y.
Proof.
  intros Hs. revert n' s'. induction Hs as [|n r s Hr Hs IH]; intros n' s' Hs' E; destruct Hs' as [|n' r' s' Hr' Hs'].
  - change (json_escape "") with "" in E. rewrite !str_app_nil in E. split; [done|]. by apply str_app_inj_l in E.
  - erewrite json_escape_rune in E by done. rewrite <- str_app_assoc in E. exfalso. eapply (escape_rune_no_quote r'); [done|]. symmetry. exact E.
  - erewrite json_escape_rune in E by done. rewrite <- str_app_assoc in E. exfalso. eapply (escape_rune_no_quote r); [done|]. exact E.
  - erewrite (json_escape_rune r), (json_escape_rune r') in E by done. rewrite <- !str_app_assoc in E.
    apply escape_rune_prefix_free in E as [-> E]; [|done..]. by destruct (IH _ _ Hs' E) as [-> ->].
Qed.

Lemma json_string_inj s s' x y : Utf8 s -> Utf8 s' -> (json_string s +:+ x) = (json_string s' +:+ y) -> s = s' /\ x = y.
Proof.
  intros [n Hs] [n' Hs'] E. unfold json_string in E. rewrite <- !str_app_assoc in E. apply str_app_inj_l in E. by eapply json_escape_inj.
Qed.

Definition opt_utf8 (o : option string) : Prop := match o with Some s => Utf8 s | None => True end.

Lemma json_nullable_inj o o' x y : opt_utf8 o -> opt_utf8 o' -> (json_nullable o +:+ x) = (json_nullable o' +:+ y) -> o = o' /\ x = y.
Proof.
  destruct o as [s|], o' as [s'|]; cbn [opt_utf8 json_nullable]; intros Hs Hs' E.
  - by apply json_string_inj in E as [-> ->].
  - by unfold json_string, quote_s in E.
  - by unfold json_string, quote_s in E.
  - split; [done|]. by apply str_app_inj_l in E.
Qed.

Lemma json_bool_inj b b' x y : (json_bool b +:+ x) = (json_bool b' +:+ y) -> b = b' /\ x = y.
Proof. destruct b, b'; cbn [json_bool]; intros E; try done; split; try done; by apply str_app_inj_l in E. Qed.

(** ** What is printed is valid UTF-8 *)

Fixpoint all_ascii (s : string) : bool := match s with "" => true | String b t => (byte_val b <? 0x80) && all_ascii t end.

Lemma all_ascii_app s t : all_ascii (s +:+ t) = all_ascii s && all_ascii t.
Proof. induction s as [|a s IH]; rewrite ?str_app_nil, ?str_app_cons; cbn; [done|]. by rewrite IH, andb_assoc. Qed.

Lemma all_ascii_utf8 s : all_ascii s = true -> Utf8 s.
Proof.
  induction s as [|b s IH]; cbn; intros H; [by exists O; constructor|]. apply andb_true_iff in H as [Hb Hs]. apply Z.ltb_lt in Hb.
  destruct (IH Hs) as [n Hn]. exists (S n). change (Runes (S n) (String b "" +:+ s)). constructor; [|done]. cbn. unfold in_range.
  apply andb_true_iff. split; apply Z.leb_le; [unfold byte_val|]; lia.
Qed.

Lemma ascii_small n : 0 <= n < 0x80 -> (byte_val (ascii n) <? 0x80) = true.
Proof. intros Hn. apply Z.ltb_lt. unfold byte_val, ascii. rewrite Ascii.N_ascii_embedding by lia. lia. Qed.

Lemma digits_ascii fuel w n : all_ascii (digits fuel w n) = true.
Proof.
  revert w n. induction fuel as [|f IH]; intros w n; cbn [digits]; [done|].
  assert (Hd : all_ascii (String (digit n) "") = true).
  { cbn [all_ascii]. rewrite andb_true_r. apply ascii_small. pose proof (Z.mod_pos_bound n 10). lia. }
  destruct w; [destruct (n =? 0); [done|]|]; by rewrite all_ascii_app, IH.
Qed.

Lemma format_seconds_utf8 t : Utf8 (format_seconds t).
Proof.
  apply all_ascii_utf8. unfold format_seconds, pad. destruct (civil _) as [[y m] d]. unfold format_year, pad.
  rewrite !all_ascii_app, !digits_ascii. destruct (y <? 0); by rewrite ?all_ascii_app, digits_ascii.
Qed.

(** ** Hexadecimal text can be read back *)

Lemma hex_byte_inj a b : hex_byte a = hex_byte b -> a = b.
Proof.
  assert (H : forallb (fun x => forallb (fun y => bool_decide (x = y) || negb (bool_decide (hex_byte (Ascii.ascii_of_nat x) = hex_byte (Ascii.ascii_of_nat y)))) (seq 0 256)) (seq 0 256) = true)
    by (vm_compute; reflexivity).
  intros E. assert (Hn : forall c, In (Ascii.nat_of_ascii c) (seq 0 256)).
  { intros c. apply in_seq. pose proof (Ascii.nat_ascii_bounded c). lia. }
  pose proof (proj1 (forallb_forall _ _) (proj1 (forallb_forall _ _) H _ (Hn a)) _ (Hn b)) as Hab.
  cbn beta in Hab. rewrite !Ascii.ascii_nat_embedding, E in Hab. rewrite (bool_decide_true (hex_byte b = hex_byte b)), orb_false_r in Hab by done.
  apply bool_decide_eq_true in Hab. by rewrite <- (Ascii.ascii_nat_embedding a), Hab, Ascii.ascii_nat_embedding.
Qed.

Lemma hex_encode_inj s t : hex_encode s = hex_encode t -> s = t.
Proof.
  revert t. induction s as [|a s IH]; intros [|b t]; cbn [hex_encode]; try done.
  unfold hex_byte at 1 2. rewrite !str_app_cons, !str_app_nil. intros [= H1 H2 H3]. f_equal; [|by apply IH].
  apply hex_byte_inj. unfold hex_byte. congruence.
Qed.

Example format_examples :
  format_seconds 1785369600123456789 = "2026-07-30T00:00:00Z" /\ format_seconds (951827696 * Second) = "2000-02-29T12:34:56Z" /\
  format_seconds (-1) = "1969-12-31T23:59:59Z" /\ format_seconds (253402300800 * Second) = "10000-01-01T00:00:00Z" /\
  hex_encode ("a" +:+ newline) = "610a" /\ json_escape ("<é>" +:+ newline) = (String backslash "u003c") +:+ ("é" +:+ (String backslash "u003e" +:+ String backslash "n")).
Proof. vm_compute. auto 10. Qed.
