(* ===== verification/AuditLedger.v ===== *)
(** * The audit ledger

    internal/handlers/audit_write.go (the producer) and audit.go (the reader and its
    verification of the chains).  The key is what getAuditHMACKey has derived once and for
    all, [None] without AUDIT_LEDGER_SALT; HMAC-SHA256, SHA-256, PBKDF2, json.Marshal of the
    details, time.Parse and the instant Postgres keeps for one are arguments. *)

From S2P Require Import Prelude Truncate Tree OrgTokens AgentCard JsonText.

Record auditEventRow := AuditRow {
  ID : string; Timestamp : time; AgentID : string; SessionID : string; Operation : string;
  InputHash : option string; OutputHash : option string; ModelUsed : option string;
  HumanOversightFlag : bool; RiskFlag : bool; PrevHMAC : option string; HMAC : string;
  WorkspaceID : string; Details : option string
}.
#[global] Instance auditEventRow_eq_dec : EqDecision auditEventRow.
Proof. solve_decision. Defined.

Record AuditEntry := Entry {
  e_workspace : string; e_actor : string; e_session : string; e_operation : string;
  e_risk : bool; e_human : bool; e_details : gmap string json
}.

Definition unsignedHMACPrefix : string := "unsigned:".
Definition auditActorUnknown : string := "unknown".

(** ** Who did it *)

(** [ctx]: what the middleware has set, [None] for a nil context. *)
Definition set_nonempty (o : option string) : option string := match o with Some s => if decide (s = "") then None else Some s | None => None end.
Definition auditActor (ctx : option caller) : string :=
  match ctx with
  | None => auditActorUnknown
  | Some c =>
      match set_nonempty (snd <$> c_org_token c), set_nonempty (snd <$> c_session c), set_nonempty (fst <$> c_session c) with
      | Some prefix, _, _ => "org-token:" +:+ prefix
      | None, Some user, _ => "session:" +:+ user
      | None, None, Some actor => actor
      | None, None, None => if decide (c_class c = "") then auditActorUnknown else c_class c
      end
  end.
Definition auditIsHuman (ctx : option caller) : bool :=
  match ctx with None => false | Some c => bool_decide (is_Some (set_nonempty (fst <$> c_session c))) end.
(** [header]: the two headers in the order they are asked for. *)
Definition auditCorrelationID (ctx : option caller) (requestID correlationID : string) : string :=
  match ctx with
  | None => ""
  | Some _ => str_take 200 (if decide (requestID = "") then correlationID else requestID)
  end.
Definition auditEntryFromGin (ctx : option caller) (requestID correlationID clientIP workspaceID operation : string)
    (riskFlag : bool) (details : gmap string json) : AuditEntry :=
  let details := match ctx, details !! "client_ip" with
                 | Some _, None => if decide (clientIP = "") then details else <["client_ip" := JStr clientIP]> details
                 | _, _ => details
                 end in
  Entry workspaceID (auditActor ctx) (auditCorrelationID ctx requestID correlationID) operation riskFlag (auditIsHuman ctx) details.

Definition auditTokenPrefix (plaintext : string) : string :=
  if decide (String.length plaintext <= 8)%nat then "" else str_take 8 plaintext.
Definition auditDeleteAnchor (parentID targetID : string) : string := if decide (parentID = "") then targetID else parentID.

(** ** What is signed *)

(** json.Marshal of a map prints its members by key; they are given in that order. *)
Fixpoint print_members (l : list (string * string)) : string :=
  match l with
  | [] => "}"
  | (k, v) :: rest => json_string k +:+ (":" +:+ (v +:+ (match rest with [] => "" | _ => "," end +:+ print_members rest)))
  end.
Definition canonical_members (ev : auditEventRow) : list (string * string) :=
  [("agent_id", json_string (AgentID ev))] ++
  match Details ev with Some d => [("details", json_string d)] | None => [] end ++
  [("human_oversight_flag", json_bool (HumanOversightFlag ev)); ("id", json_string (ID ev));
   ("input_hash", json_nullable (InputHash ev)); ("model_used", json_nullable (ModelUsed ev));
   ("operation", json_string (Operation ev)); ("output_hash", json_nullable (OutputHash ev));
   ("prev_hmac", json_nullable (PrevHMAC ev)); ("risk_flag", json_bool (RiskFlag ev));
   ("session_id", json_string (SessionID ev)); ("timestamp", json_string (format_seconds (Timestamp ev)))].
Definition auditCanonicalPayload (ev : auditEventRow) : string := "{" +:+ print_members (canonical_members ev).

Definition auditIsUnsigned (storedHMAC : string) : bool := has_prefix storedHMAC unsignedHMACPrefix.
Definition auditAnyUnsigned (events : list auditEventRow) : bool := existsb (fun ev => auditIsUnsigned (HMAC ev)) events.

(** [ORDER BY timestamp ASC, id ASC]; [collate] orders the ids as the database does. *)
Section Order.
Context (collate : string -> string -> bool).
Definition row_leb (a b : auditEventRow) : bool :=
  (Timestamp a <? Timestamp b) || (Timestamp a =? Timestamp b) && collate (ID a) (ID b).
Fixpoint insert_row (x : auditEventRow) (l : list auditEventRow) : list auditEventRow :=
  match l with [] => [x] | y :: rest => if row_leb x y then x :: l else y :: insert_row x rest end.
Definition sort_rows (l : list auditEventRow) : list auditEventRow := foldr insert_row [] l.
End Order.

Definition getAuditHMACKey (pbkdf2 : string -> string) (salt : string) : option string :=
  if decide (salt = "") then None else Some (pbkdf2 salt).

Section Ledger.
Context `{UuidCast} (hmac : string -> string -> string) (sha256 : string -> string)
  (collate : string -> string -> bool) (pg_time : time -> time) (marshal : gmap string json -> option string) (parse_time : string -> option time).

Definition computeAuditHMAC (key : string) (ev : auditEventRow) : string :=
  let payload := auditCanonicalPayload ev in if decide (payload = "") then "" else hex_encode (hmac key payload).
Definition signAuditRow (key : option string) (ev : auditEventRow) : string :=
  match key with
  | None => unsignedHMACPrefix +:+ hex_encode (sha256 (auditCanonicalPayload ev))
  | Some k => computeAuditHMAC k ev
  end.

(** ** Appending *)

(** Where an append fails; a commit that errors may have landed. *)
Inductive audit_fault := NoFault | BeginFails | LockFails | TailFails | InsertFails | CommitFails (landed : bool).

Definition of_chain (ws agent : string) (tbl : list auditEventRow) : list auditEventRow :=
  filter (fun r => WorkspaceID r = ws /\ AgentID r = agent) tbl.
Definition chain_tail (ws agent : string) (tbl : list auditEventRow) : option auditEventRow := last (sort_rows collate (of_chain ws agent tbl)).

Definition Microsecond : Z := 1000.
Definition next_instant (now : time) (tail : option auditEventRow) : time :=
  match tail with Some p => if Timestamp p <? now then now else Timestamp p + Microsecond | None => now end.

Definition entry_row (key : option string) (now : time) (id ws : string) (tail : option auditEventRow) (e : AuditEntry) : auditEventRow :=
  let actor := if decide (e_actor e = "") then auditActorUnknown else e_actor e in
  let row := AuditRow id (next_instant now tail) actor (e_session e) (e_operation e) None None None (e_human e) (e_risk e)
               (HMAC <$> tail) "" (e_workspace e) (if decide (e_details e = ∅) then None else marshal (e_details e)) in
  let sealed := signAuditRow key row in
  AuditRow id (pg_time (Timestamp row)) actor (e_session e) (e_operation e) None None None (e_human e) (e_risk e)
    (PrevHMAC row) sealed ws (Details row).

(** [id]: uuid.NewString.  The row is in the table as Postgres keeps it. *)
Definition RecordAuditEvent (key : option string) (database : bool) (f : audit_fault) (now : time) (id : string) (e : AuditEntry)
    (tbl : list auditEventRow) : list auditEventRow :=
  if negb database || bool_decide (e_workspace e = "") then tbl
  else match f with
  | BeginFails | LockFails | TailFails | InsertFails | CommitFails false => tbl
  | NoFault | CommitFails true =>
      match canon (e_workspace e) with
      | None => tbl
      | Some ws =>
          let actor := if decide (e_actor e = "") then auditActorUnknown else e_actor e in
          if existsb (fun r => bool_decide (ID r = id)) tbl then tbl
          else tbl ++ [entry_row key now id ws (chain_tail ws actor tbl) e]
      end
  end.

(** The hard delete of workspaces takes their rows along. *)
Definition purge_events (ids : gset string) (tbl : list auditEventRow) : list auditEventRow := filter (fun r => WorkspaceID r ∉ ids) tbl.

(** ** Verifying *)

Definition prevMatches (state prev : option string) : bool :=
  match state, prev with None, None => true | Some a, Some b => bool_decide (a = b) | _, _ => false end.

Fixpoint verify_loop (key : string) (chains : gmap string string) (events : list auditEventRow) : bool :=
  match events with
  | [] => true
  | ev :: rest =>
      if auditIsUnsigned (HMAC ev) then false
      else if negb (bool_decide (HMAC ev = computeAuditHMAC key ev)) then false
      else if negb (prevMatches (chains !! AgentID ev) (PrevHMAC ev)) then false
      else verify_loop key (<[AgentID ev := HMAC ev]> chains) rest
  end.
Definition verifyAuditChain (key : option string) (events : list auditEventRow) : option bool :=
  match key with None => None | Some k => Some (verify_loop k ∅ events) end.

(** ** Reading *)

Record audit_query := AuditQuery { q_agent : string; q_session : string; q_from : string; q_to : string; q_limit : string; q_offset : string }.
Inductive chain_verdict := Verified | Tampered | UnavailablePartialQuery | DisabledNoSalt | UnsignedEventsPresent | Unavailable.
Inductive audit_answer :=
| BadFrom
| BadTo
| QueryFailed
| Events (events : list auditEventRow) (total : nat) (chainValid : option bool) (verification : chain_verdict).

Definition query_limit (v : string) : Z :=
  let n := if decide (v = "") then 100 else match Atoi v with Some n => if 0 <? n then n else 100 | None => 100 end in
  if 500 <? n then 500 else n.
Definition query_offset (v : string) : Z :=
  if decide (v = "") then 0 else match Atoi v with Some n => if 0 <=? n then n else 0 | None => 0 end.

(** A bound on the time: unset, unreadable, or an instant. *)
Definition time_bound (v : string) : option (option time) := if decide (v = "") then Some None else Some <$> parse_time v.

Definition matches (ws : string) (q : audit_query) (from to : option time) (r : auditEventRow) : bool :=
  bool_decide (WorkspaceID r = ws) &&
  (bool_decide (q_agent q = "") || bool_decide (AgentID r = q_agent q)) &&
  (bool_decide (q_session q = "") || bool_decide (SessionID r = q_session q)) &&
  null_or from (fun t => t <=? Timestamp r) && null_or to (fun t => Timestamp r <? t).

Definition verdict (key : option string) (q : audit_query) (events : list auditEventRow) : option bool * chain_verdict :=
  match key with
  | None => (None, DisabledNoSalt)
  | Some _ =>
      if negb (query_offset (q_offset q) =? 0) || negb (bool_decide (q_session q = "")) || negb (bool_decide (q_from q = "")) then (None, UnavailablePartialQuery)
      else if auditAnyUnsigned events then (Some false, UnsignedEventsPresent)
      else match verifyAuditChain key events with
           | None => (None, Unavailable)
           | Some true => (Some true, Verified)
           | Some false => (Some false, Tampered)
           end
  end.

(** [fails]: the count, the rows or their scan failed. *)
Definition Query (key : option string) (fails : bool) (workspaceID : string) (q : audit_query) (tbl : list auditEventRow) : audit_answer :=
  match time_bound (q_from q) with
  | None => BadFrom
  | Some from =>
      match time_bound (q_to q) with
      | None => BadTo
      | Some to =>
          match fails, canon workspaceID with
          | true, _ | _, None => QueryFailed
          | false, Some ws =>
              let found := filter (fun r => matches ws q from to r = true) tbl in
              let events := take (Z.to_nat (query_limit (q_limit q))) (drop (Z.to_nat (query_offset (q_offset q))) (sort_rows collate found)) in
              let '(valid, v) := verdict key q events in
              Events events (length found) valid v
          end
      end
  end.

(** ** What a signature covers *)

Definition row_utf8 (r : auditEventRow) : Prop :=
  Utf8 (AgentID r) /\ opt_utf8 (Details r) /\ Utf8 (ID r) /\ opt_utf8 (InputHash r) /\ opt_utf8 (ModelUsed r) /\
  Utf8 (Operation r) /\ opt_utf8 (OutputHash r) /\ opt_utf8 (PrevHMAC r) /\ Utf8 (SessionID r).
(** Everything but the workspace and what is below the second. *)
Definition same_signed (a b : auditEventRow) : Prop :=
  AgentID a = AgentID b /\ Details a = Details b /\ HumanOversightFlag a = HumanOversightFlag b /\ ID a = ID b /\
  InputHash a = InputHash b /\ ModelUsed a = ModelUsed b /\ Operation a = Operation b /\ OutputHash a = OutputHash b /\
  PrevHMAC a = PrevHMAC b /\ RiskFlag a = RiskFlag b /\ SessionID a = SessionID b /\
  format_seconds (Timestamp a) = format_seconds (Timestamp b).

Ltac peel E :=
  first [ apply json_string_inj in E as [? E]; [|assumption..] | apply json_nullable_inj in E as [? E]; [|assumption..]
        | apply json_bool_inj in E as [? E] | apply str_app_inj_l in E ].

Lemma payload_inj a b : row_utf8 a -> row_utf8 b -> auditCanonicalPayload a = auditCanonicalPayload b -> same_signed a b.
Proof.
  intros (H1 & H2 & H3 & H4 & H5 & H6 & H7 & H8 & H9) (G1 & G2 & G3 & G4 & G5 & G6 & G7 & G8 & G9) E.
  pose proof (format_seconds_utf8 (Timestamp a)). pose proof (format_seconds_utf8 (Timestamp b)).
  unfold auditCanonicalPayload in E. apply str_app_inj_l in E. unfold canonical_members in E. unfold same_signed.
  assert (Hk : forall x y, json_string "details" +:+ x = json_string "human_oversight_flag" +:+ y -> False).
  { intros x y Hxy. apply json_string_inj in Hxy as [? _]; [done|by apply all_ascii_utf8..]. }
  destruct (Details a) as [d|], (Details b) as [d'|]; cbn [app print_members opt_utf8] in *.
  1,4: repeat peel E; split_and!; congruence.
  1,2: exfalso; do 2 peel E; apply json_string_inj in E as [_ E]; [|assumption..]; apply str_app_inj_l in E; eapply Hk; first [exact E|symmetry; exact E].
Qed.

Lemma payload_nonempty r : auditCanonicalPayload r <> "".
Proof. unfold auditCanonicalPayload. by rewrite str_app_cons. Qed.

Definition collision (key : string) : Prop := exists p q, p <> q /\ hmac key p = hmac key q.

Lemma hmac_determines key a b : row_utf8 a -> row_utf8 b -> computeAuditHMAC key a = computeAuditHMAC key b -> same_signed a b \/ collision key.
Proof.
  intros Ha Hb E. unfold computeAuditHMAC in E. rewrite !decide_False in E by apply payload_nonempty. apply hex_encode_inj in E.
  destruct (decide (auditCanonicalPayload a = auditCanonicalPayload b)); [left; by apply payload_inj|right; by eexists _, _].
Qed.

(** ** Chains *)

Fixpoint links (key : string) (prev : option string) (l : list auditEventRow) : Prop :=
  match l with
  | [] => True
  | r :: rest => auditIsUnsigned (HMAC r) = false /\ HMAC r = computeAuditHMAC key r /\ PrevHMAC r = prev /\ links key (Some (HMAC r)) rest
  end.

Lemma prevMatches_spec a b : prevMatches a b = true <-> a = b.
Proof. destruct a, b; cbn; rewrite ?bool_decide_eq_true; split; congruence. Qed.

Definition of_agent (a : string) (l : list auditEventRow) : list auditEventRow := filter (fun r => AgentID r = a) l.

(** The loop accepts exactly the lists in which every agent's rows are linked. *)
Lemma verify_loop_iff key evs chains : verify_loop key chains evs = true <-> forall a, links key (chains !! a) (of_agent a evs).
Proof.
  revert chains. induction evs as [|r evs IH]; intros chains; cbn [verify_loop]; [by split|]. split.
  - destruct (auditIsUnsigned (HMAC r)) eqn:Eu; [done|]. destruct (bool_decide (HMAC r = _)) eqn:Eh; [|done]. cbn [negb].
    destruct (prevMatches _ _) eqn:Ep; [|done]. cbn [negb]. intros Hv a. apply bool_decide_eq_true in Eh. apply prevMatches_spec in Ep.
    pose proof (proj1 (IH _) Hv a) as Ha. unfold of_agent in *. rewrite filter_cons. case_decide as Hd.
    + subst a. rewrite lookup_insert_eq in Ha. cbn [links]. eauto.
    + by rewrite lookup_insert_ne in Ha.
  - intros Hl. pose proof (Hl (AgentID r)) as Hr. unfold of_agent in Hr. rewrite filter_cons_True in Hr by done. destruct Hr as (Hu & Hh & Hp & Hrest).
    rewrite Hu, (bool_decide_true _ Hh). cbn [negb]. rewrite (proj2 (prevMatches_spec _ _) (eq_sym Hp)). cbn [negb]. apply IH. intros a.
    destruct (decide (a = AgentID r)) as [->|Hne]; [by rewrite lookup_insert_eq|]. rewrite lookup_insert_ne by done.
    pose proof (Hl a) as Ha. unfold of_agent in *. by rewrite filter_cons_False in Ha.
Qed.

Lemma links_app key prev l r :
  links key prev (l ++ [r]) <-> links key prev l /\ auditIsUnsigned (HMAC r) = false /\ HMAC r = computeAuditHMAC key r /\
    PrevHMAC r = (match last l with Some p => Some (HMAC p) | None => prev end).
Proof.
  clear sha256 collate parse_time.
  revert prev. induction l as [|x l IH]; intros prev; cbn [app links].
  - cbn. tauto.
  - rewrite IH, last_cons. destruct (last l); tauto.
Qed.

Lemma links_prefix key prev l1 l2 : links key prev (l1 ++ l2) -> links key prev l1.
Proof. revert prev. induction l1 as [|x l1 IH]; intros prev; cbn [app links]; [done|]. intros (? & ? & ? & ?). eauto 6. Qed.

(** The last signature of a chain determines all of it. *)
Lemma last_determines_chain key l1 l2 :
  Forall row_utf8 l1 -> Forall row_utf8 l2 -> links key None l1 -> links key None l2 -> HMAC <$> last l1 = HMAC <$> last l2 ->
  Forall2 same_signed l1 l2 \/ collision key.
Proof.
  revert l2. induction l1 as [|r l1 IH] using rev_ind; intros l2 Hu1 Hu2 H1 H2 E.
  - destruct l2 as [|r2 l2 _] using rev_ind; [by left|]. by rewrite last_snoc in E.
  - destruct l2 as [|r2 l2 _] using rev_ind; [by rewrite last_snoc in E|]. rewrite !last_snoc in E. injection E as E.
    apply Forall_app in Hu1 as [Hu1 Hr1], Hu2 as [Hu2 Hr2]. rewrite Forall_singleton in Hr1, Hr2.
    apply links_app in H1 as (H1 & _ & Hh1 & Hp1). apply links_app in H2 as (H2 & _ & Hh2 & Hp2).
    rewrite Hh1, Hh2 in E. destruct (hmac_determines key r r2 Hr1 Hr2 E) as [Hs|]; [|by right].
    assert (Hp : PrevHMAC r = PrevHMAC r2) by apply Hs. rewrite Hp1, Hp2 in Hp.
    destruct (IH l2 Hu1 Hu2 H1 H2) as [Hf|]; [|left|by right].
    + by destruct (last l1), (last l2).
    + apply Forall2_app; [done|]. by constructor.
Qed.

(** ** Order *)

Abbreviation earlier := (fun a b : auditEventRow => Timestamp a < Timestamp b).
Abbreviation no_later := (fun a b : auditEventRow => Timestamp a <= Timestamp b).

Lemma insert_row_perm x l : insert_row collate x l ≡ₚ x :: l.
Proof. induction l as [|y l IH]; cbn; [done|]. case_match; [done|]. rewrite IH. constructor. Qed.
Lemma sort_rows_perm l : sort_rows collate l ≡ₚ l.
Proof. induction l as [|x l IH]; cbn; [done|]. by rewrite insert_row_perm, IH. Qed.

Lemma row_leb_time a b : row_leb collate a b = true -> Timestamp a <= Timestamp b.
Proof. unfold row_leb. intros [?|[? _]%andb_true_iff]%orb_true_iff; b2p; lia. Qed.
Lemma row_leb_false a b : row_leb collate a b = false -> Timestamp b <= Timestamp a.
Proof. unfold row_leb. intros [? _]%orb_false_iff. b2p. lia. Qed.

Lemma insert_row_sorted x l : StronglySorted no_later l -> StronglySorted no_later (insert_row collate x l).
Proof.
  induction 1 as [|y l Hs IH Hf]; cbn; [repeat constructor|]. destruct (row_leb collate x y) eqn:E.
  - apply row_leb_time in E. constructor; [by constructor|]. constructor; [done|]. eapply Forall_impl; [exact Hf|]. cbn. intros; lia.
  - apply row_leb_false in E. constructor; [done|]. rewrite insert_row_perm. by constructor.
Qed.
Lemma sort_rows_sorted l : StronglySorted no_later (sort_rows collate l).
Proof. induction l; cbn; [constructor|by apply insert_row_sorted]. Qed.

Lemma StronglySorted_filter (R : relation auditEventRow) (P : auditEventRow -> Prop) `{!forall x, Decision (P x)} l :
  StronglySorted R l -> StronglySorted R (filter P l).
Proof.
  induction 1 as [|x l Hs IH Hf]; [constructor|]. rewrite filter_cons. case_decide; [|done]. constructor; [done|].
  apply Forall_forall. intros y [_ Hy]%list_elem_of_filter. by eapply Forall_forall in Hf.
Qed.

(** A list in strict order is the only sorted arrangement of its rows. *)
Lemma sorted_unique l c : l ≡ₚ c -> StronglySorted no_later l -> StronglySorted earlier c -> l = c.
Proof.
  revert c. induction l as [|x l IH]; intros c Hp Hl Hc; [by apply Permutation_nil_l in Hp|].
  destruct c as [|y c]; [by apply Permutation_nil_r in Hp|]. inversion Hl as [|? ? Hl' Hfl]; inversion Hc as [|? ? Hc' Hfc]; subst.
  assert (x = y) as <-.
  { assert (Hx : x ∈ y :: c) by (rewrite <- Hp; constructor). assert (Hy : y ∈ x :: l) by (rewrite Hp; constructor).
    apply elem_of_cons in Hx as [|Hx]; [done|]. apply elem_of_cons in Hy as [|Hy]; [done|].
    eapply Forall_forall in Hx; [|exact Hfc]. eapply Forall_forall in Hy; [|exact Hfl]. cbn in *. lia. }
  f_equal. apply IH; [by eapply Permutation_cons_inv|done..].
Qed.

Lemma sort_rows_id c : StronglySorted earlier c -> sort_rows collate c = c.
Proof. intros Hc. apply sorted_unique; [apply sort_rows_perm|apply sort_rows_sorted|done]. Qed.

(** The rows before an instant are the first ones of a chain. *)
Lemma before_is_prefix c (P : auditEventRow -> Prop) `{!forall x, Decision (P x)} :
  (forall a b, Timestamp a < Timestamp b -> P b -> P a) -> StronglySorted earlier c -> exists rest, c = filter P c ++ rest.
Proof.
  intros Hdown. induction 1 as [|x c Hs [rest IH] Hf]; [by exists []|]. rewrite filter_cons. case_decide as Hx.
  - exists rest. cbn. by f_equal.
  - exists (x :: c). destruct (filter P c) as [|y ys] eqn:E; [done|]. exfalso.
    assert (Hy : y ∈ filter P c) by (rewrite E; constructor). apply list_elem_of_filter in Hy as [Py Hy]. eapply Forall_forall in Hf; [|exact Hy]. eauto.
Qed.

(** ** What was recorded verifies *)

(** Instants to the microsecond are kept as they are. *)
Context (pg_micro : forall t, pg_time t = t -> pg_time (t + Microsecond) = t + Microsecond).

Inductive audit_step (key : string) : relation (list auditEventRow) :=
| AppendStep db f now id e tbl : pg_time now = now -> audit_step key tbl (RecordAuditEvent (Some key) db f now id e tbl)
| PurgeStep ids tbl : audit_step key tbl (purge_events ids tbl).

Definition ledger_ok (key : string) (tbl : list auditEventRow) : Prop :=
  Forall (fun r => pg_time (Timestamp r) = Timestamp r) tbl /\
  forall ws a, links key None (of_chain ws a tbl) /\ StronglySorted earlier (of_chain ws a tbl).

Lemma hex_is_signed s : auditIsUnsigned (hex_encode s) = false.
Proof. destruct s as [|b s]; [done|]. cbn [hex_encode]. unfold hex_byte. rewrite !str_app_cons. by destruct b as [[][][][][][][][]]. Qed.

Lemma StronglySorted_snoc (l : list auditEventRow) r : StronglySorted earlier l -> (forall p, last l = Some p -> Timestamp p < Timestamp r) -> StronglySorted earlier (l ++ [r]).
Proof.
  induction 1 as [|x l Hs IH Hf]; intros Hr; cbn; [repeat constructor|]. constructor.
  - apply IH. intros p Hp. apply Hr. by rewrite last_cons, Hp.
  - apply Forall_app. split; [done|]. constructor; [|constructor]. destruct (last l) as [p|] eqn:E.
    + assert (Hp : Timestamp p < Timestamp r) by (apply Hr; by rewrite last_cons, E). apply last_Some_elem_of in E. eapply Forall_forall in Hf; [|exact E]. cbn in *. lia.
    + apply Hr. by rewrite last_cons, E.
Qed.

Lemma entry_row_signed key now id ws tail e :
  pg_time (next_instant now tail) = next_instant now tail ->
  let r := entry_row (Some key) now id ws tail e in
  Timestamp r = next_instant now tail /\ WorkspaceID r = ws /\ PrevHMAC r = HMAC <$> tail /\
  auditIsUnsigned (HMAC r) = false /\ HMAC r = computeAuditHMAC key r /\ AgentID r = (if decide (e_actor e = "") then auditActorUnknown else e_actor e).
Proof.
  intros Ht. unfold entry_row. cbn [Timestamp WorkspaceID PrevHMAC HMAC AgentID signAuditRow]. rewrite Ht. split_and!; try done.
  unfold computeAuditHMAC. rewrite decide_False by apply payload_nonempty. apply hex_is_signed.
Qed.

Lemma append_keeps_ledger key now id ws e tbl : pg_time now = now -> ledger_ok key tbl ->
  let actor := if decide (e_actor e = "") then auditActorUnknown else e_actor e in
  ledger_ok key (tbl ++ [entry_row (Some key) now id ws (chain_tail ws actor tbl) e]).
Proof.
  intros Hnow [Hpg Hch] actor. unfold chain_tail. destruct (Hch ws actor) as [Hl Hs]. rewrite sort_rows_id by done.
  set (tail := last (of_chain ws actor tbl)). assert (Htail : forall p, tail = Some p -> pg_time (Timestamp p) = Timestamp p).
  { intros p Hp%last_Some_elem_of. apply list_elem_of_filter in Hp as [_ Hp]. by eapply Forall_forall in Hpg. }
  assert (Ht : pg_time (next_instant now tail) = next_instant now tail).
  { unfold next_instant. destruct tail as [p|]; [|done]. case_match; auto. }
  destruct (entry_row_signed key now id ws tail e Ht) as (E1 & E2 & E3 & E4 & E5 & E6). fold actor in E6. set (r := entry_row _ _ _ _ _ _) in *. split.
  - apply Forall_app. split; [done|]. constructor; [by rewrite E1|done].
  - intros ws' a'. unfold of_chain. rewrite filter_app, filter_cons. destruct (Hch ws' a') as [Hl' Hs'].
    case_decide as Hd; [|by rewrite app_nil_r]. destruct Hd as [<- <-]. rewrite E2, E6 in *. fold (of_chain ws actor tbl) in *. split.
    + apply links_app. split_and!; [done..|]. rewrite E3. fold tail. by destruct tail.
    + apply StronglySorted_snoc; [done|]. intros p Hp. fold tail in Hp. rewrite E1, Hp. cbn. unfold Microsecond. destruct (Z.ltb_spec (Timestamp p) now); lia.
Qed.

Lemma ledger_ok_step key tbl tbl' : ledger_ok key tbl -> audit_step key tbl tbl' -> ledger_ok key tbl'.
Proof.
  intros Hok Hstep. revert Hok. destruct Hstep as [db f now id e t Hnow|ids t]; intros Hok.
  - unfold RecordAuditEvent. destruct (_ || _); [done|]. destruct f as [| | | | |[]]; try exact Hok;
    (destruct (canon (e_workspace e)); [|done]); (destruct (existsb _ _); [done|]); by apply append_keeps_ledger.
  - destruct Hok as [Hpg Hch]. split.
    + apply Forall_forall. intros r [_ Hr]%list_elem_of_filter. by eapply Forall_forall in Hpg.
    + intros ws a. assert (Hf : of_chain ws a (purge_events ids t) = if decide (ws ∈ ids) then [] else of_chain ws a t).
      { unfold of_chain, purge_events. rewrite list_filter_filter. clear. induction t as [|r t IH]; [by case_decide|]. rewrite !filter_cons, IH. repeat case_decide; set_solver. }
      rewrite Hf. case_decide; [split; constructor|apply Hch].
Qed.

Lemma of_agent_found ws a q to tbl : of_agent a (filter (fun r => matches ws q None to r = true) tbl) =
  if decide (q_agent q = "" \/ a = q_agent q) then filter (fun r => (bool_decide (q_session q = "") || bool_decide (SessionID r = q_session q)) && null_or to (fun t => Timestamp r <? t) = true) (of_chain ws a tbl) else [].
Proof.
  unfold of_agent, of_chain. rewrite list_filter_filter. case_decide as Hq.
  - rewrite list_filter_filter. apply list_filter_iff. intros r. unfold matches. cbn [null_or]. rewrite !andb_true_iff, !orb_true_iff, !bool_decide_eq_true.
    split; [tauto|]. intros ((H1 & H2) & H3 & ->). tauto.
  - apply filter_none. intros r [H1 H2]. unfold matches in H2. rewrite !andb_true_iff, !orb_true_iff, !bool_decide_eq_true in H2.
    apply Hq. destruct H2 as ((((_ & H2) & _) & _) & _). by subst a.
Qed.

Lemma of_agent_take a n l : exists rest, of_agent a l = of_agent a (take n l) ++ rest.
Proof. exists (of_agent a (drop n l)). unfold of_agent. by rewrite <- filter_app, take_drop. Qed.

(** C34: What was recorded verifies.  From an empty ledger, after any sequence of appends
    under one key - whatever fails in them, in whatever order the clock reads - and of hard
    deletes of workspaces, an answer about any workspace that starts at the first row, up to
    any instant, for one agent or for all, of any length, is marked verified, and holds only
    rows of that workspace.  The clock reads instants that Postgres keeps as they are. *)
Theorem recorded_events_verify key tbl ws q evs total valid v :
  rtc (audit_step key) [] tbl -> Query (Some key) false ws q tbl = Events evs total valid v ->
  query_offset (q_offset q) = 0 -> q_session q = "" -> q_from q = "" ->
  valid = Some true /\ v = Verified /\ forall r, r ∈ evs -> r ∈ tbl /\ canon ws = Some (WorkspaceID r).
Proof.
  intros Hreach HQ Hoff Hsess Hfrom.
  assert (Hok : ledger_ok key tbl).
  { eapply (rtc_invariant (audit_step key) (ledger_ok key)); [apply ledger_ok_step| |exact Hreach]. split; [constructor|]. split; constructor. }
  unfold Query in HQ. unfold time_bound at 1 in HQ. rewrite Hfrom, decide_True in HQ by done. destruct (time_bound (q_to q)) as [to|]; [|done].
  destruct (canon ws) as [w|]; [|done]. rewrite Hoff in HQ. cbn [Z.to_nat drop] in HQ.
  set (found := filter _ tbl) in HQ. set (shown := take _ _) in HQ.
  assert (Hlinks : forall a, links key None (of_agent a shown)).
  { intros a. destruct Hok as [_ Hch]. destruct (Hch w a) as [Hl Hs].
    assert (Hfound : exists rest, of_chain w a tbl = of_agent a found ++ rest /\ StronglySorted earlier (of_agent a found)).
    { unfold found. rewrite of_agent_found. case_decide; [|eexists; split; [done|constructor]].
      edestruct (before_is_prefix (of_chain w a tbl) (fun r => (bool_decide (q_session q = "") || bool_decide (SessionID r = q_session q)) && null_or to (fun t => Timestamp r <? t) = true)) as [rest E]; [|exact Hs|].
      - intros x y Hxy. rewrite (bool_decide_true _ Hsess). cbn [orb andb]. destruct to; cbn; [|done]. intros Hy. b2p. apply Z.ltb_lt. lia.
      - exists rest. split; [exact E|]. by apply StronglySorted_filter. }
    destruct Hfound as (rest & E & Hfs). rewrite E in Hl. apply links_prefix in Hl.
    assert (Hsort : of_agent a (sort_rows collate found) = of_agent a found).
    { apply sorted_unique; [|by apply StronglySorted_filter, sort_rows_sorted|done]. unfold of_agent. by rewrite sort_rows_perm. }
    destruct (of_agent_take a (Z.to_nat (query_limit (q_limit q))) (sort_rows collate found)) as [rest' E']. rewrite Hsort in E'. rewrite E' in Hl.
    by apply links_prefix in Hl. }
  assert (Hv : verify_loop key ∅ shown = true) by (apply verify_loop_iff; intros a; by rewrite lookup_empty).
  assert (Hun : auditAnyUnsigned shown = false).
  { destruct (auditAnyUnsigned shown) eqn:Eu; [|done]. apply existsb_exists in Eu as (r & Hr%list_elem_of_In & Eu). exfalso.
    assert (Hin : r ∈ of_agent (AgentID r) shown) by (by apply list_elem_of_filter). specialize (Hlinks (AgentID r)). revert Hlinks Hin Eu. generalize (@None string).
    clear. generalize (of_agent (AgentID r) shown). intros l. induction l as [|x l IH]; intros p Hl Hin Eu; [by apply elem_of_nil in Hin|].
    destruct Hl as (Hx & _ & _ & Hl). apply elem_of_cons in Hin as [->|Hin]; [congruence|]. eauto. }
  unfold verdict in HQ. rewrite Hoff, Hun, (bool_decide_true _ Hsess), (bool_decide_true _ Hfrom) in HQ. cbn [negb orb Z.eqb] in HQ.
  unfold verifyAuditChain in HQ. rewrite Hv in HQ. injection HQ as <- _ <- <-. split_and!; [done..|]. intros r Hr%subseteq_take.
  rewrite sort_rows_perm in Hr. apply list_elem_of_filter in Hr as [Hm Hr]. split; [done|]. unfold matches in Hm. b2p. by subst.
Qed.

(** C35: What was verified once cannot be rewritten.  If the last row an agent had in one
    verified answer is, by its signature, a row of a later verified answer, then the agent's
    rows of the first answer are the first ones of the later answer, the same in every field
    that is signed - or HMAC-SHA256 has a collision under the key. *)
Theorem verified_history_is_fixed key ws q tbl evs total ws' q' tbl' evs' total' a r r' before :
  Query (Some key) false ws q tbl = Events evs total (Some true) Verified ->
  Query (Some key) false ws' q' tbl' = Events evs' total' (Some true) Verified ->
  Forall row_utf8 (evs ++ evs') ->
  last (of_agent a evs) = Some r -> of_agent a evs' = before ++ r' :: drop (S (length before)) (of_agent a evs') -> HMAC r' = HMAC r ->
  Forall2 same_signed (of_agent a evs) (before ++ [r']) \/ collision key.
Proof.
  assert (Hver : forall w p t es n, Query (Some key) false w p t = Events es n (Some true) Verified -> links key None (of_agent a es)).
  { intros w p t es n HQ. unfold Query in HQ. destruct (time_bound _); [|done]. destruct (time_bound _); [|done]. destruct (canon w); [|done].
    set (shown := take _ _) in HQ. unfold verdict in HQ. destruct (_ || _); [done|]. destruct (auditAnyUnsigned shown); [done|]. unfold verifyAuditChain in HQ.
    destruct (verify_loop key ∅ shown) eqn:Ev; [|done]. injection HQ as <- _. by apply (proj1 (verify_loop_iff key shown ∅) Ev a). }
  intros H1 H2 Hu Hlast Hsplit Heq. apply Hver in H1, H2. apply Forall_app in Hu as [Hu1 Hu2].
  assert (Hu' : forall l, Forall row_utf8 l -> Forall row_utf8 (of_agent a l)).
  { intros l Hl. apply Forall_forall. intros x [_ Hx]%list_elem_of_filter. by eapply Forall_forall in Hl. }
  pose proof (Hu' _ Hu1) as U1. pose proof (Hu' _ Hu2) as U2. rewrite Hsplit in H2, U2. rewrite cons_middle, app_assoc in H2, U2. apply links_prefix in H2. apply Forall_app in U2 as [U2 _].
  apply last_determines_chain; [done..|]. rewrite Hlast, last_snoc. cbn. by rewrite Heq.
Qed.
End Ledger.

Module AuditDemo.
#[local] Existing Instance plain_cast.
Definition hmac (k p : string) : string := k +:+ p.
Definition sha (s : string) : string := s.
(** Nearest microsecond. *)
Definition pg_round (t : time) : time := (t + 500) / Microsecond * Microsecond.
Definition marshal (m : gmap string json) : option string := Some "{}".
Definition no_time (s : string) : option time := None.
Definition record (now : time) (id actor : string) (tbl : list auditEventRow) : list auditEventRow :=
  RecordAuditEvent hmac sha String.leb pg_round marshal (Some "k") true NoFault now id (Entry "w" actor "" "workspace.create" false false ∅) tbl.
Definition ask : audit_query := AuditQuery "" "" "" "" "" "".
Definition query (ws : string) (tbl : list auditEventRow) : audit_answer := Query hmac String.leb no_time (Some "k") false ws ask tbl.
Definition verification (a : audit_answer) : option chain_verdict := match a with Events _ _ _ v => Some v | _ => None end.
Definition shown (a : audit_answer) : list auditEventRow := match a with Events evs _ _ _ => evs | _ => [] end.

Definition one : list auditEventRow := record 5000 "b" "admin" [].
(** The clock has gone back. *)
Definition two : list auditEventRow := record 3000 "a" "admin" one.

Lemma recorded_events_verify_witness : verification (query "w" two) = Some Verified.
Proof.
  assert (Hm : forall t, pg_round t = t -> pg_round (t + Microsecond) = t + Microsecond).
  { intros t Ht. unfold pg_round, Microsecond in *. replace (t + 1000 + 500) with (t + 500 + 1 * 1000) by lia. rewrite Z_div_plus by lia. lia. }
  assert (Hs : forall now id tbl, pg_round now = now -> audit_step hmac sha String.leb pg_round marshal "k" tbl (record now id "admin" tbl)).
  { intros now id tbl H. exact (AppendStep hmac sha String.leb pg_round marshal "k" true NoFault now id (Entry "w" "admin" "" "workspace.create" false false ∅) tbl H). }
  assert (Hr : rtc (audit_step hmac sha String.leb pg_round marshal "k") [] two).
  { eapply rtc_l; [apply (Hs 5000 "b" []); reflexivity|]. eapply rtc_l; [apply (Hs 3000 "a" one); reflexivity|]. apply rtc_refl. }
  assert (HQ : exists evs, Query hmac String.leb no_time (Some "k") false "w" ask two = Events evs 2 (Some true) Verified) by (eexists; vm_compute; reflexivity).
  destruct HQ as [evs HQ].
  destruct (recorded_events_verify hmac sha String.leb pg_round marshal no_time Hm "k" two "w" ask evs 2 (Some true) Verified Hr HQ eq_refl eq_refl eq_refl) as (_ & Hv & _).
  unfold query. rewrite HQ. exact (f_equal Some Hv).
Defined.

Definition row_ascii (r : auditEventRow) : bool :=
  forallb all_ascii [AgentID r; ID r; Operation r; SessionID r] &&
  forallb (fun o => all_ascii (default "" o)) [Details r; InputHash r; ModelUsed r; OutputHash r; PrevHMAC r].
Lemma opt_ascii_utf8 o : all_ascii (default "" o) = true -> opt_utf8 o.
Proof. destruct o; [apply all_ascii_utf8|done]. Qed.
Lemma rows_utf8 l : forallb row_ascii l = true -> Forall row_utf8 l.
Proof.
  intros H. apply Forall_forall. intros r Hr%list_elem_of_In. eapply forallb_forall in H; [|exact Hr]. unfold row_ascii in H. cbn [forallb] in H. b2p.
  unfold row_utf8. auto 20 using all_ascii_utf8, opt_ascii_utf8.
Qed.
Definition evs1 : list auditEventRow := Eval vm_compute in shown (query "w" one).
Definition evs2 : list auditEventRow := Eval vm_compute in shown (query "w" two).

Lemma verified_history_is_fixed_witness : Forall2 same_signed (of_agent "admin" evs1) (take 1 (of_agent "admin" evs2)) \/ collision hmac "k".
Proof.
  assert (Hr : exists r r', last (of_agent "admin" evs1) = Some r /\ of_agent "admin" evs2 = [] ++ r' :: drop 1 (of_agent "admin" evs2) /\
    HMAC r' = HMAC r /\ take 1 (of_agent "admin" evs2) = [r']) by (do 2 eexists; split_and!; vm_compute; reflexivity).
  destruct Hr as (r & r' & H1 & H2 & H3 & H4). rewrite H4.
  apply (verified_history_is_fixed hmac String.leb no_time "k" "w" ask one evs1 1 "w" ask two evs2 2 "admin" r r' []); [| | |exact H1|exact H2|exact H3].
  - vm_compute. reflexivity.
  - vm_compute. reflexivity.
  - apply rows_utf8. vm_compute. reflexivity.
Defined.

(** The clock reads nanoseconds and the signature covers whole seconds: an instant in the
    last half microsecond of a second is kept as the next second, and the row that was just
    written reads as tampered with. *)
Example last_instant_reads_as_tampered : verification (query "w" (record (Second - 100) "a" "admin" [])) = Some Tampered.
Proof. vm_compute. reflexivity. Qed.

(** Two instants of one microsecond are kept as one, and the ids decide the order. *)
Example one_microsecond_breaks_the_chain : verification (query "w" (record 10400 "a" "admin" (record 10000 "b" "admin" []))) = Some Tampered.
Proof. vm_compute. reflexivity. Qed.

(** Neither the workspace nor the end of a chain is covered: a ledger moved to another
    workspace and one without its last row are verified. *)
Definition moved (r : auditEventRow) : auditEventRow :=
  AuditRow (ID r) (Timestamp r) (AgentID r) (SessionID r) (Operation r) (InputHash r) (OutputHash r) (ModelUsed r) (HumanOversightFlag r) (RiskFlag r) (PrevHMAC r) (HMAC r) "elsewhere" (Details r).
Example moved_ledger_verifies :
  verification (query "elsewhere" (map moved two)) = Some Verified /\ length (shown (query "elsewhere" (map moved two))) = 2%nat /\ shown (query "w" (map moved two)) = [].
Proof. vm_compute. auto. Qed.
Example shortened_ledger_verifies : verification (query "w" (take 1 two)) = Some Verified /\ verification (query "w" []) = Some Verified.
Proof. vm_compute. auto. Qed.

(** A row written without a key keeps the whole workspace unverified, and says why. *)
Example unsigned_rows_are_told :
  let tbl := RecordAuditEvent hmac sha String.leb pg_round marshal None true NoFault 1000 "a" (Entry "w" "admin" "" "auth_token.mint" true false ∅) [] in
  verification (query "w" (record 2000 "b" "other" tbl)) = Some UnsignedEventsPresent /\
  verification (Query hmac String.leb no_time None false "w" ask tbl) = Some DisabledNoSalt.
Proof. vm_compute. auto. Qed.

Example actors :
  auditActor (Some (Caller (Some ("id", "abc")) None false (Some ("session:u", "u")) None "org-token")) = "org-token:abc" /\
  auditActor (Some (Caller None None true None None "")) = auditActorUnknown /\ auditTokenPrefix "secret" = "" /\ auditDeleteAnchor "" "w" = "w".
Proof. vm_compute. auto. Qed.
End AuditDemo.
