(* ===== verification/DesktopSidecar.v ===== *)
(** * The desktop beside a workspace

    internal/provisioner/local_sidecar_provisioner.go, desktop_naming.go, desktop_token.go
    and the unwired backend of sidecar_provisioner_api.go.  An operation is a program of
    Docker calls: a [prog] says which call comes next after every possible answer, and the
    theorems hold whatever the daemon answers.  The theorems about traces say what the
    operations ask of the daemon, not what the daemon makes of it. *)

From stdpp Require Import pretty.
From S2P Require Import Prelude Base64 ContainerNames.

(** ** Names (desktop_naming.go, desktop_token.go) *)

Definition DesktopContainerName (workspaceID : string) : string := "wsdesk-" +:+ workspaceID.
Definition DesktopProxyContainerName (workspaceID : string) : string := "wsdeskproxy-" +:+ workspaceID.
Definition DesktopProfileVolumeName (workspaceID : string) : string := ("wsdesk-" +:+ workspaceID) +:+ "-profile".
Definition IsDesktopSidecarName (name : string) : bool := has_prefix name "wsdesk-".
Definition WorkspaceIDFromDesktopName (name : string) : string := if has_prefix name "wsdesk-" then str_drop 7 name else "".

Definition hex_or_dash (a : Ascii.ascii) : bool :=
  let n := Ascii.nat_of_ascii a in
  (48 <=? n)%nat && (n <=? 57)%nat || (97 <=? n)%nat && (n <=? 102)%nat || (65 <=? n)%nat && (n <=? 70)%nat || (n =? 45)%nat.
Definition IsWellFormedWorkspaceID (s : string) : bool := negb (bool_decide (s = "")) && all_chars hex_or_dash s.

Definition colon : Ascii.ascii := Ascii.ascii_of_nat 58.
Inductive target_error := MissingPort | DisallowedPort | NotASidecar | MalformedID.
Definition ValidateSidecarTarget (host : string) : option target_error :=
  match str_cut colon host with
  | None => Some MissingPort
  | Some (hostname, port) =>
      if decide (port = "") then Some MissingPort
      else if negb (bool_decide (port ∈ ["6070"; "6080"])) then Some DisallowedPort
      else let id := WorkspaceIDFromDesktopName hostname in
           if decide (id = "") then Some NotASidecar
           else if IsWellFormedWorkspaceID id then None else Some MalformedID
  end.

Definition DeriveDesktopControlToken (hmac : string -> string -> string) (secret workspaceID : string) : string :=
  if decide (secret = "" \/ workspaceID = "") then "" else encode RawURLEncoding (hmac secret ("desktop-control:" +:+ workspaceID)).

(** ** Calls *)

Record create_config := CreateConfig {
  cc_image : string; cc_env : list string; cc_entrypoint : list string;
  cc_binds : list string; cc_security : list string; cc_cap_drop : list string;
  cc_restart : string; cc_memory : Z; cc_memory_swap : Z; cc_oom : Z;
  cc_networks : list (string * string)   (* a network and the alias on it *)
}.
Inductive call :=
| ContainerInspect (name : string)
| ContainerCreate (name : string) (cfg : create_config)
| ContainerStart (name : string)
| ContainerStop (name : string) (secs : Z)
| ContainerRemove (name : string) (force : bool)
| ContainerUpdate (name : string) (memory : Z)
| VolumeCreate (name : string)
| VolumeRemove (name : string)
| NetworkCreate (name : string) (internal : bool)
| NetworkRemove (name : string)
| NetworkConnect (net name : string) (alias : option string)
| NetworkDisconnect (net name : string)
| ImageInspect (ref : string)
| ImagePull (ref : string)
| DrainPull
| Now
| ProbeWait.      (* false: the window is over or the caller is gone *)

(** What an inspect shows. *)
Record inspected := Inspected {
  in_running : bool; in_oom : bool; in_status : string; in_exit : Z;
  in_env : option (list string); in_image : string
}.
(** An error is its text. *)
Definition answer (c : call) : Type :=
  match c with
  | ContainerInspect _ => inspected + string
  | ImageInspect _ => string + string
  | Now => time
  | ProbeWait => bool
  | _ => option string
  end.

Inductive prog (A : Type) : Type :=
| Ret (a : A)
| Do (c : call) (k : answer c -> prog A).
Arguments Ret {A} a.
Arguments Do {A} c k.
Fixpoint bind {A B} (p : prog A) (f : A -> prog B) : prog B :=
  match p with Ret a => f a | Do c k => Do c (fun r => bind (k r) f) end.

Declare Scope prog_scope.
Delimit Scope prog_scope with prog.
Notation "x <- p ;; q" := (bind p (fun x => q)) (at level 100, p at next level, right associativity) : prog_scope.
Open Scope prog_scope.
Definition ask (c : call) : prog (answer c) := Do c (fun r => Ret r).

(** The classes of errors, by their text. *)
Definition isNoSuchContainer (e : string) : bool := str_contains e "No such container".
Definition isNoSuchVolume (e : string) : bool := str_contains e "No such volume".
Definition isNetworkExists (e : string) : bool := str_contains e "already exists".
Definition isNoSuchNetwork (e : string) : bool := str_contains e "No such network".
Definition isAlreadyConnected (e : string) : bool := str_contains e "already exists in network".
Definition isImageNotFound (e : string) : bool := str_contains e "No such image" || str_contains e "not found".
(** [err != nil && !isBenign(err)]. *)
Definition hard (benign : string -> bool) (r : option string) : bool := match r with Some e => negb (benign e) | None => false end.
Definition never (e : string) : bool := false.

(** ** The provisioner *)

Inductive start_error :=
| InspectFailed | RemoveDriftedFailed | PullFailed | NetworkCreateFailed | ProxyCreateFailed | ProxyAttachFailed | ProxyStartFailed
| ProfileVolumeFailed | CreateFailed | MemoryFailed | AttachFailed | StartFailed | HealRemoveFailed | RestartFailed | PlatformAttachFailed
| BackendUnavailable.
Record DesktopHandle := Handle { hd_address : string; hd_running : bool; hd_scaled_up : bool }.

Record provisioner := Provisioner {
  p_image : string; p_network_prefix : string; p_control_port : Z; p_stop_timeout : time; p_memory : Z;
  p_seccomp : string; p_token_secret : string; p_self : string; p_egress : string
}.
(** The defaults of NewLocalSidecarProvisioner. *)
Definition NewLocalSidecarProvisioner (default_seccomp image networkPrefix : string) (controlPort : Z) (stopTimeout : time) (memoryLimitBytes : Z)
    (seccompProfile : string) : provisioner :=
  Provisioner image networkPrefix controlPort (if stopTimeout <=? 0 then 10 * Second else stopTimeout) memoryLimitBytes
    (if decide (seccompProfile = "") then default_seccomp else seccompProfile) "" "" "".

Section Sidecar.
Context (hmac : string -> string -> string) (p : provisioner).

Definition desktopSecurityOpt : list string := if decide (p_seccomp p = "unconfined") then ["seccomp=unconfined"] else ["seccomp=" +:+ p_seccomp p].
Definition perWorkspaceNetwork (ws : string) : string := if decide (p_network_prefix p = "") then "" else p_network_prefix p +:+ ("-" +:+ ws).
Definition egressNetworkName : string := if decide (p_egress p = "") then "bridge" else p_egress p.
Definition handle (ws : string) (scaled : bool) : DesktopHandle := Handle (DesktopContainerName ws +:+ (":" +:+ pretty (p_control_port p))) true scaled.
Definition stop_secs : Z := p_stop_timeout p / Second.
Definition desktopProxyPort : Z := 3128.
Definition proxyMemoryLimitBytes : Z := 256 * 2 ^ 20.

Definition ensureImage : prog (option start_error) :=
  r <- ask (ImageInspect (p_image p)) ;;
  match r with
  | inl _ => Ret None
  | inr e => if negb (isImageNotFound e) then Ret None
             else r <- ask (ImagePull (p_image p)) ;;
                  match r with
                  | Some _ => Ret (Some PullFailed)
                  | None => r <- ask DrainPull ;; Ret (match r with Some _ => Some PullFailed | None => None end)
                  end
  end.

Definition desktop_env (ws : string) : list string :=
  ["DESKTOP_CONTROL_TOKEN=" +:+ DeriveDesktopControlToken hmac (p_token_secret p) ws; "DESKTOP_WIDTH=1280"; "DESKTOP_HEIGHT=800"] ++
  (if decide (perWorkspaceNetwork ws = "") then [] else ["DESKTOP_PROXY=http://" +:+ (DesktopProxyContainerName ws +:+ (":" +:+ pretty desktopProxyPort))]).
Definition desktop_config (ws : string) (nets : list (string * string)) : create_config :=
  CreateConfig (p_image p) (desktop_env ws) [] [DesktopProfileVolumeName ws +:+ ":/home/desktop/profile"] desktopSecurityOpt [] "no"
    (if 0 <? p_memory p then p_memory p else 0) (if 0 <? p_memory p then p_memory p else 0) (if 0 <? p_memory p then 500 else 0) nets.

Definition createDesktopContainer (ws : string) (nets : list (string * string)) : prog (option start_error) :=
  r <- ask (VolumeCreate (DesktopProfileVolumeName ws)) ;;
  match r with
  | Some _ => Ret (Some ProfileVolumeFailed)
  | None => r <- ask (ContainerCreate (DesktopContainerName ws) (desktop_config ws nets)) ;;
            Ret (match r with Some _ => Some CreateFailed | None => None end)
  end.

Fixpoint envValue (env : list string) (key : string) : option string :=
  match env with
  | [] => None
  | e :: rest => if has_prefix e (key +:+ "=") then Some (str_drop (String.length key + 1) e) else envValue rest key
  end.
Definition token_drifted (insp : inspected) (ws : string) : bool :=
  match in_env insp ≫= fun env => envValue env "DESKTOP_CONTROL_TOKEN" with
  | Some baked => negb (bool_decide (baked = DeriveDesktopControlToken hmac (p_token_secret p) ws))
  | None => false
  end.
Definition desktopDriftReason (insp : inspected) (ws : string) : prog bool :=
  if token_drifted insp ws then Ret true
  else if decide (in_image insp = "") then Ret false
  else r <- ask (ImageInspect (p_image p)) ;;
       Ret (match r with inl id => negb (bool_decide (id = "")) && negb (bool_decide (id = in_image insp)) | inr _ => false end).

(** One look of the probe. *)
Definition crashed (r : inspected + string) : bool :=
  match r with
  | inl i => negb (in_running i) && negb (in_oom i) &&
             (bool_decide (in_status i ∈ ["exited"; "dead"]) || bool_decide (in_status i = "created") && negb (in_exit i =? 0))
  | inr _ => false
  end.
(** [looks] bounds the looks that fit into the window. *)
Fixpoint startedCrashed (looks : nat) (name : string) : prog bool :=
  match looks with
  | O => Ret false
  | S n => r <- ask (ContainerInspect name) ;;
           if crashed r then Ret true
           else go <- ask ProbeWait ;; if (go : bool) then startedCrashed n name else Ret false
  end.

Definition proxy_config (ws internalNet : string) : create_config :=
  CreateConfig (p_image p) [] ["/usr/bin/tini"; "--"; "/usr/local/bin/desktop-egress-proxy"] [] ["no-new-privileges"] ["ALL"] "no"
    proxyMemoryLimitBytes proxyMemoryLimitBytes 500 [(internalNet, DesktopProxyContainerName ws)].
Definition create_proxy (ws internalNet : string) : prog (option start_error) :=
  let proxyName := DesktopProxyContainerName ws in
  r <- ask (ContainerCreate proxyName (proxy_config ws internalNet)) ;;
  if hard never r then Ret (Some ProxyCreateFailed)
  else r <- ask (NetworkConnect egressNetworkName proxyName None) ;;
       if hard isAlreadyConnected r then Ret (Some ProxyAttachFailed)
       else r <- ask (ContainerStart proxyName) ;; Ret (if hard never r then Some ProxyStartFailed else None).
Definition ensureEgressProxy (ws internalNet : string) : prog (option start_error) :=
  let proxyName := DesktopProxyContainerName ws in
  r <- ask (ContainerInspect proxyName) ;;
  match r with
  | inl i => if in_running i then Ret None else _ <- ask (ContainerRemove proxyName true) ;; create_proxy ws internalNet
  | inr _ => create_proxy ws internalNet
  end.

Definition egressReconcileInterval : time := 30 * Second.
(** [last]: when the plumbing of each workspace was looked at. *)
Definition reconcileEgressBestEffort (ws net : string) (last : gmap string time) : prog (gmap string time) :=
  now <- ask Now ;;
  if some_and (last !! ws) (fun l => (now : time) - l <? egressReconcileInterval) then Ret last
  else _ <- ensureEgressProxy ws net ;;
       if decide (p_self p = "") then Ret (<[ws := (now : time)]> last)
       else _ <- ask (NetworkConnect net (p_self p) None) ;; Ret (<[ws := (now : time)]> last).

(** The network and the proxy a start needs. *)
Definition plumbing (ws : string) : prog (option start_error) :=
  let net := perWorkspaceNetwork ws in
  if decide (net = "") then Ret None
  else r <- ask (NetworkCreate net true) ;;
       if hard isNetworkExists r then Ret (Some NetworkCreateFailed) else ensureEgressProxy ws net.
Definition desktop_networks (ws : string) : list (string * string) :=
  let net := perWorkspaceNetwork ws in if decide (net = "") then [] else [(net, DesktopContainerName ws)].

(** A kept container gets the present memory and the new network. *)
Definition revive (ws : string) : prog (option start_error) :=
  let name := DesktopContainerName ws in
  let net := perWorkspaceNetwork ws in
  r <- (if 0 <? p_memory p then ask (ContainerUpdate name (p_memory p)) else Ret None) ;;
  if hard never r then Ret (Some MemoryFailed)
  else if decide (net = "") then Ret None
  else r <- ask (NetworkConnect net name (Some name)) ;; Ret (if hard isAlreadyConnected r then Some AttachFailed else None).

(** Recreates a kept container that exits at once. *)
Definition self_heal (looks : nat) (ws : string) : prog (option start_error) :=
  let name := DesktopContainerName ws in
  bad <- startedCrashed looks name ;;
  if negb bad then Ret None
  else r <- ask (ContainerRemove name true) ;;
       if hard isNoSuchContainer r then Ret (Some HealRemoveFailed)
       else e <- ensureImage ;;
            match e with
            | Some err => Ret (Some err)
            | None => e <- createDesktopContainer ws (desktop_networks ws) ;;
                      match e with
                      | Some err => Ret (Some err)
                      | None => r <- ask (ContainerStart name) ;; Ret (if hard never r then Some RestartFailed else None)
                      end
            end.

Definition attach_platform (ws : string) : prog (option start_error) :=
  let net := perWorkspaceNetwork ws in
  if decide (net = "" \/ p_self p = "") then Ret None
  else r <- ask (NetworkConnect net (p_self p) None) ;; Ret (if hard isAlreadyConnected r then Some PlatformAttachFailed else None).

(** Steps that end at the first error. *)
Definition next (e : option start_error) (q : prog (option start_error)) : prog (option start_error) :=
  match e with Some err => Ret (Some err) | None => q end.

(** The container is gone or stopped: [exists_] says which. *)
Definition bring_up (looks : nat) (ws : string) (exists_ : bool) : prog (DesktopHandle + start_error) :=
  let name := DesktopContainerName ws in
  e <- (if exists_ then Ret None else ensureImage) ;;
  e <- next e (plumbing ws) ;;
  e <- next e (if exists_ then revive ws else createDesktopContainer ws (desktop_networks ws)) ;;
  e <- next e (r <- ask (ContainerStart name) ;; Ret (if hard never r then Some StartFailed else None)) ;;
  e <- next e (if exists_ then self_heal looks ws else Ret None) ;;
  e <- next e (attach_platform ws) ;;
  Ret (match e with Some err => inr err | None => inl (handle ws true) end).

Definition StartDesktop (looks : nat) (ws : string) (last : gmap string time) : prog (gmap string time * (DesktopHandle + start_error)) :=
  let name := DesktopContainerName ws in
  r <- ask (ContainerInspect name) ;;
  match r with
  | inr e => if isNoSuchContainer e then r <- bring_up looks ws false ;; Ret (last, r) else Ret (last, inr InspectFailed)
  | inl i =>
      if in_running i then
        let net := perWorkspaceNetwork ws in
        last' <- (if decide (net = "") then Ret last else reconcileEgressBestEffort ws net last) ;; Ret (last', inl (handle ws false))
      else
        drift <- desktopDriftReason i ws ;;
        if (drift : bool) then
          r <- ask (ContainerRemove name true) ;;
          if hard isNoSuchContainer r then Ret (last, inr RemoveDriftedFailed) else r <- bring_up looks ws false ;; Ret (last, r)
        else r <- bring_up looks ws true ;; Ret (last, r)
  end.

Definition stopEgressProxy (ws : string) : prog unit :=
  _ <- ask (ContainerStop (DesktopProxyContainerName ws) stop_secs) ;;
  _ <- ask (ContainerRemove (DesktopProxyContainerName ws) true) ;; Ret tt.
Definition leave_network (net : string) : prog unit :=
  _ <- (if decide (p_self p = "") then Ret None else ask (NetworkDisconnect net (p_self p))) ;;
  _ <- ask (NetworkRemove net) ;; Ret tt.

(** Whether it failed. *)
Definition StopDesktop (ws : string) : prog bool :=
  let name := DesktopContainerName ws in
  let net := perWorkspaceNetwork ws in
  r <- ask (ContainerStop name stop_secs) ;;
  if hard isNoSuchContainer r then Ret true
  else _ <- stopEgressProxy ws ;;
       if decide (net = "") then Ret false
       else _ <- ask (NetworkDisconnect net name) ;; _ <- leave_network net ;; Ret false.

Definition DesktopRunning (ws : string) : prog (option bool) :=
  r <- ask (ContainerInspect (DesktopContainerName ws)) ;;
  Ret (match r with inl i => Some (in_running i) | inr e => if isNoSuchContainer e then Some false else None end).

Inductive wipe_error := WipeContainerFailed | WipeVolumeFailed | WipeUnavailable.
Definition WipeProfile (ws : string) : prog (option wipe_error) :=
  r <- ask (ContainerRemove (DesktopContainerName ws) true) ;;
  if hard isNoSuchContainer r then Ret (Some WipeContainerFailed)
  else r <- ask (VolumeRemove (DesktopProfileVolumeName ws)) ;;
       if hard isNoSuchVolume r then Ret (Some WipeVolumeFailed)
       else _ <- stopEgressProxy ws ;;
            let net := perWorkspaceNetwork ws in
            if decide (net = "") then Ret None else _ <- leave_network net ;; Ret None.

(** What CascadeDelete does about the desktop of a workspace; it looks at no error. *)
Definition cascade_delete_desktop (wired : bool) (ws : string) : prog unit :=
  if negb wired then Ret tt else _ <- StopDesktop ws ;; _ <- WipeProfile ws ;; Ret tt.
End Sidecar.

(** The unwired backend: every call that changes something reports that it is not there. *)
Definition unavailable_start (last : gmap string time) : prog (gmap string time * (DesktopHandle + start_error)) := Ret (last, inr BackendUnavailable).
Definition unavailable_running : prog (option bool) := Ret (Some false).
Definition unavailable_wipe : prog (option wipe_error) := Ret (Some WipeUnavailable).

(** ** Reasoning about programs of calls *)

(** A history of calls with their answers. *)
Definition event := {c : call & answer c}.
Definition ev (c : call) (r : answer c) : event := existT c r.

(** Every call [p] can make is allowed by what came before it, and it ends as [Q] says. *)
Fixpoint safe {A} (G : list event -> call -> Prop) (Q : list event -> A -> Prop) (h : list event) (p : prog A) : Prop :=
  match p with
  | Ret a => Q h a
  | Do c k => G h c /\ forall r, safe G Q (h ++ [ev c r]) (k r)
  end.

(** A run against a daemon that answers as it likes. *)
Fixpoint run {A} (env : list event -> forall c, answer c) (h : list event) (p : prog A) : list event * A :=
  match p with
  | Ret a => (h, a)
  | Do c k => let r := env h c in run env (h ++ [ev c r]) (k r)
  end.

Section Rules.
Context (G : list event -> call -> Prop).

Lemma safe_bind {A B} (Q : list event -> A -> Prop) (R : list event -> B -> Prop) h p f :
  safe G Q h p -> (forall h' a, Q h' a -> safe G R h' (f a)) -> safe G R h (bind p f).
Proof.
  intros Hp Hf. revert h Hp. induction p as [a|c k IH]; intros h Hp; cbn in *; [auto|]. destruct Hp as [Hc Hk]. split; [done|]. intros r. apply IH, Hk.
Qed.

Lemma safe_ask (Q : forall c, list event -> answer c -> Prop) c h : G h c -> (forall r, Q c (h ++ [ev c r]) r) -> safe G (Q c) h (ask c).
Proof. cbn. auto. Qed.

Lemma safe_weaken {A} (Q R : list event -> A -> Prop) h p : safe G Q h p -> (forall h' a, Q h' a -> R h' a) -> safe G R h p.
Proof. intros Hp HQ. revert h Hp. induction p as [a|c k IH]; intros h; cbn; [auto|]. intros [Hc Hk]. split; auto. Qed.

(** The rules are sound for every daemon. *)
Lemma safe_sound {A} (Q : list event -> A -> Prop) env h p :
  safe G Q h p ->
  Q (run env h p).1 (run env h p).2 /\
  exists t, (run env h p).1 = h ++ t /\ forall t1 e t2, t = t1 ++ e :: t2 -> G (h ++ t1) (projT1 e).
Proof.
  revert h. induction p as [a|c k IH]; intros h; cbn.
  - intros HQ. split; [done|]. exists []. split; [by rewrite app_nil_r|]. by intros [].
  - intros [Hc Hk]. destruct (IH _ _ (Hk (env h c))) as [HQ (t & Et & Ht)]. split; [done|].
    exists (ev c (env h c) :: t). split; [by rewrite Et, <- app_assoc|]. intros [|x t1] e t2 [= E1 E2].
    + rewrite app_nil_r. by rewrite <- E1.
    + specialize (Ht _ _ _ E2). rewrite <- app_assoc in Ht. by rewrite <- E1.
Qed.
End Rules.

(** ** What the operations ask for *)

Definition happened (h : list event) (P : event -> Prop) : Prop := Exists P h.
Lemma happened_app h t P : happened h P -> happened (h ++ t) P.
Proof. intros H. apply Exists_app. by left. Qed.
Lemma happened_last h e (P : event -> Prop) : P e -> happened (h ++ [e]) P.
Proof. intros He. apply Exists_app. right. by constructor. Qed.

(** The answers that count as done. *)
Definition network_made (net : string) (e : event) : Prop := exists r, e = ev (NetworkCreate net true) r /\ hard isNetworkExists r = false.
Definition proxy_up (ws : string) (e : event) : Prop :=
  (exists i, e = ev (ContainerInspect (DesktopProxyContainerName ws)) (inl i) /\ in_running i = true) \/
  e = ev (ContainerStart (DesktopProxyContainerName ws)) None.
Definition seen_stopped (name : string) (e : event) : Prop := exists i, e = ev (ContainerInspect name) (inl i) /\ in_running i = false.
Definition stopped_for_good (name : string) (e : event) : Prop := exists secs r, e = ev (ContainerStop name secs) r /\ hard isNoSuchContainer r = false.

Section Claims.
Context (hmac : string -> string -> string) (p : provisioner) (ws : string).
Abbreviation desktop := (DesktopContainerName ws).
Abbreviation proxy := (DesktopProxyContainerName ws).
Abbreviation net := (perWorkspaceNetwork p ws).

(** What a start may ask: the desktop is created on its inner network alone, with the
    profile and the token of its workspace, and is connected to nothing else; the network is
    created without a way out, before the container and before it is started, and the proxy
    is up by then; no volume is removed, and the container only when it has been seen not
    running; nobody else's containers are touched. *)
Definition start_allowed (h : list event) (c : call) : Prop :=
  match c with
  | ContainerCreate n cfg =>
      (n = desktop /\ cc_networks cfg = [(net, desktop)] /\ cc_binds cfg = [DesktopProfileVolumeName ws +:+ ":/home/desktop/profile"] /\
       ("DESKTOP_CONTROL_TOKEN=" +:+ DeriveDesktopControlToken hmac (p_token_secret p) ws) ∈ cc_env cfg /\ happened h (network_made net)) \/
      (n = proxy /\ cc_networks cfg = [(net, proxy)] /\ cc_binds cfg = [] /\ cc_cap_drop cfg = ["ALL"])
  | ContainerStart n => (n = desktop /\ happened h (network_made net) /\ happened h (proxy_up ws)) \/ n = proxy
  | ContainerRemove n _ => (n = desktop /\ happened h (seen_stopped desktop)) \/ n = proxy
  | ContainerStop _ _ | VolumeRemove _ | NetworkRemove _ | NetworkDisconnect _ _ => False
  | ContainerUpdate n _ => n = desktop /\ happened h (seen_stopped desktop)
  | NetworkCreate n internal => n = net /\ internal = true
  | NetworkConnect n x _ => (x = desktop /\ n = net) \/ (x = proxy /\ n = egressNetworkName p) \/ (x = p_self p /\ n = net)
  | VolumeCreate n => n = DesktopProfileVolumeName ws
  | _ => True
  end.

Definition later (h : list event) (h' : list event) : Prop := exists t, h' = h ++ t.
Lemma later_refl h : later h h.
Proof. exists []. by rewrite app_nil_r. Qed.
Lemma later_snoc h h' e : later h h' -> later h (h' ++ [e]).
Proof. intros [t ->]. exists (t ++ [e]). by rewrite app_assoc. Qed.
Lemma later_happened h h' P : later h h' -> happened h P -> happened h' P.
Proof. intros [t ->]. apply happened_app. Qed.
Lemma later_trans h1 h2 h3 : later h1 h2 -> later h2 h3 -> later h1 h3.
Proof. intros [t ->] [u ->]. exists (t ++ u). by rewrite app_assoc. Qed.

Context (Hnet : net <> "").
Abbreviation ok := (safe start_allowed).
Abbreviation kept h := (fun h' (e : option start_error) => later h h').

Ltac calls := cbn [ask bind safe start_allowed].
Ltac known := eauto using later_happened, later_refl, later_snoc, happened_last.

Lemma ensureImage_allowed h : ok (kept h) h (ensureImage p).
Proof.
  unfold ensureImage. calls. split; [done|]. intros [i|e]; calls; [known|]. destruct (negb _); calls; [known|]. split; [done|].
  intros [e'|]; calls; [known|]. split; [done|]. intros r. calls. known.
Qed.

Lemma create_proxy_allowed h : ok (fun h' e => later h h' /\ (e = None -> happened h' (proxy_up ws))) h (create_proxy p ws net).
Proof.
  unfold create_proxy. calls. split; [right; by split_and!|]. intros r. destruct (hard never r); calls; [split; [known|done]|].
  split; [cbn; auto|]. intros r'. destruct (hard _ r'); calls; [split; [known|done]|]. split; [cbn; auto|]. intros r''. calls. split; [known|].
  destruct r'' as [e|]; cbn; [done|]. intros _. apply happened_last. by right.
Qed.

Lemma ensureEgressProxy_allowed h : ok (fun h' e => later h h' /\ (e = None -> happened h' (proxy_up ws))) h (ensureEgressProxy p ws net).
Proof.
  unfold ensureEgressProxy. calls. split; [done|]. intros [i|e]; [destruct (in_running i) eqn:Ei|]; calls.
  - split; [known|]. intros _. apply happened_last. left. eauto.
  - split; [cbn; auto|]. intros r. calls. eapply safe_weaken; [apply create_proxy_allowed|]. intros h' a [Hl Ha]. split; [|done].
    eapply later_trans; [|exact Hl]. known.
  - eapply safe_weaken; [apply create_proxy_allowed|]. intros h' a [Hl Ha]. split; [|done]. eapply later_trans; [|exact Hl]. known.
Qed.

Lemma plumbing_allowed h :
  ok (fun h' e => later h h' /\ (e = None -> happened h' (network_made net) /\ happened h' (proxy_up ws))) h (plumbing p ws).
Proof.
  unfold plumbing. rewrite decide_False by done. calls. split; [done|]. intros r. destruct (hard _ r) eqn:Er; calls; [split; [known|done]|].
  eapply safe_weaken; [apply ensureEgressProxy_allowed|]. intros h' a [Hl Ha]. split; [eapply later_trans; [|exact Hl]; known|].
  intros ->. split; [|auto]. eapply later_happened; [exact Hl|]. apply happened_last. by exists r.
Qed.

Lemma reconcile_allowed h last : ok (fun _ _ => True) h (reconcileEgressBestEffort p ws net last).
Proof.
  unfold reconcileEgressBestEffort. calls. split; [done|]. intros now. destruct (some_and _ _); calls; [done|].
  eapply safe_bind; [apply ensureEgressProxy_allowed|]. intros h' e _. cbn beta. destruct (decide _); calls; [done|]. split; [cbn; auto|]. done.
Qed.

Lemma create_allowed h : happened h (network_made net) -> ok (kept h) h (createDesktopContainer hmac p ws (desktop_networks p ws)).
Proof.
  intros Hn. unfold createDesktopContainer, desktop_networks. rewrite decide_False by done. calls. split; [done|]. intros [e|]; calls; [known|]. split.
  - left. split_and!; try done; [|by apply happened_app]. cbn [cc_env desktop_config]. unfold desktop_env. constructor.
  - intros r. calls. known.
Qed.

Lemma revive_allowed h : happened h (seen_stopped desktop) -> ok (kept h) h (revive p ws).
Proof.
  intros Hs. unfold revive. destruct (0 <? p_memory p); calls.
  - split; [done|]. intros r. destruct (hard never r); calls; [known|]. rewrite decide_False by done. calls. split; [cbn; auto|]. intros r'. calls. known.
  - rewrite decide_False by done. calls. split; [cbn; auto|]. intros r'. calls. known.
Qed.

Lemma startedCrashed_allowed looks h :
  ok (fun h' bad => later h h' /\ (bad = true -> happened h' (seen_stopped desktop))) h (startedCrashed looks desktop).
Proof.
  revert h. induction looks as [|n IH]; intros h; cbn [startedCrashed]; calls; [split; [known|done]|]. split; [done|]. intros r.
  destruct (crashed r) eqn:Ec; calls.
  - split; [known|]. intros _. apply happened_last. destruct r as [i|]; [|done]. exists i. split; [done|]. unfold crashed in Ec. by destruct (in_running i).
  - split; [done|]. intros []; calls; [|split; [known|done]]. eapply safe_weaken; [apply IH|]. intros h' bad [Hl Hb]. split; [|done].
    eapply later_trans; [|exact Hl]. known.
Qed.

Definition ready (h : list event) : Prop := happened h (network_made net) /\ happened h (proxy_up ws).

Lemma ready_later h h' : later h h' -> ready h -> ready h'.
Proof. intros Hl [? ?]. split; by eapply later_happened. Qed.

Lemma start_call_allowed h err : ready h -> ok (kept h) h (r <- ask (ContainerStart desktop) ;; Ret (if hard never r then Some err else None)).
Proof. intros [Hn Hp]. calls. split; [cbn; auto|]. intros r. calls. known. Qed.

Lemma self_heal_allowed looks h : ready h -> ok (kept h) h (self_heal hmac p looks ws).
Proof.
  intros Hr. unfold self_heal. eapply safe_bind; [apply startedCrashed_allowed|]. intros h1 bad [Hl Hb]. cbn beta. destruct bad; calls; [|done].
  split; [left; split; [done|auto]|]. intros r. destruct (hard _ r); calls; [known|].
  assert (Hl1 : later h (h1 ++ [ev (ContainerRemove desktop true) r])) by known. revert Hl1. generalize (h1 ++ [ev (ContainerRemove desktop true) r]). intros h2 Hl2.
  eapply safe_bind; [apply ensureImage_allowed|]. intros h3 [e|] Hl3; cbn in Hl3; cbn beta iota; calls; [by eapply later_trans|].
  assert (Hr3 : ready h3) by (eapply ready_later; [|exact Hr]; by eapply later_trans).
  eapply safe_bind; [apply create_allowed, Hr3|]. intros h4 [e|] Hl4; cbn in Hl4; cbn beta iota; calls; [by eauto using later_trans|].
  destruct (ready_later h3 h4 Hl4 Hr3) as [Hn Hp]. split; [auto|]. intros r'. apply later_snoc. eauto using later_trans.
Qed.

Lemma attach_allowed h : ok (kept h) h (attach_platform p ws).
Proof. unfold attach_platform. destruct (decide _); calls; [known|]. split; [cbn; auto|]. intros r. calls. known. Qed.

(** One step of [bring_up]: what holds is kept, and what the step gives is added. *)
Lemma next_allowed (I J : list event -> Prop) h e q :
  (e = None -> I h) -> (I h -> ok (fun h' e' => later h h' /\ (e' = None -> J h')) h q) ->
  ok (fun h' e' => later h h' /\ (e' = None -> J h')) h (next e q).
Proof. intros HI Hq. destruct e; cbn [next]; [|auto]. calls. split; [known|done]. Qed.

Lemma kept_gives (J : list event -> Prop) h q : (forall h', later h h' -> J h') -> ok (kept h) h q -> ok (fun h' e' => later h h' /\ (e' = None -> J h')) h q.
Proof. intros HJ Hq. eapply safe_weaken; [exact Hq|]. cbn. auto. Qed.

Lemma bring_up_allowed looks exists_ h :
  (exists_ = true -> happened h (seen_stopped desktop)) ->
  ok (fun _ r => forall x, r = inl x -> x = handle p ws true) h (bring_up hmac p looks ws exists_).
Proof.
  intros Hs. unfold bring_up. set (S h' := exists_ = true -> happened h' (seen_stopped desktop)).
  assert (HS : forall h1 h2, later h1 h2 -> S h1 -> S h2) by (unfold S; eauto using later_happened).
  set (R h' := S h' /\ ready h'). assert (HR : forall h1 h2, later h1 h2 -> R h1 -> R h2) by (unfold R; intros h1 h2 Hl []; eauto using ready_later).
  eapply (safe_bind _ (fun h' e => later h h' /\ (e = None -> S h'))).
  { apply kept_gives; [eauto|]. destruct exists_; [calls; known|apply ensureImage_allowed]. }
  intros h1 e1 [Hl1 He1]. eapply (safe_bind _ (fun h' e => later h1 h' /\ (e = None -> R h'))).
  { apply (next_allowed S R); [done|]. intros HS1. eapply safe_weaken; [apply plumbing_allowed|]. intros h' e [Hl He]. split; [done|]. intros Hn. split; [eauto|]. by apply He. }
  intros h2 e2 [Hl2 He2]. eapply (safe_bind _ (fun h' e => later h2 h' /\ (e = None -> R h'))).
  { apply (next_allowed R R); [done|]. intros HR2. apply kept_gives; [eauto|]. destruct HR2 as [HS2 [Hn2 Hp2]]. destruct exists_; [apply revive_allowed; auto|by apply create_allowed]. }
  intros h3 e3 [Hl3 He3]. eapply (safe_bind _ (fun h' e => later h3 h' /\ (e = None -> R h'))).
  { apply (next_allowed R R); [done|]. intros HR3. apply kept_gives; [eauto|]. apply start_call_allowed, HR3. }
  intros h4 e4 [Hl4 He4]. eapply (safe_bind _ (fun h' e => later h4 h' /\ (e = None -> R h'))).
  { apply (next_allowed R R); [done|]. intros HR4. apply kept_gives; [eauto|]. destruct exists_; [apply self_heal_allowed, HR4|calls; known]. }
  intros h5 e5 [Hl5 He5]. eapply (safe_bind _ (fun h' e => later h5 h' /\ (e = None -> R h'))).
  { apply (next_allowed R R); [done|]. intros HR5. apply kept_gives; [eauto|]. apply attach_allowed. }
  intros h6 e6 _. calls. destruct e6; [done|]. by intros x [= <-].
Qed.

(** A handle is for the sidecar of the workspace: of one this call has started, or of one
    that was up at the first look. *)
Definition earned (h : list event) (r : DesktopHandle + start_error) : Prop :=
  forall x, r = inl x -> x = handle p ws true \/ x = handle p ws false /\ exists i rest, h = ev (ContainerInspect desktop) (inl i) :: rest /\ in_running i = true.

Lemma StartDesktop_allowed looks last : ok (fun h r => earned h r.2) [] (StartDesktop hmac p looks ws last).
Proof.
  assert (Hup : forall h b, (b = true -> happened h (seen_stopped desktop)) -> ok (fun h r => earned h r.2) h (r <- bring_up hmac p looks ws b ;; Ret (last, r))).
  { intros h b Hb. eapply safe_bind; [by apply bring_up_allowed|]. intros h' r Hr. cbn [safe]. intros x Hx. left. exact (Hr x Hx). }
  unfold StartDesktop. calls. split; [done|]. cbn [app]. intros [i|e].
  - destruct (in_running i) eqn:Ei.
    + rewrite decide_False by done. eapply safe_bind with (Q := fun h' _ => exists rest, h' = ev (ContainerInspect desktop) (inl i) :: rest).
      * unfold reconcileEgressBestEffort. calls. split; [done|]. intros now. destruct (some_and _ _); calls; [by eexists|].
        eapply safe_bind; [apply ensureEgressProxy_allowed|]. intros h' e [[t ->] _]. cbn beta. destruct (decide _); calls; [by eexists|]. split; [cbn; auto|]. intros r. by eexists.
      * intros h' a [rest ->]. cbn [safe]. intros x [= <-]. right. split; [done|]. by exists i, rest.
    + assert (Hs : happened [ev (ContainerInspect desktop) (inl i)] (seen_stopped desktop)) by (constructor; by exists i).
      eapply safe_bind with (Q := fun h' _ => later [ev (ContainerInspect desktop) (inl i)] h').
      * unfold desktopDriftReason. destruct (token_drifted _ _ _ _); calls; [known|]. destruct (decide _); calls; [known|]. split; [done|]. intros r. known.
      * intros h' [] Hl; [|apply Hup; intros _; by eapply later_happened]. calls. split; [left; split; [done|]; by eapply later_happened|].
        intros r. destruct (hard _ r); [by intros x|]. by apply Hup.
  - destruct (isNoSuchContainer e); [by apply Hup|]. by intros x.
Qed.

(** What a stop may ask: nothing of the desktop but to stop, and the network and the proxy go
    only once it has stopped. *)
Definition stop_allowed (h : list event) (c : call) : Prop :=
  match c with
  | ContainerStop n _ => n = desktop \/ n = proxy /\ happened h (stopped_for_good desktop)
  | ContainerRemove n _ => n = proxy /\ happened h (stopped_for_good desktop)
  | NetworkDisconnect n _ | NetworkRemove n => n = net /\ happened h (stopped_for_good desktop)
  | _ => False
  end.

Lemma StopDesktop_allowed : safe stop_allowed (fun h failed => failed = false <-> happened h (stopped_for_good desktop)) [] (StopDesktop p ws).
Proof.
  unfold StopDesktop. cbn [ask bind safe app]. split; [cbn; auto|]. intros r. set (e := ev (ContainerStop desktop (stop_secs p)) r). destruct (hard isNoSuchContainer r) eqn:Er.
  - cbn [safe]. split; [done|]. intros Hh. apply Exists_cons in Hh as [(secs & r' & E & Hr)|Hh]; [|by inversion Hh].
    exfalso. unfold e in E. apply (f_equal (fun x : event => match x with existT (ContainerStop _ _) r => hard isNoSuchContainer r | _ => false end)) in E. cbn in E. congruence.
  - assert (Hs : forall t, happened (e :: t) (stopped_for_good desktop)) by (intros t; constructor; by exists (stop_secs p), r).
    rewrite decide_False by done. unfold stopEgressProxy, leave_network. cbn [ask bind safe app stop_allowed].
    split; [auto|]. intros r1. split; [auto|]. intros r2. split; [auto|]. intros r3. destruct (decide _); cbn [ask bind safe app stop_allowed].
    + split; [auto|]. intros r4. cbn. split; auto.
    + split; [auto|]. intros r4. split; [auto|]. intros r5. cbn. split; auto.
Qed.

(** What a wipe may ask: the profile goes after its container. *)
Definition wipe_allowed (h : list event) (c : call) : Prop :=
  match c with
  | ContainerRemove n _ => n = desktop \/ n = proxy
  | VolumeRemove n => n = DesktopProfileVolumeName ws /\ exists r, h = [ev (ContainerRemove desktop true) r] /\ hard isNoSuchContainer r = false
  | ContainerStop n _ => n = proxy
  | NetworkDisconnect n x => n = net /\ x = p_self p
  | NetworkRemove n => n = net
  | _ => False
  end.
Definition profile_gone (e : event) : Prop := exists r, e = ev (VolumeRemove (DesktopProfileVolumeName ws)) r /\ hard isNoSuchVolume r = false.

Lemma WipeProfile_allowed : safe wipe_allowed (fun h e => e = None -> happened h profile_gone) [] (WipeProfile p ws).
Proof.
  unfold WipeProfile. cbn [ask bind safe app wipe_allowed]. split; [auto|]. intros r. destruct (hard _ r) eqn:Er; cbn [ask bind safe app wipe_allowed]; [done|].
  split; [eauto|]. intros r1. destruct (hard _ r1) eqn:Er1; cbn [safe]; [done|]. rewrite decide_False by done. unfold stopEgressProxy, leave_network.
  cbn [ask bind safe app wipe_allowed]. split; [done|]. intros r2. split; [auto|]. intros r3.
  assert (Hh : forall e1 t, happened (e1 :: ev (VolumeRemove (DesktopProfileVolumeName ws)) r1 :: t) profile_gone).
  { intros e1 t. apply Exists_cons. right. apply Exists_cons. left. by exists r1. }
  destruct (decide _); cbn [ask bind safe app wipe_allowed].
  - split; [done|]. intros r4 _. apply Hh.
  - split; [done|]. intros r4. split; [done|]. intros r5 _. apply Hh.
Qed.
End Claims.

Definition prefixed (p : provisioner) : Prop := p_network_prefix p <> "".
Lemma prefixed_net p ws : prefixed p -> perWorkspaceNetwork p ws <> "".
Proof. intros Hp. unfold perWorkspaceNetwork. rewrite decide_False by done. by destruct (p_network_prefix p). Qed.

(** Every call of a run is allowed by the calls before it. *)
Definition obeys {A} (G : list event -> call -> Prop) (env : list event -> forall c, answer c) (q : prog A) : Prop :=
  forall t1 e t2, (run env [] q).1 = t1 ++ e :: t2 -> G t1 (projT1 e).

(** C38: The desktop of a workspace stays on its own network.  Whatever Docker answers: a
    start creates it on the inner network of the workspace and on nothing else, with that
    workspace's profile and token, connects it to nothing else, makes the network without a
    way out first, and starts it only with the proxy up; it changes no other
    container.  A start and a stop remove no profile, and the container goes
    only after it was seen not running; a stop takes the proxy and the network away only from
    a desktop that has stopped.  A wipe that succeeds has removed the profile, after the
    container.  A handle that is returned is that of the workspace. *)
Theorem desktop_is_contained hmac p ws looks last env (Hp : prefixed p) :
  obeys (start_allowed hmac p ws) env (StartDesktop hmac p looks ws last) /\
  earned p ws (run env [] (StartDesktop hmac p looks ws last)).1 (run env [] (StartDesktop hmac p looks ws last)).2.2 /\
  obeys (stop_allowed p ws) env (StopDesktop p ws) /\
  ((run env [] (StopDesktop p ws)).2 = false <-> happened (run env [] (StopDesktop p ws)).1 (stopped_for_good (DesktopContainerName ws))) /\
  obeys (wipe_allowed p ws) env (WipeProfile p ws) /\
  ((run env [] (WipeProfile p ws)).2 = None -> happened (run env [] (WipeProfile p ws)).1 (profile_gone ws)).
Proof.
  pose proof (prefixed_net p ws Hp) as Hn.
  assert (Hsound : forall A G (Q : list event -> A -> Prop) q, safe G Q [] q -> Q (run env [] q).1 (run env [] q).2 /\ obeys G env q).
  { intros A G Q q Hq. destruct (safe_sound G Q env [] q Hq) as [HQ (t & Et & Ht)]. split; [done|]. intros t1 e t2 E. rewrite E in Et. by apply (Ht t1 e t2). }
  destruct (Hsound _ _ _ _ (StartDesktop_allowed hmac p ws Hn looks last)). destruct (Hsound _ _ _ _ (StopDesktop_allowed p ws Hn)). destruct (Hsound _ _ _ _ (WipeProfile_allowed p ws Hn)).
  auto 10.
Qed.

Lemma str_cut_None_app sep a b : str_cut sep a = None -> str_cut sep b = None -> str_cut sep (a +:+ b) = None.
Proof.
  intros Ha Hb. induction a as [|x a IH]; [done|]. rewrite str_app_cons. cbn in *. case_decide; [done|].
  destruct (str_cut sep a) as [[]|]; [done|]. by rewrite IH.
Qed.

(** The shape the gateway insists on is the shape of the names that are given out. *)
Lemma ValidateSidecarTarget_own ws port : IsWellFormedWorkspaceID ws = true -> port ∈ ["6070"; "6080"] ->
  ValidateSidecarTarget (DesktopContainerName ws +:+ String colon port) = None.
Proof.
  intros Hw Hport. assert (Hc : forall s, all_chars hex_or_dash s = true -> str_cut colon s = None).
  { induction s as [|a s IH]; cbn; [done|]. intros [Ha Hs]%andb_true_iff. rewrite decide_False by (intros ->; discriminate). by rewrite IH. }
  unfold IsWellFormedWorkspaceID in Hw. apply andb_true_iff in Hw as [Hne Hall]. unfold ValidateSidecarTarget.
  assert (Hn : str_cut colon (DesktopContainerName ws) = None) by (by apply (str_cut_None_app colon "wsdesk-"), Hc). rewrite str_cut_app by done. rewrite decide_False by (intros ->; set_solver).
  rewrite (bool_decide_true _ Hport). cbn [negb]. apply negb_true_iff, bool_decide_eq_false in Hne.
  assert (Hid : WorkspaceIDFromDesktopName (DesktopContainerName ws) = ws).
  { unfold WorkspaceIDFromDesktopName, DesktopContainerName. rewrite has_prefix_app. exact (str_drop_app "wsdesk-" ws). }
  rewrite Hid, decide_False by done.
  unfold IsWellFormedWorkspaceID. by rewrite Hall, (bool_decide_false _ Hne).
Qed.

(** And no other host has it. *)
Lemma ValidateSidecarTarget_only host : ValidateSidecarTarget host = None ->
  exists ws port, host = (DesktopContainerName ws +:+ String colon port) /\ IsWellFormedWorkspaceID ws = true /\ port ∈ ["6070"; "6080"].
Proof.
  unfold ValidateSidecarTarget. destruct (str_cut colon host) as [[hn port]|] eqn:E; [|done]. destruct (decide _); [done|].
  destruct (bool_decide (port ∈ _)) eqn:Ep; [|done]. cbn [negb]. destruct (decide _); [done|]. destruct (IsWellFormedWorkspaceID _) eqn:Ew; [|done]. intros _.
  apply str_cut_Some in E as [-> _]. apply bool_decide_eq_true in Ep. exists (WorkspaceIDFromDesktopName hn), port. split; [|done].
  f_equal. unfold WorkspaceIDFromDesktopName, DesktopContainerName in *. destruct (has_prefix hn "wsdesk-") eqn:Eh; [|done].
  exact (has_prefix_split _ _ Eh).
Qed.

Module SidecarDemo.
Definition hmac (k s : string) : string := k +:+ s.
Definition demo : provisioner := Provisioner "desktop:1" "wsnet" 6070 (10 * Second) (2 * 2 ^ 30) "{}" "secret" "platform" "".
(** A daemon on which nothing is there yet and every call succeeds. *)
Definition fresh (h : list event) (c : call) : answer c :=
  match c with
  | ContainerInspect _ => inr "No such container"
  | ImageInspect _ => inl "sha256:1"
  | Now => 0
  | ProbeWait => false
  | _ => None
  end.
Definition start (env : list event -> forall c, answer c) := run env [] (StartDesktop hmac demo 3 "a1" ∅).

Definition first_found (h : list event) : bool :=
  match h with existT (ContainerInspect _) (inl _) :: _ => true | _ => false end.

Lemma desktop_is_contained_witness : (start fresh).2.2 = inl (Handle "wsdesk-a1:6070" true true).
Proof.
  assert (Hp : prefixed demo) by discriminate.
  destruct (desktop_is_contained hmac demo "a1" 3 ∅ fresh Hp) as (_ & He & _). destruct ((start fresh).2.2) as [x|] eqn:E; [|vm_compute in E; discriminate].
  destruct (He x E) as [->|(_ & i & rest & Hr & _)]; [reflexivity|].
  assert (Hf : first_found (start fresh).1 = false) by (vm_compute; reflexivity). unfold start in Hf. rewrite Hr in Hf. discriminate.
Defined.

(** A start that fails at its last call leaves the desktop running; the next one finds it
    and does not count as a start. *)
Definition platform_detached (h : list event) (c : call) : answer c :=
  match c with
  | ContainerInspect n =>
      if existsb (fun e : event => match projT1 e with ContainerStart m => bool_decide (m = n) | _ => false end) h
      then inl (Inspected true false "running" 0 None "") else inr "No such container"
  | ImageInspect _ => inl "sha256:1"
  | Now => 0
  | ProbeWait => false
  | NetworkConnect _ "platform" _ => Some "daemon busy"
  | _ => None
  end.
Example failed_start_leaves_it_running :
  let first := start platform_detached in
  first.2.2 = inr PlatformAttachFailed /\
  (run platform_detached first.1 (StartDesktop hmac demo 3 "a1" ∅)).2.2 = inl (Handle "wsdesk-a1:6070" true false).
Proof. vm_compute. auto. Qed.

(** A delete of the workspace goes on when its desktop cannot be removed, and never asks for
    the profile then; no sweep looks for what is left. *)
Definition stuck (h : list event) (c : call) : answer c :=
  match c with
  | ContainerInspect _ => inr "No such container" | ImageInspect _ => inl "" | Now => 0 | ProbeWait => false
  | ContainerRemove _ _ => Some "removal already in progress"
  | _ => None
  end.
Example failed_wipe_keeps_the_profile :
  Forall (fun e : event => projT1 e <> VolumeRemove (DesktopProfileVolumeName "a1")) (run stuck [] (cascade_delete_desktop demo true "a1")).1 /\
  (run stuck [] (WipeProfile demo "a1")).2 = Some WipeContainerFailed.
Proof. split; [|vm_compute; reflexivity]. vm_compute. repeat constructor; intros E; discriminate. Qed.

Example target_examples :
  ValidateSidecarTarget "wsdesk-0a1b:6070" = None /\ ValidateSidecarTarget "169.254.169.254:80" = Some DisallowedPort /\
  ValidateSidecarTarget "wsdesk-evil.example:6080" = Some MalformedID /\ ValidateSidecarTarget "ws-0a1b:6080" = Some NotASidecar /\ ValidateSidecarTarget "wsdesk-0a1b" = Some MissingPort.
Proof. vm_compute. auto 10. Qed.
End SidecarDemo.
