(* ===== verification/Desktop.v ===== *)
(** * Who drives the desktop

    The lock of a display with its handlers and tokens (workspace_display_control.go,
    workspace_display_session.go), the routes of the agent (desktop_route.go), the gateway in
    front of the sidecar (internal/desktopgateway/gateway.go), and the store and the sweep of
    its lifecycle (desktop_lifecycle_store.go, desktop_idle_sweeper.go, desktop_lifecycle.go).
    A workspace is named by its uuid as Postgres prints it.  What the sidecar answers to a
    start, a stop or a request is an argument; DesktopSidecar is where it comes from. *)

From S2P Require Import Prelude Base64 AgentCard RateLimit Tokens OrgTokens JsonText DesktopSidecar.

Abbreviation dot := dot_char.
Definition pipe : Ascii.ascii := Ascii.ascii_of_nat 124.
Definition comma : Ascii.ascii := Ascii.ascii_of_nat 44.
(** strconv.FormatInt in base ten. *)
Definition format_int (n : Z) : string := if n <? 0 then "-" +:+ pad 1 (- n) else pad 1 n.
Definition unix (t : time) : Z := t / Second.
(** The zero time.Time, as an instant. *)
Definition zero_time : time := -62135596800 * Second.

(** ** State *)

Inductive controller := User | Agent.
#[global] Instance controller_eq_dec : EqDecision controller.
Proof. solve_decision. Defined.
Record lock := Lock { lk_controller : controller; lk_by : string; lk_expires : time }.

Record life := Life {
  lf_state : string; lf_agent : option time; lf_vnc : option time; lf_conns : Z;
  lf_lease : bool; lf_lease_expires : option time; lf_address : option string
}.
Definition new_life : life := Life "stopped" None None 0 false None None.

(** What the gateway has asked a sidecar to do. *)
Inductive forwarded := Shot (address : string) | Acted (address body : string).

Record desk := Desk {
  d_locks : gmap string lock; d_lifes : gmap string life; d_events : list (string * string);
  d_recorded : gset string; d_viewers : gmap string Z; d_sent : list (string * forwarded)
}.
Definition set_locks (l : gmap string lock) (s : desk) : desk := Desk l (d_lifes s) (d_events s) (d_recorded s) (d_viewers s) (d_sent s).
Definition set_life (ws : string) (f : life -> life) (s : desk) : desk :=
  Desk (d_locks s) (<[ws := f (default new_life (d_lifes s !! ws))]> (d_lifes s)) (d_events s) (d_recorded s) (d_viewers s) (d_sent s).
Definition set_recorded (r : gset string) (s : desk) : desk := Desk (d_locks s) (d_lifes s) (d_events s) r (d_viewers s) (d_sent s).
Definition set_viewers (v : gmap string Z) (s : desk) : desk := Desk (d_locks s) (d_lifes s) (d_events s) (d_recorded s) v (d_sent s).
Definition send (ws : string) (x : forwarded) (s : desk) : desk := Desk (d_locks s) (d_lifes s) (d_events s) (d_recorded s) (d_viewers s) (d_sent s ++ [(ws, x)]).
(** Best effort: an event that cannot be written is dropped. *)
Definition emitDisplayControlEvent (fails : bool) (ty ws : string) (s : desk) : desk :=
  if fails then s else Desk (d_locks s) (d_lifes s) (d_events s ++ [(ty, ws)]) (d_recorded s) (d_viewers s) (d_sent s).

(** ** The statements on the lock *)

Definition displayControlDefaultTTLSeconds : Z := 300.
Definition displayControlMinTTLSeconds : Z := 30.
Definition displayControlMaxTTLSeconds : Z := 3600.
Definition agentControlLeaseSeconds : Z := 300.

(** acquireDisplayControlQuery: the row it returns, [None] for none. *)
Definition acquire_lock (now : time) (ws : string) (c : controller) (by_ : string) (ttl : Z) (locks : gmap string lock) : option lock * gmap string lock :=
  let fresh := Lock c by_ (now + ttl * Second) in
  match locks !! ws with
  | None => (Some fresh, <[ws := fresh]> locks)
  | Some old =>
      if (lk_expires old <=? now) || bool_decide (lk_by old = by_) || bool_decide (lk_controller old = Agent) && bool_decide (c = User)
      then (Some fresh, <[ws := fresh]> locks) else (None, locks)
  end.

(** Whether the agent holds control after it; [None] for an error. *)
Definition AcquireAgentControl (fails : bool) (now : time) (ws : string) (s : desk) : desk * option bool :=
  if fails then (s, None)
  else let lease := Lock Agent "agent" (now + agentControlLeaseSeconds * Second) in
       match d_locks s !! ws with
       | None => (set_locks (<[ws := lease]> (d_locks s)) s, Some true)
       | Some old =>
           if bool_decide (lk_controller old = Agent) || (lk_expires old <=? now)
           then (set_locks (<[ws := lease]> (d_locks s)) s, Some true) else (s, Some false)
       end.
Definition AgentHoldsControl (fails : bool) (now : time) (ws : string) (s : desk) : option bool :=
  if fails then None else Some (some_and (d_locks s !! ws) (fun l => bool_decide (lk_controller l = Agent) && (now <? lk_expires l))).

Definition active (now : time) (ws : string) (s : desk) : option lock :=
  match d_locks s !! ws with Some l => if now <? lk_expires l then Some l else None | None => None end.
Definition loadActiveDisplayControl (fails : bool) (now : time) (ws : string) (s : desk) : option (option lock) :=
  if fails then None else Some (active now ws s).
(** DELETE with or without the holder: the rows that went. *)
Definition release_lock (ws : string) (by_ : option string) (locks : gmap string lock) : Z * gmap string lock :=
  match locks !! ws with
  | Some l => if null_or by_ (fun b => bool_decide (lk_by l = b)) then (1, delete ws locks) else (0, locks)
  | None => (0, locks)
  end.

(** ** Who asks *)

Definition displayControlIsAdminToken (ADMIN_TOKEN authorization : string) : bool :=
  negb (bool_decide (ADMIN_TOKEN = "")) && bool_decide (BearerTokenFromHeader authorization = ADMIN_TOKEN).
Definition displayControlActor (ADMIN_TOKEN authorization : string) (c : caller) : option string :=
  match c_org_token c with
  | Some (_, prefix) => if decide (prefix = "") then None else Some ("org-token:" +:+ prefix)
  | None => None
  end ∪ (match c_session c with Some (actor, _) => if decide (actor = "") then None else Some actor | None => None end)
    ∪ (if displayControlIsAdminToken ADMIN_TOKEN authorization then Some "admin-token" else None).

(** The body of a request: none, one that does not parse, or its fields. *)
Inductive body (A : Type) := NoBody | BadBody | Body (a : A).
Arguments NoBody {A}.
Arguments BadBody {A}.
Arguments Body {A} a.

(** ** Tokens *)

Section Desktop.
Context (hmac : string -> string -> string) (os : string -> string).

Definition DesktopSigningRoot : string :=
  if negb (bool_decide (os "DISPLAY_SESSION_SIGNING_SECRET" = "")) then os "DISPLAY_SESSION_SIGNING_SECRET"
  else match filter (fun v => v <> "") (map os ["SECRETS_ENCRYPTION_KEY"; "MOLECULE_CP_SHARED_SECRET"; "PROVISION_SHARED_SECRET"]) with
       | root :: _ => encode RawURLEncoding (hmac root "molecule-desktop-signing/v1")
       | [] => ""
       end.
Definition displaySessionSigningSecret : string := DesktopSigningRoot.
Definition deriveDisplayKey (ws : string) : option string :=
  if decide (DesktopSigningRoot = "" \/ ws = "") then None else Some (hmac DesktopSigningRoot ("molecule-display-token/v1|" +:+ ws)).

Definition control_payload (ws by_ : string) (expiresAt : time) : string := ws +:+ String pipe (by_ +:+ String pipe (format_int (unix expiresAt))).
Definition viewer_payload (ws : string) (expiresAt : time) : string := "view" +:+ String pipe (ws +:+ String pipe (format_int (unix expiresAt))).
Definition seal (key payload : string) : string := encode RawURLEncoding payload +:+ String dot (encode RawURLEncoding (hmac key payload)).

Definition signDisplaySessionToken (ws by_ : string) (expiresAt : time) : string :=
  match deriveDisplayKey ws with
  | Some key => if decide (by_ = "" \/ expiresAt = zero_time) then "" else seal key (control_payload ws by_ expiresAt)
  | None => ""
  end.
Definition validateDisplaySessionToken (now : time) (token ws by_ : string) (expiresAt : time) : bool :=
  match deriveDisplayKey ws, str_split dot token with
  | Some key, [p; sig] =>
      if decide (by_ = "" \/ expiresAt = zero_time) then false
      else if expiresAt <? now then false
      else match decode RawURLEncoding p with
           | Some payload =>
               bool_decide (payload = control_payload ws by_ expiresAt) &&
               match decode RawURLEncoding sig with Some m => bool_decide (m = hmac key payload) | None => false end
           | None => false
           end
  | _, _ => false
  end.

Definition displayViewerTTL : time := 300 * Second.
Definition signDisplayViewerToken (ws : string) (expiresAt : time) : string :=
  match deriveDisplayKey ws with
  | Some key => if decide (expiresAt = zero_time) then "" else seal key (viewer_payload ws expiresAt)
  | None => ""
  end.
Definition validateDisplayViewerToken (now : time) (token ws : string) : bool :=
  match deriveDisplayKey ws, str_split dot token with
  | Some key, [p; sig] =>
      match decode RawURLEncoding p, decode RawURLEncoding sig with
      | Some payload, Some m =>
          bool_decide (m = hmac key payload) &&
          match str_split pipe payload with
          | [kind; w; exp] =>
              bool_decide (kind = "view") && bool_decide (w = ws) &&
              match Atoi exp with Some e => now <=? e * Second | None => false end
          | _ => false
          end
      | _, _ => false
      end
  | _, _ => false
  end.

(** The token in the list of protocols a browser offers. *)
Definition displaySessionTokenFromRequest (protocols : string) : string :=
  let prefix := "molecule-display-token." in
  match filter (fun q => has_prefix q prefix = true) (map TrimSpace (str_split comma protocols)) with
  | q :: _ => str_drop (String.length prefix) q
  | [] => ""
  end.

(** ** The handlers of the lock *)

(** The answer of a handler: a status, and the lock and the tokens the body shows.  The urls
    around the tokens are left out. *)
Record reply := Reply { rp_status : Z; rp_lock : option lock; rp_token : string; rp_view : string }.
Definition status (n : Z) : reply := Reply n None "" "".

Definition DisplayControl (fails : bool) (now : time) (ws : string) (s : desk) : reply :=
  match loadActiveDisplayControl fails now ws s with
  | None => status 500
  | Some l => Reply 200 l "" (signDisplayViewerToken ws (now + displayViewerTTL))
  end.

(** [display]: the mode of the workspace's config, [DbOk None] when it is not valid. *)
Definition displayControlEnabled (display : dbres (option string)) (sidecar : bool) : option Z :=
  match display with
  | DbNoRows => Some 404
  | DbErr => Some 500
  | DbOk None => Some 500
  | DbOk (Some mode) => if bool_decide (mode = "" \/ mode = "none") && negb sidecar then Some 400 else None
  end.

(** What goes wrong in the database. *)
Record control_faults := CFaults { cf_statement : bool; cf_affected : bool; cf_load : bool; cf_event : string -> bool }.

Definition AcquireDisplayControl (f : control_faults) (now : time) (ws : string) (req : body (string * Z)) (display : dbres (option string)) (sidecar : bool)
    (actor : option string) (s : desk) : desk * reply :=
  let event ty s := emitDisplayControlEvent (cf_event f ty) ty ws s in
  match req with
  | BadBody => (s, status 400)
  | NoBody | Body _ =>
      let '(c, ttl) := match req with Body r => r | _ => ("", 0) end in
      let ttl := if ttl =? 0 then displayControlDefaultTTLSeconds else ttl in
      if negb (bool_decide (c = "" \/ c = "user")) then (s, status 400)
      else if (ttl <? displayControlMinTTLSeconds) || (displayControlMaxTTLSeconds <? ttl) then (s, status 400)
      else match displayControlEnabled display sidecar with
      | Some code => (s, status code)
      | None =>
          match actor with
          | None => (s, status 403)
          | Some by_ =>
              if decide (displaySessionSigningSecret = "") then (s, status 503)
              else
                let s := event "display.control.acquire.started" s in
                if cf_statement f then (event "display.control.acquire.failed" s, status 500)
                else match acquire_lock now ws User by_ ttl (d_locks s) with
                | (Some l, locks) =>
                    (event "display.control.acquire.completed" (set_locks locks s), Reply 200 (Some l) (signDisplaySessionToken ws (lk_by l) (lk_expires l)) "")
                | (None, _) =>
                    let s := event "display.control.acquire.failed" s in
                    match loadActiveDisplayControl (cf_load f) now ws s with
                    | None => (s, status 500)
                    | Some current => (s, Reply 409 current "" "")
                    end
                end
          end
      end
  end.

Definition release_parsed (f : control_faults) (now : time) (ws : string) (force adminToken : bool) (actor : option string) (s : desk) : desk * reply :=
  let event ty s := emitDisplayControlEvent (cf_event f ty) ty ws s in
  if force && negb adminToken then (s, status 403)
  else match actor with
  | None => (s, status 403)
  | Some by_ =>
      let s := event "display.control.release.started" s in
      if cf_statement f then (event "display.control.release.failed" s, status 500)
      else let '(n, locks) := release_lock ws (if force then None else Some by_) (d_locks s) in
           let s := set_locks locks s in
           if cf_affected f then (event "display.control.release.failed" s, status 500)
           else if negb (n =? 0) then (event "display.control.release.completed" s, status 200)
           else match loadActiveDisplayControl (cf_load f) now ws s with
           | None => (event "display.control.release.failed" s, status 500)
           | Some None => (event "display.control.release.completed" s, status 200)
           | Some (Some current) => (event "display.control.release.failed" s, Reply 409 (Some current) "" "")
           end
  end.
Definition ReleaseDisplayControl (f : control_faults) (now : time) (ws : string) (req : body bool) (adminToken : bool) (actor : option string) (s : desk) : desk * reply :=
  match req with
  | BadBody => (s, status 400)
  | NoBody => release_parsed f now ws false adminToken actor s
  | Body force => release_parsed f now ws force adminToken actor s
  end.

(** ** The lifecycle store *)

Definition RecordAgentActivity (fails : bool) (now : time) (ws : string) (s : desk) : desk :=
  if fails then s else set_life ws (fun l => Life (lf_state l) (Some now) (lf_vnc l) (lf_conns l) (lf_lease l) (lf_lease_expires l) (lf_address l)) s.
Definition SetVNCPresence (fails : bool) (ws : string) (connections : Z) (lastInput : time) (s : desk) : desk :=
  if fails then s else set_life ws (fun l => Life (lf_state l) (lf_agent l) (Some lastInput) connections (lf_lease l) (lf_lease_expires l) (lf_address l)) s.
Definition SetState (ws state sidecarAddress : string) (s : desk) : desk :=
  set_life ws (fun l => Life state (lf_agent l) (lf_vnc l) (lf_conns l) (lf_lease l) (lf_lease_expires l) (nullif_empty sidecarAddress)) s.

Record DesktopActivity := Activity { LastAgentActivity : option time; LastVNCInput : option time; VNCConnections : Z; AgentLeaseHeld : bool }.
Definition LoadActivity (now : time) (ws : string) (s : desk) : DesktopActivity :=
  match d_lifes s !! ws with
  | None => Activity None None 0 false
  | Some l => Activity (lf_agent l) (lf_vnc l) (lf_conns l) (lf_lease l && null_or (lf_lease_expires l) (fun e => now <? e))
  end.
Definition RunningDesktopWorkspaceIDs (s : desk) : list string := (filter (fun '(_, l) => lf_state l = "running") (map_to_list (d_lifes s))).*1.

(** A zero instant is after no cutoff. *)
Definition DesktopIsIdle (now : time) (a : DesktopActivity) (idleTimeout : time) : bool :=
  if idleTimeout <=? 0 then false
  else if AgentLeaseHeld a then false
  else if 0 <? VNCConnections a then false
  else let cutoff := now - idleTimeout in
       negb (some_and (LastAgentActivity a) (fun t => cutoff <? t)) && negb (some_and (LastVNCInput a) (fun t => cutoff <? t)).

(** [loads]: whose activity cannot be read; [stop]: whether the stop of a desktop fails, and
    whether the write that follows it does. *)
Definition teardown (stop : string -> bool * bool) (ws : string) (s : desk) : desk :=
  let '(stop_fails, write_fails) := stop ws in if stop_fails || write_fails then s else SetState ws "stopped" "" s.
Definition sweep_one (loads : string -> bool) (stop : string -> bool * bool) (now idleTimeout : time) (s : desk) (ws : string) : desk :=
  if loads ws then s else if DesktopIsIdle now (LoadActivity now ws s) idleTimeout then teardown stop ws s else s.
Definition Sweep (scan_fails : bool) (loads : string -> bool) (stop : string -> bool * bool) (now idleTimeout : time) (s : desk) : desk :=
  if scan_fails then s else fold_left (sweep_one loads stop now idleTimeout) (RunningDesktopWorkspaceIDs s) s.

(** ** The gateway *)

Inductive gw_error := HumanInControl | InvalidNavigateURL | BackendDown | GwFailed.

(** What a call of the gateway finds: what the sidecar answers to a start, which writes
    fail, the token of the sidecar, and the status its control server answers. *)
Record gw_env := GwEnv {
  ge_now : time; ge_start : DesktopHandle + start_error; ge_state_fails : bool; ge_activity_fails : bool; ge_lock_fails : bool;
  ge_request_fails : bool; ge_answer : option Z
}.

Definition EnsureRunning (e : gw_env) (ws : string) (s : desk) : desk * (string + gw_error) :=
  match ge_start e with
  | inr BackendUnavailable => (s, inr BackendDown)
  | inr _ => (s, inr GwFailed)
  | inl h =>
      if decide (hd_address h = "") then (s, inr GwFailed)
      else match ValidateSidecarTarget (hd_address h) with
      | Some _ => (s, inr GwFailed)
      | None =>
          let s := if (hd_scaled_up h || negb (bool_decide (ws ∈ d_recorded s))) && negb (ge_state_fails e)
                   then set_recorded ({[ws]} ∪ d_recorded s) (SetState ws "running" (hd_address h) s) else s in
          (s, inl (hd_address h))
      end
  end.

(** The request itself, and whether the answer is [want]. *)
Definition forward (e : gw_env) (want : Z) (ws : string) (x : forwarded) (s : desk) : desk * option gw_error :=
  if ge_request_fails e then (s, Some GwFailed)
  else let s := send ws x s in
       (s, match ge_answer e with Some c => if c =? want then None else Some GwFailed | None => Some GwFailed end).


(** What an input does once the lock let it through. *)
Definition input_granted (e : gw_env) (ws action : string) (s : desk) : desk * option gw_error :=
  match EnsureRunning e ws s with
  | (s, inr err) => (s, Some err)
  | (s, inl addr) => forward e 204 ws (Acted addr action) (RecordAgentActivity (ge_activity_fails e) (ge_now e) ws s)
  end.
Definition Input (e : gw_env) (ws action : string) (s : desk) : desk * option gw_error :=
  match AcquireAgentControl (ge_lock_fails e) (ge_now e) ws s with
  | (s, None) => (s, Some GwFailed)
  | (s, Some false) => (s, Some HumanInControl)
  | (s, Some true) => input_granted e ws action s
  end.


(** The count is changed under the lock, and the mirror written after it. *)
Definition viewers_of (ws : string) (s : desk) : Z := default 0 (d_viewers s !! ws).
Definition count_connected (ws : string) (s : desk) : desk * Z :=
  let n := viewers_of ws s + 1 in (set_viewers (<[ws := n]> (d_viewers s)) s, n).
Definition count_disconnected (ws : string) (s : desk) : desk * Z :=
  let n := if 0 <? viewers_of ws s then viewers_of ws s - 1 else viewers_of ws s in
  (set_viewers (if n =? 0 then delete ws (d_viewers s) else <[ws := n]> (d_viewers s)) s, n).
Definition ViewerConnected (fails : bool) (now : time) (ws : string) (s : desk) : desk :=
  let '(s, n) := count_connected ws s in SetVNCPresence fails ws n now s.
Definition ViewerDisconnected (fails : bool) (now : time) (ws : string) (s : desk) : desk :=
  let '(s, n) := count_disconnected ws s in SetVNCPresence fails ws n now s.

(** ** The routes of the agent *)

Definition gw_status (r : option gw_error) (ok : Z) : Z :=
  match r with None => ok | Some BackendDown => 503 | Some HumanInControl => 409 | Some InvalidNavigateURL => 400 | Some GwFailed => 502 end.
Definition DesktopInput (wired : bool) (e : gw_env) (ws : string) (action : option string) (s : desk) : desk * Z :=
  if negb wired then (s, 503)
  else match action with
       | None => (s, 400)
       | Some a => let '(s, r) := Input e ws a s in (s, gw_status r 204)
       end.

(** ** The session of a viewer *)

(** What is proxied: the sidecar's noVNC or the tunnel of an instance, or a status. *)
Inductive session := Refused (code : Z) | ToSidecar (host : string) | ToInstance (instance : string).
(** [target]: the display mode and the instance of the workspace. *)
Definition DisplaySession (sidecar wired : bool) (e : gw_env) (load_fails : bool) (target : dbres (string * string)) (ws proxyPath protocols : string) (s : desk) : desk * session :=
  match target with
  | DbNoRows => (s, Refused 404)
  | DbErr => (s, Refused 500)
  | DbOk (mode, instance) =>
      if bool_decide (mode = "" \/ mode = "none") && negb sidecar then (s, Refused 404)
      else if negb sidecar && bool_decide (instance = "") then (s, Refused 503)
      else
        let s := if sidecar && wired then (EnsureRunning e ws s).1 else s in
        if negb (bool_decide (proxyPath = "/websockify")) then (s, Refused 404)
        else match loadActiveDisplayControl load_fails (ge_now e) ws s with
        | None => (s, Refused 500)
        | Some found =>
            let tok := displaySessionTokenFromRequest protocols in
            let controlOK := some_and found (fun l => validateDisplaySessionToken (ge_now e) tok ws (lk_by l) (lk_expires l)) in
            if negb controlOK && negb (validateDisplayViewerToken (ge_now e) tok ws) then (s, Refused 403)
            else
              let s := if sidecar && wired then ViewerConnected (ge_activity_fails e) (ge_now e) ws s else s in
              if sidecar then
                let host := DesktopContainerName ws +:+ ":6080" in
                match ValidateSidecarTarget host with
                | Some _ => (if wired then ViewerDisconnected (ge_activity_fails e) (ge_now e) ws s else s, Refused 502)
                | None => (s, ToSidecar host)
                end
              else (s, ToInstance instance)
        end
  end.

(** ** What each step does to the locks *)

Lemma locks_ensure e ws s : d_locks (EnsureRunning e ws s).1 = d_locks s.
Proof. unfold EnsureRunning. destruct (ge_start e) as [h|[]]; try done. destruct (decide _); [done|]. destruct (ValidateSidecarTarget _); [done|]. by destruct (_ && _). Qed.








(** ** What the tokens open *)




(** A text that is a payload under the signature of the workspace's key. *)
Definition signed_by (ws token payload : string) : Prop :=
  exists key p sig, deriveDisplayKey ws = Some key /\ token = (p +:+ String dot sig) /\ decode RawURLEncoding p = Some payload /\ decode RawURLEncoding sig = Some (hmac key payload).

Lemma control_token_signed now token ws by_ exp : validateDisplaySessionToken now token ws by_ exp = true -> signed_by ws token (control_payload ws by_ exp) /\ now <= exp.
Proof.
  unfold validateDisplaySessionToken. destruct (deriveDisplayKey ws) as [key|] eqn:Ek; [|done]. destruct (str_split dot token) as [|p [|sig [|]]] eqn:Es; try done.
  destruct (decide _); [done|]. destruct (exp <? now) eqn:Et; [done|]. destruct (decode RawURLEncoding p) as [payload|] eqn:Ep; [|done]. intros [H1 H2]%andb_true_iff. apply bool_decide_eq_true in H1 as ->.
  destruct (decode RawURLEncoding sig) as [m|] eqn:Em; [|done]. apply bool_decide_eq_true in H2 as ->. split; [|by apply Z.ltb_ge]. exists key, p, sig. split_and!; auto. by apply str_split_two.
Qed.

(** A viewer's payload: the word, the workspace and the second it ends. *)
Definition viewing (now : time) (ws payload : string) : Prop := exists exp e, str_split pipe payload = ["view"; ws; exp] /\ Atoi exp = Some e /\ now <= e * Second.

Lemma viewer_token_signed now token ws : validateDisplayViewerToken now token ws = true -> exists payload, signed_by ws token payload /\ viewing now ws payload.
Proof.
  unfold validateDisplayViewerToken. destruct (deriveDisplayKey ws) as [key|] eqn:Ek; [|done]. destruct (str_split dot token) as [|p [|sig [|]]] eqn:Es; try done.
  destruct (decode RawURLEncoding p) as [payload|] eqn:Ep; [|done]. destruct (decode RawURLEncoding sig) as [m|] eqn:Em; [|done]. intros [H1 H2]%andb_true_iff. apply bool_decide_eq_true in H1 as ->.
  destruct (str_split pipe payload) as [|kind [|w [|exp [|]]]] eqn:Ef; try done. destruct (Atoi exp) as [e|] eqn:Ee; [|by rewrite andb_false_r in H2].
  b2p. subst. exists payload. split; [exists key, p, sig; split_and!; auto; by apply str_split_two|]. by exists exp, e.
Qed.

(** C37: Who is connected to a screen showed a token.  A session is proxied only to the
    desktop or the instance of the workspace of the route, and only for a token that carries
    the signature of that workspace's key over the workspace, the holder and the end of the
    lock that is in force at that moment, or over the word view, the workspace and an end
    that has not come. *)
Theorem session_shows_a_token sidecar wired e load_fails target ws path protocols s s' host :
  DisplaySession sidecar wired e load_fails target ws path protocols s = (s', host) -> (forall code, host <> Refused code) ->
  ((exists mode, host = ToSidecar (DesktopContainerName ws +:+ ":6080") /\ ValidateSidecarTarget (DesktopContainerName ws +:+ ":6080") = None /\ sidecar = true /\ target = DbOk mode) \/
   (exists mode instance, host = ToInstance instance /\ instance <> "" /\ target = DbOk (mode, instance) /\ mode <> "" /\ mode <> "none")) /\
  exists payload, signed_by ws (displaySessionTokenFromRequest protocols) payload /\
    ((exists l, active (ge_now e) ws s = Some l /\ payload = control_payload ws (lk_by l) (lk_expires l)) \/ viewing (ge_now e) ws payload).
Proof.
  unfold DisplaySession. intros H Hok. destruct target as [[mode inst]| |]; [|injection H as _ <-; by destruct (Hok 404)|injection H as _ <-; by destruct (Hok 500)].
  destruct (bool_decide (mode = _ \/ _) && _) eqn:Emode; [injection H as _ <-; by destruct (Hok 404)|].
  destruct (negb sidecar && _) eqn:Einst; [injection H as _ <-; by destruct (Hok 503)|]. cbv zeta in H.
  assert (Hl : active (ge_now e) ws (if sidecar && wired then (EnsureRunning e ws s).1 else s) = active (ge_now e) ws s).
  { unfold active. destruct (sidecar && wired); [by rewrite locks_ensure|done]. }
  revert H Hl. generalize (if sidecar && wired then (EnsureRunning e ws s).1 else s). intros t H Hl.
  destruct (negb (bool_decide (path = _))); [injection H as _ <-; by destruct (Hok 404)|]. unfold loadActiveDisplayControl in H. destruct load_fails; [injection H as _ <-; by destruct (Hok 500)|].
  set (tok := displaySessionTokenFromRequest protocols) in *. destruct (some_and _ _) eqn:Ec; [|destruct (validateDisplayViewerToken _ _ _) eqn:Ev]; cbn [negb andb] in H.
  3: injection H as _ <-; by destruct (Hok 403).
  all: assert (Hhost : (exists m, host = ToSidecar (DesktopContainerName ws +:+ ":6080") /\ ValidateSidecarTarget (DesktopContainerName ws +:+ ":6080") = None /\ sidecar = true /\ DbOk (mode, inst) = DbOk m) \/
    (exists m i, host = ToInstance i /\ i <> "" /\ DbOk (mode, inst) = DbOk (m, i) /\ m <> "" /\ m <> "none")) by
    (destruct sidecar; cbn [negb andb] in *;
      [left; destruct (ValidateSidecarTarget _); injection H as _ <-; [by destruct (Hok 502)|by exists (mode, inst)]
      |right; injection H as _ <-; rewrite andb_true_r in Emode; apply bool_decide_eq_false in Emode; apply bool_decide_eq_false in Einst; exists mode, inst; split_and!; tauto || auto]).
  all: split; [exact Hhost|].
  - destruct (active (ge_now e) ws t) as [l|] eqn:Ea; [|done]. cbn in Ec. apply control_token_signed in Ec as [Hs _]. eexists. split; [exact Hs|]. left. exists l. by rewrite <- Hl.
  - apply viewer_token_signed in Ev as (payload & Hs & Hv). exists payload. auto.
Qed.

(** ** A human takes over *)




End Desktop.

(** ** The sweep *)

Definition reaped (loads : string -> bool) (stop : string -> bool * bool) (now idleTimeout : time) (s : desk) (ws : string) : bool :=
  negb (loads ws) && DesktopIsIdle now (LoadActivity now ws s) idleTimeout && negb (stop ws).1 && negb (stop ws).2.

Lemma sweep_one_lookup loads stop now idle s ws k :
  d_lifes (sweep_one loads stop now idle s ws) !! k =
  if decide (k = ws /\ reaped loads stop now idle s ws = true) then d_lifes (SetState ws "stopped" "" s) !! k else d_lifes s !! k.
Proof.
  unfold sweep_one, reaped, teardown. destruct (loads ws); cbn [negb andb]; [rewrite decide_False by (intros [_ ?]; done); done|].
  destruct (DesktopIsIdle _ _ _); cbn [andb]; [|rewrite decide_False by (intros [_ ?]; done); done].
  destruct (stop ws) as [b1 b2]. cbn [fst snd]. destruct b1, b2; cbn [orb negb andb]; try (rewrite decide_False by (intros [_ ?]; done); done).
  case_decide as Hd; [by destruct Hd as [-> _]|]. unfold SetState, set_life. cbn. rewrite lookup_insert_ne; [done|]. intros <-. tauto.
Qed.

(** A pass, desktop by desktop: one that is marked as running is marked as stopped if nobody
    uses it and its stop works, and nothing else changes. *)
Lemma Sweep_pointwise_desktops loads stop now idle s k :
  d_lifes (Sweep false loads stop now idle s) !! k =
  match d_lifes s !! k with
  | Some l => if decide (lf_state l = "running" /\ reaped loads stop now idle s k = true)
              then Some (Life "stopped" (lf_agent l) (lf_vnc l) (lf_conns l) (lf_lease l) (lf_lease_expires l) None) else Some l
  | None => None
  end.
Proof.
  unfold Sweep. set (ids := RunningDesktopWorkspaceIDs s).
  assert (Hin : k ∈ ids <-> exists l, d_lifes s !! k = Some l /\ lf_state l = "running").
  { unfold ids, RunningDesktopWorkspaceIDs. rewrite list_elem_of_fmap. split.
    - intros ([k' l] & -> & [Hl Hk]%list_elem_of_filter). apply elem_of_map_to_list in Hk. by exists l.
    - intros (l & Hl & Hr). exists (k, l). split; [done|]. apply list_elem_of_filter. by rewrite elem_of_map_to_list. }
  assert (Hnd : NoDup ids) by (unfold ids, RunningDesktopWorkspaceIDs; apply NoDup_fmap_fst; [|apply NoDup_filter, NoDup_map_to_list];
    intros x y1 y2 [_ H1%elem_of_map_to_list]%list_elem_of_filter [_ H2%elem_of_map_to_list]%list_elem_of_filter; congruence).
  assert (Hgen : forall t, (forall j, j ∈ ids -> d_lifes t !! j = d_lifes s !! j) -> d_lifes t !! k = d_lifes s !! k ->
    d_lifes (fold_left (sweep_one loads stop now idle) ids t) !! k = if decide (k ∈ ids /\ reaped loads stop now idle s k = true) then d_lifes (SetState k "stopped" "" s) !! k else d_lifes s !! k).
  { clear Hin. induction ids as [|w ids IH]; intros t Ht Hk; cbn [fold_left]; [rewrite decide_False; [done|]; intros [H%elem_of_nil _]; done|].
    apply NoDup_cons in Hnd as [Hw Hnd].
    assert (Hr : reaped loads stop now idle t w = reaped loads stop now idle s w) by (unfold reaped, LoadActivity; rewrite (Ht w) by left; done).
    destruct (decide (k = w)) as [->|Hne].
    - assert (Hkeep : forall l u, w ∉ l -> d_lifes (fold_left (sweep_one loads stop now idle) l u) !! w = d_lifes u !! w).
      { clear. induction l as [|x l IHl]; intros u Hl; cbn [fold_left]; [done|]. rewrite IHl by set_solver. rewrite sweep_one_lookup, decide_False by set_solver. done. }
      rewrite Hkeep, sweep_one_lookup by done. rewrite Hr. destruct (reaped _ _ _ _ s w) eqn:E.
      + rewrite !decide_True by (split; [first [done|left]|done]). unfold SetState, set_life. cbn. rewrite !lookup_insert_eq. by rewrite (Ht w) by left.
      + rewrite decide_False by (intros [_ [=]]). rewrite decide_False by (intros [_ [=]]). by apply Ht; left.
    - rewrite IH; [|done| |].
      + destruct (decide (k ∈ ids /\ _)) as [Hd|Hd]; [rewrite decide_True by (split; [by right; apply Hd|apply Hd]); done|]. rewrite decide_False; [done|]. intros [H H']. apply Hd. split; [set_solver|done].
      + intros j Hj. rewrite sweep_one_lookup, decide_False by (intros [-> _]; done). apply Ht. by right.
      + rewrite sweep_one_lookup, decide_False by (intros [? _]; done). done. }
  rewrite Hgen by done. destruct (d_lifes s !! k) as [l|] eqn:El.
  - destruct (decide (lf_state l = "running" /\ _)) as [[Hs Hr]|Hn].
    + rewrite decide_True by (split; [apply Hin; eauto|done]). unfold SetState, set_life. cbn. by rewrite lookup_insert_eq, El.
    + rewrite decide_False; [done|]. intros [Hk Hr]. apply Hn. split; [|done]. apply Hin in Hk as (l' & [= <-] & Hl). done.
  - rewrite decide_False; [done|]. intros [Hk _]. apply Hin in Hk as (l' & Hl' & _). done.
Qed.

(** What counts as unused. *)
Lemma idle_iff now a timeout : DesktopIsIdle now a timeout = true <->
  0 < timeout /\ AgentLeaseHeld a = false /\ VNCConnections a <= 0 /\
  (forall t, LastAgentActivity a = Some t -> t <= now - timeout) /\ (forall t, LastVNCInput a = Some t -> t <= now - timeout).
Proof.
  unfold DesktopIsIdle. destruct (Z.leb_spec timeout 0); [split; [done|lia]|]. destruct (AgentLeaseHeld a); [split; [done|intros (_ & ? & _); done]|].
  destruct (Z.ltb_spec 0 (VNCConnections a)); [split; [done|lia]|]. rewrite andb_true_iff, !negb_true_iff.
  assert (Hs : forall o : option time, some_and o (fun t => now - timeout <? t) = false <-> forall t, o = Some t -> t <= now - timeout).
  { intros [t|]; cbn; [rewrite Z.ltb_ge; split; [by intros ? ? [= <-]|auto]|done]. }
  rewrite !Hs. tauto.
Qed.

(** Somebody at the screen, or an agent at work, keeps the desktop up. *)
Lemma used_desktops_stay_up loads stop now idle s k l : d_lifes s !! k = Some l ->
  0 < lf_conns l \/ (exists t, lf_agent l = Some t /\ now - idle < t) \/ idle <= 0 -> d_lifes (Sweep false loads stop now idle s) !! k = Some l.
Proof.
  intros Hl Hu. rewrite Sweep_pointwise_desktops, Hl, decide_False; [done|]. intros [_ Hr]. unfold reaped in Hr.
  rewrite !andb_true_iff in Hr. destruct Hr as [[[_ Hi] _] _]. apply idle_iff in Hi as (H1 & H2 & H3 & H4 & H5).
  unfold LoadActivity in *. rewrite Hl in *. cbn in *. destruct Hu as [Hu|[(t & Ht & Hu)|Hu]]; [lia| |lia]. apply H4 in Ht. lia.
Qed.
Module DesktopDemo.
Definition hmac (k p : string) : string := k +:+ p.
Definition os (k : string) : string := if decide (k = "DISPLAY_SESSION_SIGNING_SECRET") then "secret" else "".
Definition quiet : control_faults := CFaults false false false (fun _ => false).
Definition empty : desk := Desk ∅ ∅ [] ∅ ∅ [].
Definition up (scaled : bool) : DesktopHandle + start_error := inl (Handle "wsdesk-a1:6070" true scaled).
Definition env (now : time) (start : DesktopHandle + start_error) (state_fails : bool) : gw_env := GwEnv now start state_fails false false false (Some 204).
Definition acquire (now : time) (actor : string) (s : desk) := AcquireDisplayControl hmac os quiet now "a1" NoBody (DbOk (Some "")) true (Some actor) s.
Definition taken := acquire 0 "session:ann" empty.
Definition running (s : desk) : list string := RunningDesktopWorkspaceIDs s.
Definition sweep (now : time) (s : desk) : desk := Sweep false (fun _ => false) (fun _ => (false, false)) now (15 * Minute) s.


Definition view_token : string := rp_view (DisplayControl hmac os false (30 * Second) "a1" taken.1).
Definition watch (token : string) := DisplaySession hmac os true true (env (40 * Second) (up false) false) false (DbOk ("", "")) "a1" "/websockify" ("binary, molecule-display-token." +:+ token) taken.1.

Lemma session_shows_a_token_witness : exists payload, signed_by hmac os "a1" (displaySessionTokenFromRequest ("binary, molecule-display-token." +:+ rp_token taken.2)) payload.
Proof.
  assert (H : watch (rp_token taken.2) = ((watch (rp_token taken.2)).1, ToSidecar "wsdesk-a1:6080")) by (vm_compute; reflexivity).
  destruct (session_shows_a_token hmac os true true _ false _ "a1" "/websockify" _ _ _ _ H) as [_ (payload & Hs & _)]; [discriminate|]. by exists payload.
Defined.

(** A viewer's token opens the same connection to the same screen as the holder's: what a
    viewer may do there is left to the VNC server, which is started for input. *)
Example view_token_opens_the_same_session : (watch view_token).2 = (watch (rp_token taken.2)).2 /\ (watch view_token).2 = ToSidecar "wsdesk-a1:6080" /\ (watch "forged.token").2 = Refused 403.
Proof. vm_compute. auto. Qed.

(** An input that was let through before the takeover is sent after it: the start of the
    sidecar lies between. *)
Example admitted_input_lands_after_takeover :
  let '(s1, held) := AcquireAgentControl false 0 "a1" empty in
  let '(s2, r) := acquire (1 * Second) "session:ann" s1 in
  let '(s3, err) := input_granted (env (60 * Second) (up true) false) "a1" "{click}" s2 in
  held = Some true /\ rp_status r = 200 /\ err = None /\ d_sent s3 = [("a1", Acted "wsdesk-a1:6070" "{click}")] /\
  active (60 * Second) "a1" s3 = Some (Lock User "session:ann" (301 * Second)).
Proof. vm_compute. auto 10. Qed.

(** The memory of what is recorded outlives the stop: when the write of the next start
    fails, no later call repeats it, and the sweep never sees the desktop again. *)
Example failed_write_hides_the_desktop :
  let s1 := (EnsureRunning (env 0 (up true) false) "a1" empty).1 in
  let s2 := sweep Hour s1 in
  let s3 := (EnsureRunning (env Hour (up true) true) "a1" s2).1 in
  let s4 := (EnsureRunning (env (Hour + Minute) (up false) false) "a1" s3).1 in
  running s1 = ["a1"] /\ running s2 = [] /\ running s4 = [].
Proof. vm_compute. auto. Qed.
(** So does a start that fails after it has started the container. *)
Example failed_start_hides_the_desktop :
  let s2 := sweep Hour (EnsureRunning (env 0 (up true) false) "a1" empty).1 in
  let s3 := (EnsureRunning (env Hour (inr PlatformAttachFailed) false) "a1" s2).1 in
  running (EnsureRunning (env (Hour + Minute) (up false) false) "a1" s3).1 = [].
Proof. vm_compute. auto. Qed.

(** Two viewers leave, and the mirror of the first is written last: the count stays at one
    with nobody there, and the desktop stays up. *)
Example late_mirror_pins_the_desktop :
  let s0 := ViewerConnected false 0 "a1" (ViewerConnected false 0 "a1" (EnsureRunning (env 0 (up true) false) "a1" empty).1) in
  let '(s1, n1) := count_disconnected "a1" s0 in
  let '(s2, n2) := count_disconnected "a1" s1 in
  let s3 := SetVNCPresence false "a1" n1 0 (SetVNCPresence false "a1" n2 0 s2) in
  viewers_of "a1" s3 = 0 /\ running (sweep (100 * Hour) s3) = ["a1"].
Proof. vm_compute. auto. Qed.
(** A server that ends with a viewer connected leaves the count behind. *)
Example restart_pins_the_desktop :
  let s := ViewerConnected false 0 "a1" (EnsureRunning (env 0 (up true) false) "a1" empty).1 in
  let restarted := set_viewers ∅ (set_recorded ∅ s) in
  viewers_of "a1" restarted = 0 /\ running (sweep (100 * Hour) restarted) = ["a1"].
Proof. vm_compute. auto. Qed.

Example control_examples :
  rp_status (acquire 0 "session:bob" taken.1).2 = 409 /\ rp_status (acquire (300 * Second) "session:bob" taken.1).2 = 200 /\
  rp_status (ReleaseDisplayControl quiet 0 "a1" (Body true) true (Some "admin-token") taken.1).2 = 200 /\
  rp_status (ReleaseDisplayControl quiet 0 "a1" (Body true) false (Some "session:bob") taken.1).2 = 403 /\
  (DesktopInput true (env 0 (up true) false) "a1" (Some "{}") taken.1).2 = 409 /\ (DesktopInput true (env 0 (up true) false) "a1" (Some "{}") empty).2 = 204 /\
  displayControlActor "t" "Bearer t" (Caller None None true None None "") = Some "admin-token".
Proof. vm_compute. auto 10. Qed.
End DesktopDemo.
