(* ===== verification/Delegation.v ===== *)
(** * Handing a task to another workspace

    internal/handlers/delegation.go: the endpoints an agent or the canvas delegates
    through, the goroutine that sends the task, and the lists of delegations.  The state
    is activity_logs with its unique (workspace_id, idempotency_key), the ledger, the
    approvals, and what the code announced, sent and started.  A handler is given what
    other writers do between its statements; the statements are also the steps of a
    machine in which any number of requests interleave (DelegationSafety).

    The answers of proxyA2ARequest, modelled in Proxy, are arguments here.  json.Marshal
    does not fail on strings, so the branches that log its errors are left out. *)

From S2P Require Import Prelude Json Truncate Tree A2AQueue Ledger DelegationReplies QueueDrain.
From S2P Require Approvals.

Record row := Row {
  r_seq : nat;                    (* the bigserial [seq] *)
  r_id : string;
  r_created : time;
  r_key : option string;          (* idempotency_key *)
  r_act : activity
}.

Inductive announcement :=
| Sent (source delegation target preview : string)
| StatusIs (source delegation target status : string)
| Completed (source delegation : string) (target : option string) (preview : string)
| HasFailed (source delegation : string) (target : option string) (error : string).

(** A goroutine Delegate started: the arguments of executeDelegation. *)
Record job := Job { j_source : string; j_target : string; j_id : string; j_body : json; j_grant : string }.

Record dstate := DState {
  d_rows : list row;              (* activity_logs, in the order of insertion *)
  d_seq : nat;                    (* rows ever inserted *)
  d_led : ledger;
  d_grants : Approvals.approvals;
  d_said : list announcement;
  d_jobs : list job;
  d_sent : list (string * json)   (* the calls of proxyA2ARequest: target and body *)
}.

Definition set_rows (l : list row) (s : dstate) := DState l (d_seq s) (d_led s) (d_grants s) (d_said s) (d_jobs s) (d_sent s).
Definition set_led (l : ledger) (s : dstate) := DState (d_rows s) (d_seq s) l (d_grants s) (d_said s) (d_jobs s) (d_sent s).
Definition set_grants (g : Approvals.approvals) (s : dstate) := DState (d_rows s) (d_seq s) (d_led s) g (d_said s) (d_jobs s) (d_sent s).
Definition say (e : announcement) (s : dstate) := DState (d_rows s) (d_seq s) (d_led s) (d_grants s) (d_said s ++ [e]) (d_jobs s) (d_sent s).
Definition start (j : job) (s : dstate) := DState (d_rows s) (d_seq s) (d_led s) (d_grants s) (d_said s) (d_jobs s ++ [j]) (d_sent s).
Definition send (c : string * json) (s : dstate) := DState (d_rows s) (d_seq s) (d_led s) (d_grants s) (d_said s) (d_jobs s) (d_sent s ++ [c]).

(** [response_body->>'k'] and the like. *)
Definition text_of (render : json -> string) (o : option json) (k : string) : option string :=
  match o with
  | Some (JObj m) => match map_get k m with
                     | Some (JStr s) => Some s
                     | Some JNull | None => None
                     | Some v => Some (render v)
                     end
  | _ => None
  end.

Record delegateRequest := DelegateRequest { TargetID : string; Task : string; IdempotencyKey : string }.

Inductive reply :=
| Refused (code : Z) (error : string)
| Replayed (id status target : string)                  (* 200, idempotent_hit *)
| Accepted (id target : string) (warning : bool)        (* 202 *)
| Recorded (id : string)                                (* 202 *)
| Updated (status id : string).                         (* 200 *)

Inductive insertDelegationOutcome := insertOK | insertHandledByIdempotent | insertTrackingUnavailable.

(** The answer of one call of proxyA2ARequest; [at_restarting] is
    [err.Response["restarting"]]. *)
Record attempt := Attempt { at_status : Z; at_body : payload; at_err : option proxyA2AError; at_restarting : bool }.

Definition error_text (e : proxyA2AError) : string :=
  let base := match pe_error e with Some m => if decide (m = "") then "proxy a2a error" else m | None => "proxy a2a error" end in
  if decide (pe_classification e = "") then base else base +:+ (" [" +:+ (pe_classification e +:+ "]")).

Definition isTransientProxyError (a : attempt) : bool :=
  match at_err a with
  | None => false
  | Some e => if pe_status e =? 502 then true else if pe_status e =? 503 then at_restarting a else false
  end.

(** The body sent: a SendMessageRequest whose messageId and metadata carry the id. *)
Definition buildDelegateA2ABody (delegationID task : string) : json :=
  JObj [("method", JStr "message/send");
        ("params", JObj [("message", JObj [
           ("role", JStr "user"); ("messageId", JStr delegationID);
           ("parts", JArr [JObj [("kind", JStr "text"); ("text", JStr task)]]);
           ("metadata", JObj [("delegation_id", JStr delegationID)])])])].

Section Delegation.
Context `{UuidCast}.
Context (env : environment).
(** The text of a JSON value that is not a string, the id and the instant the database
    gives the n-th row, google/uuid's Parse, and the hash an approval is bound by. *)
Context (render : json -> string) (stamp : nat -> string * time) (uuid_parses : string -> bool).
Context (marshal : json -> string) (sha256_hex : string -> string).

(** ** The table *)

Definition of_workspace (ws : string) (r : row) : bool := bool_decide (workspace_id (r_act r) = ws).
Definition requested (r : row) : option string := text_of render (request_body (r_act r)) "delegation_id".
Definition answered (r : row) : option string := text_of render (response_body (r_act r)) "delegation_id".
Definition has_key (ws k : string) (r : row) : bool := of_workspace ws r && bool_decide (r_key r = Some k).

Definition append (key : option string) (a : activity) (s : dstate) : dstate :=
  DState (d_rows s ++ [Row (d_seq s) (stamp (d_seq s)).1 (stamp (d_seq s)).2 key a]) (S (d_seq s))
    (d_led s) (d_grants s) (d_said s) (d_jobs s) (d_sent s).
Definition append_all (l : list activity) (s : dstate) : dstate := foldl (fun s a => append None a s) s l.

(** An INSERT of a row without a key, into [workspace_id] and [source_id] of [ws]. *)
Definition insert_result (fails : bool) (ws : string) (target : option string) (mk : string -> option string -> activity) (s : dstate) : dstate :=
  if fails then s
  else match canon ws, target with
       | Some w, None => append None (mk w None) s
       | Some w, Some t => match canon t with Some t => append None (mk w (Some t)) s | None => s end
       | None, _ => s
       end.

Definition push (fails : bool) (source target id status preview err : string) (s : dstate) : dstate :=
  append_all (pushDelegationResultToInbox env [] fails source target id status preview err).1 s.

(** ** Idempotency *)

Definition lookup_key (fails : bool) (source key : string) (s : dstate) : option (string * string * string) :=
  match fails, canon source with
  | false, Some ws =>
      match find (has_key ws key) (d_rows s) with
      | Some r =>
          match requested r, target_id (r_act r) with
          | Some id, Some t => if decide (id = "") then None else Some (id, act_status (r_act r), t)
          | _, _ => None
          end
      | None => None
      end
  | _, _ => None
  end.

(** [DELETE ... WHERE workspace_id = $1 AND idempotency_key = $2 AND status = 'failed']. *)
Definition reclaims (ws key : string) (r : row) : bool := has_key ws key r && bool_decide (act_status (r_act r) = "failed").
Definition delete_failed (fails : bool) (source key : string) (s : dstate) : dstate :=
  match fails, canon source with
  | false, Some ws => set_rows (filter (fun r => reclaims ws key r = false) (d_rows s)) s
  | _, _ => s
  end.

(** [others]: what is written between the two statements. *)
Definition lookupIdempotentDelegation (fails delete_fails : bool) (others : dstate -> dstate) (source key : string) (s : dstate)
    : dstate * option reply :=
  if decide (key = "") then (s, None)
  else match lookup_key fails source key s with
       | None => (s, None)
       | Some (id, status, target) =>
           if decide (status = "failed") then (delete_failed delete_fails source key (others s), None)
           else (s, Some (Replayed id status target))
       end.

(** ** The row of a delegation *)

Definition delegate_row (w t targetID task id status : string) : activity :=
  Activity w "delegation" "delegate" w (Some t) ("Delegating to " +:+ targetID) status None
    (Some (JObj [("task", JStr task); ("delegation_id", JStr id)])) (Some (JObj [("delegation_id", JStr id)])).

(** The INSERT; [None] when it errors.  [fails]: for a reason outside the table. *)
Definition insert_pending (fails : bool) (source : string) (body : delegateRequest) (id : string) (s : dstate) : option dstate :=
  if fails then None
  else match canon source, canon (TargetID body) with
       | Some w, Some t =>
           let key := nullif_empty (IdempotencyKey body) in
           let a := delegate_row w t (TargetID body) (Task body) id "pending" in
           match key with
           | Some k => if existsb (has_key w k) (d_rows s) then None else Some (append key a s)
           | None => Some (append None a s)
           end
       | _, _ => None
       end.

Record insert_env := InsertEnv {
  i_fails : bool; i_now : time; i_ledger_fails : bool;
  i_others : dstate -> dstate;          (* after the INSERT that errored *)
  i_query_fails : bool
}.

Definition winner (fails : bool) (source key : string) (s : dstate) : option (string * string) :=
  match fails, canon source with
  | false, Some ws =>
      match find (has_key ws key) (d_rows s) with
      | Some r => match requested r with
                  | Some id => if decide (id = "") then None else Some (id, act_status (r_act r))
                  | None => None
                  end
      | None => None
      end
  | _, _ => None
  end.

Definition insertDelegationRow (ie : insert_env) (source : string) (body : delegateRequest) (id : string) (s : dstate)
    : dstate * insertDelegationOutcome * option reply :=
  match insert_pending (i_fails ie) source body id s with
  | Some s => (set_led (recordLedgerInsert env (d_led s) (i_now ie) (i_ledger_fails ie) source (TargetID body) id (Task body) (IdempotencyKey body)) s,
               insertOK, None)
  | None =>
      if decide (IdempotencyKey body = "") then (s, insertTrackingUnavailable, None)
      else let s := i_others ie s in
           match winner (i_query_fails ie) source (IdempotencyKey body) s with
           | Some (wid, wstatus) => (s, insertHandledByIdempotent, Some (Replayed wid wstatus (TargetID body)))
           | None => (s, insertTrackingUnavailable, None)
           end
  end.

(** The rows both statements of the rollback name. *)
Definition speculative (ws id : string) (r : row) : bool :=
  of_workspace ws r && bool_decide (activity_type (r_act r) = "delegation") && bool_decide (method (r_act r) = "delegate") &&
  bool_decide (act_status (r_act r) = "pending") && bool_decide (answered r = Some id).

Definition with_act (f : activity -> activity) (r : row) : row := Row (r_seq r) (r_id r) (r_created r) (r_key r) (f (r_act r)).
Definition set_status (st : string) (err : option string) (a : activity) : activity :=
  Activity (workspace_id a) (activity_type a) (method a) (source_id a) (target_id a) (summary a) st err
    (request_body a) (response_body a).
Definition reject (a : activity) : activity :=
  set_status "failed" (Some (match act_error a with
                             | Some e => if decide (e = "") then "privileged delegation rejected: no approved grant" else e
                             | None => "privileged delegation rejected: no approved grant"
                             end)) a.

Definition rollbackUndispatchedDelegation (fails : bool) (ws id key : string) (s : dstate) : dstate :=
  match fails, canon ws with
  | false, Some w =>
      if decide (key = "") then set_rows (filter (fun r => speculative w id r = false) (d_rows s)) s
      else set_rows (map (fun r => if speculative w id r then with_act reject r else r) (d_rows s)) s
  | _, _ => s
  end.

(** ** POST /workspaces/:id/delegate *)

(** [w_others n]: what other requests and jobs write before the (n+1)-th section. *)
Record delegate_env := DelegateEnv {
  w_auth : string;                      (* authenticated_workspace_id *)
  w_caller : Approvals.caller;
  w_may_delegate : option bool;         (* the column; [None]: no row, or an error *)
  w_lookup_fails : bool; w_delete_fails : bool;
  w_gen : string;                       (* uuid.New *)
  w_insert : insert_env;
  w_gate : Approvals.gate_env;
  w_rollback_fails : bool;
  w_others : nat -> dstate -> dstate
}.

Definition loadWorkspaceCanDelegate (column : option bool) : bool := default true column.

Definition bindDelegateRequest (body : option delegateRequest) : delegateRequest + string :=
  match body with
  | None => inr "invalid delegation request"
  | Some b => if decide (TargetID b = "" \/ Task b = "") then inr "invalid delegation request"
              else if uuid_parses (TargetID b) then inl b else inr "target_id must be a valid UUID"
  end.

(** The gate, and what follows it. *)
Definition gate_and_start (w : delegate_env) (source : string) (b : delegateRequest) (outcome : insertDelegationOutcome) (s : dstate)
    : dstate * reply :=
  let id := w_gen w in
  match Approvals.gatePrivilegedDelegation marshal sha256_hex env (w_caller w) (w_gate w) source (TargetID b) (Task b) (d_grants s) with
  | (g, Approvals.Proceed, grant) =>
      let s := start (Job source (TargetID b) id (buildDelegateA2ABody id (Task b)) grant) (set_grants g s) in
      (say (Sent source id (TargetID b) (TruncateBytes (Task b) 100)) s,
       Accepted id (TargetID b) (match outcome with insertTrackingUnavailable => true | _ => false end))
  | (g, verdict, _) =>
      let s := w_others w 3%nat (set_grants g s) in
      (match outcome with
       | insertOK => rollbackUndispatchedDelegation (w_rollback_fails w) source id (IdempotencyKey b) s
       | _ => s
       end,
       match verdict with
       | Approvals.GrantRequired _ => Refused 403 "privileged delegation requires an approved single-use grant"
       | _ => Refused 500 "delegation grant gate failed"
       end)
  end.

Definition Delegate (w : delegate_env) (source : string) (body : option delegateRequest) (s : dstate) : dstate * reply :=
  if negb (bool_decide (w_auth w = "")) && negb (bool_decide (w_auth w = source))
  then (s, Refused 403 "source workspace does not match authenticated identity")
  else match bindDelegateRequest body with
       | inr e => (s, Refused 400 e)
       | inl b =>
           if negb (loadWorkspaceCanDelegate (w_may_delegate w)) then (s, Refused 403 "tool call failed")
           else if decide (source = TargetID b) then (s, Refused 400 "self-delegation not permitted")
           else match lookupIdempotentDelegation (w_lookup_fails w) (w_delete_fails w) (w_others w 0%nat) source (IdempotencyKey b) s with
                | (s, Some r) => (s, r)
                | (s, None) =>
                    match insertDelegationRow (w_insert w) source b (w_gen w) (w_others w 1%nat s) with
                    | (s, insertHandledByIdempotent, r) => (s, default (Refused 0 "") r)
                    | (s, outcome, _) => gate_and_start w source b outcome (w_others w 2%nat s)
                    end
                end
       end.

(** ** Status updates *)

Definition of_delegation (ws id : string) (r : row) : bool :=
  of_workspace ws r && bool_decide (method (r_act r) = "delegate") && bool_decide (requested r = Some id).

Definition updateActivityLogStatus (fails : bool) (ws id status err : string) (s : dstate) : dstate :=
  match fails, canon ws with
  | false, Some w =>
      set_rows (map (fun r => if of_delegation w id r
                              then with_act (fun a => set_status status (if decide (err = "") then act_error a else Some err) a) r
                              else r) (d_rows s)) s
  | _, _ => s
  end.

(** How the statements of one transition go. *)
Record turn := Turn { u_fails : bool; u_call : call_env; u_now : time }.

Definition ledger_status (u : turn) (id status err preview : string) (s : dstate) : dstate * ReplyAuthority :=
  let '(led, authority) := recordLedgerStatus env (u_call u) (d_led s) (u_now u) id status err preview in (set_led led s, authority).

Definition updateDelegationStatus (u : turn) (ws id status err : string) (s : dstate) : dstate * ReplyAuthority :=
  let s := updateActivityLogStatus (u_fails u) ws id status err s in
  if IsValidDelegationStatus status then ledger_status u id status err "" s else (s, ReplyUnarbitrated).

(** ** The job *)

Record exec_env := ExecEnv {
  x_dispatched : turn;
  x_tries : nat -> attempt;
  x_meanwhile : nat -> dstate -> dstate;     (* while the call is out *)
  x_expired : bool;                          (* the context ends before the retry *)
  x_insert_fails : bool;                     (* the delegate_result row *)
  x_preview : turn;                          (* the ledger write that carries the answer *)
  x_final : turn;
  x_push_fails : bool;
  x_restore_fails : bool
}.

Definition result_row (id : string) (sum status : string) (err : option string) (resp : json) (w : string) (t : option string) : activity :=
  Activity w "delegation" "delegate_result" w t sum status err None (Some resp).

Definition finalizeNonDispatchedDelegation (x : exec_env) (source target id err grant : string) (s : dstate) : dstate :=
  let '(s, authority) := updateDelegationStatus (x_final x) source id "failed" err s in
  let s := insert_result (x_insert_fails x) source (Some target)
             (result_row id "Delegation failed" "failed" (Some err) (delegationCorrelationJSON id)) s in
  let s := say (HasFailed source id (Some target) err) s in
  let s := if mayReply authority then push (x_push_fails x) source target id "failed" "" err s else s in
  set_grants (Approvals.restorePrivilegedDelegationGrant (x_restore_fails x) source grant (d_grants s)) s.

Definition handleSuccess (x : exec_env) (source target id : string) (a : attempt) (s : dstate) : dstate :=
  if (at_status a =? 202) && (QueuedA2AResponse (at_body a)).1 then
    let s := updateActivityLogStatus (u_fails (x_final x)) source id "queued" "" s in
    let s := insert_result (x_insert_fails x) source (Some target)
               (result_row id "Delegation queued — target at capacity" "queued" None
                  (JObj [("delegation_id", JStr id); ("queued", JBool true)])) s in
    say (StatusIs source id target "queued") s
  else
    let text := extractResponseText (at_body a) in
    let s := insert_result (x_insert_fails x) source (Some target)
               (result_row id ("Delegation completed (" +:+ (TruncateBytes text 80 +:+ ")")) "completed" None
                  (JObj [("text", JStr text); ("delegation_id", JStr id)])) s in
    let s := (ledger_status (x_preview x) id "completed" "" text s).1 in
    let '(s, authority) := updateDelegationStatus (x_final x) source id "completed" "" s in
    let s := say (Completed source id (Some target) (TruncateBytes text 200)) s in
    if mayReply authority then push (x_push_fails x) source target id "completed" text "" s else s.

Definition try_once (x : exec_env) (n : nat) (target : string) (body : json) (s : dstate) : dstate :=
  x_meanwhile x n (send (target, body) s).

Definition retried (x : exec_env) (a : attempt) : bool :=
  isTransientProxyError a && bool_decide (raw (at_body a) = "") && negb (x_expired x).

(** What the last answer comes to; only the first is asked whether it was delivered. *)
Definition settle (x : exec_env) (source target id grant : string) (a : attempt) (s : dstate) : dstate :=
  match at_err a with
  | Some e => finalizeNonDispatchedDelegation x source target id (error_text e) grant s
  | None =>
      if (200 <=? at_status a) && (at_status a <? 300) && bool_decide (raw (at_body a) = "")
      then finalizeNonDispatchedDelegation x source target id "workspace agent returned empty response" grant s
      else handleSuccess x source target id a s
  end.

Definition executeDelegation (x : exec_env) (j : job) (s : dstate) : dstate :=
  let '(source, target, id) := (j_source j, j_target j, j_id j) in
  let s := (updateDelegationStatus (x_dispatched x) source id "dispatched" "" s).1 in
  let s := say (StatusIs source id target "dispatched") s in
  let s := try_once x 0 target (j_body j) s in
  let a := x_tries x 0%nat in
  if isDeliveryConfirmedSuccess (at_err a) (at_status a) (at_body a) then handleSuccess x source target id a s
  else if retried x a then settle x source target id (j_grant j) (x_tries x 1%nat) (try_once x 1 target (j_body j) s)
  else settle x source target id (j_grant j) a s.

(** ** POST /workspaces/:id/delegations/record *)

Record record_body := RecordBody { rb_target : string; rb_task : string; rb_id : string }.

Definition RecordDelegation (fails ledger_fails : bool) (now : time) (u : turn) (source : string) (body : option record_body) (s : dstate)
    : dstate * reply :=
  match body with
  | None => (s, Refused 400 "invalid request body")
  | Some b =>
      if decide (rb_target b = "" \/ rb_task b = "" \/ rb_id b = "") then (s, Refused 400 "invalid request body")
      else if negb (uuid_parses (rb_target b)) then (s, Refused 400 "target_id must be a valid UUID")
      else match fails, canon source, canon (rb_target b) with
           | false, Some w, Some t =>
               let s := append None (delegate_row w t (rb_target b) (rb_task b) (rb_id b) "dispatched") s in
               let s := set_led (recordLedgerInsert env (d_led s) now ledger_fails source (rb_target b) (rb_id b) (rb_task b) "") s in
               let s := (ledger_status u (rb_id b) "dispatched" "" "" s).1 in
               (say (Sent source (rb_id b) (rb_target b) (TruncateBytes (rb_task b) 100)) s, Recorded (rb_id b))
           | _, _, _ => (s, Refused 500 "failed to record delegation")
           end
  end.

(** ** POST /workspaces/:id/delegations/:delegation_id/update *)

Record update_body := UpdateBody { ub_status : string; ub_error : string; ub_preview : string }.

Definition UpdateStatus (x : exec_env) (source id : string) (body : option update_body) (s : dstate) : dstate * reply :=
  match body with
  | None => (s, Refused 400 "invalid request body")
  | Some b =>
      if decide (ub_status b = "") then (s, Refused 400 "invalid request body")
      else if negb (IsTerminalDelegationStatus (ub_status b)) then (s, Refused 400 "status must be one of: completed, failed")
      else
        let '(s, authority) :=
          if decide (ub_status b = "completed") then
            let '(s, authority) := ledger_status (x_preview x) id "completed" "" (ub_preview b) s in
            ((updateDelegationStatus (x_final x) source id (ub_status b) (ub_error b) s).1, authority)
          else updateDelegationStatus (x_final x) source id (ub_status b) (ub_error b) s in
        let s :=
          if decide (ub_status b = "completed") then
            let s := insert_result (x_insert_fails x) source None
                       (result_row id ("Delegation completed (" +:+ (TruncateBytes (ub_preview b) 80 +:+ ")")) "completed" None
                          (JObj [("text", JStr (ub_preview b)); ("delegation_id", JStr id)])) s in
            let s := say (Completed source id None (TruncateBytes (ub_preview b) 200)) s in
            if mayReply authority then push (x_push_fails x) source "" id "completed" (ub_preview b) "" s else s
          else
            let s := insert_result (x_insert_fails x) source None
                       (result_row id ("Delegation failed (" +:+ (TruncateBytes (ub_error b) 80 +:+ ")")) "failed" (Some (ub_error b))
                          (JObj [("error", JStr (ub_error b)); ("delegation_id", JStr id)])) s in
            let s := say (HasFailed source id None (ub_error b)) s in
            if mayReply authority then push (x_push_fails x) source "" id "failed" "" (ub_error b) s else s in
        (s, Updated (ub_status b) id)
  end.

(** ** GET /workspaces/:id/delegations *)

Record listed := Listed {
  l_row : option string;                 (* "id", of an activity row *)
  l_delegation : option string; l_source : string; l_target : string; l_sent : bool;
  l_summary : string; l_status : string; l_created : time; l_updated : option time;
  l_preview : option string; l_error : option string; l_heartbeat : option time; l_deadline : option time
}.

Definition shown (o : option string) : option string := match o with Some s => nullif_empty s | None => None end.

Definition ledger_entry (ws id : string) (d : delegation) : listed :=
  Listed None (Some id) (caller_id d) (callee_id d) (bool_decide (caller_id d = ws)) (TruncateBytes (task_preview d) 200)
    (status d) (created_at d) (Some (updated_at d)) ((fun p => TruncateBytes p 300) <$> shown (result_preview d))
    (shown (error_detail d)) (last_heartbeat d) (Some (deadline d)).

Definition listDelegationsFromLedger (fails : bool) (workspaceID : string) (s : dstate) : list listed :=
  match fails, canon workspaceID with
  | false, Some ws =>
      map (fun kd => ledger_entry ws kd.1 kd.2)
        (take 50 (sort_by (fun kd => - created_at kd.2)
          (filter (fun kd => caller_id kd.2 = ws \/ callee_id kd.2 = ws) (map_to_list (d_led s)))))
  | _, _ => []
  end.

(** [COALESCE(response_body->>'text', response_body::text, '')]. *)
Definition response_text (a : activity) : string :=
  match text_of render (response_body a) "text" with
  | Some t => t
  | None => match response_body a with Some j => render j | None => "" end
  end.

Definition row_entry (workspaceID : string) (r : row) : listed :=
  let a := r_act r in
  Listed (Some (r_id r)) (nullif_empty (default "" (coalesce (requested r) (answered r)))) (source_id a) (default "" (target_id a))
    (bool_decide (source_id a = workspaceID)) (summary a) (act_status a) (r_created r) None
    ((fun p => TruncateBytes p 300) <$> nullif_empty (response_text a)) (shown (act_error a)) None None.

Definition listDelegationsFromActivityLogs (fails : bool) (workspaceID : string) (s : dstate) : list listed :=
  match fails, canon workspaceID with
  | false, Some ws =>
      map (row_entry workspaceID)
        (take 50 (sort_by (fun r => - r_created r)
          (filter (fun r => (workspace_id (r_act r) = ws \/ source_id (r_act r) = ws) /\
                            (method (r_act r) = "delegate" \/ method (r_act r) = "delegate_result")) (d_rows s))))
  | _, _ => []
  end.

Definition ListDelegations (ledger_fails logs_fail : bool) (workspaceID : string) (s : dstate) : list listed :=
  match listDelegationsFromLedger ledger_fails workspaceID s with
  | [] => listDelegationsFromActivityLogs logs_fail workspaceID s
  | l => l
  end.
End Delegation.

(** * Requests that interleave

    The statements of the requests and jobs as steps, in any order.  [w_won] are the
    keyed rows an INSERT made, by their seq; [w_over] the rows seen with status failed, or
    pruned by age (internal/db/retention.go).  [key_of] is the key the request that drew
    an id carried: uuid.New does not repeat. *)

Record world := World { w_db : dstate; w_won : gmap nat (string * string); w_over : gset nat }.

Definition failed_seqs (l : list row) : gset nat :=
  list_to_set (r_seq <$> filter (fun r => act_status (r_act r) = "failed") l).

Section Steps.
Context `{UuidCast}.
Context (env : environment).
Context (render : json -> string) (stamp : nat -> string * time).
Context (key_of : string -> option string).

Abbreviation insertDelegationRow := (insertDelegationRow env render stamp).

Definition moved (m : world) (s : dstate) : world := World s (w_won m) (w_over m ∪ failed_seqs (d_rows s)).

Definition won_by (source key : string) (m : world) : gmap nat (string * string) :=
  match canon source, nullif_empty key with
  | Some ws, Some k => <[d_seq (w_db m) := (ws, k)]> (w_won m)
  | _, _ => w_won m
  end.

Inductive dstep : world -> world -> Prop :=
| s_delete fails source key m : dstep m (moved m (delete_failed fails source key (w_db m)))
| s_insert ie source b id s m :
    key_of id = nullif_empty (IdempotencyKey b) ->
    insertDelegationRow ie source b id (w_db m) = (s, insertOK, None) ->
    dstep m (World s (won_by source (IdempotencyKey b) m) (w_over m ∪ failed_seqs (d_rows s)))
| s_rollback fails ws id key m :
    key_of id = nullif_empty key -> dstep m (moved m (rollbackUndispatchedDelegation render fails ws id key (w_db m)))
| s_update fails ws id status err m : dstep m (moved m (updateActivityLogStatus render fails ws id status err (w_db m)))
| s_append a m : dstep m (moved m (append stamp None a (w_db m)))
| s_elsewhere s m : d_rows s = d_rows (w_db m) -> d_seq s = d_seq (w_db m) -> dstep m (moved m s)
| s_prune (old : row -> bool) m :
    dstep m (World (set_rows (filter (fun r => old r = false) (d_rows (w_db m))) (w_db m)) (w_won m)
               (w_over m ∪ list_to_set (r_seq <$> filter (fun r => old r = true) (d_rows (w_db m))))).

Record inv (m : world) : Prop := {
  inv_seq : forall r, r ∈ d_rows (w_db m) -> (r_seq r < d_seq (w_db m))%nat;
  inv_key : forall r k, r ∈ d_rows (w_db m) -> r_key r = Some k -> exists id, answered render r = Some id /\ key_of id = Some k;
  inv_one : forall r r' ws k, r ∈ d_rows (w_db m) -> r' ∈ d_rows (w_db m) ->
    has_key ws k r = true -> has_key ws k r' = true -> r_seq r = r_seq r';
  inv_failed : forall r, r ∈ d_rows (w_db m) -> act_status (r_act r) = "failed" -> r_seq r ∈ w_over m;
  inv_won : forall n ws k, w_won m !! n = Some (ws, k) ->
    (n < d_seq (w_db m))%nat /\ (n ∈ w_over m \/ exists r, r ∈ d_rows (w_db m) /\ r_seq r = n /\ has_key ws k r = true)
}.

Lemma failed_seqs_spec l r : r ∈ l -> act_status (r_act r) = "failed" -> r_seq r ∈ failed_seqs l.
Proof.
  intros Hr Hf. unfold failed_seqs. apply elem_of_list_to_set, list_elem_of_fmap. exists r.
  split; [done|]. by apply list_elem_of_filter.
Qed.

(** A step that keeps some rows, changing neither their keys, seqs, nor bodies. *)
Lemma inv_restricts m l (f : row -> row) :
  inv m ->
  (forall r, r_seq (f r) = r_seq r /\ r_key (f r) = r_key r /\ workspace_id (r_act (f r)) = workspace_id (r_act r) /\
             response_body (r_act (f r)) = response_body (r_act r)) ->
  (forall r', r' ∈ l -> exists r, r ∈ d_rows (w_db m) /\ r' = f r) ->
  forall over, w_over m ⊆ over -> failed_seqs l ⊆ over ->
  (forall r ws k, r ∈ d_rows (w_db m) -> has_key ws k r = true -> f r ∈ l \/ r_seq r ∈ over) ->
  inv (World (set_rows l (w_db m)) (w_won m) over).
Proof.
  intros I Hf Hl over Hover Hfailed Hkeep.
  assert (Hhas : forall r ws k, has_key ws k (f r) = has_key ws k r).
  { intros r ws k. destruct (Hf r) as (_ & Hk & Hw & _). unfold has_key, of_workspace. by rewrite Hk, Hw. }
  split; cbn.
  - intros r' Hr'. destruct (Hl _ Hr') as (r & Hr & ->). destruct (Hf r) as (-> & _). by apply (inv_seq _ I).
  - intros r' k Hr' Hk. destruct (Hl _ Hr') as (r & Hr & ->). destruct (Hf r) as (_ & Ek & _ & Eb).
    rewrite Ek in Hk. unfold answered. rewrite Eb. by apply (inv_key _ I r).
  - intros r1 r2 ws k H1 H2. destruct (Hl _ H1) as (a & Ha & ->), (Hl _ H2) as (b & Hb & ->). rewrite !Hhas.
    destruct (Hf a) as (-> & _), (Hf b) as (-> & _). by apply (inv_one _ I).
  - intros r Hr Hs. apply Hfailed. by apply failed_seqs_spec.
  - intros n ws k Hn. destruct (inv_won _ I _ _ _ Hn) as [Hlt [Ho|(r & Hr & <- & Hk)]]; [split; [done|]; left; set_solver|].
    split; [done|]. destruct (Hkeep r ws k Hr Hk) as [Hin|Ho]; [right|by left].
    exists (f r). destruct (Hf r) as (-> & _). by rewrite Hhas.
Qed.

Lemma inv_filter m p over :
  inv m -> w_over m ⊆ over ->
  (forall r ws k, r ∈ d_rows (w_db m) -> has_key ws k r = true -> p r = true -> r_seq r ∈ over) ->
  inv (World (set_rows (filter (fun r => p r = false) (d_rows (w_db m))) (w_db m)) (w_won m) over).
Proof.
  intros I Ho Hp. apply (inv_restricts m _ id); auto.
  - intros r Hr. apply list_elem_of_filter in Hr as [_ Hr]. by exists r.
  - intros n Hn. apply elem_of_list_to_set, list_elem_of_fmap in Hn as (r & -> & Hr).
    apply list_elem_of_filter in Hr as [Hs Hr]. apply list_elem_of_filter in Hr as [_ Hr].
    apply Ho, (inv_failed _ I _ Hr Hs).
  - intros r ws k Hr Hk. destruct (p r) eqn:E; [right; eauto|left]. by apply list_elem_of_filter.
Qed.

Lemma inv_map m f :
  inv m ->
  (forall r, r_seq (f r) = r_seq r /\ r_key (f r) = r_key r /\ workspace_id (r_act (f r)) = workspace_id (r_act r) /\
             response_body (r_act (f r)) = response_body (r_act r)) ->
  inv (moved m (set_rows (map f (d_rows (w_db m))) (w_db m))).
Proof.
  intros I Hf. apply (inv_restricts m _ f); [done|done| |set_solver|set_solver|].
  - intros r Hr. apply list_elem_of_fmap in Hr as (r0 & -> & Hr). eauto.
  - intros r ws k Hr _. left. apply list_elem_of_fmap. eauto.
Qed.

Lemma inv_same m s : inv m -> d_rows s = d_rows (w_db m) -> d_seq s = d_seq (w_db m) -> inv (moved m s).
Proof.
  intros I Hr Hs. destruct I as [I1 I2 I3 I4 I5]. split; cbn; rewrite ?Hr, ?Hs; auto.
  - intros r Hin Hf. apply elem_of_union_l. auto.
  - intros n ws k Hn. destruct (I5 n ws k Hn) as [? [?|?]]; split; auto. left. set_solver.
Qed.

Lemma inv_append m key a (s := append stamp key a (w_db m)) :
  inv m ->
  (forall k, key = Some k -> exists id, text_of render (response_body a) "delegation_id" = Some id /\ key_of id = Some k) ->
  (forall k, key = Some k -> existsb (has_key (workspace_id a) k) (d_rows (w_db m)) = false) ->
  inv (World s (match key with Some k => <[d_seq (w_db m) := (workspace_id a, k)]> (w_won m) | None => w_won m end)
         (w_over m ∪ failed_seqs (d_rows s))).
Proof.
  intros I Hbody Hfree. set (new := Row (d_seq (w_db m)) (stamp (d_seq (w_db m))).1 (stamp (d_seq (w_db m))).2 key a).
  assert (Hrows : forall r, r ∈ d_rows s <-> r ∈ d_rows (w_db m) \/ r = new).
  { intros r. unfold s, append. cbn. rewrite elem_of_app, list_elem_of_singleton. done. }
  assert (Hfirst : forall ws k, has_key ws k new = true -> key = Some k /\ ws = workspace_id a).
  { intros ws k Hk. unfold has_key, of_workspace in Hk. cbn in Hk. b2p. auto. }
  assert (Hold : forall r ws k, r ∈ d_rows (w_db m) -> has_key ws k r = true -> has_key ws k new = true -> False).
  { intros r ws k Hr Hk Hn. destruct (Hfirst _ _ Hn) as [Ek ->]. specialize (Hfree _ Ek).
    assert (existsb (has_key (workspace_id a) k) (d_rows (w_db m)) = true) as E; [|congruence].
    apply existsb_exists. exists r. split; [by apply list_elem_of_In|done]. }
  split; cbn [w_db w_won w_over].
  - intros r Hr. apply Hrows in Hr as [Hr| ->]; cbn; [|lia]. pose proof (inv_seq _ I _ Hr). lia.
  - intros r k Hr Hk. apply Hrows in Hr as [Hr| ->]; [by apply (inv_key _ I r)|]. by apply Hbody.
  - intros r r' ws k Hr Hr' Hk Hk'. apply Hrows in Hr as [Hr| ->], Hr' as [Hr'| ->]; [by apply (inv_one _ I _ _ ws k)|exfalso; eauto..|done].
  - intros r Hr Hs. apply elem_of_union_r. by apply failed_seqs_spec.
  - intros n ws k Hn.
    assert (Hcase : w_won m !! n = Some (ws, k) \/ (n = d_seq (w_db m) /\ ws = workspace_id a /\ key = Some k)).
    { destruct key as [k0|]; [|by left]. apply lookup_insert_Some in Hn as [[<- [= <- <-]]|[_ Hn]]; auto. }
    destruct Hcase as [Hw|(-> & -> & Ek)].
    + destruct (inv_won _ I _ _ _ Hw) as [Hlt Hin]. split; [cbn; lia|]. destruct Hin as [Ho|(r & Hr & Hseq & Hk)].
      * left. set_solver.
      * right. exists r. split; [|done]. apply Hrows. by left.
    + split; [cbn; lia|]. right. exists new. split_and!; [apply Hrows; by right|done|].
      unfold has_key, of_workspace. cbn. rewrite Ek. by rewrite !bool_decide_eq_true_2.
Qed.

Lemma inv_rows s s' won over :
  d_rows s' = d_rows s -> d_seq s' = d_seq s -> inv (World s won over) -> inv (World s' won over).
Proof. intros Hr Hs [I1 I2 I3 I4 I5]. cbn in *. split; cbn; rewrite ?Hr, ?Hs; auto. Qed.

Lemma speculative_answers ws id r : speculative render ws id r = true -> answered render r = Some id.
Proof. unfold speculative. intros Hs. b2p. done. Qed.

Lemma inv_dstep m m' : inv m -> dstep m m' -> inv m'.
Proof.
  intros I. destruct 1 as [fails source key m|ie source b id s m Hkey Hins|fails ws id key m Hkey|fails ws id status err m|a m|s m Hr Hs|old m].
  - unfold delete_failed. destruct fails; [by apply inv_same|]. destruct (canon source) as [ws|]; [|by apply inv_same].
    apply inv_filter; [done|set_solver|]. intros r w k Hr _ Hp. apply elem_of_union_l, (inv_failed _ I _ Hr).
    unfold reclaims in Hp. b2p. done.
  - unfold insertDelegationRow, Delegation.insertDelegationRow in Hins.
    destruct (insert_pending _ _ _ _ _ _) as [s0|] eqn:E; [|repeat case_match; simplify_eq].
    injection Hins as <-. unfold insert_pending in E. destruct (i_fails ie); [done|]. unfold won_by.
    destruct (canon source) as [w|]; [|done]. destruct (canon (TargetID b)) as [t|]; [|done]. cbv zeta in E.
    rewrite <- Hkey in *. destruct (key_of id) as [k|] eqn:Ek.
    + destruct (existsb _ _) eqn:Ef; [done|]. injection E as <-.
      apply (inv_rows (append stamp (Some k) (delegate_row w t (TargetID b) (Task b) id "pending") (w_db m))); [done..|].
      apply (inv_append m (Some k) (delegate_row w t (TargetID b) (Task b) id "pending") I).
      * intros k' [= <-]. by exists id.
      * intros k' [= <-]. done.
    + injection E as <-.
      apply (inv_rows (append stamp None (delegate_row w t (TargetID b) (Task b) id "pending") (w_db m))); [done..|].
      by apply (inv_append m None (delegate_row w t (TargetID b) (Task b) id "pending") I).
  - unfold rollbackUndispatchedDelegation. destruct fails; [by apply inv_same|]. destruct (canon ws) as [w|]; [|by apply inv_same].
    case_decide as Hk.
    + apply inv_filter; [done|set_solver|]. intros r w' k Hr Hhas Hp. exfalso. unfold has_key in Hhas. b2p.
      apply speculative_answers in Hp. destruct (inv_key _ I r k Hr) as (id' & Ha & Hid'); [done|].
      rewrite Hp in Ha. injection Ha as ->. rewrite Hkey in Hid'. subst key. discriminate.
    + apply inv_map; [done|]. intros r. by destruct (speculative render w id r).
  - unfold updateActivityLogStatus. destruct fails; [by apply inv_same|]. destruct (canon ws) as [w|]; [|by apply inv_same].
    apply inv_map; [done|]. intros r. by destruct (of_delegation render w id r).
  - by apply (inv_append m None a I).
  - by apply inv_same.
  - apply inv_filter; [done|set_solver|]. intros r ws k Hr _ Ho. apply elem_of_union_r, elem_of_list_to_set, list_elem_of_fmap.
    exists r. split; [done|]. by apply list_elem_of_filter.
Qed.

Definition nothing (g : Approvals.approvals) : world := World (DState [] 0 ∅ g [] [] []) ∅ ∅.

Lemma inv_reachable g m : rtc dstep (nothing g) m -> inv m.
Proof.
  apply (rtc_ind_r (fun m => inv m)); [|eauto using inv_dstep].
  split; cbn; intros *; by rewrite ?lookup_empty, ?elem_of_nil.
Qed.

(** C39: However requests, jobs, rejections, retries and status updates interleave, and whatever is pruned,
    of two rows inserted under one idempotency key of one workspace one has failed or was pruned: a key never has two
    live delegations. *)
Theorem one_live_delegation_per_key g m n1 n2 ws k (Hreach : rtc dstep (nothing g) m)
    (H1 : w_won m !! n1 = Some (ws, k)) (H2 : w_won m !! n2 = Some (ws, k)) (Hne : n1 <> n2) :
  n1 ∈ w_over m \/ n2 ∈ w_over m.
Proof.
  pose proof (inv_reachable _ _ Hreach) as I.
  destruct (inv_won _ I _ _ _ H1) as [_ [?|(r1 & Hr1 & <- & Hk1)]]; [by left|].
  destruct (inv_won _ I _ _ _ H2) as [_ [?|(r2 & Hr2 & <- & Hk2)]]; [by right|].
  by destruct (Hne (inv_one _ I _ _ _ _ Hr1 Hr2 Hk1 Hk2)).
Qed.

(** ** Whole handlers are sequences of these steps *)

Context (uuid_parses : string -> bool) (marshal : json -> string) (sha256_hex : string -> string).
Abbreviation Delegate := (Delegate env render stamp uuid_parses marshal sha256_hex).
Abbreviation gate_and_start := (gate_and_start env render marshal sha256_hex).

Definition runs (m : world) (s : dstate) : Prop := exists m', rtc dstep m m' /\ w_db m' = s.
Definition others (f : dstate -> dstate) : Prop := forall m, runs m (f (w_db m)).

Lemma runs_refl m : runs m (w_db m).
Proof. by exists m. Qed.
Lemma runs_one m m' : dstep m m' -> runs m (w_db m').
Proof. intros Hs. exists m'. split; [by apply rtc_once|done]. Qed.
Lemma runs_then m s f : runs m s -> (forall m', runs m' (f (w_db m'))) -> runs m (f s).
Proof. intros (m1 & H1 & <-) Hf. destruct (Hf m1) as (m2 & H2 & <-). exists m2. by split; [etransitivity|]. Qed.

Lemma runs_rows m s : d_rows s = d_rows (w_db m) -> d_seq s = d_seq (w_db m) -> runs m s.
Proof. intros Hr Hs. exact (runs_one _ _ (s_elsewhere s m Hr Hs)). Qed.
Lemma runs_say e m : runs m (say e (w_db m)).
Proof. by apply runs_rows. Qed.
Lemma runs_update fails ws id st err m : runs m (updateActivityLogStatus render fails ws id st err (w_db m)).
Proof. apply (runs_one _ _ (s_update fails ws id st err m)). Qed.
Lemma runs_append a m : runs m (append stamp None a (w_db m)).
Proof. apply (runs_one _ _ (s_append a m)). Qed.
Lemma runs_insert_result fails ws target mk m : runs m (insert_result stamp fails ws target mk (w_db m)).
Proof. unfold insert_result. repeat case_match; auto using runs_refl, runs_append. Qed.
Lemma runs_push fails source target id st preview err m : runs m (push env stamp fails source target id st preview err (w_db m)).
Proof.
  unfold push, append_all. generalize (pushDelegationResultToInbox env [] fails source target id st preview err).1 as l. intros l.
  revert m. induction l as [|a l IH]; intros m; [apply runs_refl|]. cbn.
  exact (runs_then _ _ (fun s => foldl (fun s a => append stamp None a s) s l) (runs_append a m) IH).
Qed.
Lemma runs_ledger u id st err preview m : runs m (ledger_status env u id st err preview (w_db m)).1.
Proof. unfold ledger_status. destruct (recordLedgerStatus _ _ _ _ _ _ _ _). by apply runs_rows. Qed.
Lemma runs_status u ws id st err m : runs m (updateDelegationStatus env render u ws id st err (w_db m)).1.
Proof.
  unfold updateDelegationStatus. destruct (IsValidDelegationStatus st); [|apply runs_update].
  exact (runs_then _ _ (fun s => (ledger_status env u id st err "" s).1) (runs_update _ _ _ _ _ m) (runs_ledger _ _ _ _ _)).
Qed.

Lemma runs_lookup f g others0 source key m :
  others others0 -> runs m (lookupIdempotentDelegation render f g others0 source key (w_db m)).1.
Proof.
  intros Ho. unfold lookupIdempotentDelegation. repeat case_match; auto using runs_refl.
  apply (runs_then _ _ (delete_failed g source key) (Ho m)). intros m'. apply (runs_one _ _ (s_delete g source key m')).
Qed.

Lemma runs_insert ie source b id m :
  key_of id = nullif_empty (IdempotencyKey b) -> others (i_others ie) ->
  runs m (insertDelegationRow ie source b id (w_db m)).1.1.
Proof.
  intros Hk Ho. destruct (insertDelegationRow ie source b id (w_db m)) as [[s o] r] eqn:E. cbn.
  assert (Hother : o <> insertOK -> runs m s).
  { intros Hne. unfold insertDelegationRow, Delegation.insertDelegationRow in E.
    repeat case_match; simplify_eq; first [done | apply runs_refl | apply Ho]. }
  destruct o; [|by apply Hother..]. clear Hother.
  assert (r = None) as -> by (unfold insertDelegationRow, Delegation.insertDelegationRow in E; repeat case_match; by simplify_eq).
  exact (runs_one _ _ (s_insert ie source b id s m Hk E)).
Qed.

Lemma runs_gate w source b outcome m :
  key_of (w_gen w) = nullif_empty (IdempotencyKey b) -> others (w_others w 3%nat) ->
  runs m (gate_and_start w source b outcome (w_db m)).1.
Proof.
  intros Hk Ho. unfold gate_and_start, Delegation.gate_and_start.
  destruct (Approvals.gatePrivilegedDelegation _ _ _ _ _ _ _ _ _) as [[g v] grant].
  assert (Hback : runs m (w_others w 3%nat (set_grants g (w_db m)))).
  { exact (runs_then _ _ _ (runs_rows m (set_grants g (w_db m)) eq_refl eq_refl) Ho). }
  assert (Hroll : forall s, runs m s -> runs m (rollbackUndispatchedDelegation render (w_rollback_fails w) source (w_gen w) (IdempotencyKey b) s)).
  { intros s Hs. apply (runs_then _ _ _ Hs). intros m'. apply (runs_one _ _ (s_rollback _ _ _ _ m' Hk)). }
  destruct v; cbn; [by apply runs_rows|destruct outcome; auto..].
Qed.

(** A request is a sequence of steps, whatever the others do in between. *)
Lemma delegate_runs w source body m :
  (forall b, body = Some b -> key_of (w_gen w) = nullif_empty (IdempotencyKey b)) ->
  (forall n, others (w_others w n)) -> others (i_others (w_insert w)) ->
  runs m (Delegate w source body (w_db m)).1.
Proof.
  intros Hk Ho Hi. unfold Delegate, Delegation.Delegate, bindDelegateRequest.
  destruct (negb _ && negb _); [apply runs_refl|]. destruct body as [b|]; [|apply runs_refl].
  specialize (Hk b eq_refl). case_decide; [apply runs_refl|]. destruct (uuid_parses (TargetID b)); [|apply runs_refl].
  destruct (negb (loadWorkspaceCanDelegate _)); [apply runs_refl|]. case_decide; [apply runs_refl|].
  pose proof (runs_lookup (w_lookup_fails w) (w_delete_fails w) _ source (IdempotencyKey b) m (Ho 0%nat)) as Hl.
  destruct (lookupIdempotentDelegation _ _ _ _ _ _ _) as [s1 [r|]]; cbn in Hl; [done|].
  apply (runs_then _ _ (w_others w 1%nat)) in Hl; [|apply Ho].
  apply (runs_then _ _ (fun s => (insertDelegationRow (w_insert w) source b (w_gen w) s).1.1)) in Hl;
    [|intros m'; by apply runs_insert].
  destruct (Delegation.insertDelegationRow _ _ _ _ _ _ _) as [[s2 []] r]; cbn in Hl |- *; [|done|];
    apply (runs_then _ _ (w_others w 2%nat)) in Hl; try apply Ho;
    apply (runs_then _ _ (fun s => (gate_and_start w source b _ s).1) Hl); intros m'; by apply runs_gate.
Qed.
End Steps.

(** * How a job ends *)

Section Jobs.
Context `{UuidCast}.
Context (env : environment) (render : json -> string) (stamp : nat -> string * time).

Abbreviation executeDelegation := (executeDelegation env render stamp).

(** ** What the target was seen to do

    [made] are the calls of a job: the second only after a transient error that left no body, before the deadline.
    [worked]: a 2xx answer with something in it, whatever befell the connection afterwards.  [took]: the call handed the
    task over; beside a worked answer, one without any error outside 2xx, which the proxy does not give. *)
Definition made (x : exec_env) : list attempt :=
  x_tries x 0%nat :: if retried x (x_tries x 0%nat) then [x_tries x 1%nat] else [].
Definition worked (a : attempt) : Prop := 200 <= at_status a < 300 /\ raw (at_body a) <> "".
Definition took (a : attempt) : Prop := worked a \/ (at_err a = None /\ ~ 200 <= at_status a < 300).
Definition busy (a : attempt) : Prop := at_status a = 202 /\ (QueuedA2AResponse (at_body a)).1 = true.

(** The answer that is lost: the second call worked, and its transport failed. *)
Definition lost_answer (x : exec_env) : Prop :=
  exists second, made x = [x_tries x 0%nat; second] /\ worked second /\ at_err second <> None.

(** The verdict an observer of the calls would give. *)
Inductive deserves (x : exec_env) : string -> Prop :=
| dv_failed : Forall (fun a => ~ took a) (made x) \/ lost_answer x -> deserves x "failed"
| dv_queued a : a ∈ made x -> took a -> busy a -> ~ lost_answer x -> deserves x "queued"
| dv_completed a : a ∈ made x -> took a -> ~ busy a -> ~ lost_answer x -> deserves x "completed".

(** The state when the last answer is in. *)
Definition after_calls (x : exec_env) (j : job) (s : dstate) : dstate :=
  let s := (updateDelegationStatus env render (x_dispatched x) (j_source j) (j_id j) "dispatched" "" s).1 in
  let s := try_once x 0 (j_target j) (j_body j) (say (StatusIs (j_source j) (j_id j) (j_target j) "dispatched") s) in
  if retried x (x_tries x 0%nat) then try_once x 1 (j_target j) (j_body j) s else s.

(** The delegate rows of [id] carry [st], the others are as they were. *)
Definition settles (w id st : string) (old new : row) : Prop :=
  if of_delegation render w id old then act_status (r_act new) = st /\ r_key new = r_key old /\ r_seq new = r_seq old
  else new = old.

(** [s'] is [s] with the delegation settled as [st]: one result row, and at most one
    message in the inbox of the caller. *)
Record settled_as (w id st : string) (s s' : dstate) : Prop := {
  sa_grants : d_grants s' = d_grants s;
  sa_rows : exists old result inbox, d_rows s' = old ++ result :: inbox /\ Forall2 (settles w id st) (d_rows s) old /\
    activity_type (r_act result) = "delegation" /\ method (r_act result) = "delegate_result" /\
    act_status (r_act result) = st /\ answered render result = Some id /\
    (length inbox <= 1)%nat /\ Forall (fun r => is_inbox_reply id (r_act r) = true) inbox
}.

Lemma update_settles u ws id st err s w :
  u_fails u = false -> canon ws = Some w ->
  Forall2 (settles w id st) (d_rows s) (d_rows (updateDelegationStatus env render u ws id st err s).1) /\
  d_grants (updateDelegationStatus env render u ws id st err s).1 = d_grants s /\
  Forall2 (settles w id st) (d_rows s) (d_rows (updateActivityLogStatus render false ws id st err s)).
Proof.
  intros Hu Hw.
  assert (Ha : Forall2 (settles w id st) (d_rows s) (d_rows (updateActivityLogStatus render false ws id st err s))).
  { unfold updateActivityLogStatus. rewrite Hw. cbn. induction (d_rows s) as [|r l IH]; cbn; constructor; [|done].
    unfold settles. by destruct (of_delegation render w id r). }
  assert (Hb : forall err' s0, d_rows (ledger_status env u id st err' "" s0).1 = d_rows s0 /\ d_grants (ledger_status env u id st err' "" s0).1 = d_grants s0).
  { intros err' s0. unfold ledger_status. by destruct (recordLedgerStatus _ _ _ _ _ _ _ _). }
  assert (Hg : d_grants (updateActivityLogStatus render false ws id st err s) = d_grants s).
  { unfold updateActivityLogStatus. by rewrite Hw. }
  unfold updateDelegationStatus. rewrite Hu. destruct (IsValidDelegationStatus st); [|done].
  destruct (Hb err (updateActivityLogStatus render false ws id st err s)) as [-> ->]. done.
Qed.

Lemma insert_appends ws w target t mk s :
  canon ws = Some w -> canon target = Some t ->
  insert_result stamp false ws (Some target) mk s = append stamp None (mk w (Some t)) s.
Proof. intros Hw Ht. unfold insert_result. by rewrite Hw, Ht. Qed.

(** The inbox message, when there is one. *)
Lemma push_appends fails source target id st preview err s :
  exists inbox, d_rows (push env stamp fails source target id st preview err s) = d_rows s ++ inbox /\
    d_grants (push env stamp fails source target id st preview err s) = d_grants s /\
    (length inbox <= 1)%nat /\ Forall (fun r => is_inbox_reply id (r_act r) = true) inbox.
Proof.
  assert (Hnone : d_rows s = d_rows s ++ []) by (by rewrite app_nil_r).
  unfold push, pushDelegationResultToInbox. destruct (negb _); [exists []; cbn; split_and!; auto; lia|].
  unfold log_insert. destruct fails; [exists []; cbn; split_and!; auto; lia|].
  destruct (inbox_row source target id st preview err) as [a|] eqn:E; [|exists []; cbn; split_and!; auto; lia].
  cbn. eexists. split_and!; [done|done|cbn; lia|]. constructor; [|done]. cbn.
  rewrite (inbox_row_reply id _ _ _ _ _ _ _ E). by rewrite bool_decide_eq_true_2.
Qed.

(** A settled table, its result row, and perhaps a message. *)
Lemma settled_intro w id st s s1 s2 (a : activity) :
  Forall2 (settles w id st) (d_rows s) (d_rows s1) ->
  (exists inbox, d_rows s2 = d_rows (append stamp None a s1) ++ inbox /\ (length inbox <= 1)%nat /\
     Forall (fun r => is_inbox_reply id (r_act r) = true) inbox) ->
  d_grants s2 = d_grants s ->
  activity_type a = "delegation" -> method a = "delegate_result" -> act_status a = st ->
  text_of render (response_body a) "delegation_id" = Some id ->
  settled_as w id st s s2.
Proof.
  intros Hrows (inbox & Hr & Hl & Hi) Hg Ht Hm Hst Hid. split; [done|].
  eexists _, _, inbox. rewrite Hr. cbn. rewrite <- app_assoc. cbn. by split_and!.
Qed.

Lemma success_settles x source target id a s w t :
  canon source = Some w -> canon target = Some t -> x_insert_fails x = false -> u_fails (x_final x) = false ->
  settled_as w id (if (at_status a =? 202) && (QueuedA2AResponse (at_body a)).1 then "queued" else "completed")
    s (handleSuccess env render stamp x source target id a s).
Proof.
  intros Hw Ht Hi Hu. unfold handleSuccess. destruct ((at_status a =? 202) && _).
  - rewrite Hi, Hu, (insert_appends _ _ _ _ _ _ Hw Ht).
    set (res := result_row _ _ _ _ _ _ _).
    apply (settled_intro w id "queued" s _ _ res (proj2 (proj2 (update_settles (x_final x) source id "queued" "" s w Hu Hw)))); [| |done..].
    + exists []. rewrite app_nil_r. split_and!; [reflexivity|cbn; lia|done].
    + unfold updateActivityLogStatus. by rewrite Hw.
  - rewrite Hi, (insert_appends _ _ _ _ _ _ Hw Ht). cbv zeta.
    set (res := result_row _ _ _ _ _ _ _). set (s1 := append stamp None res s).
    set (s2 := (ledger_status env (x_preview x) id "completed" "" _ s1).1).
    assert (E2 : d_rows s2 = d_rows s1 /\ d_grants s2 = d_grants s).
    { unfold s2, ledger_status. destruct (recordLedgerStatus _ _ _ _ _ _ _ _). done. }
    pose proof (update_settles (x_final x) source id "completed" "" s2 w Hu Hw) as (Hrows & Hgr & _).
    destruct (updateDelegationStatus env render (x_final x) source id "completed" "" s2) as [s3 auth]. cbn in Hrows, Hgr |- *.
    rewrite (proj1 E2) in Hrows. unfold s1, append in Hrows. cbn in Hrows.
    apply Forall2_app_inv_l in Hrows as (old & new & Hold & Hnew & Erows).
    apply Forall2_cons_inv_l in Hnew as (r' & tl & Hr' & Htl & ->). apply Forall2_nil_inv_l in Htl as ->.
    assert (r' = Row (d_seq s) (stamp (d_seq s)).1 (stamp (d_seq s)).2 None res) as ->.
    { unfold settles in Hr'. replace (of_delegation render w id _) with false in Hr'; [done|].
      unfold of_delegation. symmetry. apply andb_false_iff. left. apply andb_false_iff. by right. }
    assert (Hend : forall s4, d_grants s4 = d_grants s3 -> (exists inbox, d_rows s4 = d_rows s3 ++ inbox /\ (length inbox <= 1)%nat /\
               Forall (fun r => is_inbox_reply id (r_act r) = true) inbox) -> settled_as w id "completed" s s4).
    { intros s4 Hg4 (inbox & Hr4 & Hl & Hf). split; [by rewrite Hg4, Hgr, (proj2 E2)|].
      eexists old, _, inbox. rewrite Hr4, Erows, <- app_assoc. by split_and!. }
    destruct (mayReply auth); apply Hend; cbn; auto.
    + by destruct (push_appends (x_push_fails x) source target id "completed" (extractResponseText (at_body a)) ""
                  (say (Completed source id (Some target) (TruncateBytes (extractResponseText (at_body a)) 200)) s3)) as (? & _ & -> & _).
    + destruct (push_appends (x_push_fails x) source target id "completed" (extractResponseText (at_body a)) ""
                  (say (Completed source id (Some target) (TruncateBytes (extractResponseText (at_body a)) 200)) s3)) as (i & ? & _ & ? & ?). eauto.
    + exists []. rewrite app_nil_r. split_and!; [done|cbn; lia|done].
Qed.

Lemma finalize_settles x source target id err grant s w t :
  canon source = Some w -> canon target = Some t -> x_insert_fails x = false -> u_fails (x_final x) = false ->
  exists s0, settled_as w id "failed" s s0 /\
    finalizeNonDispatchedDelegation env render stamp x source target id err grant s =
      set_grants (Approvals.restorePrivilegedDelegationGrant (x_restore_fails x) source grant (d_grants s)) s0.
Proof.
  intros Hw Ht Hi Hu. unfold finalizeNonDispatchedDelegation.
  pose proof (update_settles (x_final x) source id "failed" err s w Hu Hw) as (Hrows & Hgr & _).
  destruct (updateDelegationStatus env render (x_final x) source id "failed" err s) as [s1 auth]. cbn in Hrows, Hgr.
  rewrite Hi, (insert_appends _ _ _ _ _ _ Hw Ht). cbv zeta.
  set (res := result_row _ _ _ _ _ _ _). set (s2 := say _ (append stamp None res s1)).
  set (s3 := if mayReply auth then _ else _).
  assert (H3 : d_grants s3 = d_grants s /\ settled_as w id "failed" s s3).
  { unfold s3. destruct (mayReply auth).
    - destruct (push_appends (x_push_fails x) source target id "failed" "" err s2) as (i & Hr & Hg & Hl & Hf).
      split; [by rewrite Hg|]. apply (settled_intro w id "failed" s s1 _ res Hrows); [exists i; by split_and!|by rewrite Hg|done..].
    - split; [done|]. apply (settled_intro w id "failed" s s1 s2 res Hrows); [|done..].
      exists []. rewrite app_nil_r. split_and!; [done|cbn; lia|done]. }
  exists s3. destruct H3 as [Hg H3]. by rewrite Hg.
Qed.

Lemma two_hundred a : (200 <=? at_status a) && (at_status a <? 300) = true <-> 200 <= at_status a < 300.
Proof. rewrite andb_true_iff. lia. Qed.

Lemma confirmed_spec a :
  isDeliveryConfirmedSuccess (at_err a) (at_status a) (at_body a) = true <-> at_err a <> None /\ worked a.
Proof.
  unfold isDeliveryConfirmedSuccess, worked. destruct (at_err a); [|by split; [|intros [[] _]]].
  rewrite !andb_true_iff, negb_true_iff, bool_decide_eq_false, Z.leb_le, Z.ltb_lt. naive_solver.
Qed.

(** A call that is made again had an error and no answer. *)
Lemma retried_took x a : retried x a = true -> at_err a <> None /\ ~ took a.
Proof.
  unfold retried, isTransientProxyError. destruct (at_err a) as [e|] eqn:E; [|done]. intros Hr. b2p.
  split; [done|]. unfold took, worked. intros [[_ ?]|[? _]]; congruence.
Qed.

(** Whether a call without further questions hands the task over. *)
Definition accepted (a : attempt) : bool :=
  match at_err a with
  | Some _ => false
  | None => negb ((200 <=? at_status a) && (at_status a <? 300) && bool_decide (raw (at_body a) = ""))
  end.

Lemma accepted_spec a : accepted a = true <-> at_err a = None /\ took a.
Proof.
  unfold accepted, took, worked. destruct (at_err a); [naive_solver|]. rewrite <- two_hundred.
  destruct ((200 <=? at_status a) && (at_status a <? 300)); case_bool_decide; naive_solver.
Qed.

Lemma busy_spec a : (at_status a =? 202) && (QueuedA2AResponse (at_body a)).1 = true <-> busy a.
Proof. unfold busy. by rewrite andb_true_iff, Z.eqb_eq. Qed.

(** The verdict of an answer that hands the task over. *)
Definition answer_verdict (a : attempt) : string :=
  if (at_status a =? 202) && (QueuedA2AResponse (at_body a)).1 then "queued" else "completed".

Lemma deserves_answer x a : a ∈ made x -> took a -> ~ lost_answer x -> deserves x (answer_verdict a).
Proof.
  intros Ha Ht Hl. unfold answer_verdict. destruct ((at_status a =? 202) && _) eqn:E.
  - apply (dv_queued x a); auto. by apply busy_spec.
  - apply (dv_completed x a); auto. rewrite <- busy_spec. congruence.
Qed.

(** Which call settles the job, and how. *)
Lemma settled_by_last x (a := if retried x (x_tries x 0%nat) then x_tries x 1%nat else x_tries x 0%nat) :
  isDeliveryConfirmedSuccess (at_err (x_tries x 0%nat)) (at_status (x_tries x 0%nat)) (at_body (x_tries x 0%nat)) = false ->
  deserves x (if accepted a then answer_verdict a else "failed").
Proof.
  intros Hc. assert (Hfirst : ~ (at_err (x_tries x 0%nat) <> None /\ worked (x_tries x 0%nat))).
  { rewrite <- confirmed_spec. congruence. }
  destruct (accepted a) eqn:Ea.
  - apply accepted_spec in Ea as [He Ht]. apply deserves_answer; [|done|].
    + unfold a, made. destruct (retried _ _); set_solver.
    + intros (second & Hm & _ & Hs). unfold made in Hm. unfold a in He. destruct (retried _ _); by simplify_eq.
  - assert (Hn : ~ (at_err a = None /\ took a)) by (rewrite <- accepted_spec; congruence).
    apply dv_failed. unfold lost_answer, made. unfold a in Hn. clear Ea a. destruct (retried _ _) eqn:Er.
    + pose proof (retried_took _ _ Er) as [_ Hno]. destruct (at_err (x_tries x 1%nat)) eqn:E1.
      * destruct (decide (200 <= at_status (x_tries x 1%nat) < 300 /\ raw (at_body (x_tries x 1%nat)) <> "")) as [Hw|Hw].
        -- right. exists (x_tries x 1%nat). split_and!; [done|apply Hw..|congruence].
        -- left. apply Forall_cons; split; [done|]. apply Forall_singleton. intros [?|[? _]]; [by apply Hw|congruence].
      * left. apply Forall_cons; split; [done|]. apply Forall_singleton. intros Ht. by apply Hn.
    + left. apply Forall_singleton. intros Ht. destruct (at_err (x_tries x 0%nat)) eqn:E0; [|by apply Hn].
      destruct Ht as [?|[? _]]; [by apply Hfirst|congruence].
Qed.

Lemma settle_settles x source target id grant a s w t :
  canon source = Some w -> canon target = Some t -> x_insert_fails x = false -> u_fails (x_final x) = false ->
  exists s0, settled_as w id (if accepted a then answer_verdict a else "failed") s s0 /\
    settle env render stamp x source target id grant a s =
      if accepted a then s0 else set_grants (Approvals.restorePrivilegedDelegationGrant (x_restore_fails x) source grant (d_grants s)) s0.
Proof.
  intros Hw Ht Hi Hu. unfold settle, accepted. destruct (at_err a) as [e|]; [by eapply finalize_settles|].
  destruct (_ && bool_decide _); cbn; [by eapply finalize_settles|]. eexists. split; [|reflexivity]. by eapply success_settles.
Qed.

Lemma answer_is_no_failure a : answer_verdict a <> "failed".
Proof. unfold answer_verdict. by destruct (_ && _). Qed.

(** C40: A job whose own statements work settles its delegation once, with the verdict the calls deserve:
    every delegate row of the id takes it, one result row with that verdict and id is added, and at most one message
    reaches the caller's inbox.  The verdict is failed exactly when no call handed the task over (a 2xx answer with
    something in it did, even when the connection broke afterwards), with one exception: a second call whose worked answer
    came with a transport error.  Then, and in no other case, the consumed grant is given back; otherwise the grants stay
    as they were. *)
Theorem job_settles_once x j s w t
    (Hw : canon (j_source j) = Some w) (Ht : canon (j_target j) = Some t)
    (Hi : x_insert_fails x = false) (Hu : u_fails (x_final x) = false) :
  exists verdict s0, deserves x verdict /\ settled_as w (j_id j) verdict (after_calls x j s) s0 /\
    (verdict = "failed" <-> Forall (fun a => ~ took a) (made x) \/ lost_answer x) /\
    executeDelegation x j s =
      if decide (verdict = "failed")
      then set_grants (Approvals.restorePrivilegedDelegationGrant (x_restore_fails x) (j_source j) (j_grant j)
                         (d_grants (after_calls x j s))) s0
      else s0.
Proof.
  assert (Hiff : forall v, deserves x v -> (v = "failed" <-> Forall (fun a => ~ took a) (made x) \/ lost_answer x)).
  { intros v. destruct 1 as [?|a Ha Hta _ Hl|a Ha Hta _ Hl]; [done|..];
      (split; [done|]); (intros [Hn|?]; [|done]); rewrite Forall_forall in Hn; by destruct (Hn a Ha). }
  unfold executeDelegation, Delegation.executeDelegation, after_calls. cbv zeta.
  pose proof (settled_by_last x) as Hlast. destruct (isDeliveryConfirmedSuccess _ _ _) eqn:Hc.
  - apply confirmed_spec in Hc as [He Hwk]. destruct (retried x (x_tries x 0%nat)) eqn:Er.
    { by destruct (proj2 (retried_took _ _ Er)); left. }
    assert (Hd : deserves x (answer_verdict (x_tries x 0%nat))).
    { unfold lost_answer, made. apply deserves_answer; [unfold made; set_solver|by left|].
      intros (second & Hm & _). unfold made in Hm. by rewrite Er in Hm. }
    eexists _, _. split; [exact Hd|]. split; [by eapply success_settles|]. split; [by apply Hiff|].
    rewrite decide_False; [done|apply answer_is_no_failure].
  - specialize (Hlast eq_refl). cbv zeta in Hlast. revert Hlast.
    destruct (retried x (x_tries x 0%nat)); intros Hd;
      (edestruct (settle_settles x (j_source j) (j_target j) (j_id j) (j_grant j)) as (s0 & Hs & ->); [done..|]);
      eexists _, s0; (split; [exact Hd|]); (split; [exact Hs|]); (split; [by apply Hiff|]);
      destruct (accepted _); try rewrite decide_True by done; try (rewrite decide_False by apply answer_is_no_failure); done.
Qed.
End Jobs.

Module DelegationDemo.
Definition cast : UuidCast := plain_cast.
#[local] Existing Instance cast.
Definition env : environment := fun k => if decide (k = "DELEGATION_LEDGER_WRITE") then "1" else "".
Definition render (_ : json) : string := "".
Definition stamp (n : nat) : string * time := ("row", Z.of_nat n).
Definition nobody : Approvals.caller := Approvals.Caller None None.
Definition gate : Approvals.gate_env := Approvals.GateEnv false (fun _ => false) false "g" false 0 ∅ id true.
Definition calm : insert_env := InsertEnv false 0 false id false.
Definition request (gen : string) (ie : insert_env) : delegate_env :=
  DelegateEnv "" nobody (Some true) false false gen ie gate false (fun _ => id).
Definition empty : dstate := w_db (nothing (Approvals.Approvals ∅ [])).
Definition body : delegateRequest := DelegateRequest "b" "report" "k1".
Definition delegate (gen : string) (ie : insert_env) (s : dstate) : dstate * reply :=
  Delegate env render stamp (fun _ => true) (fun _ => "") id (request gen ie) "a" (Some body) s.
Definition key_of (id : string) : option string := if decide (id = "d1" \/ id = "d2") then Some "k1" else None.

(** ** A key, used again after its delegation failed *)

Definition fail_it (s : dstate) : dstate := updateActivityLogStatus render false "a" "d1" "failed" "unreachable" s.
Definition w1 : world := World (insertDelegationRow env render stamp calm "a" body "d1" empty).1.1 (<[0%nat := ("a", "k1")]> ∅) ∅.
Definition w2 : world := moved w1 (fail_it (w_db w1)).
Definition w3 : world := moved w2 (delete_failed false "a" "k1" (w_db w2)).
Definition w4 : world :=
  World (insertDelegationRow env render stamp calm "a" body "d2" (w_db w3)).1.1 (<[1%nat := ("a", "k1")]> (w_won w3)) (w_over w3).

Lemma reach4 : rtc (dstep env render stamp key_of) (nothing (Approvals.Approvals ∅ [])) w4.
Proof.
  eapply rtc_l; [|eapply rtc_l; [|eapply rtc_l; [|apply rtc_once]]].
  - replace w1 with (World (w_db w1) (won_by "a" "k1" (nothing (Approvals.Approvals ∅ []))) (∅ ∪ failed_seqs (d_rows (w_db w1))))
      by (vm_compute; reflexivity).
    by apply (s_insert env render stamp key_of calm "a" body "d1").
  - apply (s_update env render stamp key_of false "a" "d1" "failed" "unreachable" w1).
  - apply (s_delete env render stamp key_of false "a" "k1" w2).
  - replace w4 with (World (w_db w4) (won_by "a" "k1" w3) (w_over w3 ∪ failed_seqs (d_rows (w_db w4))))
      by (vm_compute; reflexivity).
    by apply (s_insert env render stamp key_of calm "a" body "d2").
Qed.

Lemma one_live_delegation_per_key_witness :
  rtc (dstep env render stamp key_of) (nothing (Approvals.Approvals ∅ [])) w4 /\ (0%nat ∈ w_over w4 \/ 1%nat ∈ w_over w4).
Proof.
  split; [exact reach4|].
  apply (one_live_delegation_per_key env render stamp key_of (Approvals.Approvals ∅ []) w4 0 1 "a" "k1" reach4); [reflexivity..|discriminate].
Defined.

(** ** Jobs *)

Definition ok_body : payload := Payload "r" (Some (JObj [("result", JStr "done")])).
Definition quiet_turn : turn := Turn false quiet 0.
Definition exec (tries : nat -> attempt) : exec_env := ExecEnv quiet_turn tries (fun _ => id) false false quiet_turn quiet_turn false false.
Definition gone : attempt := Attempt 0 (Payload "" None) (Some (ProxyA2AError 502 (Some "failed to reach workspace agent") "upstream_dead")) false.
Definition cut_short : attempt := Attempt 200 ok_body (Some (ProxyA2AError 502 None "delivered")) false.
Definition job (grant : string) : job := Job "a" "b" "d1" (buildDelegateA2ABody "d1" "report") grant.
Definition unreachable : exec_env := exec (fun _ => gone).

Lemma job_settles_once_witness :
  exists verdict s0, deserves unreachable verdict /\
    settled_as render "a" "d1" verdict (after_calls env render unreachable (job "") (w_db w1)) s0 /\
    (verdict = "failed" <-> Forall (fun a => ~ took a) (made unreachable) \/ lost_answer unreachable) /\
    executeDelegation env render stamp unreachable (job "") (w_db w1) =
      if decide (verdict = "failed")
      then set_grants (Approvals.restorePrivilegedDelegationGrant false "a" ""
                         (d_grants (after_calls env render unreachable (job "") (w_db w1)))) s0
      else s0.
Proof. exact (job_settles_once env render stamp unreachable (job "") (w_db w1) "a" "b" eq_refl eq_refl eq_refl eq_refl). Defined.

(** The retry is not asked whether its answer arrived: the same answer that counts as
    delivered in the first call fails the delegation in the second. *)
Definition statuses (x : exec_env) : list string :=
  (fun r => act_status (r_act r)) <$> d_rows (executeDelegation env render stamp x (job "") empty).
Definition cut_short_again : exec_env := exec (fun n => match n with 0%nat => gone | _ => cut_short end).
Example retried_answer_is_dropped :
  head (statuses (exec (fun _ => cut_short))) = Some "completed" /\
  head (statuses cut_short_again) = Some "failed" /\ lost_answer cut_short_again.
Proof. split_and!; [vm_compute; reflexivity..|]. exists cut_short. by split_and!. Qed.

(** An INSERT that fails for want of a connection does not stop the delegation, and leaves no row: the same key runs twice. *)
Definition broken : insert_env := InsertEnv true 0 false id false.
Example untracked_key_runs_twice :
  let s := (delegate "d2" broken (delegate "d1" broken empty).1).1 in
  length (d_jobs s) = 2%nat /\ d_rows s = [] /\ (delegate "d1" broken empty).2 = Accepted "d1" "b" true.
Proof. vm_compute. by split_and!. Qed.

(** While the row stands, a second request with the key is answered with the first. *)
Example second_request_is_replayed :
  (delegate "d2" calm (delegate "d1" calm empty).1).2 = Replayed "d1" "pending" "b" /\
  (delegate "d1" calm empty).2 = Accepted "d1" "b" false /\
  (delegate "d2" calm (fail_it (delegate "d1" calm empty).1)).2 = Accepted "d2" "b" false.
Proof. vm_compute. by split_and!. Qed.

(** The ledger keeps the key of a failed delegation, so the one that follows has no row there. *)
Example second_run_is_not_in_the_ledger :
  let s1 := executeDelegation env render stamp unreachable (job "") (delegate "d1" calm empty).1 in
  let s2 := (delegate "d2" calm s1).1 in
  length (d_jobs s2) = 2%nat /\ (status <$> d_led s2 !! "d1") = Some "failed" /\ d_led s2 !! "d2" = None.
Proof. vm_compute. by split_and!. Qed.

(** The two ids of a self-delegation are compared as text. *)
Program Definition any_case : UuidCast :=
  {| canon := fun s => if decide (s = "") then None else if decide (s = "A") then Some "a" else Some s |}.
Next Obligation. intros s c. simpl. repeat case_decide; intros; simplify_eq; auto. Qed.
Next Obligation. intros c. simpl. repeat case_decide; congruence. Qed.
Example self_in_capitals :
  target_id <$> (r_act <$> d_rows (@Delegate any_case env render stamp (fun _ => true) (fun _ => "") id (request "d1" calm) "a"
     (Some (DelegateRequest "A" "report" "")) empty).1) = [Some "a"] /\
  (Delegate env render stamp (fun _ => true) (fun _ => "") id (request "d1" calm) "a"
     (Some (DelegateRequest "A" "report" "")) empty).2 = Accepted "d1" "A" false /\
  (Delegate env render stamp (fun _ => true) (fun _ => "") id (request "d1" calm) "a"
     (Some (DelegateRequest "a" "report" "")) empty).2 = Refused 400 "self-delegation not permitted".
Proof. vm_compute. by split_and!. Qed.
End DelegationDemo.
